(* ===== verification/_CoqProject ===== *)
-Q . S2P
Prelude.v
PyBase.v
PyText.v
JobModels.v
JobStore.v
JobService.v
JobInvariant.v
JobServiceProofs.v
JobClaimProofs.v
JobLifecycle.v
JobSystem.v
JobWorker.v
JobLoop.v
JobTheorems.v
Sha256.v
Auth.v
AuthProofs.v
AuthTheorems.v
Ip.v
IpProofs.v
ScopeEngine.v
ScopeProofs.v
ScopeTheorems.v
Nmap.v
FindModels.v
FindCopy.v
FindDates.v
FindRules.v
FindProtocolRules.v
FindInventoryRules.v
FindEngine.v
FindRulesProofs.v
FindProtocolProofs.v
FindInventoryProofs.v
FindEngineProofs.v
FindTheorems.v
FindStore.v
FindStoreProofs.v
FindStoreTheorems.v
InventoryBase.v
Inventory.v
InventoryIngest.v
InventoryQueries.v
InventoryInvariant.v
InventoryCorrelate.v
InventoryProofs.v
InventoryNormalize.v
InventoryHostProofs.v
InventorySystem.v
InventoryTheorems.v
Regex.v
RegexProofs.v
ProbeModels.v
ProbeTargets.v
ProbeParsers.v
ProbeModules.v
Evidence.v
EvidenceProofs.v
EvidenceTheorems.v
ProbeStore.v
NmapProgress.v
NmapTheorems.v
ProbeRun.v
Routes.v
RouteTrace.v
NmapPlans.v
ActiveRun.v
ProbeTargetsProofs.v
ProbeStoreProofs.v
ProbeTheorems.v
ProbeRunProofs.v
PassiveModels.v
Sensors.v
SensorTheorems.v
ActiveProofs.v
ActiveTheorems.v
PassiveDecode.v
PassiveRun.v
PassiveTheorems.v
