(* ===== verification/Prelude.v ===== *)
(** * WireScope: a verification library

    WireScope audits local networks.  Operators log in to a web backend, confirm which
    networks may be scanned, create audits and enqueue jobs; worker processes claim
    jobs, run their handlers and record the outcome.  What scans and passive captures
    saw is correlated into an inventory of assets; the findings engine turns inventory
    and observations into findings, and a store keeps those with the operator's
    decisions.  This library models that core, written in Python under [src/], and
    proves what it promises.

    ** Parts

    Language.
    - [Prelude] (this file): record update, programs with state and exceptions
      ([prog], [outcome], the [wp] rules), stable sorting and orders, list lemmas,
      tactics and hints.
    - [PyBase], [PyText]: Python strings, JSON values, dictionaries, [str], [repr],
      [int], [split] and [json.dumps], with the lemmas on splitting and joining.
    - [Sha256]: [hashlib] and [hmac]; [Ip], [IpProofs]: [ipaddress],
      with its round trips and networks as aligned blocks.

    Jobs ([src/jobs/], [src/persistence/], [src/backend/]).
    - [JobModels]: enumerations and rows ([jobs/models.py], [persistence/models.py]), the
      transition tables and guards ([jobs/state.py]).
    - [JobStore]: tables as finite maps, transactions, the clock, [uuid4] and the row
      order of SQLite as the class [Runtime] ([persistence/database.py]).
    - [JobService]: every method of [JobService] ([jobs/service.py]), one definition
      each, with the guards, writes and events in the order of the code.
    - [JobLifecycle]: [RecoveryService.retry] ([backend/recovery.py]), the transaction
      of [AuditDeletionService] ([backend/audit_deletion.py]) and the pruning of job
      events ([jobs/maintenance.py]).
    - [JobWorker]: [HandlerRegistry] ([jobs/registry.py]) and [JobWorker.run_once],
      [_execute] ([jobs/worker.py]); a handler is any program over the store.
      [JobLoop]: [JobWorker.run_forever], and what it does to the queue.
    - [JobSystem]: calls, the step relation over them, reachable stores.
    - [JobInvariant], [JobServiceProofs], [JobClaimProofs]: the invariant and the rules
      of each operation.
    - [JobTheorems]: what the subsystem guarantees.

    Access ([src/auth/], [src/backend/security.py]).
    - [Auth]: users, sessions, the window of failed logins, every method of
      [AuthService], and the guard in front of the routes.
    - [AuthProofs]: the lemmas, abstract accounts and live sessions, and that every call
      is a step of them; [AuthTheorems]: the guarantees.

    Scopes ([src/engine/scope.py]).
    - [ScopeEngine]: validation of targets, proposals, expansion of connected networks.
    - [ScopeProofs], [ScopeTheorems]: which targets are refused and what is counted.

    Inventory ([src/parsers/nmap.py], [src/inventory/]).
    - [Nmap]: from the element tree of a scan to the typed document; [NmapTheorems].
    - [InventoryBase]: canonical forms, vendors and device classes ([normalize.py],
      [vendor.py], [classify.py], [models.py]).
    - [Inventory], [InventoryIngest], [InventoryQueries]: the tables and every method
      of [InventoryService] ([service.py]): correlation and single rows; hosts,
      documents and passive results; summaries, pages and details.
    - [InventoryInvariant], [InventoryCorrelate], [InventoryProofs], [InventoryHostProofs],
      [InventorySystem]: the invariant, what rows may become, and that single statements, hosts, documents and sequences
      of requests keep both; [InventoryNormalize]: canonical texts and
      LIKE patterns; [InventoryTheorems]: the guarantees.

    Findings ([src/findings/]).
    - [FindModels], [FindCopy]: drafts with pydantic's limits,
      severities, evaluation inputs, catalogs and texts ([models.py], [catalog.py],
      [copy.py]).
    - [FindDates]: [_parse_time] of [rules/tls.py] with the parts of [datetime] and
      [email.utils] it runs.
    - [FindRules]: the helpers of [rules/base.py]; [FindProtocolRules]: the fifteen
      rules over protocol observations ([rules/ssh.py], [tls.py], [http.py], [smb.py],
      [dns.py], [snmp.py], [ldap.py]); [FindInventoryRules]: [rules/management.py] and
      [rules/infrastructure.py].
    - [FindEngine]: [RuleRegistry], [deduplicate_drafts], [evaluate_findings]
      ([registry.py], [engine.py]).
    - [FindStore]: the findings tables and [FindingStore] ([store.py]).
    - [FindRulesProofs], [FindProtocolProofs], [FindInventoryProofs],
      [FindEngineProofs], [FindStoreProofs]: the lemmas; [FindTheorems], [FindStoreTheorems]: what engine and store guarantee.

    Protocol audits ([src/protocol_audits/], [src/parsers/protocol/],
    [src/jobs/handlers/protocol.py], the contracts of [src/providers/tools.py]).
    - [Regex]: the part of Python's [re] the code uses, as a backtracking matcher;
      [RegexProofs]: what it finds, what a pattern reads and
      what its groups hold.
    - [ProbeModels]: commands, results, availability, status ([models.py],
      [availability.py], [status.py]); [ProbeTargets]: host names, addresses in scope,
      targets ([targets.py]); [ProbeParsers]: the seven parsers; [ProbeModules]: the
      modules, their registry and the matching of work ([modules/], [registry.py],
      [matching.py]); [ProbeStore]: the observations ([store.py]); [ProbeRun]: one
      module against one target ([execute.py]) and the whole job over one database.
    - [ProbeTargetsProofs], [ProbeStoreProofs]: the lemmas; [ProbeTheorems], and the end
      of [ProbeRunProofs]: the guarantees.

    Evidence ([src/storage/evidence.py], [src/backend/audit_deletion.py]).
    - [Evidence]: every operation of [EvidenceStore] over a file system whose calls may
      each fail, and the removal of an audit's files.
    - [EvidenceProofs]: what each call may change, the invariant of
      rows and files; [EvidenceTheorems]: the guarantees.

    Active discovery ([src/jobs/handlers/active.py], [src/providers/nmap.py],
    [nmap_progress.py] and [route_trace.py], [src/engine/interfaces.py], [routes.py],
    [active_profiles.py] and [capabilities.py]).
    - [NmapProgress]: the parser of Nmap's streamed output, its percentages as binary64
      numbers, and the callback that turns snapshots into progress.
    - [Routes]: the world of a discovery job ([ActiveWorld]: a site, the runtime
      directory, the scans run), the interfaces of the host and why one is denied, the
      resolution of a scope's routes with the search for an address to look up.
    - [RouteTrace]: the live hosts behind routed targets and the traces to them, with the
      parsers of traceroute and tracepath.
    - [NmapPlans]: scan profiles with pydantic's limits, effective capabilities, and the
      command line of every kind of scan.
    - [ActiveRun]: running a plan (target file, scan, stream, report, evidence, trace) and
      the job: [_load_scope], host discovery, the TCP scans of a profile, UDP, what is
      taken in, the result, and the removal of the runtime directory.
    - [ActiveProofs]: which scans a job runs and that it keeps the database;
      [ActiveTheorems]: progress, routes, scope, and a discovery at work.

    Passive sensors ([src/engine/passive_models.py], [src/sensors/]).
    - [PassiveModels]: packets, how their fields are read, observations, sensor results
      ([passive_models.py], [sensors/base.py]).
    - [Sensors]: the fourteen sensors and their registry ([ethernet.py], [layer2.py],
      [network.py], [discovery.py], [passive.py]); [SensorTheorems]: the guarantees.

    Passive discovery ([src/jobs/handlers/passive.py], [src/engine/passive.py],
    [assessment.py] and [segment.py], [src/parsers/passive.py], [src/providers/capture.py]).
    - [PassiveDecode]: the packets of tshark's EK output; captures, conclusions and the
      assessment of a segment; its short status and its neighbours.
    - [PassiveRun]: a capture and its clean-up, its decoding, [PassivePipeline.run], and
      the job, from the duration it checks to the summary it returns.
    - [PassiveTheorems]: the guarantees, and a passive discovery at work.

    [JobSystem] ends with a concrete clock and id generator for worked instances.

    ** How they interact

    The job service and the worker share one store, which only transactions change; each
    is one step.  The job state is a set of tables, so that "every store the service
    can reach" is the closure of the empty store under the calls of [JobSystem].  Accounts and sessions,
    and the inventory, are tables of their own, and their reachable states closures in
    the same way.  The inventory reads the document [Nmap] makes of a scan and the
    scopes that passed [ScopeEngine]; addresses are compared in the canonical text of
    [Ip] throughout.  The engine is pure: a context in, drafts or an exception out.  The findings store keeps
    one row per (audit, rule, dedupe key), and a log of status changes.  A protocol audit
    works on one database ([ProbeRun.Site]): it reads the confirmed scope and the
    inventory, runs tools, stores their output with the evidence store and what the
    parsers saw with the store of observations; each component runs on its own part of
    the site.  A discovery job works on such a site too ([Routes.on_site]): it validates the
    request with [ScopeEngine], compares it with the confirmed scope of the inventory, asks
    the host for interfaces and routes, and hands each report through [Nmap] to the
    inventory and the evidence store.

    ** What the theorems show

    - Jobs: reachable stores satisfy an invariant (identities, statuses, progress, locks
      exactly of the running jobs that need one, audits agreeing with their jobs); no
      resource is used twice and no group exceeds its limit; rows only move forward;
      claiming, completing, failing, cancelling, recovering, retrying and deleting do
      what they say on every branch; a worker's round ends the job it claims; a failed
      job marks its audit for good; a worker polling alone with the queue empties it.
    - Access: calls refine abstract accounts and live sessions; exactly the passwords
      deriving the stored key log in; the guard answers as specified; repeated failures
      are throttled.
    - Scopes: validation accepts exactly bounded lists of permitted networks, and their
      listed text is read back as the same networks.
    - Inventory: a scan's tree gives its document or the error the code names; tables
      stay well formed whatever is asked and whatever fails; a scan is recorded whole,
      and taking it in again adds nothing; correlation follows hardware address, then
      first known address, and never takes an address from another asset; stronger
      evidence wins; filters mean containment, pages slice the sorted matches; device
      classes are cautious.
    - Findings: each protocol rule reports exactly the services its specification
      ([protocol_specs]) selects; what a finding cites is usable evidence about its
      service; management and passive rules likewise; the registry runs every default
      rule once, in order; deduplication keeps one finding per key with the best
      severity and all evidence, and is idempotent; an evaluation fails only in three
      ways; OpenSSL's dates are read exactly.
    - Findings store: identities stay unique, the log leads from OPEN to the current
      status, re-evaluation keeps status and first-seen time and is idempotent, status
      changes answer on every branch, pages partition the sorted matches, data is
      bounded.

    - Protocol audits: every command that is run is a default module's, for a service in
      the confirmed scope, with no option but the module's own; matched work is exactly
      what scope, registry and predicates allow; host names follow the grammar of labels;
      parsers always answer with well-formed drafts; storing keeps one observation per
      identity; a whole audit keeps inventory, evidence and observations well formed.
    - Evidence: whatever is asked and whichever calls fail, every artifact row stands for
      a file with its size and digest below the root; a failed write leaves nothing
      behind; what was stored is read back; cleaning up spares registered files.

    - Active discovery: which scans a job runs, in what order and on which targets, however
      it ends; that with a scanner that reports only what its target file names, no scan
      leaves the confirmed scope or interface; that the database stays well formed; that
      the progress never falls; what a resolved route guarantees; that the search for an
      address to look up ends, and with which address; that the progress parser does not
      depend on how its input is cut.
    - Passive sensors: every sensor answers for every dataset, with observations that cite
      its packets; VLANs are numbers between 0 and 4095 from tags alone; the findings read
      from a stored assessment are what its packets say.
    - Passive discovery: a job keeps the database well formed and leaves no file of its
      capture, except where it was to keep the packets and could not; an assessment is
      always made, however its sensors failed, and calls a port a trunk exactly when two
      VLANs were seen.

    Each file of theorems ends with what modelling showed to differ from what the code
    seems to mean.

    ** Conventions and limits

    - A [datetime] is its microseconds since 1970 in UTC.  A [str] is its UTF-8 bytes;
      lengths and slices count code points.  Case mapping, stripping and splitting act
      on ASCII; [repr] takes other characters to be printable.
    - JSON values have integers, no floating-point numbers; where a document has a decimal
      (the times of route traces) its JSON value is an argument.
    - A transaction is atomic; SQLite serialises writers.  Rows added to a session are
      visible to its later queries at once; an object of the session is the row of its
      id.  A row of a table without an ORDER BY may come in any order ([Runtime.scan]);
      the order of a Python set is likewise an argument where the code depends on it.
    - The standard library's [ipaddress], [hashlib] and [hmac] are modelled, as far as
      the code runs them; [xml.etree] hands over an element tree; [uuid4], the clock and
      [os.urandom] are the runtime's.
    - External tools answer as the class [ToolHost] says, as functions of how often they
      were run; timeouts are whole seconds, durations microseconds; [json.loads] is an
      argument.  File-system calls fail where the class [FileSystem] says.
    - What a scan leaves in the runtime directory and what it prints, in the order in which
      its two streams are read, are given by the class [ScanHost]; callbacks run in that
      order after the scan's command is logged, though the code runs them from the readers'
      threads meanwhile.  [time.monotonic] is in whole nanoseconds.  The texts pydantic and
      the operating system put into the messages of a [ProfileConfigError] are left out.
    - In passive discovery [datetime.fromisoformat], [float] and [datetime.fromtimestamp]
      are arguments, names of [tempfile] come from the class [TempNames], and a directory is
      there while a file is in it; what tshark prints is UTF-8.  The time of a packet is
      in UTC.
    - Regular expressions are matched against bytes, with ASCII classes.
    - Every recursion is structural, except the polling loop, which takes one token per
      round: a theorem says how many rounds empty the queue; and the loops of a pattern,
      which take a turn per byte that is left ([RegexProofs.star_bound]: more make no
      difference); and the search for an unassigned address, which takes one turn more than
      the interface has addresses ([ActiveTheorems.representative_address_found]: more make
      no difference).
    - Not modelled: threads and signals of the worker, processes of tools, sockets and
      the plumbing of HTTP, long recordings and PCAP import, the job handlers besides
      protocol audits and active and passive discovery, topology, traffic analysis, reports, the appliance's configuration and the
      frontend. *)

From stdpp Require Export base gmap sets list strings sorting relations.
From Stdlib Require Export ZArith Lia.

(** ** Record update

    [r <| f := v |>] is [r] with field [f] replaced, [r <| f ::= g |>] applies
    [g] to the field.  A record opts in by giving its eta expansion. *)

Class Eta (R : Type) : Type := eta_expand : R → R.
Class FieldUpdate {R T : Type} (field : R → T) : Type :=
  update_field : (T → T) → R → R.

Ltac derive_field_update :=
  lazymatch goal with
  | |- @FieldUpdate ?R ?T ?field =>
      let e := constr:(_ : Eta R) in
      let e := eval hnf in e in
      lazymatch eval pattern field in e with
      | ?abstracted _ => exact (fun (g : T → T) => abstracted (fun r => g (field r)))
      end
  end.

#[export] Hint Extern 0 (FieldUpdate _) => derive_field_update : typeclass_instances.

Declare Scope record_scope.
Delimit Scope record_scope with rec.
Notation "r <| f ::= g |>" := (update_field (field := f) g r)
  (at level 1, left associativity, format "r  <| f  ::=  g |>") : record_scope.
Notation "r <| f := v |>" := (update_field (field := f) (fun _ => v) r)
  (at level 1, left associativity, format "r  <| f  :=  v |>") : record_scope.
Global Open Scope record_scope.

(** ** Programs: explicit state and exceptions

    A Python method that reads and writes a store and may raise is a function
    from the store to an outcome and the store it leaves.  The store survives a
    [raise]: rolling back is what a transaction adds (see the service files). *)

Inductive outcome (E A : Type) : Type :=
  | Return (a : A)
  | Raise (e : E).
Arguments Return {E A} a.
Arguments Raise {E A} e.

Definition prog (S E A : Type) : Type := S → outcome E A * S.

#[export] Instance prog_ret {S E} : MRet (prog S E) := fun A a s => (Return a, s).
#[export] Instance prog_bind {S E} : MBind (prog S E) := fun A B k m s =>
  match m s with
  | (Return a, s') => k a s'
  | (Raise e, s') => (Raise e, s')
  end.

(** Fallible pure code: an [outcome] alone. *)
#[export] Instance outcome_ret {E} : MRet (outcome E) := fun A a => Return a.
#[export] Instance outcome_bind {E} : MBind (outcome E) := fun A B k m =>
  match m with Return a => k a | Raise e => Raise e end.

#[export] Instance outcome_fmap {E} : FMap (outcome E) := fun A B f m =>
  match m with Return a => Return (f a) | Raise e => Raise e end.

Lemma bind_Return {E A B} (a : A) (k : A → outcome E B) : (Return a ≫= k) = k a.
Proof. done. Qed.
Lemma bind_mret {E A B} (a : A) (k : A → outcome E B) : (mret a ≫= k) = k a.
Proof. done. Qed.
Lemma bind_Raise {E A B} (e : E) (k : A → outcome E B) : (Raise e ≫= k) = Raise e.
Proof. done. Qed.

Lemma outcome_bind_inv {E A B} (m : outcome E A) (k : A → outcome E B) b :
  m ≫= k = Return b → ∃ a, m = Return a ∧ k a = Return b.
Proof. destruct m as [a|e]; [by exists a|done]. Qed.

Section programs.
Context {S E : Type}.
Implicit Types (A B : Type) (s : S) (e : E).

Definition raise {A} (e : E) : prog S E A := fun s => (Raise e, s).
Definition reads {A} (f : S → A) : prog S E A := fun s => (Return (f s), s).
Definition modify (f : S → S) : prog S E unit := fun s => (Return tt, f s).
Definition skip : prog S E unit := mret tt.

(** [try: m except e: handler e] *)
Definition try_except {A} (m : prog S E A) (handler : E → prog S E A) : prog S E A :=
  fun s => match m s with
           | (Return a, s') => (Return a, s')
           | (Raise e, s') => handler e s'
           end.

(** A [for] loop over a list, collecting the results of its body. *)
Fixpoint for_each {A B} (body : A → prog S E B) (l : list A) : prog S E (list B) :=
  match l with
  | [] => mret []
  | x :: l' => y ← body x; ys ← for_each body l'; mret (y :: ys)
  end.

(** [wp m Q s]: running [m] from [s] ends in an outcome and store satisfying [Q]. *)
Definition wp {A} (m : prog S E A) (Q : outcome E A → S → Prop) (s : S) : Prop :=
  Q (m s).1 (m s).2.

(** What a caller assumes of the result when the program does not raise. *)
Definition on_return {A} (Q : A → S → Prop) (r : outcome E A) (s : S) : Prop :=
  match r with Return a => Q a s | Raise _ => True end.

(** [m] returns, with a result and store satisfying [Q]. *)
Definition returns {A} (m : prog S E A) (Q : A → S → Prop) (s : S) : Prop :=
  wp m (fun r s' => match r with Return a => Q a s' | Raise _ => False end) s.

(** *** Laws *)

Lemma bind_ret_l {A B} (a : A) (k : A → prog S E B) s :
  (mret a ≫= k) s = k a s.
Proof. reflexivity. Qed.

Lemma bind_assoc {A B C} (m : prog S E A) (k : A → prog S E B) (h : B → prog S E C) s :
  ((m ≫= k) ≫= h) s = (m ≫= fun a => k a ≫= h) s.
Proof. unfold mbind, prog_bind. by destruct (m s) as [[a|e] s']. Qed.

Lemma bind_return_inv {A B} (m : prog S E A) (k : A → prog S E B) s b s2 :
  (m ≫= k) s = (Return b, s2) →
  ∃ a s1, m s = (Return a, s1) ∧ k a s1 = (Return b, s2).
Proof. unfold mbind, prog_bind. destruct (m s) as [[a|e] s'] eqn:?; naive_solver. Qed.

Lemma wp_ret {A} (a : A) (Q : outcome E A → S → Prop) s :
  Q (Return a) s → wp (mret a) Q s.
Proof. done. Qed.

Lemma wp_raise {A} e (Q : outcome E A → S → Prop) s : Q (Raise e) s → wp (raise e) Q s.
Proof. done. Qed.

Lemma wp_reads {A} (f : S → A) (Q : outcome E A → S → Prop) s :
  Q (Return (f s)) s → wp (reads f) Q s.
Proof. done. Qed.

Lemma wp_modify (f : S → S) (Q : outcome E unit → S → Prop) s :
  Q (Return tt) (f s) → wp (modify f) Q s.
Proof. done. Qed.

Lemma wp_bind {A B} (m : prog S E A) (k : A → prog S E B) Q s :
  wp m (fun r s' => match r with
                    | Return a => wp (k a) Q s'
                    | Raise e => Q (Raise e) s'
                    end) s →
  wp (m ≫= k) Q s.
Proof. unfold wp, mbind, prog_bind. by destruct (m s) as [[a|e] s']. Qed.

Lemma wp_mono {A} (m : prog S E A) (Q Q' : outcome E A → S → Prop) s :
  wp m Q s → (∀ r s', Q r s' → Q' r s') → wp m Q' s.
Proof. unfold wp. auto. Qed.

Lemma wp_conj {A} (m : prog S E A) (Q Q' : outcome E A → S → Prop) s :
  wp m Q s → wp m Q' s → wp m (fun r s' => Q r s' ∧ Q' r s') s.
Proof. done. Qed.

Lemma wp_try {A} (m : prog S E A) (h : E → prog S E A) Q s :
  wp m (fun r s' => match r with
                    | Return a => Q (Return a) s'
                    | Raise e => wp (h e) Q s'
                    end) s →
  wp (try_except m h) Q s.
Proof. unfold wp, try_except. by destruct (m s) as [[a|e] s']. Qed.

(** Loop rule: an invariant indexed by the elements already visited. *)
Lemma wp_for_each {A B} (body : A → prog S E B) (I : list A → list B → S → Prop)
    (X : E → S → Prop) (l : list A) s :
  I [] [] s →
  (∀ pre x post bs s', l = pre ++ x :: post → I pre bs s' →
     wp (body x) (fun r s2 => match r with
                              | Return b => I (pre ++ [x]) (bs ++ [b]) s2
                              | Raise e => X e s2
                              end) s') →
  wp (for_each body l) (fun r s' => match r with
                                    | Return bs => I l bs s'
                                    | Raise e => X e s'
                                    end) s.
Proof.
  intros H0 Hstep.
  enough (∀ post pre bs s', l = pre ++ post → I pre bs s' →
    wp (for_each body post) (fun r s2 => match r with
      | Return bs' => I l (bs ++ bs') s2 | Raise e => X e s2 end) s') as Hgo.
  { eapply wp_mono; [apply (Hgo l [] []); auto|]. by intros [] ?. }
  induction post as [|x post IH]; intros pre bs s' Hl HI; simpl.
  - rewrite app_nil_r in Hl. subst. apply wp_ret. by rewrite app_nil_r.
  - apply wp_bind. eapply wp_mono; [by eapply Hstep|]. intros [b|e] s2; [|done].
    intros HI2. apply wp_bind. eapply wp_mono; [apply (IH (pre ++ [x]) (bs ++ [b]))|].
    + by rewrite <- (assoc_L (++)).
    + done.
    + intros [bs'|e] s3; [|done]. intros HI3. apply wp_ret.
      by rewrite <- (assoc_L (++)) in HI3.
Qed.
End programs.

(** *** Programs along a relation

    A program is along a preorder when the store it leaves is related to the one it began
    with, whether it returns or raises. *)

Section along.
Context {W E : Type} (R : W → W → Prop) `{!PreOrder R}.

Definition along {A} (m : prog W E A) : Prop := ∀ s, R s (m s).2.

Lemma along_ret {A} (a : A) : along (mret a).
Proof. intros s. cbn. reflexivity. Qed.
Lemma along_raise {A} e : along (raise e : prog W E A).
Proof. intros s. cbn. reflexivity. Qed.
Lemma along_reads {A} (f : W → A) : along (reads f).
Proof. intros s. cbn. reflexivity. Qed.

(** What a program's result is used for may depend on how it came about. *)
Lemma along_then {A B} (m : prog W E A) (k : A → prog W E B) s :
  along m → (∀ a s', m s = (Return a, s') → R s' (k a s').2) → R s ((m ≫= k) s).2.
Proof.
  intros Hm Hk. specialize (Hm s). unfold mbind, prog_bind. destruct (m s) as [[a|e] s'] eqn:Em; [|done].
  etrans; [exact Hm|]. by apply Hk.
Qed.
Lemma along_bind {A B} (m : prog W E A) (k : A → prog W E B) : along m → (∀ a, along (k a)) → along (m ≫= k).
Proof. intros Hm Hk s. apply along_then; [done|]. intros a s' _. apply Hk. Qed.

Lemma along_try {A} (m : prog W E A) h : along m → (∀ e, along (h e)) → along (try_except m h).
Proof.
  intros Hm Hh s. specialize (Hm s). unfold try_except. destruct (m s) as [[a|e] s']; [done|]. cbn in Hm.
  etrans; [exact Hm|apply Hh].
Qed.

Lemma wp_along {A} (m : prog W E A) (Q : outcome E A → W → Prop) s :
  along m → (∀ r s', R s s' → Q r s') → wp m Q s.
Proof. intros Hm HQ. apply HQ, Hm. Qed.

Lemma along_for_each {A B} (body : A → prog W E B) l : (∀ x, x ∈ l → along (body x)) → along (for_each body l).
Proof.
  induction l as [|x l IH]; intros Hb; cbn [for_each]; [apply along_ret|].
  apply along_bind; [apply Hb; constructor|]. intros y. apply along_bind; [|intros; apply along_ret].
  apply IH. intros z Hz. apply Hb. by constructor.
Qed.
End along.

Create HintDb along.
#[export] Hint Resolve along_ret along_raise along_reads : along.


Create HintDb progs.
#[export] Hint Resolve wp_ret wp_raise wp_reads wp_modify : progs.

(** ** Stable sorting

    [sorted(xs, key=...)] and SQL's [ORDER BY] keep the input order of rows
    with equal keys: insertion from the right does the same. *)

Section stable_sort.
Context {A : Type} (le : A → A → bool).

Fixpoint insert_before (x : A) (l : list A) : list A :=
  match l with
  | [] => [x]
  | y :: l' => if le x y then x :: y :: l' else y :: insert_before x l'
  end.

Definition sort_by (l : list A) : list A := foldr insert_before [] l.

Lemma insert_before_perm x l : insert_before x l ≡ₚ x :: l.
Proof.
  induction l as [|y l IH]; simpl; [done|]. case_match; [done|].
  rewrite IH. by constructor.
Qed.

Lemma sort_by_perm l : sort_by l ≡ₚ l.
Proof. induction l as [|x l IH]; simpl; [done|]. by rewrite insert_before_perm, IH. Qed.

Lemma elem_of_sort_by x l : x ∈ sort_by l ↔ x ∈ l.
Proof. by rewrite sort_by_perm. Qed.

Context (le_total : ∀ x y, le x y = true ∨ le y x = true).
Context (le_trans : ∀ x y z, le x y = true → le y z = true → le x z = true).

Lemma insert_before_sorted x l :
  StronglySorted (fun a b => le a b = true) l →
  StronglySorted (fun a b => le a b = true) (insert_before x l).
Proof.
  induction 1 as [|y l Hs IH Hy]; simpl; [repeat constructor|].
  destruct (le x y) eqn:Hxy.
  - constructor; [by constructor|]. constructor; [done|].
    eapply Forall_impl; [exact Hy|]. naive_solver.
  - constructor; [done|]. rewrite insert_before_perm. constructor; [|done].
    destruct (le_total x y); congruence.
Qed.

Lemma sort_by_sorted l : StronglySorted (fun a b => le a b = true) (sort_by l).
Proof. induction l; simpl; [constructor|]. by apply insert_before_sorted. Qed.

(** An element of the sorted list comes before every element not ahead of it. *)
Lemma sort_by_split l pre x post y :
  sort_by l = pre ++ x :: post → y ∈ l → y ∉ pre → le x y = true.
Proof.
  intros Heq Hy Hpre. apply elem_of_sort_by in Hy. rewrite Heq in Hy.
  pose proof (sort_by_sorted l) as Hs. rewrite Heq in Hs.
  apply elem_of_app in Hy as [?|[->|Hy]%elem_of_cons]; [done| |].
  - by destruct (le_total x x).
  - clear Heq Hpre. induction pre as [|z pre IH]; simpl in Hs; inversion Hs; subst; [|auto].
    match goal with H : Forall _ post |- _ => by apply (proj1 (Forall_forall _ _) H) end.
Qed.
End stable_sort.

(** Sorting a sorted list changes nothing. *)
Lemma sort_by_id {A} (le : A → A → bool) l :
  StronglySorted (fun a b => le a b = true) l → sort_by le l = l.
Proof.
  induction 1 as [|x l Hs IH Hx]; [done|]. cbn. fold (sort_by le l). rewrite IH.
  destruct Hx as [|y l Hxy _]; [done|]. cbn. by rewrite Hxy.
Qed.

(** A comparison fit for sorting. *)
Class SortOrder {A} (le : A → A → bool) : Prop := {
  le_total x y : le x y = true ∨ le y x = true;
  le_trans x y z : le x y = true → le y z = true → le x z = true
}.

Lemma sorted_by {A} (le : A → A → bool) `{!SortOrder le} l :
  StronglySorted (fun a b => le a b = true) (sort_by le l).
Proof. apply sort_by_sorted; [apply le_total|apply le_trans]. Qed.

(** Comparing by an integer first, then by another order. *)
Definition rank_then {A} (rank : A → Z) (le : A → A → bool) (x y : A) : bool :=
  if negb (rank x =? rank y)%Z then (rank x <? rank y)%Z else le x y.

#[export] Instance rank_then_order {A} (rank : A → Z) le :
  SortOrder le → SortOrder (rank_then rank le).
Proof.
  intros Hle. unfold rank_then. split.
  - intros x y. rewrite (Z.eqb_sym (rank y)).
    destruct (Z.eqb_spec (rank x) (rank y)); simpl; [apply le_total|]. rewrite !Z.ltb_lt. lia.
  - intros x y z. destruct (Z.eqb_spec (rank x) (rank y)), (Z.eqb_spec (rank y) (rank z)),
      (Z.eqb_spec (rank x) (rank z)); simpl; rewrite ?Z.ltb_lt; try lia. apply le_trans.
Qed.

#[export] Instance key_order {A} (key : A → Z) : SortOrder (fun x y => (key x <=? key y)%Z).
Proof. split; intros; rewrite ?Z.leb_le in *; lia. Qed.

(** ** Lists *)

(** The first element satisfying a test: [next((x for x in l if p x), None)]. *)
Definition find_first {A} (p : A → bool) (l : list A) : option A := head (List.filter p l).

Lemma find_first_Some {A} (p : A → bool) l x :
  find_first p l = Some x → x ∈ l ∧ p x = true.
Proof.
  unfold find_first. intros H. apply head_Some_elem_of in H.
  by rewrite list_elem_of_In, filter_In, <- list_elem_of_In in H.
Qed.

Lemma find_first_None {A} (p : A → bool) l :
  find_first p l = None ↔ ∀ x, x ∈ l → p x = false.
Proof.
  unfold find_first. induction l as [|y l IH]; simpl.
  { split; [|done]. intros _ x Hx. by apply elem_of_nil in Hx. }
  destruct (p y) eqn:Hy; simpl.
  - split; [done|]. intros H. rewrite H in Hy; [done|]. constructor.
  - rewrite IH. split; intros H x Hx.
    + apply elem_of_cons in Hx as [->|?]; auto.
    + apply H. by constructor.
Qed.

Lemma elem_of_lfilter {A} (p : A → bool) l x :
  x ∈ List.filter p l ↔ x ∈ l ∧ p x = true.
Proof. by rewrite list_elem_of_In, filter_In, <- list_elem_of_In. Qed.

Lemma lfilter_nil {A} (p : A → bool) l : List.filter p l = [] ↔ ∀ x, x ∈ l → p x = false.
Proof.
  split.
  - intros Hf x Hx. apply not_true_iff_false. intros Hp.
    assert (x ∈ List.filter p l) as Hin by by apply elem_of_lfilter.
    rewrite Hf in Hin. by apply elem_of_nil in Hin.
  - intros H. destruct (List.filter p l) as [|x xs] eqn:Hf; [done|]. exfalso.
    assert (x ∈ List.filter p l) as [Hx Hp]%elem_of_lfilter by (rewrite Hf; constructor).
    by rewrite H in Hp.
Qed.

Lemma existsb_elem_of {A} (p : A → bool) l :
  existsb p l = true ↔ ∃ x, x ∈ l ∧ p x = true.
Proof. rewrite existsb_exists. by setoid_rewrite list_elem_of_In. Qed.

Lemma existsb_false_elem_of {A} (p : A → bool) l :
  existsb p l = false ↔ ∀ x, x ∈ l → p x = false.
Proof.
  split.
  - intros H x Hx. apply not_true_is_false. intros Hp.
    apply not_true_iff_false in H. apply H, existsb_elem_of. eauto.
  - intros H. apply not_true_is_false. intros (x & Hx & Hp)%existsb_elem_of.
    by rewrite H in Hp.
Qed.

Lemma forallb_elem_of {A} (p : A → bool) l :
  forallb p l = true ↔ ∀ x, x ∈ l → p x = true.
Proof. rewrite forallb_forall. by setoid_rewrite list_elem_of_In. Qed.

(** ** Decidable closed goals *)

Ltac by_decide := refine (bool_decide_unpack _ _); vm_compute; exact I.

(** ** Case analysis on programs *)

Ltac split_outcomes :=
  repeat match goal with
  | H : (?a, ?b) = (?c, ?d) |- _ => simplify_eq H
  | H : Return _ = Return _ |- _ => simplify_eq H
  | H : Return _ = Raise _ |- _ => discriminate H
  | H : Raise _ = Return _ |- _ => discriminate H
  end.
