(* ===== verification/PyBase.v ===== *)
(** * Python strings and JSON values

    What the modelled code uses of the language: [str] methods, truthiness,
    [int]/[str] conversions, and the values [json] columns hold.

    A [str] is its UTF-8 bytes.  Length counts code points; case mapping,
    stripping and splitting act on ASCII characters and leave every other
    character alone, which is what Python does on ASCII text. *)

From S2P Require Import Prelude.
From Stdlib Require Export Ascii.
From stdpp Require Export pretty.

Open Scope Z_scope.

Definition datetime : Type := Z.

(** ** Characters *)

Definition code (c : ascii) : Z := Z.of_N (Ascii.N_of_ascii c).

Definition is_upper (c : ascii) : bool := (65 <=? code c) && (code c <=? 90).
Definition is_lower (c : ascii) : bool := (97 <=? code c) && (code c <=? 122).
Definition is_digit (c : ascii) : bool := (48 <=? code c) && (code c <=? 57).
Definition is_alnum (c : ascii) : bool := is_upper c || is_lower c || is_digit c.

(** [str.isspace] on ASCII: TAB to CR, FS to US, and space. *)
Definition is_space (c : ascii) : bool :=
  ((9 <=? code c) && (code c <=? 13)) || ((28 <=? code c) && (code c <=? 32)).

Definition shift_char (d : Z) (c : ascii) : ascii := Ascii.ascii_of_N (Z.to_N (code c + d)).
Definition lower_char (c : ascii) : ascii := if is_upper c then shift_char 32 c else c.
Definition upper_char (c : ascii) : ascii := if is_lower c then shift_char (-32) c else c.

(** A UTF-8 continuation byte belongs to the code point before it. *)
Definition is_continuation (c : ascii) : bool := (128 <=? code c) && (code c <=? 191).

(** ** Strings *)

Fixpoint str_map (f : ascii → ascii) (s : string) : string :=
  match s with EmptyString => EmptyString | String c s' => String (f c) (str_map f s') end.

Definition lower : string → string := str_map lower_char.
Definition upper : string → string := str_map upper_char.

Fixpoint str_all (p : ascii → bool) (s : string) : bool :=
  match s with EmptyString => true | String c s' => p c && str_all p s' end.

Definition nonempty (s : string) : bool := negb (String.eqb s EmptyString).

(** The code points of a string, each as its UTF-8 bytes. *)
Definition cont_head (s : string) : bool :=
  match s with String c _ => is_continuation c | EmptyString => false end.

Fixpoint chars (s : string) : list string :=
  match s with
  | EmptyString => []
  | String c s' =>
      match chars s' with
      | h :: t => if cont_head s' then String c h :: t else String c EmptyString :: h :: t
      | [] => [String c EmptyString]
      end
  end.

Fixpoint concat (l : list string) : string :=
  match l with [] => EmptyString | x :: l' => x +:+ concat l' end.

(** [len(s)] *)
Definition str_len (s : string) : Z := Z.of_nat (length (chars s)).

(** [s[:n]] for [n >= 0] *)
Definition str_take (n : Z) (s : string) : string := concat (take (Z.to_nat n) (chars s)).

Fixpoint lstrip_by (p : ascii → bool) (s : string) : string :=
  match s with
  | EmptyString => EmptyString
  | String c s' => if p c then lstrip_by p s' else s
  end.

Fixpoint rstrip_by (p : ascii → bool) (s : string) : string :=
  match s with
  | EmptyString => EmptyString
  | String c s' =>
      match rstrip_by p s' with
      | EmptyString => if p c then EmptyString else String c EmptyString
      | t => String c t
      end
  end.

(** [s.strip()] *)
Definition strip (s : string) : string := rstrip_by is_space (lstrip_by is_space s).

(** [s.startswith(p)], with what follows the prefix. *)
Fixpoint remove_prefix (p s : string) : option string :=
  match p, s with
  | EmptyString, _ => Some s
  | String a p', String b s' => if Ascii.eqb a b then remove_prefix p' s' else None
  | String _ _, EmptyString => None
  end.

Definition startswith (s p : string) : bool :=
  match remove_prefix p s with Some _ => true | None => false end.

(** [sub in s] *)
Fixpoint contains (sub s : string) : bool :=
  startswith s sub ||
  match s with EmptyString => false | String _ s' => contains sub s' end.

(** [s.replace(c, "")] for a one-character [c]. *)
Fixpoint drop_char (x : ascii) (s : string) : string :=
  match s with
  | EmptyString => EmptyString
  | String c s' => if Ascii.eqb c x then drop_char x s' else String c (drop_char x s')
  end.

(** [s.split(c, 1)]: the part before the first [c], and the rest when there is one. *)
Fixpoint split_once (x : ascii) (s : string) : string * option string :=
  match s with
  | EmptyString => (EmptyString, None)
  | String c s' =>
      if Ascii.eqb c x then (EmptyString, Some s')
      else let '(a, r) := split_once x s' in (String c a, r)
  end.

(** [s.split(c)]; never empty. *)
Fixpoint split_on (x : ascii) (s : string) : list string :=
  match s with
  | EmptyString => [EmptyString]
  | String c s' =>
      if Ascii.eqb c x then EmptyString :: split_on x s'
      else match split_on x s' with
           | w :: ws => String c w :: ws
           | [] => [String c EmptyString]
           end
  end.

(** [sep.join(l)] *)
Fixpoint join (sep : string) (l : list string) : string :=
  match l with
  | [] => EmptyString
  | [x] => x
  | x :: l' => x +:+ sep +:+ join sep l'
  end.

(** [str(n)] *)
Definition str_int (n : Z) : string := pretty n.

(** The comparison [sorted] uses on strings: byte order, which on UTF-8 is code-point order. *)
Definition str_le (a b : string) : bool := String.leb a b.

Lemma str_le_trans a b c : str_le a b = true → str_le b c = true → str_le a c = true.
Proof.
  unfold str_le, String.leb. revert b c.
  induction a as [|x a IH]; intros [|y b] [|z c]; cbn; try done.
  unfold Ascii.compare. specialize (IH b c).
  destruct (N.compare_spec (N_of_ascii x) (N_of_ascii y)) as [E1|E1|E1];
    destruct (N.compare_spec (N_of_ascii y) (N_of_ascii z)) as [E2|E2|E2]; try done;
    destruct (N.compare_spec (N_of_ascii x) (N_of_ascii z)) as [E3|E3|E3]; try done; try lia.
Qed.

#[export] Instance str_le_order : SortOrder str_le.
Proof. split; [intros; apply String.leb_total|apply str_le_trans]. Qed.

(** Comparing by a string first, then by another order. *)
Definition str_then {A} (key : A → string) (le : A → A → bool) (x y : A) : bool :=
  if negb (String.eqb (key x) (key y)) then str_le (key x) (key y) else le x y.

#[export] Instance str_then_order {A} (key : A → string) le :
  SortOrder le → SortOrder (str_then key le).
Proof.
  intros Hle. unfold str_then. split.
  - intros x y. rewrite (String.eqb_sym (key y)).
    destruct (String.eqb_spec (key x) (key y)); simpl; apply le_total.
  - intros x y z. destruct (String.eqb_spec (key x) (key y)) as [E1|E1],
      (String.eqb_spec (key y) (key z)) as [E2|E2]; simpl.
    + rewrite <- E1 in E2. rewrite E2, String.eqb_refl. simpl. apply le_trans.
    + by rewrite E1, (proj2 (String.eqb_neq _ _) E2).
    + by rewrite <- E2, (proj2 (String.eqb_neq _ _) E1).
    + intros H1 H2. destruct (String.eqb_spec (key x) (key z)) as [E3|E3]; simpl.
      * destruct E1. apply String.leb_antisym; [done|]. by rewrite E3.
      * by apply str_le_trans with (key y).
Qed.

#[export] Instance str_key_order {A} (key : A → string) :
  SortOrder (fun x y => str_le (key x) (key y)).
Proof. split; [intros; apply String.leb_total|intros ???; apply str_le_trans]. Qed.

(** [s in l], for a list or set of strings *)
Definition str_in (s : string) (l : list string) : bool := existsb (String.eqb s) l.

Lemma str_in_spec s l : str_in s l = true ↔ s ∈ l.
Proof.
  unfold str_in. rewrite existsb_elem_of. split.
  - by intros (x & Hx & <-%String.eqb_eq).
  - intros Hs. exists s. by rewrite String.eqb_refl.
Qed.

Lemma str_in_false s l : str_in s l = false ↔ s ∉ l.
Proof. by rewrite <- str_in_spec, not_true_iff_false. Qed.

(** ** Accumulating without repetition *)

(** Appending what a list does not hold yet. *)
Definition append_new (acc : list string) (x : string) : list string :=
  if str_in x acc then acc else acc ++ [x].

Lemma append_new_elem acc x y : y ∈ append_new acc x ↔ y ∈ acc ∨ y = x.
Proof.
  unfold append_new. destruct (str_in x acc) eqn:Hx.
  - apply str_in_spec in Hx. naive_solver.
  - by rewrite elem_of_app, list_elem_of_singleton.
Qed.

Lemma append_new_NoDup acc x : NoDup acc → NoDup (append_new acc x).
Proof.
  unfold append_new. intros Hacc. destruct (str_in x acc) eqn:Hx; [done|].
  apply str_in_false in Hx. apply NoDup_app. split_and!; [done| |apply NoDup_singleton].
  by intros y Hy ->%list_elem_of_singleton.
Qed.

Lemma append_new_nonempty acc x : append_new acc x ≠ [].
Proof. unfold append_new. destruct (str_in x acc) eqn:Hx; [|by destruct acc].
  by destruct acc. Qed.

Lemma append_new_length acc x : (length acc <= length (append_new acc x) <= S (length acc))%nat.
Proof. unfold append_new. destruct (str_in x acc); rewrite ?length_app; simpl; lia. Qed.

Lemma append_all_elem acc xs y : y ∈ foldl append_new acc xs ↔ y ∈ acc ∨ y ∈ xs.
Proof.
  revert acc. induction xs as [|x xs IH]; intros acc; simpl.
  - split; [by left|]. by intros [?|?%elem_of_nil].
  - rewrite IH, append_new_elem, elem_of_cons. tauto.
Qed.

Lemma append_all_NoDup acc xs : NoDup acc → NoDup (foldl append_new acc xs).
Proof. revert acc. induction xs as [|x xs IH]; intros acc; simpl; [done|]. intros; by apply IH, append_new_NoDup. Qed.

(** ** Optional strings

    [None] and [""] are both false; [x or y] picks the first true one. *)

Definition truthy_str (o : option string) : bool :=
  match o with Some (String _ _) => true | _ => false end.

Definition str_or (o : option string) (d : string) : string :=
  match o with Some (String c s) => String c s | _ => d end.

(** ** JSON values

    Numbers are integers: the modelled producers of JSON documents store no
    other number. *)

#[warnings="-register-all"]
Inductive pyval : Type :=
  | PNone
  | PBool (b : bool)
  | PInt (n : Z)
  | PStr (s : string)
  | PList (l : list pyval)
  | PDict (d : list (string * pyval)).

(** A [dict] with string keys, in insertion order. *)
Definition dict : Type := list (string * pyval).

Section dict.
Context {V : Type}.
Implicit Types (d : list (string * V)) (k : string) (v : V).

Fixpoint dict_get d k : option V :=
  match d with
  | [] => None
  | (k', v) :: d' => if String.eqb k k' then Some v else dict_get d' k
  end.

(** [d[k] = v]: an existing key keeps its place. *)
Fixpoint dict_set d k v : list (string * V) :=
  match d with
  | [] => [(k, v)]
  | (k', v') :: d' =>
      if String.eqb k k' then (k', v) :: d' else (k', v') :: dict_set d' k v
  end.

(** [d.update(e)], and [{**d, **e}]. *)
Definition dict_update d (e : list (string * V)) : list (string * V) :=
  foldl (fun acc kv => dict_set acc kv.1 kv.2) d e.

Definition dict_keys d : list string := d.*1.

Lemma dict_keys_cons k v d : dict_keys ((k, v) :: d) = k :: dict_keys d.
Proof. done. Qed.

Lemma dict_get_set d k v k' :
  dict_get (dict_set d k v) k' = if String.eqb k' k then Some v else dict_get d k'.
Proof.
  induction d as [|[k0 v0] d IH]; simpl; [done|].
  destruct (String.eqb_spec k k0) as [->|Hne]; simpl.
  - by destruct (String.eqb k' k0).
  - destruct (String.eqb_spec k' k0) as [->|]; [|done].
    by destruct (String.eqb_spec k0 k); congruence.
Qed.

Lemma dict_keys_set d k v :
  dict_keys (dict_set d k v) =
    if decide (k ∈ dict_keys d) then dict_keys d else dict_keys d ++ [k].
Proof.
  induction d as [|[k0 v0] d IH]; simpl; [done|].
  destruct (String.eqb_spec k k0) as [->|Hne]; rewrite !dict_keys_cons.
  - rewrite decide_True; [done|]. by constructor.
  - rewrite IH. destruct (decide (k ∈ dict_keys d)).
    + rewrite decide_True; [done|]. by constructor.
    + rewrite decide_False; [done|]. by intros [->|?]%elem_of_cons.
Qed.

Lemma dict_set_NoDup d k v : NoDup (dict_keys d) → NoDup (dict_keys (dict_set d k v)).
Proof.
  intros Hd. rewrite dict_keys_set. case_decide; [done|].
  rewrite NoDup_app. split_and!; [done| |apply NoDup_singleton].
  intros x Hx ->%list_elem_of_singleton. done.
Qed.

Lemma dict_get_elem d k v : dict_get d k = Some v → (k, v) ∈ d.
Proof.
  induction d as [|[k0 v0] d IH]; simpl; [done|].
  destruct (String.eqb_spec k k0) as [->|]; [intros [= ->]; constructor|].
  intros ?. constructor. auto.
Qed.

Lemma dict_get_elem_NoDup d k v :
  NoDup (dict_keys d) → (k, v) ∈ d → dict_get d k = Some v.
Proof.
  induction d as [|[k0 v0] d IH]; cbn [dict_get].
  - intros _ H. by apply elem_of_nil in H.
  - rewrite dict_keys_cons. intros [Hk0 Hd]%NoDup_cons [[= -> ->]|H]%elem_of_cons.
    + by rewrite String.eqb_refl.
    + destruct (String.eqb_spec k k0) as [->|]; [|auto].
      destruct Hk0. apply list_elem_of_fmap. by exists (k0, v).
Qed.

Lemma dict_get_None d k : dict_get d k = None ↔ k ∉ dict_keys d.
Proof.
  induction d as [|[k0 v0] d IH]; cbn [dict_get].
  - split; [|done]. intros _. apply not_elem_of_nil.
  - rewrite dict_keys_cons. destruct (String.eqb_spec k k0) as [->|Hne].
    + split; [done|]. intros []. constructor.
    + rewrite IH, not_elem_of_cons. split; [by split|by intros []].
Qed.

Lemma dict_get_update d e k :
  NoDup (dict_keys e) →
  dict_get (dict_update d e) k =
    match dict_get e k with Some v => Some v | None => dict_get d k end.
Proof.
  unfold dict_update. revert d. induction e as [|[k0 v0] e IH]; intros d; [by intros|].
  rewrite dict_keys_cons. intros [Hk0 He]%NoDup_cons. simpl. rewrite IH by done. rewrite dict_get_set.
  destruct (String.eqb_spec k k0) as [->|]; [|done].
  by rewrite (proj2 (dict_get_None e k0) Hk0).
Qed.
End dict.

(** [d.get(k)], [None] when missing. *)
Definition get (d : dict) (k : string) : pyval :=
  match dict_get d k with Some v => v | None => PNone end.

(** [bool(v)] *)
Definition truthy (v : pyval) : bool :=
  match v with
  | PNone => false
  | PBool b => b
  | PInt n => negb (n =? 0)
  | PStr s => negb (String.eqb s EmptyString)
  | PList l => match l with [] => false | _ => true end
  | PDict d => match d with [] => false | _ => true end
  end.

(** [a or b] *)
Definition por (a b : pyval) : pyval := if truthy a then a else b.

(** [v is None], [v is True] *)
Definition is_none (v : pyval) : bool := match v with PNone => true | _ => false end.
Definition is_true (v : pyval) : bool := match v with PBool b => b | _ => false end.
