(* ===== verification/PyText.v ===== *)
(** * Python text: [str], [repr], [int], [split] and [json.dumps]

    The conversions between values and text the modelled code uses.  [repr]
    escapes ASCII control characters; characters beyond ASCII are taken to be
    printable, and [int] reads ASCII digits. *)

From S2P Require Import Prelude PyBase.

(** ** [repr] and [str] *)

Definition hex_digit (n : Z) : ascii :=
  Ascii.ascii_of_N (Z.to_N (if n <? 10 then 48 + n else 87 + n)).

(** Two lower-case hexadecimal digits. *)
Definition hex2 (n : Z) : string :=
  String (hex_digit (n / 16)) (String (hex_digit (n mod 16)) EmptyString).

Definition chr (n : Z) : ascii := Ascii.ascii_of_N (Z.to_N n).
Definition backslash : ascii := chr 92.
Definition quote1 : ascii := chr 39.
Definition quote2 : ascii := chr 34.

(** [repr] of one character inside quotes [q]. *)
Definition repr_char (q c : ascii) : string :=
  if Ascii.eqb c q || Ascii.eqb c backslash then String backslash (String c EmptyString)
  else if code c =? 9 then String backslash "t"
  else if code c =? 10 then String backslash "n"
  else if code c =? 13 then String backslash "r"
  else if (code c <? 32) || (code c =? 127) then String backslash ("x" +:+ hex2 (code c))
  else String c EmptyString.

Fixpoint str_flat_map (f : ascii → string) (s : string) : string :=
  match s with EmptyString => EmptyString | String c s' => f c +:+ str_flat_map f s' end.

Fixpoint has_char (x : ascii) (s : string) : bool :=
  match s with EmptyString => false | String c s' => Ascii.eqb c x || has_char x s' end.

Definition str_repr (s : string) : string :=
  let q := if has_char quote1 s && negb (has_char quote2 s) then quote2 else quote1 in
  String q (str_flat_map (repr_char q) s +:+ String q EmptyString).

Fixpoint py_repr (v : pyval) : string :=
  match v with
  | PNone => "None"
  | PBool true => "True"
  | PBool false => "False"
  | PInt n => str_int n
  | PStr s => str_repr s
  | PList l => "[" +:+ join ", " (List.map py_repr l) +:+ "]"
  | PDict d =>
      "{" +:+ join ", " (List.map (fun kv => str_repr kv.1 +:+ ": " +:+ py_repr kv.2) d) +:+ "}"
  end.

Definition py_str (v : pyval) : string :=
  match v with PStr s => s | _ => py_repr v end.

(** ** [int] *)

(** Exceptions of the pure code. *)
Inductive PyExc : Type :=
  | PyValueError (message : string)
  | PyTypeError (message : string)
  | PyAttributeError (message : string)
  | PyOverflowError (message : string)
  | PyLookupError (message : string)
  | ValidationError (field : string).
#[export] Instance PyExc_eq_dec : EqDecision PyExc.
Proof. solve_decision. Defined.

Definition digit_value (c : ascii) : Z := code c - 48.

(** Digits, single underscores allowed between them; [None] when malformed. *)
Fixpoint digits_from (acc : Z) (n : nat) (s : string) : option (Z * nat) :=
  match s with
  | EmptyString => Some (acc, n)
  | String c s' =>
      if is_digit c then digits_from (10 * acc + digit_value c) (S n) s'
      else if Ascii.eqb c (chr 95) then
        match s' with
        | String d s'' => if is_digit d then digits_from (10 * acc + digit_value d) (S n) s''
                          else None
        | EmptyString => None
        end
      else None
  end.

(** [sys.int_info.default_max_str_digits] *)
Definition MAX_STR_DIGITS : nat := 4300.

Definition unsigned_digits (s : string) : option Z :=
  match s with
  | String c s' =>
      if is_digit c then
        match digits_from (digit_value c) 1 s' with
        | Some (v, n) => if (MAX_STR_DIGITS <? n)%nat then None else Some v
        | None => None
        end
      else None
  | EmptyString => None
  end.

(** [int(s)]; [None] is ValueError. *)
Definition int_of_str (s : string) : option Z :=
  match strip s with
  | String c s' =>
      if Ascii.eqb c (chr 43) then unsigned_digits s'
      else if Ascii.eqb c (chr 45) then Z.opp <$> unsigned_digits s'
      else unsigned_digits (String c s')
  | EmptyString => None
  end.

(** [int(v)] *)
Definition py_int (v : pyval) : outcome PyExc Z :=
  match v with
  | PInt n => Return n
  | PBool b => Return (if b then 1 else 0)
  | PStr s => match int_of_str s with
              | Some n => Return n
              | None => Raise (PyValueError "invalid literal for int() with base 10")
              end
  | _ => Raise (PyTypeError "int() argument must be a string or a number")
  end.

(** The value of one hexadecimal digit, either case. *)
Definition hex_nibble (c : ascii) : option Z :=
  if is_digit c then Some (code c - 48)
  else if (97 <=? code c) && (code c <=? 102) then Some (code c - 87)
  else if (65 <=? code c) && (code c <=? 70) then Some (code c - 55)
  else None.

(** ** Splitting and searching *)

(** [s.split()]: the maximal runs without white space. *)
Fixpoint words_from (cur : string) (s : string) : list string :=
  let flush := match cur with EmptyString => [] | _ => [cur] end in
  match s with
  | EmptyString => flush
  | String c s' =>
      if is_space c then flush ++ words_from EmptyString s'
      else words_from (cur +:+ String c EmptyString) s'
  end.
Definition split_ws (s : string) : list string := words_from EmptyString s.

Definition last_char (s : string) : option ascii :=
  (fix go (s : string) : option ascii :=
     match s with
     | EmptyString => None
     | String c EmptyString => Some c
     | String _ s' => go s'
     end) s.

(** [s[:-1]] on a string that ends in an ASCII character. *)
Fixpoint drop_last (s : string) : string :=
  match s with
  | EmptyString | String _ EmptyString => EmptyString
  | String c s' => String c (drop_last s')
  end.

(** [s.find(c)], as bytes before the first [c]; [None] is -1. *)
Fixpoint find_char (x : ascii) (s : string) : option nat :=
  match s with
  | EmptyString => None
  | String c s' => if Ascii.eqb c x then Some O else S <$> find_char x s'
  end.

(** ** [json.dumps(v, ensure_ascii=False, separators=(",", ":"), sort_keys=True)] *)

Definition json_char (c : ascii) : string :=
  if Ascii.eqb c quote2 || Ascii.eqb c backslash then String backslash (String c EmptyString)
  else if code c =? 8 then String backslash "b"
  else if code c =? 9 then String backslash "t"
  else if code c =? 10 then String backslash "n"
  else if code c =? 12 then String backslash "f"
  else if code c =? 13 then String backslash "r"
  else if code c <? 32 then String backslash ("u00" +:+ hex2 (code c))
  else String c EmptyString.

Definition json_str (s : string) : string :=
  String quote2 (str_flat_map json_char s +:+ String quote2 EmptyString).

Fixpoint json_dumps (v : pyval) : string :=
  match v with
  | PNone => "null"
  | PBool true => "true"
  | PBool false => "false"
  | PInt n => str_int n
  | PStr s => json_str s
  | PList l => "[" +:+ join "," (List.map json_dumps l) +:+ "]"
  | PDict d =>
      let items := List.map (fun kv => (kv.1, json_dumps kv.2)) d in
      "{" +:+ join "," (List.map (fun kv => json_str kv.1 +:+ ":" +:+ kv.2)
                          (sort_by (fun a b => str_le a.1 b.1) items)) +:+ "}"
  end.

(** Bytes of the UTF-8 encoding. *)
Definition byte_len (s : string) : Z := Z.of_nat (String.length s).

(** ** Lemmas on code points *)

Lemma concat_chars s : concat (chars s) = s.
Proof.
  induction s as [|c s IH]; [done|]. simpl.
  destruct (chars s) as [|h t] eqn:E; simpl in *; [by rewrite <- IH|].
  destruct (cont_head s); simpl; by rewrite <- IH.
Qed.

Lemma chars_nonempty s x : x ∈ chars s → x ≠ EmptyString.
Proof.
  revert x. induction s as [|c s IH]; intros x; simpl; [by intros ?%elem_of_nil|].
  destruct (chars s) as [|h t]; [by intros ->%list_elem_of_singleton|].
  destruct (cont_head s); intros [->|Hx]%elem_of_cons; try done; apply IH; first [done|by constructor].
Qed.

Lemma cont_head_concat_take n s :
  cont_head (concat (take (S n) (chars s))) = cont_head s.
Proof.
  destruct s as [|c s]; [done|]. simpl.
  destruct (chars s) as [|h t]; [done|]. by destruct (cont_head s).
Qed.

Lemma chars_concat_take n s : chars (concat (take n (chars s))) = take n (chars s).
Proof.
  revert n. induction s as [|c s IH]; intros n; simpl; [by rewrite take_nil|].
  destruct n as [|n]; [done|]. pose proof (chars_nonempty s) as Hne.
  destruct (chars s) as [|h t] eqn:E; [simpl; by rewrite take_nil|].
  destruct (cont_head s) eqn:Hc; simpl.
  - specialize (IH (S n)). simpl in IH. rewrite IH.
    pose proof (cont_head_concat_take n s) as Hh. rewrite E, Hc in Hh. simpl in Hh. by rewrite Hh.
  - destruct n as [|n]; [done|]. specialize (IH (S n)). simpl in IH |- *.
    change ("" +:+ h +:+ concat (take n t)) with (h +:+ concat (take n t)). rewrite IH.
    pose proof (cont_head_concat_take n s) as Hh. rewrite E, Hc in Hh. simpl in Hh. by rewrite Hh.
Qed.

Lemma str_len_take n s : 0 ≤ n → str_len (str_take n s) ≤ n.
Proof.
  intros Hn. unfold str_len, str_take. rewrite chars_concat_take, length_take. lia.
Qed.

Lemma str_take_short n s : str_len s ≤ n → str_take n s = s.
Proof.
  unfold str_len, str_take. intros Hn. rewrite take_ge by lia. apply concat_chars.
Qed.

Lemma str_take_idemp n s : 0 ≤ n → str_take n (str_take n s) = str_take n s.
Proof. intros Hn. apply str_take_short. by apply str_len_take. Qed.

(** ** [json.dumps(v, separators=(",", ":"), sort_keys=True)]: everything outside ASCII escaped *)

(** The number of a code point, given as its UTF-8 bytes. *)
Definition code_point (c : string) : Z :=
  match c with
  | String a EmptyString => code a
  | String a (String b EmptyString) => (code a - 192) * 64 + (code b - 128)
  | String a (String b (String d EmptyString)) => ((code a - 224) * 64 + (code b - 128)) * 64 + (code d - 128)
  | String a (String b (String d (String e _))) =>
      (((code a - 240) * 64 + (code b - 128)) * 64 + (code d - 128)) * 64 + (code e - 128)
  | EmptyString => 0
  end.

Definition hex4 (n : Z) : string := hex2 (n / 256) +:+ hex2 (n mod 256).

Definition json_ascii_char (c : string) : string :=
  match c with
  | String a EmptyString => json_char a
  | _ =>
      let n := code_point c in
      if n <? 65536 then String backslash ("u" +:+ hex4 n)
      else let m := n - 65536 in
           String backslash ("u" +:+ hex4 (55296 + m / 1024)) +:+
           String backslash ("u" +:+ hex4 (56320 + m mod 1024))
  end.

Definition json_ascii_str (s : string) : string :=
  String quote2 (concat (List.map json_ascii_char (chars s)) +:+ String quote2 EmptyString).

(** ** Lemmas on text: splitting, joining, words *)

(** *** Words *)

Definition no_space : string → bool := str_all (fun c => negb (is_space c)).
Definition without (x : ascii) : string → bool := str_all (fun c => negb (Ascii.eqb c x)).

Lemma app_cons_string c (a b : string) : String c a +:+ b = String c (a +:+ b).
Proof. done. Qed.

Lemma app_nil_string s : s +:+ "" = s.
Proof. induction s as [|c s IH]; [done|]. by rewrite app_cons_string, IH. Qed.

Lemma app_assoc_string (a b c : string) : (a +:+ b) +:+ c = a +:+ (b +:+ c).
Proof. induction a as [|x a IH]; [done|]. by rewrite !app_cons_string, IH. Qed.

Lemma words_from_word cur w rest :
  no_space w = true → words_from cur (w +:+ rest) = words_from (cur +:+ w) rest.
Proof.
  revert cur. induction w as [|c w IH]; intros cur Hw; [by rewrite app_nil_string|].
  cbn in Hw. apply andb_true_iff in Hw as [Hc%negb_true_iff Hw]. rewrite app_cons_string.
  cbn. rewrite Hc, IH by done. by rewrite app_assoc_string.
Qed.

Lemma split_ws_word w rest :
  no_space w = true → nonempty w = true → split_ws (w +:+ " " +:+ rest) = w :: split_ws rest.
Proof.
  intros Hw Hne. unfold split_ws. rewrite words_from_word by done. cbn. by destruct w.
Qed.

Lemma split_ws_space rest : split_ws (" " +:+ rest) = split_ws rest.
Proof. done. Qed.

Lemma split_ws_last w : no_space w = true → nonempty w = true → split_ws w = [w].
Proof.
  intros Hw Hne. unfold split_ws. rewrite <- (app_nil_string w) at 1. rewrite words_from_word by done.
  by destruct w.
Qed.

Lemma split_on_word x w rest :
  without x w = true → split_on x (w +:+ String x rest) = w :: split_on x rest.
Proof.
  induction w as [|c w IH]; intros Hw; [unfold String.append; cbn; by rewrite Ascii.eqb_refl|].
  cbn in Hw. apply andb_true_iff in Hw as [Hc%negb_true_iff Hw]. rewrite app_cons_string. cbn.
  by rewrite Hc, IH.
Qed.

Lemma split_on_last x w : without x w = true → split_on x w = [w].
Proof.
  induction w as [|c w IH]; intros Hw; [done|].
  cbn in Hw. apply andb_true_iff in Hw as [Hc%negb_true_iff Hw]. cbn. by rewrite Hc, IH.
Qed.

(** [c.join(parts)] is undone by [split(c)]. *)
Lemma split_on_join x p parts :
  without x p = true → forallb (without x) parts = true →
  split_on x (join (String x EmptyString) (p :: parts)) = p :: parts.
Proof.
  revert p. induction parts as [|q parts IH]; intros p Hp Hparts; [by apply split_on_last|].
  cbn [forallb] in Hparts. apply andb_true_iff in Hparts as [Hq Hparts].
  change (join _ (p :: q :: parts)) with
    (p +:+ String x (join (String x EmptyString) (q :: parts))).
  rewrite split_on_word by done. by rewrite IH.
Qed.

Lemma str_all_app p a b : str_all p (a +:+ b) = str_all p a && str_all p b.
Proof. induction a as [|c a IH]; [done|]. rewrite app_cons_string. cbn. by rewrite IH, andb_assoc. Qed.

(** *** Statements about a range of numbers, checked one by one *)

Lemma by_cases (P : Z → bool) lo len :
  forallb P (seqZ lo len) = true → ∀ n, lo ≤ n < lo + len → P n = true.
Proof. rewrite forallb_elem_of. intros H n Hn. apply H, elem_of_seqZ. lia. Qed.

Definition reads_as (o : option Z) (n : Z) : bool :=
  match o with Some m => m =? n | None => false end.

Lemma reads_as_spec o n : reads_as o n = true ↔ o = Some n.
Proof. destruct o as [m|]; cbn; [rewrite Z.eqb_eq; naive_solver|done]. Qed.

Lemma has_char_without x s : has_char x s = negb (without x s).
Proof.
  induction s as [|c s IH]; [done|]. cbn [has_char without str_all]. fold (without x).
  rewrite IH. by destruct (Ascii.eqb c x).
Qed.

Lemma str_all_mono (p q : ascii → bool) s :
  (∀ c, p c = true → q c = true) → str_all p s = true → str_all q s = true.
Proof.
  intros Hpq. induction s as [|c s IH]; [done|]. cbn.
  intros [Hc Hs]%andb_true_iff. by rewrite Hpq, IH.
Qed.

(** What holds of every part and of the separator holds of the whole. *)
Lemma str_all_split p x s :
  p x = true → (∀ w, w ∈ split_on x s → str_all p w = true) → str_all p s = true.
Proof.
  intros Hx. induction s as [|c s IH]; intros Hw; [done|]. cbn [split_on] in Hw. cbn [str_all].
  destruct (Ascii.eqb_spec c x) as [->|_].
  - rewrite Hx, IH; [done|]. intros w Hw'. apply Hw. by constructor.
  - destruct (split_on x s) as [|w ws].
    + specialize (Hw (String c "") ltac:(constructor)). cbn in Hw. rewrite andb_true_r in Hw.
      rewrite Hw, IH; [done|]. intros w' Hw'. by apply elem_of_nil in Hw'.
    + pose proof (Hw (String c w) ltac:(constructor)) as Hcw. cbn in Hcw.
      apply andb_true_iff in Hcw as [Hc Hw0]. rewrite Hc, IH; [done|].
      intros w' [->|Hw']%elem_of_cons; [done|]. apply Hw. by constructor.
Qed.

Lemma str_all_join p sep parts :
  str_all p sep = true → (∀ w, w ∈ parts → str_all p w = true) → str_all p (join sep parts) = true.
Proof.
  intros Hsep. induction parts as [|w parts IH]; intros Hw; [done|].
  destruct parts as [|v parts]; [apply Hw; constructor|].
  change (join sep (w :: v :: parts)) with (w +:+ sep +:+ join sep (v :: parts)).
  rewrite !str_all_app, Hsep, (Hw w ltac:(constructor)), IH; [done|].
  intros u Hu. apply Hw. by constructor.
Qed.

Lemma split_once_word x w rest :
  without x w = true → split_once x (w +:+ String x rest) = (w, Some rest).
Proof.
  induction w as [|c w IH]; intros Hw; [unfold String.append; cbn; by rewrite Ascii.eqb_refl|].
  cbn in Hw. apply andb_true_iff in Hw as [Hc%negb_true_iff Hw]. rewrite app_cons_string. cbn.
  by rewrite Hc, IH.
Qed.

Lemma split_once_none x w : without x w = true → split_once x w = (w, None).
Proof.
  induction w as [|c w IH]; intros Hw; [done|].
  cbn in Hw. apply andb_true_iff in Hw as [Hc%negb_true_iff Hw]. cbn. by rewrite Hc, IH.
Qed.

Lemma split_once_spec x s :
  match split_once x s with
  | (a, Some b) => s = a +:+ String x b ∧ without x a = true
  | (a, None) => a = s ∧ without x s = true
  end.
Proof.
  induction s as [|c s IH]; [done|]. cbn [split_once].
  destruct (Ascii.eqb_spec c x) as [->|Hne]; [by split|].
  destruct (split_once x s) as [a [b|]]; destruct IH as [Hs Hw]; subst;
    (split; [done|]); cbn; rewrite (proj2 (Ascii.eqb_neq c x) Hne); done.
Qed.

Lemma without_app x a b : without x (a +:+ b) = without x a && without x b.
Proof. apply str_all_app. Qed.
