(* ===== verification/JobModels.v ===== *)
(** * Durable schema: audits, jobs, events, artifacts, locks, workers

    The enumerations of [jobs/models.py], the rows of [persistence/models.py]
    (audits, jobs, job_events, artifacts, resource_locks, workers) and the
    database that holds them.  A row is addressed by its primary key. *)

From S2P Require Import Prelude PyBase.

(** ** Enumerations *)

Inductive AuditStatus : Type :=
  | AUDIT_CREATED | AUDIT_RUNNING | AUDIT_COMPLETED
  | AUDIT_FAILED | AUDIT_CANCELLED | AUDIT_INTERRUPTED.

Inductive JobStatus : Type :=
  | QUEUED | RUNNING | COMPLETED | FAILED | CANCELLED | INTERRUPTED.

Inductive ErrorCategory : Type :=
  | VALIDATION | TOOL_MISSING | PERMISSION | TIMEOUT
  | CATEGORY_CANCELLED | INTERNAL | STORAGE | PARSE.

Inductive RetentionClass : Type :=
  | RETENTION_TEMPORARY | RETENTION_AUDIT | RETENTION_DEBUG | RETENTION_REPORT.

(** The statuses the [ck_workers_status] constraint admits. *)
Inductive WorkerStatus : Type := WK_STARTING | WK_IDLE | WK_RUNNING | WK_STOPPED.

#[export] Instance AuditStatus_eq_dec : EqDecision AuditStatus.
Proof. solve_decision. Defined.
#[export] Instance JobStatus_eq_dec : EqDecision JobStatus.
Proof. solve_decision. Defined.
#[export] Instance ErrorCategory_eq_dec : EqDecision ErrorCategory.
Proof. solve_decision. Defined.
#[export] Instance RetentionClass_eq_dec : EqDecision RetentionClass.
Proof. solve_decision. Defined.
#[export] Instance WorkerStatus_eq_dec : EqDecision WorkerStatus.
Proof. solve_decision. Defined.

Definition AuditStatus_value (s : AuditStatus) : string :=
  match s with
  | AUDIT_CREATED => "created" | AUDIT_RUNNING => "running"
  | AUDIT_COMPLETED => "completed" | AUDIT_FAILED => "failed"
  | AUDIT_CANCELLED => "cancelled" | AUDIT_INTERRUPTED => "interrupted"
  end.

Definition JobStatus_value (s : JobStatus) : string :=
  match s with
  | QUEUED => "queued" | RUNNING => "running" | COMPLETED => "completed"
  | FAILED => "failed" | CANCELLED => "cancelled" | INTERRUPTED => "interrupted"
  end.

(** [JobStatus.terminal] *)
Definition terminal (s : JobStatus) : bool :=
  match s with
  | COMPLETED | FAILED | CANCELLED | INTERRUPTED => true
  | QUEUED | RUNNING => false
  end.

(** ** Rows *)

(** [persistence.models.AuditModel] *)
Record AuditModel : Type := mkAudit {
  audit_id : string;
  audit_created_at : datetime;
  audit_started_at : option datetime;
  audit_finished_at : option datetime;
  audit_status : AuditStatus;
  audit_profile : string;
  audit_interface : option string;
  audit_scope_json : dict;
  audit_actor : option string;
  audit_environment_snapshot_reference : option string;
  audit_summary : dict;
  audit_error : option dict
}.
#[export] Instance eta_AuditModel : Eta AuditModel := fun r =>
  mkAudit r.(audit_id) r.(audit_created_at) r.(audit_started_at) r.(audit_finished_at)
    r.(audit_status) r.(audit_profile) r.(audit_interface) r.(audit_scope_json) r.(audit_actor)
    r.(audit_environment_snapshot_reference) r.(audit_summary) r.(audit_error).

(** [persistence.models.JobModel] *)
Record JobModel : Type := mkJob {
  job_id : string;
  job_audit_id : string;
  job_type : string;
  job_status : JobStatus;
  job_priority : Z;
  job_created_at : datetime;
  job_started_at : option datetime;
  job_finished_at : option datetime;
  job_progress : Z;
  job_stage : string;
  job_message : option string;
  job_target : option string;
  job_parameters : dict;
  job_result_reference : option string;
  job_error_code : option string;
  job_error_category : option ErrorCategory;
  job_error_message : option string;
  job_error_component : option string;
  job_error_retryable : option bool;
  job_error_details : option dict;
  job_cancel_requested : bool;
  job_worker_id : option string;
  job_attempt : Z;
  job_resource_key : option string;
  job_resource_group : option string;
  job_resource_limit : option Z
}.
#[export] Instance eta_JobModel : Eta JobModel := fun r =>
  mkJob r.(job_id) r.(job_audit_id) r.(job_type) r.(job_status) r.(job_priority)
    r.(job_created_at) r.(job_started_at) r.(job_finished_at) r.(job_progress) r.(job_stage)
    r.(job_message) r.(job_target) r.(job_parameters) r.(job_result_reference)
    r.(job_error_code) r.(job_error_category) r.(job_error_message) r.(job_error_component)
    r.(job_error_retryable) r.(job_error_details) r.(job_cancel_requested) r.(job_worker_id)
    r.(job_attempt) r.(job_resource_key) r.(job_resource_group) r.(job_resource_limit).

(** [persistence.models.JobEventModel] *)
Record JobEventModel : Type := mkEvent {
  event_id : Z;
  event_audit_id : string;
  event_job_id : string;
  event_created_at : datetime;
  event_type : string;
  event_stage : option string;
  event_progress : option Z;
  event_message : string;
  event_details : dict
}.
#[export] Instance eta_JobEventModel : Eta JobEventModel := fun r =>
  mkEvent r.(event_id) r.(event_audit_id) r.(event_job_id) r.(event_created_at) r.(event_type)
    r.(event_stage) r.(event_progress) r.(event_message) r.(event_details).

(** [persistence.models.ArtifactModel] *)
Record ArtifactModel : Type := mkArtifact {
  artifact_id : string;
  artifact_audit_id : string;
  artifact_job_id : option string;
  artifact_type : string;
  artifact_relative_path : string;
  artifact_content_type : string;
  artifact_size : Z;
  artifact_sha256 : string;
  artifact_created_at : datetime;
  artifact_retention_class : RetentionClass;
  artifact_schema_name : option string;
  artifact_schema_version : option Z
}.
#[export] Instance eta_ArtifactModel : Eta ArtifactModel := fun r =>
  mkArtifact r.(artifact_id) r.(artifact_audit_id) r.(artifact_job_id) r.(artifact_type)
    r.(artifact_relative_path) r.(artifact_content_type) r.(artifact_size) r.(artifact_sha256)
    r.(artifact_created_at) r.(artifact_retention_class) r.(artifact_schema_name)
    r.(artifact_schema_version).

(** [persistence.models.ResourceLockModel] *)
Record ResourceLockModel : Type := mkLock {
  lock_resource_key : string;
  lock_resource_group : option string;
  lock_job_id : string;
  lock_worker_id : string;
  lock_acquired_at : datetime
}.
#[export] Instance eta_ResourceLockModel : Eta ResourceLockModel := fun r =>
  mkLock r.(lock_resource_key) r.(lock_resource_group) r.(lock_job_id) r.(lock_worker_id)
    r.(lock_acquired_at).

(** [persistence.models.WorkerModel] *)
Record WorkerModel : Type := mkWorker {
  worker_id : string;
  worker_started_at : datetime;
  worker_heartbeat_at : datetime;
  worker_status : WorkerStatus;
  worker_current_job_id : option string
}.
#[export] Instance eta_WorkerModel : Eta WorkerModel := fun r =>
  mkWorker r.(worker_id) r.(worker_started_at) r.(worker_heartbeat_at) r.(worker_status)
    r.(worker_current_job_id).

(** ** Domain contracts *)

(** [jobs.models.JobError] *)
Record JobError : Type := mkJobError {
  err_code : string;
  err_category : ErrorCategory;
  err_message : string;
  err_component : string;
  err_retryable : bool;
  err_details : dict
}.
#[export] Instance eta_JobError : Eta JobError := fun r =>
  mkJobError r.(err_code) r.(err_category) r.(err_message) r.(err_component) r.(err_retryable)
    r.(err_details).

(** [jobs.models.JobProgress] *)
Record JobProgress : Type := mkJobProgress {
  percentage : Z;
  prog_stage : string;
  prog_message : string
}.
#[export] Instance eta_JobProgress : Eta JobProgress := fun r =>
  mkJobProgress r.(percentage) r.(prog_stage) r.(prog_message).

(** The constraints the [JobProgress] fields declare; a value that fails them is
    never constructed. *)
Definition JobProgress_valid (p : JobProgress) : bool :=
  (0 <=? p.(percentage)) && (p.(percentage) <=? 100) &&
  (1 <=? str_len p.(prog_stage)) && (str_len p.(prog_stage) <=? 64) &&
  (1 <=? str_len p.(prog_message)) && (str_len p.(prog_message) <=? 512).

(** [jobs.models.JobRecord]: what the service returns for a job. *)
Record JobRecord : Type := mkJobRecord {
  rec_id : string;
  rec_audit_id : string;
  rec_type : string;
  rec_status : JobStatus;
  rec_priority : Z;
  rec_created_at : datetime;
  rec_started_at : option datetime;
  rec_finished_at : option datetime;
  rec_updated_at : datetime;
  rec_progress : Z;
  rec_stage : string;
  rec_message : option string;
  rec_target : option string;
  rec_parameters : dict;
  rec_result_reference : option string;
  rec_cancel_requested : bool;
  rec_worker_id : option string;
  rec_attempt : Z;
  rec_resource_key : option string;
  rec_resource_group : option string;
  rec_error : option JobError
}.
#[export] Instance eta_JobRecord : Eta JobRecord := fun r =>
  mkJobRecord r.(rec_id) r.(rec_audit_id) r.(rec_type) r.(rec_status) r.(rec_priority)
    r.(rec_created_at) r.(rec_started_at) r.(rec_finished_at) r.(rec_updated_at)
    r.(rec_progress) r.(rec_stage) r.(rec_message) r.(rec_target) r.(rec_parameters)
    r.(rec_result_reference) r.(rec_cancel_requested) r.(rec_worker_id) r.(rec_attempt)
    r.(rec_resource_key) r.(rec_resource_group) r.(rec_error).

(** [jobs.models.Page] *)
Record Page (R : Type) : Type := mkPage {
  items : list R; page_limit : Z; page_offset : Z; total : Z
}.
Arguments mkPage {R}.
Arguments items {R}.
Arguments page_limit {R}.
Arguments page_offset {R}.
Arguments total {R}.

(** ** The database *)

Record DB : Type := mkDB {
  audits : gmap string AuditModel;
  jobs : gmap string JobModel;
  job_events : list JobEventModel;
  artifacts : gmap string ArtifactModel;
  resource_locks : gmap string ResourceLockModel;
  workers : gmap string WorkerModel
}.
#[export] Instance eta_DB : Eta DB := fun r =>
  mkDB r.(audits) r.(jobs) r.(job_events) r.(artifacts) r.(resource_locks) r.(workers).

Definition empty_db : DB := mkDB ∅ ∅ [] ∅ ∅ ∅.

(** ** State transition rules for audits and jobs ([jobs/state.py])

    The two transition tables, the guards that consult them, and what the tables
    promise: terminal jobs are final, jobs move forward along a rank, and a
    finished audit leaves its state only towards RUNNING. *)

(** *** Exceptions raised by the job subsystem *)

Inductive JobExc : Type :=
  | EntityNotFound (entity id : string)
  | InvalidJobTransition (current desired : JobStatus)
  | InvalidAuditTransition (current desired : AuditStatus) (reason : option string)
  | ValueError (message : string)
  | LookupError (message : string)
  | WorkerAlreadyRunning
  | RetryNotAllowed (message : string)
  | AuditBusy (audit_id : string) (active_jobs : Z)
  | JobExecutionError (error : JobError)
  | JobCancelled (message : string) (result_reference : option string) (summary : dict)
  | OtherException (type_name : string)
  | IntegrityError (constraint : string).

(** *** Tables *)

Definition JOB_TRANSITIONS (current : JobStatus) : list JobStatus :=
  match current with
  | QUEUED => [RUNNING; CANCELLED]
  | RUNNING => [COMPLETED; FAILED; CANCELLED; INTERRUPTED]
  | COMPLETED => []
  | FAILED => []
  | CANCELLED => []
  | INTERRUPTED => []
  end.

Definition AUDIT_TRANSITIONS (current : AuditStatus) : list AuditStatus :=
  match current with
  | AUDIT_CREATED => [AUDIT_RUNNING; AUDIT_CANCELLED; AUDIT_FAILED]
  | AUDIT_RUNNING => [AUDIT_COMPLETED; AUDIT_FAILED; AUDIT_CANCELLED; AUDIT_INTERRUPTED]
  | AUDIT_COMPLETED => [AUDIT_RUNNING]
  | AUDIT_FAILED => [AUDIT_RUNNING]
  | AUDIT_CANCELLED => [AUDIT_RUNNING]
  | AUDIT_INTERRUPTED => [AUDIT_RUNNING]
  end.

Definition AUDIT_JOB_ACCEPTING : list AuditStatus :=
  [AUDIT_CREATED; AUDIT_RUNNING; AUDIT_COMPLETED].

(** *** Guards *)

Section guards.
Context {S : Type}.

Definition require_job_transition (current desired : JobStatus) : prog S JobExc unit :=
  if bool_decide (desired ∈ JOB_TRANSITIONS current) then mret tt
  else raise (InvalidJobTransition current desired).

Definition require_audit_transition (current desired : AuditStatus) : prog S JobExc unit :=
  if bool_decide (desired ∈ AUDIT_TRANSITIONS current) then mret tt
  else raise (InvalidAuditTransition current desired None).

Lemma wp_require_job_transition current desired (Q : outcome JobExc unit → S → Prop) s :
  (desired ∈ JOB_TRANSITIONS current → Q (Return tt) s) →
  (desired ∉ JOB_TRANSITIONS current →
     Q (Raise (InvalidJobTransition current desired)) s) →
  wp (require_job_transition current desired) Q s.
Proof. unfold require_job_transition. case_bool_decide; auto with progs. Qed.

Lemma wp_require_audit_transition current desired (Q : outcome JobExc unit → S → Prop) s :
  (desired ∈ AUDIT_TRANSITIONS current → Q (Return tt) s) →
  (desired ∉ AUDIT_TRANSITIONS current →
     Q (Raise (InvalidAuditTransition current desired None)) s) →
  wp (require_audit_transition current desired) Q s.
Proof. unfold require_audit_transition. case_bool_decide; auto with progs. Qed.
End guards.

(** *** What the tables promise *)

Definition job_step (a b : JobStatus) : Prop := b ∈ JOB_TRANSITIONS a.
Definition audit_step (a b : AuditStatus) : Prop := b ∈ AUDIT_TRANSITIONS a.

#[export] Instance job_step_dec a b : Decision (job_step a b).
Proof. unfold job_step. apply _. Defined.
#[export] Instance audit_step_dec a b : Decision (audit_step a b).
Proof. unfold audit_step. apply _. Defined.

Lemma terminal_no_step a b : terminal a = true → ¬ job_step a b.
Proof. unfold job_step. destruct a; simpl; (done || intros _; apply not_elem_of_nil). Qed.

Lemma job_step_target a b : job_step a b → b = RUNNING ∨ terminal b = true.
Proof. unfold job_step. destruct a, b; simpl; set_solver. Qed.

Lemma job_step_not_queued a b : job_step a b → b ≠ QUEUED.
Proof. unfold job_step. destruct a, b; simpl; set_solver. Qed.

(** A terminal status stays: reachability from it is equality. *)
Lemma terminal_rtc a b : terminal a = true → rtc job_step a b → b = a.
Proof.
  intros Ha H. destruct H as [|x y z Hxy _]; [done|]. by destruct (terminal_no_step x y).
Qed.

Definition job_rank (s : JobStatus) : nat :=
  match s with QUEUED => 0 | RUNNING => 1 | _ => 2 end.

Lemma job_step_rank a b : job_step a b → (job_rank a < job_rank b)%nat.
Proof. unfold job_step. destruct a, b; simpl; intros H; try lia; set_solver. Qed.

(** An audit that has finished reopens only towards RUNNING. *)
Lemma audit_reopen_only_running a b :
  a ∉ [AUDIT_CREATED; AUDIT_RUNNING] → audit_step a b → b = AUDIT_RUNNING.
Proof. unfold audit_step. destruct a; simpl; set_solver. Qed.

Lemma audit_running_step b :
  b ∈ [AUDIT_COMPLETED; AUDIT_FAILED; AUDIT_CANCELLED; AUDIT_INTERRUPTED] →
  audit_step AUDIT_RUNNING b.
Proof. done. Qed.

Create HintDb jobs.
#[export] Hint Resolve job_step_rank audit_running_step : jobs.
