(* ===== verification/JobStore.v ===== *)
(** * Sessions and transactions over the job database

    [persistence/database.py] gives the services two kinds of transaction: a
    deferred one ([session.begin()]) and one serialised by BEGIN IMMEDIATE.  Both
    run their body, then commit, or roll back and re-raise.  A transaction is one
    atomic step here; SQLite serialises writers.

    The world around the database is what the services read from outside: the
    clock, the [uuid4] generator, and the order in which SQLite returns rows of a
    SELECT that fixes none. *)

From S2P Require Import Prelude PyBase JobModels.

(** ** The outside world *)

Class Runtime : Type := {
  (** the n-th reading of [utc_now()] *)
  clock : nat → datetime;
  (** the n-th value of [str(uuid.uuid4())] *)
  uuid4 : nat → string;
  (** the order in which an unordered SELECT returns its rows *)
  scan : ∀ {R : Type}, list R → list R
}.

Class RuntimeOk `{Runtime} : Prop := {
  uuid4_inj :: Inj (=) (=) uuid4;
  scan_perm : ∀ {R : Type} (l : list R), scan l ≡ₚ l
}.

(** The database, and how often clock and generator have been read. *)
Record World : Type := mkWorld {
  db : DB;
  clock_reads : nat;
  uuids_drawn : nat
}.
#[export] Instance eta_World : Eta World := fun r =>
  mkWorld r.(db) r.(clock_reads) r.(uuids_drawn).

Abbreviation M := (prog World JobExc).

(** ** Transactions *)

(** [Database.immediate_session()]: commit on return, roll back on an exception. *)
Definition immediate_session {A} (body : M A) : M A := fun w =>
  match body w with
  | (Return a, w') => (Return a, w')
  | (Raise e, w') => (Raise e, w' <| db := w.(db) |>)
  end.

(** [with self.database.session() as session, session.begin()] *)
Definition session_begin {A} (body : M A) : M A := immediate_session body.

(** [LIMIT limit OFFSET offset]; a negative limit is no limit. *)
Definition sql_page {R} (limit offset : Z) (rows : list R) : list R :=
  let rest := drop (Z.to_nat offset) rows in
  if limit <? 0 then rest else take (Z.to_nat limit) rest.

Section world.
Context `{Runtime}.

Definition utc_now : M datetime := fun w =>
  (Return (clock w.(clock_reads)), w <| clock_reads ::= S |>).

Definition new_uuid : M string := fun w =>
  (Return (uuid4 w.(uuids_drawn)), w <| uuids_drawn ::= S |>).

(** [value or utc_now()] *)
Definition or_utc_now (value : option datetime) : M datetime :=
  match value with Some t => mret t | None => utc_now end.

(** ** Rows *)

Definition on_db (f : DB → DB) : M unit := modify (fun w => w <| db ::= f |>).

(** [select(...).where(p)] without ORDER BY. *)
Definition select_rows {R} (table : DB → gmap string R) (p : R → bool) : M (list R) :=
  reads (fun w => scan (List.filter p (map_to_list (table w.(db))).*2)).

Definition get_audit_row (audit_id : string) : M (option AuditModel) :=
  reads (fun w => w.(db).(audits) !! audit_id).
Definition get_job_row (job_id : string) : M (option JobModel) :=
  reads (fun w => w.(db).(jobs) !! job_id).
Definition get_lock_row (key : string) : M (option ResourceLockModel) :=
  reads (fun w => w.(db).(resource_locks) !! key).
Definition get_worker_row (worker_id : string) : M (option WorkerModel) :=
  reads (fun w => w.(db).(workers) !! worker_id).

(** Attribute changes of a loaded row, written back by the flush. *)
Definition put_audit (a : AuditModel) : M unit :=
  on_db (fun d => d <| audits ::= insert a.(audit_id) a |>).

(** [ck_jobs_progress] *)
Definition job_check (j : JobModel) : bool :=
  (0 <=? j.(job_progress)) && (j.(job_progress) <=? 100).

Definition put_job (j : JobModel) : M unit :=
  if job_check j then on_db (fun d => d <| jobs ::= insert j.(job_id) j |>)
  else raise (IntegrityError "ck_jobs_progress").

Definition put_worker (k : WorkerModel) : M unit :=
  on_db (fun d => d <| workers ::= insert k.(worker_id) k |>).

(** [session.add] of a new row: primary key, UNIQUE and CHECK constraints. *)
Definition insert_audit (a : AuditModel) : M unit :=
  old ← get_audit_row a.(audit_id);
  match old with
  | Some _ => raise (IntegrityError "audits.id")
  | None => put_audit a
  end.

Definition insert_job (j : JobModel) : M unit :=
  old ← get_job_row j.(job_id);
  match old with
  | Some _ => raise (IntegrityError "jobs.id")
  | None => put_job j
  end.

Definition insert_lock (l : ResourceLockModel) : M unit :=
  old ← get_lock_row l.(lock_resource_key);
  match old with
  | Some _ => raise (IntegrityError "resource_locks.resource_key")
  | None =>
      dup ← select_rows resource_locks
              (fun l' => String.eqb l'.(lock_job_id) l.(lock_job_id));
      match dup with
      | _ :: _ => raise (IntegrityError "uq_resource_locks_job_id")
      | [] => on_db (fun d => d <| resource_locks ::= insert l.(lock_resource_key) l |>)
      end
  end.

(** [delete(ResourceLockModel).where(p)] *)
Definition delete_locks (p : ResourceLockModel → bool) : M unit :=
  on_db (fun d => d <| resource_locks ::= filter (fun kv => p kv.2 = false) |>).

(** The rowid SQLite gives the next event: one above the largest in use. *)
Definition next_event_id (evs : list JobEventModel) : Z :=
  1 + foldr Z.max 0 (event_id <$> evs).

Definition insert_event (audit job type : string) (stage : option string)
    (progress : option Z) (message : string) (details : dict) : M unit :=
  now ← utc_now;
  on_db (fun d => d <| job_events ::= fun evs =>
    evs ++ [mkEvent (next_event_id evs) audit job now type stage progress message details] |>).
End world.
