(* ===== verification/JobService.v ===== *)
(** * The durable job service ([jobs/service.py])

    Every method of [JobService] as a program over the job database.  A method
    that opens a transaction is [immediate_session] or [session_begin] around
    its body; clock readings and fresh identifiers are drawn where the code
    draws them. *)

From S2P Require Import Prelude PyBase JobModels JobStore.

Section job_service.
Context `{Runtime}.

(** ** Records returned to callers *)

(** [JobService._later]: the later of two instants, the right one optional. *)
Definition later (left : datetime) (right : option datetime) : datetime :=
  match right with
  | None => left
  | Some r => if left <? r then r else left
  end.

(** [JobService._job_updated_at]: the row's own instants, and, while the row is
    attached to a session, the instant of its latest event. *)
Definition job_updated_at (attached : bool) (j : JobModel) : M datetime :=
  let latest := later (later j.(job_created_at) j.(job_started_at)) j.(job_finished_at) in
  if attached then
    stamps ← reads (fun w => event_created_at <$>
      List.filter (fun e => String.eqb e.(event_job_id) j.(job_id)) w.(db).(job_events));
    mret (later latest (match stamps with
                        | [] => None
                        | t :: ts => Some (foldr Z.max t ts)
                        end))
  else mret latest.

(** [JobService._job_record] *)
Definition job_record (attached : bool) (j : JobModel) : M JobRecord :=
  updated ← job_updated_at attached j;
  let error :=
    match j.(job_error_category) with
    | Some category =>
        if truthy_str j.(job_error_code) && truthy_str j.(job_error_message) then
          Some (mkJobError (default EmptyString j.(job_error_code)) category
                  (default EmptyString j.(job_error_message))
                  (str_or j.(job_error_component) "unknown")
                  (default false j.(job_error_retryable))
                  (default [] j.(job_error_details)))
        else None
    | None => None
    end in
  mret (mkJobRecord j.(job_id) j.(job_audit_id) j.(job_type) j.(job_status) j.(job_priority)
          j.(job_created_at) j.(job_started_at) j.(job_finished_at) updated j.(job_progress)
          j.(job_stage) j.(job_message) j.(job_target) j.(job_parameters)
          j.(job_result_reference) j.(job_cancel_requested) j.(job_worker_id) j.(job_attempt)
          j.(job_resource_key) j.(job_resource_group) error).

(** ** Private helpers *)

Definition require_audit (aid : string) : M AuditModel :=
  row ← get_audit_row aid;
  match row with
  | None => raise (EntityNotFound "Audit" aid)
  | Some a => mret a
  end.

Definition require_job (jid : string) : M JobModel :=
  row ← get_job_row jid;
  match row with
  | None => raise (EntityNotFound "Job" jid)
  | Some j => mret j
  end.

Definition add_event (j : JobModel) (type message : string) : M unit :=
  insert_event j.(job_audit_id) j.(job_id) type (Some j.(job_stage))
    (Some j.(job_progress)) message [].

Definition apply_error (j : JobModel) (e : JobError) : JobModel :=
  j <| job_error_code := Some e.(err_code) |>
    <| job_error_category := Some e.(err_category) |>
    <| job_error_message := Some e.(err_message) |>
    <| job_error_component := Some e.(err_component) |>
    <| job_error_retryable := Some e.(err_retryable) |>
    <| job_error_details := Some e.(err_details) |>.

(** [JobService._transition_job]; the row as it is after the transition. *)
Definition transition_job (j : JobModel) (desired : JobStatus) (stage : string)
    (progress : Z) (message : string) (error : option JobError) : M JobModel :=
  require_job_transition j.(job_status) desired;;
  let j := j <| job_status := desired |> <| job_stage := stage |>
             <| job_progress := progress |> <| job_message := Some message |> in
  j ← (if bool_decide (desired = RUNNING) then
         started ← or_utc_now j.(job_started_at);
         mret (j <| job_started_at := Some started |>)
       else mret j);
  j ← (if terminal desired then
         now ← utc_now;
         mret (j <| job_finished_at := Some now |>)
       else mret j);
  let j := match error with Some e => apply_error j e | None => j end in
  put_job j;;
  add_event j ("job_" +:+ JobStatus_value desired) message;;
  mret j.

Definition release_lock (jid : string) : M unit :=
  delete_locks (fun l => String.eqb l.(lock_job_id) jid).

(** The status [_refresh_audit] derives from the statuses of an audit's jobs. *)
Definition aggregate_status (statuses : list JobStatus) : AuditStatus :=
  if existsb (fun s => bool_decide (s ∈ [QUEUED; RUNNING])) statuses then AUDIT_RUNNING
  else if bool_decide (FAILED ∈ statuses) then AUDIT_FAILED
  else if bool_decide (INTERRUPTED ∈ statuses) then AUDIT_INTERRUPTED
  else if bool_decide (CANCELLED ∈ statuses) then AUDIT_CANCELLED
  else AUDIT_COMPLETED.

(** [audit.error] for an audit that failed or was interrupted. *)
Definition failed_job_error (statuses : list JobStatus) : option dict :=
  match find_first (fun s => bool_decide (s ∈ [FAILED; INTERRUPTED])) statuses with
  | Some s => Some [("job_status", PStr (JobStatus_value s))]
  | None => None
  end.

(** [JobService._refresh_audit] *)
Definition refresh_audit (aid : string) : M unit :=
  audit ← require_audit aid;
  rows ← select_rows jobs (fun j => String.eqb j.(job_audit_id) aid);
  let statuses := job_status <$> rows in
  match statuses with
  | [] => mret tt
  | _ :: _ =>
      let current := audit.(audit_status) in
      let desired := aggregate_status statuses in
      if bool_decide (current = desired) then mret tt
      else
        require_audit_transition current desired;;
        let audit := audit <| audit_status := desired |> in
        audit ← (if bool_decide (desired = AUDIT_RUNNING) then
                   started ← or_utc_now audit.(audit_started_at);
                   mret (audit <| audit_started_at := Some started |>
                               <| audit_finished_at := None |>)
                 else
                   now ← utc_now;
                   mret (audit <| audit_finished_at := Some now |>));
        let audit := if bool_decide (desired ∈ [AUDIT_FAILED; AUDIT_INTERRUPTED])
                     then audit <| audit_error := failed_job_error statuses |>
                     else audit in
        put_audit audit
  end.

(** [JobService._resource_available] *)
Definition resource_available (j : JobModel) : M bool :=
  taken ← (match j.(job_resource_key) with
           | Some key =>
               if truthy_str (Some key) then
                 row ← get_lock_row key;
                 mret (match row with Some _ => true | None => false end)
               else mret false
           | None => mret false
           end);
  if (taken : bool) then mret false
  else
    match j.(job_resource_group), j.(job_resource_limit) with
    | Some g, Some limit =>
        if truthy_str (Some g) && negb (limit =? 0) then
          held ← select_rows resource_locks
                   (fun l => bool_decide (l.(lock_resource_group) = Some g));
          mret (Z.of_nat (length held) <? limit)
        else mret true
    | _, _ => mret true
    end.

(** ** Audits *)

Definition create_audit (profile : string) (interface : option string)
    (scope : option dict) (actor : option string) : M AuditModel :=
  id ← new_uuid;
  session_begin (
    now ← utc_now;
    let audit := mkAudit id now None None AUDIT_CREATED profile interface
                   (default [] scope) actor None [] None in
    insert_audit audit;;
    mret audit).

Definition set_environment_reference (aid artifact : string) : M AuditModel :=
  session_begin (
    audit ← require_audit aid;
    let audit := audit <| audit_environment_snapshot_reference := Some artifact |> in
    put_audit audit;;
    mret audit).

(** [error.model_dump(mode="json")] *)
Definition ErrorCategory_value (c : ErrorCategory) : string :=
  match c with
  | VALIDATION => "validation" | TOOL_MISSING => "tool_missing"
  | PERMISSION => "permission" | TIMEOUT => "timeout"
  | CATEGORY_CANCELLED => "cancelled" | INTERNAL => "internal"
  | STORAGE => "storage" | PARSE => "parse"
  end.

Definition dump_error (e : JobError) : dict :=
  [("code", PStr e.(err_code)); ("category", PStr (ErrorCategory_value e.(err_category)));
   ("message", PStr e.(err_message)); ("component", PStr e.(err_component));
   ("retryable", PBool e.(err_retryable)); ("details", PDict e.(err_details))].

Definition fail_audit (aid : string) (error : JobError) : M AuditModel :=
  session_begin (
    audit ← require_audit aid;
    require_audit_transition audit.(audit_status) AUDIT_FAILED;;
    now ← utc_now;
    let audit := audit <| audit_status := AUDIT_FAILED |> <| audit_finished_at := Some now |>
                       <| audit_error := Some (dump_error error) |> in
    put_audit audit;;
    mret audit).

Definition get_audit (aid : string) : M AuditModel := require_audit aid.

Definition list_audits (limit offset : Z) (status : option AuditStatus)
    : M (Page AuditModel) :=
  rows ← select_rows audits (fun a =>
    match status with None => true | Some s => bool_decide (a.(audit_status) = s) end);
  let ordered := sort_by (fun a b => b.(audit_created_at) <=? a.(audit_created_at)) rows in
  mret (mkPage (sql_page limit offset ordered) limit offset (Z.of_nat (length rows))).

(** ** Jobs *)

Definition create_job (aid job_type : string) (target : option string)
    (parameters : option dict) (priority : Z) (resource_key resource_group : option string)
    (resource_limit : option Z) : M JobRecord :=
  id ← new_uuid;
  j ← session_begin (
    audit ← require_audit aid;
    let current := audit.(audit_status) in
    (if bool_decide (current ∈ AUDIT_JOB_ACCEPTING) then mret tt
     else raise (InvalidAuditTransition current AUDIT_RUNNING
                   (Some ("Cannot enqueue a job because the audit is "
                            +:+ AuditStatus_value current))));;
    (if bool_decide (current = AUDIT_COMPLETED) then
       require_audit_transition current AUDIT_RUNNING;;
       put_audit (audit <| audit_status := AUDIT_RUNNING |> <| audit_finished_at := None |>)
     else mret tt);;
    now ← utc_now;
    let j := mkJob id aid job_type QUEUED priority now None None 0 "queued" (Some "Job queued")
               target (default [] parameters) None None None None None None None false None 0
               resource_key resource_group resource_limit in
    insert_job j;;
    add_event j "job_queued" "Job queued";;
    mret j);
  job_record false j.

Definition get_job (jid : string) : M JobRecord :=
  j ← require_job jid;
  job_record true j.

Definition list_jobs (limit offset : Z) (status : option JobStatus)
    (aid type : option string) : M (Page JobRecord) :=
  rows ← select_rows jobs (fun j =>
    match status with None => true | Some s => bool_decide (j.(job_status) = s) end &&
    match aid with None => true | Some a => String.eqb j.(job_audit_id) a end &&
    match type with None => true | Some t => String.eqb j.(job_type) t end);
  let ordered := sort_by (fun a b => b.(job_created_at) <=? a.(job_created_at)) rows in
  records ← for_each (job_record false) (sql_page limit offset ordered);
  mret (mkPage records limit offset (Z.of_nat (length rows))).

Definition list_events (jid : string) (limit offset : Z) : M (Page JobEventModel) :=
  require_job jid;;
  evs ← reads (fun w => sort_by (fun a b => a.(event_id) <=? b.(event_id))
    (List.filter (fun e => String.eqb e.(event_job_id) jid) w.(db).(job_events)));
  mret (mkPage (sql_page limit offset evs) limit offset (Z.of_nat (length evs))).

Definition request_cancel (jid : string) : M JobRecord :=
  result ← immediate_session (
    j ← require_job jid;
    match j.(job_status) with
    | QUEUED =>
        j ← transition_job j CANCELLED "cancelled" j.(job_progress) "Queued job cancelled"
              (Some (mkJobError "cancelled_before_start" CATEGORY_CANCELLED
                       "Job was cancelled before execution" "job_service" false []));
        refresh_audit j.(job_audit_id);;
        mret (inl j)
    | RUNNING =>
        if j.(job_cancel_requested) then mret (inl j)
        else
          let j := j <| job_cancel_requested := true |> in
          put_job j;;
          add_event j "cancellation_requested" "Cancellation requested";;
          mret (inl j)
    | _ =>
        record ← job_record true j;
        mret (inr record)
    end);
  match result with
  | inl j => job_record false j
  | inr record => mret record
  end.

(** The queue order of [claim_next]: priority descending, then age. *)
Definition claims_before (a b : JobModel) : bool :=
  (b.(job_priority) <? a.(job_priority)) ||
  ((a.(job_priority) =? b.(job_priority)) && (a.(job_created_at) <=? b.(job_created_at))).

(** A queued job whose resource is taken is marked as waiting, once. *)
Definition mark_waiting (j : JobModel) : M unit :=
  if String.eqb j.(job_stage) "resource_wait" then mret tt
  else
    let j := j <| job_stage := "resource_wait" |>
               <| job_message := Some "Waiting for exclusive resource" |> in
    put_job j;;
    add_event j "resource_wait" "Waiting for exclusive resource".

(** The resource key a claimed job locks. *)
Definition lock_key (j : JobModel) : string :=
  str_or j.(job_resource_key) ("job:" +:+ j.(job_id)).

Definition needs_lock (j : JobModel) : bool :=
  truthy_str j.(job_resource_key) || truthy_str j.(job_resource_group).

(** The body of the claim loop for the job it takes. *)
Definition start_job (wid : string) (j : JobModel) : M JobRecord :=
  j ← transition_job j RUNNING "starting" (Z.max 1 j.(job_progress)) "Worker claimed job" None;
  let j := j <| job_worker_id := Some wid |> <| job_attempt ::= Z.add 1 |> in
  put_job j;;
  (if needs_lock j then
     now ← utc_now;
     insert_lock (mkLock (lock_key j) j.(job_resource_group) j.(job_id) wid now)
   else mret tt);;
  audit ← require_audit j.(job_audit_id);
  let current := audit.(audit_status) in
  (if bool_decide (current ∈ [AUDIT_CREATED; AUDIT_COMPLETED]) then
     require_audit_transition current AUDIT_RUNNING;;
     started ← or_utc_now audit.(audit_started_at);
     put_audit (audit <| audit_status := AUDIT_RUNNING |>
                      <| audit_started_at := Some started |> <| audit_finished_at := None |>)
   else mret tt);;
  job_record true j.

Fixpoint claim_loop (wid : string) (candidates : list JobModel) : M (option JobRecord) :=
  match candidates with
  | [] => mret None
  | j :: rest =>
      available ← resource_available j;
      if (available : bool) then (record ← start_job wid j; mret (Some record))
      else (mark_waiting j;; claim_loop wid rest)
  end.

Definition claim_next (wid : string) : M (option JobRecord) :=
  immediate_session (
    queued ← select_rows jobs (fun j => bool_decide (j.(job_status) = QUEUED));
    claim_loop wid (sort_by claims_before queued)).

Definition update_progress (jid : string) (p : JobProgress) : M JobRecord :=
  j ← session_begin (
    j ← require_job jid;
    (if bool_decide (j.(job_status) = RUNNING) then mret tt
     else raise (InvalidJobTransition j.(job_status) RUNNING));;
    (if p.(percentage) <? j.(job_progress)
     then raise (ValueError "Job progress cannot move backwards") else mret tt);;
    let j := j <| job_progress := p.(percentage) |> <| job_stage := p.(prog_stage) |>
               <| job_message := Some p.(prog_message) |> in
    put_job j;;
    add_event j "progress" p.(prog_message);;
    mret j);
  job_record false j.

(** [audit.summary] updated with a job's summary. *)
Definition merge_summary (aid : string) (summary : dict) : M unit :=
  audit ← require_audit aid;
  put_audit (audit <| audit_summary ::= fun old => dict_update old summary |>).

Definition complete_job (jid : string) (result_reference : option string)
    (summary : option dict) : M JobRecord :=
  j ← immediate_session (
    j ← require_job jid;
    let j := j <| job_result_reference := result_reference |> in
    j ← transition_job j COMPLETED "completed" 100 "Job completed" None;
    release_lock j.(job_id);;
    (match summary with
     | Some s => merge_summary j.(job_audit_id) s
     | None => mret tt
     end);;
    refresh_audit j.(job_audit_id);;
    mret j);
  job_record false j.

Definition fail_job (jid : string) (error : JobError) : M JobRecord :=
  j ← immediate_session (
    j ← require_job jid;
    j ← transition_job j FAILED "failed" j.(job_progress) error.(err_message) (Some error);
    release_lock j.(job_id);;
    refresh_audit j.(job_audit_id);;
    mret j);
  job_record false j.

Definition cancel_running_job (jid message : string) (result_reference : option string)
    (summary : option dict) : M JobRecord :=
  j ← immediate_session (
    j ← require_job jid;
    let j := if truthy_str result_reference
             then j <| job_result_reference := result_reference |> else j in
    j ← transition_job j CANCELLED "cancelled" j.(job_progress) message
          (Some (mkJobError "cancelled" CATEGORY_CANCELLED message "job_worker" false []));
    release_lock j.(job_id);;
    (match summary with
     | Some ((_ :: _) as s) => merge_summary j.(job_audit_id) s
     | _ => mret tt
     end);;
    refresh_audit j.(job_audit_id);;
    mret j);
  job_record false j.

(** ** Recovery and workers *)

(** [JobService._recover_running] *)
Definition recover_running : M Z :=
  running ← select_rows jobs (fun j => bool_decide (j.(job_status) = RUNNING));
  for_each (fun j =>
    transition_job j INTERRUPTED "interrupted" j.(job_progress)
      "Application restarted during execution"
      (Some (mkJobError "application_restart" INTERNAL
               "Job interrupted by application restart" "job_recovery" true []))) running;;
  delete_locks (fun _ => true);;
  on_db (fun d => d <| workers ::= fmap (fun k =>
    k <| worker_status := WK_STOPPED |> <| worker_current_job_id := None |>) |>);;
  for_each refresh_audit (scan (remove_dups (job_audit_id <$> running)));;
  mret (Z.of_nat (length running)).

Definition recover_after_restart : M Z := immediate_session recover_running.

(** [timedelta(seconds=n)] *)
Definition seconds (n : Z) : Z := n * 1000000.

(** [register_worker]'s row, also written by [prepare_supervisor]. *)
Definition start_worker_row (wid : string) (now : datetime) : M unit :=
  row ← get_worker_row wid;
  match row with
  | None => put_worker (mkWorker wid now now WK_STARTING None)
  | Some k => put_worker (k <| worker_started_at := now |> <| worker_heartbeat_at := now |>
                            <| worker_status := WK_STARTING |> <| worker_current_job_id := None |>)
  end.

Definition prepare_supervisor (wid : string) (stale_after_seconds : Z) : M Z :=
  now0 ← utc_now;
  let cutoff := now0 - seconds stale_after_seconds in
  immediate_session (
    active ← select_rows workers (fun k =>
      (cutoff <=? k.(worker_heartbeat_at)) &&
      bool_decide (k.(worker_status) ∈ [WK_STARTING; WK_IDLE; WK_RUNNING]));
    match active with
    | _ :: _ => raise WorkerAlreadyRunning
    | [] =>
        recovered ← recover_running;
        now ← utc_now;
        start_worker_row wid now;;
        mret recovered
    end).

Definition register_worker (wid : string) : M unit :=
  now ← utc_now;
  session_begin (start_worker_row wid now).

Definition heartbeat_worker (wid : string) (status : WorkerStatus)
    (current_job_id : option string) : M unit :=
  session_begin (
    row ← get_worker_row wid;
    match row with
    | None => raise (EntityNotFound "Worker" wid)
    | Some k =>
        now ← utc_now;
        put_worker (k <| worker_heartbeat_at := now |> <| worker_status := status |>
                      <| worker_current_job_id := current_job_id |>)
    end).

Definition worker_is_ready (stale_after_seconds : Z) : M bool :=
  now ← utc_now;
  let cutoff := now - seconds stale_after_seconds in
  ready ← select_rows workers (fun k =>
    (cutoff <=? k.(worker_heartbeat_at)) &&
    bool_decide (k.(worker_status) ∈ [WK_IDLE; WK_RUNNING]));
  mret (0 <? Z.of_nat (length ready)).

Definition artifact (id : string) : M ArtifactModel :=
  row ← reads (fun w => w.(db).(artifacts) !! id);
  match row with
  | None => raise (EntityNotFound "Artifact" id)
  | Some a => mret a
  end.
End job_service.
