(* ===== verification/JobInvariant.v ===== *)
(** * The invariant of the job store

    What every committed state of the audits, jobs and resource_locks tables
    satisfies, how a job row may evolve, and the pure lemmas that each kind of
    change made by the service preserves both. *)

From S2P Require Import Prelude PyBase JobModels JobStore JobService.

Section tables.
Implicit Types (A : gmap string AuditModel) (J : gmap string JobModel)
  (L : gmap string ResourceLockModel) (j : JobModel) (a : AuditModel)
  (l : ResourceLockModel).

(** ** Statuses of an audit's jobs *)

Definition has_status J (aid : string) (s : JobStatus) : Prop :=
  ∃ k j, J !! k = Some j ∧ j.(job_audit_id) = aid ∧ j.(job_status) = s.

(** The audit status [s] is the aggregate of the job statuses [P] holds of. *)
Definition aggregates (P : JobStatus → Prop) (s : AuditStatus) : Prop :=
  ∃ statuses, (∀ x, x ∈ statuses ↔ P x) ∧ aggregate_status statuses = s.

(** An audit without jobs is new or failed at creation; one whose jobs all wait
    may still be new; in every other case its status is the aggregate. *)
Definition audit_agrees J a : Prop :=
  ((∀ s, ¬ has_status J a.(audit_id) s) ∧ a.(audit_status) ∈ [AUDIT_CREATED; AUDIT_FAILED]) ∨
  ((∃ s, has_status J a.(audit_id) s) ∧
   ((a.(audit_status) = AUDIT_CREATED ∧ ∀ s, has_status J a.(audit_id) s → s = QUEUED) ∨
    aggregates (has_status J a.(audit_id)) a.(audit_status))).

(** ** The invariant *)

Definition times_ok j : Prop :=
  (j.(job_status) = RUNNING → is_Some j.(job_started_at)) ∧
  (terminal j.(job_status) = true ↔ is_Some j.(job_finished_at)).

Record store_ok A J L : Prop := {
  ok_audit_key k a : A !! k = Some a → a.(audit_id) = k;
  ok_job_key k j : J !! k = Some j → j.(job_id) = k;
  ok_job_audit k j : J !! k = Some j → is_Some (A !! j.(job_audit_id));
  ok_job_check k j : J !! k = Some j → job_check j = true;
  ok_job_times k j : J !! k = Some j → times_ok j;
  ok_lock_job k l : L !! k = Some l →
    ∃ j, J !! l.(lock_job_id) = Some j ∧ j.(job_status) = RUNNING ∧ needs_lock j = true ∧
         lock_key j = k ∧ l.(lock_resource_key) = k ∧
         l.(lock_resource_group) = j.(job_resource_group);
  ok_job_lock k j : J !! k = Some j → j.(job_status) = RUNNING → needs_lock j = true →
    ∃ l, L !! lock_key j = Some l ∧ l.(lock_job_id) = k;
  ok_audit k a : A !! k = Some a → audit_agrees J a
}.

(** The locks of a group, and those of them whose job asked for a limit of at
    most [m] (an absent or zero limit is no limit). *)
Definition group_locks (g : string) L : gmap string ResourceLockModel :=
  filter (fun kv => kv.2.(lock_resource_group) = Some g) L.

Definition limit_of J l : Z :=
  default 0 (j ← J !! l.(lock_job_id); j.(job_resource_limit)).

Definition group_holders J L (g : string) (m : Z) : gmap string ResourceLockModel :=
  filter (fun kv => 1 ≤ limit_of J kv.2 ≤ m) (group_locks g L).

(** Jobs of one group that tolerate at most [m] holders are at most [m]. *)
Definition groups_ok J L : Prop :=
  ∀ g m, g ≠ EmptyString → 0 ≤ m → Z.of_nat (size (group_holders J L g m)) ≤ m.

Definition db_ok (d : DB) : Prop :=
  store_ok d.(audits) d.(jobs) d.(resource_locks) ∧ groups_ok d.(jobs) d.(resource_locks).

(** ** How rows evolve *)

(** What no operation ever changes in a job row. *)
Definition same_job_spec j j' : Prop :=
  j'.(job_id) = j.(job_id) ∧ j'.(job_audit_id) = j.(job_audit_id) ∧
  j'.(job_type) = j.(job_type) ∧ j'.(job_priority) = j.(job_priority) ∧
  j'.(job_created_at) = j.(job_created_at) ∧ j'.(job_target) = j.(job_target) ∧
  j'.(job_parameters) = j.(job_parameters) ∧ j'.(job_resource_key) = j.(job_resource_key) ∧
  j'.(job_resource_group) = j.(job_resource_group) ∧
  j'.(job_resource_limit) = j.(job_resource_limit).

Record job_evolves j j' : Prop := {
  ev_spec : same_job_spec j j';
  ev_status : rtc job_step j.(job_status) j'.(job_status);
  ev_progress : j.(job_progress) ≤ j'.(job_progress);
  ev_attempt : j.(job_attempt) ≤ j'.(job_attempt);
  ev_started : is_Some j.(job_started_at) → j'.(job_started_at) = j.(job_started_at);
  ev_terminal : terminal j.(job_status) = true → j' = j
}.

Record db_evolves (d d' : DB) : Prop := {
  ev_jobs k j : d.(jobs) !! k = Some j → ∃ j', d'.(jobs) !! k = Some j' ∧ job_evolves j j';
  ev_audits k a : d.(audits) !! k = Some a → ∃ a', d'.(audits) !! k = Some a';
  ev_events : d.(job_events) `prefix_of` d'.(job_events)
}.

#[export] Instance job_evolves_preorder : PreOrder job_evolves.
Proof.
  split.
  - intros j. by split.
  - intros j1 j2 j3 [S1 T1 P1 N1 B1 F1] [S2 T2 P2 N2 B2 F2].
    split; [| by etrans | lia | lia | |].
    + unfold same_job_spec in *. intuition congruence.
    + intros H. rewrite B2; [by apply B1|]. by rewrite (B1 H).
    + intros H. pose proof (F1 H) as Heq. rewrite <- Heq. apply F2. by rewrite Heq.
Qed.

#[export] Instance db_evolves_preorder : PreOrder db_evolves.
Proof.
  split.
  - intros d. split; [|eauto|done]. intros k j Hj. by exists j.
  - intros d1 d2 d3 [J1 A1 E1] [J2 A2 E2]. split.
    + intros k j (j2 & H2 & R2)%J1. destruct (J2 _ _ H2) as (j3 & H3 & R3).
      exists j3. split; [done|]. by etrans.
    + intros k a (a2 & H2)%A1. eauto.
    + by etrans.
Qed.

(** ** Aggregation *)

Lemma aggregate_ext xs ys :
  (∀ s, s ∈ xs ↔ s ∈ ys) → aggregate_status xs = aggregate_status ys.
Proof.
  intros Heq. unfold aggregate_status.
  assert (∀ p : JobStatus → bool, existsb p xs = existsb p ys) as He.
  { intros p. apply eq_iff_eq_true. rewrite !existsb_elem_of. by setoid_rewrite Heq. }
  rewrite He. by rewrite !(bool_decide_ext _ _ (Heq _)).
Qed.

Lemma aggregates_ext (P P' : JobStatus → Prop) s :
  (∀ x, P x ↔ P' x) → aggregates P s → aggregates P' s.
Proof. intros HP (xs & Hl & <-). exists xs. split; [|done]. intros x. by rewrite Hl. Qed.

Lemma aggregates_det P s1 s2 : aggregates P s1 → aggregates P s2 → s1 = s2.
Proof.
  intros (xs & H1 & <-) (ys & H2 & <-). apply aggregate_ext. intros x. by rewrite H1, H2.
Qed.

Lemma aggregates_active P s x :
  aggregates P s → P x → terminal x = false → s = AUDIT_RUNNING.
Proof.
  intros (xs & Hl & <-) Hx Ht. unfold aggregate_status.
  assert (existsb (fun s => bool_decide (s ∈ [QUEUED; RUNNING])) xs = true) as ->; [|done].
  apply existsb_elem_of. exists x. split; [by apply Hl|].
  destruct x; try discriminate Ht; done.
Qed.

Lemma aggregate_not_created xs : aggregate_status xs ≠ AUDIT_CREATED.
Proof. unfold aggregate_status. by repeat case_match. Qed.

(** RUNNING admits every aggregate. *)
Lemma aggregate_from_running xs :
  AUDIT_RUNNING = aggregate_status xs ∨ audit_step AUDIT_RUNNING (aggregate_status xs).
Proof.
  unfold audit_step, aggregate_status.
  repeat case_match; (by left) || (right; by_decide).
Qed.

(** A new audit whose jobs wait or were cancelled admits its aggregate. *)
Lemma aggregate_from_created xs :
  xs ≠ [] → (∀ s, s ∈ xs → s = QUEUED ∨ s = CANCELLED) →
  audit_step AUDIT_CREATED (aggregate_status xs).
Proof.
  intros Hne Hl. unfold audit_step, aggregate_status.
  destruct (existsb _ xs) eqn:HQ; [by_decide|].
  case_bool_decide as HF; [by_decide|].
  case_bool_decide as HI; [by destruct (Hl _ HI)|].
  case_bool_decide as HC; [by_decide|].
  destruct xs as [|s xs]; [done|]. exfalso. rewrite existsb_false_elem_of in HQ.
  destruct (Hl s) as [->| ->]; [constructor| |by apply HC; constructor].
  by specialize (HQ QUEUED ltac:(constructor)).
Qed.

(** ** Status sets under row changes *)

Definition statuses_of J (aid : string) : list JobStatus :=
  job_status <$> List.filter (fun j => String.eqb j.(job_audit_id) aid) (map_to_list J).*2.

Lemma elem_of_rows {R} (T : gmap string R) (r : R) :
  r ∈ (map_to_list T).*2 ↔ ∃ k, T !! k = Some r.
Proof.
  rewrite list_elem_of_fmap. split.
  - intros ([k r'] & -> & H%elem_of_map_to_list). eauto.
  - intros (k & H). exists (k, r). by rewrite elem_of_map_to_list.
Qed.

Lemma elem_of_selected {R} (T : gmap string R) (p : R → bool) (r : R) :
  r ∈ List.filter p (map_to_list T).*2 ↔ (∃ k, T !! k = Some r) ∧ p r = true.
Proof. by rewrite list_elem_of_In, filter_In, <- list_elem_of_In, elem_of_rows. Qed.

Lemma elem_of_statuses J aid s : s ∈ statuses_of J aid ↔ has_status J aid s.
Proof.
  unfold statuses_of, has_status. rewrite list_elem_of_fmap. split.
  - intros (j & -> & [(k & Hk) He]%elem_of_selected). apply String.eqb_eq in He. eauto.
  - intros (k & j & Hk & <- & <-). exists j. split; [done|].
    apply elem_of_selected. rewrite String.eqb_refl. eauto.
Qed.

Lemma aggregates_statuses J aid : aggregates (has_status J aid) (aggregate_status (statuses_of J aid)).
Proof. exists (statuses_of J aid). split; [|done]. apply elem_of_statuses. Qed.

Lemma aggregates_intro_active J aid x :
  has_status J aid x → terminal x = false → aggregates (has_status J aid) AUDIT_RUNNING.
Proof.
  intros Hx Ht. pose proof (aggregates_statuses J aid) as H.
  by rewrite (aggregates_active _ _ _ H Hx Ht) in H.
Qed.

Lemma has_status_insert_other J k j' aid s :
  (∀ j, J !! k = Some j → j.(job_audit_id) ≠ aid) → j'.(job_audit_id) ≠ aid →
  has_status (<[k:=j']> J) aid s ↔ has_status J aid s.
Proof.
  intros Hold Hnew. unfold has_status. split; intros (k0 & j0 & Hk & Ha & Hs);
    exists k0, j0; (split; [|done]).
  - apply lookup_insert_Some in Hk as [[-> ->]|[_ Hk]]; done.
  - rewrite lookup_insert_ne; [done|]. intros ->. by destruct (Hold _ Hk).
Qed.

Lemma has_status_insert_same J k j j' aid s :
  J !! k = Some j → j'.(job_audit_id) = j.(job_audit_id) → j'.(job_status) = j.(job_status) →
  has_status (<[k:=j']> J) aid s ↔ has_status J aid s.
Proof.
  intros Hj Ha Hs. unfold has_status. split; intros (k0 & j0 & Hk & <- & <-).
  - apply lookup_insert_Some in Hk as [[-> ->]|[_ Hk]]; [|by exists k0, j0].
    by exists k0, j.
  - destruct (decide (k0 = k)) as [->|].
    + exists k, j'. rewrite lookup_insert_eq. rewrite Hj in Hk. by simplify_eq.
    + exists k0, j0. by rewrite lookup_insert_ne.
Qed.

Lemma has_status_insert J k j' : has_status (<[k:=j']> J) j'.(job_audit_id) j'.(job_status).
Proof. exists k, j'. by rewrite lookup_insert_eq. Qed.

(** Which statuses an insertion can add. *)
Lemma has_status_insert_inv J k j' aid s :
  has_status (<[k:=j']> J) aid s →
  s = j'.(job_status) ∨ has_status J aid s.
Proof.
  intros (k0 & j0 & Hk & Ha & Hs).
  apply lookup_insert_Some in Hk as [[-> ->]|[_ Hk]]; [by left|right]. by exists k0, j0.
Qed.

Lemma audit_agrees_ext J J' a a' :
  a'.(audit_id) = a.(audit_id) → a'.(audit_status) = a.(audit_status) →
  (∀ s, has_status J a.(audit_id) s ↔ has_status J' a.(audit_id) s) →
  audit_agrees J a → audit_agrees J' a'.
Proof.
  intros Hid Hst Heq. unfold audit_agrees. rewrite Hid, Hst. setoid_rewrite <- Heq.
  intros [?|[? [?|?]]]; [by left|right; split; [done|by left]|].
  right. split; [done|]. right. by eapply aggregates_ext.
Qed.

Lemma audit_agrees_created J a :
  audit_agrees J a → a.(audit_status) = AUDIT_CREATED →
  ∀ s, has_status J a.(audit_id) s → s = QUEUED.
Proof.
  intros [[Hn _]|[_ [[_ H]|Hagg]]] Hc s Hs; [by destruct (Hn s)|by apply H|].
  destruct Hagg as (xs & _ & Hx). rewrite Hc in Hx. by destruct (aggregate_not_created xs).
Qed.

(** An audit with a running job is RUNNING; with a queued one, CREATED or RUNNING. *)
Lemma audit_agrees_running J a :
  audit_agrees J a → has_status J a.(audit_id) RUNNING → a.(audit_status) = AUDIT_RUNNING.
Proof.
  intros [[Hn _]|[_ [[_ H]|Hagg]]] Hs; [by destruct (Hn RUNNING)| |].
  - by specialize (H _ Hs).
  - by eapply aggregates_active.
Qed.

Lemma audit_agrees_queued J a :
  audit_agrees J a → has_status J a.(audit_id) QUEUED →
  a.(audit_status) = AUDIT_CREATED ∨ a.(audit_status) = AUDIT_RUNNING.
Proof.
  intros [[Hn _]|[_ [[? H]|Hagg]]] Hs; [by destruct (Hn QUEUED)|by left|right].
  by eapply aggregates_active.
Qed.

(** ** Changes that preserve the invariant *)

Lemma same_spec_lock_key j j' : same_job_spec j j' → lock_key j' = lock_key j.
Proof. intros S. unfold lock_key. destruct S as (-> & _ & _ & _ & _ & _ & _ & -> & _). done. Qed.

Lemma same_spec_needs_lock j j' : same_job_spec j j' → needs_lock j' = needs_lock j.
Proof. intros S. unfold needs_lock. by destruct S as (_ & _ & _ & _ & _ & _ & _ & -> & -> & _). Qed.

Lemma same_spec_audit j j' : same_job_spec j j' → j'.(job_audit_id) = j.(job_audit_id).
Proof. by intros (_ & ? & _). Qed.

Lemma same_spec_group j j' : same_job_spec j j' → j'.(job_resource_group) = j.(job_resource_group).
Proof. by intros (_ & _ & _ & _ & _ & _ & _ & _ & ? & _). Qed.

Lemma same_spec_id j j' : same_job_spec j j' → j'.(job_id) = j.(job_id).
Proof. by intros (? & _). Qed.

Ltac lookup_cases H :=
  apply lookup_insert_Some in H as [[? ?]|[? H]]; [subst|].

(** Rewriting a row without changing its status. *)
Lemma store_ok_touch A J L k j j' :
  store_ok A J L → J !! k = Some j → same_job_spec j j' →
  j'.(job_status) = j.(job_status) → job_check j' = true → times_ok j' →
  store_ok A (<[k:=j']> J) L.
Proof.
  intros [HA HJ HF HC HT HL HR HG] Hj S Hst Hck Htm.
  pose proof (HJ _ _ Hj) as Hid. split; try done.
  - intros k0 j0 H. lookup_cases H; [|by eauto]. by rewrite (same_spec_id _ _ S).
  - intros k0 j0 H. lookup_cases H; [|by eauto]. rewrite (same_spec_audit _ _ S). eauto.
  - intros k0 j0 H. lookup_cases H; eauto.
  - intros k0 j0 H. lookup_cases H; eauto.
  - intros k0 l H. destruct (HL _ _ H) as (j0 & H0 & ? & Hn & Hk & ? & Hg).
    destruct (decide (l.(lock_job_id) = k)) as [<-|].
    + rewrite Hj in H0. simplify_eq. exists j'. rewrite lookup_insert_eq, Hst.
      rewrite (same_spec_needs_lock _ _ S), (same_spec_lock_key _ _ S), (same_spec_group _ _ S).
      done.
    + exists j0. rewrite lookup_insert_ne; done.
  - intros k0 j0 H Hs Hn. lookup_cases H; [|by eauto].
    rewrite (same_spec_lock_key _ _ S). rewrite (same_spec_needs_lock _ _ S) in Hn.
    eapply HR; eauto. by rewrite <- Hst.
  - intros k0 a H. eapply audit_agrees_ext; [done|done| |by eapply HG].
    intros s. symmetry. apply has_status_insert_same with (j := j); [done| |done].
    by apply same_spec_audit.
Qed.

(** Rewriting an audit row that still agrees with its jobs. *)
Lemma store_ok_put_audit A J L k a a' :
  store_ok A J L → A !! k = Some a → a'.(audit_id) = k → audit_agrees J a' →
  store_ok (<[k:=a']> A) J L.
Proof.
  intros [HA HJ HF HC HT HL HR HG] Ha Hid Hag. split; try done.
  - intros k0 a0 H. lookup_cases H; eauto.
  - intros k0 j0 H. destruct (HF _ _ H) as [a0 H0].
    destruct (decide (j0.(job_audit_id) = k)) as [->|].
    + exists a'. apply lookup_insert_eq.
    + exists a0. by rewrite lookup_insert_ne.
  - intros k0 a0 H. lookup_cases H; eauto.
Qed.

(** A new audit has no jobs. *)
Lemma store_ok_new_audit A J L a :
  store_ok A J L → A !! a.(audit_id) = None → a.(audit_status) = AUDIT_CREATED →
  store_ok (<[a.(audit_id):=a]> A) J L.
Proof.
  intros [HA HJ HF HC HT HL HR HG] Ha Hst. split; try done.
  - intros k0 a0 H. lookup_cases H; eauto.
  - intros k0 j0 H. destruct (HF _ _ H) as [a0 H0]. exists a0.
    rewrite lookup_insert_ne; [done|]. congruence.
  - intros k0 a0 H. lookup_cases H; [|eauto]. left. split.
    + intros s (k1 & j & Hk & Hj & _). destruct (HF _ _ Hk) as [a1 H1]. congruence.
    + rewrite Hst. by_decide.
Qed.

(** Enqueueing: a fresh QUEUED job in an audit that accepts it. *)
Lemma store_ok_new_job A J L j a a' :
  store_ok A J L → J !! j.(job_id) = None → j.(job_status) = QUEUED →
  job_check j = true → times_ok j →
  A !! j.(job_audit_id) = Some a → a'.(audit_id) = j.(job_audit_id) →
  (a.(audit_status) = AUDIT_CREATED ∧ a'.(audit_status) = AUDIT_CREATED ∨
   a'.(audit_status) = AUDIT_RUNNING) →
  store_ok (<[j.(job_audit_id):=a']> A) (<[j.(job_id):=j]> J) L.
Proof.
  intros [HA HJ HF HC HT HL HR HG] Hj Hst Hck Htm Ha Hid Hcase. split.
  - intros k0 a0 H. lookup_cases H; eauto.
  - intros k0 j0 H. lookup_cases H; eauto.
  - intros k0 j0 H.
    assert (is_Some (A !! j0.(job_audit_id))) as [a0 H0] by (lookup_cases H; eauto).
    destruct (decide (j0.(job_audit_id) = j.(job_audit_id))) as [->|].
    + exists a'. apply lookup_insert_eq.
    + exists a0. by rewrite lookup_insert_ne.
  - intros k0 j0 H. lookup_cases H; eauto.
  - intros k0 j0 H. lookup_cases H; eauto.
  - intros k0 l H. destruct (HL _ _ H) as (j0 & H0 & Hrest). exists j0.
    rewrite lookup_insert_ne; [done|]. congruence.
  - intros k0 j0 H Hs Hn. lookup_cases H; [congruence|eauto].
  - intros k0 a0 H. lookup_cases H.
    + pose proof (has_status_insert J j.(job_id) j) as Hnew. rewrite Hst in Hnew.
      right. rewrite Hid. split; [eauto|]. destruct Hcase as [[Hc Hc']|Hr].
      * left. split; [done|]. intros s [->|Hs]%has_status_insert_inv; [done|].
        pose proof (HA _ _ Ha) as Haid. rewrite <- Haid in Hs.
        eapply audit_agrees_created; eauto.
      * right. rewrite Hr. by eapply aggregates_intro_active.
    + eapply audit_agrees_ext; [done|done| |by eapply HG]. intros s.
      rewrite (HA _ _ H). symmetry. apply has_status_insert_other; [|done].
      by rewrite Hj.
Qed.

(** Claiming: QUEUED becomes RUNNING, with its lock, in a RUNNING audit. *)
Lemma store_ok_start A J L L' j j' a a' :
  store_ok A J L → J !! j.(job_id) = Some j → j.(job_status) = QUEUED →
  same_job_spec j j' → j'.(job_status) = RUNNING → job_check j' = true → times_ok j' →
  A !! j.(job_audit_id) = Some a → a'.(audit_id) = a.(audit_id) →
  a'.(audit_status) = AUDIT_RUNNING →
  (needs_lock j = false ∧ L' = L ∨
   needs_lock j = true ∧ L !! lock_key j = None ∧
   ∃ l, L' = <[lock_key j := l]> L ∧ l.(lock_resource_key) = lock_key j ∧
        l.(lock_job_id) = j.(job_id) ∧ l.(lock_resource_group) = j.(job_resource_group)) →
  store_ok (<[j.(job_audit_id):=a']> A) (<[j.(job_id):=j']> J) L'.
Proof.
  intros [HA HJ HF HC HT HL HR HG] Hj Hq S Hrun Hck Htm Ha Hid Hast Hlock.
  pose proof (HA _ _ Ha) as Haid.
  assert (Hother : ∀ k l, L !! k = Some l → l.(lock_job_id) ≠ j.(job_id)).
  { intros k l H Heq. destruct (HL _ _ H) as (j0 & H0 & Hs & _). rewrite Heq, Hj in H0.
    congruence. }
  split.
  - intros k0 a0 H. lookup_cases H; [congruence|eauto].
  - intros k0 j0 H. lookup_cases H; [by rewrite (same_spec_id _ _ S)|eauto].
  - intros k0 j0 H.
    assert (is_Some (A !! j0.(job_audit_id))) as [a0 H0].
    { lookup_cases H; [rewrite (same_spec_audit _ _ S)|]; eauto. }
    destruct (decide (j0.(job_audit_id) = j.(job_audit_id))) as [->|].
    + exists a'. apply lookup_insert_eq.
    + exists a0. by rewrite lookup_insert_ne.
  - intros k0 j0 H. lookup_cases H; eauto.
  - intros k0 j0 H. lookup_cases H; eauto.
  - intros k0 l H.
    assert (Hkeep : L !! k0 = Some l → ∃ j0, <[j.(job_id):=j']> J !! l.(lock_job_id) = Some j0 ∧
      j0.(job_status) = RUNNING ∧ needs_lock j0 = true ∧ lock_key j0 = k0 ∧
      l.(lock_resource_key) = k0 ∧ l.(lock_resource_group) = j0.(job_resource_group)).
    { intros H0. destruct (HL _ _ H0) as (j0 & H1 & ?). exists j0.
      rewrite lookup_insert_ne; [done|]. intros Heq. by apply (Hother _ _ H0). }
    destruct Hlock as [[_ ->]|(Hn & Hfree & l0 & -> & Hk & Hl & Hg)]; [auto|].
    lookup_cases H; [|auto]. exists j'. rewrite Hl, lookup_insert_eq.
    rewrite (same_spec_needs_lock _ _ S), (same_spec_lock_key _ _ S), (same_spec_group _ _ S).
    done.
  - intros k0 j0 H Hs Hn. lookup_cases H.
    + rewrite (same_spec_needs_lock _ _ S) in Hn.
      destruct Hlock as [[Hf _]|(_ & _ & l0 & -> & _ & Hl & _)]; [congruence|].
      exists l0. by rewrite (same_spec_lock_key _ _ S), lookup_insert_eq.
    + destruct (HR _ _ H Hs Hn) as (l & Hl & Hlk). exists l. split; [|done].
      destruct Hlock as [[_ ->]|(_ & Hfree & l0 & -> & _)]; [done|].
      rewrite lookup_insert_ne; [done|]. congruence.
  - intros k0 a0 H. lookup_cases H.
    + right. rewrite Hid, Haid, <- (same_spec_audit _ _ S).
      pose proof (has_status_insert J j.(job_id) j') as Hnew. split; [eauto|right].
      rewrite Hast. eapply aggregates_intro_active; [exact Hnew|]. by rewrite Hrun.
    + eapply audit_agrees_ext; [done|done| |by eapply HG]. intros s.
      rewrite (HA _ _ H). symmetry. apply has_status_insert_other.
      * rewrite Hj. naive_solver.
      * by rewrite (same_spec_audit _ _ S).
Qed.

(** Finishing: an active job becomes terminal, its locks go, its audit is refreshed. *)
Lemma store_ok_finish A J L L' j j' a a' :
  store_ok A J L → J !! j.(job_id) = Some j →
  same_job_spec j j' → terminal j'.(job_status) = true → job_check j' = true → times_ok j' →
  A !! j.(job_audit_id) = Some a → a'.(audit_id) = a.(audit_id) →
  aggregates (has_status (<[j.(job_id):=j']> J) j.(job_audit_id)) a'.(audit_status) →
  (∀ k l, L' !! k = Some l ↔ L !! k = Some l ∧ l.(lock_job_id) ≠ j.(job_id)) →
  store_ok (<[j.(job_audit_id):=a']> A) (<[j.(job_id):=j']> J) L'.
Proof.
  intros [HA HJ HF HC HT HL HR HG] Hj S Hterm Hck Htm Ha Hid Hagg HL'.
  pose proof (HA _ _ Ha) as Haid. split.
  - intros k0 a0 H. lookup_cases H; [congruence|eauto].
  - intros k0 j0 H. lookup_cases H; [by rewrite (same_spec_id _ _ S)|eauto].
  - intros k0 j0 H.
    assert (is_Some (A !! j0.(job_audit_id))) as [a0 H0].
    { lookup_cases H; [rewrite (same_spec_audit _ _ S)|]; eauto. }
    destruct (decide (j0.(job_audit_id) = j.(job_audit_id))) as [->|].
    + exists a'. apply lookup_insert_eq.
    + exists a0. by rewrite lookup_insert_ne.
  - intros k0 j0 H. lookup_cases H; eauto.
  - intros k0 j0 H. lookup_cases H; eauto.
  - intros k0 l [H Hne]%HL'. destruct (HL _ _ H) as (j0 & H0 & Hrest). exists j0.
    by rewrite lookup_insert_ne.
  - intros k0 j0 H Hs Hn. lookup_cases H; [by rewrite Hs in Hterm|].
    destruct (HR _ _ H Hs Hn) as (l & Hl & <-). exists l. split; [|done].
    by apply HL'.
  - intros k0 a0 H. lookup_cases H.
    + right. rewrite Hid, Haid. split; [|by right].
      rewrite <- (same_spec_audit _ _ S). eauto using has_status_insert.
    + eapply audit_agrees_ext; [done|done| |by eapply HG]. intros s.
      rewrite (HA _ _ H). symmetry. apply has_status_insert_other.
      * rewrite Hj. naive_solver.
      * by rewrite (same_spec_audit _ _ S).
Qed.

(** The aggregate after a job of the audit has become terminal is a legal next
    status of the audit (or the one it has). *)
Lemma finish_refresh_legal A J L j j' a :
  store_ok A J L → J !! j.(job_id) = Some j → A !! j.(job_audit_id) = Some a →
  j.(job_status) = RUNNING ∨ j.(job_status) = QUEUED ∧ j'.(job_status) = CANCELLED →
  j'.(job_audit_id) = j.(job_audit_id) →
  let s := aggregate_status (statuses_of (<[j.(job_id):=j']> J) j.(job_audit_id)) in
  a.(audit_status) = s ∨ audit_step a.(audit_status) s.
Proof.
  intros [HA HJ HF HC HT HL HR HG] Hj Ha Hcase Haud s.
  pose proof (HA _ _ Ha) as Hid. pose proof (HG _ _ Ha) as Hag.
  assert (has_status J a.(audit_id) j.(job_status)) as Hcur.
  { exists j.(job_id), j. by rewrite Hid. }
  destruct Hcase as [Hr|[Hq Hc]].
  - rewrite Hr in Hcur. rewrite (audit_agrees_running _ _ Hag Hcur).
    apply aggregate_from_running.
  - rewrite Hq in Hcur. destruct (audit_agrees_queued _ _ Hag Hcur) as [Hs| ->].
    + right. rewrite Hs. apply aggregate_from_created.
      * intros Hnil. pose proof (has_status_insert J j.(job_id) j') as Hin.
        rewrite Haud in Hin. apply elem_of_statuses in Hin. rewrite Hnil in Hin.
        by apply elem_of_nil in Hin.
      * intros x [->|Hx]%elem_of_statuses%has_status_insert_inv; [by right|left].
        rewrite <- Hid in Hx. by eapply audit_agrees_created.
    + apply aggregate_from_running.
Qed.

(** A QUEUED job holds no lock. *)
Lemma queued_no_lock A J L j k l :
  store_ok A J L → J !! j.(job_id) = Some j → j.(job_status) = QUEUED →
  L !! k = Some l → l.(lock_job_id) ≠ j.(job_id).
Proof.
  intros HS Hj Hq Hl Heq. destruct (ok_lock_job _ _ _ HS _ _ Hl) as (j0 & H0 & Hs & _).
  rewrite Heq, Hj in H0. congruence.
Qed.

(** Recovery: every RUNNING job becomes INTERRUPTED, all locks go. *)
Definition interrupted_row (o o' : option JobModel) : Prop :=
  match o with
  | None => o' = None
  | Some j =>
      if bool_decide (j.(job_status) = RUNNING) then
        ∃ j', o' = Some j' ∧ same_job_spec j j' ∧ j'.(job_status) = INTERRUPTED ∧
              job_check j' = true ∧ times_ok j'
      else o' = Some j
  end.

Lemma interrupted_row_inv J J' k j' :
  (∀ k, interrupted_row (J !! k) (J' !! k)) → J' !! k = Some j' →
  ∃ j, J !! k = Some j ∧ same_job_spec j j' ∧ j'.(job_status) ≠ RUNNING ∧
       (j'.(job_status) = INTERRUPTED ∧ j.(job_status) = RUNNING ∧ job_check j' = true ∧
          times_ok j' ∨ j' = j).
Proof.
  intros H Hk. specialize (H k). rewrite Hk in H. unfold interrupted_row in H.
  destruct (J !! k) as [j|]; [|done]. exists j. case_bool_decide as Hr.
  - destruct H as (j0 & [= ->] & ? & Hi & ? & ?). rewrite Hi. naive_solver.
  - simplify_eq. split; [done|]. split; [repeat split|]. split; [done|by right].
Qed.

Lemma store_ok_recover A A' J J' L :
  store_ok A J L → (∀ k, interrupted_row (J !! k) (J' !! k)) →
  (∀ k a', A' !! k = Some a' → a'.(audit_id) = k ∧ audit_agrees J' a') →
  (∀ k, is_Some (A !! k) → is_Some (A' !! k)) →
  store_ok A' J' ∅.
Proof.
  intros [HA HJ HF HC HT HL HR HG] Hrow HA' Hdom. split.
  - intros k a H. by apply HA'.
  - intros k j' H. destruct (interrupted_row_inv _ _ _ _ Hrow H) as (j & Hj & S & _).
    rewrite (same_spec_id _ _ S). eauto.
  - intros k j' H. destruct (interrupted_row_inv _ _ _ _ Hrow H) as (j & Hj & S & _).
    rewrite (same_spec_audit _ _ S). eauto.
  - intros k j' H.
    destruct (interrupted_row_inv _ _ _ _ Hrow H) as (j & Hj & _ & _ & [(_ & _ & ? & _)| ->]); eauto.
  - intros k j' H.
    destruct (interrupted_row_inv _ _ _ _ Hrow H) as (j & Hj & _ & _ & [(_ & _ & _ & ?)| ->]); eauto.
  - intros k l H. by rewrite lookup_empty in H.
  - intros k j' H Hr. by destruct (interrupted_row_inv _ _ _ _ Hrow H) as (j & _ & _ & ? & _).
  - intros k a' H. exact (proj2 (HA' _ _ H)).
Qed.

(** *** Group limits *)

Definition keeps_limits J J' L : Prop :=
  ∀ k l, L !! k = Some l → limit_of J' l = limit_of J l.

Lemma group_locks_lookup g L k l :
  group_locks g L !! k = Some l ↔ L !! k = Some l ∧ l.(lock_resource_group) = Some g.
Proof. apply map_lookup_filter_Some. Qed.

Lemma groups_ok_mono J J' L L' :
  groups_ok J L → keeps_limits J J' L' → L' ⊆ L → groups_ok J' L'.
Proof.
  intros H HJ HL g m Hg Hm. specialize (H g m Hg Hm).
  assert (Hsub : group_holders J' L' g m ⊆ group_holders J L g m).
  { apply map_subseteq_spec. intros k l. unfold group_holders.
    rewrite !map_lookup_filter_Some, !group_locks_lookup. simpl.
    intros [[Hl Hgr] Hlim]. rewrite (HJ _ _ Hl) in Hlim.
    split; [split; [by eapply lookup_weaken|done]|done]. }
  pose proof (map_subseteq_size _ _ Hsub). lia.
Qed.

(** Taking a lock keeps the bounds when fewer than the job's own limit are held. *)
Lemma groups_ok_lock J L key l j :
  groups_ok J L → J !! l.(lock_job_id) = Some j → L !! key = None →
  l.(lock_resource_group) = j.(job_resource_group) →
  (∀ g lim, j.(job_resource_group) = Some g → g ≠ EmptyString →
     j.(job_resource_limit) = Some lim → lim ≠ 0 →
     Z.of_nat (size (group_locks g L)) < lim) →
  groups_ok J (<[key:=l]> L).
Proof.
  intros H Hk Hfree Hg Hav g m Hne Hm. specialize (H g m Hne Hm). unfold group_holders, group_locks.
  destruct (decide (l.(lock_resource_group) = Some g)) as [Hl|Hl].
  - rewrite map_filter_insert_True by done.
    assert (Hnone : group_locks g L !! key = None) by (apply map_lookup_filter_None; by left).
    destruct (decide (1 ≤ limit_of J l ≤ m)) as [Hlim|Hlim].
    + rewrite map_filter_insert_True by done.
      rewrite map_size_insert_None by (apply map_lookup_filter_None; by left).
      assert (Hle : (size (group_holders J L g m) ≤ size (group_locks g L))%nat)
        by apply map_subseteq_size, map_filter_subseteq.
      unfold group_holders, group_locks in *. unfold limit_of in Hlim. rewrite Hk in Hlim.
      simpl in Hlim. destruct (job_resource_limit j) as [lim|] eqn:Hj; simpl in Hlim; [|lia].
      specialize (Hav g lim ltac:(congruence) Hne eq_refl ltac:(lia)). lia.
    + rewrite map_filter_insert_False by done. rewrite delete_id by done. exact H.
  - rewrite map_filter_insert_False by done. rewrite delete_id by done. exact H.
Qed.

Lemma same_spec_keeps_limits J k j j' L :
  J !! k = Some j → same_job_spec j j' → keeps_limits J (<[k:=j']> J) L.
Proof.
  intros Hj S k0 l _. unfold limit_of. destruct (decide (l.(lock_job_id) = k)) as [->|].
  - rewrite lookup_insert_eq, Hj. simpl.
    by destruct S as (_ & _ & _ & _ & _ & _ & _ & _ & _ & ->).
  - by rewrite lookup_insert_ne.
Qed.

Lemma insert_new_keeps_limits A J L k j :
  store_ok A J L → J !! k = None → keeps_limits J (<[k:=j]> J) L.
Proof.
  intros HS Hk k0 l Hl. unfold limit_of.
  destruct (ok_lock_job _ _ _ HS _ _ Hl) as (j0 & H0 & _).
  rewrite lookup_insert_ne; [done|]. congruence.
Qed.

(** Holders that all ask for the same limit are at most that many. *)
Lemma groups_ok_uniform J L g lim :
  groups_ok J L → g ≠ EmptyString → 0 < lim →
  (∀ k l, group_locks g L !! k = Some l → limit_of J l = lim) →
  Z.of_nat (size (group_locks g L)) ≤ lim.
Proof.
  intros H Hg Hlim Hall. specialize (H g lim Hg ltac:(lia)). unfold group_holders in H.
  rewrite map_filter_id in H; [done|]. intros k l Hl. simpl. rewrite (Hall _ _ Hl). lia.
Qed.

End tables.

(** ** Weakest preconditions of the job service's building blocks

    One rule per store primitive and private helper.  Each rule gives the
    database after the call as an equation over the database before it, and
    abstracts the clock. *)

Section wp.
Context {RT : Runtime} {RTOK : RuntimeOk}.
Implicit Types (w : World) (a : AuditModel) (j : JobModel) (l : ResourceLockModel).

(** Same database, same identifiers drawn: only the clock has moved. *)
Definition same_store w w' : Prop := w'.(db) = w.(db) ∧ w'.(uuids_drawn) = w.(uuids_drawn).

(** The database is [f] of the old one. *)
Definition store_after (f : DB → DB) w w' : Prop :=
  w'.(db) = f w.(db) ∧ w'.(uuids_drawn) = w.(uuids_drawn).

Lemma same_store_refl w : same_store w w.
Proof. done. Qed.

Lemma wp_immediate_session {A} (body : M A) Q w :
  wp body (fun r w' => match r with
    | Return a => Q (Return a) w'
    | Raise e => ∀ w2, w2.(db) = w.(db) → w2.(uuids_drawn) = w'.(uuids_drawn) → Q (Raise e) w2
    end) w →
  wp (immediate_session body) Q w.
Proof. unfold wp, immediate_session. destruct (body w) as [[a|e] w']; simpl; auto. Qed.

Lemma wp_utc_now Q w :
  (∀ t w', same_store w w' → Q (Return t) w') → wp utc_now Q w.
Proof. intros HQ. by apply HQ. Qed.

Lemma wp_utc_now_clock (Q : outcome JobExc datetime → World → Prop) w :
  Q (Return (clock w.(clock_reads))) (w <| clock_reads ::= S |>) → wp utc_now Q w.
Proof. done. Qed.

Lemma wp_or_utc_now o Q w :
  (∀ t w', same_store w w' → (∀ t0, o = Some t0 → t = t0) → Q (Return t) w') →
  wp (or_utc_now o) Q w.
Proof.
  intros HQ. destruct o as [t|]; simpl.
  - apply wp_ret, HQ; [done|]. by intros ? [= ->].
  - apply wp_utc_now. intros. by apply HQ.
Qed.

Lemma wp_new_uuid Q w :
  (∀ w', w'.(db) = w.(db) → w'.(uuids_drawn) = S w.(uuids_drawn) →
     Q (Return (uuid4 w.(uuids_drawn))) w') →
  wp new_uuid Q w.
Proof. intros HQ. by apply HQ. Qed.

Lemma wp_on_db f Q w :
  (∀ w', store_after f w w' → Q (Return tt) w') → wp (on_db f) Q w.
Proof. intros HQ. by apply HQ. Qed.

Lemma wp_select_rows {R} (table : DB → gmap string R) p Q w :
  (∀ rows, rows ≡ₚ List.filter p (map_to_list (table w.(db))).*2 → Q (Return rows) w) →
  wp (select_rows table p) Q w.
Proof. intros HQ. apply wp_reads, HQ, scan_perm. Qed.

Lemma wp_put_audit aid a Q w :
  a.(audit_id) = aid →
  (∀ w', store_after (fun d => d <| audits ::= insert aid a |>) w w' →
     Q (Return tt) w') → wp (put_audit a) Q w.
Proof. intros <-. apply wp_on_db. Qed.

Lemma wp_put_job jid j Q w :
  job_check j = true → j.(job_id) = jid →
  (∀ w', store_after (fun d => d <| jobs ::= insert jid j |>) w w' →
     Q (Return tt) w') → wp (put_job j) Q w.
Proof. intros Hc <- HQ. unfold put_job. rewrite Hc. by apply wp_on_db. Qed.

Lemma wp_insert_event aid jid ty stage prog msg details Q w :
  (∀ e w', store_after (fun d => d <| job_events ::= fun es => es ++ [e] |>) w w' →
     e.(event_job_id) = jid → e.(event_type) = ty → Q (Return tt) w') →
  wp (insert_event aid jid ty stage prog msg details) Q w.
Proof.
  intros HQ. apply wp_bind, wp_utc_now. intros t w1 [Hd1 Hu1].
  apply wp_on_db. intros w2 [Hd2 Hu2]. 
  eapply HQ; [split; [rewrite Hd2, Hd1; reflexivity|congruence]|done|done].
Qed.

Lemma wp_add_event j ty msg Q w :
  (∀ e w', store_after (fun d => d <| job_events ::= fun es => es ++ [e] |>) w w' →
     e.(event_job_id) = j.(job_id) → e.(event_type) = ty → Q (Return tt) w') →
  wp (add_event j ty msg) Q w.
Proof. apply wp_insert_event. Qed.

Lemma wp_require_audit aid Q w :
  (∀ a, w.(db).(audits) !! aid = Some a → Q (Return a) w) →
  (w.(db).(audits) !! aid = None → Q (Raise (EntityNotFound "Audit" aid)) w) →
  wp (require_audit aid) Q w.
Proof.
  intros HS HN. apply wp_bind, wp_reads. destruct (_ !! aid) eqn:He; [by apply wp_ret, HS|by apply wp_raise, HN].
Qed.

Lemma wp_require_job jid Q w :
  (∀ j, w.(db).(jobs) !! jid = Some j → Q (Return j) w) →
  (w.(db).(jobs) !! jid = None → Q (Raise (EntityNotFound "Job" jid)) w) →
  wp (require_job jid) Q w.
Proof.
  intros HS HN. apply wp_bind, wp_reads. destruct (_ !! jid) eqn:He; [by apply wp_ret, HS|by apply wp_raise, HN].
Qed.

(** Building a record only reads. *)
Lemma wp_job_record attached j Q w :
  (∀ r, r.(rec_id) = j.(job_id) → r.(rec_status) = j.(job_status) →
        r.(rec_audit_id) = j.(job_audit_id) → r.(rec_progress) = j.(job_progress) →
        Q (Return r) w) →
  wp (job_record attached j) Q w.
Proof.
  intros HQ. apply wp_bind. destruct attached; simpl.
  - apply wp_bind, wp_reads, wp_ret, wp_ret. by apply HQ.
  - apply wp_ret, wp_ret. by apply HQ.
Qed.

(** *** [_transition_job] *)

(** The row after a transition, up to the instants read from the clock. *)
Record transitioned j (desired : JobStatus) (stage : string) (progress : Z) (message : string)
    (error : option JobError) j' : Prop := {
  tr_spec : same_job_spec j j';
  tr_status : j'.(job_status) = desired;
  tr_stage : j'.(job_stage) = stage;
  tr_progress : j'.(job_progress) = progress;
  tr_message : j'.(job_message) = Some message;
  tr_attempt : j'.(job_attempt) = j.(job_attempt);
  tr_result : j'.(job_result_reference) = j.(job_result_reference);
  tr_cancel : j'.(job_cancel_requested) = j.(job_cancel_requested);
  tr_worker : j'.(job_worker_id) = j.(job_worker_id);
  tr_started : is_Some j.(job_started_at) → j'.(job_started_at) = j.(job_started_at);
  tr_started_running : desired = RUNNING → is_Some j'.(job_started_at);
  tr_finished : terminal desired = true → is_Some j'.(job_finished_at);
  tr_finished_same : terminal desired = false → j'.(job_finished_at) = j.(job_finished_at);
  tr_error_code : j'.(job_error_code) =
    match error with Some e => Some e.(err_code) | None => j.(job_error_code) end
}.

Lemma wp_transition_job j desired stage progress message error Q w :
  job_step j.(job_status) desired → 0 ≤ progress ≤ 100 →
  (∀ j' e w', transitioned j desired stage progress message error j' →
     store_after (fun d => d <| jobs ::= insert j.(job_id) j' |>
                             <| job_events ::= fun es => es ++ [e] |>) w w' →
     e.(event_job_id) = j.(job_id) →
     e.(event_type) = "job_" +:+ JobStatus_value desired →
     Q (Return j') w') →
  wp (transition_job j desired stage progress message error) Q w.
Proof.
  intros Hstep Hp HQ. unfold transition_job.
  apply wp_bind, wp_require_job_transition; [intros _|done].
  apply wp_bind. set (j0 := j <| job_status := desired |> <| job_stage := stage |>
    <| job_progress := progress |> <| job_message := Some message |>).
  enough (∀ j1 w1, same_store w w1 → (desired = RUNNING → terminal desired = false →
      is_Some j1.(job_started_at)) → (is_Some j.(job_started_at) →
      j1.(job_started_at) = j.(job_started_at)) →
    j0 <| job_started_at := j1.(job_started_at) |> = j1 →
    wp (j ← (if terminal desired then now ← utc_now; mret (j1 <| job_finished_at := Some now |>)
             else mret j1);
        put_job (match error with Some e => apply_error j e | None => j end);;
        add_event (match error with Some e => apply_error j e | None => j end)
          ("job_" +:+ JobStatus_value desired) message;;
        mret (match error with Some e => apply_error j e | None => j end)) Q w1) as Hrest.
  { case_bool_decide as Hr.
    - apply wp_bind, wp_or_utc_now. intros t w1 Hw Ht. apply wp_ret, Hrest; [done| | |done].
      + intros _ _. by eexists.
      + simpl. intros [t0 Ht0]. rewrite Ht0. f_equal. by apply Ht.
    - apply wp_ret, Hrest; [done|done|done|]. by destruct j. }
  intros j1 w1 [Hd1 Hu1] Hs1 Hs2 Hj1.
  assert (Hfin : ∀ j2 w2, same_store w w2 →
    (terminal desired = true → is_Some j2.(job_finished_at)) →
    (terminal desired = false → j2.(job_finished_at) = j.(job_finished_at)) →
    j1 <| job_finished_at := j2.(job_finished_at) |> = j2 →
    wp (put_job (match error with Some e => apply_error j2 e | None => j2 end);;
        add_event (match error with Some e => apply_error j2 e | None => j2 end)
          ("job_" +:+ JobStatus_value desired) message;;
        mret (match error with Some e => apply_error j2 e | None => j2 end)) Q w2).
  { intros j2 w2 [Hd2 Hu2] Hf1 Hf2 Hj2.
    assert (Htr : transitioned j desired stage progress message error
              (match error with Some e => apply_error j2 e | None => j2 end)).
    { rewrite <- Hj1 in Hj2. rewrite <- Hj2. split; destruct error; simpl;
        try done; try (by rewrite <- Hj1; simpl; auto);
        try (intros ->; by apply Hs1). }
    remember (match error with Some e => apply_error j2 e | None => j2 end) as j' eqn:Ej'.
    pose proof (same_spec_id _ _ (tr_spec _ _ _ _ _ _ _ Htr)) as Hid.
    apply wp_bind, (wp_put_job j.(job_id)); [|done|].
    { unfold job_check. rewrite (tr_progress _ _ _ _ _ _ _ Htr). apply andb_true_iff; lia. }
    intros w3 [Hd3 Hu3]. apply wp_bind, wp_add_event. intros e w4 [Hd4 Hu4] He1 He2.
    apply wp_ret. apply (HQ j' e); [done| |congruence|done].
    split; [|congruence]. rewrite Hd4, Hd3, Hd2. reflexivity. }
  apply wp_bind. destruct (terminal desired) eqn:Ht.
  - apply wp_bind, wp_utc_now. intros t w2 [Hd2 Hu2]. apply wp_ret.
    apply Hfin; [split; congruence|by eexists|done|done].
  - apply wp_ret, Hfin; [done|done| |by destruct j1].
    intros _. rewrite <- Hj1. done.
Qed.

Lemma wp_transition_job_illegal {j desired} stage progress message error
    (Q : outcome JobExc JobModel → World → Prop) w :
  ¬ job_step j.(job_status) desired →
  Q (Raise (InvalidJobTransition j.(job_status) desired)) w →
  wp (transition_job j desired stage progress message error) Q w.
Proof. intros Hn HQ. apply wp_bind, wp_require_job_transition; [by intros ?|done]. Qed.
(** *** [_refresh_audit] *)

Lemma statuses_scan {rows : list JobModel} {J aid} :
  rows ≡ₚ List.filter (fun j => String.eqb j.(job_audit_id) aid) (map_to_list J).*2 →
  aggregate_status (job_status <$> rows) = aggregate_status (statuses_of J aid).
Proof. intros Hp. apply aggregate_ext. intros s. unfold statuses_of. by rewrite Hp. Qed.

(** When the aggregate is a legal next status, the audit row takes it. *)
Lemma wp_refresh_audit aid a Q w :
  let s := aggregate_status (statuses_of w.(db).(jobs) aid) in
  w.(db).(audits) !! aid = Some a → a.(audit_id) = aid →
  statuses_of w.(db).(jobs) aid ≠ [] →
  a.(audit_status) = s ∨ audit_step a.(audit_status) s →
  (∀ a' w', store_after (fun d => d <| audits ::= insert aid a' |>) w w' →
     a'.(audit_id) = aid → a'.(audit_status) = s → Q (Return tt) w') →
  wp (refresh_audit aid) Q w.
Proof.
  intros s Ha Hid Hne Hstep HQ. unfold refresh_audit.
  apply wp_bind, wp_require_audit; [|congruence]. intros a0 Ha0.
  rewrite Ha in Ha0. injection Ha0 as <-.
  apply wp_bind, wp_select_rows. intros rows Hrows.
  pose proof (statuses_scan Hrows) as Hs. fold s in Hs.
  destruct (job_status <$> rows) as [|s0 ss] eqn:Hsts.
  { destruct Hne. apply fmap_nil_inv in Hsts. subst rows. symmetry in Hrows.
    unfold statuses_of. apply Permutation_nil_r in Hrows. by rewrite Hrows. }
  rewrite Hs. case_bool_decide as Heq.
  { apply wp_ret, (HQ a); [|done|done]. split; [|done].
    destruct w as [[]]. unfold update_field. simpl in *. by rewrite insert_id. }
  destruct Hstep as [?|Hstep]; [done|].
  apply wp_bind, wp_require_audit_transition; [intros _|done].
  apply wp_bind. case_bool_decide as Hr.
  - apply wp_bind, wp_or_utc_now. intros t w1 [Hd1 Hu1] _. apply wp_ret.
    rewrite Hr. simpl. rewrite <- Hr. apply (wp_put_audit aid); [done|]. intros w2 [Hd2 Hu2].
    eapply HQ; [split; [rewrite Hd2, Hd1; reflexivity|congruence]|done|done].
  - apply wp_bind, wp_utc_now. intros t w1 [Hd1 Hu1]. apply wp_ret.
    set (a1 := if bool_decide (s ∈ [AUDIT_FAILED; AUDIT_INTERRUPTED]) then _ else _).
    assert (a1.(audit_id) = aid ∧ a1.(audit_status) = s) as [Hi1 Hs1].
    { subst a1. by case_bool_decide. }
    apply (wp_put_audit aid); [done|]. intros w2 [Hd2 Hu2].
    eapply HQ; [split; [rewrite Hd2, Hd1; reflexivity|congruence]|done|done].
Qed.

(** *** Locks *)

Lemma wp_release_lock jid Q w :
  (∀ w', store_after (fun d => d <| resource_locks ::=
       filter (fun kv => String.eqb kv.2.(lock_job_id) jid = false) |>) w w' →
     Q (Return tt) w') → wp (release_lock jid) Q w.
Proof. apply wp_on_db. Qed.

Lemma lookup_released (L : gmap string ResourceLockModel) jid k l :
  filter (fun kv => String.eqb kv.2.(lock_job_id) jid = false) L !! k = Some l ↔
  L !! k = Some l ∧ l.(lock_job_id) ≠ jid.
Proof. rewrite map_lookup_filter_Some. simpl. by rewrite String.eqb_neq. Qed.

(** A job's resource is free: no lock on its key, and room in its group. *)
Definition resource_free (L : gmap string ResourceLockModel) j : Prop :=
  (truthy_str j.(job_resource_key) = true → L !! default EmptyString j.(job_resource_key) = None) ∧
  (∀ g lim, j.(job_resource_group) = Some g → g ≠ EmptyString →
     j.(job_resource_limit) = Some lim → lim ≠ 0 →
     Z.of_nat (size (group_locks g L)) < lim).

Lemma group_held_size (rows : list ResourceLockModel) g L :
  rows ≡ₚ List.filter (fun l => bool_decide (l.(lock_resource_group) = Some g))
            (map_to_list L).*2 →
  length rows = size (group_locks g L).
Proof.
  intros ->. unfold group_locks. rewrite map_filter_alt, <- length_map_to_list.
  rewrite map_to_list_to_map.
  2: { eapply sublist_NoDup; [apply (NoDup_fst_map_to_list L)|].
       apply fmap_sublist, sublist_filter. }
  induction (map_to_list L) as [|[k l] kvs IH]; [done|].
  rewrite filter_cons, fmap_cons. simpl.
  case_bool_decide; case_decide; try done; simpl; first [exact IH|f_equal; exact IH].
Qed.

Lemma truthy_str_Some s : truthy_str (Some s) = true ↔ s ≠ EmptyString.
Proof. destruct s; simpl; naive_solver. Qed.

Lemma wp_resource_available j Q w :
  (∀ b : bool, (b = true ↔ resource_free w.(db).(resource_locks) j) → Q (Return b) w) →
  wp (resource_available j) Q w.
Proof.
  intros HQ. unfold resource_available, resource_free in *. apply wp_bind.
  set (key_free := truthy_str j.(job_resource_key) = true →
    w.(db).(resource_locks) !! default EmptyString j.(job_resource_key) = None) in *.
  enough (∀ taken : bool, (taken = false ↔ key_free) →
    wp (if taken then mret false
        else match j.(job_resource_group), j.(job_resource_limit) with
             | Some g, Some limit =>
                 if truthy_str (Some g) && negb (limit =? 0) then
                   held ← select_rows resource_locks
                            (fun l => bool_decide (l.(lock_resource_group) = Some g));
                   mret (Z.of_nat (length held) <? limit)
                 else mret true
             | _, _ => mret true
             end) Q w) as Hgo.
  { destruct (job_resource_key j) as [key|]; [|by apply wp_ret, (Hgo false)].
    destruct (truthy_str (Some key)) eqn:Ht; [|by apply wp_ret, (Hgo false)].
    apply wp_bind, wp_reads, wp_ret. unfold key_free in Hgo. simpl default in Hgo.
    destruct (_ !! key); [apply (Hgo true)|apply (Hgo false)]; naive_solver. }
  intros [] Htaken; [apply wp_ret, HQ; naive_solver|].
  destruct (job_resource_group j) as [g|], (job_resource_limit j) as [lim|];
    try (apply wp_ret, HQ; naive_solver).
  destruct (truthy_str (Some g) && negb (lim =? 0)) eqn:Hc.
  - apply wp_bind, wp_select_rows. intros held Hheld. apply wp_ret, HQ.
    rewrite (group_held_size _ _ _ Hheld), Z.ltb_lt.
    apply andb_true_iff in Hc as [Hg Hl]. apply truthy_str_Some in Hg.
    apply negb_true_iff, Z.eqb_neq in Hl. split; [|naive_solver].
    intros Hlt. split; [by apply Htaken|]. by intros ?? [= <-] _ [= <-] _.
  - apply wp_ret, HQ. split; [|done]. intros _. split; [by apply Htaken|].
    intros g0 lim0 [= <-] Hg [= <-] Hl. apply truthy_str_Some in Hg.
    rewrite Hg in Hc. simpl in Hc. apply negb_false_iff, Z.eqb_eq in Hc. done.
Qed.

Lemma wp_insert_lock l Q w :
  w.(db).(resource_locks) !! l.(lock_resource_key) = None →
  (∀ k l', w.(db).(resource_locks) !! k = Some l' → l'.(lock_job_id) ≠ l.(lock_job_id)) →
  (∀ w', store_after (fun d => d <| resource_locks ::= insert l.(lock_resource_key) l |>) w w' →
     Q (Return tt) w') →
  wp (insert_lock l) Q w.
Proof.
  intros Hfree Hnew HQ. unfold insert_lock. apply wp_bind, wp_reads. rewrite Hfree.
  apply wp_bind, wp_select_rows. intros [|l0 rows] Hrows; [by apply wp_on_db|exfalso].
  assert (l0 ∈ l0 :: rows) as Hin by constructor. rewrite Hrows in Hin.
  apply elem_of_selected in Hin as [[k Hk] He]. apply String.eqb_eq in He.
  by apply (Hnew _ _ Hk).
Qed.

Lemma wp_insert_lock_taken l Q w :
  is_Some (w.(db).(resource_locks) !! l.(lock_resource_key)) →
  Q (Raise (IntegrityError "resource_locks.resource_key")) w →
  wp (insert_lock l) Q w.
Proof.
  intros [l0 Hl0] HQ. unfold insert_lock. apply wp_bind, wp_reads. rewrite Hl0.
  by apply wp_raise.
Qed.
End wp.
