(* ===== verification/JobServiceProofs.v ===== *)
(** * Every operation of the job service preserves the store invariant

    For each operation: from a good world it ends in a good world whatever its
    outcome, and job rows, audits and the event log only evolve.  The rules for
    the operations that finish a job also say that they return. *)

From S2P Require Import Prelude PyBase JobModels JobStore JobService JobInvariant.

Section proofs.
Context {RT : Runtime} {RTOK : RuntimeOk}.
Implicit Types (w : World) (a : AuditModel) (j : JobModel) (l : ResourceLockModel).

(** ** Good worlds *)

(** Identifiers not yet drawn name no row. *)
Definition ids_fresh w : Prop := ∀ n, (w.(uuids_drawn) ≤ n)%nat →
  w.(db).(audits) !! uuid4 n = None ∧ w.(db).(jobs) !! uuid4 n = None.

Definition world_ok w : Prop := db_ok w.(db) ∧ ids_fresh w.

(** One step of the service: the invariant is kept and the store evolves. *)
Definition good w w' : Prop := world_ok w' ∧ db_evolves w.(db) w'.(db).

Definition step_ok {A} (m : M A) : Prop := ∀ w, world_ok w → wp m (fun _ w' => good w w') w.

Lemma good_refl w w' :
  world_ok w → w'.(db) = w.(db) → (w.(uuids_drawn) ≤ w'.(uuids_drawn))%nat → good w w'.
Proof.
  intros [Hdb Hf] Hd Hu. unfold good, world_ok, ids_fresh. rewrite Hd.
  split; [split; [done|]|done]. intros n Hn. apply Hf. lia.
Qed.

Lemma good_trans w1 w2 w3 : good w1 w2 → good w2 w3 → good w1 w3.
Proof. intros [_ E1] [O2 E2]. split; [done|by etrans]. Qed.

Lemma step_ok_bind {A B} (m : M A) (k : A → M B) :
  step_ok m → (∀ x, step_ok (k x)) → step_ok (m ≫= k).
Proof.
  intros Hm Hk w Hw. apply wp_bind. eapply wp_mono; [by apply Hm|].
  intros [x|e] w1 H1; [|done]. eapply wp_mono; [apply Hk, H1|].
  intros r w2 H2. by eapply good_trans.
Qed.

Lemma step_ok_pure {A} (m : M A) : (∀ w Q, (∀ r, Q r w) → wp m Q w) → step_ok m.
Proof. intros Hm w Hw. apply Hm. intros _. by apply good_refl. Qed.

Lemma step_ok_job_record attached j : step_ok (job_record attached j).
Proof. apply step_ok_pure. intros w Q HQ. apply wp_job_record. auto. Qed.

(** A transaction whose body, when it returns, leaves a good world. *)
Lemma step_ok_transaction {A} (body : M A) :
  (∀ w, world_ok w → wp body (fun r w' => match r with
     | Return _ => good w w' | Raise _ => w'.(uuids_drawn) = w.(uuids_drawn) end) w) →
  step_ok (immediate_session body).
Proof.
  intros Hbody w Hw. apply wp_immediate_session. eapply wp_mono; [by apply Hbody|].
  intros [x|e] w1; [done|]. intros Hu w2 Hd2 Hu2. apply good_refl; [done|done|lia].
Qed.

Lemma ids_fresh_same w w' :
  ids_fresh w → (w.(uuids_drawn) ≤ w'.(uuids_drawn))%nat →
  (∀ k, w.(db).(audits) !! k = None → w'.(db).(audits) !! k = None) →
  (∀ k, w.(db).(jobs) !! k = None → w'.(db).(jobs) !! k = None) → ids_fresh w'.
Proof. intros Hf Hu HA HJ n Hn. destruct (Hf n) as [? ?]; [lia|]. auto. Qed.

Lemma insert_existing_None {V} (m : gmap string V) k v v' :
  m !! k = Some v → ∀ i, m !! i = None → <[k:=v']> m !! i = None.
Proof. intros Hk i Hi. rewrite lookup_insert_ne; congruence. Qed.

(** ** Rewriting one job row without changing its status *)

Lemma good_touch w w' k j j' evs :
  world_ok w → w.(db).(jobs) !! k = Some j → job_evolves j j' →
  j'.(job_status) = j.(job_status) → job_check j' = true → times_ok j' →
  store_after (fun d => d <| jobs ::= insert k j' |> <| job_events ::= fun es => es ++ evs |>)
    w w' → good w w'.
Proof.
  intros [[HS HG] Hf] Hj Hev Hst Hck Htm [Hd Hu].
  pose proof (ev_spec _ _ Hev) as Hspec. split; [split; [split|]|].
  - rewrite Hd. by eapply store_ok_touch.
  - rewrite Hd. eapply groups_ok_mono; [exact HG|by eapply same_spec_keeps_limits|done].
  - eapply ids_fresh_same; [done|lia|by rewrite Hd|]. rewrite Hd.
    by eapply insert_existing_None.
  - rewrite Hd. split.
    + intros k0 j0 H0. simpl. destruct (decide (k0 = k)) as [->|].
      * exists j'. rewrite lookup_insert_eq. rewrite Hj in H0. by simplify_eq.
      * exists j0. by rewrite lookup_insert_ne.
    + intros k0 a0 H0. by exists a0.
    + by apply prefix_app_r.
Qed.

Lemma good_put_audit w w' k a a' :
  world_ok w → w.(db).(audits) !! k = Some a → a'.(audit_id) = a.(audit_id) →
  audit_agrees w.(db).(jobs) a' →
  store_after (fun d => d <| audits ::= insert k a' |>) w w' → good w w'.
Proof.
  intros [[HS HG] Hf] Ha Hid Hag [Hd Hu]. pose proof (ok_audit_key _ _ _ HS _ _ Ha) as Hk.
  split; [split; [split|]|].
  - rewrite Hd. eapply store_ok_put_audit; [done|done|congruence|done].
  - by rewrite Hd.
  - eapply ids_fresh_same; [done|lia| |by rewrite Hd]. rewrite Hd.
    by eapply insert_existing_None.
  - rewrite Hd. split; [|simpl|done].
    + intros k0 j0 H0. by exists j0.
    + intros k0 a0 H0. destruct (decide (k0 = k)) as [->|].
      * exists a'. by rewrite lookup_insert_eq.
      * exists a0. by rewrite lookup_insert_ne.
Qed.

(** Worker and artifact rows are not part of the invariant. *)
Lemma good_workers w w' f :
  world_ok w → store_after (fun d => d <| workers ::= f |>) w w' → good w w'.
Proof.
  intros [[HS HG] Hf] [Hd Hu]. split; [split; [split|]|]; try (by rewrite Hd).
  - eapply ids_fresh_same; [done|lia|by rewrite Hd|by rewrite Hd].
  - rewrite Hd. split; [|simpl|done]; [intros k0 j0 H0; by exists j0|eauto].
Qed.
(** ** Audits *)

Lemma create_audit_ok profile interface scope actor :
  step_ok (create_audit profile interface scope actor).
Proof.
  intros w Hw. apply wp_bind, wp_new_uuid. intros w1 Hd1 Hu1.
  pose proof Hw as [[HS HG] Hf]. apply wp_immediate_session.
  apply wp_bind, wp_utc_now. intros t w2 [Hd2 Hu2].
  set (a := mkAudit _ _ _ _ _ _ _ _ _ _ _ _).
  assert (w.(db).(audits) !! a.(audit_id) = None) as Hnew by (by apply (Hf w.(uuids_drawn))).
  apply wp_bind. unfold insert_audit. apply wp_bind, wp_reads.
  rewrite Hd2, Hd1, Hnew. apply (wp_put_audit a.(audit_id)); [done|]. intros w3 [Hd3 Hu3].
  apply wp_ret. rewrite Hd2, Hd1 in Hd3. split; [split; [split|]|].
  - rewrite Hd3. by apply store_ok_new_audit.
  - by rewrite Hd3.
  - intros n Hn. rewrite Hd3. simpl. destruct (Hf n) as [HA HJ]; [lia|]. split; [|done].
    rewrite lookup_insert_ne; [done|]. intros Heq. apply (inj uuid4) in Heq. lia.
  - rewrite Hd3. split; [|simpl|done]; [intros k0 j0 H0; by exists j0|].
    intros k0 a0 H0. exists a0. rewrite lookup_insert_ne; [done|].
    intros <-. by rewrite (Hnew : w.(db).(audits) !! uuid4 w.(uuids_drawn) = None) in H0.
Qed.

Lemma set_environment_reference_ok aid art : step_ok (set_environment_reference aid art).
Proof.
  apply step_ok_transaction. intros w Hw. apply wp_bind, wp_require_audit; [|done].
  intros a Ha. pose proof Hw as [[HS _] _].
  pose proof (ok_audit_key _ _ _ HS _ _ Ha) as Hk.
  apply wp_bind, (wp_put_audit aid); [done|]. intros w1 Hw1. apply wp_ret.
  eapply good_put_audit; [exact Hw|exact Ha| | |exact Hw1]; [done|].
  apply (audit_agrees_ext w.(db).(jobs) _ a); try done. by eapply ok_audit.
Qed.

(** [fail_audit] is called on an audit that has just been created: no jobs yet. *)
Lemma fail_audit_ok aid e w :
  world_ok w → (∀ s, ¬ has_status w.(db).(jobs) aid s) →
  wp (fail_audit aid e) (fun _ w' => good w w') w.
Proof.
  intros Hw Hno. apply wp_immediate_session, wp_bind, wp_require_audit.
  2: { intros _ w2 Hd2 Hu2. apply good_refl; [done|done|lia]. }
  intros a Ha. pose proof Hw as [[HS _] _].
  pose proof (ok_audit_key _ _ _ HS _ _ Ha) as Hk.
  apply wp_bind, wp_require_audit_transition; intros _.
  2: { intros w2 Hd2 Hu2. apply good_refl; [done|done|lia]. }
  apply wp_bind, wp_utc_now. intros t w1 [Hd1 Hu1].
  apply wp_bind, (wp_put_audit aid); [done|]. intros w2 [Hd2 Hu2]. apply wp_ret.
  eapply (good_put_audit w); [done|done| | |split; [rewrite Hd2, Hd1; reflexivity|congruence]].
  { done. }
  left. simpl. rewrite Hk. split; [done|by_decide].
Qed.

(** ** Enqueueing *)

(** What a new job row is, whoever builds it. *)
Definition fresh_job j : Prop :=
  j.(job_status) = QUEUED ∧ j.(job_progress) = 0 ∧ j.(job_started_at) = None ∧
  j.(job_finished_at) = None.

Lemma good_new_job w w0 w' j a a' evs :
  world_ok w → fresh_job j → j.(job_id) = uuid4 w.(uuids_drawn) →
  w0.(uuids_drawn) = S w.(uuids_drawn) → w0.(db) = w.(db) →
  w.(db).(audits) !! j.(job_audit_id) = Some a → a'.(audit_id) = a.(audit_id) →
  (a.(audit_status) = AUDIT_CREATED ∧ a'.(audit_status) = AUDIT_CREATED ∨
   a'.(audit_status) = AUDIT_RUNNING) →
  store_after (fun d => d <| audits ::= insert j.(job_audit_id) a' |>
    <| jobs ::= insert j.(job_id) j |> <| job_events ::= fun es => es ++ evs |>) w0 w' →
  good w w'.
Proof.
  intros [[HS HG] Hf] (Hst & Hp & Hs & Hfin) Hid Hu0 Hd0 Ha Hida Hcase [Hd Hu].
  rewrite Hd0 in Hd. destruct (Hf w.(uuids_drawn)) as [_ Hnew]; [lia|]. rewrite <- Hid in Hnew.
  pose proof (ok_audit_key _ _ _ HS _ _ Ha) as Hk. split; [split; [split|]|].
  - rewrite Hd. eapply store_ok_new_job; eauto; [| |congruence].
    + unfold job_check. by rewrite Hp.
    + unfold times_ok. rewrite Hst, Hfin. split; [done|]. split; [done|by intros []].
  - rewrite Hd. eapply groups_ok_mono; [exact HG|by eapply insert_new_keeps_limits|done].
  - intros n Hn. rewrite Hd. simpl. destruct (Hf n) as [HA HJ]; [lia|]. split.
    + by eapply insert_existing_None.
    + rewrite lookup_insert_ne; [done|]. rewrite Hid. intros Heq. apply (inj uuid4) in Heq. lia.
  - rewrite Hd. split; simpl.
    + intros k0 j0 H0. exists j0. rewrite lookup_insert_ne; [done|]. congruence.
    + intros k0 a0 H0. destruct (decide (k0 = j.(job_audit_id))) as [->|].
      * exists a'. by rewrite lookup_insert_eq.
      * exists a0. by rewrite lookup_insert_ne.
    + by apply prefix_app_r.
Qed.

(** The enqueueing part shared by [create_job] and a retry: insert the row, then
    append events. *)
Lemma wp_insert_job j Q w :
  w.(db).(jobs) !! j.(job_id) = None → job_check j = true →
  (∀ w', store_after (fun d => d <| jobs ::= insert j.(job_id) j |>) w w' →
     Q (Return tt) w') → wp (insert_job j) Q w.
Proof.
  intros Hnew Hck HQ. unfold insert_job. apply wp_bind, wp_reads. rewrite Hnew.
  by apply (wp_put_job j.(job_id)).
Qed.

(** What [create_job] does to the audit row before inserting the job. *)
Lemma create_job_ok aid ty target params prio key group limit :
  step_ok (create_job aid ty target params prio key group limit).
Proof.
  intros w Hw. apply wp_bind, wp_new_uuid. intros w1 Hd1 Hu1. apply wp_bind.
  eapply wp_mono with (Q := fun r w' => good w w').
  2: { intros [j|e] w2 H2; [|done]. apply wp_job_record. auto. }
  pose proof Hw as [[HS _] Hf]. apply wp_immediate_session.
  assert (Hbad : ∀ w2, w2.(db) = w1.(db) → w2.(uuids_drawn) = w1.(uuids_drawn) → good w w2).
  { intros w2 Hd2 Hu2. apply good_refl; [done|congruence|lia]. }
  apply wp_bind, wp_require_audit; [|done]. intros a Ha. rewrite Hd1 in Ha.
  pose proof (ok_audit_key _ _ _ HS _ _ Ha) as Hk.
  apply wp_bind. case_bool_decide as Hacc; [apply wp_ret|by apply wp_raise].
  set (audit_after := fun a' => a'.(audit_id) = a.(audit_id) ∧
    (a.(audit_status) = AUDIT_CREATED ∧ a'.(audit_status) = AUDIT_CREATED ∨
     a'.(audit_status) = AUDIT_RUNNING)).
  enough (∀ w2 a', audit_after a' →
    store_after (fun d => d <| audits ::= insert aid a' |>) w1 w2 →
    wp (now ← utc_now;
        let j := mkJob (uuid4 w.(uuids_drawn)) aid ty QUEUED prio now None None 0 "queued"
                   (Some "Job queued") target (default [] params) None None None None None
                   None None false None 0 key group limit in
        insert_job j;; add_event j "job_queued" "Job queued";; mret j)
      (fun r w' => match r with
         | Return _ => good w w'
         | Raise e => ∀ w3, w3.(db) = w1.(db) → w3.(uuids_drawn) = w'.(uuids_drawn) → good w w3
         end) w2) as Hgo.
  { apply wp_bind. case_bool_decide as Hc.
    - apply wp_bind, wp_require_audit_transition; [intros _|by intros _].
      apply (wp_put_audit aid); [done|]. intros w2 Hw2. eapply Hgo; [|exact Hw2].
      split; [done|by right].
    - apply wp_ret, (Hgo w1 a); [|split; [|done]].
      + split; [done|]. destruct (audit_status a) eqn:Hs; try done; [by left|by right|..];
          exfalso; revert Hacc; by_decide.
      + rewrite Hd1. destruct w as [[]]. unfold update_field. simpl in *. by rewrite insert_id. }
  intros w2 a' [Hida Hcase] [Hd2 Hu2]. apply wp_bind, wp_utc_now. intros t w3 [Hd3 Hu3].
  set (j := mkJob _ _ _ _ _ _ _ _ _ _ _ _ _ _ _ _ _ _ _ _ _ _ _ _ _ _).
  apply wp_bind, wp_insert_job; [|done|].
  { rewrite Hd3, Hd2, Hd1. apply (Hf w.(uuids_drawn)). lia. }
  intros w4 [Hd4 Hu4]. apply wp_bind, wp_add_event. intros e w5 [Hd5 Hu5] _ _. apply wp_ret.
  eapply (good_new_job w w1 w5 j a a' [e]); try done.
  split; [|lia || congruence]. rewrite Hd5, Hd4, Hd3, Hd2. reflexivity.
Qed.
(** ** Progress, cancellation requests, waiting *)

Lemma job_check_range j p :
  0 ≤ p ≤ 100 → job_check (j <| job_progress := p |>) = true.
Proof. intros Hp. unfold job_check. simpl. apply andb_true_iff. lia. Qed.

Lemma update_progress_ok jid p :
  JobProgress_valid p = true → step_ok (update_progress jid p).
Proof.
  intros Hv. apply step_ok_bind; [|intros j; apply step_ok_job_record].
  apply step_ok_transaction. intros w Hw. pose proof Hw as [[HS _] _].
  apply wp_bind, wp_require_job; [|done]. intros j Hj.
  apply wp_bind. case_bool_decide as Hr; [apply wp_ret|by apply wp_raise].
  apply wp_bind. destruct (Z.ltb_spec p.(percentage) j.(job_progress)) as [?|Hge];
    [by apply wp_raise|apply wp_ret].
  set (j' := j <| job_progress := p.(percentage) |> <| job_stage := p.(prog_stage) |>
               <| job_message := Some p.(prog_message) |>).
  assert (job_check j' = true) as Hck.
  { unfold JobProgress_valid in Hv. rewrite !andb_true_iff in Hv.
    unfold job_check. simpl. apply andb_true_iff. lia. }
  apply wp_bind, (wp_put_job jid); [done|exact (ok_job_key _ _ _ HS _ _ Hj)|]. intros w1 [Hd1 Hu1].
  apply wp_bind, wp_add_event. intros e w2 [Hd2 Hu2] _ _. apply wp_ret.
  eapply (good_touch w w2 jid j j' [e]); try done.
  - split; try done; intros Ht; by rewrite Hr in Ht.
  - apply (ok_job_times _ _ _ HS _ _ Hj).
  - split; [|congruence]. rewrite Hd2, Hd1. reflexivity.
Qed.

(** The flag [request_cancel] sets on a running job. *)
Lemma mark_cancel_good w w' jid j evs :
  world_ok w → w.(db).(jobs) !! jid = Some j → j.(job_status) = RUNNING →
  store_after (fun d => d <| jobs ::= insert jid (j <| job_cancel_requested := true |>) |>
                          <| job_events ::= fun es => es ++ evs |>) w w' → good w w'.
Proof.
  intros Hw Hj Hr Hw'. pose proof Hw as [[HS _] _].
  eapply (good_touch w w' jid j); [done|done| | | | |exact Hw']; [|done| |].
  - split; try done; intros Ht; by rewrite Hr in Ht.
  - apply (ok_job_check _ _ _ HS _ _ Hj).
  - apply (ok_job_times _ _ _ HS _ _ Hj).
Qed.

(** The row of a job marked as waiting for its resource. *)
Definition waiting_row j : JobModel :=
  j <| job_stage := "resource_wait" |>
    <| job_message := Some "Waiting for exclusive resource" |>.

Lemma wp_mark_waiting w j (Q : outcome JobExc unit → World → Prop) :
  world_ok w → w.(db).(jobs) !! j.(job_id) = Some j → j.(job_status) = QUEUED →
  (∀ w', good w w' → w'.(db).(resource_locks) = w.(db).(resource_locks) →
     w'.(uuids_drawn) = w.(uuids_drawn) →
     w'.(db).(audits) = w.(db).(audits) → w'.(db).(workers) = w.(db).(workers) →
     (∀ k, k ≠ j.(job_id) → w'.(db).(jobs) !! k = w.(db).(jobs) !! k) →
     (∃ j', w'.(db).(jobs) !! j.(job_id) = Some j' ∧ (j' = j ∨ j' = waiting_row j)) →
     Q (Return tt) w') →
  wp (mark_waiting j) Q w.
Proof.
  intros Hw Hj Hq HQ. pose proof Hw as [[HS _] _]. unfold mark_waiting.
  destruct (String.eqb _ _); [apply wp_ret, HQ; [by apply good_refl|done..|eauto]|].
  set (j' := j <| job_stage := _ |> <| job_message := _ |>).
  apply wp_bind, (wp_put_job j.(job_id)); [by apply (ok_job_check _ _ _ HS _ _ Hj)|done|].
  intros w1 [Hd1 Hu1]. apply wp_add_event. intros e w2 [Hd2 Hu2] _ _.
  apply HQ; [|by rewrite Hd2, Hd1|congruence|by rewrite Hd2, Hd1|by rewrite Hd2, Hd1| |].
  - eapply (good_touch w w2 _ j j' [e]); try done.
    + split; try done; intros Ht; by rewrite Hq in Ht.
    + by apply (ok_job_check _ _ _ HS _ _ Hj).
    + apply (ok_job_times _ _ _ HS _ _ Hj).
    + split; [|congruence]. rewrite Hd2, Hd1. reflexivity.
  - intros k Hk. rewrite Hd2, Hd1. simpl. by rewrite lookup_insert_ne.
  - exists j'. rewrite Hd2, Hd1. simpl. rewrite lookup_insert_eq. split; [done|by right].
Qed.

(** ** Finishing a job *)

(** The store after [j] has become [j'] (terminal): its locks are gone and its
    audit's status is the aggregate of its jobs' statuses. *)
Record finished w w' j j' : Prop := {
  fin_jobs : w'.(db).(jobs) = <[j.(job_id) := j']> w.(db).(jobs);
  fin_locks k l : w'.(db).(resource_locks) !! k = Some l ↔
    w.(db).(resource_locks) !! k = Some l ∧ l.(lock_job_id) ≠ j.(job_id);
  fin_audit : ∃ a a', w.(db).(audits) !! j.(job_audit_id) = Some a ∧
    w'.(db).(audits) = <[j.(job_audit_id) := a']> w.(db).(audits) ∧
    a'.(audit_id) = a.(audit_id) ∧
    a'.(audit_status) = aggregate_status (statuses_of w'.(db).(jobs) j.(job_audit_id));
  fin_events : w.(db).(job_events) `prefix_of` w'.(db).(job_events);
  fin_uuids : w'.(uuids_drawn) = w.(uuids_drawn);
  fin_workers : w'.(db).(workers) = w.(db).(workers)
}.

Lemma finished_good w w' j j' :
  world_ok w → w.(db).(jobs) !! j.(job_id) = Some j → job_evolves j j' →
  terminal j'.(job_status) = true → job_check j' = true → times_ok j' →
  finished w w' j j' → good w w'.
Proof.
  intros [[HS HG] Hf] Hj Hev Ht Hck Htm [HJ HL (a & a' & Ha & HA & Hida & Hsta) HE HU _].
  pose proof (ev_spec _ _ Hev) as Hspec.
  split; [split; [split|]|].
  - rewrite HA, HJ. eapply store_ok_finish; try done.
    rewrite Hsta, HJ. apply aggregates_statuses.
  - rewrite HJ. eapply groups_ok_mono; [exact HG|by eapply same_spec_keeps_limits|].
    apply map_subseteq_spec. intros k l Hl. by apply HL in Hl as [? _].
  - eapply ids_fresh_same; [done|lia|rewrite HA|rewrite HJ]; by eapply insert_existing_None.
  - split; [| |done].
    + intros k0 j0 H0. rewrite HJ. destruct (decide (k0 = j.(job_id))) as [->|].
      * exists j'. rewrite lookup_insert_eq. rewrite Hj in H0. by simplify_eq.
      * exists j0. by rewrite lookup_insert_ne.
    + intros k0 a0 H0. rewrite HA. destruct (decide (k0 = j.(job_audit_id))) as [->|].
      * exists a'. by rewrite lookup_insert_eq.
      * exists a0. by rewrite lookup_insert_ne.
Qed.

Lemma transitioned_evolves j j0 desired stage p msg err j' :
  same_job_spec j j0 → j0.(job_status) = j.(job_status) → j0.(job_attempt) = j.(job_attempt) →
  j0.(job_started_at) = j.(job_started_at) → job_step j.(job_status) desired →
  j.(job_progress) ≤ p → transitioned j0 desired stage p msg err j' → job_evolves j j'.
Proof.
  intros HS Hs Ha Hst Hstep Hp T. split.
  - destruct (tr_spec _ _ _ _ _ _ _ T). unfold same_job_spec in *. intuition congruence.
  - rewrite (tr_status _ _ _ _ _ _ _ T). by apply rtc_once.
  - by rewrite (tr_progress _ _ _ _ _ _ _ T).
  - rewrite (tr_attempt _ _ _ _ _ _ _ T). lia.
  - rewrite <- Hst. apply (tr_started _ _ _ _ _ _ _ T).
  - intros Ht. by destruct (terminal_no_step _ _ Ht Hstep).
Qed.

Lemma transitioned_terminal_times j desired stage p msg err j' :
  terminal desired = true → transitioned j desired stage p msg err j' → times_ok j'.
Proof.
  intros Ht T. unfold times_ok. rewrite (tr_status _ _ _ _ _ _ _ T). split.
  - intros ->. done.
  - rewrite Ht. split; [|done]. intros _. by apply (tr_finished _ _ _ _ _ _ _ T).
Qed.

(** A step that rewrites the audit row but keeps its status (or does nothing). *)
Definition keeps_audit_status (mid : M unit) (aid : string) : Prop := ∀ w a Q,
  w.(db).(audits) !! aid = Some a → a.(audit_id) = aid →
  (∀ a' w', store_after (fun d => d <| audits ::= insert aid a' |>) w w' →
     a'.(audit_id) = aid → a'.(audit_status) = a.(audit_status) → Q (Return tt) w') →
  wp mid Q w.

Lemma keeps_skip aid : keeps_audit_status (mret tt) aid.
Proof.
  intros w a Q Ha Hid HQ. apply wp_ret, (HQ a); [|done|done]. split; [|done].
  destruct w as [[]]. unfold update_field. simpl in *. by rewrite insert_id.
Qed.

Lemma keeps_merge aid s : keeps_audit_status (merge_summary aid s) aid.
Proof.
  intros w a Q Ha Hid HQ. apply wp_bind, wp_require_audit; [|congruence].
  intros a0 Ha0. rewrite Ha in Ha0. injection Ha0 as <-.
  apply (wp_put_audit aid); [done|]. intros w1 Hw1. by eapply HQ.
Qed.

(** The step that drops the job's locks; a job that holds none needs no step. *)
Definition releases (rel : string → M unit) (jid : string)
    (L : gmap string ResourceLockModel) : Prop := ∀ w Q, w.(db).(resource_locks) = L →
  (∀ w', store_after (fun d => d <| resource_locks ::=
       filter (fun kv => String.eqb kv.2.(lock_job_id) jid = false) |>) w w' →
     Q (Return tt) w') → wp (rel jid) Q w.

Lemma releases_release jid L : releases release_lock jid L.
Proof. intros w Q _. apply wp_release_lock. Qed.

Lemma releases_skip jid L :
  (∀ k l, L !! k = Some l → l.(lock_job_id) ≠ jid) → releases (fun _ => mret tt) jid L.
Proof.
  intros Hno w Q <- HQ. apply wp_ret, HQ. split; [|done].
  destruct w as [[]]. unfold update_field. simpl in *. f_equal. symmetry.
  apply map_filter_id. intros k l Hl. apply String.eqb_neq. by eapply Hno.
Qed.

Lemma wp_finish {B} w j j0 desired stage p msg err rel mid (k : JobModel → M B)
    (Q : outcome JobExc B → World → Prop) :
  world_ok w → w.(db).(jobs) !! j.(job_id) = Some j → same_job_spec j j0 →
  j0.(job_status) = j.(job_status) →
  j.(job_status) = RUNNING ∨ j.(job_status) = QUEUED ∧ desired = CANCELLED →
  job_step j.(job_status) desired → terminal desired = true → 0 ≤ p ≤ 100 →
  releases rel j.(job_id) w.(db).(resource_locks) →
  keeps_audit_status (mid j.(job_audit_id)) j.(job_audit_id) →
  (∀ j' w', transitioned j0 desired stage p msg err j' → finished w w' j j' →
     wp (k j') Q w') →
  wp (j' ← transition_job j0 desired stage p msg err;
      rel j'.(job_id);; mid j'.(job_audit_id);; refresh_audit j'.(job_audit_id);; k j') Q w.
Proof.
  intros Hw Hj HS0 Hs0 Hcase Hstep Hterm Hp Hrel Hmid HQ. pose proof Hw as [[HS _] _].
  apply wp_bind, wp_transition_job; [by rewrite Hs0|done|].
  intros j' e w1 T [Hd1 Hu1] _ _.
  assert (same_job_spec j j') as Hspec.
  { destruct (tr_spec _ _ _ _ _ _ _ T). unfold same_job_spec in *. intuition congruence. }
  rewrite (same_spec_id _ _ Hspec), (same_spec_audit _ _ Hspec).
  rewrite (same_spec_id _ _ HS0) in Hd1.
  destruct (ok_job_audit _ _ _ HS _ _ Hj) as [a Ha].
  pose proof (ok_audit_key _ _ _ HS _ _ Ha) as Hida.
  apply wp_bind, Hrel; [by rewrite Hd1|]. intros w2 [Hd2 Hu2].
  apply wp_bind, (Hmid w2 a); [by rewrite Hd2, Hd1|done|]. intros a1 w3 [Hd3 Hu3] Hi1 Hs1.
  assert (HJ : w3.(db).(jobs) = <[j.(job_id):=j']> w.(db).(jobs)) by by rewrite Hd3, Hd2, Hd1.
  assert (HA : w3.(db).(audits) = <[j.(job_audit_id):=a1]> w.(db).(audits))
    by by rewrite Hd3, Hd2, Hd1.
  apply wp_bind, (wp_refresh_audit _ a1);
    [by rewrite HA, lookup_insert_eq|done| | |].
  { intros Hnil. pose proof (has_status_insert w.(db).(jobs) j.(job_id) j') as Hin.
    rewrite (same_spec_audit _ _ Hspec) in Hin. apply elem_of_statuses in Hin.
    rewrite <- HJ, Hnil in Hin. by apply elem_of_nil in Hin. }
  { rewrite HJ, Hs1. eapply finish_refresh_legal; [exact HS|exact Hj|exact Ha| |].
    - by rewrite (tr_status _ _ _ _ _ _ _ T).
    - by apply same_spec_audit. }
  intros a2 w4 [Hd4 Hu4] Hi2 Hs2. apply HQ; [done|].
  assert (HJ4 : w4.(db).(jobs) = w3.(db).(jobs)) by by rewrite Hd4.
  split.
  - congruence.
  - intros k0 l. rewrite Hd4, Hd3, Hd2, Hd1. simpl. apply lookup_released.
  - exists a, a2. rewrite HJ4, Hs2. split_and!; [done| |congruence|done].
    rewrite Hd4. simpl. by rewrite HA, insert_insert_eq.
  - rewrite Hd4, Hd3, Hd2, Hd1. simpl. by apply prefix_app_r.
  - congruence.
  - by rewrite Hd4, Hd3, Hd2, Hd1.
Qed.
(** The good world a finishing operation reaches. *)
Lemma finish_good w w' j j0 desired stage p msg err j' :
  world_ok w → w.(db).(jobs) !! j.(job_id) = Some j → same_job_spec j j0 →
  j0.(job_status) = j.(job_status) → j0.(job_attempt) = j.(job_attempt) →
  j0.(job_started_at) = j.(job_started_at) → job_step j.(job_status) desired →
  terminal desired = true → j.(job_progress) ≤ p ≤ 100 →
  transitioned j0 desired stage p msg err j' → finished w w' j j' → good w w'.
Proof.
  intros Hw Hj HS Hs Ha Hst Hstep Hterm Hp T F. pose proof Hw as [[HSt _] _].
  pose proof (ok_job_check _ _ _ HSt _ _ Hj) as Hck. unfold job_check in Hck.
  apply andb_true_iff in Hck as [H0 H1].
  eapply finished_good; [done|done| | | | |done].
  - apply (transitioned_evolves j j0 desired stage p msg err); try done. lia.
  - by rewrite (tr_status _ _ _ _ _ _ _ T).
  - unfold job_check. rewrite (tr_progress _ _ _ _ _ _ _ T). apply andb_true_iff. lia.
  - by apply (transitioned_terminal_times j0 desired stage p msg err).
Qed.

Lemma job_progress_range w k j :
  world_ok w → w.(db).(jobs) !! k = Some j → 0 ≤ j.(job_progress) ≤ 100.
Proof.
  intros [[HS _] _] Hj. pose proof (ok_job_check _ _ _ HS _ _ Hj) as Hck.
  unfold job_check in Hck. apply andb_true_iff in Hck. lia.
Qed.

Lemma job_row_id w k j : world_ok w → w.(db).(jobs) !! k = Some j → j.(job_id) = k.
Proof. intros [[HS _] _] Hj. exact (ok_job_key _ _ _ HS _ _ Hj). Qed.

(** A selection of job rows holds each job once. *)
Lemma selected_ids_NoDup w p :
  world_ok w → NoDup (job_id <$> List.filter p (map_to_list w.(db).(jobs)).*2).
Proof.
  intros Hw.
  assert (Hk : ∀ k j, (k, j) ∈ map_to_list w.(db).(jobs) → j.(job_id) = k).
  { intros k j H%elem_of_map_to_list. exact (job_row_id _ _ _ Hw H). }
  pose proof (NoDup_fst_map_to_list w.(db).(jobs)) as Hnd. revert Hk Hnd.
  induction (map_to_list w.(db).(jobs)) as [|[k j] kvs IH]; intros Hk Hnd; simpl; [constructor|].
  apply NoDup_cons in Hnd as [Hnin Hnd].
  assert (IH' := IH (fun k' j' H => Hk k' j' (list_elem_of_further _ _ _ H)) Hnd).
  destruct (p j); [|done]. simpl. constructor; [|done].
  intros (j0 & Heq & H0)%list_elem_of_fmap. apply list_elem_of_In, filter_In in H0 as [H0 _].
  apply list_elem_of_In, list_elem_of_fmap in H0 as ([k0 j1] & -> & H0). apply Hnin.
  rewrite <- (Hk k j) by constructor. rewrite Heq. simpl.
  rewrite (Hk k0 j1) by by constructor. by apply (list_elem_of_fmap_2 fst _ (k0, j1)).
Qed.

(** A finishing transaction on a job in any state: it goes through on a running
    job, and is refused, leaving the store alone, on every other. *)
Lemma wp_finish_transaction w jid (set_result : JobModel → JobModel) desired stage
    (p : JobModel → Z) msg err mid (Q : outcome JobExc JobModel → World → Prop) :
  world_ok w → terminal desired = true → job_step RUNNING desired →
  (∀ s, s ≠ RUNNING → job_step s desired → s = QUEUED ∧ desired = CANCELLED) →
  (∀ j, same_job_spec j (set_result j) ∧ (set_result j).(job_status) = j.(job_status) ∧
        (set_result j).(job_attempt) = j.(job_attempt) ∧
        (set_result j).(job_started_at) = j.(job_started_at) ∧
        (0 ≤ j.(job_progress) ≤ 100 → j.(job_progress) ≤ p (set_result j) ≤ 100)) →
  (∀ aid, keeps_audit_status (mid aid) aid) →
  (∀ j j' w', w.(db).(jobs) !! jid = Some j → j.(job_status) = RUNNING ∨ j.(job_status) = QUEUED →
     good w w' → transitioned (set_result j) desired stage (p (set_result j)) msg err j' →
     finished w w' j j' → Q (Return j') w') →
  (∀ e w', good w w' → w'.(db) = w.(db) →
     (∀ j, w.(db).(jobs) !! jid = Some j → j.(job_status) ≠ RUNNING) → Q (Raise e) w') →
  wp (immediate_session (
    j ← require_job jid;
    j ← transition_job (set_result j) desired stage (p (set_result j)) msg err;
    release_lock j.(job_id);; mid j.(job_audit_id);; refresh_audit j.(job_audit_id);; mret j)) Q w.
Proof.
  intros Hw Hterm Hrun Honly Hset Hmid HQ HR. pose proof Hw as [[HS _] _].
  assert (Hback : ∀ w2, w2.(db) = w.(db) → w2.(uuids_drawn) = w.(uuids_drawn) → good w w2).
  { intros w2 Hd Hu. apply good_refl; [done|done|lia]. }
  apply wp_immediate_session, wp_bind, wp_require_job.
  2: { intros Hnone w2 Hd2 Hu2. apply HR; [by apply Hback|done|]. intros j Hj. congruence. }
  intros j Hj. destruct (Hset j) as (Sp & St & At & Sa & Pr).
  pose proof (job_row_id _ _ _ Hw Hj) as Hid.
  pose proof (job_progress_range _ _ _ Hw Hj) as Hpr.
  destruct (decide (job_step j.(job_status) desired)) as [Hstep|Hno].
  - assert (Hcase : j.(job_status) = RUNNING ∨ j.(job_status) = QUEUED ∧ desired = CANCELLED).
    { destruct (decide (j.(job_status) = RUNNING)); [by left|right; by apply Honly]. }
    rewrite <- Hid in Hj. specialize (Pr Hpr).
    eapply (wp_finish w j); try done; [lia|apply releases_release|].
    intros j' w' T F. apply wp_ret. rewrite Hid in Hj. eapply HQ; try done; [naive_solver|].
    rewrite <- Hid in Hj. eapply finish_good; done.
  - apply wp_bind, wp_transition_job_illegal; [by rewrite St|].
    intros w2 Hd2 Hu2. apply HR; [by apply Hback|done|].
    intros j1 Hj1. rewrite Hj in Hj1. injection Hj1 as <-. congruence.
Qed.
(** What a finishing operation on job [jid] promises: on a running job it returns
    with the job finished as [R] says; otherwise it leaves the database alone
    (a queued job may only be cancelled). *)
Definition finishes {A} (m : M A) (jid : string) (desired : JobStatus)
    (R : JobModel → JobModel → Prop) : Prop := ∀ w, world_ok w →
  wp m (fun r w' => good w w' ∧
    match r with
    | Return _ => ∃ j j', w.(db).(jobs) !! jid = Some j ∧
        (j.(job_status) = RUNNING ∨ j.(job_status) = QUEUED) ∧
        finished w w' j j' ∧ j'.(job_status) = desired ∧ R j j'
    | Raise _ => w'.(db) = w.(db) ∧
        ∀ j, w.(db).(jobs) !! jid = Some j → j.(job_status) ≠ RUNNING
    end) w.

Lemma only_terminal_targets s desired :
  desired ∈ [COMPLETED; FAILED; INTERRUPTED] → s ≠ RUNNING → job_step s desired →
  s = QUEUED ∧ desired = CANCELLED.
Proof. unfold job_step. destruct s, desired; simpl; set_solver. Qed.

Lemma finishes_transaction jid set_result desired stage p msg err mid
    (R : JobModel → JobModel → Prop) :
  terminal desired = true → job_step RUNNING desired →
  (∀ s, s ≠ RUNNING → job_step s desired → s = QUEUED ∧ desired = CANCELLED) →
  (∀ j, same_job_spec j (set_result j) ∧ (set_result j).(job_status) = j.(job_status) ∧
        (set_result j).(job_attempt) = j.(job_attempt) ∧
        (set_result j).(job_started_at) = j.(job_started_at) ∧
        (0 ≤ j.(job_progress) ≤ 100 → j.(job_progress) ≤ p (set_result j) ≤ 100)) →
  (∀ aid, keeps_audit_status (mid aid) aid) →
  (∀ j j', transitioned (set_result j) desired stage (p (set_result j)) msg err j' → R j j') →
  finishes (
    j ← immediate_session (
      j ← require_job jid;
      j ← transition_job (set_result j) desired stage (p (set_result j)) msg err;
      release_lock j.(job_id);; mid j.(job_audit_id);; refresh_audit j.(job_audit_id);; mret j);
    job_record false j) jid desired R.
Proof.
  intros Hterm Hrun Honly Hset Hmid HR w Hw. apply wp_bind.
  apply wp_finish_transaction; try done.
  intros j j' w' Hj Hst Hgood T F. apply wp_job_record. intros r _ _ _ _. split; [done|].
  exists j, j'. rewrite (tr_status _ _ _ _ _ _ _ T). split_and!; try done. by apply HR.
Qed.

Ltac finish_side :=
  first [done | by_decide
        | intros ???; apply only_terminal_targets; [by_decide|done|done]
        | intros ?; repeat split; simpl; lia ].

Lemma finishes_ext {A} (m m' : M A) jid desired R :
  (∀ w, m w = m' w) → finishes m jid desired R → finishes m' jid desired R.
Proof. intros Heq Hm w Hw. unfold wp. rewrite <- Heq. by apply Hm. Qed.

Definition with_summary (summary : option dict) (aid : string) : M unit :=
  match summary with Some s => merge_summary aid s | None => mret tt end.

Lemma keeps_with_summary summary aid : keeps_audit_status (with_summary summary aid) aid.
Proof. destruct summary; [apply keeps_merge|apply keeps_skip]. Qed.

Lemma complete_job_finishes jid result summary :
  finishes (complete_job jid result summary) jid COMPLETED (fun _ j' =>
    j'.(job_result_reference) = result ∧ j'.(job_progress) = 100 ∧
    j'.(job_stage) = "completed").
Proof.
  apply (finishes_transaction jid (fun j => j <| job_result_reference := result |>) COMPLETED
    "completed" (fun _ => 100) "Job completed" None (with_summary summary)); try finish_side.
  - apply keeps_with_summary.
  - intros j j' T. split; [exact (tr_result _ _ _ _ _ _ _ T)|].
    split; [exact (tr_progress _ _ _ _ _ _ _ T)|exact (tr_stage _ _ _ _ _ _ _ T)].
Qed.

Lemma fail_job_finishes jid error :
  finishes (fail_job jid error) jid FAILED (fun j j' =>
    j'.(job_error_code) = Some error.(err_code) ∧ j'.(job_progress) = j.(job_progress) ∧
    j'.(job_result_reference) = j.(job_result_reference)).
Proof.
  eapply finishes_ext; cycle 1;
    [apply (finishes_transaction jid (fun j => j) FAILED "failed" job_progress
       error.(err_message) (Some error) (fun _ => mret tt)); try finish_side
    |intros w; reflexivity].
  - intros; apply keeps_skip.
  - intros j j' T. split; [exact (tr_error_code _ _ _ _ _ _ _ T)|].
    split; [exact (tr_progress _ _ _ _ _ _ _ T)|exact (tr_result _ _ _ _ _ _ _ T)].
Qed.

Definition with_true_summary (summary : option dict) (aid : string) : M unit :=
  match summary with Some ((_ :: _) as s) => merge_summary aid s | _ => mret tt end.

Lemma keeps_with_true_summary summary aid :
  keeps_audit_status (with_true_summary summary aid) aid.
Proof. destruct summary as [[]|]; [apply keeps_skip|apply keeps_merge|apply keeps_skip]. Qed.

Lemma cancel_running_job_finishes jid msg result summary :
  finishes (cancel_running_job jid msg result summary) jid CANCELLED (fun j j' =>
    j'.(job_progress) = j.(job_progress) ∧ j'.(job_error_code) = Some "cancelled" ∧
    j'.(job_result_reference) =
      if truthy_str result then result else j.(job_result_reference)).
Proof.
  apply (finishes_transaction jid
    (fun j => if truthy_str result then j <| job_result_reference := result |> else j) CANCELLED
    "cancelled" job_progress msg
    (Some (mkJobError "cancelled" CATEGORY_CANCELLED msg "job_worker" false []))
    (with_true_summary summary)); try finish_side.
  - intros s Hs Hstep. split; [|done]. by destruct s; try done; apply terminal_no_step in Hstep.
  - intros j. destruct (truthy_str result); repeat split; simpl; lia.
  - apply keeps_with_true_summary.
  - intros j j' T. rewrite (tr_progress _ _ _ _ _ _ _ T), (tr_error_code _ _ _ _ _ _ _ T),
      (tr_result _ _ _ _ _ _ _ T). by destruct (truthy_str result).
Qed.

Lemma finishes_step_ok {A} (m : M A) jid desired R : finishes m jid desired R → step_ok m.
Proof. intros Hm w Hw. eapply wp_mono; [by apply Hm|]. by intros r w' [? _]. Qed.
End proofs.
