(* ===== verification/JobClaimProofs.v ===== *)
(** * Claiming, cancelling and recovering jobs preserve the store invariant

    The operations that start a job ([claim_next]) or take many at once
    ([recover_after_restart], [prepare_supervisor]), with what each of them
    does to the rows, and [request_cancel], which finishes a job that waits. *)

From S2P Require Import Prelude PyBase JobModels JobStore JobService JobInvariant JobServiceProofs.

Section claim.
Context {RT : Runtime} {RTOK : RuntimeOk}.
Implicit Types (w : World) (a : AuditModel) (j : JobModel) (l : ResourceLockModel).

(** ** [request_cancel] *)

Lemma wp_cancel_queued {B} w j stage p msg err (k : JobModel → M B) Q :
  world_ok w → w.(db).(jobs) !! j.(job_id) = Some j → j.(job_status) = QUEUED →
  0 ≤ p ≤ 100 →
  (∀ j' w', transitioned j CANCELLED stage p msg err j' → finished w w' j j' →
     wp (k j') Q w') →
  wp (j' ← transition_job j CANCELLED stage p msg err;
      refresh_audit j'.(job_audit_id);; k j') Q w.
Proof.
  intros Hw Hj Hq Hp HQ. pose proof Hw as [[HS _] _].
  change (wp (j' ← transition_job j CANCELLED stage p msg err;
      (fun _ => mret tt) j'.(job_id);; (fun _ => mret tt) j'.(job_audit_id);;
      refresh_audit j'.(job_audit_id);; k j') Q w).
  apply (wp_finish w j j CANCELLED stage p msg err (fun _ => mret tt) (fun _ => mret tt));
    try done.
  - by right.
  - rewrite Hq. by_decide.
  - apply releases_skip. intros key l. by eapply queued_no_lock.
  - apply keeps_skip.
Qed.

(** What a cancellation request does to job [jid]. *)
Definition cancel_requested w w' (jid : string) : Prop := ∃ j, w.(db).(jobs) !! jid = Some j ∧
  match j.(job_status) with
  | QUEUED => ∃ j', finished w w' j j' ∧ j'.(job_status) = CANCELLED
  | RUNNING => w'.(db).(jobs) = <[jid := j <| job_cancel_requested := true |>]> w.(db).(jobs) ∧
               w'.(db).(resource_locks) = w.(db).(resource_locks)
  | _ => w'.(db) = w.(db)
  end.

Lemma request_cancel_spec jid w : world_ok w →
  wp (request_cancel jid) (fun r w' => good w w' ∧
    match r with
    | Return _ => cancel_requested w w' jid
    | Raise e => e = EntityNotFound "Job" jid ∧ w'.(db) = w.(db)
    end) w.
Proof.
  intros Hw. apply wp_bind, wp_immediate_session, wp_bind, wp_require_job.
  2: { intros _ w2 Hd2 Hu2. split; [|done]. apply good_refl; [done|done|lia]. }
  intros j Hj. pose proof (job_row_id _ _ _ Hw Hj) as Hid.
  pose proof (job_progress_range _ _ _ Hw Hj) as Hp.
  destruct (job_status j) eqn:Hs;
    try (apply wp_bind, wp_job_record; intros r _ _ _ _; apply wp_ret, wp_ret;
         split; [by apply good_refl|exists j; by rewrite Hs]).
  - subst jid. apply wp_cancel_queued; try done. intros j' w' T F. apply wp_ret.
    apply wp_job_record. intros r _ _ _ _. split.
    + eapply finish_good; [done|exact Hj| | | | | | | |exact T|exact F]; try done;
        [by rewrite Hs; by_decide|lia].
    + exists j. rewrite Hs. split; [done|]. exists j'. split; [done|].
      apply (tr_status _ _ _ _ _ _ _ T).
  - destruct (job_cancel_requested j) eqn:Hc.
    + apply wp_ret, wp_job_record. intros r _ _ _ _. split; [by apply good_refl|].
      exists j. rewrite Hs. split; [done|]. split; [|done].
      rewrite insert_id; [done|]. rewrite Hj. f_equal. destruct j. by simpl in *; subst.
    + pose proof Hw as [[HS _] _].
      apply wp_bind, (wp_put_job jid); [apply (ok_job_check _ _ _ HS _ _ Hj)|done|].
      intros w1 [Hd1 Hu1]. apply wp_bind, wp_add_event. intros e w2 [Hd2 Hu2] _ _.
      apply wp_ret, wp_job_record. intros r _ _ _ _. split.
      * eapply (mark_cancel_good w w2 jid j [e]); try done.
        split; [rewrite Hd2, Hd1; reflexivity|congruence].
      * exists j. rewrite Hs. split; [done|]. by rewrite Hd2, Hd1.
Qed.

(** ** [claim_next] *)

(** The store after worker [wid] has started the queued job [j], now [j']. *)
Record claimed (wid : string) w w' j j' : Prop := {
  cl_jobs : w'.(db).(jobs) = <[j.(job_id) := j']> w.(db).(jobs);
  cl_spec : same_job_spec j j';
  cl_status : j'.(job_status) = RUNNING;
  cl_worker : j'.(job_worker_id) = Some wid;
  cl_attempt : j'.(job_attempt) = j.(job_attempt) + 1;
  cl_progress : j'.(job_progress) = Z.max 1 j.(job_progress);
  cl_started : is_Some j'.(job_started_at);
  cl_started_same : is_Some j.(job_started_at) → j'.(job_started_at) = j.(job_started_at);
  cl_finished : j'.(job_finished_at) = j.(job_finished_at);
  cl_locks :
    needs_lock j = false ∧ w'.(db).(resource_locks) = w.(db).(resource_locks) ∨
    needs_lock j = true ∧ w.(db).(resource_locks) !! lock_key j = None ∧
    ∃ l, w'.(db).(resource_locks) = <[lock_key j := l]> w.(db).(resource_locks) ∧
         l.(lock_resource_key) = lock_key j ∧ l.(lock_job_id) = j.(job_id) ∧
         l.(lock_resource_group) = j.(job_resource_group);
  cl_audit : ∃ a a', w.(db).(audits) !! j.(job_audit_id) = Some a ∧
    w'.(db).(audits) = <[j.(job_audit_id) := a']> w.(db).(audits) ∧
    a'.(audit_id) = a.(audit_id) ∧ a'.(audit_status) = AUDIT_RUNNING;
  cl_events : w.(db).(job_events) `prefix_of` w'.(db).(job_events);
  cl_uuids : w'.(uuids_drawn) = w.(uuids_drawn);
  cl_workers : w'.(db).(workers) = w.(db).(workers)
}.

Lemma claimed_good wid w w' j j' :
  world_ok w → w.(db).(jobs) !! j.(job_id) = Some j → j.(job_status) = QUEUED →
  resource_free w.(db).(resource_locks) j → claimed wid w w' j j' → good w w'.
Proof.
  intros Hw Hj Hq Hfree [HJ Hsp Hst Hwk Hat Hpr Hsd Hss Hfi HL (a & a' & Ha & HA & Hida & Hsta) HE HU _].
  pose proof Hw as [[HS HG] Hf]. pose proof (job_progress_range _ _ _ Hw Hj) as Hrange.
  assert (Hck : job_check j' = true).
  { unfold job_check. rewrite Hpr. apply andb_true_iff. lia. }
  assert (Htm : times_ok j').
  { destruct (ok_job_times _ _ _ HS _ _ Hj) as [_ Ht]. unfold times_ok.
    rewrite Hst, Hfi. rewrite Hq in Ht. simpl in *. split; [done|exact Ht]. }
  split; [split; [split|]|].
  - rewrite HA, HJ. eapply store_ok_start; done.
  - rewrite HJ. eapply (groups_ok_mono w.(db).(jobs)); [|by eapply same_spec_keeps_limits|reflexivity].
    destruct HL as [[_ ->]|(_ & Hnone & l & -> & _ & Hl & Hg)]; [done|].
    eapply groups_ok_lock; [done|by rewrite Hl|done|done|apply Hfree].
  - eapply ids_fresh_same; [done|lia|rewrite HA|rewrite HJ]; by eapply insert_existing_None.
  - split; [| |done].
    + intros k0 j0 H0. rewrite HJ. destruct (decide (k0 = j.(job_id))) as [->|].
      * exists j'. rewrite lookup_insert_eq. rewrite Hj in H0. simplify_eq. split; [done|].
        split; [done| |lia|lia|done|by rewrite Hq].
        rewrite Hq, Hst. apply rtc_once. by_decide.
      * exists j0. by rewrite lookup_insert_ne.
    + intros k0 a0 H0. rewrite HA. destruct (decide (k0 = j.(job_audit_id))) as [->|].
      * exists a'. by rewrite lookup_insert_eq.
      * exists a0. by rewrite lookup_insert_ne.
Qed.

(** The key a job would lock, when it is not free although the resource is: some
    other job names ["job:<id>"] as its own resource key. *)
Lemma lock_key_free L j :
  resource_free L j → truthy_str j.(job_resource_key) = true → L !! lock_key j = None.
Proof.
  intros [Hk _] Ht. specialize (Hk Ht). unfold lock_key, str_or.
  destruct (job_resource_key j) as [[]|]; done.
Qed.

(** The part of [start_job] before the audit is brought to RUNNING. *)
Lemma wp_take_lock wid j Q w :
  world_ok w → w.(db).(jobs) !! j.(job_id) = Some j → j.(job_status) = QUEUED →
  ∀ w1 j1, lock_key j1 = lock_key j → needs_lock j1 = needs_lock j →
    j1.(job_id) = j.(job_id) → j1.(job_resource_group) = j.(job_resource_group) →
    w1.(db).(resource_locks) = w.(db).(resource_locks) →
    (∀ L' w2, store_after (fun d => d <| resource_locks := L' |>) w1 w2 →
       needs_lock j = false ∧ L' = w.(db).(resource_locks) ∨
       needs_lock j = true ∧ w.(db).(resource_locks) !! lock_key j = None ∧
       (∃ l, L' = <[lock_key j := l]> w.(db).(resource_locks) ∧
         l.(lock_resource_key) = lock_key j ∧ l.(lock_job_id) = j.(job_id) ∧
         l.(lock_resource_group) = j.(job_resource_group)) → Q (Return tt) w2) →
    (is_Some (w.(db).(resource_locks) !! lock_key j) → needs_lock j = true →
       ∀ w2, same_store w1 w2 → Q (Raise (IntegrityError "resource_locks.resource_key")) w2) →
    wp (if needs_lock j1 then
          now ← utc_now;
          insert_lock (mkLock (lock_key j1) j1.(job_resource_group) j1.(job_id) wid now)
        else mret tt) Q w1.
Proof.
  intros Hw Hj Hq w1 j1 Hlk Hn Hid Hg HL HQ HR. pose proof Hw as [[HS _] _].
  rewrite Hlk, Hn, Hid, Hg. destruct (needs_lock j) eqn:Hneeds.
  - apply wp_bind, wp_utc_now. intros t w2 [Hd2 Hu2].
    destruct (w.(db).(resource_locks) !! lock_key j) as [l0|] eqn:Hl0.
    + apply wp_insert_lock_taken; [simpl; rewrite Hd2, HL, Hl0; eauto|]. by apply HR.
    + apply wp_insert_lock; simpl; [by rewrite Hd2, HL| |].
      * rewrite Hd2, HL. intros k l'. by apply (queued_no_lock _ _ _ _ _ _ HS).
      * intros w3 [Hd3 Hu3].
        apply (HQ (<[lock_key j := mkLock (lock_key j) j.(job_resource_group) j.(job_id) wid t]>
                     w.(db).(resource_locks))).
        -- split; [|congruence]. rewrite Hd3, Hd2. unfold update_field. simpl. by rewrite HL.
        -- right. eauto 10.
  - apply wp_ret, (HQ w.(db).(resource_locks)); [|by left]. split; [|done].
    destruct w1 as [[]]. unfold update_field. simpl in *. by subst.
Qed.

(** Bringing the audit of a started job to RUNNING. *)
Lemma wp_audit_running a Q w :
  w.(db).(audits) !! a.(audit_id) = Some a →
  a.(audit_status) = AUDIT_CREATED ∨ a.(audit_status) = AUDIT_RUNNING →
  (∀ a' w', store_after (fun d => d <| audits ::= insert a.(audit_id) a' |>) w w' →
     a'.(audit_id) = a.(audit_id) → a'.(audit_status) = AUDIT_RUNNING → Q (Return tt) w') →
  wp (let current := a.(audit_status) in
      if bool_decide (current ∈ [AUDIT_CREATED; AUDIT_COMPLETED]) then
        require_audit_transition current AUDIT_RUNNING;;
        started ← or_utc_now a.(audit_started_at);
        put_audit (a <| audit_status := AUDIT_RUNNING |>
                     <| audit_started_at := Some started |> <| audit_finished_at := None |>)
      else mret tt) Q w.
Proof.
  intros Ha Hcase HQ. simpl. case_bool_decide as Hin.
  - destruct Hcase as [Hs|Hs]; rewrite Hs in Hin; [|exfalso; revert Hin; by_decide].
    apply wp_bind, wp_require_audit_transition; [intros _|].
    2: { intros Hno. destruct Hno. rewrite Hs. by_decide. }
    apply wp_bind, wp_or_utc_now. intros t w1 [Hd1 Hu1] _.
    apply (wp_put_audit a.(audit_id)); [done|]. intros w2 [Hd2 Hu2].
    eapply HQ; [split; [rewrite Hd2, Hd1; reflexivity|congruence]|done|done].
  - apply wp_ret, (HQ a); [|done|].
    + split; [|done]. destruct w as [[]]. unfold update_field. simpl in *. by rewrite insert_id.
    + destruct Hcase as [Hs|Hs]; [|done]. exfalso. apply Hin. rewrite Hs. by_decide.
Qed.

Lemma wp_start_job wid j (Q : outcome JobExc JobRecord → World → Prop) w :
  world_ok w → w.(db).(jobs) !! j.(job_id) = Some j → j.(job_status) = QUEUED →
  (∀ r j' w', claimed wid w w' j j' → r.(rec_id) = j.(job_id) → r.(rec_status) = RUNNING →
     r.(rec_audit_id) = j.(job_audit_id) → Q (Return r) w') →
  (is_Some (w.(db).(resource_locks) !! lock_key j) → needs_lock j = true →
     ∀ w', w'.(uuids_drawn) = w.(uuids_drawn) →
     Q (Raise (IntegrityError "resource_locks.resource_key")) w') →
  wp (start_job wid j) Q w.
Proof.
  intros Hw Hj Hq HQ HR. pose proof Hw as [[HS _] _].
  pose proof (job_progress_range _ _ _ Hw Hj) as Hp.
  destruct (ok_job_audit _ _ _ HS _ _ Hj) as [a Ha].
  pose proof (ok_audit_key _ _ _ HS _ _ Ha) as Hida.
  apply wp_bind, wp_transition_job; [rewrite Hq; by_decide|lia|].
  intros j1 e w1 T [Hd1 Hu1] _ _. pose proof (tr_spec _ _ _ _ _ _ _ T) as Sp.
  set (j2 := j1 <| job_worker_id := Some wid |> <| job_attempt ::= Z.add 1 |>).
  assert (Hid2 : j2.(job_id) = j.(job_id)) by apply (same_spec_id _ _ Sp).
  apply wp_bind, (wp_put_job j.(job_id)); [|done|].
  { unfold job_check. simpl. rewrite (tr_progress _ _ _ _ _ _ _ T). apply andb_true_iff. lia. }
  intros w2 [Hd2 Hu2].
  apply wp_bind, (wp_take_lock wid j _ w Hw Hj Hq w2 j2);
    [by apply same_spec_lock_key|by apply same_spec_needs_lock|done|by apply same_spec_group
    |by rewrite Hd2, Hd1| |].
  2: { intros Htaken Hn w3 [Hd3 Hu3]. apply HR; [done|done|congruence]. }
  intros L' w3 [Hd3 Hu3] HL'. replace (j2.(job_audit_id)) with j.(job_audit_id)
    by (symmetry; apply (same_spec_audit _ _ Sp)).
  apply wp_bind, wp_require_audit; rewrite Hd3, Hd2, Hd1; simpl; [|congruence].
  intros a0 Ha0. rewrite Ha in Ha0. injection Ha0 as <-.
  apply wp_bind, wp_audit_running; [by rewrite Hd3, Hd2, Hd1, Hida| |].
  { eapply audit_agrees_queued; [by eapply ok_audit|]. rewrite Hida. by exists j.(job_id), j. }
  intros a' w4 [Hd4 Hu4] Hia Hsa. apply wp_job_record. intros r Hr1 Hr2 Hr3 _.
  eapply (HQ r j2); [|by rewrite Hr1|by rewrite Hr2; apply (tr_status _ _ _ _ _ _ _ T)
    |by rewrite Hr3; apply (same_spec_audit _ _ Sp)].
  rewrite Hida in Hd4. split; rewrite ?Hd4, ?Hd3, ?Hd2, ?Hd1; simpl.
  - by rewrite insert_insert_eq.
  - exact Sp.
  - apply (tr_status _ _ _ _ _ _ _ T).
  - done.
  - rewrite (tr_attempt _ _ _ _ _ _ _ T). lia.
  - apply (tr_progress _ _ _ _ _ _ _ T).
  - by apply (tr_started_running _ _ _ _ _ _ _ T).
  - apply (tr_started _ _ _ _ _ _ _ T).
  - by apply (tr_finished_same _ _ _ _ _ _ _ T).
  - exact HL'.
  - exists a, a'. split_and!; try done.
  - by apply prefix_app_r.
  - congruence.
  - done.
Qed.

(** The store after some queued jobs were marked as waiting, and nothing else. *)
Record waited w w' : Prop := {
  wt_good : good w w';
  wt_locks : w'.(db).(resource_locks) = w.(db).(resource_locks);
  wt_audits : w'.(db).(audits) = w.(db).(audits);
  wt_uuids : w'.(uuids_drawn) = w.(uuids_drawn);
  wt_workers : w'.(db).(workers) = w.(db).(workers);
  wt_jobs k j : w.(db).(jobs) !! k = Some j →
    w'.(db).(jobs) !! k = Some j ∨
    j.(job_status) = QUEUED ∧ w'.(db).(jobs) !! k = Some (waiting_row j);
  wt_no_new k : w.(db).(jobs) !! k = None → w'.(db).(jobs) !! k = None
}.

Lemma waited_refl w : world_ok w → waited w w.
Proof. intros Hw. split; [by apply good_refl|done|done|done|done|by left|done]. Qed.

Lemma waited_trans w1 w2 w3 : waited w1 w2 → waited w2 w3 → waited w1 w3.
Proof.
  intros [G1 L1 A1 U1 K1 J1 N1] [G2 L2 A2 U2 K2 J2 N2]. split; try congruence; [by eapply good_trans| |by auto].
  intros k j [H1|[Hq H1]]%J1; [by apply J2|].
  destruct (J2 _ _ H1) as [H2|[_ H2]]; by right.
Qed.

Lemma wp_claim_loop wid cands w (Q : outcome JobExc (option JobRecord) → World → Prop) :
  world_ok w → NoDup (job_id <$> cands) →
  (∀ j, j ∈ cands → w.(db).(jobs) !! j.(job_id) = Some j ∧ j.(job_status) = QUEUED) →
  (∀ w', waited w w' → (∀ j, j ∈ cands → ¬ resource_free w.(db).(resource_locks) j) →
     Q (Return None) w') →
  (∀ pre j post r w1 j' w', cands = pre ++ j :: post →
     (∀ x, x ∈ pre → ¬ resource_free w.(db).(resource_locks) x) →
     resource_free w.(db).(resource_locks) j → waited w w1 →
     w1.(db).(jobs) !! j.(job_id) = Some j →
     claimed wid w1 w' j j' → r.(rec_id) = j.(job_id) → r.(rec_status) = RUNNING →
     r.(rec_audit_id) = j.(job_audit_id) → Q (Return (Some r)) w') →
  (∀ j w', j ∈ cands → is_Some (w.(db).(resource_locks) !! lock_key j) →
     needs_lock j = true → resource_free w.(db).(resource_locks) j →
     w'.(uuids_drawn) = w.(uuids_drawn) →
     Q (Raise (IntegrityError "resource_locks.resource_key")) w') →
  wp (claim_loop wid cands) Q w.
Proof.
  revert w Q. induction cands as [|j cands IH]; intros w Q Hw Hnd Hin HN HS HR; simpl.
  { apply wp_ret, HN; [by apply waited_refl|]. intros j Hj. by apply elem_of_nil in Hj. }
  destruct (Hin j) as [Hj Hq]; [constructor|].
  apply NoDup_cons in Hnd as [Hnin Hnd].
  apply wp_bind, wp_resource_available. intros [] Hfree.
  - destruct Hfree as [Hfree _]. specialize (Hfree eq_refl).
    apply wp_bind, wp_start_job; [done..| |].
    + intros r j' w' Hc Hr1 Hr2 Hr3. apply wp_ret. eapply (HS [] j cands r w j' w'); try done.
      * intros x Hx. by apply elem_of_nil in Hx.
      * by apply waited_refl.
    + intros Htaken Hn w' Hu. eapply HR; try done. constructor.
  - assert (Hnf : ¬ resource_free w.(db).(resource_locks) j) by (intros H; by apply Hfree in H).
    apply wp_bind, wp_mark_waiting; [done..|].
    intros w1 G1 L1 U1 A1 K1 Jo (j1 & Hj1 & Hw1).
    assert (W1 : waited w w1).
    { split; try done; [intros k j0 H0; destruct (decide (k = j.(job_id))) as [->|Hne]|].
      - rewrite Hj in H0. injection H0 as <-. destruct Hw1 as [->| ->]; auto.
      - left. by rewrite Jo.
      - intros k Hk. rewrite Jo; [done|]. by intros ->; rewrite Hj in Hk. }
    apply IH; [apply G1|done| | | |].
    + intros x Hx. rewrite Jo; [apply Hin; by constructor|].
      intros Heq. apply Hnin. rewrite <- Heq. by apply list_elem_of_fmap_2.
    + intros w' W' Hno. apply HN; [by eapply waited_trans|]. rewrite L1 in Hno.
      intros x [->|Hx]%elem_of_cons; auto.
    + intros pre x post r w2 x' w' -> Hpre Hx W2 Hx2 Hc Hr1 Hr2 Hr3. rewrite L1 in *.
      apply (HS (j :: pre) x post r w2 x'); try done; [|by eapply waited_trans].
      intros y [->|Hy]%elem_of_cons; auto.
    + intros x w' Hx Ht Hn Hxf Hu. rewrite L1 in *. eapply HR; try done; [by constructor|congruence].
Qed.

(** The queue in the order [claim_next] tries it. *)
Definition queued_jobs (d : DB) : list JobModel :=
  List.filter (fun j => bool_decide (j.(job_status) = QUEUED)) (map_to_list d.(jobs)).*2.

Lemma elem_of_queued d j :
  j ∈ queued_jobs d ↔ (∃ k, d.(jobs) !! k = Some j) ∧ j.(job_status) = QUEUED.
Proof. unfold queued_jobs. rewrite elem_of_selected. by rewrite bool_decide_eq_true. Qed.

Lemma queued_ids_NoDup w : world_ok w → NoDup (job_id <$> queued_jobs w.(db)).
Proof. apply selected_ids_NoDup. Qed.

Lemma claims_before_total j1 j2 : claims_before j1 j2 = true ∨ claims_before j2 j1 = true.
Proof. unfold claims_before. rewrite !orb_true_iff, !andb_true_iff. lia. Qed.

Lemma claims_before_trans j1 j2 j3 :
  claims_before j1 j2 = true → claims_before j2 j3 = true → claims_before j1 j3 = true.
Proof. unfold claims_before. rewrite !orb_true_iff, !andb_true_iff. lia. Qed.

(** What [claim_next] does, for each outcome. *)
Definition claim_result (wid : string) w (r : outcome JobExc (option JobRecord)) w' : Prop :=
  let L := w.(db).(resource_locks) in
  match r with
  | Return None => waited w w' ∧ ∀ j, j ∈ queued_jobs w.(db) → ¬ resource_free L j
  | Return (Some r) => ∃ j w1 j',
      j ∈ queued_jobs w.(db) ∧ resource_free L j ∧
      (∀ x, x ∈ queued_jobs w.(db) → resource_free L x → claims_before j x = true) ∧
      waited w w1 ∧ claimed wid w1 w' j j' ∧ r.(rec_id) = j.(job_id) ∧ r.(rec_status) = RUNNING ∧
      r.(rec_audit_id) = j.(job_audit_id)
  | Raise e => e = IntegrityError "resource_locks.resource_key" ∧ w'.(db) = w.(db) ∧
      ∃ j, j ∈ queued_jobs w.(db) ∧ is_Some (L !! lock_key j) ∧ needs_lock j = true ∧
           resource_free L j
  end.

Lemma claim_next_spec wid w :
  world_ok w → wp (claim_next wid) (fun r w' => good w w' ∧ claim_result wid w r w') w.
Proof.
  intros Hw. apply wp_immediate_session, wp_bind, wp_select_rows. intros rows Hrows.
  assert (Hq : ∀ j, j ∈ sort_by claims_before rows ↔ j ∈ queued_jobs w.(db)).
  { intros j. rewrite elem_of_sort_by. unfold queued_jobs. by rewrite Hrows. }
  apply wp_claim_loop; [done| | | | |].
  - rewrite sort_by_perm, Hrows. by apply queued_ids_NoDup.
  - intros j Hj. apply Hq, elem_of_queued in Hj as [[k Hk] Hs].
    pose proof (job_row_id _ _ _ Hw Hk) as <-. done.
  - intros w' W Hno. split; [apply W|]. split; [done|]. intros j Hj. by apply Hno, Hq.
  - intros pre j post r w1 j' w' Heq Hpre Hfree W Hj Hc Hr1 Hr2 Hr3.
    assert (Hin : j ∈ queued_jobs w.(db)).
    { apply Hq. rewrite Heq. apply elem_of_app. right. constructor. }
    pose proof Hin as [_ Hjq]%elem_of_queued. split.
    + apply (good_trans _ w1); [apply W|].
      eapply claimed_good; [apply W|done|done| |exact Hc]. by rewrite (wt_locks _ _ W).
    + exists j, w1, j'. split_and!; try done. intros x Hx Hxf.
      eapply (sort_by_split claims_before); [apply claims_before_total
        |apply claims_before_trans|exact Heq| |by intros ?%Hpre].
      rewrite Hrows. exact Hx.
  - intros j w' Hj Ht Hn Hf Hu w2 Hd2 Hu2. split; [apply good_refl; [done|done|lia]|].
    split_and!; [done|done|]. exists j. by rewrite <- Hq.
Qed.
End claim.

(** ** Recovery after a restart, and worker rows

    [recover_after_restart] and [prepare_supervisor] interrupt every running
    job, drop all locks and refresh the audits concerned; the worker-row
    operations leave audits, jobs and locks alone. *)

Section recovery.
Context {RT : Runtime} {RTOK : RuntimeOk}.
Implicit Types (w : World) (a : AuditModel) (j : JobModel) (l : ResourceLockModel).

(** A running job's row before and after recovery. *)
Definition interrupts j j' : Prop :=
  transitioned j INTERRUPTED "interrupted" j.(job_progress)
    "Application restarted during execution"
    (Some (mkJobError "application_restart" INTERNAL
             "Job interrupted by application restart" "job_recovery" true [])) j'.

Definition running_jobs (d : DB) : list JobModel :=
  List.filter (fun j => bool_decide (j.(job_status) = RUNNING)) (map_to_list d.(jobs)).*2.

Lemma elem_of_running w j :
  world_ok w → j ∈ running_jobs w.(db) ↔
  w.(db).(jobs) !! j.(job_id) = Some j ∧ j.(job_status) = RUNNING.
Proof.
  intros Hw. unfold running_jobs. rewrite elem_of_selected, bool_decide_eq_true.
  split; intros [H Hr]; (split; [|done]); [|eauto].
  destruct H as [k Hk]. by rewrite (job_row_id _ _ _ Hw Hk).
Qed.

Lemma interrupts_evolves w k j j' :
  world_ok w → w.(db).(jobs) !! k = Some j → j.(job_status) = RUNNING → interrupts j j' →
  job_evolves j j' ∧ job_check j' = true ∧ times_ok j' ∧ j'.(job_status) = INTERRUPTED.
Proof.
  intros Hw Hj Hr T. pose proof (job_progress_range _ _ _ Hw Hj) as Hp. split_and!.
  - eapply transitioned_evolves; [..|exact T]; try done. by rewrite Hr; by_decide.
  - unfold job_check. rewrite (tr_progress _ _ _ _ _ _ _ T). apply andb_true_iff. lia.
  - by eapply transitioned_terminal_times; [|exact T].
  - apply (tr_status _ _ _ _ _ _ _ T).
Qed.

(** *** The loop over the running jobs *)

(** After the jobs of [pre] were interrupted. *)
Record interrupting (pre : list JobModel) w w' : Prop := {
  it_done k : k ∈ job_id <$> pre →
    ∃ j j', w.(db).(jobs) !! k = Some j ∧ w'.(db).(jobs) !! k = Some j' ∧
            j.(job_status) = RUNNING ∧ interrupts j j';
  it_rest k : k ∉ job_id <$> pre → w'.(db).(jobs) !! k = w.(db).(jobs) !! k;
  it_audits : w'.(db).(audits) = w.(db).(audits);
  it_workers : w'.(db).(workers) = w.(db).(workers);
  it_events : w.(db).(job_events) `prefix_of` w'.(db).(job_events);
  it_uuids : w'.(uuids_drawn) = w.(uuids_drawn)
}.

Lemma interrupting_step pre j j' e w w1 w2 :
  world_ok w → w.(db).(jobs) !! j.(job_id) = Some j → j.(job_status) = RUNNING →
  interrupting pre w w1 → interrupts j j' →
  store_after (fun d => d <| jobs ::= insert j.(job_id) j' |>
                          <| job_events ::= fun es => es ++ [e] |>) w1 w2 →
  interrupting (pre ++ [j]) w w2.
Proof.
  intros Hw Hj Hr [D R A K E U] T [Hd Hu]. split; rewrite ?Hd; simpl; try congruence.
  - intros k. rewrite fmap_app, elem_of_app. simpl. intros Hk.
    destruct (decide (k = j.(job_id))) as [->|Hne].
    + exists j, j'. rewrite lookup_insert_eq. done.
    + rewrite lookup_insert_ne by done. apply D. destruct Hk as [|Hk]; [done|].
      by apply list_elem_of_singleton in Hk.
  - intros k. rewrite fmap_app, not_elem_of_app. simpl. intros [Hk Hne].
    rewrite lookup_insert_ne; [by apply R|]. intros <-. apply Hne. constructor.
  - by apply prefix_app_r.
Qed.

Lemma wp_interrupt_loop w rows (Q : outcome JobExc (list JobModel) → World → Prop) :
  world_ok w → rows ≡ₚ running_jobs w.(db) →
  (∀ bs w', interrupting rows w w' → Q (Return bs) w') →
  wp (for_each (fun j =>
      transition_job j INTERRUPTED "interrupted" j.(job_progress)
        "Application restarted during execution"
        (Some (mkJobError "application_restart" INTERNAL
                 "Job interrupted by application restart" "job_recovery" true []))) rows) Q w.
Proof.
  intros Hw Hrows HQ.
  eapply wp_mono; [apply (wp_for_each _ (fun pre _ w' => interrupting pre w w')
                            (fun _ _ => False))|].
  - split; try done. intros k Hk. by apply elem_of_nil in Hk.
  - intros pre j post bs w1 Heq HI.
    assert (Hin : j ∈ running_jobs w.(db)).
    { rewrite <- Hrows, Heq. apply elem_of_app. right. constructor. }
    apply elem_of_running in Hin as [Hj Hr]; [|done].
    apply wp_transition_job; [by rewrite Hr; by_decide|by eapply job_progress_range|].
    intros j' e w2 T Hw2 _ _. by eapply interrupting_step.
  - intros [bs|e] w' H; [by apply HQ|done].
Qed.

(** Every row is as recovery leaves it. *)
Lemma interrupting_rows rows w w' :
  world_ok w → rows ≡ₚ running_jobs w.(db) → interrupting rows w w' →
  ∀ k, interrupted_row (w.(db).(jobs) !! k) (w'.(db).(jobs) !! k) ∧
    ∀ j, w.(db).(jobs) !! k = Some j → ∃ j', w'.(db).(jobs) !! k = Some j' ∧ job_evolves j j'.
Proof.
  intros Hw Hrows [D R _ _ _ _] k. destruct (decide (k ∈ job_id <$> rows)) as [Hin|Hin].
  - destruct (D k Hin) as (j & j' & Hj & Hj' & Hr & T).
    destruct (interrupts_evolves _ _ _ _ Hw Hj Hr T) as (Hev & Hck & Htm & Hst).
    rewrite Hj, Hj'. split.
    + simpl. rewrite bool_decide_true by done. exists j'. split_and!; try done. apply Hev.
    + intros j0 [= <-]. eauto.
  - rewrite (R k Hin). split; [|intros j Hj; by exists j].
    destruct (w.(db).(jobs) !! k) as [j|] eqn:Hj; [|done]. simpl.
    rewrite bool_decide_false; [done|]. intros Hr. apply Hin.
    pose proof (job_row_id _ _ _ Hw Hj) as <-. apply list_elem_of_fmap_2.
    rewrite Hrows. by apply elem_of_running.
Qed.

(** *** The loop over the audits *)

Record refreshing (pre : list string) w w' : Prop := {
  rf_done k : k ∈ pre → ∃ a, w'.(db).(audits) !! k = Some a ∧ a.(audit_id) = k ∧
    a.(audit_status) = aggregate_status (statuses_of w.(db).(jobs) k);
  rf_rest k : k ∉ pre → w'.(db).(audits) !! k = w.(db).(audits) !! k;
  rf_db : ∃ A, w'.(db) = w.(db) <| audits := A |>;
  rf_uuids : w'.(uuids_drawn) = w.(uuids_drawn)
}.

Lemma refreshing_refl w : refreshing [] w w.
Proof.
  split; try done; [intros k Hk; by apply elem_of_nil in Hk|].
  exists w.(db).(audits). by destruct w as [[]].
Qed.

(** Audits whose refresh is legal, all with a job. *)
Lemma wp_refresh_loop w ids (Q : outcome JobExc (list unit) → World → Prop) :
  NoDup ids →
  (∀ k, k ∈ ids → (∃ s, has_status w.(db).(jobs) k s) ∧
     ∃ a, w.(db).(audits) !! k = Some a ∧ a.(audit_id) = k ∧ a.(audit_status) = AUDIT_RUNNING) →
  (∀ bs w', refreshing ids w w' → Q (Return bs) w') →
  wp (for_each refresh_audit ids) Q w.
Proof.
  intros Hnd Hids HQ.
  eapply wp_mono; [apply (wp_for_each _ (fun pre _ w' => refreshing pre w w')
                            (fun _ _ => False) ids w (refreshing_refl w))|].
  2: { intros [bs|e] w' H; [by apply HQ|done]. }
  intros pre k post bs w1 Heq [D R [A Hdb] U].
  assert (Hk : k ∈ ids) by (rewrite Heq; apply elem_of_app; right; constructor).
  assert (Hnk : k ∉ pre).
  { intros H. rewrite Heq in Hnd. apply NoDup_app in Hnd as (_ & Hdis & _).
    apply (Hdis k H). constructor. }
  destruct (Hids k Hk) as [[s Hs] (a & Ha & Hid & Hst)]. rewrite <- (R k Hnk) in Ha.
  assert (HJ : w1.(db).(jobs) = w.(db).(jobs)) by by rewrite Hdb.
  apply (wp_refresh_audit k a); rewrite ?HJ; try done.
  - intros Hnil. apply elem_of_statuses in Hs. rewrite Hnil in Hs. by apply elem_of_nil in Hs.
  - rewrite Hst. apply aggregate_from_running.
  - intros a' w2 [Hd2 Hu2] Hid' Hst'. split.
    + intros k0 Hk0. rewrite Hd2. simpl. destruct (decide (k0 = k)) as [->|Hne].
      * exists a'. by rewrite lookup_insert_eq.
      * rewrite lookup_insert_ne by done. apply D.
        apply elem_of_app in Hk0 as [?|Hk0]; [done|]. by apply list_elem_of_singleton in Hk0.
    + intros k0 [Hk0 Hne]%not_elem_of_app. rewrite Hd2. simpl.
      rewrite lookup_insert_ne; [by apply R|]. intros <-. apply Hne. constructor.
    + exists (<[k:=a']> A). by rewrite Hd2, Hdb.
    + congruence.
Qed.

(** *** [_recover_running] *)

(** The store after recovery. *)
Record recovered w w' : Prop := {
  rv_rows k : interrupted_row (w.(db).(jobs) !! k) (w'.(db).(jobs) !! k);
  rv_locks : w'.(db).(resource_locks) = ∅;
  rv_workers k r : w'.(db).(workers) !! k = Some r →
    r.(worker_status) = WK_STOPPED ∧ r.(worker_current_job_id) = None;
  rv_good : good w w'
}.

(** The jobs of an audit none of whose jobs was running are untouched. *)
Lemma untouched_statuses w w1 rows aid s :
  world_ok w → rows ≡ₚ running_jobs w.(db) → interrupting rows w w1 →
  aid ∉ job_audit_id <$> rows →
  has_status w.(db).(jobs) aid s ↔ has_status w1.(db).(jobs) aid s.
Proof.
  intros Hw Hrows HI Hno. pose proof (interrupting_rows _ _ _ Hw Hrows HI) as Hrow.
  assert (Hsame : ∀ k j, w.(db).(jobs) !! k = Some j → j.(job_audit_id) = aid →
            w1.(db).(jobs) !! k = Some j).
  { intros k j Hj Haud. rewrite (it_rest _ _ _ HI); [done|].
    intros (j1 & Heq & Hj1)%list_elem_of_fmap. apply Hno.
    rewrite <- Haud. pose proof Hj1 as Hj2. rewrite Hrows in Hj1.
    apply elem_of_running in Hj1 as [Hj1 _]; [|done].
    rewrite <- Heq, Hj in Hj1. injection Hj1 as ->. by apply list_elem_of_fmap_2. }
  split; intros (k & j & Hj & Haud & Hs).
  - exists k, j. by rewrite (Hsame k j).
  - destruct (w.(db).(jobs) !! k) as [j0|] eqn:Hj0.
    + destruct (proj2 (Hrow k) j0 Hj0) as (j' & Hj' & Hjev). rewrite Hj in Hj'.
      injection Hj' as <-. rewrite (same_spec_audit _ _ (ev_spec _ _ Hjev)) in Haud.
      rewrite (Hsame k j0 Hj0 Haud) in Hj. injection Hj as <-. by exists k, j0.
    + destruct (Hrow k) as [Hr0 _]. rewrite Hj0, Hj in Hr0. done.
Qed.

Lemma recovered_intro w w1 w2 w3 rows :
  world_ok w → rows ≡ₚ running_jobs w.(db) → interrupting rows w w1 →
  store_after (fun d => d <| resource_locks := ∅ |> <| workers ::= fmap (fun k =>
      k <| worker_status := WK_STOPPED |> <| worker_current_job_id := None |>) |>) w1 w2 →
  refreshing (remove_dups (job_audit_id <$> rows)) w2 w3 → recovered w w3.
Proof.
  intros Hw Hrows HI [Hd2 Hu2] [D R [A Hdb] U].
  pose proof (interrupting_rows _ _ _ Hw Hrows HI) as Hrow.
  pose proof HI as [_ _ HA HK HE HU]. pose proof Hw as [[HS HG] Hf].
  assert (HJ3 : w3.(db).(jobs) = w1.(db).(jobs)) by by rewrite Hdb, Hd2.
  assert (HL3 : w3.(db).(resource_locks) = ∅) by by rewrite Hdb, Hd2.
  assert (HE3 : w3.(db).(job_events) = w1.(db).(job_events)) by by rewrite Hdb, Hd2.
  assert (HA2 : w2.(db).(audits) = w.(db).(audits)) by by rewrite Hd2.
  assert (HJ2 : w2.(db).(jobs) = w1.(db).(jobs)) by by rewrite Hd2.
  assert (Hsub : ∀ k, k ∈ remove_dups (job_audit_id <$> rows) → has_status w.(db).(jobs) k RUNNING).
  { intros k (j & -> & Hj)%elem_of_remove_dups%list_elem_of_fmap. rewrite Hrows in Hj.
    apply elem_of_running in Hj as [Hj Hr]; [|done]. by exists j.(job_id), j. }
  assert (Hdom : ∀ k, is_Some (w.(db).(audits) !! k) ↔ is_Some (w3.(db).(audits) !! k)).
  { intros k. destruct (decide (k ∈ remove_dups (job_audit_id <$> rows))) as [Hk|Hk].
    - destruct (D k Hk) as (a' & -> & _). split; [eauto|intros _].
      destruct (Hsub k Hk) as (k0 & j & Hj & <- & _). by eapply ok_job_audit.
    - by rewrite R, HA2. }
  assert (Hev : db_evolves w.(db) w3.(db)).
  { split.
    - intros k j Hj. rewrite HJ3. by apply Hrow.
    - intros k a Ha. apply Hdom. eauto.
    - by rewrite HE3. }
  split; [|done| |split; [split; [split|]|]].
  - intros k. rewrite HJ3. apply Hrow.
  - intros k r. rewrite Hdb, Hd2. simpl. rewrite lookup_fmap, fmap_Some.
    by intros (r0 & _ & ->).
  - rewrite HL3, HJ3. eapply store_ok_recover; [exact HS|apply Hrow| |by intros k ?%Hdom].
    intros k a' Ha'. destruct (decide (k ∈ remove_dups (job_audit_id <$> rows))) as [Hk|Hk].
    + destruct (D k Hk) as (a0 & Ha0 & Hid & Hst). rewrite Ha' in Ha0. injection Ha0 as <-.
      split; [done|]. right. rewrite Hid, Hst, HJ2. split.
      * destruct (Hsub k Hk) as (k0 & j & Hj & Haud & Hr).
        destruct (proj2 (Hrow k0) j Hj) as (j' & Hj' & Hjev).
        exists j'.(job_status), k0, j'. split_and!; try done.
        by rewrite (same_spec_audit _ _ (ev_spec _ _ Hjev)).
      * right. apply aggregates_statuses.
    + rewrite R, HA2 in Ha' by done. split; [by eapply ok_audit_key|].
      apply (audit_agrees_ext w.(db).(jobs) _ a'); try done; [|by eapply ok_audit].
      intros s. rewrite (ok_audit_key _ _ _ HS _ _ Ha').
      eapply untouched_statuses; [done|exact Hrows|exact HI|]. by rewrite elem_of_remove_dups in Hk.
  - intros g m _ Hm. rewrite HL3. unfold group_holders, group_locks.
    rewrite !map_filter_empty, map_size_empty. lia.
  - eapply ids_fresh_same; [done|lia| |].
    + intros k Hk. apply eq_None_not_Some. rewrite <- Hdom, Hk. by intros [].
    + intros k Hk. rewrite HJ3. destruct (Hrow k) as [Hr _]. by rewrite Hk in Hr.
  - done.
Qed.

Lemma wp_recover_running w (Q : outcome JobExc Z → World → Prop) :
  world_ok w →
  (∀ w', recovered w w' → Q (Return (Z.of_nat (length (running_jobs w.(db))))) w') →
  wp recover_running Q w.
Proof.
  intros Hw HQ. pose proof Hw as [[HS _] _].
  apply wp_bind, wp_select_rows. intros rows Hrows.
  apply wp_bind, wp_interrupt_loop; [done|exact Hrows|]. intros bs w1 HI.
  apply wp_bind, wp_on_db. intros w2 [Hd2 Hu2].
  apply wp_bind, wp_on_db. intros w3 [Hd3 Hu3].
  assert (Hw3 : store_after (fun d => d <| resource_locks := ∅ |> <| workers ::= fmap (fun k =>
      k <| worker_status := WK_STOPPED |> <| worker_current_job_id := None |>) |>) w1 w3).
  { split; [|congruence]. rewrite Hd3, Hd2. unfold update_field. simpl. f_equal.
    apply map_eq. intros k. rewrite lookup_empty. apply map_lookup_filter_None. by right. }
  assert (Hperm : scan (remove_dups (job_audit_id <$> rows)) ≡ₚ
                  remove_dups (job_audit_id <$> rows)) by apply scan_perm.
  apply wp_bind, wp_refresh_loop.
  - rewrite Hperm. apply NoDup_remove_dups.
  - intros k Hk. rewrite Hperm in Hk.
    apply elem_of_remove_dups, list_elem_of_fmap in Hk as (j & -> & Hj).
    rewrite Hrows in Hj. apply elem_of_running in Hj as [Hj Hr]; [|done].
    destruct (proj2 (interrupting_rows _ _ _ Hw Hrows HI j.(job_id)) j Hj) as (j' & Hj' & Hev).
    split.
    + exists j'.(job_status), j.(job_id), j'. rewrite Hd3, Hd2.
      split_and!; [done|apply (same_spec_audit _ _ (ev_spec _ _ Hev))|done].
    + destruct (ok_job_audit _ _ _ HS _ _ Hj) as [a Ha].
      pose proof (ok_audit_key _ _ _ HS _ _ Ha) as Hid. exists a. rewrite Hd3, Hd2. simpl.
      rewrite (it_audits _ _ _ HI). split_and!; [done|done|].
      eapply audit_agrees_running; [by eapply ok_audit|]. by exists j.(job_id), j.
  - intros bs2 w4 [D R A U]. apply wp_ret.
    rewrite (Permutation_length Hrows). apply HQ.
    eapply recovered_intro; [done|exact Hrows|exact HI|exact Hw3|].
    split; [intros k Hk; apply D; by rewrite Hperm|intros k Hk; apply R; by rewrite Hperm
           |done|done].
Qed.

Lemma recover_after_restart_spec w :
  world_ok w →
  wp recover_after_restart (fun r w' =>
    r = Return (Z.of_nat (length (running_jobs w.(db)))) ∧ recovered w w') w.
Proof. intros Hw. by apply wp_immediate_session, wp_recover_running. Qed.

(** *** Worker rows *)

(** Operations that only write the workers table. *)
Definition only_workers w w' : Prop :=
  ∃ W, w'.(db) = w.(db) <| workers := W |> ∧ w'.(uuids_drawn) = w.(uuids_drawn).

Lemma only_workers_good w w' : world_ok w → only_workers w w' → good w w'.
Proof. intros Hw (W & Hd & Hu). by apply (good_workers w w' (fun _ => W)). Qed.

Lemma wp_put_worker r Q w :
  (∀ w', store_after (fun d => d <| workers ::= insert r.(worker_id) r |>) w w' →
     Q (Return tt) w') → wp (put_worker r) Q w.
Proof. apply wp_on_db. Qed.

Lemma wp_start_worker_row wid now Q w :
  (∀ r k w', store_after (fun d => d <| workers ::= insert k r |>) w w' →
     r.(worker_status) = WK_STARTING → r.(worker_heartbeat_at) = now →
     Q (Return tt) w') → wp (start_worker_row wid now) Q w.
Proof.
  intros HQ. apply wp_bind, wp_reads. destruct (_ !! wid) as [r|];
    apply wp_put_worker; intros w' Hw'; by eapply HQ.
Qed.

Lemma register_worker_ok wid : step_ok (register_worker wid).
Proof.
  intros w Hw. apply wp_bind, wp_utc_now. intros t w1 [Hd1 Hu1].
  apply wp_immediate_session, wp_start_worker_row. intros r k w2 [Hd2 Hu2] _ _.
  apply (good_workers w w2 (insert k r)); [done|]. split; [by rewrite Hd2, Hd1|congruence].
Qed.

Lemma heartbeat_worker_ok wid s jid : step_ok (heartbeat_worker wid s jid).
Proof.
  apply step_ok_transaction. intros w Hw. apply wp_bind, wp_reads.
  destruct (_ !! wid) as [r|]; [|by apply wp_raise].
  apply wp_bind, wp_utc_now. intros t w1 [Hd1 Hu1]. apply wp_put_worker. intros w2 [Hd2 Hu2].
  set (r' := r <| worker_heartbeat_at := t |> <| worker_status := s |>
               <| worker_current_job_id := jid |>) in *.
  apply (good_workers w w2 (insert r'.(worker_id) r')); [done|].
  split; [rewrite Hd2, Hd1; reflexivity|congruence].
Qed.

(** Workers whose heartbeat is recent and which are not stopped. *)
Definition active_worker (cutoff : datetime) (r : WorkerModel) : Prop :=
  cutoff ≤ r.(worker_heartbeat_at) ∧ r.(worker_status) ≠ WK_STOPPED.

Lemma prepare_supervisor_spec wid stale w :
  world_ok w →
  wp (prepare_supervisor wid stale) (fun r w' => good w w' ∧
    let cutoff := clock w.(clock_reads) - seconds stale in
    match r with
    | Return n => n = Z.of_nat (length (running_jobs w.(db))) ∧
        (∀ k r, w.(db).(workers) !! k = Some r → ¬ active_worker cutoff r) ∧
        ∃ w1, recovered w w1 ∧ only_workers w1 w'
    | Raise e => e = WorkerAlreadyRunning ∧ w'.(db) = w.(db) ∧
        ∃ k r, w.(db).(workers) !! k = Some r ∧ active_worker cutoff r
    end) w.
Proof.
  intros Hw. apply wp_bind, wp_utc_now_clock.
  set (w1 := w <| clock_reads ::= S |>).
  assert (Hw1 : world_ok w1) by done.
  set (cutoff := clock w.(clock_reads) - seconds stale).
  assert (Hact : ∀ r, (cutoff <=? r.(worker_heartbeat_at)) &&
      bool_decide (r.(worker_status) ∈ [WK_STARTING; WK_IDLE; WK_RUNNING]) = true ↔
      active_worker cutoff r).
  { intros r. unfold active_worker. rewrite andb_true_iff, bool_decide_eq_true, Z.leb_le.
    destruct (worker_status r); set_solver. }
  apply wp_immediate_session, wp_bind, wp_select_rows. intros rows Hrows.
  destruct rows as [|r0 rest].
  - apply wp_bind, wp_recover_running; [done|]. intros w2 Hrec.
    apply wp_bind, wp_utc_now. intros t w3 [Hd3 Hu3].
    apply wp_bind, wp_start_worker_row. intros r k w4 [Hd4 Hu4] _ _. apply wp_ret.
    assert (Hrec' : recovered w w2) by (destruct Hrec; split; done).
    assert (Hw' : only_workers w2 w4).
    { exists (<[k:=r]> w2.(db).(workers)). split; [|congruence].
      rewrite Hd4, Hd3. reflexivity. }
    split; [|split_and!; [done| |eauto]].
    + eapply good_trans; [apply (rv_good _ _ Hrec')|].
      apply only_workers_good; [apply (rv_good _ _ Hrec')|done].
    + intros k0 r1 Hr1 Ha. apply Hact in Ha.
      assert (r1 ∈ @nil WorkerModel) as Hin; [|by apply elem_of_nil in Hin].
      rewrite Hrows. apply elem_of_selected. eauto.
  - apply wp_raise. intros w2 Hd2 Hu2. split; [by apply good_refl; [|rewrite Hd2|rewrite Hu2]|].
    split_and!; [done|by rewrite Hd2|].
    assert (r0 ∈ r0 :: rest) as Hin by constructor. rewrite Hrows in Hin.
    apply elem_of_selected in Hin as [[k Hk] Hb]. exists k, r0. split; [done|by apply Hact].
Qed.
End recovery.
