(* ===== verification/JobLifecycle.v ===== *)
(** * Retrying jobs and deleting audits

    [backend/recovery.py] (a new queued job in place of one that ended badly) and
    the transaction of [backend/audit_deletion.py] with the foreign-key cascades
    of the schema.  Removing the evidence files afterwards is file-system work
    and not modelled. *)

From S2P Require Import Prelude PyBase JobModels JobStore JobService JobInvariant JobServiceProofs.

Section lifecycle.
Context `{Runtime}.

(** ** [RecoveryService] *)

Definition RETRYABLE_STATES : list JobStatus := [FAILED; INTERRUPTED; CANCELLED].

(** Jobs whose credentials are gone once they have run. *)
Definition topology_job (type : string) : bool :=
  String.eqb type "snmp_topology" || String.eqb type "ssh_topology".

(** The new row a retry of [source] enqueues. *)
Definition retried_job (id : string) (now : datetime) (source : JobModel) : JobModel :=
  mkJob id source.(job_audit_id) source.(job_type) QUEUED source.(job_priority) now None None
    0 "queued" (Some ("Retry queued for " +:+ source.(job_id))) source.(job_target)
    source.(job_parameters) None None None None None None None false None 0
    source.(job_resource_key) source.(job_resource_group) source.(job_resource_limit).

Definition actor_value (actor : option string) : pyval :=
  match actor with Some a => PStr a | None => PNone end.

(** [RecoveryService.retry] *)
Definition retry (jid : string) (actor : option string) : M JobRecord :=
  id ← new_uuid;
  immediate_session (
    source ← require_job jid;
    (if bool_decide (source.(job_status) ∈ RETRYABLE_STATES) then mret tt
     else raise (RetryNotAllowed
       ("Only failed, interrupted, or cancelled jobs can be retried; job is "
          +:+ JobStatus_value source.(job_status))));;
    (if topology_job source.(job_type) then
       let name := if String.eqb source.(job_type) "snmp_topology" then "SNMP" else "SSH" in
       raise (RetryNotAllowed (name +:+ " topology jobs require fresh credentials; launch " +:+ name
         +:+ " topology enrichment again from the topology screen"))
     else mret tt);;
    active ← select_rows jobs (fun j =>
      String.eqb j.(job_audit_id) source.(job_audit_id) &&
      String.eqb j.(job_type) source.(job_type) &&
      bool_decide (j.(job_status) ∈ [QUEUED; RUNNING]));
    (match active with
     | _ :: _ =>
         raise (RetryNotAllowed "An equivalent job is already queued or running for this audit")
     | [] => mret tt
     end);;
    audit ← require_audit source.(job_audit_id);
    audit ← (if bool_decide (audit.(audit_status) = AUDIT_RUNNING) then mret audit
             else
               require_audit_transition audit.(audit_status) AUDIT_RUNNING;;
               mret (audit <| audit_status := AUDIT_RUNNING |> <| audit_finished_at := None |>
                           <| audit_error := None |>));
    now ← utc_now;
    let retried := retried_job id now source in
    insert_job retried;;
    started ← or_utc_now audit.(audit_started_at);
    put_audit (audit <| audit_started_at := Some started |>);;
    insert_event retried.(job_audit_id) retried.(job_id) "job_retried" (Some "queued") (Some 0)
      "Retry queued" [("retry_of", PStr source.(job_id)); ("actor", actor_value actor)];;
    insert_event source.(job_audit_id) source.(job_id) "retry_scheduled"
      (Some source.(job_stage)) (Some source.(job_progress)) "Replacement job queued"
      [("retry_job_id", PStr retried.(job_id)); ("actor", actor_value actor)]);;
  get_job id.

(** ** [AuditDeletionService] *)

(** What the cascades of the schema remove with an audit row: its jobs, events and
    artifacts, and the locks of its jobs; an artifact kept by another audit loses
    its reference to a deleted job. *)
Definition cascade_audit (aid : string) (d : DB) : DB :=
  let kept := filter (fun kv => String.eqb kv.2.(job_audit_id) aid = false) d.(jobs) in
  let gone (jid : string) := bool_decide (is_Some (d.(jobs) !! jid)) &&
                             bool_decide (kept !! jid = None) in
  d <| audits ::= delete aid |>
    <| jobs := kept |>
    <| job_events ::= List.filter (fun e =>
         negb (String.eqb e.(event_audit_id) aid) && negb (gone e.(event_job_id))) |>
    <| artifacts ::= fun arts =>
         (fun a => match a.(artifact_job_id) with
                   | Some jid => if gone jid then a <| artifact_job_id := None |> else a
                   | None => a
                   end) <$>
         filter (fun kv => String.eqb kv.2.(artifact_audit_id) aid = false) arts |>
    <| resource_locks ::= filter (fun kv => gone kv.2.(lock_job_id) = false) |>.

(** The transaction of [AuditDeletionService.delete]; the number of artifacts. *)
Definition delete_audit (aid : string) : M Z :=
  immediate_session (
    audit ← require_audit aid;
    active ← select_rows jobs (fun j =>
      String.eqb j.(job_audit_id) aid && bool_decide (j.(job_status) ∈ [QUEUED; RUNNING]));
    let active_jobs := Z.of_nat (length active) in
    (if negb (active_jobs =? 0) || bool_decide (audit.(audit_status) = AUDIT_RUNNING)
     then raise (AuditBusy aid active_jobs) else mret tt);;
    owned ← select_rows artifacts (fun a => String.eqb a.(artifact_audit_id) aid);
    on_db (cascade_audit aid);;
    mret (Z.of_nat (length owned))).

(** [MaintenanceService.prune_terminal_job_events] with the cutoff it computes. *)
Definition prune_terminal_job_events (retention_days : Z) : M Z :=
  now ← utc_now;
  let cutoff := now - seconds (86400 * retention_days) in
  session_begin (
    let expired (d : DB) (e : JobEventModel) :=
      (e.(event_created_at) <? cutoff) &&
      match d.(jobs) !! e.(event_job_id) with
      | Some j => terminal j.(job_status) &&
                  match j.(job_finished_at) with Some t => t <? cutoff | None => false end
      | None => false
      end in
    n ← reads (fun w => Z.of_nat (length (List.filter (expired w.(db)) w.(db).(job_events))));
    on_db (fun d => d <| job_events ::= List.filter (fun e => negb (expired d e)) |>);;
    mret n).
End lifecycle.

Section lifecycle_proofs.
Context {RT : Runtime} {RTOK : RuntimeOk}.
Implicit Types (w : World) (a : AuditModel) (j : JobModel) (l : ResourceLockModel).

(** ** A retry *)

(** Some other job of the same type waits or runs in the audit. *)
Definition equivalent_active w (source : JobModel) : Prop := ∃ k j,
  w.(db).(jobs) !! k = Some j ∧ j.(job_audit_id) = source.(job_audit_id) ∧
  j.(job_type) = source.(job_type) ∧ terminal j.(job_status) = false.

Definition retryable w (source : JobModel) : Prop :=
  source.(job_status) ∈ RETRYABLE_STATES ∧ topology_job source.(job_type) = false ∧
  ¬ equivalent_active w source.

(** The store after a retry: the source row stays, a fresh queued row has its
    request, and the audit is RUNNING again. *)
Record retried w w' (id : string) source : Prop := {
  rt_fresh : w.(db).(jobs) !! id = None;
  rt_jobs : ∃ now, w'.(db).(jobs) = <[id := retried_job id now source]> w.(db).(jobs);
  rt_audit : ∃ a a', w.(db).(audits) !! source.(job_audit_id) = Some a ∧
    w'.(db).(audits) = <[source.(job_audit_id) := a']> w.(db).(audits) ∧
    a'.(audit_id) = a.(audit_id) ∧ a'.(audit_status) = AUDIT_RUNNING ∧
    a'.(audit_summary) = a.(audit_summary);
  rt_locks : w'.(db).(resource_locks) = w.(db).(resource_locks)
}.

Lemma active_status s : bool_decide (s ∈ [QUEUED; RUNNING]) = true ↔ terminal s = false.
Proof. rewrite bool_decide_eq_true. destruct s; simpl; set_solver. Qed.

(** An audit with a finished job admits RUNNING, or has it. *)
Lemma audit_reopens J a s :
  audit_agrees J a → has_status J a.(audit_id) s → s ∈ RETRYABLE_STATES →
  a.(audit_status) = AUDIT_RUNNING ∨ audit_step a.(audit_status) AUDIT_RUNNING.
Proof.
  intros Hag Hs Hr. destruct Hag as [[Hno _]|[_ [[_ Hall]|(xs & Hl & <-)]]].
  - by destruct (Hno s).
  - specialize (Hall s Hs). subst. exfalso. revert Hr. by_decide.
  - unfold aggregate_status, audit_step. repeat case_match; auto; right; by_decide.
Qed.

Lemma wp_retry_tail w w1 source a (actor : option string) (Q : outcome JobExc unit → World → Prop) :
  world_ok w → w1.(db) = w.(db) → w1.(uuids_drawn) = S w.(uuids_drawn) →
  w.(db).(audits) !! source.(job_audit_id) = Some a →
  ∀ id a0, id = uuid4 w.(uuids_drawn) → a0.(audit_id) = a.(audit_id) →
  a0.(audit_status) = AUDIT_RUNNING → a0.(audit_summary) = a.(audit_summary) →
  (∀ w', good w w' → retried w w' id source → Q (Return tt) w') →
  wp (now ← utc_now;
      let retried := retried_job id now source in
      insert_job retried;;
      started ← or_utc_now a0.(audit_started_at);
      put_audit (a0 <| audit_started_at := Some started |>);;
      insert_event retried.(job_audit_id) retried.(job_id) "job_retried" (Some "queued") (Some 0)
        "Retry queued" [("retry_of", PStr source.(job_id)); ("actor", actor_value actor)];;
      insert_event source.(job_audit_id) source.(job_id) "retry_scheduled"
        (Some source.(job_stage)) (Some source.(job_progress)) "Replacement job queued"
        [("retry_job_id", PStr retried.(job_id)); ("actor", actor_value actor)]) Q w1.
Proof.
  intros Hw Hd1 Hu1 Ha id a0 -> Hida Hsta Hsum HQ. pose proof Hw as [[HS _] Hf].
  pose proof (ok_audit_key _ _ _ HS _ _ Ha) as Hk.
  destruct (Hf w.(uuids_drawn)) as [_ Hnew]; [lia|].
  apply wp_bind, wp_utc_now. intros now w2 [Hd2 Hu2]. set (j := retried_job _ now source).
  apply wp_bind, wp_insert_job; [by rewrite Hd2, Hd1|done|]. intros w3 [Hd3 Hu3].
  apply wp_bind, wp_or_utc_now. intros st w4 [Hd4 Hu4] _.
  set (a' := a0 <| audit_started_at := Some st |>).
  apply wp_bind, (wp_put_audit source.(job_audit_id)); [simpl; congruence|]. intros w5 [Hd5 Hu5].
  apply wp_bind, wp_insert_event. intros e1 w6 [Hd6 Hu6] _ _.
  apply wp_insert_event. intros e2 w7 [Hd7 Hu7] _ _.
  assert (Hdb : w7.(db) = w.(db) <| audits ::= insert source.(job_audit_id) a' |>
    <| jobs ::= insert j.(job_id) j |> <| job_events ::= fun es => es ++ [e1; e2] |>).
  { rewrite Hd7, Hd6, Hd5, Hd4, Hd3, Hd2, Hd1. unfold update_field. simpl.
    by rewrite <- (assoc_L (++)). }
  apply HQ.
  - eapply (good_new_job w w1 w7 j a a' [e1; e2]); try done; [by right|].
    split; [by rewrite Hdb, Hd1|congruence].
  - split; [done|exists now; by rewrite Hdb| |by rewrite Hdb].
    exists a, a'. rewrite Hdb. done.
Qed.

(** What a retry promises for each outcome. *)
Definition retry_result w (jid : string) (r : outcome JobExc JobRecord) w' : Prop :=
  match r with
  | Return rec => ∃ source, w.(db).(jobs) !! jid = Some source ∧ retryable w source ∧
      retried w w' rec.(rec_id) source ∧ rec.(rec_id) ≠ jid ∧ rec.(rec_status) = QUEUED
  | Raise e => w'.(db) = w.(db) ∧
      ∀ source, w.(db).(jobs) !! jid = Some source → ¬ retryable w source
  end.

(** The closing [get_job] of a retry. *)
Lemma wp_retry_get w w' jid id source :
  w.(db).(jobs) !! jid = Some source → retryable w source → good w w' →
  retried w w' id source →
  wp (get_job id) (fun r w2 => good w w2 ∧ retry_result w jid r w2) w'.
Proof.
  intros Hj Hr G R. destruct (rt_jobs _ _ _ _ R) as [now HJ].
  apply wp_bind, wp_require_job; rewrite HJ, lookup_insert_eq; [|done].
  intros j [= <-]. apply wp_job_record. intros r Hr1 Hr2 _ _. split; [done|].
  exists source. rewrite Hr1, Hr2. simpl. split_and!; try done.
  intros ->. rewrite (rt_fresh _ _ _ _ R) in Hj. done.
Qed.

(** A retry that is refused leaves the store as it was. *)
Lemma retry_refused w w1 jid e :
  world_ok w → w1.(uuids_drawn) = S w.(uuids_drawn) →
  (∀ source, w.(db).(jobs) !! jid = Some source → ¬ retryable w source) →
  ∀ w2, w2.(db) = w.(db) → w2.(uuids_drawn) = w1.(uuids_drawn) →
  good w w2 ∧ retry_result w jid (Raise e) w2.
Proof. intros Hw Hu1 Hno w2 Hd2 Hu2. split; [|done]. apply good_refl; [done|done|lia]. Qed.

Lemma elem_of_equivalent w source rows j :
  rows ≡ₚ List.filter (fun j => String.eqb j.(job_audit_id) source.(job_audit_id) &&
      String.eqb j.(job_type) source.(job_type) &&
      bool_decide (j.(job_status) ∈ [QUEUED; RUNNING])) (map_to_list w.(db).(jobs)).*2 →
  j ∈ rows ↔ (∃ k, w.(db).(jobs) !! k = Some j) ∧
    j.(job_audit_id) = source.(job_audit_id) ∧ j.(job_type) = source.(job_type) ∧
    terminal j.(job_status) = false.
Proof.
  intros ->. rewrite elem_of_selected, !andb_true_iff, active_status, !String.eqb_eq. naive_solver.
Qed.

Lemma retry_spec jid actor w :
  world_ok w → wp (retry jid actor) (fun r w' => good w w' ∧ retry_result w jid r w') w.
Proof.
  intros Hw. pose proof Hw as [[HS _] Hf]. apply wp_bind, wp_new_uuid. intros w1 Hd1 Hu1.
  pose proof (fun e Hno => retry_refused w w1 jid e Hw Hu1 Hno) as Hback.
  apply wp_bind, wp_immediate_session, wp_bind, wp_require_job; rewrite Hd1.
  2: { intros Hnone. apply Hback. intros source Hs. congruence. }
  intros source Hj. apply wp_bind. case_bool_decide as Hst.
  2: { apply wp_raise, Hback. intros s0 Hs0 [? _]. congruence. }
  apply wp_ret, wp_bind. destruct (topology_job source.(job_type)) eqn:Ht.
  { apply wp_raise, Hback. intros s0 Hs0 (_ & ? & _). congruence. }
  apply wp_ret, wp_bind, wp_select_rows. rewrite Hd1. intros rows Hrows.
  pose proof (fun j => elem_of_equivalent w source rows j Hrows) as Hact.
  apply wp_bind. destruct rows as [|j0 rows].
  2: { apply wp_raise, Hback. intros s0 Hs0 (_ & _ & Hno). apply Hno.
       rewrite Hj in Hs0. injection Hs0 as <-.
       destruct (proj1 (Hact j0)) as ([k Hk] & ?); [constructor|]. by exists k, j0. }
  assert (Hok : retryable w source).
  { split_and!; [done|done|]. intros (k & j & Hk & ?). apply (not_elem_of_nil j), Hact. eauto. }
  apply wp_ret, wp_bind, wp_require_audit; rewrite Hd1.
  2: { intros Hnone. destruct (ok_job_audit _ _ _ HS _ _ Hj). congruence. }
  intros a Ha. pose proof (ok_audit_key _ _ _ HS _ _ Ha) as Hk.
  pose proof (audit_reopens _ a source.(job_status) (ok_audit _ _ _ HS _ _ Ha)) as Hre.
  rewrite Hk in Hre. specialize (Hre ltac:(by exists jid, source) Hst).
  apply wp_bind. case_bool_decide as Hrun.
  - apply wp_ret, (wp_retry_tail w w1 source a); try done. intros w'. by apply wp_retry_get.
  - destruct Hre as [?|Hre]; [done|]. apply wp_bind, wp_require_audit_transition; [intros _|done].
    apply wp_ret, (wp_retry_tail w w1 source a); try done. intros w'. by apply wp_retry_get.
Qed.

(** ** Deleting an audit *)

Definition active_in w (aid : string) : Prop := ∃ k j, w.(db).(jobs) !! k = Some j ∧
  j.(job_audit_id) = aid ∧ terminal j.(job_status) = false.

Lemma lookup_kept (J : gmap string JobModel) aid k j :
  filter (fun kv => String.eqb kv.2.(job_audit_id) aid = false) J !! k = Some j ↔
  J !! k = Some j ∧ j.(job_audit_id) ≠ aid.
Proof. rewrite map_lookup_filter_Some. simpl. by rewrite String.eqb_neq. Qed.

(** The jobs that stay are those of other audits. *)
Lemma cascade_audits aid d k a :
  (cascade_audit aid d).(audits) !! k = Some a ↔ aid ≠ k ∧ d.(audits) !! k = Some a.
Proof. apply lookup_delete_Some. Qed.

Lemma cascade_jobs aid d k j :
  (cascade_audit aid d).(jobs) !! k = Some j ↔ d.(jobs) !! k = Some j ∧ j.(job_audit_id) ≠ aid.
Proof. apply lookup_kept. Qed.

(** The lock of a job that stays, stays. *)
Lemma cascade_locks aid d k l j :
  d.(jobs) !! l.(lock_job_id) = Some j → j.(job_audit_id) ≠ aid →
  (cascade_audit aid d).(resource_locks) !! k = Some l ↔ d.(resource_locks) !! k = Some l.
Proof.
  intros Hj Hne. unfold cascade_audit, update_field. simpl. rewrite map_lookup_filter_Some. simpl.
  split; [by intros [? _]|]. intros Hl. split; [done|]. apply andb_false_iff. right.
  apply bool_decide_eq_false. intros Hnone.
  assert (filter (fun kv : string * JobModel => String.eqb kv.2.(job_audit_id) aid = false)
            d.(jobs) !! l.(lock_job_id) = Some j) as H by by apply lookup_kept.
  congruence.
Qed.

Lemma cascade_locks_sub aid d : (cascade_audit aid d).(resource_locks) ⊆ d.(resource_locks).
Proof. apply map_filter_subseteq. Qed.

Lemma cascade_other_statuses aid d aid' s :
  aid' ≠ aid → has_status d.(jobs) aid' s ↔ has_status (cascade_audit aid d).(jobs) aid' s.
Proof.
  intros Hne. split; intros (k & j & Hj & <- & Hs); exists k, j.
  - by rewrite cascade_jobs.
  - apply cascade_jobs in Hj as [Hj _]. done.
Qed.

(** Deleting an audit without active jobs preserves the invariant. *)
Lemma cascade_store_ok aid d :
  store_ok d.(audits) d.(jobs) d.(resource_locks) →
  (∀ k j, d.(jobs) !! k = Some j → j.(job_audit_id) = aid → terminal j.(job_status) = true) →
  let d' := cascade_audit aid d in store_ok d'.(audits) d'.(jobs) d'.(resource_locks).
Proof.
  intros [HA HJ HF HC HT HL HR HG] Hterm d'.
  assert (Hother : ∀ k l, d.(resource_locks) !! k = Some l → ∃ j,
      d.(jobs) !! l.(lock_job_id) = Some j ∧ j.(job_audit_id) ≠ aid).
  { intros k l Hl. destruct (HL _ _ Hl) as (j & Hj & Hr & _). exists j. split; [done|].
    intros Haud. specialize (Hterm _ _ Hj Haud). by rewrite Hr in Hterm. }
  split.
  - intros k a [_ H]%cascade_audits. eauto.
  - intros k j [H _]%cascade_jobs. eauto.
  - intros k j [H Hne]%cascade_jobs. destruct (HF _ _ H) as [a Ha]. exists a.
    by apply cascade_audits.
  - intros k j [H _]%cascade_jobs. eauto.
  - intros k j [H _]%cascade_jobs. eauto.
  - intros k l H. eapply lookup_weaken in H; [|apply cascade_locks_sub].
    destruct (HL _ _ H) as (j & Hj & Hrest), (Hother _ _ H) as (j' & Hj' & Hne).
    rewrite Hj in Hj'. injection Hj' as <-. exists j. split; [by apply cascade_jobs|done].
  - intros k j [H Hne]%cascade_jobs Hr Hn. destruct (HR _ _ H Hr Hn) as (l & Hl & <-).
    exists l. split; [|done]. by eapply cascade_locks.
  - intros k a [Hne H]%cascade_audits.
    apply (audit_agrees_ext d.(jobs) _ a); [done|done| |by eapply HG].
    intros s. rewrite (HA _ _ H). by apply cascade_other_statuses.
Qed.

(** An audit that is RUNNING has a job that waits or runs. *)
Lemma running_has_active w k a :
  world_ok w → w.(db).(audits) !! k = Some a → a.(audit_status) = AUDIT_RUNNING → active_in w k.
Proof.
  intros [[HS _] _] Ha Hr. pose proof (ok_audit _ _ _ HS _ _ Ha) as Hag.
  unfold audit_agrees in Hag. rewrite Hr, (ok_audit_key _ _ _ HS _ _ Ha) in Hag.
  destruct Hag as [[_ H]|[_ [[? _]|(xs & Hl & Hx)]]]; [exfalso; revert H; by_decide|done|].
  unfold aggregate_status in Hx. destruct (existsb _ xs) eqn:He; [|repeat case_match; discriminate].
  apply existsb_elem_of in He as (s & Hs & He). apply active_status in He.
  apply Hl in Hs as (i & j & Hj & ? & <-). by exists i, j.
Qed.

Lemma cascade_world_ok w w1 aid :
  world_ok w → ¬ active_in w aid → store_after (cascade_audit aid) w w1 → world_ok w1.
Proof.
  intros [[HS HG] Hf] Hno [Hd Hu]. split; [split|]; rewrite ?Hd.
  - apply cascade_store_ok; [done|]. intros k j Hj Haud.
    destruct (terminal _) eqn:Ht; [done|]. destruct Hno. by exists k, j.
  - eapply groups_ok_mono; [exact HG| |apply cascade_locks_sub].
    intros k l Hl. eapply lookup_weaken in Hl; [|apply cascade_locks_sub].
    destruct (ok_lock_job _ _ _ HS _ _ Hl) as (j & Hj & Hr & _). unfold limit_of.
    rewrite Hj. assert ((cascade_audit aid w.(db)).(jobs) !! l.(lock_job_id) = Some j) as ->; [|done].
    apply cascade_jobs. split; [done|]. intros Haud. apply Hno. exists l.(lock_job_id), j.
    by rewrite Hr.
  - intros n Hn. rewrite Hd. destruct (Hf n) as [HA HJ]; [lia|].
    split; apply eq_None_not_Some; intros [r Hr].
    + apply cascade_audits in Hr as [_ Hr]. congruence.
    + apply cascade_jobs in Hr as [Hr _]. congruence.
Qed.

(** What deleting an audit does, for each outcome. *)
Definition delete_result w (aid : string) (r : outcome JobExc Z) w' : Prop :=
  match r with
  | Return _ => is_Some (w.(db).(audits) !! aid) ∧ ¬ active_in w aid ∧
      w'.(db) = cascade_audit aid w.(db)
  | Raise e => w'.(db) = w.(db) ∧
      (e = EntityNotFound "Audit" aid ∧ w.(db).(audits) !! aid = None ∨
       active_in w aid ∧ ∃ n, e = AuditBusy aid n ∧ 0 < n)
  end.

Lemma delete_audit_spec aid w :
  world_ok w → wp (delete_audit aid) (fun r w' => world_ok w' ∧ delete_result w aid r w') w.
Proof.
  intros Hw. pose proof Hw as [[HS HG] Hf].
  assert (Hback : ∀ w2, w2.(db) = w.(db) → w2.(uuids_drawn) = w.(uuids_drawn) → world_ok w2).
  { intros w2 Hd Hu. unfold world_ok, ids_fresh. by rewrite Hd, Hu. }
  apply wp_immediate_session, wp_bind, wp_require_audit.
  2: { intros Hnone w2 Hd Hu. split; [by apply Hback|]. split; [done|by left]. }
  intros a Ha. apply wp_bind, wp_select_rows. intros rows Hrows.
  assert (Hact : ∀ j, j ∈ rows ↔ (∃ k, w.(db).(jobs) !! k = Some j) ∧
      j.(job_audit_id) = aid ∧ terminal j.(job_status) = false).
  { intros j. rewrite Hrows, elem_of_selected, andb_true_iff, active_status, String.eqb_eq.
    naive_solver. }
  apply wp_bind. destruct rows as [|j0 rows].
  - assert (Hno : ¬ active_in w aid).
    { intros (k & j & Hj & ?). apply (not_elem_of_nil j), Hact. eauto. }
    rewrite (bool_decide_false (a.(audit_status) = AUDIT_RUNNING))
      by (intros Hr; by apply Hno, (running_has_active w aid a)).
    apply wp_ret, wp_bind, wp_select_rows. intros arts _. apply wp_bind, wp_on_db.
    intros w1 Hw1. apply wp_ret. split; [by eapply cascade_world_ok|].
    split_and!; [eauto|done|apply Hw1].
  - rewrite orb_true_intro by (left; done). apply wp_raise. intros w2 Hd Hu.
    split; [by apply Hback|]. split; [done|]. right. split.
    + destruct (proj1 (Hact j0)) as ([k Hj] & ?); [constructor|]. by exists k, j0.
    + eexists. split; [done|]. simpl. lia.
Qed.
End lifecycle_proofs.
