(* ===== verification/JobSystem.v ===== *)
(** * The job system as a transition system

    Calls of the API, the workers and maintenance, each one atomic as SQLite
    serialises it, from an empty database; what every reachable store satisfies
    and how rows evolve along a history. *)

From S2P Require Import Prelude PyBase JobModels JobStore JobService JobInvariant JobServiceProofs JobClaimProofs JobLifecycle.

Section system.
Context {RT : Runtime}.

(** ** Calls *)

Inductive call : Type :=
  | CreateAudit (profile : string) (interface : option string) (scope : option dict)
      (actor : option string)
  | SetEnvironmentReference (aid artifact : string)
  | FailAudit (aid : string) (error : JobError)
  | CreateJob (aid type : string) (target : option string) (parameters : option dict)
      (priority : Z) (key group : option string) (limit : option Z)
  | RequestCancel (jid : string)
  | ClaimNext (wid : string)
  | UpdateProgress (jid : string) (p : JobProgress)
  | CompleteJob (jid : string) (result : option string) (summary : option dict)
  | FailJob (jid : string) (error : JobError)
  | CancelRunningJob (jid message : string) (result : option string) (summary : option dict)
  | RecoverAfterRestart
  | PrepareSupervisor (wid : string) (stale_after : Z)
  | RegisterWorker (wid : string)
  | HeartbeatWorker (wid : string) (status : WorkerStatus) (current : option string)
  | Retry (jid : string) (actor : option string)
  | DeleteAudit (aid : string)
  | PruneEvents (retention_days : Z).

(** The world a call leaves, whether it returned or raised. *)
Definition run (c : call) (w : World) : World :=
  match c with
  | CreateAudit p i s a => (create_audit p i s a w).2
  | SetEnvironmentReference aid art => (set_environment_reference aid art w).2
  | FailAudit aid e => (fail_audit aid e w).2
  | CreateJob aid ty tgt ps prio k g l => (create_job aid ty tgt ps prio k g l w).2
  | RequestCancel jid => (request_cancel jid w).2
  | ClaimNext wid => (claim_next wid w).2
  | UpdateProgress jid p => (update_progress jid p w).2
  | CompleteJob jid r s => (complete_job jid r s w).2
  | FailJob jid e => (fail_job jid e w).2
  | CancelRunningJob jid m r s => (cancel_running_job jid m r s w).2
  | RecoverAfterRestart => (recover_after_restart w).2
  | PrepareSupervisor wid n => (prepare_supervisor wid n w).2
  | RegisterWorker wid => (register_worker wid w).2
  | HeartbeatWorker wid s c => (heartbeat_worker wid s c w).2
  | Retry jid a => (retry jid a w).2
  | DeleteAudit aid => (delete_audit aid w).2
  | PruneEvents n => (prune_terminal_job_events n w).2
  end.

(** When the callers make a call: [fail_audit] is the error path of the request
    that created the audit, before any job; progress reports are validated by
    pydantic. *)
Definition allowed (c : call) (w : World) : Prop :=
  match c with
  | FailAudit aid _ => ∀ s, ¬ has_status w.(db).(jobs) aid s
  | UpdateProgress _ p => JobProgress_valid p = true
  | _ => True
  end.

(** Calls that remove rows. *)
Definition removes (c : call) : bool :=
  match c with DeleteAudit _ | PruneEvents _ => true | _ => false end.

Inductive step (w : World) : World → Prop :=
  | step_call c : allowed c w → step w (run c w).

Inductive keeping_step (w : World) : World → Prop :=
  | keeping_call c : allowed c w → removes c = false → keeping_step w (run c w).

Definition init_world : World := mkWorld empty_db 0 0.

Definition reachable : World → Prop := rtc step init_world.

(** A world after a list of calls (for concrete histories). *)
Fixpoint run_all (cs : list call) (w : World) : World :=
  match cs with
  | [] => w
  | c :: cs' => run_all cs' (run c w)
  end.

Fixpoint all_allowed (cs : list call) (w : World) : Prop :=
  match cs with
  | [] => True
  | c :: cs' => allowed c w ∧ all_allowed cs' (run c w)
  end.

Lemma run_all_reachable cs w : reachable w → all_allowed cs w → reachable (run_all cs w).
Proof.
  revert w. induction cs as [|c cs IH]; intros w Hr Ha; [done|].
  destruct Ha as [Hc Ha]. apply IH; [|done]. eapply rtc_r; [done|by constructor].
Qed.

Lemma run_all_keeping cs w :
  all_allowed cs w → forallb (fun c => negb (removes c)) cs = true →
  rtc keeping_step w (run_all cs w).
Proof.
  revert w. induction cs as [|c cs IH]; intros w Ha Hr; simpl in *; [constructor|].
  destruct Ha as [Hc Ha]. apply andb_true_iff in Hr as [Hk Hr].
  eapply rtc_l; [apply keeping_call; [done|by apply negb_true_iff]|]. by apply IH.
Qed.

Lemma run_all_app cs1 cs2 w : run_all (cs1 ++ cs2) w = run_all cs2 (run_all cs1 w).
Proof. revert w. induction cs1 as [|c cs1 IH]; intros w; simpl; auto. Qed.

(** ** The invariant *)

Context {RTOK : RuntimeOk}.

Lemma init_world_ok : world_ok init_world.
Proof.
  split; [split|].
  - split; intros k x H; simpl in H; by rewrite lookup_empty in H.
  - intros g m _ Hm. unfold group_holders, group_locks. simpl.
    rewrite !map_filter_empty, map_size_empty. lia.
  - by intros n _.
Qed.

Lemma prune_world_ok n w : world_ok w → world_ok (prune_terminal_job_events n w).2.
Proof. done. Qed.

Lemma wp_snd {A} (m : M A) (Q : World → Prop) w : wp m (fun _ w' => Q w') w → Q (m w).2.
Proof. done. Qed.

Lemma keeping_call_good c w : allowed c w → removes c = false → world_ok w → good w (run c w).
Proof.
  intros Ha Hrem Hw. destruct c; simpl in *; try discriminate; apply wp_snd.
  - by apply create_audit_ok.
  - by apply set_environment_reference_ok.
  - by apply fail_audit_ok.
  - by apply create_job_ok.
  - eapply wp_mono; [by apply request_cancel_spec|]. by intros ?? [? _].
  - eapply wp_mono; [by apply claim_next_spec|]. by intros ?? [? _].
  - by apply update_progress_ok.
  - eapply finishes_step_ok; [apply complete_job_finishes|done].
  - eapply finishes_step_ok; [apply fail_job_finishes|done].
  - eapply finishes_step_ok; [apply cancel_running_job_finishes|done].
  - eapply wp_mono; [by apply recover_after_restart_spec|]. intros ?? [_ H]. apply (rv_good _ _ H).
  - eapply wp_mono; [by apply prepare_supervisor_spec|]. by intros ?? [? _].
  - by apply register_worker_ok.
  - by apply heartbeat_worker_ok.
  - eapply wp_mono; [by apply retry_spec|]. by intros ?? [? _].
Qed.

Lemma call_world_ok c w : allowed c w → world_ok w → world_ok (run c w).
Proof.
  intros Ha Hw. destruct (removes c) eqn:Hrem; [|by apply keeping_call_good].
  destruct c; try discriminate; simpl.
  - eapply wp_snd, wp_mono; [by apply delete_audit_spec|]. by intros ?? [? _].
  - by apply prune_world_ok.
Qed.

Lemma reachable_world_ok w : reachable w → world_ok w.
Proof.
  unfold reachable. intros Hr. apply (rtc_ind_r (R := step) (fun w => world_ok w) init_world);
    [apply init_world_ok| |done].
  intros y z _ [c Hc] Hy. by apply call_world_ok.
Qed.

Lemma keeping_world_ok w w' : rtc keeping_step w w' → world_ok w → good w w'.
Proof.
  induction 1 as [w|w w1 w' [c Ha Hrem] _ IH]; intros Hw.
  - by apply good_refl.
  - pose proof (keeping_call_good c w Ha Hrem Hw) as G. eapply good_trans; [exact G|].
    apply IH, G.
Qed.
End system.

(** ** A concrete runtime for worked instances: a counting clock and unary ids *)

Fixpoint unary (n : nat) : string :=
  match n with O => EmptyString | S n => String "1" (unary n) end.

#[export] Instance demo_runtime : Runtime :=
  {| clock := Z.of_nat; uuid4 := unary; scan := fun _ l => l |}.

#[export] Instance demo_runtime_ok : RuntimeOk.
Proof.
  split; [|done]. intros n m. revert m.
  induction n as [|n IH]; intros [|m] H; simpl in H; simplify_eq; auto.
Qed.
