(* ===== verification/JobWorker.v ===== *)
(** * The handler registry and the worker ([jobs/registry.py], [jobs/worker.py])

    A handler is code of its own (packet capture, scanning, reporting): it is a
    parameter, a program over the same world that reports progress through the
    context it is given.  What the worker relies on is that, while a handler
    runs, nothing finishes the job: whatever else happens in the meantime is part
    of the handler's effect. *)

From S2P Require Import Prelude PyBase JobModels JobStore JobService JobInvariant JobServiceProofs JobClaimProofs.

Record HandlerResult : Type := mkResult {
  result_reference : option string;
  result_summary : dict
}.

(** [HandlerContext], less the settings and the evidence store. *)
Record HandlerContext : Type := mkContext {
  context_audit : AuditModel;
  context_job : JobRecord;
  report_progress : JobProgress → M JobRecord
}.

Abbreviation JobHandler := (HandlerContext → M HandlerResult).

(** ** [HandlerRegistry]: handlers by job type, in registration order *)

Definition HandlerRegistry : Type := list (string * JobHandler).

Fixpoint find_handler (registry : HandlerRegistry) (job_type : string) : option JobHandler :=
  match registry with
  | [] => None
  | (t, h) :: rest => if String.eqb t job_type then Some h else find_handler rest job_type
  end.

Definition register (job_type : string) (handler : JobHandler) (registry : HandlerRegistry)
    : outcome JobExc HandlerRegistry :=
  match find_handler registry job_type with
  | Some _ => Raise (ValueError ("Handler already registered: " +:+ job_type))
  | None => Return (registry ++ [(job_type, handler)])
  end.

Definition resolve (registry : HandlerRegistry) (job_type : string) : M JobHandler :=
  match find_handler registry job_type with
  | Some h => mret h
  | None => raise (LookupError ("No handler registered for job type: " +:+ job_type))
  end.

Definition job_types (registry : HandlerRegistry) : list string :=
  sort_by str_le (fst <$> registry).

(** [finally]: the clean-up runs on every path; its own exception wins. *)
Definition finally {A} (body : M A) (cleanup : M unit) : M A := fun w =>
  match body w with
  | (r, w') => match cleanup w' with
               | (Return _, w2) => (r, w2)
               | (Raise e, w2) => (Raise e, w2)
               end
  end.

(** [type(exc).__name__] *)
Definition exception_type (e : JobExc) : string :=
  match e with
  | EntityNotFound _ _ => "EntityNotFound"
  | InvalidJobTransition _ _ | InvalidAuditTransition _ _ _ => "InvalidTransition"
  | ValueError _ => "ValueError"
  | LookupError _ => "LookupError"
  | WorkerAlreadyRunning => "WorkerAlreadyRunning"
  | RetryNotAllowed _ => "RetryNotAllowed"
  | AuditBusy _ _ => "AuditBusy"
  | JobExecutionError _ => "JobExecutionError"
  | JobCancelled _ _ _ => "JobCancelled"
  | IntegrityError _ => "IntegrityError"
  | OtherException name => name
  end.

Definition unhandled_error (e : JobExc) : JobError :=
  mkJobError "unhandled_exception" INTERNAL "Job failed due to an internal error" "job_worker"
    false [("exception_type", PStr (exception_type e))].

(** Default message of [cancel_running_job]. *)
Definition cancelled_message : string := "Job cancelled".

Section worker.
Context {RT : Runtime}.

(** ** [JobWorker._execute] *)

(** The end of the [try] block: complete, or cancel when asked to meanwhile. *)
Definition finish_result (token : bool) (jid : string) (result : HandlerResult) : M JobRecord :=
  current ← get_job jid;
  if token || current.(rec_cancel_requested) then
    cancel_running_job jid cancelled_message result.(result_reference)
      (Some result.(result_summary))
  else complete_job jid result.(result_reference) (Some result.(result_summary)).

(** The [except] clauses. *)
Definition finish_exception (token : bool) (jid : string) (e : JobExc) : M JobRecord :=
  let fail (error : JobError) :=
    current ← get_job jid;
    if token || current.(rec_cancel_requested)
    then cancel_running_job jid cancelled_message None None
    else fail_job jid error in
  match e with
  | JobCancelled message reference summary =>
      cancel_running_job jid message reference (Some summary)
  | JobExecutionError error => fail error
  | _ => fail (unhandled_error e)
  end.

(** [JobWorker._execute]; [token] is the cancellation token as the worker reads it
    after the handler, which the monitor thread may have set. *)
Definition execute (wid : string) (registry : HandlerRegistry) (token : bool)
    (j : JobRecord) (audit : AuditModel) : M unit :=
  let jid := j.(rec_id) in
  heartbeat_worker wid WK_RUNNING (Some jid);;
  finally
    (try_except
       (handler ← resolve registry j.(rec_type);
        result ← handler (mkContext audit j (fun p => update_progress jid p));
        finish_result token jid result)
       (finish_exception token jid))
    (heartbeat_worker wid WK_IDLE None);;
  get_job jid;;
  mret tt.

(** [JobWorker.startup] *)
Definition startup (wid : string) : M unit :=
  register_worker wid;;
  heartbeat_worker wid WK_IDLE None.

(** [JobWorker.run_once] *)
Definition run_once (wid : string) (registry : HandlerRegistry) (registered token : bool)
    : M bool :=
  (if registered then mret tt else startup wid);;
  heartbeat_worker wid WK_IDLE None;;
  claimed ← claim_next wid;
  match claimed with
  | None => mret false
  | Some j =>
      audit ← get_audit j.(rec_audit_id);
      execute wid registry token j audit;;
      mret true
  end.

(** ** What the worker promises *)

(** How the handler ran: [resolve] may already have failed. *)
Definition handler_run (registry : HandlerRegistry) (ctx : HandlerContext) (w : World)
    : outcome JobExc HandlerResult * World :=
  (handler ← resolve registry ctx.(context_job).(rec_type); handler ctx) w.

(** The status a job ends in. *)
Definition ending (token cancel : bool) (r : outcome JobExc HandlerResult) : JobStatus :=
  match r with
  | Return _ => if token || cancel then CANCELLED else COMPLETED
  | Raise (JobCancelled _ _ _) => CANCELLED
  | Raise _ => if token || cancel then CANCELLED else FAILED
  end.

Context {RTOK : RuntimeOk}.
Implicit Types (w : World) (j : JobModel) (l : ResourceLockModel).

(** Job [jid] runs and worker [wid] is known. *)
Definition running_job w (jid wid : string) j : Prop :=
  world_ok w ∧ w.(db).(jobs) !! jid = Some j ∧ j.(job_status) = RUNNING ∧
  is_Some (w.(db).(workers) !! wid).

(** Job [jid] has ended with status [s]: it is terminal and holds no lock. *)
Definition ended w (jid wid : string) (s : JobStatus) : Prop :=
  world_ok w ∧ is_Some (w.(db).(workers) !! wid) ∧
  (∃ j, w.(db).(jobs) !! jid = Some j ∧ j.(job_status) = s) ∧
  ∀ k l, w.(db).(resource_locks) !! k = Some l → l.(lock_job_id) ≠ jid.

Lemma wp_get_job_row jid j Q w :
  w.(db).(jobs) !! jid = Some j →
  (∀ r, r.(rec_cancel_requested) = j.(job_cancel_requested) → Q (Return r) w) →
  wp (get_job jid) Q w.
Proof.
  intros Hj HQ. apply wp_bind, wp_require_job; [|congruence].
  intros j0 Hj0. rewrite Hj in Hj0. injection Hj0 as <-.
  apply wp_bind. unfold job_updated_at. apply wp_bind, wp_reads, wp_ret, wp_ret. by apply HQ.
Qed.

Lemma wp_finishing {A} (m : M A) jid wid desired R j Q w :
  finishes m jid desired R → running_job w jid wid j →
  (∀ x w', ended w' jid wid desired → Q (Return x) w') → wp m Q w.
Proof.
  intros Hm (Hw & Hj & Hr & Hwk) HQ. eapply wp_mono; [by apply Hm|].
  intros [x|e] w' [[Hw' _] H]; [|by destruct H as [_ H]; destruct (H j)].
  apply HQ. destruct H as (j0 & j' & Hj0 & _ & F & Hs & _).
  pose proof (job_row_id _ _ _ Hw Hj0) as Hid. split_and!; [done|by rewrite (fin_workers _ _ _ _ F)| |].
  - exists j'. by rewrite (fin_jobs _ _ _ _ F), Hid, lookup_insert_eq.
  - intros k l [_ Hne]%(fin_locks _ _ _ _ F). congruence.
Qed.

Lemma wp_finish_result token jid wid result j Q w :
  running_job w jid wid j →
  (∀ x w', ended w' jid wid (ending token j.(job_cancel_requested) (Return result)) →
     Q (Return x) w') →
  wp (finish_result token jid result) Q w.
Proof.
  intros Hrun HQ. apply wp_bind, (wp_get_job_row _ j); [apply Hrun|]. intros r ->.
  simpl in HQ. destruct (token || job_cancel_requested j).
  - eapply wp_finishing; [apply cancel_running_job_finishes|exact Hrun|exact HQ].
  - eapply wp_finishing; [apply complete_job_finishes|exact Hrun|exact HQ].
Qed.

Lemma wp_finish_exception token jid wid e j Q w :
  running_job w jid wid j →
  (∀ x w', ended w' jid wid (ending token j.(job_cancel_requested) (Raise e)) →
     Q (Return x) w') →
  wp (finish_exception token jid e) Q w.
Proof.
  intros Hrun HQ.
  assert (Hfail : ∀ error,
    (∀ x w', ended w' jid wid (if token || j.(job_cancel_requested) then CANCELLED else FAILED) →
       Q (Return x) w') →
    wp (current ← get_job jid;
        if token || current.(rec_cancel_requested)
        then cancel_running_job jid cancelled_message None None
        else fail_job jid error) Q w).
  { intros error HQ'. apply wp_bind, (wp_get_job_row _ j); [apply Hrun|]. intros r ->.
    destruct (token || job_cancel_requested j).
    - eapply wp_finishing; [apply cancel_running_job_finishes|exact Hrun|exact HQ'].
    - eapply wp_finishing; [apply fail_job_finishes|exact Hrun|exact HQ']. }
  destruct e; simpl in HQ; try (apply Hfail, HQ).
  eapply wp_finishing; [apply cancel_running_job_finishes|exact Hrun|exact HQ].
Qed.

Lemma wp_heartbeat wid s c Q w :
  world_ok w → is_Some (w.(db).(workers) !! wid) →
  (∀ w', only_workers w w' → is_Some (w'.(db).(workers) !! wid) → Q (Return tt) w') →
  wp (heartbeat_worker wid s c) Q w.
Proof.
  intros Hw [r Hr] HQ. apply wp_immediate_session, wp_bind, wp_reads. rewrite Hr.
  apply wp_bind, wp_utc_now. intros t w1 [Hd1 Hu1]. apply wp_put_worker. intros w2 [Hd2 Hu2].
  apply HQ.
  - eexists. split; [rewrite Hd2, Hd1; reflexivity|congruence].
  - rewrite Hd2. simpl. rewrite Hd1. destruct (decide (r.(worker_id) = wid)) as [->|].
    + rewrite lookup_insert_eq. eauto.
    + rewrite lookup_insert_ne by done. eauto.
Qed.

Lemma wp_finally {A} (body : M A) cleanup (Q : outcome JobExc A → World → Prop) w :
  wp body (fun r w' => wp cleanup (fun c w2 => match c with
      | Return _ => Q r w2
      | Raise e => Q (Raise e) w2
      end) w') w →
  wp (finally body cleanup) Q w.
Proof.
  unfold wp, finally. destruct (body w) as [r w']; simpl.
  destruct (cleanup w') as [[|e] w2]; simpl; auto.
Qed.

(** What is asked of a handler: it leaves the job running. *)
Definition handler_keeps (registry : HandlerRegistry) (ctx : HandlerContext) (jid wid : string)
    : Prop := ∀ w j, running_job w jid wid j → ∃ j', running_job (handler_run registry ctx w).2 jid wid j'.

(** The guarded body of [execute]. *)
Lemma wp_execute_body wid registry token ctx j Q w :
  let jid := ctx.(context_job).(rec_id) in
  handler_keeps registry ctx jid wid → running_job w jid wid j →
  (∀ x w', (∃ j2, (handler_run registry ctx w).2.(db).(jobs) !! jid = Some j2 ∧
     ended w' jid wid (ending token j2.(job_cancel_requested) (handler_run registry ctx w).1)) →
     Q (Return x) w') →
  wp (try_except (handler ← resolve registry ctx.(context_job).(rec_type);
                  result ← handler ctx;
                  finish_result token jid result)
        (finish_exception token jid)) Q w.
Proof.
  intros jid Hkeep Hrun HQ. destruct (Hkeep w j Hrun) as [j2 Hrun2].
  assert (Hj2 := proj1 (proj2 Hrun2)). apply wp_try.
  enough (Hgo : wp (result ← (handler ← resolve registry ctx.(context_job).(rec_type); handler ctx);
                    finish_result token jid result)
    (fun r w' => match r with
                 | Return x => Q (Return x) w'
                 | Raise e => wp (finish_exception token jid e) Q w'
                 end) w).
  { unfold wp in Hgo |- *. by rewrite bind_assoc in Hgo. }
  apply wp_bind. unfold wp at 1. fold (handler_run registry ctx w).
  destruct (handler_run registry ctx w) as [[result|e] w2] eqn:Hh; simpl in *.
  - eapply wp_finish_result; [exact Hrun2|]. intros x w' He. apply HQ. eauto.
  - eapply wp_finish_exception; [exact Hrun2|]. intros x w' He. apply HQ. eauto.
Qed.

(** Writing worker rows only, as a heartbeat does, changes neither. *)
Lemma running_only_workers w w' jid wid j :
  only_workers w w' → is_Some (w'.(db).(workers) !! wid) → running_job w jid wid j →
  running_job w' jid wid j.
Proof.
  intros Ho Hwk (Hw & Hj & Hr & _). pose proof (only_workers_good _ _ Hw Ho) as [Hw' _].
  destruct Ho as (W & Hd & _). split_and!; try done. by rewrite Hd.
Qed.

Lemma ended_only_workers w w' jid wid s :
  only_workers w w' → is_Some (w'.(db).(workers) !! wid) → ended w jid wid s →
  ended w' jid wid s.
Proof.
  intros Ho Hwk (Hw & _ & Hj & HL). pose proof (only_workers_good _ _ Hw Ho) as [Hw' _].
  destruct Ho as (W & Hd & _). split_and!; try done; by rewrite Hd.
Qed.

Lemma heartbeat_run wid s c w :
  world_ok w → is_Some (w.(db).(workers) !! wid) →
  let w' := (heartbeat_worker wid s c w).2 in
  (heartbeat_worker wid s c w).1 = Return tt ∧ only_workers w w' ∧
  is_Some (w'.(db).(workers) !! wid).
Proof. intros Hw Hwk. by apply wp_heartbeat. Qed.

Lemma wp_execute wid registry token jr audit j Q w :
  let jid := jr.(rec_id) in
  let ctx := mkContext audit jr (fun p => update_progress jid p) in
  let ran := handler_run registry ctx (heartbeat_worker wid WK_RUNNING (Some jid) w).2 in
  handler_keeps registry ctx jid wid → running_job w jid wid j →
  (∀ w' j2, ran.2.(db).(jobs) !! jid = Some j2 →
     ended w' jid wid (ending token j2.(job_cancel_requested) ran.1) → Q (Return tt) w') →
  wp (execute wid registry token jr audit) Q w.
Proof.
  intros jid ctx ran Hkeep Hrun HQ.
  destruct (heartbeat_run wid WK_RUNNING (Some jid) w) as (Hh & Ho & Hwk); [apply Hrun..|].
  unfold execute. fold jid. apply wp_bind. unfold wp at 1. rewrite Hh.
  apply wp_bind, wp_finally. change (rec_type jr) with (rec_type (context_job ctx)).
  eapply wp_execute_body; [exact Hkeep|by eapply running_only_workers|].
  intros x w2 (j2 & Hj2 & He). pose proof He as (Hw2 & Hwk2 & _).
  apply wp_heartbeat; [done|done|]. intros w3 Ho3 Hwk3.
  pose proof (ended_only_workers _ _ _ _ _ Ho3 Hwk3 He) as He3.
  pose proof He3 as (_ & _ & (j3 & Hj3 & _) & _).
  apply wp_bind, (wp_get_job_row _ j3); [exact Hj3|]. intros r _. apply wp_ret. by eapply HQ.
Qed.

(** [startup] leaves the worker registered. *)
Lemma wp_startup wid Q w :
  world_ok w →
  (∀ w', only_workers w w' → is_Some (w'.(db).(workers) !! wid) → Q (Return tt) w') →
  (∀ k r, w.(db).(workers) !! k = Some r → r.(worker_id) = k) →
  wp (startup wid) Q w.
Proof.
  intros Hw HQ Hkeys. apply wp_bind, wp_bind, wp_utc_now. intros t w1 [Hd1 Hu1].
  apply wp_immediate_session, wp_bind, wp_reads. rewrite Hd1.
  assert (Hgo : ∀ r, r.(worker_id) = wid → wp (put_worker r)
    (fun o w' => match o with
       | Return _ => wp (heartbeat_worker wid WK_IDLE None) Q w'
       | Raise e => ∀ w2, w2.(db) = w1.(db) → w2.(uuids_drawn) = w'.(uuids_drawn) → Q (Raise e) w2
       end) w1).
  { intros r Hr. apply wp_put_worker. rewrite Hr. intros w2 [Hd2 Hu2].
    assert (Ho : only_workers w w2).
    { exists (<[wid:=r]> w.(db).(workers)). rewrite Hd2, Hd1. split; [done|congruence]. }
    apply wp_heartbeat; [by apply (only_workers_good w)|rewrite Hd2; simpl; by rewrite lookup_insert_eq|].
    intros w3 (W & Hd3 & Hu3) Hwk. apply HQ; [|done]. destruct Ho as (W0 & Hd0 & Hu0).
    exists W. rewrite Hd3, Hd0. split; [done|congruence]. }
  destruct (_ !! wid) as [r|] eqn:Hr; apply Hgo; [exact (Hkeys _ _ Hr)|done].
Qed.

(** ** [run_once] *)

Lemma only_workers_trans w1 w2 w3 : only_workers w1 w2 → only_workers w2 w3 → only_workers w1 w3.
Proof. intros (W1 & H1 & U1) (W2 & H2 & U2). exists W2. rewrite H2, H1. split; [done|congruence]. Qed.

(** What the worker knows of its own row before a round. *)
Definition worker_known w (wid : string) (registered : bool) : Prop :=
  if registered then is_Some (w.(db).(workers) !! wid)
  else ∀ k r, w.(db).(workers) !! k = Some r → r.(worker_id) = k.

(** The outcome of a round. *)
Definition round_result (wid : string) w (r : outcome JobExc bool) w' : Prop :=
  world_ok w' ∧
  match r with
  | Return true => ∃ j s, j ∈ queued_jobs w.(db) ∧
      resource_free w.(db).(resource_locks) j ∧ terminal s = true ∧ ended w' j.(job_id) wid s
  | Return false => ∀ j, j ∈ queued_jobs w.(db) → ¬ resource_free w.(db).(resource_locks) j
  | Raise e => e = IntegrityError "resource_locks.resource_key"
  end.

Lemma terminal_ending token cancel r : terminal (ending token cancel r) = true.
Proof. destruct r as [|[]], token, cancel; done. Qed.

Lemma run_once_spec wid registry registered token w :
  world_ok w → worker_known w wid registered →
  (∀ jr audit, handler_keeps registry (mkContext audit jr (fun p => update_progress jr.(rec_id) p))
                 jr.(rec_id) wid) →
  wp (run_once wid registry registered token) (round_result wid w) w.
Proof.
  intros Hw Hknown Hkeep. apply wp_bind.
  assert (Hstart : ∀ (Q : outcome JobExc unit → World → Prop),
    (∀ w', only_workers w w' → is_Some (w'.(db).(workers) !! wid) → Q (Return tt) w') →
    wp (if registered then mret tt else startup wid) Q w).
  { intros Q HQ. destruct registered; [|by apply wp_startup].
    apply wp_ret, HQ; [|done]. exists w.(db).(workers). split; [by destruct w as [[]]|done]. }
  apply Hstart. intros w1 Ho1 Hwk1. pose proof (only_workers_good _ _ Hw Ho1) as [Hw1 _].
  apply wp_bind, wp_heartbeat; [done..|]. intros w2 Ho2 Hwk2.
  pose proof (only_workers_trans _ _ _ Ho1 Ho2) as (W & Hd & Hu).
  assert (Ho : only_workers w w2) by by exists W.
  pose proof (only_workers_good _ _ Hw Ho) as [Hw2 _].
  assert (HL : w2.(db).(resource_locks) = w.(db).(resource_locks)) by by rewrite Hd.
  assert (HQj : queued_jobs w2.(db) = queued_jobs w.(db)) by by rewrite Hd.
  apply wp_bind. eapply wp_mono; [by apply claim_next_spec|].
  unfold claim_result. rewrite HL, HQj. intros [[rec|]|e] w3 [[Hw3 _] Hres].
  - destruct Hres as (j & w3' & j' & Hj & Hfree & _ & Hwt & Hc & Hid & _ & Haud).
    assert (Hrow : w3.(db).(jobs) !! j.(job_id) = Some j')
      by (rewrite (cl_jobs _ _ _ _ _ Hc); apply lookup_insert_eq).
    assert (Hwk3 : is_Some (w3.(db).(workers) !! wid))
      by (rewrite (cl_workers _ _ _ _ _ Hc), (wt_workers _ _ Hwt); done).
    assert (Hrun : running_job w3 rec.(rec_id) wid j').
    { rewrite Hid. split_and!; [done|done|apply (cl_status _ _ _ _ _ Hc)|done]. }
    apply wp_bind, wp_require_audit.
    + intros a _. apply wp_bind. eapply wp_execute; [apply Hkeep|exact Hrun|].
      intros w4 j2 _ He. apply wp_ret. pose proof He as [Hw4 _]. split; [done|].
      exists j. eexists. rewrite <- Hid. split_and!; [done|done| |exact He].
      apply terminal_ending.
    + intros Hnone. exfalso. pose proof Hw3 as [[HS3 _] _].
      destruct (ok_job_audit _ _ _ HS3 _ _ Hrow) as [a Ha].
      rewrite (same_spec_audit _ _ (cl_spec _ _ _ _ _ Hc)), <- Haud in Ha. congruence.
  - apply wp_ret. by split; [|apply Hres].
  - by split; [|apply Hres].
Qed.

(** ** The registry *)

Lemma find_handler_app r1 r2 t :
  find_handler (r1 ++ r2) t = match find_handler r1 t with Some h => Some h | None => find_handler r2 t end.
Proof. induction r1 as [|[t' h] r1 IH]; simpl; [done|].
  by destruct (String.eqb t' t); [|apply IH].
Qed.

(** Registering succeeds once per type; the new handler is then resolved and the
    others are as before. *)
Lemma register_resolve t h registry :
  match register t h registry with
  | Return registry' => find_handler registry t = None ∧
      ∀ t', find_handler registry' t' =
            if String.eqb t t' then Some h else find_handler registry t'
  | Raise e => is_Some (find_handler registry t) ∧
      e = ValueError ("Handler already registered: " +:+ t)
  end.
Proof.
  unfold register. destruct (find_handler registry t) eqn:Hf; [by split; [eauto|]|].
  split; [done|]. intros t'. rewrite find_handler_app. simpl.
  destruct (String.eqb_spec t t') as [<-|]; [by rewrite Hf|by destruct (find_handler registry t')].
Qed.
End worker.
