(* ===== verification/JobLoop.v ===== *)
(** * The polling loop of a worker ([JobWorker.run_forever])

    The loop as one program over the rounds it runs before it is stopped, and that it
    empties the queue: a worker alone with the queue ends one job per round. *)

From S2P Require Import Prelude PyBase JobModels JobStore JobService JobInvariant JobServiceProofs JobClaimProofs JobWorker.

Section loop.
Context {RT : Runtime}.

(** One cancellation token per round in which the stop event was found clear. *)
Definition run_forever (wid : string) (registry : HandlerRegistry) (tokens : list bool) : M unit :=
  startup wid;;
  _ ← for_each (fun token => run_once wid registry true token) tokens;
  heartbeat_worker wid WK_STOPPED None.

Context {RTOK : RuntimeOk}.
Implicit Types (w : World) (j : JobModel).

(** ** What executing a job leaves alone *)

Definition others (jid : string) w w' : Prop := ∀ k, k ≠ jid → w'.(db).(jobs) !! k = w.(db).(jobs) !! k.

#[local] Instance others_preorder jid : PreOrder (others jid).
Proof. split; [done|]. intros w1 w2 w3 H1 H2 k Hk. by rewrite H2, H1. Qed.

Lemma only_workers_others jid w w' : only_workers w w' → others jid w w'.
Proof. intros (W & Hd & _) k _. by rewrite Hd. Qed.

Lemma finishing_others {A} (m : M A) jid wid desired R j w :
  finishes m jid desired R → running_job w jid wid j → wp m (fun _ w' => others jid w w') w.
Proof.
  intros Hm (Hw & Hj & Hr & _). eapply wp_mono; [by apply Hm|].
  intros [x|e] w' [_ H]; [|by destruct H as [_ H]; destruct (H j)].
  destruct H as (j0 & j' & Hj0 & _ & F & _). pose proof (job_row_id _ _ _ Hw Hj0) as Hid.
  intros k Hk. rewrite (fin_jobs _ _ _ _ F), lookup_insert_ne; congruence.
Qed.

Lemma get_job_others {A} jid wid j (k : JobRecord → M A) w :
  running_job w jid wid j → (∀ r, wp (k r) (fun _ w' => others jid w w') w) →
  wp (current ← get_job jid; k current) (fun _ w' => others jid w w') w.
Proof. intros Hrun Hk. apply wp_bind, (wp_get_job_row _ j); [apply Hrun|]. intros r _. apply Hk. Qed.

Lemma finish_result_others token jid wid result j w :
  running_job w jid wid j → wp (finish_result token jid result) (fun _ w' => others jid w w') w.
Proof.
  intros Hrun. eapply get_job_others; [exact Hrun|]. intros r. destruct (token || _).
  - eapply finishing_others; [apply cancel_running_job_finishes|exact Hrun].
  - eapply finishing_others; [apply complete_job_finishes|exact Hrun].
Qed.

Lemma finish_exception_others token jid wid e j w :
  running_job w jid wid j → wp (finish_exception token jid e) (fun _ w' => others jid w w') w.
Proof.
  intros Hrun. unfold finish_exception. cbv zeta.
  assert (∀ error, wp (current ← get_job jid; if token || current.(rec_cancel_requested)
      then cancel_running_job jid cancelled_message None None else fail_job jid error) (fun _ w' => others jid w w') w) as Hfail.
  { intros error. eapply get_job_others; [exact Hrun|]. intros r. destruct (token || _).
    - eapply finishing_others; [apply cancel_running_job_finishes|exact Hrun].
    - eapply finishing_others; [apply fail_job_finishes|exact Hrun]. }
  destruct e; try apply Hfail. eapply finishing_others; [apply cancel_running_job_finishes|exact Hrun].
Qed.

(** A handler that leaves its job running and the other jobs alone. *)
Definition handler_quiet (registry : HandlerRegistry) (ctx : HandlerContext) (jid wid : string) : Prop :=
  handler_keeps registry ctx jid wid ∧
  ∀ w j, running_job w jid wid j → others jid w (handler_run registry ctx w).2.

Lemma execute_body_others wid registry token ctx j w :
  let jid := ctx.(context_job).(rec_id) in
  handler_quiet registry ctx jid wid → running_job w jid wid j →
  wp (try_except (handler ← resolve registry ctx.(context_job).(rec_type);
                  result ← handler ctx;
                  finish_result token jid result)
        (finish_exception token jid)) (fun _ w' => others jid w w') w.
Proof.
  intros jid [Hkeep Hquiet] Hrun. destruct (Hkeep w j Hrun) as [j2 Hrun2]. pose proof (Hquiet w j Hrun) as Ho.
  apply wp_try.
  enough (Hgo : wp (result ← (handler ← resolve registry ctx.(context_job).(rec_type); handler ctx);
                    finish_result token jid result)
    (fun r w' => match r with
                 | Return x => others jid w w'
                 | Raise e => wp (finish_exception token jid e) (fun _ w' => others jid w w') w'
                 end) w).
  { unfold wp in Hgo |- *. by rewrite bind_assoc in Hgo. }
  apply wp_bind. unfold wp at 1. fold (handler_run registry ctx w).
  destruct (handler_run registry ctx w) as [[result|e] w2] eqn:Hh; simpl in *.
  - assert (Hfin : wp (finish_result token jid result)
      (fun r w' => others jid w2 w' ∧ match r with Return _ => True | Raise _ => False end) w2).
    { apply wp_conj; [by eapply finish_result_others|]. by eapply wp_finish_result. }
    eapply wp_mono; [exact Hfin|]. intros [x|e] w' [H1 H2]; [by etrans|done].
  - eapply wp_mono; [by eapply finish_exception_others|]. intros r w' H1. by etrans.
Qed.

Lemma execute_others wid registry token jr audit j w :
  let ctx := mkContext audit jr (fun p => update_progress jr.(rec_id) p) in
  handler_quiet registry ctx jr.(rec_id) wid → running_job w jr.(rec_id) wid j →
  wp (execute wid registry token jr audit) (fun _ w' => others jr.(rec_id) w w') w.
Proof.
  intros ctx Hquiet Hrun. set (jid := jr.(rec_id)) in *.
  destruct (heartbeat_run wid WK_RUNNING (Some jid) w) as (Hh & Ho & Hwk); [apply Hrun..|].
  unfold execute. fold jid. apply wp_bind. unfold wp at 1. rewrite Hh.
  set (w1 := (heartbeat_worker wid WK_RUNNING (Some jid) w).2) in *.
  assert (running_job w1 jid wid j) as Hrun1 by by eapply running_only_workers.
  apply wp_bind, wp_finally. change (rec_type jr) with (rec_type (context_job ctx)).
  eapply wp_mono; [apply wp_conj; [eapply (execute_body_others wid registry token ctx j w1); [exact Hquiet|exact Hrun1]|
    eapply (wp_execute_body wid registry token ctx j (fun r w' => ∃ s, ended w' jid wid s)); [apply Hquiet|exact Hrun1|]]|].
  { intros x w' (j2 & _ & He). by eexists. }
  intros r w2 [Hoth [s He]]. pose proof He as (Hw2 & Hwk2 & _).
  apply wp_heartbeat; [done|done|]. intros w3 Ho3 Hwk3.
  assert (others jid w w3) as Hall.
  { etrans; [by apply only_workers_others|]. etrans; [exact Hoth|]. by apply only_workers_others. }
  destruct r as [x|e]; [|exact Hall].
  pose proof (ended_only_workers _ _ _ _ _ Ho3 Hwk3 He) as (_ & _ & (j3 & Hj3 & _) & _).
  apply wp_bind, (wp_get_job_row _ j3); [exact Hj3|]. intros r _. by apply wp_ret.
Qed.

(** ** One round of a worker alone with the queue *)

(** No job runs. *)
Definition idle w : Prop := world_ok w ∧ ∀ k j, w.(db).(jobs) !! k = Some j → j.(job_status) ≠ RUNNING.

(** Without running jobs there is no lock. *)
Lemma idle_locks w : idle w → w.(db).(resource_locks) = ∅.
Proof.
  intros [[[HS _] _] Hno]. apply map_empty. intros k. apply eq_None_not_Some. intros [l Hl].
  destruct (ok_lock_job _ _ _ HS _ _ Hl) as (j & Hj & Hr & _). by apply (Hno _ _ Hj).
Qed.

(** A job that can be claimed when no lock is held: its group limit is not negative. *)
Definition claimable j : Prop := resource_free ∅ j.

Lemma claimable_spec j j' : same_job_spec j j' → claimable j → claimable j'.
Proof.
  intros (_ & _ & _ & _ & _ & _ & _ & E1 & E2 & E3). unfold claimable, resource_free. by rewrite E1, E2, E3.
Qed.

Lemma claimable_limit j : (∀ lim, j.(job_resource_limit) = Some lim → 0 ≤ lim) → claimable j.
Proof.
  intros Hlim. split; [by intros _; apply lookup_empty|]. intros g lim _ _ Hj Hne. specialize (Hlim _ Hj).
  unfold group_locks. rewrite map_filter_empty, map_size_empty. lia.
Qed.

(** The rows after a round, [ran] being the job it ended. *)
Definition round (ran : option string) w w' : Prop :=
  (∀ k, w.(db).(jobs) !! k = None → w'.(db).(jobs) !! k = None) ∧
  ∀ k j, w.(db).(jobs) !! k = Some j → ∃ j', w'.(db).(jobs) !! k = Some j' ∧
    if bool_decide (ran = Some k) then terminal j'.(job_status) = true
    else same_job_spec j j' ∧ j'.(job_status) = j.(job_status) ∧ (terminal j.(job_status) = true → j' = j).

Lemma round_refl w : round None w w.
Proof. split; [done|]. intros k j Hj. exists j. by split_and!. Qed.

Lemma waited_round w w' : waited w w' → round None w w'.
Proof.
  intros W. split; [apply (wt_no_new _ _ W)|]. intros k j Hj.
  destruct (wt_jobs _ _ W _ _ Hj) as [H|[Hq H]]; eexists; (split; [exact H|]); split_and!; try done.
  by rewrite Hq.
Qed.

Lemma only_workers_jobs w w' : only_workers w w' → w'.(db).(jobs) = w.(db).(jobs).
Proof. intros (W & Hd & _). by rewrite Hd. Qed.

Lemma round_jobs w1 w2 w3 w4 ran :
  w2.(db).(jobs) = w1.(db).(jobs) → w4.(db).(jobs) = w3.(db).(jobs) → round ran w1 w3 → round ran w2 w4.
Proof. intros E1 E2 [H1 H2]. unfold round. by rewrite E1, E2. Qed.

(** Claimed, then ended. *)
Lemma claimed_round wid w w1 w2 w3 j j' s :
  world_ok w1 → waited w w1 → claimed wid w1 w2 j j' → w.(db).(jobs) !! j.(job_id) = Some j →
  others j.(job_id) w2 w3 → (∃ j3, w3.(db).(jobs) !! j.(job_id) = Some j3 ∧ j3.(job_status) = s) →
  terminal s = true → round (Some j.(job_id)) w w3.
Proof.
  intros Hw1 W Hc Hj Hoth (j3 & Hj3 & <-) Ht.
  assert (∀ k, k ≠ j.(job_id) → w3.(db).(jobs) !! k = w1.(db).(jobs) !! k) as Hsame.
  { intros k Hk. rewrite Hoth, (cl_jobs _ _ _ _ _ Hc), lookup_insert_ne; done. }
  destruct (waited_round _ _ W) as [HN HJ]. split.
  - intros k Hk. destruct (decide (k = j.(job_id))) as [->|Hne]; [congruence|].
    rewrite Hsame by done. by apply HN.
  - intros k j0 Hk. destruct (HJ _ _ Hk) as (j1 & Hk1 & Hs1 & Hst & Htm).
    destruct (decide (k = j.(job_id))) as [->|Hne].
    + exists j3. by rewrite bool_decide_eq_true_2.
    + exists j1. rewrite Hsame, bool_decide_eq_false_2 by (done || congruence). by split_and!.
Qed.

Lemma round_idle ran w w' : round ran w w' → idle w → world_ok w' → idle w'.
Proof.
  intros [HN HJ] [_ Hno] Hw'. split; [done|]. intros k j' Hj' Hr.
  destruct (w.(db).(jobs) !! k) as [j|] eqn:Hj; [|rewrite HN in Hj'; done].
  destruct (HJ _ _ Hj) as (j2 & Hj2 & Hst). rewrite Hj' in Hj2. injection Hj2 as <-.
  destruct (bool_decide (ran = Some k)); [by rewrite Hr in Hst|].
  destruct Hst as (_ & Est & _). apply (Hno k j Hj). congruence.
Qed.

(** Every queued job can be claimed. *)
Definition all_claimable w : Prop := ∀ k j, w.(db).(jobs) !! k = Some j → j.(job_status) = QUEUED → claimable j.

Lemma round_claimable ran w w' : round ran w w' → all_claimable w → all_claimable w'.
Proof.
  intros [HN HJ] Hall k j' Hj' Hq. destruct (w.(db).(jobs) !! k) as [j|] eqn:Hj; [|rewrite HN in Hj'; done].
  destruct (HJ _ _ Hj) as (j2 & Hj2 & Hst). rewrite Hj' in Hj2. injection Hj2 as <-.
  destruct (bool_decide (ran = Some k)); [by rewrite Hq in Hst|].
  destruct Hst as (Hs & Est & _). eapply claimable_spec; [exact Hs|]. apply (Hall k j Hj). congruence.
Qed.

(** What is asked of the handlers of a worker. *)
Definition quiet_registry (registry : HandlerRegistry) (wid : string) : Prop :=
  ∀ jr audit, handler_quiet registry (mkContext audit jr (fun p => update_progress jr.(rec_id) p)) jr.(rec_id) wid.

Definition round_post w (r : outcome JobExc bool) w' : Prop :=
  match r with
  | Return true => ∃ k j, w.(db).(jobs) !! k = Some j ∧ j.(job_status) = QUEUED ∧ round (Some k) w w'
  | Return false => (∀ k j, w.(db).(jobs) !! k = Some j → j.(job_status) ≠ QUEUED) ∧ round None w w'
  | Raise _ => False
  end.

Lemma run_once_round wid registry token w :
  idle w → is_Some (w.(db).(workers) !! wid) → all_claimable w → quiet_registry registry wid →
  wp (run_once wid registry true token)
    (fun r w' => world_ok w' ∧ is_Some (w'.(db).(workers) !! wid) ∧ round_post w r w') w.
Proof.
  intros Hidle Hwk Hall Hquiet. pose proof Hidle as [Hw _]. apply wp_bind, wp_ret.
  apply wp_bind, wp_heartbeat; [done..|]. intros w1 Ho1 Hwk1.
  pose proof (only_workers_good _ _ Hw Ho1) as [Hw1 _]. pose proof (only_workers_jobs _ _ Ho1) as HJ1.
  assert (idle w1) as Hidle1 by (split; [done|rewrite HJ1; apply Hidle]).
  pose proof (idle_locks _ Hidle1) as HL.
  assert (∀ j, j ∈ queued_jobs w1.(db) → ∃ k, w.(db).(jobs) !! k = Some j ∧ j.(job_status) = QUEUED) as Hqueued.
  { intros j [[k Hk] Hq]%elem_of_queued. exists k. by rewrite <- HJ1. }
  apply wp_bind. eapply wp_mono; [by apply claim_next_spec|]. unfold claim_result. rewrite HL.
  intros [[rec|]|e] w2 [[Hw2 _] Hres].
  - destruct Hres as (j & w1' & j' & Hj & _ & _ & Hwt & Hc & Hid & _ & Haud).
    pose proof (wt_good _ _ Hwt) as [Hw1' _]. pose proof Hj as [[k Hk] Hq]%elem_of_queued.
    pose proof (job_row_id _ _ _ Hw1 Hk) as Hkid. subst k.
    assert (Hrow : w2.(db).(jobs) !! j.(job_id) = Some j') by (rewrite (cl_jobs _ _ _ _ _ Hc); apply lookup_insert_eq).
    assert (Hrun : running_job w2 rec.(rec_id) wid j').
    { rewrite Hid. split_and!; [done|done|apply (cl_status _ _ _ _ _ Hc)|].
      by rewrite (cl_workers _ _ _ _ _ Hc), (wt_workers _ _ Hwt). }
    apply wp_bind, wp_require_audit.
    2: { intros Hnone. exfalso. pose proof Hw2 as [[HS2 _] _]. destruct (ok_job_audit _ _ _ HS2 _ _ Hrow) as [a Ha].
         rewrite (same_spec_audit _ _ (cl_spec _ _ _ _ _ Hc)), <- Haud in Ha. congruence. }
    intros a _. apply wp_bind. set (audit := a) in *.
    eapply wp_mono; [apply wp_conj; [by eapply execute_others; [apply Hquiet|exact Hrun]|
      eapply (wp_execute wid registry token rec _ j' (fun r w' => r = Return tt ∧ ∃ s, terminal s = true ∧ ended w' rec.(rec_id) wid s));
        [apply Hquiet|exact Hrun|]]|].
    { intros w3 j2 _ He. split; [done|]. eexists. split; [|exact He]. apply terminal_ending. }
    intros r w3 [Hoth (-> & s & Ht & He)]. apply wp_ret. rewrite Hid in *. destruct He as (Hw3 & Hwk3 & Hj3 & _).
    split_and!; [done|done|]. exists j.(job_id), j. rewrite HJ1 in Hk. split_and!; [done|done|].
    apply (round_jobs w1 w w3 w3); [by rewrite HJ1|done|].
    eapply (claimed_round wid w1 w1' w2 w3 j j' s); try done. by rewrite HJ1.
  - apply wp_ret. destruct Hres as [Hwt Hno]. split_and!; [done|by rewrite (wt_workers _ _ Hwt)|]. split.
    + intros k j Hk Hq. apply (Hno j); [|by apply (Hall k)]. apply elem_of_queued. split; [|done]. exists k. by rewrite HJ1.
    + apply (round_jobs w1 w w2 w2); [by rewrite HJ1|done|by apply waited_round].
  - destruct Hres as (_ & _ & j & _ & Htaken & _). by rewrite lookup_empty in Htaken; destruct Htaken.
Qed.

(** ** The loop *)

Definition queued_ids w : gset string := dom (filter (fun kv => kv.2.(job_status) = QUEUED) w.(db).(jobs)).

Lemma elem_of_queued_ids w k : k ∈ queued_ids w ↔ ∃ j, w.(db).(jobs) !! k = Some j ∧ j.(job_status) = QUEUED.
Proof.
  unfold queued_ids. rewrite elem_of_dom. split.
  - intros [j [Hj Hq]%map_lookup_filter_Some]. by exists j.
  - intros (j & Hj & Hq). exists j. by apply map_lookup_filter_Some.
Qed.

(** A round takes the job it ended from the queue, and nothing else. *)
Lemma round_queued ran w w' k :
  round ran w w' → k ∈ queued_ids w' ↔ k ∈ queued_ids w ∧ ran ≠ Some k.
Proof.
  intros [HN HJ]. rewrite !elem_of_queued_ids. split.
  - intros (j' & Hj' & Hq). destruct (w.(db).(jobs) !! k) as [j|] eqn:Hj; [|rewrite HN in Hj'; done].
    destruct (HJ _ _ Hj) as (j2 & Hj2 & Hst). rewrite Hj' in Hj2. injection Hj2 as <-.
    destruct (bool_decide_reflect (ran = Some k)); [by rewrite Hq in Hst|]. destruct Hst as (_ & E & _).
    split; [|done]. exists j. split; [done|congruence].
  - intros [(j & Hj & Hq) Hne]. destruct (HJ _ _ Hj) as (j2 & Hj2 & Hst).
    rewrite bool_decide_eq_false_2 in Hst by done. exists j2. split; [done|]. destruct Hst as (_ & -> & _). done.
Qed.

(** Jobs that had ended are as they were; none came or went. *)
Definition drained w w' : Prop :=
  (∀ k, w.(db).(jobs) !! k = None → w'.(db).(jobs) !! k = None) ∧
  ∀ k j, w.(db).(jobs) !! k = Some j → ∃ j', w'.(db).(jobs) !! k = Some j' ∧
    (terminal j.(job_status) = true → j' = j).

#[local] Instance drained_preorder : PreOrder drained.
Proof.
  split; [split; [done|by intros k j Hj; exists j]|].
  intros w1 w2 w3 [N1 J1] [N2 J2]. split; [by auto|]. intros k j Hj. destruct (J1 _ _ Hj) as (j2 & Hj2 & E2).
  destruct (J2 _ _ Hj2) as (j3 & Hj3 & E3). exists j3. split; [done|]. intros Ht. rewrite E3, E2; [done..|]. by rewrite E2.
Qed.

Lemma round_drained ran w w' :
  round ran w w' → (∀ k j, ran = Some k → w.(db).(jobs) !! k = Some j → j.(job_status) = QUEUED) → drained w w'.
Proof.
  intros [HN HJ] Hran. split; [done|]. intros k j Hj. destruct (HJ _ _ Hj) as (j' & Hj' & Hst). exists j'. split; [done|].
  destruct (bool_decide_reflect (ran = Some k)) as [E|]; [|by destruct Hst as (_ & _ & ?)].
  by rewrite (Hran _ _ E Hj).
Qed.

(** After some rounds: each ended a job while there was one. *)
Definition loop_post w (rounds : nat) w' : Prop :=
  idle w' ∧ drained w w' ∧ size (queued_ids w') = (size (queued_ids w) - rounds)%nat.

Lemma loop_step w w1 w2 b n :
  round_post w (Return b) w1 → idle w1 → loop_post w1 n w2 → loop_post w (S n) w2.
Proof.
  intros Hb Hidle1 (L1 & L2 & L3). destruct b.
  - destruct Hb as (k & j & Hk & Hq & Hr).
    assert (queued_ids w1 = queued_ids w ∖ {[k]}) as HQ.
    { apply set_eq. intros x. rewrite (round_queued _ _ _ _ Hr). set_solver. }
    assert (k ∈ queued_ids w) as Hin by (apply elem_of_queued_ids; eauto).
    assert (size (queued_ids w) = S (size (queued_ids w1))) as Hsz.
    { rewrite HQ, size_difference, size_singleton by set_solver.
      assert (size ({[k]} : gset string) <= size (queued_ids w))%nat as Hle by (apply subseteq_size; set_solver).
      rewrite size_singleton in Hle. lia. }
    split_and!; [done| |lia].
    etrans; [|exact L2]. eapply round_drained; [exact Hr|]. intros k2 j2 [= <-] Hk2. congruence.
  - destruct Hb as [Hno Hr].
    assert (queued_ids w1 = queued_ids w) as HQ.
    { apply set_eq. intros x. rewrite (round_queued _ _ _ _ Hr). naive_solver. }
    assert (queued_ids w = ∅) as H0.
    { apply set_eq. intros x. rewrite elem_of_queued_ids. split; [|set_solver]. intros (j & Hj & Hq). by destruct (Hno _ _ Hj). }
    rewrite HQ, H0, size_empty in L3. split_and!; [done| |rewrite H0, size_empty; lia].
    etrans; [|exact L2]. by eapply round_drained.
Qed.

Lemma wp_rounds wid registry tokens w :
  idle w → is_Some (w.(db).(workers) !! wid) → all_claimable w → quiet_registry registry wid →
  wp (for_each (fun token => run_once wid registry true token) tokens)
    (fun r w' => is_Some (w'.(db).(workers) !! wid) ∧ ∃ bs, r = Return bs ∧ loop_post w (length tokens) w') w.
Proof.
  intros Hidle Hwk Hall Hquiet. revert w Hidle Hwk Hall. induction tokens as [|token tokens IH]; intros w Hidle Hwk Hall; cbn [for_each].
  { apply wp_ret. split; [done|]. exists []. split; [done|]. split_and!; [done|done|cbn; lia]. }
  apply wp_bind. eapply wp_mono; [by apply run_once_round|]. intros [b|e] w1 (Hw1 & Hwk1 & Hb); [|done].
  assert (∃ ran, round ran w w1) as [ran Hr].
  { destruct b; [destruct Hb as (k & j & _ & _ & Hr)|destruct Hb as [_ Hr]]; by eexists. }
  assert (idle w1) as Hidle1 by by eapply round_idle.
  apply wp_bind. eapply wp_mono; [apply IH; [done|done|by eapply round_claimable]|].
  intros r w2 (Hwk2 & bs & -> & Hpost). apply wp_ret. split; [done|]. exists (b :: bs). split; [done|].
  by eapply loop_step.
Qed.

(** The whole loop: it returns, and with enough rounds every job there was has ended. *)
Lemma wp_run_forever wid registry tokens w :
  idle w → (∀ k r, w.(db).(workers) !! k = Some r → r.(worker_id) = k) → all_claimable w → quiet_registry registry wid →
  wp (run_forever wid registry tokens) (fun r w' => r = Return tt ∧ idle w' ∧ drained w w' ∧
    (size (queued_ids w') = size (queued_ids w) - length tokens)%nat ∧
    ((size (queued_ids w) <= length tokens)%nat →
       ∀ k j, w'.(db).(jobs) !! k = Some j → terminal j.(job_status) = true)) w.
Proof.
  intros Hidle Hkeys Hall Hquiet. pose proof Hidle as [Hw _]. apply wp_bind, wp_startup; [done| |done].
  intros w1 Ho1 Hwk1. pose proof (only_workers_jobs _ _ Ho1) as HJ1.
  pose proof (only_workers_good _ _ Hw Ho1) as [Hw1 _].
  assert (queued_ids w1 = queued_ids w) as HQ1 by (unfold queued_ids; by rewrite HJ1).
  apply wp_bind. eapply wp_mono; [apply (wp_rounds wid registry tokens w1); [|done| |done]|].
  { split; [done|]. rewrite HJ1. apply Hidle. }
  { unfold all_claimable. by rewrite HJ1. }
  intros r w2 (Hwk2 & bs & -> & ([Hw2 Hno2] & [N2 D2] & Hcount)). rewrite HJ1, HQ1 in *.
  apply wp_heartbeat; [done|done|]. intros w3 Ho3 _. pose proof (only_workers_jobs _ _ Ho3) as HJ3.
  pose proof (only_workers_good _ _ Hw2 Ho3) as [Hw3 _].
  assert (queued_ids w3 = queued_ids w2) as HQ3 by (unfold queued_ids; by rewrite HJ3).
  split_and!; [done|split; [done|by rewrite HJ3]|split; by rewrite HJ3| |].
  - by rewrite HQ3.
  - intros Hle k j Hk. rewrite HJ3 in Hk. specialize (Hno2 _ _ Hk).
    assert (k ∉ queued_ids w2) as Hnq by (assert (queued_ids w2 = ∅) as -> by (apply leibniz_equiv, size_empty_inv; lia); set_solver). rewrite elem_of_queued_ids in Hnq.
    destruct j.(job_status) eqn:Hs; try done. destruct Hnq. by exists j.
Qed.
End loop.
