(* ===== verification/JobTheorems.v ===== *)
(** * What the job subsystem guarantees

    The theorems about reachable stores and about each operation, proved from the
    invariant and the rules of the other files, each with an instance on a
    concrete history. *)

From S2P Require Import Prelude PyBase JobModels JobStore JobService JobInvariant JobServiceProofs JobClaimProofs JobLifecycle JobSystem JobWorker JobLoop.

(** ** A concrete history *)

(** One audit, two packet captures on the same interface and one on another; the
    first is running. *)
Definition demo_capture (aid key : string) (prio : Z) : call :=
  CreateJob aid "packet_capture" (Some "eth0") None prio (Some key) (Some "packet_capture") (Some 2).

Definition demo_calls : list call :=
  [CreateAudit "standard" (Some "eth0") None (Some "admin");
   demo_capture (unary 0) "interface:eth0" 5;
   demo_capture (unary 0) "interface:eth0" 9;
   demo_capture (unary 0) "interface:eth1" 1;
   RegisterWorker "w1"; HeartbeatWorker "w1" WK_IDLE None;
   ClaimNext "w1";
   UpdateProgress (unary 2) (mkJobProgress 40 "capturing" "Capturing packets")].

Definition demo_world : World := run_all demo_calls init_world.

Lemma demo_reachable : reachable demo_world.
Proof. apply run_all_reachable; [constructor|]. by repeat split. Qed.

(** The row of a job in the demo. *)
Definition demo_job (n : nat) (w : World) : JobModel :=
  default (mkJob "" "" "" QUEUED 0 0 None None 0 "" None None [] None None None None None None
             None false None 0 None None None) (w.(db).(jobs) !! unary n).

Section theorems.
Context {RT : Runtime} {RTOK : RuntimeOk}.
Implicit Types (w : World) (a : AuditModel) (j : JobModel) (l : ResourceLockModel).

(** ** Lemmas *)

(** The lock of a running job that needs one. *)
Lemma running_lock w k j :
  world_ok w → w.(db).(jobs) !! k = Some j → j.(job_status) = RUNNING → needs_lock j = true →
  ∃ l, w.(db).(resource_locks) !! lock_key j = Some l ∧ l.(lock_job_id) = k ∧
       l.(lock_resource_group) = j.(job_resource_group).
Proof.
  intros [[HS _] _] Hj Hr Hn. destruct (ok_job_lock _ _ _ HS _ _ Hj Hr Hn) as (l & Hl & Hid).
  destruct (ok_lock_job _ _ _ HS _ _ Hl) as (j' & Hj' & _ & _ & _ & _ & Hg).
  rewrite Hid, Hj in Hj'. injection Hj' as <-. eauto.
Qed.

Lemma lock_key_explicit j key :
  j.(job_resource_key) = Some key → key ≠ EmptyString → lock_key j = key ∧ needs_lock j = true.
Proof. intros Hk Hne. unfold lock_key, needs_lock, str_or. rewrite Hk. by destruct key. Qed.

(** Distinct keys of a finite map are at most its size. *)
Lemma keys_le_size {V} (m : gmap string V) (ks : list string) :
  NoDup ks → (∀ k, k ∈ ks → is_Some (m !! k)) → (length ks ≤ size m)%nat.
Proof.
  intros Hnd Hin. rewrite <- size_dom. rewrite <- (size_list_to_set (C := gset string) ks) by done.
  apply subseteq_size. intros k Hk. apply elem_of_dom, Hin. by apply elem_of_list_to_set in Hk.
Qed.

(** The running jobs of a group. *)
Definition running_in_group (d : DB) (g : string) : list JobModel :=
  List.filter (fun j => bool_decide (j.(job_status) = RUNNING) &&
                        bool_decide (j.(job_resource_group) = Some g)) (map_to_list d.(jobs)).*2.

Lemma elem_of_running_in_group w g j :
  world_ok w → g ≠ EmptyString → j ∈ running_in_group w.(db) g →
  w.(db).(jobs) !! j.(job_id) = Some j ∧ j.(job_resource_group) = Some g ∧
  ∃ l, w.(db).(resource_locks) !! lock_key j = Some l ∧ l.(lock_job_id) = j.(job_id) ∧
       l.(lock_resource_group) = Some g.
Proof.
  intros Hw Hg [[k Hk] Hb]%elem_of_selected. pose proof (job_row_id _ _ _ Hw Hk) as <-.
  apply andb_true_iff in Hb as [Hr%bool_decide_eq_true He%bool_decide_eq_true].
  split_and!; [done|done|]. rewrite <- He. apply running_lock; [done|done|done|].
  unfold needs_lock. rewrite He. destruct g; [done|]. apply orb_true_r.
Qed.

Lemma running_in_group_size w g :
  world_ok w → g ≠ EmptyString →
  (length (running_in_group w.(db) g) ≤ size (group_locks g w.(db).(resource_locks)))%nat.
Proof.
  intros Hw Hg. rewrite <- (length_fmap lock_key). apply keys_le_size.
  - apply NoDup_fmap_2_strong; [|by eapply NoDup_fmap_1, selected_ids_NoDup].
    intros j1 j2 H1 H2 Heq.
    destruct (elem_of_running_in_group _ _ _ Hw Hg H1) as (Hj1 & _ & l1 & Hl1 & Hi1 & _).
    destruct (elem_of_running_in_group _ _ _ Hw Hg H2) as (Hj2 & _ & l2 & Hl2 & Hi2 & _).
    rewrite Heq, Hl2 in Hl1. injection Hl1 as ->. congruence.
  - intros k (j & -> & Hj)%list_elem_of_fmap.
    destruct (elem_of_running_in_group _ _ _ Hw Hg Hj) as (_ & _ & l & Hl & _ & Hlg).
    exists l. by apply group_locks_lookup.
Qed.

(** ** Every reachable store *)


(** the status of an audit with jobs is the one [_refresh_audit] computes from
    all its job statuses, except that an audit whose jobs all still wait may be
    CREATED; an audit without jobs is CREATED or FAILED. *)
Theorem audit_status_is_aggregate w aid a :
  reachable w → w.(db).(audits) !! aid = Some a →
  match statuses_of w.(db).(jobs) aid with
  | [] => a.(audit_status) = AUDIT_CREATED ∨ a.(audit_status) = AUDIT_FAILED
  | statuses => a.(audit_status) = aggregate_status statuses ∨
      a.(audit_status) = AUDIT_CREATED ∧ ∀ s, s ∈ statuses → s = QUEUED
  end.
Proof.
  intros [[HS _] _]%reachable_world_ok Ha.
  pose proof (ok_audit _ _ _ HS _ _ Ha) as Hag. unfold audit_agrees in Hag.
  rewrite (ok_audit_key _ _ _ HS _ _ Ha) in Hag. setoid_rewrite <- elem_of_statuses in Hag.
  assert (Hagg : ∀ s, aggregates (has_status w.(db).(jobs) aid) s →
            s = aggregate_status (statuses_of w.(db).(jobs) aid)).
  { intros s Hs. eapply aggregates_det; [exact Hs|]. apply aggregates_statuses. }
  destruct (statuses_of w.(db).(jobs) aid) as [|s0 ss] eqn:E.
  - destruct Hag as [[_ H]|[[s Hs] _]]; [|by apply elem_of_nil in Hs].
    set_solver.
  - destruct Hag as [[H _]|[_ [[H1 H2]|H]]].
    + by destruct (H s0 (list_elem_of_here _ _)).
    + by right.
    + left. by apply Hagg.
Qed.

(** C2: two running jobs never hold the same resource key. *)
Theorem exclusive_resource w k1 k2 j1 j2 key :
  reachable w → w.(db).(jobs) !! k1 = Some j1 → w.(db).(jobs) !! k2 = Some j2 →
  j1.(job_status) = RUNNING → j2.(job_status) = RUNNING →
  j1.(job_resource_key) = Some key → j2.(job_resource_key) = Some key →
  key ≠ EmptyString → k1 = k2.
Proof.
  intros Hw%reachable_world_ok Hj1 Hj2 Hr1 Hr2 Hk1 Hk2 Hne.
  destruct (lock_key_explicit _ _ Hk1 Hne) as [Hl1 Hn1].
  destruct (lock_key_explicit _ _ Hk2 Hne) as [Hl2 Hn2].
  destruct (running_lock _ _ _ Hw Hj1 Hr1 Hn1) as (l1 & Hk & <- & _).
  destruct (running_lock _ _ _ Hw Hj2 Hr2 Hn2) as (l2 & Hk' & <- & _). congruence.
Qed.

(** C10: when the running jobs of a resource group all ask for the limit [lim], at
    most [lim] of them run at once. *)
Theorem group_limit_respected w g lim :
  reachable w → g ≠ EmptyString → 0 < lim →
  (∀ j, j ∈ running_in_group w.(db) g → j.(job_resource_limit) = Some lim) →
  Z.of_nat (length (running_in_group w.(db) g)) ≤ lim.
Proof.
  intros Hw%reachable_world_ok Hg Hlim Hall. pose proof Hw as [[HS HG] _].
  enough (Z.of_nat (size (group_locks g w.(db).(resource_locks))) ≤ lim).
  { pose proof (running_in_group_size w g Hw Hg). lia. }
  apply (groups_ok_uniform w.(db).(jobs)); [done|done|done|].
  intros k l [Hl Hgl]%group_locks_lookup.
  destruct (ok_lock_job _ _ _ HS _ _ Hl) as (j & Hj & Hr & _ & _ & _ & Hjg).
  unfold limit_of. rewrite Hj. simpl. rewrite (Hall j); [done|].
  apply elem_of_selected. split; [eauto|]. apply andb_true_iff.
  split; apply bool_decide_eq_true; congruence.
Qed.

(** C9: along any history of calls that remove nothing, every job row stays: its
    request never changes, its status moves along the transition table, its
    progress and attempt count never decrease, its start instant is set once, and
    a terminal row never changes again. *)
Theorem jobs_only_evolve w w' k j :
  reachable w → rtc keeping_step w w' → w.(db).(jobs) !! k = Some j →
  ∃ j', w'.(db).(jobs) !! k = Some j' ∧ job_evolves j j' ∧
        (job_rank j.(job_status) ≤ job_rank j'.(job_status))%nat.
Proof.
  intros Hw%reachable_world_ok Hsteps Hj.
  destruct (keeping_world_ok _ _ Hsteps Hw) as [_ Hev].
  destruct (ev_jobs _ _ Hev _ _ Hj) as (j' & Hj' & He). exists j'. split_and!; [done|done|].
  destruct He as [_ Hst _ _ _ _]. clear -Hst.
  induction Hst as [|s1 s2 s3 H _ IH]; [done|]. pose proof (job_step_rank _ _ H). lia.
Qed.

(** ** Operations on a reachable store *)

(** C3: [claim_next] starts the queued job of highest priority, oldest first, among
    those whose resource is free; it returns None exactly when no queued job's
    resource is free; it fails only when a job that locks the default key
    "job:<id>" finds it taken, and then changes nothing. *)
Theorem claim_next_correct wid w :
  reachable w → wp (claim_next wid) (claim_result wid w) w.
Proof.
  intros Hw%reachable_world_ok. eapply wp_mono; [by apply claim_next_spec|]. by intros ?? [_ ?].
Qed.

(** completing a running job always goes through: the job becomes COMPLETED with
    progress 100 and the given result, its locks are released and its audit's
    status is recomputed; on a job that is not running nothing is written. *)
Theorem complete_job_correct jid result summary w :
  reachable w →
  wp (complete_job jid result summary) (fun r w' =>
    match r with
    | Return _ => ∃ j j', w.(db).(jobs) !! jid = Some j ∧ finished w w' j j' ∧
        j'.(job_status) = COMPLETED ∧ j'.(job_progress) = 100 ∧
        j'.(job_result_reference) = result
    | Raise _ => w'.(db) = w.(db) ∧
        ∀ j, w.(db).(jobs) !! jid = Some j → j.(job_status) ≠ RUNNING
    end) w.
Proof.
  intros Hw%reachable_world_ok. eapply wp_mono; [by apply complete_job_finishes|].
  intros [r|e] w' [_ H]; [|done]. destruct H as (j & j' & Hj & _ & F & Hs & H1 & H2 & _).
  by exists j, j'.
Qed.

(** failing a running job always goes through: the job becomes FAILED with the
    error's code and its progress kept, its locks are released and its audit's
    status is recomputed; on a job that is not running nothing is written. *)
Theorem fail_job_correct jid error w :
  reachable w →
  wp (fail_job jid error) (fun r w' =>
    match r with
    | Return _ => ∃ j j', w.(db).(jobs) !! jid = Some j ∧ finished w w' j j' ∧
        j'.(job_status) = FAILED ∧ j'.(job_progress) = j.(job_progress) ∧
        j'.(job_error_code) = Some error.(err_code)
    | Raise _ => w'.(db) = w.(db) ∧
        ∀ j, w.(db).(jobs) !! jid = Some j → j.(job_status) ≠ RUNNING
    end) w.
Proof.
  intros Hw%reachable_world_ok. eapply wp_mono; [by apply fail_job_finishes|].
  intros [r|e] w' [_ H]; [|done]. destruct H as (j & j' & Hj & _ & F & Hs & H1 & H2 & _).
  by exists j, j'.
Qed.

(** a cancellation request cancels a queued job at once and recomputes its
    audit, only sets the flag of a running job, leaves a finished one alone, and
    fails only for an unknown job. *)
Theorem request_cancel_correct jid w :
  reachable w →
  wp (request_cancel jid) (fun r w' =>
    match r with
    | Return _ => cancel_requested w w' jid
    | Raise e => e = EntityNotFound "Job" jid ∧ w'.(db) = w.(db)
    end) w.
Proof.
  intros Hw%reachable_world_ok. eapply wp_mono; [by apply request_cancel_spec|].
  by intros ?? [_ ?].
Qed.

(** recovery after a restart never fails: it interrupts exactly the running
    jobs, returns their number, releases every lock, stops every worker row and
    leaves a store that satisfies the invariant. *)
Theorem recovery_correct w :
  reachable w →
  wp recover_after_restart (fun r w' =>
    r = Return (Z.of_nat (length (running_jobs w.(db)))) ∧ recovered w w') w.
Proof. intros Hw%reachable_world_ok. by apply recover_after_restart_spec. Qed.

(** a supervisor starts only when no worker row with a recent heartbeat is
    active, and then recovers the running jobs first; otherwise it is refused and
    the store is unchanged. *)
Theorem single_supervisor wid stale w :
  reachable w →
  wp (prepare_supervisor wid stale) (fun r w' =>
    let cutoff := clock w.(clock_reads) - seconds stale in
    match r with
    | Return n => n = Z.of_nat (length (running_jobs w.(db))) ∧
        (∀ k r, w.(db).(workers) !! k = Some r → ¬ active_worker cutoff r) ∧
        ∃ w1, recovered w w1 ∧ only_workers w1 w'
    | Raise e => e = WorkerAlreadyRunning ∧ w'.(db) = w.(db) ∧
        ∃ k r, w.(db).(workers) !! k = Some r ∧ active_worker cutoff r
    end) w.
Proof.
  intros Hw%reachable_world_ok. eapply wp_mono; [by apply prepare_supervisor_spec|].
  by intros ?? [_ ?].
Qed.

(** C11: a retry goes through exactly for a failed, interrupted or cancelled job that
    is not a topology job and has no active equivalent: it enqueues a fresh job
    with the same request, leaves the source row and reopens the audit; otherwise
    it is refused and nothing is written. *)
Theorem retry_correct jid actor w : reachable w → wp (retry jid actor) (retry_result w jid) w.
Proof.
  intros Hw%reachable_world_ok. eapply wp_mono; [by apply retry_spec|]. by intros ?? [_ ?].
Qed.

(** deleting an audit is refused exactly while it has queued or running jobs
    (or does not exist), and otherwise removes the audit with what the schema
    cascades to. *)
Theorem delete_audit_correct aid w :
  reachable w → wp (delete_audit aid) (delete_result w aid) w.
Proof.
  intros Hw%reachable_world_ok. eapply wp_mono; [by apply delete_audit_spec|]. by intros ?? [_ ?].
Qed.

(** executing a claimed job ends it: when its handler leaves it running, the
    job becomes COMPLETED, FAILED or CANCELLED as the handler's outcome and the
    cancellation flag say, it holds no lock afterwards, and the worker does not
    raise. *)
Theorem execute_ends_job wid registry token jr audit j w :
  let ctx := mkContext audit jr (fun p => update_progress jr.(rec_id) p) in
  let ran := handler_run registry ctx
               (heartbeat_worker wid WK_RUNNING (Some jr.(rec_id)) w).2 in
  reachable w → w.(db).(jobs) !! jr.(rec_id) = Some j → j.(job_status) = RUNNING →
  is_Some (w.(db).(workers) !! wid) → handler_keeps registry ctx jr.(rec_id) wid →
  wp (execute wid registry token jr audit) (fun r w' => r = Return tt ∧
    ∃ j2, ran.2.(db).(jobs) !! jr.(rec_id) = Some j2 ∧
      ended w' jr.(rec_id) wid (ending token j2.(job_cancel_requested) ran.1)) w.
Proof.
  intros ctx ran Hw%reachable_world_ok Hj Hr Hwk Hkeep.
  eapply wp_execute; [exact Hkeep|by split|]. eauto.
Qed.

(** a round of the worker with handlers that leave their job running either ends
    one queued job whose resource was free (terminal, its locks gone) and answers true,
    or answers false because no queued job's resource is free; it fails only on the
    default-key collision of [claim_next]. *)
Theorem run_once_correct wid registry registered token w :
  reachable w → worker_known w wid registered →
  (∀ jr audit, handler_keeps registry (mkContext audit jr (fun p => update_progress jr.(rec_id) p))
                 jr.(rec_id) wid) →
  wp (run_once wid registry registered token) (round_result wid w) w.
Proof. intros Hw%reachable_world_ok. by apply run_once_spec. Qed.

(** a failed job marks its audit for good: along any history that removes
    nothing the audit is RUNNING while work is pending and FAILED otherwise, even
    when a retry of that job has completed. *)
Theorem failed_job_sticks w w' k j a' :
  reachable w → rtc keeping_step w w' →
  w.(db).(jobs) !! k = Some j → j.(job_status) = FAILED →
  w'.(db).(audits) !! j.(job_audit_id) = Some a' →
  a'.(audit_status) = AUDIT_RUNNING ∨ a'.(audit_status) = AUDIT_FAILED.
Proof.
  intros Hw%reachable_world_ok Hsteps Hj Hf Ha'.
  destruct (keeping_world_ok _ _ Hsteps Hw) as [[[HS _] _] Hev].
  destruct (ev_jobs _ _ Hev _ _ Hj) as (j' & Hj' & He).
  pose proof (ev_terminal _ _ He) as Ht. rewrite Hf in Ht. specialize (Ht eq_refl). subst j'.
  assert (Hs : has_status w'.(db).(jobs) a'.(audit_id) FAILED).
  { exists k, j. by rewrite (ok_audit_key _ _ _ HS _ _ Ha'). }
  destruct (ok_audit _ _ _ HS _ _ Ha') as [[H _]|[_ [[_ H]|(xs & Hl & <-)]]].
  - by destruct (H FAILED).
  - by specialize (H _ Hs).
  - apply Hl in Hs. unfold aggregate_status. case_match; [by left|right].
    by rewrite bool_decide_true.
Qed.

(** C12: a worker alone with the queue empties it: when no job runs and no queued job has a
    negative limit, its polling loop, with handlers that leave their job running and the
    other jobs alone, raises nothing and ends one queued job per round; once it has run as
    many rounds as there were queued jobs, every job has ended. *)
Theorem run_forever_drains_queue wid registry tokens w :
  reachable w → (∀ k j, w.(db).(jobs) !! k = Some j → j.(job_status) ≠ RUNNING) →
  (∀ k r, w.(db).(workers) !! k = Some r → r.(worker_id) = k) →
  (∀ k j lim, w.(db).(jobs) !! k = Some j → j.(job_status) = QUEUED →
     j.(job_resource_limit) = Some lim → 0 ≤ lim) →
  quiet_registry registry wid →
  wp (run_forever wid registry tokens) (fun r w' => r = Return tt ∧
    (∀ k j, w'.(db).(jobs) !! k = Some j → j.(job_status) ≠ RUNNING) ∧ drained w w' ∧
    size (queued_ids w') = (size (queued_ids w) - length tokens)%nat ∧
    ((size (queued_ids w) <= length tokens)%nat →
       ∀ k j, w'.(db).(jobs) !! k = Some j → terminal j.(job_status) = true)) w.
Proof.
  intros Hw%reachable_world_ok Hno Hkeys Hlim Hquiet.
  eapply wp_mono; [apply wp_run_forever; [by split|done| |done]|].
  - intros k j Hj Hq. apply claimable_limit. by intros lim; apply (Hlim k).
  - intros r w' (-> & [_ Hno'] & Hd & Hs & Ht). by split_and!.
Qed.
End theorems.

(** ** The theorems on the demo history *)


Lemma audit_status_is_aggregate_witness :
  statuses_of demo_world.(db).(jobs) (unary 0) = [QUEUED; RUNNING; QUEUED] ∧
  ∃ a, demo_world.(db).(audits) !! unary 0 = Some a ∧
  match statuses_of demo_world.(db).(jobs) (unary 0) with
  | [] => a.(audit_status) = AUDIT_CREATED ∨ a.(audit_status) = AUDIT_FAILED
  | statuses => a.(audit_status) = aggregate_status statuses ∨
      a.(audit_status) = AUDIT_CREATED ∧ ∀ s, s ∈ statuses → s = QUEUED
  end.
Proof.
  split; [vm_compute; reflexivity|]. eexists. split; [vm_compute; reflexivity|].
  apply (audit_status_is_aggregate demo_world (unary 0) _ demo_reachable). vm_compute. reflexivity.
Defined.

(** The second capture on eth0 cannot run beside the first. *)
Lemma exclusive_resource_witness :
  (demo_job 2 demo_world).(job_status) = RUNNING ∧ unary 2 = unary 2.
Proof.
  split; [reflexivity|].
  apply (exclusive_resource demo_world (unary 2) (unary 2) (demo_job 2 demo_world)
    (demo_job 2 demo_world) "interface:eth0" demo_reachable); by vm_compute.
Defined.

Lemma group_limit_respected_witness :
  length (running_in_group demo_world.(db) "packet_capture") = 1%nat ∧
  Z.of_nat (length (running_in_group demo_world.(db) "packet_capture")) ≤ 2.
Proof.
  split; [vm_compute; reflexivity|].
  apply (group_limit_respected demo_world "packet_capture" 2 demo_reachable); [done|lia|].
  intros j Hj. vm_compute in Hj. apply list_elem_of_singleton in Hj. by subst j.
Defined.

Definition demo_finished : World :=
  run (CompleteJob (unary 2) (Some "artifact") (Some [("hosts", PInt 3)])) demo_world.

Lemma jobs_only_evolve_witness :
  ∃ j', demo_finished.(db).(jobs) !! unary 2 = Some j' ∧
    job_evolves (demo_job 2 demo_world) j' ∧ (1 ≤ job_rank j'.(job_status))%nat.
Proof.
  apply (jobs_only_evolve demo_world demo_finished (unary 2) (demo_job 2 demo_world) demo_reachable).
  - eapply rtc_l; [by apply (keeping_call demo_world
      (CompleteJob (unary 2) (Some "artifact") (Some [("hosts", PInt 3)])))|].
    constructor.
  - vm_compute. reflexivity.
Defined.

Lemma claim_next_correct_witness :
  wp (claim_next "w1") (claim_result "w1" demo_world) demo_world ∧
  ∃ r, (claim_next "w1" demo_world).1 = Return (Some r) ∧ r.(rec_id) = unary 3.
Proof.
  split; [apply (claim_next_correct "w1" demo_world demo_reachable)|].
  eexists. vm_compute. split; reflexivity.
Defined.

Lemma complete_job_correct_witness :
  (∃ r, (complete_job (unary 2) None None demo_world).1 = Return r ∧
        r.(rec_status) = COMPLETED) ∧
  wp (complete_job (unary 2) None None) (fun r w' =>
    match r with
    | Return _ => ∃ j j', demo_world.(db).(jobs) !! unary 2 = Some j ∧ finished demo_world w' j j' ∧
        j'.(job_status) = COMPLETED ∧ j'.(job_progress) = 100 ∧ j'.(job_result_reference) = None
    | Raise _ => w'.(db) = demo_world.(db) ∧
        ∀ j, demo_world.(db).(jobs) !! unary 2 = Some j → j.(job_status) ≠ RUNNING
    end) demo_world.
Proof.
  split; [eexists; vm_compute; split; reflexivity|].
  apply (complete_job_correct (unary 2) None None demo_world demo_reachable).
Defined.

Definition demo_error : JobError :=
  mkJobError "tool_failed" INTERNAL "dumpcap exited with status 1" "packet_capture" true [].

Lemma fail_job_correct_witness :
  (∃ r, (fail_job (unary 2) demo_error demo_world).1 = Return r ∧ r.(rec_progress) = 40) ∧
  wp (fail_job (unary 2) demo_error) (fun r w' =>
    match r with
    | Return _ => ∃ j j', demo_world.(db).(jobs) !! unary 2 = Some j ∧ finished demo_world w' j j' ∧
        j'.(job_status) = FAILED ∧ j'.(job_progress) = j.(job_progress) ∧
        j'.(job_error_code) = Some "tool_failed"
    | Raise _ => w'.(db) = demo_world.(db) ∧
        ∀ j, demo_world.(db).(jobs) !! unary 2 = Some j → j.(job_status) ≠ RUNNING
    end) demo_world.
Proof.
  split; [eexists; vm_compute; split; reflexivity|].
  apply (fail_job_correct (unary 2) demo_error demo_world demo_reachable).
Defined.

Lemma request_cancel_correct_witness :
  (∃ r, (request_cancel (unary 1) demo_world).1 = Return r ∧ r.(rec_status) = CANCELLED) ∧
  wp (request_cancel (unary 1)) (fun r w' =>
    match r with
    | Return _ => cancel_requested demo_world w' (unary 1)
    | Raise e => e = EntityNotFound "Job" (unary 1) ∧ w'.(db) = demo_world.(db)
    end) demo_world.
Proof.
  split; [eexists; vm_compute; split; reflexivity|].
  apply (request_cancel_correct (unary 1) demo_world demo_reachable).
Defined.

Lemma recovery_correct_witness :
  length (running_jobs demo_world.(db)) = 1%nat ∧
  wp recover_after_restart (fun r w' =>
    r = Return (Z.of_nat (length (running_jobs demo_world.(db)))) ∧ recovered demo_world w')
    demo_world.
Proof.
  split; [vm_compute; reflexivity|apply (recovery_correct demo_world demo_reachable)].
Defined.

Lemma single_supervisor_witness :
  (prepare_supervisor "supervisor" 60 demo_world).1 = Raise WorkerAlreadyRunning ∧
  wp (prepare_supervisor "supervisor" 60) (fun r w' =>
    let cutoff := clock demo_world.(clock_reads) - seconds 60 in
    match r with
    | Return n => n = Z.of_nat (length (running_jobs demo_world.(db))) ∧
        (∀ k r, demo_world.(db).(workers) !! k = Some r → ¬ active_worker cutoff r) ∧
        ∃ w1, recovered demo_world w1 ∧ only_workers w1 w'
    | Raise e => e = WorkerAlreadyRunning ∧ w'.(db) = demo_world.(db) ∧
        ∃ k r, demo_world.(db).(workers) !! k = Some r ∧ active_worker cutoff r
    end) demo_world.
Proof.
  split; [vm_compute; reflexivity|].
  apply (single_supervisor "supervisor" 60 demo_world demo_reachable).
Defined.

(** The demo with the running capture failed. *)
Definition demo_failed : World := run_all (demo_calls ++ [FailJob (unary 2) demo_error]) init_world.

Lemma demo_failed_reachable : reachable demo_failed.
Proof. apply run_all_reachable; [constructor|]. by repeat split. Qed.

(** The other packet captures still wait, so the retry is refused; once they are
    cancelled it goes through. *)
Definition demo_stopped : World :=
  run_all (demo_calls ++ [FailJob (unary 2) demo_error; RequestCancel (unary 1);
                          RequestCancel (unary 3)]) init_world.

Lemma demo_stopped_reachable : reachable demo_stopped.
Proof. apply run_all_reachable; [constructor|]. by repeat split. Qed.

Lemma retry_correct_witness :
  (∃ r, (retry (unary 2) None demo_stopped).1 = Return r ∧ r.(rec_id) = unary 4) ∧
  wp (retry (unary 2) None) (retry_result demo_stopped (unary 2)) demo_stopped.
Proof.
  split; [eexists; vm_compute; split; reflexivity|].
  apply (retry_correct (unary 2) None demo_stopped demo_stopped_reachable).
Defined.

Lemma delete_audit_correct_witness :
  (delete_audit (unary 0) demo_stopped).1 = Return 0 ∧
  wp (delete_audit (unary 0)) (delete_result demo_stopped (unary 0)) demo_stopped.
Proof.
  split; [vm_compute; reflexivity|].
  apply (delete_audit_correct (unary 0) demo_stopped demo_stopped_reachable).
Defined.

(** A handler that returns at once. *)
Definition demo_registry : HandlerRegistry :=
  [("packet_capture", fun _ => mret (mkResult (Some "artifact") []))].

Definition demo_record : JobRecord :=
  match (get_job (unary 2) demo_world).1 with
  | Return r => r
  | Raise _ => mkJobRecord "" "" "" QUEUED 0 0 None None 0 0 "" None None [] None false None 0
                 None None None
  end.

Definition demo_context (audit : AuditModel) : HandlerContext :=
  mkContext audit demo_record (fun p => update_progress demo_record.(rec_id) p).

Definition demo_audit : AuditModel :=
  mkAudit "" 0 None None AUDIT_RUNNING "standard" None [] None None [] None.

Lemma execute_ends_job_witness :
  let audit := demo_audit in let ran := handler_run demo_registry (demo_context audit)
               (heartbeat_worker "w1" WK_RUNNING (Some demo_record.(rec_id)) demo_world).2 in
  wp (execute "w1" demo_registry false demo_record audit) (fun r w' => r = Return tt ∧
    ∃ j2, ran.2.(db).(jobs) !! demo_record.(rec_id) = Some j2 ∧
      ended w' demo_record.(rec_id) "w1" (ending false j2.(job_cancel_requested) ran.1)) demo_world.
Proof.
  intros audit ran. apply (execute_ends_job "w1" demo_registry false demo_record audit
    (demo_job 2 demo_world) demo_world demo_reachable); [vm_compute; reflexivity|reflexivity| |].
  - vm_compute. eexists. reflexivity.
  - intros w j Hrun. exists j. exact Hrun.
Defined.

Lemma run_once_correct_witness :
  wp (run_once "w1" demo_registry true false) (round_result "w1" demo_world) demo_world.
Proof.
  apply (run_once_correct "w1" demo_registry true false demo_world demo_reachable).
  - vm_compute. eexists. reflexivity.
  - intros jr audit w j Hrun. exists j.
    assert ((handler_run demo_registry (mkContext audit jr (fun p => update_progress jr.(rec_id) p)) w).2
      = w) as Hsame; [|rewrite Hsame; exact Hrun].
    unfold handler_run, resolve, mbind, prog_bind. cbn [context_job find_handler demo_registry].
    destruct (String.eqb "packet_capture" jr.(rec_type)); reflexivity.
Defined.

(** Three captures queued and a worker that never ran. *)
Definition demo_queue : World :=
  run_all [CreateAudit "standard" (Some "eth0") None (Some "admin");
           demo_capture (unary 0) "interface:eth0" 5; demo_capture (unary 0) "interface:eth0" 9;
           demo_capture (unary 0) "interface:eth1" 1] init_world.

(** A property of every row, from the table's list. *)
Lemma rows_by_list {R} (t : gmap string R) (p : R → bool) :
  forallb (fun kv => p kv.2) (map_to_list t) = true → ∀ k r, t !! k = Some r → p r = true.
Proof.
  intros Hall k r Hr. rewrite forallb_elem_of in Hall. apply (Hall (k, r)). by apply elem_of_map_to_list.
Qed.

Lemma run_forever_drains_queue_witness :
  size (queued_ids demo_queue) = 3%nat ∧
  wp (run_forever "w1" demo_registry [false; true; false]) (fun r w' => r = Return tt ∧
    ∀ k j, w'.(db).(jobs) !! k = Some j → terminal j.(job_status) = true) demo_queue.
Proof.
  split; [vm_compute; reflexivity|].
  assert (reachable demo_queue) as Hr by (apply run_all_reachable; [constructor|]; by repeat split).
  assert (∀ k j, demo_queue.(db).(jobs) !! k = Some j →
    bool_decide (j.(job_status) = QUEUED) && bool_decide (j.(job_resource_limit) = Some 2) = true) as Hrows
    by (apply rows_by_list; vm_compute; reflexivity).
  eapply wp_mono; [apply (run_forever_drains_queue "w1" demo_registry [false; true; false] demo_queue Hr)|].
  - intros k j [Hq%bool_decide_eq_true_1 _]%Hrows%andb_true_iff. by rewrite Hq.
  - intros k r Hk. exfalso. assert (demo_queue.(db).(workers) = ∅) as E by (vm_compute; reflexivity).
    rewrite E, lookup_empty in Hk. discriminate.
  - intros k j lim [_ Hl%bool_decide_eq_true_1]%Hrows%andb_true_iff _ Hlim. assert (lim = 2) by congruence. lia.
  - intros jr audit.
    assert (∀ w, (handler_run demo_registry (mkContext audit jr (fun p => update_progress jr.(rec_id) p)) w).2 = w) as Hsame.
    { intros w. unfold handler_run, resolve, mbind, prog_bind. cbn [context_job find_handler demo_registry].
      destruct (String.eqb "packet_capture" jr.(rec_type)); reflexivity. }
    split; [intros w j Hrun; exists j|intros w j _ k _]; rewrite Hsame; [exact Hrun|reflexivity].
  - intros r w' (-> & _ & _ & _ & Ht). split; [reflexivity|]. apply Ht. vm_compute. lia.
Defined.

(** After a retry that completed, the audit is still FAILED and accepts no job. *)
Definition demo_failure : World := run (FailJob (unary 2) demo_error) demo_world.

Definition demo_retrying : list call :=
  [RequestCancel (unary 1); RequestCancel (unary 3);
   Retry (unary 2) None; ClaimNext "w1"; CompleteJob (unary 4) None None].

Definition demo_retried_world : World := run_all demo_retrying demo_failure.

Lemma failed_job_sticks_witness :
  (demo_job 4 demo_retried_world).(job_status) = COMPLETED ∧
  ∃ a', demo_retried_world.(db).(audits) !! unary 0 = Some a' ∧
    (a'.(audit_status) = AUDIT_RUNNING ∨ a'.(audit_status) = AUDIT_FAILED).
Proof.
  split; [vm_compute; reflexivity|]. eexists. split; [vm_compute; reflexivity|].
  apply (failed_job_sticks demo_failure demo_retried_world (unary 2) (demo_job 2 demo_failure) _).
  - eapply rtc_r; [exact demo_reachable|by apply (step_call demo_world (FailJob (unary 2) demo_error))].
  - apply (run_all_keeping demo_retrying demo_failure); [by repeat split|reflexivity].
  - vm_compute. reflexivity.
  - vm_compute. reflexivity.
  - vm_compute. reflexivity.
Defined.

Lemma retry_does_not_restore_audit :
  (demo_job 4 demo_retried_world).(job_status) = COMPLETED ∧
  audit_status <$> demo_retried_world.(db).(audits) !! unary 0 = Some AUDIT_FAILED ∧
  (create_job (unary 0) "report_generation" None None 0 None None None demo_retried_world).1 =
    Raise (InvalidAuditTransition AUDIT_FAILED AUDIT_RUNNING
             (Some "Cannot enqueue a job because the audit is failed")).
Proof. vm_compute. done. Qed.

(** [fail_audit] on an audit whose first job already runs, as when the request that
    created the audit fails after another client saw it: completing the job and
    recovering after a restart are then both refused. *)
Definition demo_race : World :=
  run_all [CreateAudit "standard" None None None;
     CreateJob (unary 0) "packet_capture" None None 0 None None None; ClaimNext "w1";
     FailAudit (unary 0) demo_error] init_world.

Lemma fail_audit_race :
  (complete_job (unary 1) None None demo_race).1 =
    Raise (InvalidAuditTransition AUDIT_FAILED AUDIT_COMPLETED None) ∧
  (recover_after_restart demo_race).1 =
    Raise (InvalidAuditTransition AUDIT_FAILED AUDIT_INTERRUPTED None).
Proof. vm_compute. done. Qed.
