(* ===== verification/Sha256.v ===== *)
(** * SHA-256, HMAC and PBKDF2 ([hashlib], [hmac])

    Bytes and 32-bit words are integers; a message is a list of bytes. *)

From S2P Require Import Prelude PyBase PyText.

Abbreviation bytes := (list Z).

(** The UTF-8 bytes of a string. *)
Fixpoint encode (s : string) : bytes :=
  match s with EmptyString => [] | String c s' => code c :: encode s' end.

(** [b.hex()] *)
Definition hex (b : bytes) : string := concat (List.map hex2 b).

(** ** Words *)

Definition word (n : Z) : Z := n mod 2 ^ 32.
Definition add32 (a b : Z) : Z := word (a + b).
Definition rotr (n x : Z) : Z := Z.lor (Z.shiftr x n) (word (Z.shiftl x (32 - n))).
Definition not32 (x : Z) : Z := 2 ^ 32 - 1 - x.

Definition ch (x y z : Z) : Z := Z.lxor (Z.land x y) (Z.land (not32 x) z).
Definition maj (x y z : Z) : Z := Z.lxor (Z.lxor (Z.land x y) (Z.land x z)) (Z.land y z).
Definition big_sigma0 (x : Z) : Z := Z.lxor (Z.lxor (rotr 2 x) (rotr 13 x)) (rotr 22 x).
Definition big_sigma1 (x : Z) : Z := Z.lxor (Z.lxor (rotr 6 x) (rotr 11 x)) (rotr 25 x).
Definition sigma0 (x : Z) : Z := Z.lxor (Z.lxor (rotr 7 x) (rotr 18 x)) (Z.shiftr x 3).
Definition sigma1 (x : Z) : Z := Z.lxor (Z.lxor (rotr 17 x) (rotr 19 x)) (Z.shiftr x 10).

Definition round_constants : list Z :=
  [1116352408; 1899447441; 3049323471; 3921009573; 961987163; 1508970993; 2453635748; 2870763221;
   3624381080; 310598401; 607225278; 1426881987; 1925078388; 2162078206; 2614888103; 3248222580;
   3835390401; 4022224774; 264347078; 604807628; 770255983; 1249150122; 1555081692; 1996064986;
   2554220882; 2821834349; 2952996808; 3210313671; 3336571891; 3584528711; 113926993; 338241895;
   666307205; 773529912; 1294757372; 1396182291; 1695183700; 1986661051; 2177026350; 2456956037;
   2730485921; 2820302411; 3259730800; 3345764771; 3516065817; 3600352804; 4094571909; 275423344;
   430227734; 506948616; 659060556; 883997877; 958139571; 1322822218; 1537002063; 1747873779;
   1955562222; 2024104815; 2227730452; 2361852424; 2428436474; 2756734187; 3204031479; 3329325298].

Definition initial_state : list Z :=
  [1779033703; 3144134277; 1013904242; 2773480762; 1359893119; 2600822924; 528734635; 1541459225].

(** ** Messages *)

(** Big-endian bytes of the low [8 * n] bits. *)
Fixpoint be_bytes (n : nat) (x : Z) : bytes :=
  match n with O => [] | S n' => be_bytes n' (x / 256) ++ [x mod 256] end.

Definition be_value (b : bytes) : Z := foldl (fun acc x => acc * 256 + x) 0 b.

Definition padding (len : Z) : bytes :=
  128 :: replicate (Z.to_nat ((55 - len) mod 64)) 0 ++ be_bytes 8 (8 * len).

Definition padded (m : bytes) : bytes := m ++ padding (Z.of_nat (length m)).

(** Pieces of [k] elements; [fuel] bounds their number. *)
Fixpoint chunks {A} (k fuel : nat) (l : list A) : list (list A) :=
  match fuel, l with
  | O, _ | _, [] => []
  | S fuel', _ => take k l :: chunks k fuel' (drop k l)
  end.

Definition blocks (m : bytes) : list bytes := chunks 64 (length m) m.

(** ** Compression *)

(** Words 16 to 63, from the last sixteen, newest first. *)
Fixpoint extend_words (n : nat) (recent : list Z) : list Z :=
  match n with
  | O => recent
  | S n' =>
      let w := word (sigma1 (nth 1 recent 0) + nth 6 recent 0 +
                     sigma0 (nth 14 recent 0) + nth 15 recent 0) in
      extend_words n' (w :: recent)
  end.

Definition schedule (block : bytes) : list Z :=
  rev (extend_words 48 (rev (List.map be_value (chunks 4 16 block)))).

Definition sha_round (s : list Z) (kw : Z * Z) : list Z :=
  match s with
  | [a; b; c; d; e; f; g; h] =>
      let t1 := h + big_sigma1 e + ch e f g + kw.1 + kw.2 in
      let t2 := big_sigma0 a + maj a b c in
      [word (t1 + t2); a; b; c; add32 d t1; e; f; g]
  | _ => s
  end.

Definition compress (state : list Z) (block : bytes) : list Z :=
  zip_with add32 state (foldl sha_round state (zip round_constants (schedule block))).

Definition sha256 (m : bytes) : bytes :=
  flat_map (be_bytes 4) (foldl compress initial_state (blocks (padded m))).

(** ** HMAC and PBKDF2 *)

Definition BLOCK : nat := 64.

Definition hmac_key (key : bytes) : bytes :=
  let k := if (BLOCK <? length key)%nat then sha256 key else key in
  k ++ replicate (BLOCK - length k) 0.

Definition hmac_sha256 (key message : bytes) : bytes :=
  let k := hmac_key key in
  sha256 (List.map (Z.lxor 92) k ++ sha256 (List.map (Z.lxor 54) k ++ message)).

Definition xor_bytes : bytes → bytes → bytes := zip_with Z.lxor.

(** [u] is the last HMAC, [acc] the XOR of all so far. *)
Fixpoint pbkdf2_iterate (n : nat) (password u acc : bytes) : bytes :=
  match n with
  | O => acc
  | S n' => let u' := hmac_sha256 password u in pbkdf2_iterate n' password u' (xor_bytes acc u')
  end.

Definition pbkdf2_block (password salt : bytes) (iterations : Z) (i : nat) : bytes :=
  let u := hmac_sha256 password (salt ++ be_bytes 4 (Z.of_nat i)) in
  pbkdf2_iterate (Z.to_nat (iterations - 1)) password u u.

(** [hashlib.pbkdf2_hmac("sha256", password, salt, iterations, dklen)] *)
Definition pbkdf2_hmac (password salt : bytes) (iterations : Z) (dklen : nat) : outcome PyExc bytes :=
  if iterations <? 1 then Raise (PyValueError "iteration value must be greater than 0.")
  else if 2 ^ 31 - 1 <? iterations then Raise (PyOverflowError "iteration value is too great.")
  else if (dklen =? 0)%nat then Raise (PyValueError "key length must be greater than 0.")
  else Return (take dklen (flat_map (pbkdf2_block password salt iterations) (seq 1 ((dklen + 31) / 32)))).

(** ** Test vectors *)

Example sha256_abc :
  hex (sha256 (encode "abc")) = "ba7816bf8f01cfea414140de5dae2223b00361a396177a9cb410ff61f20015ad".
Proof. vm_compute. reflexivity. Qed.

Example hmac_vector :
  hex (hmac_sha256 (encode "Jefe") (encode "what do ya want for nothing?")) =
    "5bdcc146bf60754e6a042426089575c75a003f089d2739839dec58b964ec3843".
Proof. vm_compute. reflexivity. Qed.

Example pbkdf2_vector :
  match pbkdf2_hmac (encode "password") (encode "salt") 2 32 with
  | Return k => hex k = "ae4d0c95af6b46d32d0adff928f06dd02a303f8ef3c251dfd6e2d85a95474c43"
  | Raise _ => False
  end.
Proof. vm_compute. reflexivity. Qed.

(** ** Lengths and ranges *)

Lemma length_be_bytes n x : length (be_bytes n x) = n.
Proof. revert x. induction n as [|n IH]; intros x; [done|]. cbn. rewrite length_app, IH. cbn. lia. Qed.

Lemma be_bytes_range n x b : b ∈ be_bytes n x → 0 ≤ b < 256.
Proof.
  revert x. induction n as [|n IH]; intros x; [by intros ?%elem_of_nil|].
  intros [?%IH| ->%list_elem_of_singleton]%elem_of_app; [done|]. apply Z.mod_pos_bound. lia.
Qed.

Lemma length_compress s b : length s = 8%nat → length (compress s b) = 8%nat.
Proof.
  intros Hs. unfold compress. rewrite length_zip_with, Hs.
  assert (∀ l t, length t = 8%nat → length (foldl sha_round t l) = 8%nat) as H; [|by rewrite (H _ s Hs)].
  induction l as [|kw l IH]; intros t Ht; [done|]. cbn [foldl]. apply IH.
  do 9 (destruct t as [|? t]; try done).
Qed.

Lemma length_flat_map_const {A B} (f : A → list B) k l :
  (∀ a, length (f a) = k) → length (flat_map f l) = (k * length l)%nat.
Proof. intros Hf. induction l as [|a l IH]; cbn; [lia|]. rewrite length_app, IH, Hf. lia. Qed.

Lemma length_sha256 m : length (sha256 m) = 32%nat.
Proof.
  unfold sha256. rewrite (length_flat_map_const _ 4) by (intros; apply length_be_bytes).
  assert (∀ l s, length s = 8%nat → length (foldl compress s l) = 8%nat) as ->; [|done..].
  induction l as [|b l IH]; intros s Hs; [done|]. cbn [foldl]. by apply IH, length_compress.
Qed.

Lemma sha256_range m b : b ∈ sha256 m → 0 ≤ b < 256.
Proof.
  unfold sha256. rewrite list_elem_of_In, in_flat_map. intros (w & _ & Hb).
  apply list_elem_of_In in Hb. by eapply be_bytes_range.
Qed.
