(* ===== verification/Auth.v ===== *)
(** * Operators, passwords and sessions ([auth/], [backend/security.py])

    Users and sessions as tables, the in-memory failure window, every method of
    [AuthService], and the guard in front of the routes.  Readings of the monotonic
    clock are integers; [os.urandom] and [secrets.token_urlsafe] are the runtime's. *)

From S2P Require Import Prelude PyBase PyText JobModels JobStore Sha256.

(** ** Sources of randomness and time *)

Class Entropy : Type := {
  (** the n-th value of [os.urandom(SALT_BYTES)] *)
  urandom : nat → bytes;
  (** the n-th value of [secrets.token_urlsafe(32)] *)
  token_urlsafe : nat → string;
  (** the n-th reading of [time.monotonic()] *)
  monotonic : nat → Z
}.

(** ** auth/models.py *)

Inductive Role : Type := AUDITOR | VIEWER.
#[export] Instance Role_eq_dec : EqDecision Role.
Proof. solve_decision. Defined.

Record SessionUser : Type := mkSessionUser {
  user_record_id : string;
  user_record_name : string;
  role : Role;
  user_record_created : datetime
}.
#[export] Instance SessionUser_eq_dec : EqDecision SessionUser.
Proof. solve_decision. Defined.

Definition can_mutate (u : SessionUser) : bool := bool_decide (u.(role) = AUDITOR).

(** ** auth/passwords.py *)

Definition SCHEME : string := "pbkdf2_sha256".
Definition ITERATIONS : Z := 210000.
Definition SALT_BYTES : nat := 16.
Definition DIGEST_BYTES : nat := 32.

Definition dollar : ascii := chr 36.

(** The stored text of a salt and a digest. *)
Definition hash_text (iterations : Z) (salt digest : bytes) : string :=
  SCHEME +:+ String dollar (str_int iterations +:+ String dollar (hex salt +:+
    String dollar (hex digest))).

Definition hash_password (password : string) (salt : bytes) : outcome PyExc string :=
  if negb (nonempty password) then Raise (PyValueError "password must not be empty")
  else digest ← pbkdf2_hmac (encode password) salt ITERATIONS DIGEST_BYTES;
       mret (hash_text ITERATIONS salt digest).

(** [bytes.fromhex(s)]: white space may stand between the pairs. *)
Fixpoint fromhex (s : string) : option bytes :=
  match s with
  | EmptyString => Some []
  | String c s' =>
      if is_space c then fromhex s'
      else match s' with
           | String d s'' => h ← hex_nibble c; l ← hex_nibble d; b ← fromhex s''; Some (16 * h + l :: b)
           | EmptyString => None
           end
  end.

(** [stored.split("$", 3)] unpacked into four names; [None] is ValueError. *)
Definition split_hash (stored : string) : option (string * string * string * string) :=
  match split_once dollar stored with
  | (scheme, Some rest) =>
      match split_once dollar rest with
      | (iterations, Some rest) =>
          match split_once dollar rest with
          | (salt, Some digest) => Some (scheme, iterations, salt, digest)
          | _ => None
          end
      | _ => None
      end
  | _ => None
  end.

Definition verify_password (password stored : string) : outcome PyExc bool :=
  match ('(scheme, iteration_text, salt_hex, digest_hex) ← split_hash stored;
         iterations ← int_of_str iteration_text;
         salt ← fromhex salt_hex;
         expected ← fromhex digest_hex;
         Some (scheme, iterations, salt, expected)) with
  | None => Return false
  | Some (scheme, iterations, salt, expected) =>
      if negb (String.eqb scheme SCHEME) || (iterations <? 1) then Return false
      else candidate ← pbkdf2_hmac (encode password) salt iterations (length expected);
           mret (bool_decide (candidate = expected))
  end.

Definition token_digest (token : string) : string := hex (sha256 (encode token)).

Definition dummy_hash : outcome PyExc string :=
  hash_password "wirescope-invalid-login" (replicate SALT_BYTES 0).

(** ** Tables *)

(** [UserModel] *)
Record UserModel : Type := mkUser {
  user_id : string;
  username : string;
  password_hash : string;
  user_role : Role;
  disabled : bool;
  user_created_at : datetime
}.
#[export] Instance eta_UserModel : Eta UserModel := fun u =>
  mkUser u.(user_id) u.(username) u.(password_hash) u.(user_role) u.(disabled) u.(user_created_at).

(** [SessionModel]; the key is the digest of the token. *)
Record SessionModel : Type := mkSession {
  session_id : string;
  session_user_id : string;
  session_created_at : datetime;
  expires_at : datetime;
  last_seen_at : datetime
}.
#[export] Instance eta_SessionModel : Eta SessionModel := fun s =>
  mkSession s.(session_id) s.(session_user_id) s.(session_created_at) s.(expires_at) s.(last_seen_at).

Inductive AuthExc : Type :=
  | AuthError (code : string)
  | AuthIntegrityError (constraint : string)
  | AuthPyExc (e : PyExc).
#[export] Instance AuthExc_eq_dec : EqDecision AuthExc.
Proof. solve_decision. Defined.

(** The database, the failure stamps of [AttemptThrottle], and the readings made. *)
Record AuthWorld : Type := mkAuthWorld {
  users : gmap string UserModel;
  sessions : gmap string SessionModel;
  failures : list (string * list Z);
  auth_clock_reads : nat;
  auth_uuids_drawn : nat;
  salts_drawn : nat;
  tokens_drawn : nat;
  monotonic_reads : nat
}.
#[export] Instance eta_AuthWorld : Eta AuthWorld := fun w =>
  mkAuthWorld w.(users) w.(sessions) w.(failures) w.(auth_clock_reads) w.(auth_uuids_drawn)
    w.(salts_drawn) w.(tokens_drawn) w.(monotonic_reads).

Abbreviation AM := (prog AuthWorld AuthExc).

Definition lift_py {A} (m : outcome PyExc A) : AM A :=
  match m with Return a => mret a | Raise e => raise (AuthPyExc e) end.

(** [with self.database.session() as session, session.begin()] *)
Definition auth_transaction {A} (body : AM A) : AM A := fun w =>
  match body w with
  | (Return a, w') => (Return a, w')
  | (Raise e, w') => (Raise e, w' <| users := w.(users) |> <| sessions := w.(sessions) |>)
  end.

(** ** AttemptThrottle *)

Definition PASSWORD_CHANGE_MAX_FAILURES : nat := 8.

Definition dict_pop {V} (d : list (string * V)) (k : string) : list (string * V) :=
  List.filter (fun kv => negb (String.eqb kv.1 k)) d.

Section throttle.
(** [PASSWORD_CHANGE_WINDOW_SECONDS], in units of the monotonic clock *)
Context (window : Z).

Definition recent (now : Z) (stamps : list Z) : list Z :=
  List.filter (fun stamp => now - stamp <? window) stamps.

Definition _prune (key : string) (now : Z) : AM (list Z) := fun w =>
  let stamps := recent now (default [] (dict_get w.(failures) key)) in
  (Return stamps,
   w <| failures ::= fun d => match stamps with [] => dict_pop d key | _ => dict_set d key stamps end |>).

Definition blocked (key : string) (now : Z) : AM bool :=
  stamps ← _prune key now; mret (PASSWORD_CHANGE_MAX_FAILURES <=? length stamps)%nat.

Definition record_failure (key : string) (now : Z) : AM unit :=
  stamps ← _prune key now; modify (fun w => w <| failures ::= fun d => dict_set d key (stamps ++ [now]) |>).

Definition clear (key : string) : AM unit :=
  modify (fun w => w <| failures ::= fun d => dict_pop d key |>).
End throttle.

(** ** AuthService *)

Definition MIN_PASSWORD_LENGTH : Z := 8.

Definition name_end (c : ascii) : bool := is_alnum c.
Definition name_mid (c : ascii) : bool :=
  is_alnum c || Ascii.eqb c (chr 46) || Ascii.eqb c (chr 95) || Ascii.eqb c (chr 45).

(** [USERNAME_PATTERN.fullmatch] *)
Definition username_ok (s : string) : bool :=
  match s with
  | EmptyString => false
  | String c rest =>
      name_end c && str_all name_mid rest && (2 <=? String.length rest)%nat &&
      (String.length rest <=? 63)%nat &&
      match last_char rest with Some d => name_end d | None => false end
  end.

Definition _normalize_username (s : string) : string := strip s.

Definition _user_record (u : UserModel) : SessionUser :=
  mkSessionUser u.(user_id) u.(username) u.(user_role) u.(user_created_at).

Section service.
Context `{Runtime, Entropy}.

(** [settings.session_ttl_seconds] in microseconds, and the throttle's window *)
Context (session_ttl window : Z).

Definition auth_now : AM datetime := fun w =>
  (Return (clock w.(auth_clock_reads)), w <| auth_clock_reads ::= S |>).
Definition auth_uuid : AM string := fun w =>
  (Return (uuid4 w.(auth_uuids_drawn)), w <| auth_uuids_drawn ::= S |>).
Definition auth_salt : AM bytes := fun w =>
  (Return (urandom w.(salts_drawn)), w <| salts_drawn ::= S |>).
Definition new_session_token : AM string := fun w =>
  (Return (token_urlsafe w.(tokens_drawn)), w <| tokens_drawn ::= S |>).
Definition monotonic_now : AM Z := fun w =>
  (Return (monotonic w.(monotonic_reads)), w <| monotonic_reads ::= S |>).

(** [session.scalar(select(UserModel).where(UserModel.username == name))] *)
Definition user_named (w : AuthWorld) (name : string) : option UserModel :=
  find_first (fun u => String.eqb u.(username) name) (map_to_list w.(users)).*2.

(** The flush of a new user: primary key and unique index. *)
Definition insert_user (u : UserModel) : AM unit := fun w =>
  match w.(users) !! u.(user_id), user_named w u.(username) with
  | None, None => (Return tt, w <| users ::= insert u.(user_id) u |>)
  | _, _ => (Raise (AuthIntegrityError "users"), w)
  end.

Definition create_user (name password : string) (r : Role) : AM SessionUser :=
  let normalized := _normalize_username name in
  if negb (username_ok normalized) then raise (AuthError "invalid_username")
  else if str_len password <? MIN_PASSWORD_LENGTH then raise (AuthError "invalid_password")
  else
    id ← auth_uuid;
    salt ← auth_salt;
    hashed ← lift_py (hash_password password salt);
    try_except
      (auth_transaction
         (created ← auth_now;
          let u := mkUser id normalized hashed r false created in
          _ ← insert_user u; mret (_user_record u)))
      (fun e => match e with
                | AuthIntegrityError _ => raise (AuthError "username_taken")
                | _ => raise e
                end).

(** The two pairs of the settings; [table_exists] and [table_readable] say whether the
    [users] table is there and can be queried. *)
Definition bootstrap (table_exists table_readable : bool) (auditor viewer : string * string)
    : AM (list SessionUser) :=
  if negb table_exists then mret []
  else if negb table_readable then mret []
  else
    existing ← reads (fun w => bool_decide (w.(users) = ∅));
    if negb existing then mret []
    else
      created ← for_each
        (fun p => let '(name, password, r) := p in
                  if negb (nonempty name) && negb (nonempty password) then mret None
                  else u ← create_user name password r; mret (Some u))
        [(auditor, AUDITOR); (viewer, VIEWER)];
      mret (flat_map (fun o => match o with Some u => [u] | None => [] end) created).

Definition authenticate (name password : string) : AM SessionUser :=
  let normalized := strip name in
  model ← reads (fun w => user_named w normalized);
  stored ← match model with Some u => mret u.(password_hash) | None => lift_py dummy_hash end;
  valid ← lift_py (verify_password password stored);
  match model with
  | Some u => if negb valid || u.(disabled) then raise (AuthError "invalid_credentials")
              else mret (_user_record u)
  | None => raise (AuthError "invalid_credentials")
  end.

Definition optional_digest (token : option string) : option string :=
  match token with Some (String c t) => Some (token_digest (String c t)) | _ => None end.

(** [delete(SessionModel).where(user_id == ..., id != keep)] *)
Definition revoke_user (id : string) (keep : option string) : AM unit :=
  modify (fun w => w <| sessions ::= filter (fun ks =>
    ¬ (ks.2.(session_user_id) = id ∧ keep ≠ Some ks.1)) |>).

Definition set_password (name password : string) (keep_token : option string) : AM SessionUser :=
  let normalized := _normalize_username name in
  if str_len password <? MIN_PASSWORD_LENGTH then raise (AuthError "invalid_password")
  else
    auth_transaction
      (model ← reads (fun w => user_named w normalized);
       match model with
       | None => raise (AuthError "unknown_user")
       | Some u =>
           if u.(disabled) then raise (AuthError "user_disabled")
           else
             salt ← auth_salt;
             hashed ← lift_py (hash_password password salt);
             let u' := u <| password_hash := hashed |> in
             _ ← modify (fun w => w <| users ::= insert u.(user_id) u' |>);
             _ ← revoke_user u.(user_id) (optional_digest keep_token);
             mret (_user_record u')
       end).

Definition change_password (user : SessionUser) (current_password new_password : string)
    (keep_token : option string) : AM SessionUser :=
  let key := user.(user_record_id) in
  let refuse : AM SessionUser :=
    now ← monotonic_now; _ ← record_failure window key now; raise (AuthError "invalid_credentials") in
  now ← monotonic_now;
  is_blocked ← blocked window key now;
  if (is_blocked : bool) then raise (AuthError "invalid_credentials")
  else
    authenticated ← try_except (u ← authenticate user.(user_record_name) current_password; mret (Some u))
      (fun e => match e with AuthError _ => mret None | _ => raise e end);
    match authenticated with
    | None => refuse
    | Some found =>
        if negb (String.eqb found.(user_record_id) user.(user_record_id)) then refuse
        else
          changed ← set_password user.(user_record_name) new_password keep_token;
          _ ← clear key;
          mret changed
    end.

(** The flush of a new session: primary key, then the user it refers to. *)
Definition insert_session (s : SessionModel) : AM unit := fun w =>
  if bool_decide (is_Some (w.(sessions) !! s.(session_id)))
  then (Raise (AuthIntegrityError "sessions"), w)
  else if bool_decide (is_Some (w.(users) !! s.(session_user_id)))
  then (Return tt, w <| sessions ::= insert s.(session_id) s |>)
  else (Raise (AuthIntegrityError "FOREIGN KEY"), w).

Definition create_session (user : SessionUser) : AM string :=
  token ← new_session_token;
  now ← auth_now;
  _ ← auth_transaction
        (created ← auth_now;
         seen ← auth_now;
         insert_session (mkSession (token_digest token) user.(user_record_id) created
                           (now + session_ttl) seen));
  mret token.

Definition delete_session (digest : string) : AM unit :=
  modify (fun w => w <| sessions ::= delete digest |>).

Definition resolve_token (token : option string) : AM (option SessionUser) :=
  match optional_digest token with
  | None => mret None
  | Some digest =>
      now ← auth_now;
      auth_transaction
        (found ← reads (fun w => w.(sessions) !! digest);
         match found with
         | None => mret None
         | Some s =>
             if s.(expires_at) <=? now then _ ← delete_session digest; mret None
             else
               user ← reads (fun w => w.(users) !! s.(session_user_id));
               match user with
               | Some u =>
                   if u.(disabled) then _ ← delete_session digest; mret None
                   else _ ← modify (fun w => w <| sessions ::= insert digest (s <| last_seen_at := now |>) |>);
                        mret (Some (_user_record u))
               | None => _ ← delete_session digest; mret None
               end
         end)
  end.

Definition revoke_token (token : option string) : AM unit :=
  match optional_digest token with
  | None => mret tt
  | Some digest => auth_transaction (delete_session digest)
  end.

(** [delete(SessionModel).where(expires_at <= now)], and the rows it removed. *)
Definition delete_expired (now : datetime) : AM Z := fun w =>
  (Return (Z.of_nat (size (filter (fun ks => ks.2.(expires_at) ≤ now) w.(sessions)))),
   w <| sessions ::= filter (fun ks => ¬ ks.2.(expires_at) ≤ now) |>).

Definition purge_expired : AM Z := now ← auth_now; auth_transaction (delete_expired now).

(** ** backend/security.py *)

Record Request : Type := mkRequest {
  method : string;
  path : string;
  session_cookie : option string
}.

Inductive HTTPException : Type := HTTP (status : Z) (code : string).

Definition normalized_api_path (p : string) : string :=
  if String.eqb p "/api/v1" then "/api"
  else match remove_prefix "/api/v1/" p with Some rest => "/api/" +:+ rest | None => p end.

Definition is_public_request (r : Request) : bool :=
  let p := normalized_api_path r.(path) in
  let m := upper r.(method) in
  if String.eqb m "OPTIONS" then true
  else if String.eqb p "/" || startswith p "/static/" then true
  else if str_in p ["/docs"; "/redoc"; "/openapi.json"] then true
  else if String.eqb m "GET" && str_in p ["/api/health"; "/api/status"; "/api/ready"] then true
  else String.eqb m "POST" && str_in p ["/api/auth/login"; "/api/auth/logout"].

Definition requires_auditor (r : Request) : bool :=
  let p := normalized_api_path r.(path) in
  if String.eqb p "/api/auth/password" then false
  else if String.eqb p "/api/network" || startswith p "/api/network/" then true
  else negb (str_in (upper r.(method)) ["GET"; "HEAD"; "OPTIONS"]).

(** The user the route sees, or the response that replaces it. *)
Definition auth_guard (r : Request) : AM (outcome HTTPException (option SessionUser)) :=
  if is_public_request r then mret (Return None)
  else
    user ← resolve_token r.(session_cookie);
    mret (match user with
          | None => Raise (HTTP 401 "unauthenticated")
          | Some u =>
              if requires_auditor r && negb (bool_decide (u.(role) = AUDITOR))
              then Raise (HTTP 403 "forbidden_role")
              else Return (Some u)
          end).
End service.
