(* ===== verification/AuthProofs.v ===== *)
(** * Lemmas on passwords, users and sessions *)

From S2P Require Import Prelude PyBase PyText JobModels JobStore Sha256 Auth.

(** ** Passwords *)

Definition is_byte (b : Z) : Prop := 0 ≤ b < 256.

Lemma hex2_from b rest :
  is_byte b → fromhex (hex2 b +:+ rest) = (r ← fromhex rest; Some (b :: r)) ∧
              without dollar (hex2 b) = true.
Proof.
  intros Hb. unfold hex2.
  set (x := hex_digit (b / 16)). set (y := hex_digit (b mod 16)).
  assert (∀ n, 0 ≤ n < 16 → hex_nibble (hex_digit n) = Some n ∧ is_space (hex_digit n) = false ∧
    Ascii.eqb (hex_digit n) dollar = false) as Hd.
  { intros n Hn. pose proof (by_cases (fun n => reads_as (hex_nibble (hex_digit n)) n &&
      negb (is_space (hex_digit n)) && negb (Ascii.eqb (hex_digit n) dollar)) 0 16
      ltac:(vm_compute; reflexivity) n ltac:(lia)) as H.
    rewrite !andb_true_iff, reads_as_spec, !negb_true_iff in H. tauto. }
  destruct (Hd (b / 16)) as (X1 & X2 & X3); [unfold is_byte in Hb; split; [apply Z.div_pos; lia|apply Z.div_lt_upper_bound; lia]|].
  destruct (Hd (b mod 16)) as (Y1 & Y2 & Y3); [apply Z.mod_pos_bound; lia|].
  fold x in X1, X2, X3. fold y in Y1, Y2, Y3. split.
  - change (String x (String y "") +:+ rest) with (String x (String y rest)).
    cbn [fromhex]. rewrite X2, X1, Y1. cbn [mbind option_bind].
    destruct (fromhex rest); [|done]. cbn. do 2 f_equal.
    pose proof (Z.div_mod b 16 ltac:(lia)). lia.
  - unfold without. cbn [str_all]. by rewrite X3, Y3.
Qed.

Lemma fromhex_hex b : Forall is_byte b → fromhex (hex b) = Some b ∧ without dollar (hex b) = true.
Proof.
  unfold hex. induction 1 as [|x b Hx _ [IH1 IH2]]; [done|]. cbn [List.map concat].
  destruct (hex2_from x (concat (List.map hex2 b)) Hx) as [H1 H2].
  rewrite H1, IH1, without_app, H2, IH2. done.
Qed.

Lemma lxor_byte a b : is_byte a → is_byte b → is_byte (Z.lxor a b).
Proof.
  unfold is_byte. intros Ha Hb. assert (0 ≤ Z.lxor a b) as H0 by (apply Z.lxor_nonneg; lia).
  split; [done|]. destruct (Z.eq_dec (Z.lxor a b) 0) as [->|Hne]; [lia|].
  apply (Z.log2_lt_pow2 _ 8); [lia|]. eapply Z.le_lt_trans; [apply Z.log2_lxor; lia|].
  apply Z.max_lub_lt; [destruct (Z.eq_dec a 0) as [->|]|destruct (Z.eq_dec b 0) as [->|]];
    cbn; try lia; apply Z.log2_lt_pow2; lia.
Qed.

Definition digest_ok (b : bytes) : Prop := Forall is_byte b ∧ length b = 32%nat.

Lemma sha256_ok m : digest_ok (sha256 m).
Proof. split; [|apply length_sha256]. apply Forall_forall. intros b. apply sha256_range. Qed.

Lemma xor_bytes_ok a b : digest_ok a → digest_ok b → digest_ok (xor_bytes a b).
Proof.
  intros [Ha La] [Hb Lb]. unfold xor_bytes. split; [|by rewrite length_zip_with, La, Lb].
  apply Forall_forall. intros x Hx. apply list_elem_of_lookup_1 in Hx as [i Hx].
  apply lookup_zip_with_Some in Hx as (y & z & -> & Hy & Hz).
  rewrite Forall_lookup in Ha, Hb. apply lxor_byte; eauto.
Qed.

Lemma pbkdf2_block_ok password salt n i : digest_ok (pbkdf2_block password salt n i).
Proof.
  unfold pbkdf2_block.
  assert (∀ k u acc, digest_ok acc → digest_ok (pbkdf2_iterate k password u acc)) as H.
  { induction k as [|k IH]; intros u acc Hacc; [done|]. cbn [pbkdf2_iterate].
    apply IH, xor_bytes_ok; [done|apply sha256_ok]. }
  apply H, sha256_ok.
Qed.

Lemma pbkdf2_32 password salt n :
  1 ≤ n < 2 ^ 31 → pbkdf2_hmac password salt n 32 = Return (pbkdf2_block password salt n 1).
Proof.
  intros Hn. unfold pbkdf2_hmac.
  destruct (Z.ltb_spec n 1); [lia|]. destruct (Z.ltb_spec (2 ^ 31 - 1) n); [lia|].
  cbn [Nat.eqb]. f_equal. change (seq 1 ((32 + 31) / 32)) with [1%nat].
  cbn [flat_map]. rewrite app_nil_r. destruct (pbkdf2_block_ok password salt n 1) as [_ Hl].
  rewrite <- Hl at 1. apply firstn_all.
Qed.

(** The key a password derives with the salt. *)
Definition derived (password : string) (salt : bytes) : bytes :=
  pbkdf2_block (encode password) salt ITERATIONS 1.

Lemma hash_password_spec password salt :
  hash_password password salt =
    if nonempty password then Return (hash_text ITERATIONS salt (derived password salt))
    else Raise (PyValueError "password must not be empty").
Proof.
  unfold hash_password, derived. destruct (nonempty password); [|done]. cbn [negb].
  unfold DIGEST_BYTES. rewrite pbkdf2_32 by done. done.
Qed.

Lemma split_hash_text n salt digest :
  without dollar (str_int n) = true → Forall is_byte salt → Forall is_byte digest →
  split_hash (hash_text n salt digest) = Some (SCHEME, str_int n, hex salt, hex digest).
Proof.
  intros Hn Hs Hd. unfold split_hash, hash_text.
  rewrite split_once_word by done. rewrite split_once_word by done.
  by rewrite split_once_word by by apply fromhex_hex.
Qed.

Lemma verify_hash_text password salt digest :
  Forall is_byte salt → digest_ok digest →
  verify_password password (hash_text ITERATIONS salt digest) =
    Return (bool_decide (derived password salt = digest)).
Proof.
  intros Hs [Hd Hl]. unfold verify_password.
  rewrite split_hash_text by done. cbn [mbind option_bind].
  assert (int_of_str (str_int ITERATIONS) = Some ITERATIONS) as -> by reflexivity.
  cbn [mbind option_bind]. rewrite (proj1 (fromhex_hex _ Hs)). cbn [mbind option_bind].
  rewrite (proj1 (fromhex_hex _ Hd)). cbn [mbind option_bind].
  rewrite Hl. change (negb (String.eqb SCHEME SCHEME) || (ITERATIONS <? 1)) with false. cbn iota.
  rewrite pbkdf2_32 by (unfold ITERATIONS; lia). rewrite bind_Return. unfold derived. reflexivity.
Qed.

(** ** The tables *)

Section tables.
Context `{Runtime, !RuntimeOk, Entropy}.
Context (session_ttl window : Z).
Implicit Types (w : AuthWorld) (u : UserModel) (s : SessionModel).

Record auth_ok w : Prop := {
  users_keyed : ∀ id u, w.(users) !! id = Some u → u.(user_id) = id;
  names_unique : ∀ id1 id2 u1 u2, w.(users) !! id1 = Some u1 → w.(users) !! id2 = Some u2 →
    u1.(username) = u2.(username) → id1 = id2;
  names_ok : ∀ id u, w.(users) !! id = Some u → username_ok u.(username) = true;
  users_drawn : ∀ id, is_Some (w.(users) !! id) → ∃ n, (n < w.(auth_uuids_drawn))%nat ∧ id = uuid4 n;
  sessions_keyed : ∀ d s, w.(sessions) !! d = Some s → s.(session_id) = d;
  sessions_owned : ∀ d s, w.(sessions) !! d = Some s → is_Some (w.(users) !! s.(session_user_id))
}.

Lemma user_named_Some w name u :
  auth_ok w → user_named w name = Some u ↔ w.(users) !! u.(user_id) = Some u ∧ u.(username) = name.
Proof.
  intros Hok. unfold user_named. split.
  - intros [Hin Hn%String.eqb_eq]%find_first_Some. split; [|done].
    apply list_elem_of_fmap in Hin as ([id u'] & -> & Hin%elem_of_map_to_list).
    cbn in *. by rewrite (users_keyed _ Hok _ _ Hin).
  - intros [Hu Hn]. destruct (find_first _ _) as [u'|] eqn:Hf.
    + apply find_first_Some in Hf as [Hin Hn'%String.eqb_eq].
      apply list_elem_of_fmap in Hin as ([id u2] & -> & Hin%elem_of_map_to_list). cbn in *.
      assert (id = u.(user_id)) as -> by (eapply (names_unique _ Hok); [done..|congruence]). congruence.
    + pose proof (proj1 (find_first_None _ _) Hf u) as Hx. cbn in Hx.
      rewrite Hn, String.eqb_refl in Hx. discriminate Hx.
      apply list_elem_of_fmap. exists (u.(user_id), u). split; [done|]. by apply elem_of_map_to_list.
Qed.

Lemma user_named_None w name :
  auth_ok w → user_named w name = None ↔ ∀ id u, w.(users) !! id = Some u → u.(username) ≠ name.
Proof.
  intros Hok. destruct (user_named w name) as [u|] eqn:Hf.
  - apply user_named_Some in Hf as [Hu Hn]; [|done]. split; [done|]. intros Hall. by destruct (Hall _ _ Hu).
  - split; [|done]. intros _ id u Hu Hn.
    assert (user_named w name = Some u) as E; [|congruence].
    apply user_named_Some; [done|]. by rewrite (users_keyed _ Hok _ _ Hu).
Qed.

(** Only the readings and the throttle differ. *)
Definition same_tables w w' : Prop := w'.(users) = w.(users) ∧ w'.(sessions) = w.(sessions).

Lemma auth_ok_same w w' :
  auth_ok w → same_tables w w' → (w.(auth_uuids_drawn) <= w'.(auth_uuids_drawn))%nat → auth_ok w'.
Proof.
  intros [K1 K2 K3 K4 K5 K6] [Eu Es] Hn. split; rewrite ?Eu, ?Es; try done.
  intros id Hid. destruct (K4 id Hid) as (n & ? & ?). exists n. split; [lia|done].
Qed.

(** ** The abstract state: accounts, and live sessions with their user and expiry *)

Record AuthSpec : Type := mkAuthSpec {
  accounts : gmap string (SessionUser * bool);
  live : gmap string (SessionUser * datetime)
}.

Definition live_session (us : gmap string UserModel) s : option (SessionUser * datetime) :=
  match us !! s.(session_user_id) with
  | Some u => if u.(disabled) then None else Some (_user_record u, s.(expires_at))
  | None => None
  end.

Definition abs w : AuthSpec :=
  mkAuthSpec ((fun u => (_user_record u, u.(disabled))) <$> w.(users))
             (omap (live_session w.(users)) w.(sessions)).

Lemma lookup_live w d :
  (abs w).(live) !! d = s ← w.(sessions) !! d; live_session w.(users) s.
Proof. cbn. by rewrite lookup_omap. Qed.

Lemma lookup_account w id :
  (abs w).(accounts) !! id = (fun u => (_user_record u, u.(disabled))) <$> (w.(users) !! id).
Proof. cbn. by rewrite lookup_fmap. Qed.

Lemma abs_same w w' : same_tables w w' → abs w' = abs w.
Proof. intros [Eu Es]. unfold abs. by rewrite Eu, Es. Qed.

(** *** What each operation does to it *)

Definition owned_by (id : string) (e : SessionUser * datetime) : Prop := e.1.(user_record_id) = id.

Inductive AuthCall : Type :=
  | CreateUser (name password : string) (r : Role)
  | Authenticate (name password : string)
  | SetPassword (name password : string) (keep : option string)
  | ChangePassword (user : SessionUser) (current new : string) (keep : option string)
  | CreateSession (user : SessionUser)
  | ResolveToken (token : option string)
  | RevokeToken (token : option string)
  | PurgeExpired.

Inductive AuthAnswer : Type :=
  | AnswerUser (found : SessionUser)
  | AnswerToken (token : string)
  | AnswerOption (found : option SessionUser)
  | AnswerNone
  | AnswerCount (n : Z).

(** The sessions a change of password leaves. *)
Definition keep_sessions (id : string) (keep : option string)
    (m : gmap string (SessionUser * datetime)) : gmap string (SessionUser * datetime) :=
  filter (fun ke => ¬ (ke.2.1.(user_record_id) = id ∧ keep ≠ Some ke.1)) m.

(** A call answered, over accounts and live sessions; [now] is the first
    reading of the clock the call makes. *)
Inductive spec_step (now : datetime) : AuthCall → AuthAnswer → AuthSpec → AuthSpec → Prop :=
  | spec_create_user st name password r (u : SessionUser) :
      st.(accounts) !! u.(user_record_id) = None →
      (∀ id a, st.(accounts) !! id = Some a → a.1.(user_record_name) ≠ u.(user_record_name)) →
      u.(user_record_name) = strip name → u.(role) = r →
      spec_step now (CreateUser name password r) (AnswerUser u) st
        (mkAuthSpec (<[u.(user_record_id) := (u, false)]> st.(accounts)) st.(live))
  | spec_authenticate st name password (u : SessionUser) :
      st.(accounts) !! u.(user_record_id) = Some (u, false) → u.(user_record_name) = strip name →
      spec_step now (Authenticate name password) (AnswerUser u) st st
  | spec_set_password st name password keep (u : SessionUser) :
      st.(accounts) !! u.(user_record_id) = Some (u, false) → u.(user_record_name) = strip name →
      spec_step now (SetPassword name password keep) (AnswerUser u) st
        (mkAuthSpec st.(accounts) (keep_sessions u.(user_record_id) (optional_digest keep) st.(live)))
  | spec_change_password st user current new keep (u : SessionUser) :
      st.(accounts) !! u.(user_record_id) = Some (u, false) → u.(user_record_id) = user.(user_record_id) →
      spec_step now (ChangePassword user current new keep) (AnswerUser u) st
        (mkAuthSpec st.(accounts) (keep_sessions u.(user_record_id) (optional_digest keep) st.(live)))
  | spec_create_session st user token (u : SessionUser) (locked : bool) :
      st.(accounts) !! user.(user_record_id) = Some (u, locked) →
      st.(live) !! token_digest token = None →
      spec_step now (CreateSession user) (AnswerToken token) st
        (mkAuthSpec st.(accounts)
           (if locked then st.(live) else <[token_digest token := (u, now + session_ttl)]> st.(live)))
  | spec_resolve_none st token :
      optional_digest token = None → spec_step now (ResolveToken token) (AnswerOption None) st st
  | spec_resolve_user st token d (u : SessionUser) e :
      optional_digest token = Some d → st.(live) !! d = Some (u, e) → now < e →
      spec_step now (ResolveToken token) (AnswerOption (Some u)) st st
  | spec_resolve_gone st token d :
      optional_digest token = Some d → (∀ (u : SessionUser) e, st.(live) !! d = Some (u, e) → e ≤ now) →
      spec_step now (ResolveToken token) (AnswerOption None) st (mkAuthSpec st.(accounts) (delete d st.(live)))
  | spec_revoke st token :
      spec_step now (RevokeToken token) AnswerNone st
        (mkAuthSpec st.(accounts)
           (match optional_digest token with Some d => delete d st.(live) | None => st.(live) end))
  | spec_purge st n :
      spec_step now PurgeExpired (AnswerCount n) st
        (mkAuthSpec st.(accounts) (filter (fun ke => now < ke.2.2) st.(live))).

(** *** The operations *)

Definition refines {A} (call : AuthCall) (ans : A → AuthAnswer) (m : AM A) w : Prop :=
  wp m (fun r w' => auth_ok w' ∧ match r with
                                 | Return a => spec_step (clock w.(auth_clock_reads)) call (ans a) (abs w) (abs w')
                                 | Raise _ => same_tables w w'
                                 end) w.

Lemma wp_auth_transaction {A} (m : AM A) (Q : outcome AuthExc A → AuthWorld → Prop) w :
  wp m (fun r w' => match r with
                    | Return a => Q r w'
                    | Raise e => Q r (w' <| users := w.(users) |> <| sessions := w.(sessions) |>)
                    end) w →
  wp (auth_transaction m) Q w.
Proof. unfold wp, auth_transaction. by destruct (m w) as [[a|e] w']. Qed.

Lemma wp_lift {A} (m : outcome PyExc A) (Q : outcome AuthExc A → AuthWorld → Prop) w :
  match m with Return a => Q (Return a) w | Raise e => Q (Raise (AuthPyExc e)) w end →
  wp (lift_py m) Q w.
Proof. by destruct m. Qed.

(** The digest lookup of an account does not depend on the hash. *)
Lemma account_of w u : w.(users) !! u.(user_id) = Some u →
  (abs w).(accounts) !! u.(user_id) = Some (_user_record u, u.(disabled)).
Proof. intros Hu. by rewrite lookup_account, Hu. Qed.

Lemma authenticate_spec name password w :
  auth_ok w →
  wp (authenticate name password) (fun r w' => w' = w ∧
    match r with
    | Return rec => ∃ u, w.(users) !! u.(user_id) = Some u ∧ u.(username) = strip name ∧
        u.(disabled) = false ∧ rec = _user_record u ∧ verify_password password u.(password_hash) = Return true
    | Raise e => ∀ u, user_named w (strip name) = Some u → u.(disabled) = false →
        verify_password password u.(password_hash) ≠ Return true
    end) w.
Proof.
  intros Hok. unfold authenticate. cbv zeta. apply wp_bind, wp_reads.
  destruct (user_named w (strip name)) as [u|] eqn:Hu.
  - apply wp_bind, wp_ret. apply wp_bind, wp_lift.
    destruct (verify_password password u.(password_hash)) as [valid|e] eqn:Hv.
    2: { split; [done|]. intros u' [= <-] _. congruence. }
    destruct valid; cbn [negb orb].
    + destruct u.(disabled) eqn:Hd; (split; [done|]); [intros u' [= <-]; congruence|].
      apply user_named_Some in Hu as [Hu Hn]; [|done]. by exists u.
    + split; [done|]. intros u' [= <-] _. congruence.
  - apply wp_bind, wp_lift. destruct dummy_hash as [d|e]; [|split; [done|by intros]].
    apply wp_bind, wp_lift. destruct (verify_password password d); by split.
Qed.

Lemma refines_authenticate name password w :
  auth_ok w → refines (Authenticate name password) AnswerUser (authenticate name password) w.
Proof.
  intros Hok. eapply wp_mono; [by apply authenticate_spec|]. intros [rec|e] w' [-> Hr]; (split; [done|]); [|done].
  destruct Hr as (u & Hu & Hn & Hd & -> & _). apply spec_authenticate; [|done].
  pose proof (account_of w u Hu) as Ha. rewrite Hd in Ha. exact Ha.
Qed.

(** Replacing a user by one with the same id, name, role, flag and creation time. *)
Lemma auth_ok_update w w' u u' :
  auth_ok w → w.(users) !! u.(user_id) = Some u → u'.(user_id) = u.(user_id) →
  u'.(username) = u.(username) →
  w'.(users) = <[u.(user_id) := u']> w.(users) → w'.(sessions) ⊆ w.(sessions) →
  (w.(auth_uuids_drawn) <= w'.(auth_uuids_drawn))%nat → auth_ok w'.
Proof.
  intros [K1 K2 K3 K4 K5 K6] Hu Hid Hname Eu Hs Hn. split; rewrite ?Eu.
  - intros id v [[<- <-]|[? ?]]%lookup_insert_Some; eauto.
  - intros id1 id2 v1 v2 [[<- <-]|[? H1']]%lookup_insert_Some [[<- <-]|[? H2']]%lookup_insert_Some Heq;
      [done|..|by eapply K2]; rewrite ?Hname in *; [eapply K2; eauto|symmetry; eapply K2; eauto].
  - intros id v [[<- <-]|[? ?]]%lookup_insert_Some; [rewrite Hname; eauto|eauto].
  - intros id. rewrite lookup_insert_is_Some'. intros Hid'.
    destruct (K4 id) as (n & ? & ?); [|exists n; split; [lia|done]].
    destruct Hid' as [<-|?]; [by eexists|done].
  - intros d s Hd. by eapply K5, lookup_weaken.
  - intros d s Hd. apply lookup_insert_is_Some'. right. by eapply K6, lookup_weaken.
Qed.

Definition revoked_sessions (id : string) (keep : option string) (m : gmap string SessionModel) :=
  filter (fun ks => ¬ (ks.2.(session_user_id) = id ∧ keep ≠ Some ks.1)) m.

Lemma set_password_spec name password keep w :
  auth_ok w →
  wp (set_password name password keep) (fun r w' => auth_ok w' ∧ w'.(failures) = w.(failures) ∧
    match r with
    | Return rec => ∃ u hashed, w.(users) !! u.(user_id) = Some u ∧ u.(username) = strip name ∧
        u.(disabled) = false ∧ rec = _user_record u ∧
        hash_password password (urandom w.(salts_drawn)) = Return hashed ∧
        w'.(users) = <[u.(user_id) := u <| password_hash := hashed |>]> w.(users) ∧
        w'.(sessions) = revoked_sessions u.(user_id) (optional_digest keep) w.(sessions)
    | Raise e => same_tables w w' ∧ e ≠ AuthError "invalid_credentials"
    end) w.
Proof.
  intros Hok. unfold set_password. cbv zeta. destruct (str_len password <? MIN_PASSWORD_LENGTH); [done|].
  apply wp_auth_transaction, wp_bind, wp_reads. unfold _normalize_username.
  assert (∀ w' e, e ≠ AuthError "invalid_credentials" →
    w'.(failures) = w.(failures) → (w.(auth_uuids_drawn) <= w'.(auth_uuids_drawn))%nat →
    auth_ok (w' <| users := w.(users) |> <| sessions := w.(sessions) |>) ∧
    failures (w' <| users := w.(users) |> <| sessions := w.(sessions) |>) = failures w ∧
    same_tables w (w' <| users := w.(users) |> <| sessions := w.(sessions) |>) ∧
    e ≠ AuthError "invalid_credentials") as Hback.
  { intros w' e He Hf Hn. split; [|by split]. by apply (auth_ok_same w). }
  destruct (user_named w (strip name)) as [u|] eqn:Hu; [|by apply Hback].
  destruct u.(disabled) eqn:Hd; [by apply Hback|].
  apply user_named_Some in Hu as [Hu Hn]; [|done].
  apply wp_bind. unfold auth_salt at 1, wp. cbn [fst snd]. apply wp_bind, wp_lift.
  destruct (hash_password password _) as [hashed|e] eqn:Hh; [|by apply Hback].
  apply wp_bind, wp_modify, wp_bind, wp_modify, wp_ret.
  split; [|split; [done|]].
  - eapply (auth_ok_update w _ u (u <| password_hash := hashed |>)); try done. cbn. apply map_filter_subseteq.
  - exists u, hashed. by split_and!.
Qed.

(** What a new hash and revoked sessions mean abstractly. *)
Lemma abs_password w w' u hashed keep :
  auth_ok w → w.(users) !! u.(user_id) = Some u →
  w'.(users) = <[u.(user_id) := u <| password_hash := hashed |>]> w.(users) →
  w'.(sessions) = revoked_sessions u.(user_id) keep w.(sessions) →
  abs w' = mkAuthSpec (abs w).(accounts) (keep_sessions u.(user_id) keep (abs w).(live)).
Proof.
  intros Hok Hu Eu Es. unfold abs at 1. rewrite Eu, Es. f_equal.
  - apply map_eq. intros id. rewrite lookup_account, lookup_fmap.
    destruct (decide (id = u.(user_id))) as [->|]; [|by rewrite lookup_insert_ne].
    rewrite lookup_insert_eq, Hu. done.
  - apply map_eq. intros d. unfold keep_sessions, revoked_sessions.
    apply option_eq. intros [rec e]. rewrite map_lookup_filter_Some, lookup_live, lookup_omap.
    assert (∀ s, live_session (<[u.(user_id) := u <| password_hash := hashed |>]> w.(users)) s =
      live_session w.(users) s) as Hsame.
    { intros s. unfold live_session. destruct (decide (s.(session_user_id) = u.(user_id))) as [->|].
      - by rewrite lookup_insert_eq, Hu.
      - by rewrite lookup_insert_ne. }
    assert (∀ s, live_session w.(users) s = Some (rec, e) → rec.(user_record_id) = s.(session_user_id)) as Hrec.
    { intros s. unfold live_session. destruct (w.(users) !! s.(session_user_id)) as [v|] eqn:Hv; [|done].
      destruct v.(disabled); [done|]. intros [= <- <-]. exact (users_keyed _ Hok _ _ Hv). }
    destruct (w.(sessions) !! d) as [s|] eqn:Hs.
    + cbn [mbind option_bind]. destruct (decide (s.(session_user_id) = u.(user_id) ∧ keep ≠ Some d)) as [Hdrop|Hkeep].
      * rewrite map_lookup_filter_None_2 by (right; intros s' E; rewrite Hs in E; injection E as <-; tauto).
        split; [done|]. intros [Hl Hno]. cbn in Hno. apply Hrec in Hl. rewrite Hl in Hno. tauto.
      * rewrite (proj2 (map_lookup_filter_Some _ _ _ s)) by done. cbn [mbind option_bind].
        rewrite Hsame. split; [|by intros [? _]]. intros Hl. split; [done|]. cbn. by rewrite (Hrec _ Hl).
    + rewrite map_lookup_filter_None_2 by by left. cbn. naive_solver.
Qed.

Lemma refines_set_password name password keep w :
  auth_ok w → refines (SetPassword name password keep) AnswerUser (set_password name password keep) w.
Proof.
  intros Hok. eapply wp_mono; [by apply set_password_spec|].
  intros [rec|e] w' (Hok' & _ & Hr); (split; [done|]); [|apply Hr].
  destruct Hr as (u & hashed & Hu & Hn & Hd & -> & _ & Eu & Es).
  rewrite (abs_password w w' u hashed _ Hok Hu Eu Es).
  apply (spec_set_password _ (abs w) name password keep (_user_record u)); [|done].
  pose proof (account_of w u Hu) as Ha. rewrite Hd in Ha. exact Ha.
Qed.

(** *** Failures of a change of password *)

Lemma wp_prune key now w (Q : outcome AuthExc (list Z) → AuthWorld → Prop) :
  let stamps := recent window now (default [] (dict_get w.(failures) key)) in
  Q (Return stamps) (w <| failures ::= fun d => match stamps with [] => dict_pop d key | _ => dict_set d key stamps end |>) →
  wp (_prune window key now) Q w.
Proof. done. Qed.

Lemma dict_get_pop {V} (d : list (string * V)) k k' :
  dict_get (dict_pop d k) k' = if String.eqb k' k then None else dict_get d k'.
Proof.
  induction d as [|[k0 v] d IH]; [cbn; by case_match|].
  change (dict_pop ((k0, v) :: d) k) with
    (if negb (String.eqb k0 k) then (k0, v) :: dict_pop d k else dict_pop d k). cbn [dict_get].
  destruct (String.eqb_spec k0 k) as [->|Hne]; cbn [negb].
  - rewrite IH. by destruct (String.eqb k' k).
  - cbn [dict_get]. rewrite IH. destruct (String.eqb_spec k' k0) as [->|]; [|done].
    by rewrite (proj2 (String.eqb_neq _ _) Hne).
Qed.

Lemma pruned_get (d : list (string * list Z)) key stamps :
  default [] (dict_get (match stamps with [] => dict_pop d key | _ => dict_set d key stamps end) key) = stamps.
Proof.
  destruct stamps as [|s stamps]; [rewrite dict_get_pop|rewrite dict_get_set]; by rewrite String.eqb_refl.
Qed.

(** The stamps of a key that count at a time. *)
Definition recent_failures w key now : list Z := recent window now (default [] (dict_get w.(failures) key)).

(** The refusal of a change records the failure. *)
Lemma wp_refuse key w stamps :
  auth_ok w → default [] (dict_get w.(failures) key) = stamps →
  wp (now ← monotonic_now; _ ← record_failure window key now; raise (AuthError "invalid_credentials") : AM SessionUser)
    (fun r w' => r = Raise (AuthError "invalid_credentials") ∧ auth_ok w' ∧ same_tables w w' ∧
       let later := monotonic w.(monotonic_reads) in
       default [] (dict_get w'.(failures) key) = recent window later stamps ++ [later]) w.
Proof.
  intros Hok <-. apply wp_bind. unfold monotonic_now, wp at 1. cbn [fst snd].
  apply wp_bind. unfold record_failure. apply wp_bind, wp_prune, wp_modify, wp_raise. cbv zeta.
  split; [done|]. split; [by apply (auth_ok_same w)|]. split; [by split|].
  cbn [failures]. unfold update_field. cbn [failures]. by rewrite dict_get_set, String.eqb_refl.
Qed.

Lemma change_password_spec user current new keep w :
  auth_ok w →
  let key := user.(user_record_id) in
  let now := monotonic w.(monotonic_reads) in
  let later := monotonic (S w.(monotonic_reads)) in
  let stamps := recent_failures w key now in
  wp (change_password window user current new keep) (fun r w' => auth_ok w' ∧
    if (PASSWORD_CHANGE_MAX_FAILURES <=? length stamps)%nat
    then r = Raise (AuthError "invalid_credentials") ∧ same_tables w w' ∧
         default [] (dict_get w'.(failures) key) = stamps
    else match r with
         | Return rec => ∃ u hashed, w.(users) !! key = Some u ∧ u.(user_id) = key ∧
             u.(username) = strip user.(user_record_name) ∧ u.(disabled) = false ∧
             rec = _user_record u ∧ verify_password current u.(password_hash) = Return true ∧
             hash_password new (urandom w.(salts_drawn)) = Return hashed ∧
             w'.(users) = <[key := u <| password_hash := hashed |>]> w.(users) ∧
             w'.(sessions) = revoked_sessions key (optional_digest keep) w.(sessions) ∧
             dict_get w'.(failures) key = None
         | Raise e => same_tables w w' ∧ default [] (dict_get w'.(failures) key) =
             (if decide (e = AuthError "invalid_credentials") then recent window later stamps ++ [later] else stamps)
         end) w.
Proof.
  intros Hok key now later stamps. unfold change_password. cbv zeta. fold key.
  apply wp_bind. unfold monotonic_now at 1, wp at 1. cbn [fst snd]. fold now.
  apply wp_bind. unfold blocked. apply wp_bind, wp_prune. cbv zeta.
  set (w1 := w <| monotonic_reads ::= S |>).
  change (recent window now (default [] (dict_get w1.(failures) key))) with stamps.
  match goal with |- wp _ _ ?w' => set (w2 := w') end.
  apply wp_ret.
  assert (auth_ok w2) as Hok2 by (by apply (auth_ok_same w)).
  assert (default [] (dict_get w2.(failures) key) = stamps) as Hf2 by apply pruned_get.
  destruct (PASSWORD_CHANGE_MAX_FAILURES <=? length stamps)%nat; [done|].
  pose proof (wp_refuse key w2 stamps Hok2 Hf2) as Hrefuse.
  apply wp_bind, wp_try, wp_bind. eapply wp_mono; [by apply authenticate_spec|].
  intros [rec|e] w' [-> Ha].
  2: { destruct e as [code|c|e]; [|apply wp_raise; by rewrite decide_False..].
       apply wp_ret. eapply wp_mono; [exact Hrefuse|]. intros r w' (-> & ? & ? & Hl).
       split; [done|]. by rewrite decide_True. }
  destruct Ha as (u & Hu & Hn & Hd & -> & Hv). apply wp_ret. cbn [user_record_id _user_record].
  fold key. destruct (String.eqb_spec u.(user_id) key) as [Hid|Hid]; cbn [negb].
  2: { eapply wp_mono; [exact Hrefuse|]. intros r w' (-> & ? & ? & Hl). split; [done|]. by rewrite decide_True. }
  apply wp_bind. eapply wp_mono; [by apply set_password_spec|].
  intros [rec|e] w' (Hok' & Hf & Hs).
  2: { destruct Hs as [Hs He]. split; [done|]. by rewrite decide_False, Hf. }
  destruct Hs as (u' & hashed & Hu' & Hn' & Hd' & -> & Hh & Eu & Es).
  assert (u'.(user_id) = u.(user_id)) as Huu by (eapply (names_unique _ Hok); [done..|congruence]).
  assert (u' = u) as -> by (rewrite Huu, Hu in Hu'; congruence). rewrite Hid in *.
  apply wp_bind, wp_modify, wp_ret. split; [by apply (auth_ok_same w')|].
  exists u, hashed. split_and!; try done. cbn. by rewrite dict_get_pop, String.eqb_refl.
Qed.
End tables.

(** ** Every call of [AuthService] is a step of the abstract accounts and sessions *)

Section refine.
Context `{Runtime, !RuntimeOk, Entropy}.
Context (session_ttl window : Z).
Implicit Types (w : AuthWorld) (u : UserModel) (s : SessionModel).

(** *** Tables and their abstraction *)

Lemma abs_sessions w w' :
  w'.(users) = w.(users) →
  abs w' = mkAuthSpec (abs w).(accounts) (omap (live_session w.(users)) w'.(sessions)).
Proof. intros Eu. unfold abs. by rewrite Eu. Qed.

Lemma auth_ok_sessions w w' :
  auth_ok w → w'.(users) = w.(users) → w.(auth_uuids_drawn) = w'.(auth_uuids_drawn) →
  (∀ d s, w'.(sessions) !! d = Some s → s.(session_id) = d ∧ is_Some (w.(users) !! s.(session_user_id))) →
  auth_ok w'.
Proof. intros [K1 K2 K3 K4 K5 K6] Eu En Hs. split; rewrite ?Eu, <- ?En; try done; intros d s Hd; by destruct (Hs d s Hd). Qed.

Lemma auth_ok_fewer w w' :
  auth_ok w → w'.(users) = w.(users) → w.(auth_uuids_drawn) = w'.(auth_uuids_drawn) →
  w'.(sessions) ⊆ w.(sessions) → auth_ok w'.
Proof.
  intros Hok Eu En Hs. apply (auth_ok_sessions w); [done..|]. intros d s Hd.
  pose proof (lookup_weaken _ _ _ _ Hd Hs). split; [by eapply sessions_keyed|by eapply sessions_owned].
Qed.

Lemma wp_auth_now (Q : outcome AuthExc datetime → AuthWorld → Prop) w :
  Q (Return (clock w.(auth_clock_reads))) (w <| auth_clock_reads ::= S |>) → wp auth_now Q w.
Proof. done. Qed.

Lemma wp_insert_session s (Q : outcome AuthExc unit → AuthWorld → Prop) w :
  (∀ c, Q (Raise (AuthIntegrityError c)) w) →
  (∀ u, w.(sessions) !! s.(session_id) = None → w.(users) !! s.(session_user_id) = Some u →
     Q (Return tt) (w <| sessions ::= insert s.(session_id) s |>)) →
  wp (insert_session s) Q w.
Proof.
  intros Hno Hyes. unfold wp, insert_session.
  destruct (bool_decide_reflect (is_Some (w.(sessions) !! s.(session_id)))) as [|Hfresh]; [apply Hno|].
  destruct (bool_decide_reflect (is_Some (w.(users) !! s.(session_user_id)))) as [[u Hu]|]; [|apply Hno].
  apply (Hyes u); [|done]. by apply eq_None_not_Some.
Qed.

(** The live sessions after a row is deleted. *)
Lemma abs_delete w w' d :
  w'.(users) = w.(users) → w'.(sessions) = delete d w.(sessions) →
  abs w' = mkAuthSpec (abs w).(accounts) (delete d (abs w).(live)).
Proof. intros Eu Es. rewrite (abs_sessions w), Es by done. f_equal. cbn. by rewrite omap_delete. Qed.

(** The state after a step, rewritten by [lem] at the final tables only. *)
Ltac after_step lem :=
  match goal with |- spec_step _ _ _ _ _ (abs ?w') => rewrite (lem w') by done end.

(** *** The calls *)

Lemma refines_change_password user current new keep w :
  auth_ok w →
  refines session_ttl (ChangePassword user current new keep) AnswerUser
    (change_password window user current new keep) w.
Proof.
  intros Hok. eapply wp_mono; [by apply change_password_spec|]. cbv zeta.
  intros r w' [Hok' Hr]. split; [done|]. destruct (_ <=? _)%nat; [destruct Hr as (-> & ? & _); done|].
  destruct r as [rec|e]; [|apply Hr].
  destruct Hr as (u & hashed & Hu & Hid & _ & Hd & -> & _ & _ & Eu & Es & _).
  rewrite <- Hid in Hu, Eu, Es. rewrite (abs_password w w' u hashed _ Hok Hu Eu Es).
  apply (spec_change_password _ _ (abs w) user current new keep (_user_record u)); [|done].
  pose proof (account_of w u Hu) as Ha. rewrite Hd in Ha. exact Ha.
Qed.

Lemma refines_create_session user w :
  auth_ok w →
  refines session_ttl (CreateSession user) AnswerToken (create_session session_ttl user) w.
Proof.
  intros Hok. unfold refines, create_session. apply wp_bind. unfold new_session_token, wp at 1. cbn [fst snd].
  set (token := token_urlsafe _). apply wp_bind, wp_auth_now, wp_bind, wp_auth_transaction.
  apply wp_bind, wp_auth_now, wp_bind, wp_auth_now, wp_insert_session.
  { intros c. split; [by apply (auth_ok_same w)|by split]. }
  cbn [session_id session_user_id]. intros u Hfresh Hu.
  change (w.(sessions) !! token_digest token = None) in Hfresh.
  change (w.(users) !! user.(user_record_id) = Some u) in Hu. apply wp_ret. split.
  - apply (auth_ok_sessions w); [done..|]. cbn. intros d s [[<- <-]|[_ Hs]]%lookup_insert_Some; [split; [done|exists u; exact Hu]|].
    split; [by eapply sessions_keyed|by eapply sessions_owned].
  - after_step (abs_sessions w). cbn [sessions].
    replace (omap (live_session (users w)) _) with
      (if u.(disabled) then (abs w).(live) else
         <[token_digest token := (_user_record u, clock w.(auth_clock_reads) + session_ttl)]> (abs w).(live)).
    + apply (spec_create_session _ _ (abs w) user token (_user_record u) u.(disabled)).
      * by rewrite lookup_account, Hu.
      * by rewrite lookup_live, Hfresh.
    + set (row := mkSession _ _ _ _ _).
      assert (live_session (users w) row = if u.(disabled) then None else
        Some (_user_record u, clock w.(auth_clock_reads) + session_ttl)) as Hrow
        by (unfold live_session; cbn; by rewrite Hu).
      destruct u.(disabled); cbn; [rewrite omap_insert_None by done|by rewrite (omap_insert_Some _ _ _ _ _ Hrow)].
      rewrite delete_id; [done|]. by rewrite lookup_omap, Hfresh.
Qed.

Lemma refines_resolve_token token w :
  auth_ok w → refines session_ttl (ResolveToken token) AnswerOption (resolve_token token) w.
Proof.
  intros Hok. unfold refines, resolve_token. destruct (optional_digest token) as [d|] eqn:Hd.
  2: { apply wp_ret. split; [done|by constructor]. }
  apply wp_bind, wp_auth_now. set (now := clock _).
  apply wp_auth_transaction, wp_bind, wp_reads. cbn [sessions].
  set (w1 := w <| auth_clock_reads ::= S |>).
  assert ((∀ (u : SessionUser) e, (abs w).(live) !! d = Some (u, e) → e ≤ now) →
    wp (_ ← delete_session d; mret None) (fun r w' => auth_ok w' ∧ match r with
      | Return a => spec_step session_ttl now (ResolveToken token) (AnswerOption a) (abs w) (abs w')
      | Raise _ => False end) w1) as Hgone.
  { intros Hlate. apply wp_bind, wp_modify, wp_ret. split.
    - apply (auth_ok_fewer w); [done..|]. apply delete_subseteq.
    - after_step (fun w' => abs_delete w w' d). by apply (spec_resolve_gone _ _ _ token d). }
  change (sessions w1) with (sessions w). destruct (w.(sessions) !! d) as [s|] eqn:Hs.
  2: { apply wp_ret. split; [by apply (auth_ok_same w)|].
       assert ((abs w).(live) !! d = None) as Hl by by rewrite lookup_live, Hs.
       after_step (abs_same w).
       pose proof (spec_resolve_gone session_ttl now (abs w) token d Hd) as Hstep.
       rewrite delete_id in Hstep by exact Hl. apply Hstep. intros u e Hx.
       discriminate (eq_trans (eq_sym Hx) Hl). }
  destruct (Z.leb_spec s.(expires_at) now) as [Hle|Hlt].
  { eapply wp_mono; [apply Hgone|].
    - intros u e. rewrite lookup_live, Hs. cbn. unfold live_session.
      destruct (w.(users) !! _); [|done]. destruct (disabled _); [done|]. by intros [= _ <-].
    - intros [r|e] w'; [done|by intros [_ []]]. }
  apply wp_bind, wp_reads. cbn [users].
  destruct (sessions_owned _ Hok _ _ Hs) as [u Hu]. change (users w1) with (users w). rewrite Hu.
  destruct u.(disabled) eqn:Hdis.
  { eapply wp_mono; [apply Hgone|].
    - intros u' e. rewrite lookup_live, Hs. cbn. unfold live_session. by rewrite Hu, Hdis.
    - intros [r|e] w'; [done|by intros [_ []]]. }
  apply wp_bind, wp_modify, wp_ret.
  assert (live_session (users w) s = Some (_user_record u, s.(expires_at))) as Hl
    by (unfold live_session; by rewrite Hu, Hdis).
  split.
  - apply (auth_ok_sessions w); [done..|]. cbn. intros d' s' [[<- <-]|[_ Hs']]%lookup_insert_Some; cbn.
    + split; [by apply (sessions_keyed _ Hok)|by rewrite Hu].
    + split; [by eapply sessions_keyed|by eapply sessions_owned].
  - after_step (abs_sessions w). cbn [sessions].
    replace (mkAuthSpec _ _) with (abs w).
    + by apply (spec_resolve_user _ _ _ token d _ s.(expires_at)); [|rewrite lookup_live, Hs|].
    + unfold abs at 1. f_equal. etransitivity; [|symmetry; apply omap_insert_Some; exact Hl].
      symmetry. apply insert_id. by rewrite lookup_omap, Hs.
Qed.

Lemma refines_revoke_token token w :
  auth_ok w → refines session_ttl (RevokeToken token) (fun _ => AnswerNone) (revoke_token token) w.
Proof.
  intros Hok. unfold refines, revoke_token. pose proof (spec_revoke session_ttl (clock w.(auth_clock_reads)) (abs w) token) as Hstep.
  destruct (optional_digest token) as [d|].
  - apply wp_auth_transaction, wp_modify. split.
    + apply (auth_ok_fewer w); [done..|]. apply delete_subseteq.
    + by after_step (fun w' => abs_delete w w' d).
  - by apply wp_ret.
Qed.

Lemma refines_purge_expired w :
  auth_ok w → refines session_ttl PurgeExpired AnswerCount purge_expired w.
Proof.
  intros Hok. unfold refines, purge_expired. apply wp_bind, wp_auth_now, wp_auth_transaction.
  set (now := clock _). unfold delete_expired, wp. cbn [fst snd]. split.
  - apply (auth_ok_fewer w); [done..|]. apply map_filter_subseteq.
  - after_step (abs_sessions w). cbn [sessions].
    replace (omap _ _) with (filter (fun ke : string * (SessionUser * datetime) => now < ke.2.2) (abs w).(live));
      [apply spec_purge|].
    apply map_eq. intros d. apply option_eq. intros [u e]. rewrite map_lookup_filter_Some, lookup_omap.
    assert (∀ s, live_session (users w) s = Some (u, e) → e = s.(expires_at)) as He.
    { intros s. unfold live_session. destruct (users w !! session_user_id s); [|done]. destruct (disabled _); [done|]. by intros [= _ <-]. }
    match goal with |- context [sessions ?w' !! d] => change (sessions w') with
      (filter (fun ks : string * SessionModel => ¬ ks.2.(expires_at) ≤ now) w.(sessions)) end. rewrite lookup_live.
    destruct (w.(sessions) !! d) as [s|] eqn:Hs.
    + destruct (decide (s.(expires_at) ≤ now)).
      * rewrite map_lookup_filter_None_2 by (right; intros s' E; rewrite Hs in E; injection E as <-; cbn; tauto).
        split; [|done]. intros [Hl Hlt]. apply He in Hl. cbn in Hlt. lia.
      * rewrite (proj2 (map_lookup_filter_Some _ _ _ s)) by done. cbn.
        split; [by intros [? _]|]. intros Hl. split; [done|]. rewrite (He _ Hl). lia.
    + rewrite map_lookup_filter_None_2 by by left. cbn. naive_solver.
Qed.

(** The new row of a user. *)
Definition new_user w (name password : string) (r : Role) : UserModel :=
  let salt := urandom w.(salts_drawn) in
  mkUser (uuid4 w.(auth_uuids_drawn)) name (hash_text ITERATIONS salt (derived password salt)) r false
    (clock w.(auth_clock_reads)).

Lemma auth_ok_insert w w' u :
  auth_ok w → u.(user_id) = uuid4 w.(auth_uuids_drawn) → username_ok u.(username) = true →
  user_named w u.(username) = None →
  w'.(users) = <[u.(user_id) := u]> w.(users) → w'.(sessions) = w.(sessions) →
  w'.(auth_uuids_drawn) = S w.(auth_uuids_drawn) → auth_ok w'.
Proof.
  intros Hok Hid Hname Hfree Eu Es En.
  pose proof (proj1 (user_named_None _ _ Hok) Hfree) as Hnone.
  destruct Hok as [K1 K2 K3 K4 K5 K6]. split; rewrite ?Eu, ?Es, ?En; try done.
  - intros id v [[<- <-]|[? ?]]%lookup_insert_Some; eauto.
  - intros id1 id2 v1 v2 [[<- <-]|[? H1']]%lookup_insert_Some [[<- <-]|[? H2']]%lookup_insert_Some Heq;
      [done|..|by eapply K2]; exfalso; eapply Hnone; eauto.
  - intros id v [[<- <-]|[? ?]]%lookup_insert_Some; eauto.
  - intros id. rewrite lookup_insert_is_Some'. intros [<-|Hin]; [exists w.(auth_uuids_drawn); split; [lia|done]|].
    destruct (K4 id Hin) as (n & ? & ->). exists n. split; [lia|done].
  - intros d s Hd. apply lookup_insert_is_Some'. right. by eapply K6.
Qed.

Lemma fresh_user_id w : auth_ok w → w.(users) !! uuid4 w.(auth_uuids_drawn) = None.
Proof.
  intros Hok. apply eq_None_not_Some. intros Hin. destruct (users_drawn _ Hok _ Hin) as (n & Hn & Heq).
  apply uuid4_inj in Heq. lia.
Qed.

(** Account creation on every branch. *)
Lemma create_user_spec name password r w :
  auth_ok w →
  let n := strip name in
  wp (create_user name password r) (fun res w' => auth_ok w' ∧ w'.(sessions) = w.(sessions) ∧
    if negb (username_ok n) then res = Raise (AuthError "invalid_username") ∧ w'.(users) = w.(users)
    else if str_len password <? MIN_PASSWORD_LENGTH then
      res = Raise (AuthError "invalid_password") ∧ w'.(users) = w.(users)
    else match user_named w n with
         | Some _ => res = Raise (AuthError "username_taken") ∧ w'.(users) = w.(users)
         | None => let u := new_user w n password r in
                   res = Return (_user_record u) ∧ w.(users) !! u.(user_id) = None ∧
                   w'.(users) = <[u.(user_id) := u]> w.(users)
         end) w.
Proof.
  intros Hok n. unfold create_user, _normalize_username. cbv zeta. fold n.
  destruct (username_ok n) eqn:Hname; cbn [negb]; [|by apply wp_raise].
  destruct (Z.ltb_spec (str_len password) MIN_PASSWORD_LENGTH) as [|Hlen]; [by apply wp_raise|].
  assert (nonempty password = true) as Hne by (by destruct password).
  apply wp_bind. unfold auth_uuid, wp at 1. cbn [fst snd].
  apply wp_bind. unfold auth_salt, wp at 1. cbn [fst snd].
  apply wp_bind, wp_lift. rewrite hash_password_spec, Hne.
  apply wp_try, wp_auth_transaction, wp_bind, wp_auth_now, wp_bind.
  pose proof (fresh_user_id w Hok) as Hfresh. change (new_user _ _ _ _) with (new_user w n password r).
  match goal with |- wp (insert_user ?u') _ ?w' => set (w1 := w'); change u' with (new_user w n password r) end.
  unfold wp at 1, insert_user. change (user_named w1) with (user_named w). change (users w1) with (users w).
  change (username (new_user w n password r)) with n. cbn [user_id new_user]. rewrite Hfresh.
  destruct (user_named w n) as [u|] eqn:Hu; cbn [fst snd].
  - apply wp_raise. split; [|done].
    apply (auth_ok_same w); [done|by split|]. cbn. lia.
  - apply wp_ret. split; [|done]. by apply (auth_ok_insert w _ (new_user w n password r)).
Qed.

Lemma refines_create_user name password r w :
  auth_ok w → refines session_ttl (CreateUser name password r) AnswerUser (create_user name password r) w.
Proof.
  intros Hok. eapply wp_mono; [by apply create_user_spec|]. cbv zeta. intros res w' (Hok' & Es & Hres).
  split; [done|]. destruct (negb _); [by destruct Hres as [-> ?]|].
  destruct (_ <? _); [by destruct Hres as [-> ?]|].
  destruct (user_named w (strip name)) eqn:Hnone; [by destruct Hres as [-> ?]|].
  destruct Hres as (-> & Hfresh & Eu). set (u := new_user _ _ _ _) in *.
  assert (abs w' = mkAuthSpec (<[u.(user_id) := (_user_record u, false)]> (abs w).(accounts)) (abs w).(live)) as ->.
  { unfold abs. rewrite Eu, Es. cbn. f_equal; [by rewrite fmap_insert|].
    apply map_eq. intros d. rewrite !lookup_omap. destruct (w.(sessions) !! d) as [s|] eqn:Hs; [|done].
    cbn. unfold live_session.
    destruct (sessions_owned _ Hok _ _ Hs) as [v Hv].
    rewrite lookup_insert_ne; [done|]. intros E. rewrite <- E in Hv.
    discriminate (eq_trans (eq_sym Hfresh) Hv). }
  apply (spec_create_user _ _ (abs w) name password r (_user_record u)); [..|done|done].
  - rewrite lookup_account. exact (f_equal (fmap _) Hfresh).
  - intros id a. rewrite lookup_account. destruct (w.(users) !! id) as [v|] eqn:Hv; [|done].
    intros [= <-]. by eapply (user_named_None w).
Qed.
End refine.
