(* ===== verification/AuthTheorems.v ===== *)
(** * Passwords, sessions and the guard of the routes: the theorems *)

From S2P Require Import Prelude PyBase PyText JobModels JobStore JobSystem Sha256 Auth AuthProofs.

(** What [os.urandom] promises. *)
Class EntropyOk `{Entropy} : Prop := urandom_bytes : ∀ n, Forall is_byte (urandom n).

#[export] Instance sample_entropy : Entropy := {
  urandom n := replicate SALT_BYTES (Z.of_nat n mod 256);
  token_urlsafe n := str_int (Z.of_nat n);
  monotonic n := Z.of_nat n
}.
#[export] Instance sample_entropy_ok : EntropyOk.
Proof. intros n. apply Forall_replicate. unfold is_byte. apply Z.mod_pos_bound. lia. Qed.

Section theorems.
Context `{Runtime, !RuntimeOk, Entropy}.
Context (session_ttl window : Z).
Implicit Types (w : AuthWorld) (u : UserModel) (s : SessionModel).

(** One call of a client. *)
Definition run_call (c : AuthCall) : AM AuthAnswer :=
  match c with
  | CreateUser name password r => u ← create_user name password r; mret (AnswerUser u)
  | Authenticate name password => u ← authenticate name password; mret (AnswerUser u)
  | SetPassword name password keep => u ← set_password name password keep; mret (AnswerUser u)
  | ChangePassword user current new keep =>
      u ← change_password window user current new keep; mret (AnswerUser u)
  | CreateSession user => t ← create_session session_ttl user; mret (AnswerToken t)
  | ResolveToken token => o ← resolve_token token; mret (AnswerOption o)
  | RevokeToken token => _ ← revoke_token token; mret AnswerNone
  | PurgeExpired => n ← purge_expired; mret (AnswerCount n)
  end.

(** A client that goes on after an error. *)
Fixpoint run_calls (cs : list AuthCall) w : list (outcome AuthExc AuthAnswer) * AuthWorld :=
  match cs with
  | [] => ([], w)
  | c :: cs => let '(r, w1) := run_call c w in let '(rs, w2) := run_calls cs w1 in (r :: rs, w2)
  end.

(** The same over accounts and live sessions: an error changes nothing. *)
Inductive spec_trace : list AuthCall → list (outcome AuthExc AuthAnswer) → AuthSpec → AuthSpec → Prop :=
  | trace_nil st : spec_trace [] [] st st
  | trace_step now c a cs rs st1 st2 st3 :
      spec_step session_ttl now c a st1 st2 → spec_trace cs rs st2 st3 →
      spec_trace (c :: cs) (Return a :: rs) st1 st3
  | trace_error c e cs rs st1 st2 :
      spec_trace cs rs st1 st2 → spec_trace (c :: cs) (Raise e :: rs) st1 st2.

Definition auth_init : AuthWorld := mkAuthWorld ∅ ∅ [] 0 0 0 0 0.

Lemma auth_ok_init : auth_ok auth_init.
Proof. split; cbn; intros *; rewrite ?lookup_empty; done. Qed.

Lemma refines_bind {A} c (ans : A → AuthAnswer) (m : AM A) w :
  refines session_ttl c ans m w → refines session_ttl c id (a ← m; mret (ans a)) w.
Proof. unfold refines. intros Hm. apply wp_bind. eapply wp_mono; [exact Hm|]. by intros [a|e] w'. Qed.

Lemma run_call_refines c w : auth_ok w → refines session_ttl c id (run_call c) w.
Proof.
  intros Hok. destruct c; apply refines_bind;
    auto using refines_create_user, refines_authenticate, refines_set_password, refines_change_password,
      refines_create_session, refines_resolve_token, refines_revoke_token, refines_purge_expired.
Qed.


Lemma derived_ok password salt : digest_ok (derived password salt).
Proof. unfold derived. apply pbkdf2_block_ok. Qed.

(** The answer to a log-in attempt for a user whose hash was made with the salt. *)
Lemma authenticate_hashed name other w u salt digest :
  auth_ok w → w.(users) !! u.(user_id) = Some u → u.(username) = strip name → u.(disabled) = false →
  u.(password_hash) = hash_text ITERATIONS salt digest → Forall is_byte salt → digest_ok digest →
  authenticate name other w =
    ((if decide (derived other salt = digest) then Return (_user_record u)
      else Raise (AuthError "invalid_credentials")), w).
Proof.
  intros Hok Hu Hn Hd Hh Hsalt Hdig. unfold authenticate, reads, mbind, prog_bind. cbv zeta.
  rewrite (proj2 (user_named_Some w (strip name) u Hok) (conj Hu Hn)). cbn [mret prog_ret].
  rewrite Hh, verify_hash_text, Hd by done. cbn [lift_py mret prog_ret].
  generalize (derived other salt). intros key. destruct (decide (key = digest)) as [E|E].
  - rewrite (bool_decide_eq_true_2 _ E). cbn [negb orb]. reflexivity.
  - rewrite (bool_decide_eq_false_2 _ E). cbn [negb orb]. reflexivity.
Qed.

(** A password set is the password that logs in: after an account is created, or its password is
    set, a log-in under the name answers the account's record when the password given derives the
    stored key with the stored salt - so for the password itself - and is refused for every other one. *)
Theorem login_follows_password `{!EntropyOk} name password r keep w :
  auth_ok w →
  let login w' (rec : SessionUser) :=
    ∀ other, authenticate name other w' =
      ((if decide (derived other (urandom w.(salts_drawn)) = derived password (urandom w.(salts_drawn)))
        then Return rec else Raise (AuthError "invalid_credentials")), w') in
  wp (create_user name password r) (fun res w' => match res with Return u => login w' u | Raise _ => True end) w ∧
  wp (set_password name password keep) (fun res w' => match res with Return u => login w' u | Raise _ => True end) w.
Proof.
  intros Hok login. split.
  - eapply wp_mono; [by apply create_user_spec|]. cbv zeta. intros res w' (Hok' & Es & Hres).
    destruct (negb _); [by destruct Hres as [-> ?]|]. destruct (_ <? _); [by destruct Hres as [-> ?]|].
    destruct (user_named w (strip name)); [by destruct Hres as [-> ?]|]. destruct Hres as (-> & Hfresh & Eu).
    intros other. remember (new_user w (strip name) password r) as u eqn:Hu.
    assert (u.(username) = strip name ∧ u.(disabled) = false) as [Hn Hd] by by rewrite Hu.
    pose proof (f_equal password_hash Hu) as Hh. cbn [new_user password_hash] in Hh.
    apply (authenticate_hashed name other w' u _ _ Hok'); [|exact Hn|exact Hd|exact Hh|apply urandom_bytes|apply derived_ok].
    rewrite Eu. apply lookup_insert_eq.
  - eapply wp_mono; [by apply set_password_spec|]. intros [rec|e] w' (Hok' & _ & Hres); [|done].
    destruct Hres as (u & hashed & Hu & Hn & Hd & -> & Hh & Eu & _). intros other.
    rewrite hash_password_spec in Hh. destruct (nonempty password); [|discriminate Hh]. injection Hh as <-.
    match type of Eu with _ = <[_ := ?u']> _ => set (new := u') in Eu end.
    refine (authenticate_hashed name other w' new (urandom w.(salts_drawn)) (derived password (urandom w.(salts_drawn))) Hok' _ Hn Hd eq_refl (urandom_bytes _) (derived_ok _ _)).
    rewrite Eu. apply lookup_insert_eq.
Qed.

(** A change of password is refused while the window holds the maximum of failures, whatever the
    password; otherwise it needs the current password of the very account, installs the new hash,
    revokes every session of the account but the one kept and forgets the failures, and a refusal
    for wrong credentials changes no table and counts exactly one more failure. *)
Theorem change_password_throttled user current new keep w :
  auth_ok w →
  let key := user.(user_record_id) in
  let later := monotonic (S w.(monotonic_reads)) in
  let stamps := recent_failures window w key (monotonic w.(monotonic_reads)) in
  let failures_after w' := default [] (dict_get w'.(failures) key) in
  wp (change_password window user current new keep) (fun r w' =>
    if (PASSWORD_CHANGE_MAX_FAILURES <=? length stamps)%nat
    then r = Raise (AuthError "invalid_credentials") ∧ same_tables w w' ∧ failures_after w' = stamps
    else match r with
         | Return rec => ∃ u hashed, w.(users) !! key = Some u ∧ u.(disabled) = false ∧ rec = _user_record u ∧
             verify_password current u.(password_hash) = Return true ∧
             hash_password new (urandom w.(salts_drawn)) = Return hashed ∧
             w'.(users) = <[key := u <| password_hash := hashed |>]> w.(users) ∧
             (∀ d s, w'.(sessions) !! d = Some s ↔
                w.(sessions) !! d = Some s ∧ (s.(session_user_id) = key → optional_digest keep = Some d)) ∧
             failures_after w' = []
         | Raise e => same_tables w w' ∧ failures_after w' =
             (if decide (e = AuthError "invalid_credentials") then recent window later stamps ++ [later] else stamps)
         end) w.
Proof.
  intros Hok key later stamps failures_after. eapply wp_mono; [by apply change_password_spec|].
  cbv zeta. fold key later stamps. intros r w' [_ Hr]. destruct (_ <=? _)%nat; [done|]. destruct r as [rec|e]; [|done].
  destruct Hr as (u & hashed & Hu & _ & _ & Hd & -> & Hv & Hh & Eu & Es & Ef).
  exists u, hashed. split_and!; try done; [|unfold failures_after; by rewrite Ef].
  intros d s. rewrite Es. unfold revoked_sessions. rewrite map_lookup_filter_Some. cbn.
  destruct (decide (optional_digest keep = Some d)); naive_solver.
Qed.

(** The user a cookie stands for at a time. *)
Definition live_user (st : AuthSpec) (cookie : option string) (now : datetime) : option SessionUser :=
  match optional_digest cookie with
  | Some d => match st.(live) !! d with
              | Some (u, e) => if now <? e then Some u else None
              | None => None
              end
  | None => None
  end.

Lemma spec_resolve_inv now token o st st' :
  spec_step session_ttl now (ResolveToken token) (AnswerOption o) st st' → o = live_user st token now.
Proof.
  inversion 1 as [| | | | |st0 token0 Hd|st0 token0 d u e Hd Hl Hlt|st0 token0 d Hd Hl| |]; subst;
    unfold live_user; rewrite Hd; [done|rewrite Hl; destruct (Z.ltb_spec now e); [done|lia]|].
  destruct (live st !! d) as [[u e]|] eqn:Hu; [|done].
  specialize (Hl u e eq_refl). destruct (Z.ltb_spec now e); [lia|done].
Qed.

Lemma resolve_token_live token w :
  auth_ok w →
  wp (resolve_token token) (fun r w' => auth_ok w' ∧
    r = Return (live_user (abs w) token (clock w.(auth_clock_reads)))) w.
Proof.
  intros Hok. pose proof (refines_resolve_token session_ttl token w Hok) as Href.
  unfold refines, wp in *. destruct Href as [Hok' Hstep]. split; [done|].
  assert (∀ e, (resolve_token token w).1 ≠ Raise e) as Hno.
  { intros e. unfold resolve_token. destruct (optional_digest token) as [d|]; [|done].
    unfold auth_now, auth_transaction, reads, mbind, prog_bind. cbn.
    repeat (case_match; cbn in *; simplify_eq; try done). }
  destruct (resolve_token token w).1 as [a|e] eqn:Hr; [|by destruct (Hno e)].
  by rewrite (spec_resolve_inv _ _ _ _ _ Hstep).
Qed.

End theorems.

(** ** Worked instances *)


(** A viewer whose session ends at 100. *)
Definition viewer : UserModel := mkUser "11" "viewer" "pbkdf2_sha256$1$00$00" VIEWER false 0.
Definition viewer_session : SessionModel := mkSession (token_digest "t") "11" 0 100 0.
Definition guard_world (now : nat) : AuthWorld :=
  mkAuthWorld {["11" := viewer]}
    {[token_digest "t" := viewer_session]} [("11", [0; 5])] now 3 0 0 4.

Lemma guard_world_ok now : auth_ok (guard_world now).
Proof.
  split; cbn [users sessions guard_world auth_uuids_drawn].
  - by intros id u [<- <-]%lookup_singleton_Some.
  - by intros id1 id2 u1 u2 [<- _]%lookup_singleton_Some [<- _]%lookup_singleton_Some.
  - by intros id u [<- <-]%lookup_singleton_Some.
  - intros id [u [<- _]%lookup_singleton_Some]. exists 2%nat. split; [lia|done].
  - by intros d s [<- <-]%lookup_singleton_Some.
  - intros d s [<- <-]%lookup_singleton_Some. exists viewer. reflexivity.
Qed.

Definition login_then (m p : string) : Request := mkRequest m p (Some "t").

(** Read allowed, write forbidden, and unauthenticated once the session is over. *)
Example guard_answers :
  (auth_guard (login_then "GET" "/api/v1/audits") (guard_world 7)).1 =
    Return (Return (Some (_user_record viewer))) ∧
  (auth_guard (login_then "POST" "/api/v1/audits") (guard_world 7)).1 = Return (Raise (HTTP 403 "forbidden_role")) ∧
  (auth_guard (login_then "get" "/api/audits") (guard_world 100)).1 = Return (Raise (HTTP 401 "unauthenticated")).
Proof. split_and!; vm_compute; reflexivity. Qed.


Lemma login_follows_password_witness :
  auth_ok auth_init ∧
  wp (create_user "ops" "long enough" AUDITOR) (fun res w' => match res with
    | Return u => authenticate "ops" "long enough" w' = (Return u, w')
    | Raise _ => True end) auth_init.
Proof.
  split; [apply auth_ok_init|].
  eapply wp_mono; [exact (proj1 (login_follows_password "ops" "long enough" AUDITOR None auth_init auth_ok_init))|].
  intros [u|e] w'; [|done]. intros Hl. rewrite (Hl "long enough"). by rewrite decide_True.
Defined.

(** The eighth failure in the window closes the account's password change. *)
Definition failing_world : AuthWorld := (guard_world 7) <| failures := [("11", [4; 4; 4; 4; 4; 4; 4; 4])] |>.

Lemma change_password_throttled_witness :
  auth_ok failing_world ∧
  wp (change_password 300 (_user_record viewer) "any" "new password" None)
    (fun r w' => r = Raise (AuthError "invalid_credentials") ∧ same_tables failing_world w') failing_world.
Proof.
  assert (auth_ok failing_world) as Hok by (apply (auth_ok_same (guard_world 7)); [apply guard_world_ok|by split|done]).
  split; [done|].
  pose proof (change_password_throttled 300 (_user_record viewer) "any" "new password" None failing_world Hok) as Hx.
  unfold wp in *. cbv beta zeta in Hx. match type of Hx with if ?c then _ else _ => change c with true in Hx end.
  cbv iota in Hx. destruct Hx as (? & ? & _). by split.
Defined.
