(* ===== verification/Ip.v ===== *)
(** * IP addresses and networks ([ipaddress])

    The parts of Python's [ipaddress] (3.11) the modelled code runs: parsing and
    printing of IPv4 and IPv6 addresses, zone ids included, networks with their masks,
    membership and the classification of address blocks. *)

From S2P Require Import Prelude PyBase PyText.

(** [AddressValueError], [NetmaskValueError] (which the factory functions catch) and
    the plain [ValueError] of a network with host bits. *)
Inductive IpExc : Type :=
  | AddressValueError
  | NetmaskValueError
  | IpValueError.

#[export] Instance IpExc_eq_dec : EqDecision IpExc.
Proof. solve_decision. Defined.

Abbreviation IO := (outcome IpExc).

(** An address: [_version], [_ip] and, for IPv6, [_scope_id]. *)
Record ip_addr : Type := mkIp {
  version : Z;
  ip_int : Z;
  scope_id : option string
}.

#[export] Instance ip_addr_eq_dec : EqDecision ip_addr.
Proof. solve_decision. Defined.

Definition max_prefixlen (ver : Z) : Z := if ver =? 4 then 32 else 128.
Definition all_ones (ver : Z) : Z := 2 ^ max_prefixlen ver - 1.

Definition dot : ascii := chr 46.
Definition colon : ascii := chr 58.
Definition percent : ascii := chr 37.
Definition slash : ascii := chr 47.

(** ** IPv4 text *)

(** A non-empty string of ASCII digits. *)
Definition decimal (s : string) : bool := nonempty s && str_all is_digit s.

Definition digits_value (s : string) : Z :=
  (fix go acc s := match s with
                   | EmptyString => acc
                   | String c s' => go (10 * acc + digit_value c) s'
                   end) 0 s.

Definition _parse_octet (s : string) : IO Z :=
  if negb (decimal s) then Raise IpValueError
  else if (3 <? String.length s)%nat then Raise IpValueError
  else if negb (String.eqb s "0") && startswith s "0" then Raise IpValueError
  else let n := digits_value s in if 255 <? n then Raise IpValueError else Return n.

(** An exception of a part becomes an [AddressValueError] of the whole. *)
Definition as_address_error {A} (m : IO A) : IO A :=
  match m with Return a => Return a | Raise _ => Raise AddressValueError end.

Definition ipv4_int_from_string (s : string) : IO Z :=
  match split_on dot s with
  | [a; b; c; d] =>
      as_address_error
        (a ← _parse_octet a; b ← _parse_octet b; c ← _parse_octet c; d ← _parse_octet d;
         mret (((a * 256 + b) * 256 + c) * 256 + d))
  | _ => Raise AddressValueError
  end.

Definition ipv4_to_string (n : Z) : string :=
  join "." (List.map str_int [n / 2 ^ 24; n / 2 ^ 16 mod 256; n / 2 ^ 8 mod 256; n mod 256]).

(** ** IPv6 text *)

Definition hex_value (c : ascii) : option Z :=
  if is_digit c then Some (code c - 48)
  else if (97 <=? code c) && (code c <=? 102) then Some (code c - 87)
  else if (65 <=? code c) && (code c <=? 70) then Some (code c - 55)
  else None.

(** [int(s, 16)] on hexadecimal digits. *)
Fixpoint hex_from (acc : Z) (s : string) : option Z :=
  match s with
  | EmptyString => Some acc
  | String c s' => d ← hex_value c; hex_from (16 * acc + d) s'
  end.

Definition _parse_hextet (s : string) : IO Z :=
  match s, hex_from 0 s with
  | EmptyString, _ => Raise IpValueError
  | _, Some n => if (4 <? String.length s)%nat then Raise IpValueError else Return n
  | _, None => Raise IpValueError
  end.

(** ['%x' % n] for [n] below [2 ^ 16]. *)
Definition hextet (n : Z) : string :=
  let d3 := hex_digit (n / 4096) in let d2 := hex_digit (n / 256 mod 16) in
  let d1 := hex_digit (n / 16 mod 16) in let d0 := hex_digit (n mod 16) in
  if n <? 16 then String d0 EmptyString
  else if n <? 256 then String d1 (String d0 EmptyString)
  else if n <? 4096 then String d2 (String d1 (String d0 EmptyString))
  else String d3 (String d2 (String d1 (String d0 EmptyString))).

Definition last_part (parts : list string) : string := List.last parts EmptyString.

(** [ip_int <<= 16; ip_int |= part], over the parts. *)
Fixpoint join_hextets (acc : Z) (parts : list string) : IO Z :=
  match parts with
  | [] => mret acc
  | p :: parts' => h ← _parse_hextet p; join_hextets (Z.lor (Z.shiftl acc 16) h) parts'
  end.

(** The index of the empty part strictly inside the list; two are an error. *)
Fixpoint find_skip (i : nat) (parts : list string) (found : option nat) : IO (option nat) :=
  match parts with
  | [] | [_] => mret found
  | p :: parts' =>
      if nonempty p then find_skip (S i) parts' found
      else match found with
           | Some _ => Raise AddressValueError
           | None => find_skip (S i) parts' (Some i)
           end
  end.

(** An IPv4 suffix becomes two hextets. *)
Definition expand_ipv4_suffix (parts : list string) : IO (list string) :=
  let tail := last_part parts in
  if has_char dot tail then
    if has_char slash tail then Raise AddressValueError
    else n ← ipv4_int_from_string tail;
         mret (List.removelast parts ++
                 [hextet (Z.land (Z.shiftr n 16) 65535); hextet (Z.land n 65535)])
  else mret parts.

(** How many parts to read before and after the ["::"], and how many it stands for. *)
Definition hextet_layout (parts : list string) : IO (nat * nat * nat) :=
  let n := length parts in
  let first := List.hd EmptyString parts in let tail := last_part parts in
  skip ← find_skip 1 (List.tl parts) None;
  match skip with
  | Some i =>
      let hi := if nonempty first then i else (i - 1)%nat in
      let lo := if nonempty tail then (n - i - 1)%nat else (n - i - 2)%nat in
      if negb (nonempty first) && negb (hi =? 0)%nat then Raise AddressValueError
      else if negb (nonempty tail) && negb (lo =? 0)%nat then Raise AddressValueError
      else if (8 <=? hi + lo)%nat then Raise AddressValueError
      else mret (hi, (8 - (hi + lo))%nat, lo)
  | None =>
      if negb (n =? 8)%nat then Raise AddressValueError
      else if negb (nonempty first) || negb (nonempty tail) then Raise AddressValueError
      else mret (n, 0%nat, 0%nat)
  end.

Definition ipv6_int_from_string (s : string) : IO Z :=
  let parts := split_on colon s in
  if (length parts <? 3)%nat then Raise AddressValueError
  else
    parts ← expand_ipv4_suffix parts;
    if (9 <? length parts)%nat then Raise AddressValueError
    else
      '(hi, skipped, lo) ← hextet_layout parts;
      as_address_error
        (high ← join_hextets 0 (take hi parts);
         join_hextets (Z.shiftl high (16 * Z.of_nat skipped)) (drop (length parts - lo) parts)).

(** *** Printing *)

(** The longest run of ["0"] parts, the first of several: its start and length. *)
Fixpoint zero_run (i : nat) (parts : list string) (start len best_start best_len : nat)
    : nat * nat :=
  match parts with
  | [] => (best_start, best_len)
  | p :: parts' =>
      if String.eqb p "0" then
        let start := if (len =? 0)%nat then i else start in
        if (best_len <? S len)%nat then zero_run (S i) parts' start (S len) start (S len)
        else zero_run (S i) parts' start (S len) best_start best_len
      else zero_run (S i) parts' i 0 best_start best_len
  end.

Definition _compress_hextets (parts : list string) : list string :=
  let '(start, len) := zero_run 0 parts 0 0 0 0 in
  if (1 <? len)%nat then
    (if (start =? 0)%nat then [EmptyString] else []) ++ take start parts ++ [EmptyString] ++
    drop (start + len) parts ++ (if (start + len =? length parts)%nat then [EmptyString] else [])
  else parts.

Definition hextets (n : Z) : list string :=
  List.map (fun i => hextet (n / 2 ^ (16 * i) mod 65536)) [7; 6; 5; 4; 3; 2; 1; 0].

Definition ipv6_to_string (n : Z) : string := join ":" (_compress_hextets (hextets n)).

(** [str(address)] *)
Definition ip_str (a : ip_addr) : string :=
  if a.(version) =? 4 then ipv4_to_string a.(ip_int)
  else ipv6_to_string a.(ip_int) +:+
       match a.(scope_id) with
       | Some (String c s) => "%" +:+ String c s
       | _ => EmptyString
       end.

(** ** Addresses *)

Definition IPv4Address (s : string) : IO ip_addr :=
  if has_char slash s then Raise AddressValueError
  else n ← ipv4_int_from_string s; mret (mkIp 4 n None).

Definition _split_scope_id (s : string) : IO (string * option string) :=
  match split_once percent s with
  | (_, None) => mret (s, None)
  | (addr, Some scope) =>
      if negb (nonempty scope) || has_char percent scope then Raise AddressValueError
      else mret (addr, Some scope)
  end.

Definition IPv6Address (s : string) : IO ip_addr :=
  if has_char slash s then Raise AddressValueError
  else '(addr, scope) ← _split_scope_id s;
       n ← ipv6_int_from_string addr; mret (mkIp 6 n scope).

(** [try: first except (AddressValueError, NetmaskValueError): second], and [ValueError]
    when neither version fits; any other [ValueError] of the first is final. *)
Definition first_version {A} (first second : IO A) : IO A :=
  match first with
  | Return a => Return a
  | Raise IpValueError => Raise IpValueError
  | Raise _ => match second with Return a => Return a | Raise _ => Raise IpValueError end
  end.

Definition ip_address (s : string) : IO ip_addr := first_version (IPv4Address s) (IPv6Address s).

(** [a <= b] and [a >= b] on addresses of one version: [total_ordering] over the integers,
    with equality that sees the zone. *)
Definition addr_le (a b : ip_addr) : bool := (a.(ip_int) <? b.(ip_int)) || bool_decide (a = b).
Definition addr_ge (a b : ip_addr) : bool := negb (a.(ip_int) <? b.(ip_int)).

(** ** Networks *)

Record ip_net : Type := mkNet {
  network_address : ip_addr;
  prefixlen : Z
}.

#[export] Instance ip_net_eq_dec : EqDecision ip_net.
Proof. solve_decision. Defined.

Definition net_version (n : ip_net) : Z := n.(network_address).(version).
Definition net_max (n : ip_net) : Z := max_prefixlen (net_version n).

(** [_ip_int_from_prefix] *)
Definition netmask (ver prefix : Z) : Z :=
  Z.lxor (all_ones ver) (Z.shiftr (all_ones ver) prefix).
Definition hostmask (n : ip_net) : Z :=
  Z.lxor (netmask (net_version n) n.(prefixlen)) (all_ones (net_version n)).
Definition broadcast_address (n : ip_net) : ip_addr :=
  mkIp (net_version n) (Z.lor n.(network_address).(ip_int) (hostmask n)) None.
Definition num_addresses (n : ip_net) : Z :=
  (broadcast_address n).(ip_int) - n.(network_address).(ip_int) + 1.

Definition net_str (n : ip_net) : string :=
  ip_str n.(network_address) +:+ "/" +:+ str_int n.(prefixlen).

(** [_is_subnet_of], for two networks of one version. *)
Definition subnet_of (a b : ip_net) : bool :=
  addr_le b.(network_address) a.(network_address) &&
  addr_ge (broadcast_address b) (broadcast_address a).

(** [a in network] *)
Definition in_block (ver net prefix : Z) (a : ip_addr) : bool :=
  (a.(version) =? ver) && (Z.land a.(ip_int) (netmask ver prefix) =? net).

(** *** Masks *)

Definition prefix_from_prefix_string (ver : Z) (s : string) : IO Z :=
  if negb (decimal s) || (MAX_STR_DIGITS <? String.length s)%nat then Raise NetmaskValueError
  else let p := digits_value s in
       if p <=? max_prefixlen ver then Return p else Raise NetmaskValueError.

(** [_count_righthand_zero_bits] *)
Fixpoint trailing_zeros (fuel : nat) (n : Z) : Z :=
  match fuel with
  | O => 0
  | S fuel => if Z.odd n then 0 else 1 + trailing_zeros fuel (n / 2)
  end.

Definition prefix_from_ip_int (ver n : Z) : option Z :=
  let zeros := trailing_zeros (Z.to_nat (max_prefixlen ver)) n in
  let prefix := max_prefixlen ver - zeros in
  if Z.shiftr n zeros =? Z.shiftl 1 prefix - 1 then Some prefix else None.

(** A netmask in dotted form, or a host mask. *)
Definition prefix_from_ip_string (s : string) : IO Z :=
  match ipv4_int_from_string s with
  | Raise _ => Raise NetmaskValueError
  | Return n =>
      match prefix_from_ip_int 4 n with
      | Some p => Return p
      | None => match prefix_from_ip_int 4 (Z.lxor n (all_ones 4)) with
                | Some p => Return p
                | None => Raise NetmaskValueError
                end
      end
  end.

Definition _make_netmask (ver : Z) (mask : option string) : IO Z :=
  match mask with
  | None => Return (max_prefixlen ver)
  | Some s =>
      match prefix_from_prefix_string ver s with
      | Return p => Return p
      | Raise e => if ver =? 4 then prefix_from_ip_string s else Raise e
      end
  end.

(** *** Construction *)

Definition _split_addr_prefix (s : string) : IO (string * option string) :=
  match split_on slash s with
  | [a] => Return (a, None)
  | [a; m] => Return (a, Some m)
  | _ => Raise AddressValueError
  end.

Definition address_of_version (ver : Z) : string → IO ip_addr :=
  if ver =? 4 then IPv4Address else IPv6Address.

Definition network_of_parts (ver : Z) (addr : string) (mask : option string) (strict : bool)
    : IO ip_net :=
  a ← address_of_version ver addr;
  p ← _make_netmask ver mask;
  let masked := Z.land a.(ip_int) (netmask ver p) in
  if masked =? a.(ip_int) then mret (mkNet a p)
  else if strict then Raise IpValueError
  else mret (mkNet (mkIp ver masked None) p).

Definition network_of_version (ver : Z) (s : string) (strict : bool) : IO ip_net :=
  '(addr, mask) ← _split_addr_prefix s; network_of_parts ver addr mask strict.

Definition ip_network (s : string) (strict : bool) : IO ip_net :=
  first_version (network_of_version 4 s strict) (network_of_version 6 s strict).

(** [IPv4Interface(s).network], [IPv6Interface(s).network] *)
Definition interface_network (ver : Z) (s : string) : IO ip_net :=
  '(addr, mask) ← _split_addr_prefix s;
  _ ← address_of_version ver addr;
  network_of_parts ver addr mask false.

(** [ip_interface(s).network] *)
Definition ip_interface_network (s : string) : IO ip_net :=
  first_version (interface_network 4 s) (interface_network 6 s).

(** *** Classification: of both ends of the network *)

Definition both_ends (p : ip_addr → bool) (n : ip_net) : bool :=
  p n.(network_address) && p (broadcast_address n).

Definition is_multicast : ip_net → bool := both_ends (fun a =>
  if a.(version) =? 4 then in_block 4 (224 * 2 ^ 24) 4 a else in_block 6 (65280 * 2 ^ 112) 8 a).
Definition is_link_local : ip_net → bool := both_ends (fun a =>
  if a.(version) =? 4 then in_block 4 ((169 * 256 + 254) * 2 ^ 16) 16 a
  else in_block 6 (65152 * 2 ^ 112) 10 a).
Definition is_loopback : ip_net → bool := both_ends (fun a =>
  if a.(version) =? 4 then in_block 4 (127 * 2 ^ 24) 8 a else a.(ip_int) =? 1).
(** Comparing an IPv4 address with [0.0.0.0]; an IPv6 address by its integer. *)
Definition is_unspecified : ip_net → bool := both_ends (fun a => a.(ip_int) =? 0).
