(* ===== verification/IpProofs.v ===== *)
(** * Addresses print and parse back; networks are aligned blocks *)

From S2P Require Import Prelude PyBase PyText Ip.

#[local] Ltac Zify.zify_post_hook ::= Z.to_euclidean_division_equations.

(** ** Well-formed addresses *)

Definition zone_ok (o : option string) : Prop :=
  match o with
  | None => True
  | Some s => nonempty s = true ∧ without percent s = true ∧ without slash s = true
  end.

Definition ip_ok (a : ip_addr) : Prop :=
  (a.(version) = 4 ∧ 0 ≤ a.(ip_int) < 2 ^ 32 ∧ a.(scope_id) = None) ∨
  (a.(version) = 6 ∧ 0 ≤ a.(ip_int) < 2 ^ 128 ∧ zone_ok a.(scope_id)).

(** The characters of an address without its zone. *)
Definition addr_char (c : ascii) : bool :=
  is_digit c || ((97 <=? code c) && (code c <=? 102)) || Ascii.eqb c dot || Ascii.eqb c colon.

(** ** Decimal octets *)

Definition octet_ok (n : Z) : bool :=
  match _parse_octet (str_int n) with Return m => m =? n | Raise _ => false end &&
  str_all is_digit (str_int n) && nonempty (str_int n).

Lemma octet_digits n :
  0 ≤ n < 256 → _parse_octet (str_int n) = Return n ∧ str_all is_digit (str_int n) = true ∧
                nonempty (str_int n) = true.
Proof.
  intros Hn. pose proof (by_cases octet_ok 0 256 ltac:(vm_compute; reflexivity) n ltac:(lia)) as H.
  unfold octet_ok in H. rewrite !andb_true_iff in H.
  destruct (_parse_octet _) as [m|]; [|naive_solver]. rewrite Z.eqb_eq in H. naive_solver.
Qed.

Lemma digit_without x s :
  is_digit x = false → str_all is_digit s = true → without x s = true.
Proof.
  intros Hx. apply str_all_mono. intros c Hc. apply negb_true_iff, Ascii.eqb_neq. congruence.
Qed.

Lemma digits_value_nonneg s : str_all is_digit s = true → 0 ≤ digits_value s.
Proof.
  unfold digits_value. generalize (Z.le_refl 0). generalize 0 at 2 4 as acc.
  induction s as [|c s IH]; intros acc Hacc Hs; [done|]. cbn in Hs.
  apply andb_true_iff in Hs as [Hc Hs]. apply IH; [|done].
  unfold digit_value. unfold is_digit in Hc. lia.
Qed.

Lemma parse_octet_range s n : _parse_octet s = Return n → 0 ≤ n < 256.
Proof.
  unfold _parse_octet. destruct (decimal s) eqn:Hd; [|done]. cbn [negb].
  destruct (3 <? _)%nat; [done|]. destruct (_ && _); [done|]. cbv zeta.
  apply andb_true_iff in Hd as [_ Hd%digits_value_nonneg].
  destruct (Z.ltb_spec 255 (digits_value s)); [done|]. intros [= <-]. lia.
Qed.

Lemma ipv4_range s n : ipv4_int_from_string s = Return n → 0 ≤ n < 2 ^ 32.
Proof.
  unfold ipv4_int_from_string. destruct (split_on dot s) as [|a [|b [|c [|d [|? ?]]]]]; try done.
  unfold mbind, outcome_bind, mret, outcome_ret.
  destruct (_parse_octet a) as [x|] eqn:Ha; [|done]. destruct (_parse_octet b) as [y|] eqn:Hb; [|done].
  destruct (_parse_octet c) as [z|] eqn:Hc; [|done]. destruct (_parse_octet d) as [t|] eqn:Hd; [|done].
  apply parse_octet_range in Ha, Hb, Hc, Hd. intros [= <-]. lia.
Qed.

Lemma ipv4_text n :
  0 ≤ n < 2 ^ 32 →
  ipv4_int_from_string (ipv4_to_string n) = Return n ∧ str_all addr_char (ipv4_to_string n) = true.
Proof.
  intros Hn. unfold ipv4_int_from_string, ipv4_to_string. cbn [List.map].
  destruct (octet_digits (n / 2 ^ 24)) as (Ha & Hda & _); [lia|].
  destruct (octet_digits (n / 2 ^ 16 mod 256)) as (Hb & Hdb & _); [lia|].
  destruct (octet_digits (n / 2 ^ 8 mod 256)) as (Hc & Hdc & _); [lia|].
  destruct (octet_digits (n mod 256)) as (Hd & Hdd & _); [lia|]. split.
  - change "." with (String dot EmptyString). rewrite split_on_join.
    + rewrite Ha, Hb, Hc, Hd. cbn. f_equal. lia.
    + by apply digit_without.
    + cbn [forallb]. rewrite !andb_true_iff. by repeat split; apply digit_without.
  - assert (∀ s, str_all is_digit s = true → str_all addr_char s = true) as Hw.
    { intros s. apply str_all_mono. intros c Hc'. unfold addr_char. by rewrite Hc'. }
    cbn [join]. rewrite !str_all_app.
    by rewrite (Hw _ Hda), (Hw _ Hdb), (Hw _ Hdc), (Hw _ Hdd).
Qed.

(** ** Hextets *)

Lemma hex_digit_value d : 0 ≤ d < 16 → hex_value (hex_digit d) = Some d.
Proof.
  intros Hd. pose proof (by_cases (fun d => reads_as (hex_value (hex_digit d)) d) 0 16
    ltac:(vm_compute; reflexivity) d ltac:(lia)) as H. by apply reads_as_spec.
Qed.

Lemma hex_digit_char d : 0 ≤ d < 16 → addr_char (hex_digit d) && negb (Ascii.eqb (hex_digit d) dot) &&
  negb (Ascii.eqb (hex_digit d) colon) = true.
Proof.
  intros Hd. exact (by_cases (fun d => addr_char (hex_digit d) && negb (Ascii.eqb (hex_digit d) dot) &&
    negb (Ascii.eqb (hex_digit d) colon)) 0 16 ltac:(vm_compute; reflexivity) d ltac:(lia)).
Qed.

(** What the parser needs to know of a printed hextet. *)
Record hextet_text (h : Z) (s : string) : Prop := {
  hextet_parses : _parse_hextet s = Return h;
  hextet_nonempty : nonempty s = true;
  hextet_plain : without colon s = true;
  hextet_no_dot : has_char dot s = false;
  hextet_chars : str_all addr_char s = true
}.

Lemma hextet_spec h : 0 ≤ h < 65536 → hextet_text h (hextet h).
Proof.
  intros Hh. unfold hextet. cbv zeta.
  set (d3 := h / 4096). set (d2 := h / 256 mod 16). set (d1 := h / 16 mod 16). set (d0 := h mod 16).
  assert (0 ≤ d3 < 16 ∧ 0 ≤ d2 < 16 ∧ 0 ≤ d1 < 16 ∧ 0 ≤ d0 < 16) as (H3 & H2 & H1 & H0)
    by (unfold d3, d2, d1, d0; lia).
  assert (h = 4096 * d3 + 256 * d2 + 16 * d1 + d0) as Hsum by (unfold d3, d2, d1, d0; lia).
  clearbody d3 d2 d1 d0.
  pose proof (hex_digit_value d3 H3) as H3'. pose proof (hex_digit_value d2 H2) as H2'.
  pose proof (hex_digit_value d1 H1) as H1'. pose proof (hex_digit_value d0 H0) as H0'.
  pose proof (hex_digit_char d3 H3) as C3. pose proof (hex_digit_char d2 H2) as C2.
  pose proof (hex_digit_char d1 H1) as C1. pose proof (hex_digit_char d0 H0) as C0.
  rewrite !andb_true_iff, !negb_true_iff in C3, C2, C1, C0.
  destruct C3 as [[A3 B3] E3], C2 as [[A2 B2] E2], C1 as [[A1 B1] E1], C0 as [[A0 B0] E0].
  destruct (Z.ltb_spec h 16); [|destruct (Z.ltb_spec h 256); [|destruct (Z.ltb_spec h 4096)]];
    split; try reflexivity;
    cbn [has_char without str_all]; rewrite ?E3, ?E2, ?E1, ?E0, ?B3, ?B2, ?B1, ?B0, ?A3, ?A2, ?A1, ?A0;
    try reflexivity;
    unfold _parse_hextet; cbn [hex_from]; rewrite ?H3', ?H2', ?H1', ?H0';
    cbn -[Z.mul Z.add]; f_equal; lia.
Qed.

(** Appending 16 bits. *)
Lemma lor_shift acc h : 0 ≤ h < 65536 → Z.lor (Z.shiftl acc 16) h = acc * 65536 + h.
Proof.
  intros Hh. rewrite Z.shiftl_mul_pow2 by lia. change (2 ^ 16) with 65536.
  pose proof (Z.add_lor_land (acc * 65536) h) as Hadd.
  assert (Z.land (acc * 65536) h = 0) as Hz; [|lia].
  apply Z.bits_inj'. intros i Hi. rewrite Z.land_spec, Z.bits_0.
  change 65536 with (2 ^ 16). rewrite Z.mul_pow2_bits by lia.
  destruct (Z.ltb_spec i 16); [by rewrite Z.testbit_neg_r by lia|].
  destruct (Z.eq_dec h 0) as [->|Hne]; [by rewrite Z.bits_0, andb_false_r|].
  rewrite (Z.bits_above_log2 h); [by rewrite andb_false_r|lia|].
  enough (Z.log2 h < 16) by lia. apply Z.log2_lt_pow2; lia.
Qed.

(** ** Compression *)

Lemma zero_run_spec rest pre start len bs bl s l :
  zero_run (length pre) rest start len bs bl = (s, l) →
  (len <= length pre)%nat → (len ≠ 0 → start = length pre - len)%nat →
  (∀ i, (length pre - len <= i < length pre)%nat → pre !! i = Some "0") →
  (bs + bl <= length pre)%nat → (∀ i, (bs <= i < bs + bl)%nat → pre !! i = Some "0") →
  (s + l <= length (pre ++ rest))%nat ∧
  ∀ i, (s <= i < s + l)%nat → (pre ++ rest) !! i = Some "0".
Proof.
  revert pre start len bs bl. induction rest as [|p rest IH]; intros pre start len bs bl.
  { cbn. intros [= -> ->]. rewrite app_nil_r. intros. by split. }
  cbn [zero_run]. replace (S (length pre)) with (length (pre ++ [p])) by (rewrite length_app; simpl; lia).
  assert (pre ++ p :: rest = (pre ++ [p]) ++ rest) as -> by by rewrite <- (assoc_L (++)).
  intros Hrun Hlen Hstart Hrunning Hbest Hzero.
  assert (∀ i, (bs <= i < bs + bl)%nat → (pre ++ [p]) !! i = Some "0") as Hzero'.
  { intros i Hi. rewrite lookup_app_l by lia. auto. }
  destruct (String.eqb_spec p "0") as [->|_].
  - set (start' := (if (len =? 0)%nat then length pre else start)) in Hrun.
    assert (start' = length pre - len)%nat as Hs'.
    { unfold start'. destruct (Nat.eqb_spec len 0); [lia|]. auto. }
    assert (∀ i, (length pre - len <= i < S (length pre))%nat → (pre ++ ["0"]) !! i = Some "0") as Hz.
    { intros i Hi. destruct (decide (i = length pre)) as [->|]; [by rewrite list_lookup_middle|].
      rewrite lookup_app_l by lia. apply Hrunning. lia. }
    clearbody start'. subst start'. destruct (Nat.ltb_spec bl (S len));
      (eapply IH; [exact Hrun|..]); rewrite ?length_app; simpl; try lia; try done;
      intros i Hi; apply Hz; lia.
  - eapply IH; [exact Hrun|..]; rewrite ?length_app; simpl; try lia; done.
Qed.

(** ** Parsing what was printed *)

Definition hextets_value (hs : list Z) : Z := foldl (fun acc h => acc * 65536 + h) 0 hs.

Lemma join_hextets_spec hs xs acc :
  Forall2 (fun h x => 0 ≤ h < 65536 ∧ hextet_text h x) hs xs →
  join_hextets acc xs = Return (foldl (fun acc h => acc * 65536 + h) acc hs).
Proof.
  intros H. revert acc. induction H as [|h x hs xs [Hh Hx] _ IH]; intros acc; [done|].
  cbn [join_hextets foldl]. unfold mbind, outcome_bind. rewrite (hextet_parses _ _ Hx).
  by rewrite lor_shift, IH.
Qed.

Lemma zero_text h : hextet_text h "0" → h = 0.
Proof. intros [H _ _ _ _]. cbn in H. by injection H. Qed.

Lemma zero_hextets_text (h : Z) (xs : list string) (hs : list Z) i :
  Forall2 (fun h x => 0 ≤ h < 65536 ∧ hextet_text h x) hs xs → xs !! i = Some "0" →
  hs !! i = Some h → h = 0.
Proof.
  intros Hall Hx Hh. destruct (Forall2_lookup_lr _ _ _ _ _ _ Hall Hh Hx) as [_ H].
  by apply zero_text.
Qed.

(** The parser on a list of parts, each a plain text. *)
Definition parse_parts (parts : list string) : IO Z :=
  if (length parts <? 3)%nat then Raise AddressValueError
  else
    parts ← expand_ipv4_suffix parts;
    if (9 <? length parts)%nat then Raise AddressValueError
    else
      '(hi, skipped, lo) ← hextet_layout parts;
      as_address_error
        (high ← join_hextets 0 (take hi parts);
         join_hextets (Z.shiftl high (16 * Z.of_nat skipped)) (drop (length parts - lo) parts)).

Lemma ipv6_parse_join p parts :
  forallb (without colon) (p :: parts) = true →
  ipv6_int_from_string (join ":" (p :: parts)) = parse_parts (p :: parts).
Proof.
  intros [Hp Hparts]%andb_true_iff. unfold ipv6_int_from_string.
  change ":" with (String colon EmptyString). by rewrite split_on_join.
Qed.

Lemma no_suffix parts : has_char dot (last_part parts) = false → expand_ipv4_suffix parts = Return parts.
Proof. unfold expand_ipv4_suffix. by intros ->. Qed.

(** Layouts: all eight parts, or some on either side of an empty one. *)
Lemma find_skip_plain i parts found :
  forallb nonempty parts = true → find_skip i parts found = Return found.
Proof.
  revert i. induction parts as [|p parts IH]; intros i; [done|]. cbn [forallb find_skip].
  intros [Hp Hparts]%andb_true_iff. destruct parts; [done|]. rewrite Hp. by apply IH.
Qed.

Definition skip_parts (pre post : list string) : list string :=
  (if (length pre =? 0)%nat then [EmptyString] else []) ++ pre ++ [EmptyString] ++ post ++
  (if (length post =? 0)%nat then [EmptyString] else []).

Definition string_of (cs : ascii * string) : string := String cs.1 cs.2.

Lemma nonempty_strings l :
  forallb nonempty l = true → ∃ l', l = List.map string_of l'.
Proof.
  induction l as [|[|c s] l IH]; [by exists []|done|].
  intros [l' ->]%IH. by exists ((c, s) :: l').
Qed.

(** Both sides have at most seven parts: the layouts are computed one by one. *)
Ltac short_list l :=
  destruct l as [|? [|? [|? [|? [|? [|? [|? [|? ?]]]]]]]]; simpl in *; try lia.

Lemma layout_skip pre post :
  forallb nonempty pre = true → forallb nonempty post = true →
  (length pre + length post <= 7)%nat →
  let parts := skip_parts pre post in
  hextet_layout parts = Return (length pre, (8 - (length pre + length post))%nat, length post) ∧
  take (length pre) parts = pre ∧ drop (length parts - length post) parts = post.
Proof.
  intros [pre' ->]%nonempty_strings [post' ->]%nonempty_strings. rewrite !length_map.
  intros Hlen parts. short_list pre'; short_list post'; by split_and!.
Qed.

Abbreviation hextet_texts := (Forall2 (fun h x => 0 ≤ h < 65536 ∧ hextet_text h x)).

Lemma texts_plain hs xs :
  hextet_texts hs xs →
  forallb (without colon) xs = true ∧ forallb nonempty xs = true ∧
  (∀ x, x ∈ xs → has_char dot x = false) ∧ (∀ x, x ∈ xs → str_all addr_char x = true).
Proof.
  induction 1 as [|h x hs xs [_ Hx] _ (IH1 & IH2 & IH3 & IH4)].
  { repeat split; intros x Hx; by apply elem_of_nil in Hx. }
  cbn [forallb]. rewrite (hextet_plain _ _ Hx), (hextet_nonempty _ _ Hx). repeat split; [done|done|..];
    intros y [->|Hy]%elem_of_cons; auto; apply Hx.
Qed.

Lemma last_part_elem parts : last_part parts = EmptyString ∨ last_part parts ∈ parts.
Proof.
  unfold last_part. destruct parts as [|p parts]; [by left|right].
  apply list_elem_of_In. rewrite (app_removelast_last "" (l := p :: parts)) at 2 by done.
  apply in_or_app. right. by left.
Qed.

Lemma join_hextets_pair hs xs hs2 xs2 k :
  hextet_texts hs xs → hextet_texts hs2 xs2 →
  as_address_error
    (high ← join_hextets 0 xs; join_hextets (Z.shiftl high (16 * Z.of_nat k)) xs2) =
  Return (hextets_value (hs ++ replicate k 0 ++ hs2)).
Proof.
  intros H1 H2. unfold mbind, outcome_bind. rewrite (join_hextets_spec _ _ _ H1).
  rewrite (join_hextets_spec _ _ _ H2). unfold hextets_value. rewrite !foldl_app. cbn. do 2 f_equal.
  generalize (foldl (fun acc h => acc * 65536 + h) 0 hs) as acc. clear.
  induction k as [|k IH]; intros acc; [by rewrite Z.shiftl_0_r|].
  cbn [replicate foldl]. rewrite <- IH. rewrite Z.add_0_r.
  rewrite !Z.shiftl_mul_pow2 by lia.
  replace (16 * Z.of_nat (S k)) with (16 + 16 * Z.of_nat k) by lia.
  rewrite Z.pow_add_r by lia. change (2 ^ 16) with 65536. lia.
Qed.

Lemma parse_plain hs xs :
  hextet_texts hs xs → length xs = 8%nat →
  ipv6_int_from_string (join ":" xs) = Return (hextets_value hs).
Proof.
  intros Hall Hlen. destruct (texts_plain _ _ Hall) as (Hc & Hn & Hd & _).
  destruct xs as [|x xs]; [done|]. rewrite ipv6_parse_join by done. unfold parse_parts.
  rewrite Hlen. cbn [Nat.ltb Nat.leb]. rewrite no_suffix.
  2: { destruct (last_part_elem (x :: xs)) as [->|Hx]; [done|]. by apply Hd. }
  rewrite bind_Return, Hlen. cbn [Nat.ltb Nat.leb].
  assert (hextet_layout (x :: xs) = Return (8, 0, 0)%nat) as ->.
  { clear Hall Hc Hd. apply nonempty_strings in Hn as [l Hl]. rewrite Hl in *. rewrite length_map in Hlen.
    do 9 (destruct l as [|? l]; simpl in Hlen; try lia). reflexivity. }
  rewrite bind_Return, take_ge, drop_ge by (rewrite ?Hlen; lia).
  pose proof (join_hextets_pair _ _ [] [] 0 Hall ltac:(constructor)) as Hj.
  by rewrite !app_nil_r in Hj.
Qed.

Lemma parse_skip hs1 xs1 hs2 xs2 k :
  hextet_texts hs1 xs1 → hextet_texts hs2 xs2 → (length xs1 + k + length xs2 = 8)%nat → (1 <= k)%nat →
  ipv6_int_from_string (join ":" (skip_parts xs1 xs2)) =
    Return (hextets_value (hs1 ++ replicate k 0 ++ hs2)).
Proof.
  intros H1 H2 Hlen Hk. destruct (texts_plain _ _ H1) as (Hc1 & Hn1 & Hd1 & _).
  destruct (texts_plain _ _ H2) as (Hc2 & Hn2 & Hd2 & _).
  destruct (layout_skip xs1 xs2 Hn1 Hn2 ltac:(lia)) as (Hlay & Htake & Hdrop).
  assert (forallb (without colon) (skip_parts xs1 xs2) = true) as Hc.
  { unfold skip_parts. rewrite !forallb_app, Hc1, Hc2. by repeat case_match. }
  assert (2 < length (skip_parts xs1 xs2) <= 9)%nat as Hparts.
  { unfold skip_parts. rewrite !length_app.
    destruct (length xs1) eqn:?, (length xs2) eqn:?; simpl; lia. }
  assert (has_char dot (last_part (skip_parts xs1 xs2)) = false) as Hdot.
  { destruct (last_part_elem (skip_parts xs1 xs2)) as [->|Hx]; [done|].
    revert Hx. generalize (last_part (skip_parts xs1 xs2)) as x. intros x Hx.
    unfold skip_parts in Hx. rewrite !elem_of_app in Hx.
    assert (∀ (b : bool), x ∈ (if b then [""] else []) → has_char dot x = false) as Hb
      by (intros [] Hb; [apply list_elem_of_singleton in Hb as ->|by apply elem_of_nil in Hb]; done).
    destruct Hx as [?|[?|[->%list_elem_of_singleton|[?|?]]]]; eauto. }
  destruct (skip_parts xs1 xs2) as [|p parts] eqn:Hs; [simpl in Hparts; lia|].
  rewrite ipv6_parse_join by done. unfold parse_parts.
  destruct (Nat.ltb_spec (length (p :: parts)) 3); [lia|]. rewrite no_suffix by done.
  rewrite bind_Return. destruct (Nat.ltb_spec 9 (length (p :: parts))); [lia|].
  cbv zeta in Hlay. rewrite Hlay, bind_Return, Htake, Hdrop.
  replace (8 - (length xs1 + length xs2))%nat with k by lia.
  by apply join_hextets_pair.
Qed.

(** ** Printing and parsing addresses *)

Lemma hextets_value_8 h7 h6 h5 h4 h3 h2 h1 h0 :
  hextets_value [h7; h6; h5; h4; h3; h2; h1; h0] =
    ((((((h7 * 65536 + h6) * 65536 + h5) * 65536 + h4) * 65536 + h3) * 65536 + h2) * 65536 + h1)
      * 65536 + h0.
Proof. unfold hextets_value. cbn [foldl]. lia. Qed.

Definition hextet_values (n : Z) : list Z :=
  List.map (fun i => n / 2 ^ (16 * i) mod 65536) [7; 6; 5; 4; 3; 2; 1; 0].

Lemma hextet_texts_of n : hextet_texts (hextet_values n) (hextets n).
Proof.
  unfold hextet_values, hextets. rewrite Forall2_fmap_l, Forall2_fmap_r.
  apply Forall_Forall2_diag, Forall_true. intros i.
  assert (0 ≤ n / 2 ^ (16 * i) mod 65536 < 65536) as H by (apply Z.mod_pos_bound; lia).
  split; [done|]. by apply hextet_spec.
Qed.

Lemma horner_8 (q0 q1 q2 q3 q4 q5 q6 q7 r0 r1 r2 r3 r4 r5 r6 r7 b : Z) :
  q0 = q1 * b + r0 → q1 = q2 * b + r1 → q2 = q3 * b + r2 → q3 = q4 * b + r3 →
  q4 = q5 * b + r4 → q5 = q6 * b + r5 → q6 = q7 * b + r6 → q7 = 0 * b + r7 →
  ((((((r7 * b + r6) * b + r5) * b + r4) * b + r3) * b + r2) * b + r1) * b + r0 = q0.
Proof. intros -> -> -> -> -> -> -> ->. by rewrite Z.mul_0_l, Z.add_0_l. Qed.

Lemma hextets_value_of n : 0 ≤ n < 2 ^ 128 → hextets_value (hextet_values n) = n.
Proof.
  intros Hn. unfold hextet_values. cbn [List.map]. rewrite hextets_value_8.
  assert (∀ i, 0 ≤ i → n / 2 ^ (16 * i) = n / 2 ^ (16 * (i + 1)) * 65536 + n / 2 ^ (16 * i) mod 65536) as Hstep.
  { intros i Hi. replace (16 * (i + 1)) with (16 * i + 16) by lia.
    rewrite Z.pow_add_r, <- Z.div_div by lia. change (2 ^ 16) with 65536.
    rewrite (Z.mul_comm (_ / 65536)). by apply Z.div_mod. }
  transitivity (n / 2 ^ (16 * 0)); [|by rewrite Z.div_1_r].
  pose proof (Hstep 7 ltac:(done)) as H7.
  assert (n / 2 ^ (16 * (7 + 1)) = 0) as E by (apply Z.div_small; exact Hn). rewrite E in H7.
  eapply horner_8; [..|exact H7]; by apply Hstep.
Qed.

Lemma replicate_lookup_eq {A} (l : list A) s k x :
  (s + k <= length l)%nat → (∀ i, (s <= i < s + k)%nat → l !! i = Some x) →
  l = take s l ++ replicate k x ++ drop (s + k) l.
Proof.
  intros Hlen Hx. rewrite <- (take_drop s l) at 1. f_equal.
  rewrite <- (take_drop k (drop s l)) at 1. rewrite drop_drop. f_equal.
  apply list_eq_same_length with k; [by rewrite length_replicate|rewrite length_take, length_drop; lia|].
  intros i a b Hi. rewrite lookup_take_lt, lookup_drop, lookup_replicate_2 by done.
  rewrite Hx by lia. congruence.
Qed.

Lemma compress_text n :
  0 ≤ n < 2 ^ 128 → ipv6_int_from_string (ipv6_to_string n) = Return n.
Proof.
  intros Hn. unfold ipv6_to_string, _compress_hextets.
  pose proof (hextet_texts_of n) as Hall. pose proof (hextets_value_of n Hn) as Hval.
  assert (length (hextets n) = 8%nat) as Hlen by done.
  revert Hall Hval Hlen. generalize (hextets n) as xs. generalize (hextet_values n) as hs.
  intros hs xs Hall Hval Hlen. pose proof (Forall2_length _ _ _ Hall) as Hlen'.
  destruct (zero_run 0 xs 0 0 0 0) as [s l] eqn:Hrun.
  apply (zero_run_spec xs [] 0 0 0 0) in Hrun as [Hsl Hz]; simpl; try (intros; lia).
  simpl in Hsl, Hz. rewrite Hlen in Hsl.
  destruct (Nat.ltb_spec 1 l) as [Hl|Hl]; [|rewrite <- Hval; by apply parse_plain].
  rewrite <- Hval, (replicate_lookup_eq hs s l 0); [|lia|].
  2: { intros i Hi. destruct (lookup_lt_is_Some_2 hs i ltac:(lia)) as [h Hh]. rewrite Hh. f_equal.
       eapply zero_hextets_text; [exact Hall|by apply Hz|done]. }
  assert (length (drop (s + l) xs) = 8 - (s + l))%nat as Hd by (rewrite length_drop; lia).
  assert (length (take s xs) = s)%nat as Ht by (rewrite length_take; lia).
  rewrite <- (parse_skip (take s hs) (take s xs) (drop (s + l) hs) (drop (s + l) xs) l);
    [|by apply Forall2_take|by apply Forall2_drop|lia|lia].
  unfold skip_parts. rewrite Ht, Hd, Hlen. do 6 f_equal.
  destruct (Nat.eqb_spec (s + l) 8), (Nat.eqb_spec (8 - (s + l)) 0); [done|lia|lia|done].
Qed.

Lemma ipv6_chars n : str_all addr_char (ipv6_to_string n) = true.
Proof.
  unfold ipv6_to_string. apply str_all_join; [done|].
  destruct (texts_plain _ _ (hextet_texts_of n)) as (_ & _ & _ & Hx).
  assert (∀ (b : bool) w, w ∈ (if b then [""] else []) → str_all addr_char w = true) as Hb
    by (intros [] w Hb; [apply list_elem_of_singleton in Hb as ->|by apply elem_of_nil in Hb]; done).
  unfold _compress_hextets. destruct (zero_run _ _ _ _ _ _) as [s l]. case_match; [|done].
  intros w. rewrite !elem_of_app. intros [?|[Hw|[->%list_elem_of_singleton|[Hw|?]]]]; eauto.
  - apply Hx. by eapply subseteq_take.
  - apply Hx. by eapply subseteq_drop.
Qed.

Lemma ipv6_has_colon n : without colon (ipv6_to_string n) = false.
Proof.
  apply not_true_iff_false. intros Hw. unfold ipv6_to_string in Hw.
  assert (2 <= length (_compress_hextets (hextets n)))%nat as Hlen.
  { assert (length (hextets n) = 8%nat) as H8 by done. unfold _compress_hextets.
    destruct (zero_run 0 (hextets n) 0 0 0 0) as [s l] eqn:Hrun.
    apply (zero_run_spec (hextets n) [] 0 0 0 0) in Hrun as [Hsl _]; simpl; try (intros; lia).
    simpl in Hsl. case_match eqn:Hl; [|lia]. rewrite !length_app, length_take. cbn [length app].
    rewrite length_app, length_drop, H8.
    destruct (Nat.eqb_spec s 0), (Nat.eqb_spec (s + l) 8); simpl; lia. }
  destruct (_compress_hextets (hextets n)) as [|p [|q parts]]; simpl in Hlen; try lia.
  change (without colon (p +:+ ":" +:+ join ":" (q :: parts)) = true) in Hw.
  rewrite !without_app in Hw. rewrite !andb_true_iff in Hw. by destruct Hw as (_ & Hc & _).
Qed.

Lemma addr_char_without x s :
  addr_char x = false → str_all addr_char s = true → without x s = true.
Proof.
  intros Hx. apply str_all_mono. intros c Hc. apply negb_true_iff, Ascii.eqb_neq. congruence.
Qed.

Lemma ipv4_raise s e : ipv4_int_from_string s = Raise e → e = AddressValueError.
Proof.
  unfold ipv4_int_from_string, as_address_error.
  destruct (split_on dot s) as [|a [|b [|c [|d [|? ?]]]]]; try (by intros [= <-]).
  case_match; by intros [= <-].
Qed.

(** The text of an IPv4 address has digits and dots only. *)
Lemma ipv4_digits_dots s n : ipv4_int_from_string s = Return n → without colon s = true.
Proof.
  unfold ipv4_int_from_string. intros Hp. apply (str_all_split _ dot); [done|].
  destruct (split_on dot s) as [|a [|b [|c [|d [|? ?]]]]]; try done.
  unfold mbind, outcome_bind, mret, outcome_ret in Hp.
  assert (∀ w x, _parse_octet w = Return x → without colon w = true) as Hw.
  { intros w x. unfold _parse_octet. destruct (decimal w) eqn:Hd; [|done].
    intros _. apply andb_true_iff in Hd as [_ Hd]. by apply digit_without. }
  destruct (_parse_octet a) eqn:Ha; [|done]. destruct (_parse_octet b) eqn:Hb; [|done].
  destruct (_parse_octet c) eqn:Hc; [|done]. destruct (_parse_octet d) eqn:Hd; [|done].
  intros w. rewrite !elem_of_cons, elem_of_nil. naive_solver.
Qed.

Lemma ip_str_zone a :
  a.(version) = 6 → zone_ok a.(scope_id) →
  ip_str a = ipv6_to_string a.(ip_int) +:+
    match a.(scope_id) with Some z => String percent z | None => EmptyString end.
Proof.
  intros Hv Hz. unfold ip_str. rewrite Hv. cbn [Z.eqb Pos.eqb]. f_equal.
  destruct a.(scope_id) as [[|c z]|]; [|done..]. by destruct Hz.
Qed.

Lemma ip_str_no_slash a : ip_ok a → without slash (ip_str a) = true.
Proof.
  intros [(Hv & Hr & _)|(Hv & Hr & Hz)].
  - unfold ip_str. rewrite Hv. cbn. apply addr_char_without; [done|]. by apply ipv4_text.
  - rewrite ip_str_zone, without_app by done. rewrite addr_char_without; [|done|apply ipv6_chars].
    destruct a.(scope_id) as [z|]; [|done]. by destruct Hz as (_ & _ & Hz).
Qed.

Lemma ipv4_parse_str a : ip_ok a → a.(version) = 4 → IPv4Address (ip_str a) = Return a.
Proof.
  intros Hok Hv. unfold IPv4Address. rewrite has_char_without, ip_str_no_slash by done.
  destruct Hok as [(_ & Hr & Hsc)|(Hv' & _)]; [|congruence].
  unfold ip_str. rewrite Hv. cbn [Z.eqb Pos.eqb negb]. rewrite (proj1 (ipv4_text _ Hr)).
  destruct a; cbn in *. by subst.
Qed.

Lemma ipv4_not_v6_str a : ip_ok a → a.(version) = 6 → IPv4Address (ip_str a) = Raise AddressValueError.
Proof.
  intros Hok Hv. unfold IPv4Address. rewrite has_char_without, ip_str_no_slash by done.
  destruct Hok as [(Hv' & _)|(_ & Hr & Hz)]; [congruence|]. rewrite ip_str_zone by done. cbn [negb].
  destruct (ipv4_int_from_string _) as [n|e] eqn:H4; [|by apply ipv4_raise in H4 as ->].
  apply ipv4_digits_dots in H4. rewrite without_app in H4. by rewrite ipv6_has_colon in H4.
Qed.

Lemma ipv6_parse_str a : ip_ok a → a.(version) = 6 → IPv6Address (ip_str a) = Return a.
Proof.
  intros Hok Hv. unfold IPv6Address. rewrite has_char_without, ip_str_no_slash by done.
  destruct Hok as [(Hv' & _)|(_ & Hr & Hz)]; [congruence|]. rewrite ip_str_zone by done. cbn [negb].
  set (text := ipv6_to_string a.(ip_int)).
  assert (without percent text = true) as Hp by (apply addr_char_without; [done|apply ipv6_chars]).
  assert (_split_scope_id (text +:+ match a.(scope_id) with Some z => String percent z | None => "" end)
    = Return (text, a.(scope_id))) as ->.
  { unfold _split_scope_id. destruct a.(scope_id) as [z|].
    - rewrite split_once_word by done. destruct Hz as (Hne & Hzp & _).
      rewrite Hne, has_char_without, Hzp. done.
    - rewrite app_nil_string, split_once_none by done. done. }
  rewrite bind_Return. cbv beta iota. unfold text. rewrite compress_text, bind_Return by done.
  destruct a; cbn in *. by subst.
Qed.

Lemma parse_ip_str a : ip_ok a → ip_address (ip_str a) = Return a.
Proof.
  intros Hok. unfold ip_address.
  assert (a.(version) = 4 ∨ a.(version) = 6) as [Hv|Hv]
    by (destruct Hok as [(?&_)|(?&_)]; [by left|by right]).
  - by rewrite ipv4_parse_str.
  - rewrite ipv4_not_v6_str by done. cbn [first_version]. by rewrite ipv6_parse_str.
Qed.

(** ** Parsed addresses are well formed *)

Lemma hex_from_range s acc n :
  0 ≤ acc → hex_from acc s = Some n → 0 ≤ n < (acc + 1) * 16 ^ Z.of_nat (String.length s).
Proof.
  revert acc. induction s as [|c s IH]; intros acc Hacc.
  { intros [= <-]. cbn. lia. }
  cbn [hex_from String.length]. destruct (hex_value c) as [d|] eqn:Hd; [|done]. cbn [mbind option_bind].
  assert (0 ≤ d < 16) as Hd'.
  { unfold hex_value, is_digit in Hd. destruct (_ && _) eqn:?; [injection Hd as <-; lia|].
    destruct ((97 <=? _) && _) eqn:?; [injection Hd as <-; lia|].
    destruct (_ && _) eqn:? in Hd; [injection Hd as <-; lia|done]. }
  intros H%IH; [|lia]. rewrite Nat2Z.inj_succ, Z.pow_succ_r by lia.
  assert (0 < 16 ^ Z.of_nat (String.length s)) by (apply Z.pow_pos_nonneg; lia). nia.
Qed.

Lemma parse_hextet_range s h : _parse_hextet s = Return h → 0 ≤ h < 65536.
Proof.
  unfold _parse_hextet. destruct s as [|c s]; [done|].
  destruct (hex_from 0 (String c s)) as [n|] eqn:Hn; [|done].
  destruct (Nat.ltb_spec 4 (String.length (String c s))); [done|]. intros [= <-].
  apply hex_from_range in Hn; [|lia].
  assert (16 ^ Z.of_nat (String.length (String c s)) ≤ 16 ^ 4) by (apply Z.pow_le_mono_r; lia). lia.
Qed.

Lemma join_hextets_range parts acc n :
  0 ≤ acc → join_hextets acc parts = Return n →
  0 ≤ n < (acc + 1) * 65536 ^ Z.of_nat (length parts).
Proof.
  revert acc. induction parts as [|p parts IH]; intros acc Hacc.
  { intros [= <-]. cbn. lia. }
  cbn [join_hextets length]. intros (h & Hh%parse_hextet_range & H)%outcome_bind_inv.
  rewrite lor_shift in H by done. apply IH in H; [|lia].
  rewrite Nat2Z.inj_succ, Z.pow_succ_r by lia.
  assert (0 < 65536 ^ Z.of_nat (length parts)) by (apply Z.pow_pos_nonneg; lia). nia.
Qed.

Lemma layout_total parts hi skipped lo :
  hextet_layout parts = Return (hi, skipped, lo) → (hi + skipped + lo = 8)%nat.
Proof.
  unfold hextet_layout. intros (skip & _ & H)%outcome_bind_inv. destruct skip as [i|].
  - destruct (negb (nonempty (List.hd _ _)) && _); [done|].
    destruct (negb (nonempty (last_part _)) && _); [done|].
    destruct (Nat.leb_spec 8 ((if nonempty (List.hd "" parts) then i else (i - 1)%nat) +
      (if nonempty (last_part parts) then (length parts - i - 1)%nat else (length parts - i - 2)%nat)));
      [done|]. injection H as <- <- <-. lia.
  - destruct (Nat.eqb_spec (length parts) 8) as [H8|]; [|done]. cbn [negb] in H.
    destruct (_ || _); [done|]. injection H as <- <- <-. lia.
Qed.

Lemma ipv6_range s n : ipv6_int_from_string s = Return n → 0 ≤ n < 2 ^ 128.
Proof.
  unfold ipv6_int_from_string. destruct (_ <? 3)%nat; [done|].
  intros (parts & _ & H)%outcome_bind_inv. destruct (9 <? _)%nat; [done|].
  apply outcome_bind_inv in H as ([[hi skipped] lo] & Hlay%layout_total & H). cbv beta iota in H.
  unfold as_address_error in H. destruct (_ ≫= _) as [m|] eqn:Hm; [|done]. injection H as ->.
  apply outcome_bind_inv in Hm as (high & Hh & Hm).
  apply join_hextets_range in Hh; [|lia]. rewrite Z.add_0_l, Z.mul_1_l in Hh.
  apply join_hextets_range in Hm; [|rewrite Z.shiftl_mul_pow2 by lia; apply Z.mul_nonneg_nonneg; lia].
  rewrite Z.shiftl_mul_pow2 in Hm by lia.
  rewrite length_take in Hh. rewrite length_drop in Hm.
  change 65536 with (2 ^ 16) in *. rewrite <- Z.pow_mul_r in Hh, Hm by lia.
  split; [lia|]. destruct Hm as [_ Hm]. eapply Z.lt_le_trans; [exact Hm|].
  set (e2 := 16 * Z.of_nat (length parts - (length parts - lo))) in *.
  set (e1 := 16 * Z.of_nat (hi `min` length parts)) in *.
  assert (high * 2 ^ (16 * Z.of_nat skipped) + 1 ≤ 2 ^ (e1 + 16 * Z.of_nat skipped)) as Hb.
  { rewrite Z.pow_add_r by lia.
    assert (0 < 2 ^ (16 * Z.of_nat skipped)) by (apply Z.pow_pos_nonneg; lia). nia. }
  assert (0 < 2 ^ e2) by (apply Z.pow_pos_nonneg; lia).
  transitivity (2 ^ (e1 + 16 * Z.of_nat skipped) * 2 ^ e2); [nia|].
  rewrite <- Z.pow_add_r by lia. apply Z.pow_le_mono_r; lia.
Qed.

Lemma ipv4_address_ok s a : IPv4Address s = Return a → ip_ok a ∧ a.(version) = 4.
Proof.
  unfold IPv4Address. destruct (has_char slash s); [done|]. intros (n & Hn%ipv4_range & H)%outcome_bind_inv.
  injection H as <-. split; [left|done]. split; [done|]. by split.
Qed.

Lemma ipv6_address_ok s a : IPv6Address s = Return a → ip_ok a ∧ a.(version) = 6.
Proof.
  unfold IPv6Address. destruct (has_char slash s) eqn:Hs; [done|].
  rewrite has_char_without, negb_false_iff in Hs.
  intros ([addr zone] & Hsplit & H)%outcome_bind_inv.
  apply outcome_bind_inv in H as (n & Hn%ipv6_range & H). injection H as <-.
  split; [right|done]. cbn. split; [done|]. split; [done|].
  unfold _split_scope_id in Hsplit. pose proof (split_once_spec percent s) as Hspec.
  destruct (split_once percent s) as [x [z|]]; [|by injection Hsplit as <- <-].
  destruct (nonempty z) eqn:Hne; [|done]. cbn [negb orb] in Hsplit.
  rewrite has_char_without in Hsplit. destruct (without percent z) eqn:Hz; [|done].
  injection Hsplit as <- <-. destruct Hspec as [-> _].
  rewrite without_app in Hs. apply andb_true_iff in Hs as [_ Hs]. cbn. by split_and!.
Qed.

Lemma first_version_inv {A} (m1 m2 : IO A) a :
  first_version m1 m2 = Return a → m1 = Return a ∨ ((∃ e, m1 = Raise e) ∧ m2 = Return a).
Proof. unfold first_version. repeat case_match; naive_solver. Qed.

Lemma ip_address_ok s a : ip_address s = Return a → ip_ok a.
Proof. intros [H|[_ H]]%first_version_inv; [by eapply ipv4_address_ok|by eapply ipv6_address_ok]. Qed.

(** ** Networks are aligned blocks of addresses *)

(** The number of addresses of a prefix. *)
Definition block_size (n : ip_net) : Z := 2 ^ (net_max n - n.(prefixlen)).

Record net_ok (n : ip_net) : Prop := {
  net_addr_ok : ip_ok n.(network_address);
  net_prefix_ok : 0 ≤ n.(prefixlen) ≤ net_max n;
  net_aligned : n.(network_address).(ip_int) mod block_size n = 0
}.

(** The addresses of a network. *)
Definition in_network (n : ip_net) (ver a : Z) : Prop :=
  net_version n = ver ∧
  n.(network_address).(ip_int) ≤ a ≤ (broadcast_address n).(ip_int).

Lemma ip_ok_range a : ip_ok a → 0 ≤ a.(ip_int) < 2 ^ max_prefixlen a.(version).
Proof. intros [(-> & ? & _)|(-> & ? & _)]; done. Qed.

Lemma max_prefixlen_pos ver : 0 < max_prefixlen ver.
Proof. unfold max_prefixlen. case_match; lia. Qed.

(** *** Masks *)

Lemma shiftr_all_ones ver p :
  0 ≤ p ≤ max_prefixlen ver → Z.shiftr (all_ones ver) p = Z.ones (max_prefixlen ver - p).
Proof.
  intros Hp. unfold all_ones.
  replace (2 ^ max_prefixlen ver - 1) with (Z.ones (max_prefixlen ver))
    by (rewrite Z.ones_equiv; lia).
  apply Z.bits_inj'. intros i Hi. rewrite Z.shiftr_spec by done.
  rewrite !Z.testbit_ones by lia.
  destruct (Z.ltb_spec (i + p) (max_prefixlen ver)), (Z.ltb_spec i (max_prefixlen ver - p)); lia.
Qed.

(** Masking an address clears its host bits. *)
Lemma land_netmask ver p a :
  0 ≤ p ≤ max_prefixlen ver → 0 ≤ a < 2 ^ max_prefixlen ver →
  Z.land a (netmask ver p) = a - a mod 2 ^ (max_prefixlen ver - p).
Proof.
  intros Hp Ha. unfold netmask. rewrite shiftr_all_ones by done.
  set (h := max_prefixlen ver - p). assert (0 ≤ h) as Hh by lia.
  assert (Z.land a (Z.lxor (all_ones ver) (Z.ones h)) = Z.ldiff a (Z.ones h)) as ->.
  { apply Z.bits_inj'. intros i Hi. rewrite Z.land_spec, Z.lxor_spec, Z.ldiff_spec.
    replace (all_ones ver) with (Z.ones (max_prefixlen ver))
      by (unfold all_ones; rewrite Z.ones_equiv; lia).
    rewrite (Z.testbit_ones (max_prefixlen ver)) by (pose proof (max_prefixlen_pos ver); lia).
    rewrite (proj2 (Z.leb_le 0 i)) by done. cbn [andb].
    destruct (Z.ltb_spec i (max_prefixlen ver)); [done|].
    assert (Z.testbit a i = false) as ->; [|done].
    destruct (Z.eq_dec a 0) as [->|Hne]; [apply Z.bits_0|].
    apply Z.bits_above_log2; [lia|]. eapply Z.lt_le_trans; [|done]. apply Z.log2_lt_pow2; lia. }
  rewrite Z.ldiff_ones_r by done. rewrite Z.shiftl_mul_pow2, Z.shiftr_div_pow2 by done.
  assert (0 < 2 ^ h) by (apply Z.pow_pos_nonneg; lia). pose proof (Z.div_mod a (2 ^ h)). lia.
Qed.

Lemma hostmask_ones n : 0 ≤ n.(prefixlen) ≤ net_max n → hostmask n = Z.ones (net_max n - n.(prefixlen)).
Proof.
  intros Hp. unfold hostmask, netmask. rewrite shiftr_all_ones by done.
  rewrite Z.lxor_comm, <- Z.lxor_assoc, Z.lxor_nilpotent, Z.lxor_0_l. done.
Qed.

Lemma broadcast_block n :
  net_ok n → (broadcast_address n).(ip_int) = n.(network_address).(ip_int) + block_size n - 1.
Proof.
  intros [Ha Hp Hal]. cbn [ip_int broadcast_address]. rewrite hostmask_ones by done.
  unfold block_size in *. set (h := net_max n - n.(prefixlen)) in *.
  assert (0 ≤ h) as Hh by lia. set (a := n.(network_address).(ip_int)) in *.
  assert (Z.land a (Z.ones h) = 0) as Hl by by rewrite Z.land_ones.
  pose proof (Z.add_lor_land a (Z.ones h)) as Hadd. rewrite Z.ones_equiv in *. lia.
Qed.

Lemma num_addresses_block n : net_ok n → num_addresses n = block_size n.
Proof. intros Hn. unfold num_addresses. rewrite broadcast_block by done. lia. Qed.

Lemma block_size_pos n : net_ok n → 0 < block_size n.
Proof. intros [_ Hp _]. apply Z.pow_pos_nonneg; lia. Qed.

(** *** Parsed networks are well formed *)

Lemma trailing_zeros_range fuel n : 0 ≤ trailing_zeros fuel n ≤ Z.of_nat fuel.
Proof. revert n. induction fuel as [|f IH]; intros n; cbn; [lia|]. case_match; [lia|]. specialize (IH (n / 2)). lia. Qed.

Lemma prefix_from_ip_int_range ver n p :
  prefix_from_ip_int ver n = Some p → 0 ≤ p ≤ max_prefixlen ver.
Proof.
  unfold prefix_from_ip_int. pose proof (trailing_zeros_range (Z.to_nat (max_prefixlen ver)) n) as Hz.
  pose proof (max_prefixlen_pos ver). case_match; [|done]. intros [= <-]. lia.
Qed.

Lemma prefix_from_ip_string_range s p :
  prefix_from_ip_string s = Return p → 0 ≤ p ≤ max_prefixlen 4.
Proof.
  unfold prefix_from_ip_string. destruct (ipv4_int_from_string s) as [k|]; [|done].
  destruct (prefix_from_ip_int 4 k) eqn:H1; [intros [= <-]; exact (prefix_from_ip_int_range _ _ _ H1)|].
  destruct (prefix_from_ip_int 4 (Z.lxor k (all_ones 4))) eqn:H2; [|done].
  intros [= <-]; exact (prefix_from_ip_int_range _ _ _ H2).
Qed.

Lemma make_netmask_range ver m p :
  _make_netmask ver m = Return p → 0 ≤ p ≤ max_prefixlen ver.
Proof.
  unfold _make_netmask. pose proof (max_prefixlen_pos ver). destruct m as [s|]; [|intros [= <-]; lia].
  unfold prefix_from_prefix_string. destruct (decimal s) eqn:Hd; cbn [negb orb].
  2: { destruct (Z.eqb_spec ver 4) as [->|]; [apply prefix_from_ip_string_range|done]. }
  apply andb_true_iff in Hd as [_ Hd%digits_value_nonneg].
  destruct (_ <? _)%nat; cbn zeta; [|destruct (Z.leb_spec (digits_value s) (max_prefixlen ver));
    [intros [= <-]; lia|]];
    (destruct (Z.eqb_spec ver 4) as [->|]; [apply prefix_from_ip_string_range|done]).
Qed.

Lemma address_of_version_ok ver s a :
  ver = 4 ∨ ver = 6 → address_of_version ver s = Return a → ip_ok a ∧ a.(version) = ver.
Proof. intros [->| ->]; [apply ipv4_address_ok|apply ipv6_address_ok]. Qed.

Lemma network_of_parts_ok ver s m strict n :
  ver = 4 ∨ ver = 6 → network_of_parts ver s m strict = Return n → net_ok n ∧ net_version n = ver.
Proof.
  intros Hver (a & Ha & H)%outcome_bind_inv. apply address_of_version_ok in Ha as [Hok <-]; [|done].
  apply outcome_bind_inv in H as (p & Hp%make_netmask_range & H).
  pose proof (ip_ok_range a Hok) as Hr. rewrite land_netmask in H by done. unfold mret, outcome_ret in H.
  set (sz := 2 ^ (max_prefixlen a.(version) - p)) in *.
  assert (0 < sz) as Hsz by (apply Z.pow_pos_nonneg; lia).
  destruct (Z.eqb_spec (ip_int a - ip_int a mod sz) (ip_int a)) as [E|_].
  { injection H as <-. split; [|done]. split; [done|done|]. cbn.
    change (block_size _) with sz. lia. }
  destruct strict; [done|]. injection H as <-. split; [|done].
  assert (0 ≤ ip_int a - ip_int a mod sz < 2 ^ max_prefixlen a.(version)) as Hr'.
  { pose proof (Z.mod_pos_bound (ip_int a) sz Hsz). pose proof (Z.mod_le (ip_int a) sz). lia. }
  split; [|done|].
  - destruct Hok as [(Hv & _)|(Hv & _)]; rewrite Hv in Hr'; [left|right];
      (split; [done|split; [exact Hr'|done]]).
  - change (block_size _) with sz. cbn.
    replace (ip_int a - ip_int a mod sz) with (ip_int a / sz * sz)
      by (pose proof (Z.div_mod (ip_int a) sz); lia).
    apply Z.mod_mul. lia.
Qed.

Lemma network_of_version_ok ver s strict n :
  ver = 4 ∨ ver = 6 → network_of_version ver s strict = Return n → net_ok n ∧ net_version n = ver.
Proof.
  intros Hver ([addr m] & _ & H)%outcome_bind_inv. by apply network_of_parts_ok in H.
Qed.

Lemma ip_network_ok s strict n : ip_network s strict = Return n → net_ok n.
Proof.
  intros [H|[_ H]]%first_version_inv; apply network_of_version_ok in H; naive_solver.
Qed.

Lemma ip_interface_network_ok s n : ip_interface_network s = Return n → net_ok n.
Proof.
  assert (∀ ver, ver = 4 ∨ ver = 6 → interface_network ver s = Return n → net_ok n) as Hv.
  { intros ver Hver ([addr m] & _ & H)%outcome_bind_inv.
    apply outcome_bind_inv in H as (_ & _ & H). apply network_of_parts_ok in H; naive_solver. }
  intros [H|[_ H]]%first_version_inv; [apply (Hv 4)|apply (Hv 6)]; auto.
Qed.

(** *** Containment *)

Definition plain (n : ip_net) : Prop := n.(network_address).(scope_id) = None.

Lemma subnet_of_spec a b :
  plain a → plain b → net_version a = net_version b →
  subnet_of a b = true ↔
    b.(network_address).(ip_int) ≤ a.(network_address).(ip_int) ∧
    (broadcast_address a).(ip_int) ≤ (broadcast_address b).(ip_int).
Proof.
  intros Ha Hb Hv. unfold subnet_of, addr_le, addr_ge.
  rewrite andb_true_iff, orb_true_iff, negb_true_iff, Z.ltb_lt, Z.ltb_ge, bool_decide_eq_true.
  assert (b.(network_address) = a.(network_address) ↔
          b.(network_address).(ip_int) = a.(network_address).(ip_int)) as ->; [|lia].
  unfold plain, net_version in *. destruct a as [[] ?], b as [[] ?]; cbn in *. subst.
  split; [by intros [= ->]|by intros ->].
Qed.

(** Aligned blocks are nested or disjoint. *)
Lemma blocks_nested a b :
  net_ok a → net_ok b → net_version a = net_version b → b.(prefixlen) ≤ a.(prefixlen) →
  (b.(network_address).(ip_int) ≤ a.(network_address).(ip_int) ∧
   (broadcast_address a).(ip_int) ≤ (broadcast_address b).(ip_int)) ∨
  (broadcast_address a).(ip_int) < b.(network_address).(ip_int) ∨
  (broadcast_address b).(ip_int) < a.(network_address).(ip_int).
Proof.
  intros Ha Hb Hv Hp. rewrite !broadcast_block by done.
  pose proof (net_aligned _ Ha) as Aa. pose proof (net_aligned _ Hb) as Ab.
  pose proof (block_size_pos _ Ha) as Pa. pose proof (block_size_pos _ Hb) as Pb.
  assert (block_size b = 2 ^ (a.(prefixlen) - b.(prefixlen)) * block_size a) as E.
  { assert (net_max a = net_max b) as Hm by (unfold net_max; by rewrite Hv).
    pose proof (net_prefix_ok _ Ha). unfold block_size. rewrite Hm in *.
    rewrite <- Z.pow_add_r by lia. f_equal. lia. }
  set (k := 2 ^ (a.(prefixlen) - b.(prefixlen))) in *.
  assert (0 < k) as Hk by (apply Z.pow_pos_nonneg; lia).
  apply Z.div_exact in Aa, Ab; try lia.
  set (x := a.(network_address).(ip_int)) in *. set (y := b.(network_address).(ip_int)) in *.
  set (sa := block_size a) in *. set (qa := x / sa) in *. set (qb := y / block_size b) in *.
  clearbody x y sa qa qb k. rewrite E in *. subst x y.
  assert (qa < k * qb ∨ k * qb ≤ qa < k * qb + k ∨ k * qb + k ≤ qa) as [H|[H|H]] by lia.
  - right. left. nia.
  - left. nia.
  - right. right. nia.
Qed.

(** *** Printing and parsing networks *)

Definition prefix_text_ok (p : Z) : bool :=
  match prefix_from_prefix_string 6 (str_int p) with Return q => q =? p | Raise _ => false end &&
  match prefix_from_prefix_string 4 (str_int p) with
  | Return q => (q =? p) && (p <=? 32)
  | Raise _ => 32 <? p
  end && without slash (str_int p) && without percent (str_int p) && str_all addr_char (str_int p).

Lemma prefix_text p : 0 ≤ p ≤ 128 → prefix_text_ok p = true.
Proof.
  intros Hp. exact (by_cases prefix_text_ok 0 129 ltac:(vm_compute; reflexivity) p ltac:(lia)).
Qed.

Lemma net_prefix_128 n : net_ok n → 0 ≤ n.(prefixlen) ≤ 128.
Proof. intros [_ Hp _]. unfold net_max, max_prefixlen in Hp. case_match; lia. Qed.

Lemma prefix_string n :
  net_ok n → _make_netmask (net_version n) (Some (str_int n.(prefixlen))) = Return n.(prefixlen).
Proof.
  intros Hok. pose proof (prefix_text _ (net_prefix_128 n Hok)) as H. unfold prefix_text_ok in H.
  rewrite !andb_true_iff in H. destruct H as ((((H6 & H4) & _) & _) & _).
  pose proof (net_prefix_ok _ Hok) as Hp. unfold net_max, net_version in *.
  unfold _make_netmask. destruct (net_addr_ok _ Hok) as [(Hv & _)|(Hv & _)]; rewrite Hv in *.
  - change (max_prefixlen 4) with 32 in Hp.
    destruct (prefix_from_prefix_string 4 _) as [q|]; [|lia].
    apply andb_true_iff in H4 as [->%Z.eqb_eq _]. done.
  - destruct (prefix_from_prefix_string 6 _) as [q|]; [|done]. by apply Z.eqb_eq in H6 as ->.
Qed.

Lemma split_net_str n :
  net_ok n → _split_addr_prefix (net_str n) = Return (ip_str n.(network_address), Some (str_int n.(prefixlen))).
Proof.
  intros Hok. pose proof (prefix_text _ (net_prefix_128 n Hok)) as H. unfold prefix_text_ok in H.
  rewrite !andb_true_iff in H. destruct H as ((((H6 & H4) & Hs) & _) & _).
  unfold _split_addr_prefix, net_str.
  change (ip_str n.(network_address) +:+ "/" +:+ str_int n.(prefixlen)) with
    (ip_str n.(network_address) +:+ String slash (str_int n.(prefixlen))).
  rewrite split_on_word by apply ip_str_no_slash, Hok. by rewrite split_on_last.
Qed.

Lemma network_of_str n strict :
  net_ok n → address_of_version (net_version n) (ip_str n.(network_address)) = Return n.(network_address) →
  network_of_version (net_version n) (net_str n) strict = Return n.
Proof.
  intros Hok Ha. unfold network_of_version. rewrite split_net_str, bind_Return by done.
  cbv beta iota. unfold network_of_parts. rewrite Ha, bind_Return, prefix_string, bind_Return by done.
  cbv zeta. rewrite land_netmask; [|apply Hok|apply ip_ok_range, Hok].
  change (2 ^ (max_prefixlen (net_version n) - prefixlen n)) with (block_size n).
  rewrite (net_aligned _ Hok), Z.sub_0_r, Z.eqb_refl. by destruct n.
Qed.

(** The text of a network parses back to it. *)
Lemma parse_net_str n : net_ok n → ip_network (net_str n) true = Return n.
Proof.
  intros Hok. pose proof (net_addr_ok _ Hok) as Ha. unfold ip_network.
  destruct (decide (net_version n = 4)) as [Hv|Hv].
  - pose proof (network_of_str n true Hok) as H. rewrite Hv in H. by rewrite H by by apply ipv4_parse_str.
  - assert (net_version n = 6) as Hv6 by (destruct Ha as [(?&_)|(?&_)]; done).
    assert (network_of_version 4 (net_str n) true = Raise AddressValueError) as ->.
    { unfold network_of_version. rewrite split_net_str, bind_Return by done. cbv beta iota.
      unfold network_of_parts. change (address_of_version 4) with IPv4Address.
      by rewrite ipv4_not_v6_str. }
    cbn [first_version]. pose proof (network_of_str n true Hok) as H. rewrite Hv6 in H.
    by rewrite H by by apply ipv6_parse_str.
Qed.
