(* ===== verification/ScopeEngine.v ===== *)
(** * Authorized active-scan scopes ([engine/scope.py])

    Validation of the operator's targets, the proposal of a scope from what the host
    knows of its networks, and the expansion of connected networks. *)

From S2P Require Import Prelude PyBase PyText Ip.

Inductive ActiveProfile : Type := DISCOVERY | STANDARD | DEEP.
#[export] Instance ActiveProfile_eq_dec : EqDecision ActiveProfile.
Proof. solve_decision. Defined.

Definition ActiveProfile_value (p : ActiveProfile) : string :=
  match p with DISCOVERY => "discovery" | STANDARD => "standard" | DEEP => "deep" end.

Inductive ScopeValidationCode : Type :=
  | EMPTY_SCOPE | INVALID_TARGET | PROHIBITED_TARGET | TOO_MANY_EXPRESSIONS | LIMIT_EXCEEDED.

Definition ScopeValidationCode_value (c : ScopeValidationCode) : string :=
  match c with
  | EMPTY_SCOPE => "empty_scope"
  | INVALID_TARGET => "invalid_target"
  | PROHIBITED_TARGET => "prohibited_target"
  | TOO_MANY_EXPRESSIONS => "too_many_scope_expressions"
  | LIMIT_EXCEEDED => "scope_limit_exceeded"
  end.

(** Numbers per address family. *)
Record PerFamily : Type := mkPerFamily { ipv4 : Z; ipv6 : Z }.

Record LimitDetails : Type := mkLimitDetails {
  detail_address_count : Z;
  family_counts : PerFamily;
  detail_limits : PerFamily;
  detail_profile : string
}.

Record ScopeValidationError : Type := mkScopeError {
  scope_code : ScopeValidationCode;
  scope_message : string;
  scope_details : option LimitDetails
}.

Definition scope_error {A} (c : ScopeValidationCode) (message : string)
    : outcome ScopeValidationError A :=
  Raise (mkScopeError c message None).

Record ScopeTarget : Type := mkScopeTarget {
  target_value : string;
  target_family : Z;
  target_kind : string;
  target_address_count : Z
}.

Record ValidatedScope : Type := mkValidatedScope {
  scope_profile : ActiveProfile;
  scope_targets : list ScopeTarget;
  canonical_targets : list string;
  address_families : list Z;
  address_count : Z;
  safety_limits : PerFamily
}.

(** The settings the validator reads. *)
Record ActiveSettings : Type := mkActiveSettings {
  active_discovery_max_targets : Z;
  active_standard_max_targets : Z;
  active_deep_max_targets : Z;
  active_ipv6_max_targets : Z;
  active_allow_large_scopes : bool
}.

(** ** Targets *)

(** [ip_network(f"{address}/{address.max_prefixlen}", strict=True)] *)
Definition host_network (a : ip_addr) : IO ip_net :=
  ip_network (ip_str a +:+ "/" +:+ str_int (max_prefixlen a.(version))) true.

(** What follows the parsing of a target, the same for targets and assigned addresses. *)
Definition checked_network (raw : string) (parsed : IO ip_net)
    : outcome ScopeValidationError ip_net :=
  match parsed with
  | Raise _ => scope_error INVALID_TARGET ("Invalid IP target: " +:+ raw)
  | Return n =>
      if (n.(prefixlen) =? 0) || is_unspecified n || is_multicast n
      then scope_error PROHIBITED_TARGET
             ("Unspecified or multicast target is prohibited: " +:+ raw)
      else Return n
  end.

Definition _parse_target (raw_target : string) : outcome ScopeValidationError ip_net :=
  let value := strip raw_target in
  checked_network raw_target
    (if has_char slash value then ip_network value true
     else a ← ip_address value; host_network a).

Definition _assigned_network (raw : string) : outcome ScopeValidationError ip_net :=
  let value := strip raw in
  checked_network raw
    (if has_char slash value then ip_interface_network value
     else a ← ip_address value; host_network a).

Fixpoint parse_targets (targets : list string) : outcome ScopeValidationError (list ip_net) :=
  match targets with
  | [] => mret []
  | raw :: rest => n ← _parse_target raw; ns ← parse_targets rest; mret (n :: ns)
  end.

(** [(item.version, int(item.network_address), item.prefixlen)], compared as tuples. *)
Definition net_le : ip_net → ip_net → bool :=
  rank_then net_version
    (rank_then (fun n => n.(network_address).(ip_int))
       (fun a b => a.(prefixlen) <=? b.(prefixlen))).

Definition covered (result : list ip_net) (n : ip_net) : bool :=
  existsb (fun existing => (net_version n =? net_version existing) && subnet_of n existing) result.

Definition keep_uncovered (result : list ip_net) (n : ip_net) : list ip_net :=
  if covered result n then result else result ++ [n].

Definition _display_value (n : ip_net) : string :=
  if n.(prefixlen) =? net_max n then ip_str n.(network_address) else net_str n.

Definition sum_addresses (networks : list ip_net) : Z :=
  foldr Z.add 0 (List.map num_addresses networks).

Definition of_family (family : Z) (networks : list ip_net) : list ip_net :=
  List.filter (fun n => net_version n =? family) networks.

Definition scope_target (n : ip_net) : ScopeTarget :=
  mkScopeTarget (_display_value n) (net_version n)
    (if n.(prefixlen) =? net_max n then "single" else "cidr") (num_addresses n).

Section validator.
Context (settings : ActiveSettings).

(** The order in which a [set] of networks iterates. *)
Context (set_order : list ip_net → list ip_net).

Definition _remove_duplicates_and_covered (networks : list ip_net) : list ip_net :=
  foldl keep_uncovered [] (sort_by net_le (set_order (remove_dups networks))).

Definition _profile_limit (profile : ActiveProfile) : Z :=
  match profile with
  | DISCOVERY => settings.(active_discovery_max_targets)
  | STANDARD => settings.(active_standard_max_targets)
  | DEEP => settings.(active_deep_max_targets)
  end.

Definition profile_limits (profile : ActiveProfile) : PerFamily :=
  mkPerFamily (_profile_limit profile)
    (Z.min (_profile_limit profile) settings.(active_ipv6_max_targets)).

Definition validate (targets : list string) (profile : ActiveProfile)
    : outcome ScopeValidationError ValidatedScope :=
  if match targets with [] => true | _ => false end
  then scope_error EMPTY_SCOPE "At least one active target is required"
  else if (256 <? length targets)%nat
  then scope_error TOO_MANY_EXPRESSIONS "Active scope contains more than 256 expressions"
  else
    parsed ← parse_targets targets;
    let networks := _remove_duplicates_and_covered parsed in
    let counts := mkPerFamily (sum_addresses (of_family 4 networks))
                              (sum_addresses (of_family 6 networks)) in
    let count := counts.(ipv4) + counts.(ipv6) in
    let limits := profile_limits profile in
    let exceeded := (limits.(ipv4) <? counts.(ipv4)) || (limits.(ipv6) <? counts.(ipv6)) in
    if negb settings.(active_allow_large_scopes) && exceeded
    then Raise (mkScopeError LIMIT_EXCEEDED
           (ActiveProfile_value profile +:+ " scope contains " +:+ str_int count +:+
            " addresses; one or more address-family limits were exceeded")
           (Some (mkLimitDetails count counts limits (ActiveProfile_value profile))))
    else
      let normalized := List.map scope_target networks in
      mret (mkValidatedScope profile normalized (List.map target_value normalized)
              (sort_by Z.leb (remove_dups (List.map target_family normalized)))
              count limits).
End validator.

(** ** Proposals *)

Inductive ScopeProposalSource : Type :=
  | INTERFACE_PREFIX | VLAN_HINTS | ROUTE_HINTS | EMPTY_PROPOSAL.

Record ProposedNetwork : Type := mkProposed {
  cidr : string;
  origin : string;
  assigned : option string;
  vlan_id : option Z;
  proposed_interface : option string
}.

Record RejectedCandidate : Type := mkRejected {
  rejected_value : string;
  rejected_code : string
}.

Record ScopeProposal : Type := mkScopeProposal {
  proposal_interface : string;
  proposal_source : ScopeProposalSource;
  proposal_networks : list ProposedNetwork;
  proposal_targets : list string;
  assigned_addresses : list string;
  vlan_ids : list Z;
  proposal_rejected : list RejectedCandidate
}.

(** The networks with a [cidr] not seen before. *)
Definition add_unseen (unique : list ProposedNetwork) (item : ProposedNetwork)
    : list ProposedNetwork :=
  if str_in item.(cidr) (List.map cidr unique) then unique else unique ++ [item].

Definition truthy_text (o : option string) : list string :=
  match o with Some (String c s) => [String c s] | _ => [] end.

Definition some_values {A} (l : list (option A)) : list A :=
  flat_map (fun o => match o with Some a => [a] | None => [] end) l.

Definition _proposal (interface_name : string) (source : ScopeProposalSource)
    (networks : list ProposedNetwork) (rejected : list RejectedCandidate) : ScopeProposal :=
  let unique := foldl add_unseen [] networks in
  mkScopeProposal interface_name source unique (List.map cidr unique)
    (flat_map (fun item => truthy_text item.(assigned)) unique)
    (sort_by Z.leb (remove_dups (some_values (List.map vlan_id unique))))
    rejected.

(** [list(v)] *)
Definition py_list (v : pyval) : outcome PyExc (list pyval) :=
  match v with
  | PList l => Return l
  | PStr s => Return (List.map PStr (chars s))
  | PDict d => Return (List.map (fun kv => PStr kv.1) d)
  | _ => Raise (PyTypeError "object is not iterable")
  end.

(** [if suffix.isdigit(): vlan_id = int(suffix)], within 0 to 4095. *)
Definition _vlan_id_for (parent child : string) : outcome PyExc (option Z) :=
  let name := (split_once (chr 64) child).1 in
  match remove_prefix (parent +:+ ".") name with
  | None => Return None
  | Some suffix =>
      if decimal suffix then
        match unsigned_digits suffix with
        | Some n => Return (if (0 <=? n) && (n <=? 4095) then Some n else None)
        | None => Raise (PyValueError "Exceeds the limit for integer string conversion")
        end
      else Return None
  end.

Definition _route_destination (route : dict) : option string :=
  match get route "dst" with
  | PNone => None
  | PStr s => if str_in s [""; "default"; "unspecified"; "0.0.0.0/0"; "::/0"] then None else Some s
  | v => Some (py_str v)
  end.

Section proposer.
Context (settings : ActiveSettings).

Definition _proposal_limit (ver : Z) : Z :=
  let limit := Z.max (Z.max settings.(active_discovery_max_targets)
                            settings.(active_standard_max_targets))
                     settings.(active_deep_max_targets) in
  if ver =? 6 then Z.min limit settings.(active_ipv6_max_targets) else limit.

(** One value: skipped, rejected, or proposed. *)
Definition eligible (origin : string) (interface_name : string) (vlan : option Z) (raw : pyval)
    : list ProposedNetwork * list RejectedCandidate :=
  let value := strip (py_str raw) in
  if negb (nonempty value) then ([], [])
  else match _assigned_network value with
       | Raise e => ([], [mkRejected value (ScopeValidationCode_value e.(scope_code))])
       | Return n =>
           if is_loopback n || is_link_local n
           then ([], [mkRejected value "not_global_unicast"])
           else if negb settings.(active_allow_large_scopes) &&
                   (_proposal_limit (net_version n) <? num_addresses n)
           then ([], [mkRejected value (ScopeValidationCode_value LIMIT_EXCEEDED)])
           else ([mkProposed (_display_value n) origin
                    (if String.eqb origin "assigned" then Some value else None)
                    vlan (Some interface_name)], [])
       end.

Definition _eligible_networks (origin interface_name : string) (vlan : option Z)
    (values : list pyval) : list ProposedNetwork * list RejectedCandidate :=
  foldl (fun acc raw => let '(found, rejected) := eligible origin interface_name vlan raw in
                        (acc.1 ++ found, acc.2 ++ rejected)) ([], []) values.

(** The networks of the VLAN children, by interface, and what was rejected so far. *)
Fixpoint vlan_networks (interface_name : string) (peers : list dict)
    (by_iface : list (string * list ProposedNetwork)) (rejected : list RejectedCandidate)
    : outcome PyExc (list (string * list ProposedNetwork) * list RejectedCandidate) :=
  match peers with
  | [] => mret (by_iface, rejected)
  | peer :: rest =>
      let name := py_str (por (get peer "name") (PStr "")) in
      vlan ← _vlan_id_for interface_name name;
      match vlan with
      | None => vlan_networks interface_name rest by_iface rejected
      | Some id =>
          v4 ← py_list (por (get peer "ipv4") (PList []));
          v6 ← py_list (por (get peer "ipv6") (PList []));
          let '(found, more) := _eligible_networks "vlan" name (Some id) (v4 ++ v6) in
          let by_iface :=
            match found with
            | [] => by_iface
            | _ => dict_set by_iface name (default [] (dict_get by_iface name) ++ found)
            end in
          vlan_networks interface_name rest by_iface (rejected ++ more)
      end
  end.

Definition route_networks (interface_name : string) (routes : list dict)
    : list ProposedNetwork * list RejectedCandidate :=
  foldl (fun acc route =>
    if negb (String.eqb (py_str (por (get route "dev") (PStr ""))) interface_name) then acc
    else if truthy (get route "gateway") then acc
    else match _route_destination route with
         | None => acc
         | Some destination =>
             let '(found, rejected) :=
               _eligible_networks "route" interface_name None [PStr destination] in
             (acc.1 ++ found, acc.2 ++ rejected)
         end) ([], []) routes.

Definition propose (interface_name : string) (assigned : list pyval) (peers routes : list dict)
    : outcome PyExc ScopeProposal :=
  let '(selected, rejected) := _eligible_networks "assigned" interface_name None assigned in
  match selected with
  | _ :: _ => mret (_proposal interface_name INTERFACE_PREFIX selected rejected)
  | [] =>
      '(by_iface, rejected) ← vlan_networks interface_name peers [] rejected;
      match by_iface with
      | (chosen, networks) :: _ => mret (_proposal chosen VLAN_HINTS networks rejected)
      | [] =>
          let '(networks, more) := route_networks interface_name routes in
          match networks with
          | _ :: _ => mret (_proposal interface_name ROUTE_HINTS networks (rejected ++ more))
          | [] => mret (_proposal interface_name EMPTY_PROPOSAL [] (rejected ++ more))
          end
      end
  end.
End proposer.

(** ** Connected networks *)

Definition connected_networks (assigned : list pyval) : list ip_net :=
  flat_map (fun raw => match ip_interface_network (py_str raw) with
                       | Return n => [n]
                       | Raise _ => []
                       end) assigned.

Definition expand_target (networks : list ip_net) (value : string) : string :=
  if has_char slash value then value
  else match ip_address value with
       | Raise _ => value
       | Return a =>
           match find_first (fun n => bool_decide (n.(network_address) = a)) networks with
           | Some n => net_str n
           | None => value
           end
       end.

Definition expand_connected_network_targets (targets assigned : list pyval) : list string :=
  let networks := connected_networks assigned in
  flat_map (fun raw => let value := strip (py_str raw) in
                       if nonempty value then [expand_target networks value] else []) targets.
