(* ===== verification/ScopeProofs.v ===== *)
(** * Lemmas on scope validation *)

From S2P Require Import Prelude PyBase PyText Ip IpProofs ScopeEngine.

(** ** Targets *)

(** A target without a zone id. *)
Definition zone_free (s : string) : Prop := without percent s = true.

Definition prohibited (n : ip_net) : bool :=
  (n.(prefixlen) =? 0) || is_unspecified n || is_multicast n.

(** The network a text names, before the prohibited ones are refused. *)
Definition named_network (s : string) (n : ip_net) : Prop :=
  (if has_char slash (strip s) then ip_network (strip s) true
   else a ← ip_address (strip s); host_network a) = Return n.

Lemma parse_target_return raw n :
  _parse_target raw = Return n ↔ named_network raw n ∧ prohibited n = false.
Proof.
  unfold _parse_target, checked_network, named_network, prohibited. cbv zeta.
  set (m := if has_char slash (strip raw) then _ else _).
  destruct m as [k|e]; [|by split; [|intros [? _]]].
  destruct ((prefixlen k =? 0) || is_unspecified k || is_multicast k) eqn:Hp; unfold scope_error.
  - split; [done|]. intros [[= <-] Hn]. congruence.
  - split; [by intros [= <-]|]. by intros [[= <-] _].
Qed.

Lemma parse_target_raise raw e :
  _parse_target raw = Raise e →
  (scope_code e = INVALID_TARGET ∧ ∀ n, ¬ named_network raw n) ∨
  (scope_code e = PROHIBITED_TARGET ∧ ∃ n, named_network raw n ∧ prohibited n = true).
Proof.
  unfold _parse_target, checked_network, named_network, prohibited. cbv zeta.
  set (m := if has_char slash (strip raw) then _ else _).
  destruct m as [k|e']; [destruct (_ || _) eqn:Hp|]; unfold scope_error; intros [= <-].
  - right. split; [done|]. by exists k.
  - left. by split.
Qed.

Lemma parse_targets_return targets ns :
  parse_targets targets = Return ns ↔ Forall2 (fun t n => _parse_target t = Return n) targets ns.
Proof.
  revert ns. induction targets as [|t targets IH]; intros ns; cbn [parse_targets].
  { split; [by intros [= <-]|]. by intros ->%Forall2_nil_inv_l. }
  split.
  - intros (n & Hn & H)%outcome_bind_inv. apply outcome_bind_inv in H as (ms & Hms%IH & H).
    injection H as <-. by constructor.
  - intros (n & ms & Hn & Hms%IH & ->)%Forall2_cons_inv_l. by rewrite Hn, bind_Return, Hms.
Qed.

Lemma parse_targets_raise targets e :
  parse_targets targets = Raise e →
  ∃ pre t post ns, targets = pre ++ t :: post ∧ parse_targets pre = Return ns ∧
                   _parse_target t = Raise e.
Proof.
  induction targets as [|t targets IH]; [done|]. cbn [parse_targets].
  destruct (_parse_target t) as [n|e'] eqn:Ht; [|intros [= ->]; by exists [], t, targets, []].
  rewrite bind_Return. destruct (parse_targets targets) as [ns|e'] eqn:Hns; [done|].
  intros [= ->]. destruct (IH eq_refl) as (pre & t' & post & ns & -> & Hpre & Ht').
  exists (t :: pre), t', post, (n :: ns). split; [done|]. split; [|done].
  cbn [parse_targets]. by rewrite Ht, bind_Return, Hpre.
Qed.

(** Networks of zone-free targets have no zone. *)
Lemma ipv6_plain s a : without percent s = true → IPv6Address s = Return a → a.(scope_id) = None.
Proof.
  intros Hp. unfold IPv6Address. destruct (has_char slash s); [done|].
  unfold _split_scope_id. rewrite split_once_none, bind_mret by done. cbv beta iota.
  intros (n & _ & H)%outcome_bind_inv. by injection H as <-.
Qed.

Lemma ipv4_plain s a : IPv4Address s = Return a → a.(scope_id) = None.
Proof.
  unfold IPv4Address. destruct (has_char slash s); [done|].
  intros (n & _ & H)%outcome_bind_inv. by injection H as <-.
Qed.

Lemma address_plain ver s a :
  without percent s = true → address_of_version ver s = Return a → a.(scope_id) = None.
Proof. unfold address_of_version. case_match; [intros _; apply ipv4_plain|apply ipv6_plain]. Qed.

Lemma split_prefix_plain s addr m :
  without percent s = true → _split_addr_prefix s = Return (addr, m) → without percent addr = true.
Proof.
  unfold _split_addr_prefix. intros Hs.
  assert (∀ w, w ∈ split_on slash s → without percent w = true) as Hw.
  { clear -Hs. induction s as [|c s IH]; cbn [split_on].
    { by intros w ->%list_elem_of_singleton. }
    cbn in Hs. apply andb_true_iff in Hs as [Hc Hs]. specialize (IH Hs).
    destruct (Ascii.eqb c slash); [intros w [->|Hw]%elem_of_cons; [done|auto]|].
    destruct (split_on slash s) as [|v vs].
    - intros w ->%list_elem_of_singleton. cbn. by rewrite Hc.
    - intros w [->|Hw]%elem_of_cons; [|apply IH; by constructor].
      cbn. rewrite Hc. apply (IH v). constructor. }
  destruct (split_on slash s) as [|x [|y [|? ?]]]; try done; intros [= <- <-]; apply Hw; constructor.
Qed.

Lemma network_plain s strict n :
  without percent s = true → ip_network s strict = Return n → plain n.
Proof.
  intros Hs. assert (∀ ver, network_of_version ver s strict = Return n → plain n) as Hv.
  { intros ver ([addr m] & Hsp & H)%outcome_bind_inv.
    apply (split_prefix_plain _ _ _ Hs) in Hsp. cbv beta iota in H.
    apply outcome_bind_inv in H as (a & Ha & H). apply (address_plain _ _ _ Hsp) in Ha.
    apply outcome_bind_inv in H as (p & _ & H). cbv zeta in H.
    destruct (_ =? _); [by injection H as <-|]. destruct strict; [done|]. by injection H as <-. }
  intros [H|[_ H]]%first_version_inv; by apply Hv in H.
Qed.

Lemma strip_without x s : without x s = true → without x (strip s) = true.
Proof.
  unfold strip. intros H. assert (without x (lstrip_by is_space s) = true) as H'.
  { induction s as [|c s IH]; [done|]. cbn [lstrip_by]. case_match; [|done]. apply IH.
    cbn in H. by apply andb_true_iff in H as [_ H]. }
  revert H'. generalize (lstrip_by is_space s) as t. clear. induction t as [|c t IH]; [done|].
  cbn [rstrip_by]. intros [Hc Ht]%andb_true_iff. specialize (IH Ht).
  destruct (rstrip_by is_space t) as [|c' t']; [case_match; [done|]; cbn; by rewrite Hc|].
  cbn. rewrite Hc. exact IH.
Qed.

(** ** Hosts and display values *)

Lemma host_net_ok a : ip_ok a → net_ok (mkNet a (max_prefixlen a.(version))).
Proof.
  intros Ha. pose proof (max_prefixlen_pos a.(version)). split; [done| |];
    unfold block_size, net_max, net_version; cbn [network_address prefixlen]; [lia|].
  by rewrite Z.sub_diag, Z.mod_1_r.
Qed.

Lemma host_network_spec a : ip_ok a → host_network a = Return (mkNet a (max_prefixlen a.(version))).
Proof. intros Ha. exact (parse_net_str _ (host_net_ok a Ha)). Qed.

Lemma named_network_ok raw n : named_network raw n → net_ok n.
Proof.
  unfold named_network. destruct (has_char _ _); [apply ip_network_ok|].
  intros (a & Ha%ip_address_ok & H)%outcome_bind_inv. rewrite host_network_spec in H by done.
  injection H as <-. by apply host_net_ok.
Qed.

Lemma ip_address_plain s a : without percent s = true → ip_address s = Return a → a.(scope_id) = None.
Proof.
  intros Hs [H|[_ H]]%first_version_inv; [by eapply ipv4_plain|by eapply ipv6_plain].
Qed.

Lemma named_network_plain raw n : zone_free raw → named_network raw n → plain n.
Proof.
  intros Hz%strip_without. unfold named_network.
  destruct (has_char _ _); [by apply network_plain|].
  intros (a & Ha & H)%outcome_bind_inv. pose proof (ip_address_ok _ _ Ha) as Hok.
  rewrite host_network_spec in H by done. injection H as <-. by eapply ip_address_plain.
Qed.

Lemma plain_str_chars a : ip_ok a → a.(scope_id) = None → str_all addr_char (ip_str a) = true.
Proof.
  intros Hok Hp. destruct Hok as [(Hv & Hr & _)|(Hv & Hr & Hz)].
  - unfold ip_str. rewrite Hv. by apply ipv4_text.
  - rewrite ip_str_zone, Hp, app_nil_string by done. apply ipv6_chars.
Qed.

Lemma strip_no_space s : str_all (fun c => negb (is_space c)) s = true → strip s = s.
Proof.
  intros Hs. unfold strip. assert (lstrip_by is_space s = s) as ->.
  { destruct s as [|c s]; [done|]. cbn in *. apply andb_true_iff in Hs as [Hc%negb_true_iff _]. by rewrite Hc. }
  induction s as [|c s IH]; [done|]. cbn in *. apply andb_true_iff in Hs as [Hc%negb_true_iff Hs].
  rewrite IH by done. destruct s; [by rewrite Hc|done].
Qed.

Lemma addr_char_not_space c : addr_char c || Ascii.eqb c slash = true → negb (is_space c) = true.
Proof. destruct c as [[] [] [] [] [] [] [] []]; vm_compute; done. Qed.

Lemma display_named n : net_ok n → plain n → named_network (_display_value n) n.
Proof.
  intros Hok Hp. pose proof (net_addr_ok _ Hok) as Ha.
  pose proof (plain_str_chars _ Ha Hp) as Hc.
  pose proof (prefix_text _ (net_prefix_128 n Hok)) as H. unfold prefix_text_ok in H.
  rewrite !andb_true_iff in H. destruct H as (_ & Hpc).
  assert (strip (_display_value n) = _display_value n) as Hs.
  { apply strip_no_space. eapply str_all_mono; [exact addr_char_not_space|].
    assert (∀ s, str_all addr_char s = true → str_all (fun c => addr_char c || Ascii.eqb c slash) s = true) as Hm.
    { intros s. apply str_all_mono. by intros c ->. }
    unfold _display_value, net_str. case_match; [by apply Hm|].
    rewrite !str_all_app. by rewrite (Hm _ Hc), (Hm _ Hpc). }
  unfold named_network. rewrite Hs. unfold _display_value.
  destruct (Z.eqb_spec n.(prefixlen) (net_max n)) as [Hmax|Hmax].
  - rewrite has_char_without, ip_str_no_slash by done. cbn [negb].
    rewrite parse_ip_str, bind_Return, host_network_spec by done.
    f_equal. unfold net_max, net_version in Hmax. rewrite <- Hmax. by destruct n.
  - unfold net_str. rewrite has_char_without, !without_app. cbn [andb].
    rewrite andb_false_r. cbn [negb]. by apply parse_net_str.
Qed.

(** ** Removing covered networks *)

#[export] Instance net_le_order : SortOrder net_le.
Proof. repeat apply rank_then_order. apply (key_order prefixlen). Qed.

Lemma net_le_start a b :
  net_le a b = true → net_version a = net_version b →
  a.(network_address).(ip_int) ≤ b.(network_address).(ip_int) ∧
  (a.(network_address).(ip_int) = b.(network_address).(ip_int) → a.(prefixlen) ≤ b.(prefixlen)).
Proof.
  unfold net_le, rank_then. intros H Hv. rewrite Hv, Z.eqb_refl in H. cbn [negb] in H.
  destruct (Z.eqb_spec a.(network_address).(ip_int) b.(network_address).(ip_int)) as [E|E]; cbn [negb] in H.
  - apply Z.leb_le in H. lia.
  - apply Z.ltb_lt in H. lia.
Qed.

Definition disjoint_nets (a b : ip_net) : Prop := ∀ ver x, in_network a ver x → ¬ in_network b ver x.

Definition covers (result : list ip_net) (ver x : Z) : Prop := ∃ n, n ∈ result ∧ in_network n ver x.

(** A network that no earlier one of the sorted order covers is apart from all of them. *)
Lemma uncovered_disjoint a b :
  net_ok a → net_ok b → plain a → plain b → net_le a b = true →
  (net_version b =? net_version a) && subnet_of b a = false → disjoint_nets a b.
Proof.
  intros Ha Hb Pa Pb Hle Hnot ver x [Hva Hxa] [Hvb Hxb]. assert (net_version a = net_version b) as Hv by congruence.
  rewrite Hv, Z.eqb_refl in Hnot. cbn [andb] in Hnot.
  destruct (net_le_start a b Hle Hv) as [Hs Hp].
  assert (¬ (a.(network_address).(ip_int) ≤ b.(network_address).(ip_int) ∧
             (broadcast_address b).(ip_int) ≤ (broadcast_address a).(ip_int))) as Hn.
  { intros Hin. apply (subnet_of_spec b a) in Hin; congruence. }
  destruct (Z.le_ge_cases a.(prefixlen) b.(prefixlen)) as [Hpp|Hpp].
  - destruct (blocks_nested b a Hb Ha) as [?|[?|?]]; [done|done|tauto|lia|lia].
  - destruct (blocks_nested a b Ha Hb) as [[? ?]|[?|?]]; [done|done| |lia|lia].
    assert (b.(prefixlen) = a.(prefixlen)) as E by lia. apply Hn. split; [lia|].
    rewrite !broadcast_block by done.
    assert (block_size b = block_size a) as -> by (unfold block_size, net_max; by rewrite Hv, E). lia.
Qed.

Lemma covered_spec result n :
  (∀ r, r ∈ result → plain r) → plain n → covered result n = true →
  ∃ r, r ∈ result ∧ ∀ ver x, in_network n ver x → in_network r ver x.
Proof.
  intros Hr Hn (r & Hin & [Hv%Z.eqb_eq Hsub]%andb_true_iff)%existsb_elem_of.
  apply subnet_of_spec in Hsub; [|done|by apply Hr|done]. exists r. split; [done|].
  intros ver x [? ?]. split; [congruence|lia].
Qed.

(** Apart from each other, wherever they stand in the list. *)
Definition pairwise_disjoint (l : list ip_net) : Prop :=
  ∀ i j a b, l !! i = Some a → l !! j = Some b → i ≠ j → disjoint_nets a b.

Lemma pairwise_snoc l n :
  pairwise_disjoint l → (∀ r, r ∈ l → disjoint_nets r n) → pairwise_disjoint (l ++ [n]).
Proof.
  intros Hl Hn i j a b Ha Hb Hij.
  apply lookup_app_Some in Ha as [Ha|[Hi Ha]], Hb as [Hb|[Hj Hb]].
  - by eapply Hl.
  - apply list_lookup_singleton_Some in Hb as [_ <-]. apply Hn. by eapply list_elem_of_lookup_2.
  - apply list_lookup_singleton_Some in Ha as [_ <-]. intros ver x H1 H2.
    eapply Hn; [by eapply list_elem_of_lookup_2|exact H2|exact H1].
  - apply list_lookup_singleton_Some in Ha as [Ei _], Hb as [Ej _]. lia.
Qed.

Lemma keep_uncovered_fold sorted :
  StronglySorted (fun a b => net_le a b = true) sorted →
  (∀ n, n ∈ sorted → net_ok n ∧ plain n) →
  ∀ result, (∀ r, r ∈ result → net_ok r ∧ plain r ∧ ∀ n, n ∈ sorted → net_le r n = true) →
  pairwise_disjoint result →
  let final := foldl keep_uncovered result sorted in
  (∀ n, n ∈ final → n ∈ result ∨ n ∈ sorted) ∧
  (∀ ver x, covers final ver x ↔ covers result ver x ∨ covers sorted ver x) ∧
  pairwise_disjoint final.
Proof.
  induction 1 as [|n sorted Hs IH Hn]; intros Hok result Hres Hdis; cbn [foldl].
  { split_and!; [by left| |done]. intros ver x. split; [by left|].
    intros [?|(n & ?%elem_of_nil & _)]; done. }
  destruct (Hok n ltac:(constructor)) as [Hn1 Hn2]. rewrite Forall_forall in Hn.
  assert (∀ m, m ∈ sorted → net_ok m ∧ plain m) as Hok' by (intros m Hm; apply Hok; by constructor).
  assert (∀ r m, r ∈ result → m ∈ sorted → net_le r m = true) as Hle
    by (intros r m Hr Hm; apply (Hres r Hr); by constructor).
  unfold keep_uncovered. fold keep_uncovered.
  destruct (covered result n) eqn:Hc.
  - destruct (IH Hok' result) as (I1 & I2 & I3); [|done|].
    { intros r Hr. destruct (Hres r Hr) as (?&?&_). split_and!; auto. }
    split_and!; [|intros ver x; rewrite I2|done].
    + intros m [?|?]%I1; [by left|right; by constructor].
    + destruct (covered_spec result n) as (r & Hr & Hsub); [by apply Hres|done|done|].
      unfold covers. setoid_rewrite elem_of_cons. naive_solver.
  - destruct (IH Hok' (result ++ [n])) as (I1 & I2 & I3).
    + intros r [Hr| ->%list_elem_of_singleton]%elem_of_app; [|by split_and!].
      destruct (Hres r Hr) as (?&?&_). split_and!; auto.
    + apply pairwise_snoc; [done|]. intros r Hr. destruct (Hres r Hr) as (Hr1&Hr2&Hr3).
      apply uncovered_disjoint; try done; [apply Hr3; constructor|].
      exact (proj1 (existsb_false_elem_of _ _) Hc r Hr).
    + split_and!; [|intros ver x; rewrite I2|done].
      * intros m Hm. apply I1 in Hm as [Hm|?]; [|right; by constructor].
        apply elem_of_app in Hm as [?| ->%list_elem_of_singleton]; [by left|right; constructor].
      * unfold covers. setoid_rewrite elem_of_app. setoid_rewrite elem_of_cons.
        setoid_rewrite elem_of_nil. naive_solver.
Qed.

(** ** Counting addresses *)

Definition net_addresses (n : ip_net) : list (Z * Z) :=
  List.map (pair (net_version n)) (seqZ n.(network_address).(ip_int) (num_addresses n)).

Definition all_addresses (networks : list ip_net) : list (Z * Z) := flat_map net_addresses networks.

Definition family_count (ver : Z) (addresses : list (Z * Z)) : Z :=
  Z.of_nat (length (List.filter (fun a => a.1 =? ver) addresses)).

Lemma elem_of_net_addresses n ver x :
  net_ok n → (ver, x) ∈ net_addresses n ↔ in_network n ver x.
Proof.
  intros Hn. unfold net_addresses, in_network. rewrite num_addresses_block, broadcast_block by done.
  rewrite list_elem_of_fmap. setoid_rewrite elem_of_seqZ. split.
  - intros (y & [= -> ->] & Hy). split; [done|]. lia.
  - intros [<- Hx]. exists x. split; [done|]. lia.
Qed.

Lemma elem_of_all_addresses networks ver x :
  (∀ n, n ∈ networks → net_ok n) →
  (ver, x) ∈ all_addresses networks ↔ covers networks ver x.
Proof.
  intros Hok. unfold all_addresses, covers. rewrite list_elem_of_In, in_flat_map.
  setoid_rewrite <- list_elem_of_In. split.
  - intros (n & Hn & Hx). exists n. split; [done|]. by apply elem_of_net_addresses in Hx; [|apply Hok].
  - intros (n & Hn & Hx). exists n. split; [done|]. by apply elem_of_net_addresses; [apply Hok|].
Qed.

Lemma all_addresses_NoDup networks :
  (∀ n, n ∈ networks → net_ok n) → pairwise_disjoint networks → NoDup (all_addresses networks).
Proof.
  induction networks as [|n networks IH]; intros Hok Hdis; [constructor|].
  cbn [all_addresses flat_map]. fold (all_addresses networks).
  assert (∀ m, m ∈ networks → net_ok m) as Hok' by (intros m Hm; apply Hok; by constructor).
  apply NoDup_app. split_and!.
  - unfold net_addresses. apply NoDup_fmap_2; [by intros ?? [= ->]|apply NoDup_seqZ].
  - intros [ver x] Hx%elem_of_net_addresses; [|apply Hok; constructor].
    rewrite elem_of_all_addresses by done. intros (m & Hm & Hx').
    apply list_elem_of_lookup_1 in Hm as [i Hm]. by eapply (Hdis 0%nat (S i) n m).
  - apply IH; [done|]. intros i j a b Ha Hb Hij. apply (Hdis (S i) (S j) a b); [done|done|lia].
Qed.

Lemma family_count_app ver l k : family_count ver (l ++ k) = family_count ver l + family_count ver k.
Proof. unfold family_count. rewrite List.filter_app, length_app. lia. Qed.

Lemma family_count_net ver n :
  net_ok n → family_count ver (net_addresses n) = if net_version n =? ver then num_addresses n else 0.
Proof.
  intros Hn. unfold family_count, net_addresses.
  assert (∀ l, length (List.filter (fun a => a.1 =? ver) (List.map (pair (net_version n)) l)) =
    if net_version n =? ver then length l else 0%nat) as ->.
  { intros l. induction l as [|x l IH]; cbn; [by case_match|]. case_match; cbn; by rewrite IH. }
  case_match; [|done]. rewrite length_seqZ. rewrite num_addresses_block by done.
  pose proof (block_size_pos _ Hn). lia.
Qed.

Lemma sum_addresses_count ver networks :
  (∀ n, n ∈ networks → net_ok n) →
  sum_addresses (of_family ver networks) = family_count ver (all_addresses networks).
Proof.
  induction networks as [|n networks IH]; intros Hok; [done|].
  cbn [all_addresses flat_map of_family List.filter]. rewrite family_count_app.
  rewrite family_count_net by (apply Hok; constructor). fold (of_family ver networks).
  fold (all_addresses networks). rewrite <- IH by (intros m Hm; apply Hok; by constructor).
  unfold sum_addresses. case_match; cbn; lia.
Qed.

Lemma family_counts_total l :
  (∀ a, a ∈ l → a.1 = 4 ∨ a.1 = 6) → family_count 4 l + family_count 6 l = Z.of_nat (length l).
Proof.
  induction l as [|[v x] l IH]; intros Hl; [done|].
  specialize (IH ltac:(intros a Ha; apply Hl; by constructor)).
  unfold family_count in *. cbn [List.filter fst].
  destruct (Hl (v, x) ltac:(constructor)) as [E|E]; cbn in E; subst v; cbn [Z.eqb Pos.eqb length]; lia.
Qed.

(** ** What validation keeps *)

Definition accepted (targets : list string) (ver x : Z) : Prop :=
  ∃ t n, t ∈ targets ∧ _parse_target t = Return n ∧ in_network n ver x.

Lemma accepted_covers targets ns ver x :
  parse_targets targets = Return ns → accepted targets ver x ↔ covers ns ver x.
Proof.
  intros Hall%parse_targets_return. unfold accepted, covers. split.
  - intros (t & n & [i Ht]%list_elem_of_lookup_1 & Hn & Hx).
    destruct (Forall2_lookup_l _ _ _ _ _ Hall Ht) as (n' & Hn' & E). exists n. split; [|done].
    rewrite Hn in E. injection E as <-. by eapply list_elem_of_lookup_2.
  - intros (n & [i Hn]%list_elem_of_lookup_1 & Hx).
    destruct (Forall2_lookup_r _ _ _ _ _ Hall Hn) as (t & Ht & E). exists t, n.
    split; [by eapply list_elem_of_lookup_2|done].
Qed.

Lemma parsed_ok targets ns :
  parse_targets targets = Return ns → (∀ t, t ∈ targets → zone_free t) →
  ∀ n, n ∈ ns → net_ok n ∧ plain n ∧ prohibited n = false.
Proof.
  intros Hall%parse_targets_return Hz n [i Hn]%list_elem_of_lookup_1.
  destruct (Forall2_lookup_r _ _ _ _ _ Hall Hn) as (t & Ht & [Hnamed Hp]%parse_target_return).
  split_and!; [by eapply named_network_ok|eapply named_network_plain; [|done]|done].
  apply Hz. by eapply list_elem_of_lookup_2.
Qed.

Lemma removed_spec set_order ns :
  (∀ l, set_order l ≡ₚ l) → (∀ n, n ∈ ns → net_ok n ∧ plain n ∧ prohibited n = false) →
  let kept := _remove_duplicates_and_covered set_order ns in
  (∀ n, n ∈ kept → net_ok n ∧ plain n ∧ prohibited n = false) ∧
  (∀ ver x, covers kept ver x ↔ covers ns ver x) ∧ pairwise_disjoint kept ∧ (ns ≠ [] → kept ≠ []).
Proof.
  intros Hperm Hok. unfold _remove_duplicates_and_covered.
  set (sorted := sort_by net_le (set_order (remove_dups ns))).
  assert (∀ n, n ∈ sorted ↔ n ∈ ns) as Hin.
  { intros n. unfold sorted. by rewrite elem_of_sort_by, Hperm, elem_of_remove_dups. }
  destruct (keep_uncovered_fold sorted (sorted_by net_le _)) with (result := @nil ip_net) as (I1 & I2 & I3).
  - intros n Hn%Hin. destruct (Hok n Hn) as (?&?&_). done.
  - intros r Hr. by apply elem_of_nil in Hr.
  - intros i j a b Ha. done.
  - assert (∀ ver x, covers (foldl keep_uncovered [] sorted) ver x ↔ covers ns ver x) as Hcov.
    { intros ver x. rewrite I2. unfold covers. setoid_rewrite Hin. split; [|by right].
      intros [(n & Hn & _)|?]; [by apply elem_of_nil in Hn|done]. }
    split_and!; [|done|done|].
    + intros n [Hn|Hn]%I1; [by apply elem_of_nil in Hn|]. apply Hok. by apply Hin.
    + intros Hne Hnil. destruct ns as [|n ns]; [done|]. destruct (Hok n ltac:(constructor)) as (Hn & _).
      destruct (proj2 (Hcov (net_version n) n.(network_address).(ip_int))) as (m & Hm & _).
      * exists n. split; [constructor|]. split; [done|]. rewrite broadcast_block by done.
        pose proof (block_size_pos _ Hn). lia.
      * rewrite Hnil in Hm. by apply elem_of_nil in Hm.
Qed.

(** ** Proposals *)

Section proposals.
Context (settings : ActiveSettings).

(** A network fit to be proposed: global unicast, not prohibited, within the limit; without
    a zone its text is a target of the same network. *)
Definition proposable (text : string) : Prop :=
  ∃ n, text = _display_value n ∧ net_ok n ∧ prohibited n = false ∧
       is_loopback n = false ∧ is_link_local n = false ∧
       (settings.(active_allow_large_scopes) = true ∨
        num_addresses n ≤ _proposal_limit settings (net_version n)) ∧
       (plain n → _parse_target text = Return n).

Definition proposed_by (origin_name interface_name : string) (vlan : option Z) (p : ProposedNetwork) : Prop :=
  proposable p.(cidr) ∧ p.(origin) = origin_name ∧ p.(proposed_interface) = Some interface_name ∧
  p.(vlan_id) = vlan ∧ (is_Some p.(assigned) ↔ origin_name = "assigned").

Lemma assigned_network_ok raw n :
  _assigned_network raw = Return n → net_ok n ∧ prohibited n = false.
Proof.
  unfold _assigned_network, checked_network. cbv zeta.
  destruct (if has_char slash (strip raw) then _ else _) as [k|e] eqn:Hm; [|done].
  fold (prohibited k). destruct (prohibited k) eqn:Hp; [done|]. intros [= <-]. split; [|done].
  destruct (has_char slash (strip raw)); [by apply ip_interface_network_ok in Hm|].
  apply outcome_bind_inv in Hm as (a & Ha%ip_address_ok & H). rewrite host_network_spec in H by done.
  injection H as <-. by apply host_net_ok.
Qed.

Lemma eligible_spec origin_name interface_name vlan raw p :
  p ∈ (eligible settings origin_name interface_name vlan raw).1 →
  proposed_by origin_name interface_name vlan p.
Proof.
  unfold eligible. cbv zeta. destruct (negb (nonempty _)); [by intros ?%elem_of_nil|].
  destruct (_assigned_network _) as [n|e] eqn:Hn; [|by intros ?%elem_of_nil].
  destruct (is_loopback n || is_link_local n) eqn:Hl; [by intros ?%elem_of_nil|].
  apply orb_false_iff in Hl as [Hlo Hll].
  destruct (negb _ && _) eqn:Hlim; [by intros ?%elem_of_nil|]. cbn [fst].
  intros ->%list_elem_of_singleton. apply assigned_network_ok in Hn as [Hok Hp].
  split_and!; try done.
  - exists n. split_and!; try done.
    + destruct settings.(active_allow_large_scopes); [by left|right].
      cbn [negb andb] in Hlim. by apply Z.ltb_ge in Hlim.
    + intros Hplain. apply parse_target_return. split; [by apply display_named|done].
  - cbn. destruct (String.eqb_spec origin_name "assigned"); by split.
Qed.

Lemma eligible_networks_spec origin_name interface_name vlan values p :
  p ∈ (_eligible_networks settings origin_name interface_name vlan values).1 →
  proposed_by origin_name interface_name vlan p.
Proof.
  unfold _eligible_networks.
  assert (∀ acc : list ProposedNetwork * list RejectedCandidate, p ∈ (foldl (fun acc raw =>
    let '(found, rejected) := eligible settings origin_name interface_name vlan raw in
    (acc.1 ++ found, acc.2 ++ rejected)) acc values).1 → p ∈ acc.1 ∨ proposed_by origin_name interface_name vlan p) as H.
  { induction values as [|raw values IH]; intros acc; cbn [foldl]; [by left|].
    pose proof (eligible_spec origin_name interface_name vlan raw p) as He.
    destruct (eligible _ _ _ _ raw) as [found rejected]. cbn [fst] in He.
    intros [[?|?]%elem_of_app|?]%IH; auto. }
  intros [Hp|?]%H; [by apply elem_of_nil in Hp|done].
Qed.

(** Dropping repeated texts. *)
Lemma add_unseen_fold networks acc :
  NoDup (List.map cidr acc) →
  let r := foldl add_unseen acc networks in
  NoDup (List.map cidr r) ∧ (∀ p, p ∈ r → p ∈ acc ∨ p ∈ networks) ∧
  (acc ≠ [] ∨ networks ≠ [] → r ≠ []).
Proof.
  revert acc. induction networks as [|p networks IH]; intros acc Hnd; cbn [foldl].
  { split_and!; [done|by left|]. by intros [?|?]. }
  unfold add_unseen at 2 4 6. fold add_unseen. destruct (str_in p.(cidr) (List.map cidr acc)) eqn:Hin.
  - destruct (IH acc Hnd) as (I1 & I2 & I3). split_and!; [done| |].
    + intros q [?|?]%I2; [by left|right; by constructor].
    + intros _. apply I3. left. intros ->. done.
  - apply str_in_false in Hin. destruct (IH (acc ++ [p])) as (I1 & I2 & I3).
    { rewrite map_app. apply NoDup_app. split_and!; [done| |apply NoDup_singleton].
      by intros x Hx ->%list_elem_of_singleton. }
    split_and!; [done| |].
    + intros q [[?| ->%list_elem_of_singleton]%elem_of_app|?]%I2;
        [by left|right; constructor|right; by constructor].
    + intros _. apply I3. left. by destruct acc.
Qed.

Lemma proposal_spec interface_name source networks rejected (P : ProposedNetwork → Prop) :
  (∀ p, p ∈ networks → P p) →
  let r := _proposal interface_name source networks rejected in
  NoDup r.(proposal_targets) ∧ r.(proposal_targets) = List.map cidr r.(proposal_networks) ∧
  (∀ p, p ∈ r.(proposal_networks) → P p) ∧ (networks ≠ [] → r.(proposal_networks) ≠ []).
Proof.
  intros HP. unfold _proposal. cbn [proposal_targets proposal_networks].
  destruct (add_unseen_fold networks [] (NoDup_nil_2)) as (I1 & I2 & I3).
  split_and!; [done|done| |by intros; apply I3; right].
  intros p [Hp|?]%I2; [by apply elem_of_nil in Hp|auto].
Qed.

Lemma vlan_id_range parent child id : _vlan_id_for parent child = Return (Some id) → 0 ≤ id ≤ 4095.
Proof.
  unfold _vlan_id_for. destruct (remove_prefix _ _) as [suffix|]; [|done].
  destruct (decimal suffix); [|done]. destruct (unsigned_digits suffix) as [n|]; [|done].
  destruct ((0 <=? n) && (n <=? 4095)) eqn:Hn; [|done]. intros [= <-]. lia.
Qed.

Definition vlan_entries_ok (by_iface : list (string * list ProposedNetwork)) : Prop :=
  ∀ name networks, (name, networks) ∈ by_iface → networks ≠ [] ∧
    ∀ p, p ∈ networks → ∃ id, 0 ≤ id ≤ 4095 ∧ proposed_by "vlan" name (Some id) p.

Lemma dict_set_elem {V} (d : list (string * V)) k v k' v' :
  (k', v') ∈ dict_set d k v → (k' = k ∧ v' = v) ∨ (k', v') ∈ d.
Proof.
  induction d as [|[k0 v0] d IH]; cbn [dict_set].
  - intros [= -> ->]%list_elem_of_singleton. by left.
  - destruct (String.eqb_spec k k0) as [->|].
    + intros [[= -> ->]|?]%elem_of_cons; [by left|right; by constructor].
    + intros [[= -> ->]|[?|?]%IH]%elem_of_cons; [right; constructor|by left|right; by constructor].
Qed.

Lemma vlan_networks_spec interface_name peers by_iface rejected r rejected' :
  vlan_networks settings interface_name peers by_iface rejected = Return (r, rejected') →
  vlan_entries_ok by_iface → vlan_entries_ok r.
Proof.
  revert by_iface rejected. induction peers as [|peer peers IH]; intros by_iface rejected; cbn [vlan_networks].
  { by intros [= <- <-]. }
  cbv zeta. set (name := py_str _).
  intros (vlan & Hvlan & H)%outcome_bind_inv Hok. destruct vlan as [id|]; [|by eapply IH].
  apply vlan_id_range in Hvlan.
  apply outcome_bind_inv in H as (v4 & _ & H). apply outcome_bind_inv in H as (v6 & _ & H).
  pose proof (eligible_networks_spec "vlan" name (Some id) (v4 ++ v6)) as He.
  destruct (_eligible_networks _ _ _ _ _) as [found more]. cbn [fst] in He.
  eapply IH; [exact H|]. destruct found as [|p found]; [done|].
  intros k ns [[-> ->]|Hk]%dict_set_elem; [|by apply Hok]. split; [by destruct (default _ _)|].
  intros q [Hq|Hq]%elem_of_app; [|exists id; eauto].
  destruct (dict_get by_iface name) as [old|] eqn:Hold; [|by apply elem_of_nil in Hq].
  apply dict_get_elem in Hold. by apply (Hok name old).
Qed.

Lemma route_networks_spec interface_name routes p :
  p ∈ (route_networks settings interface_name routes).1 → proposed_by "route" interface_name None p.
Proof.
  unfold route_networks. set (step := fun _ _ => _).
  assert (∀ acc, p ∈ (foldl step acc routes).1 → p ∈ acc.1 ∨ proposed_by "route" interface_name None p) as H.
  { induction routes as [|route routes IH]; intros acc; cbn [foldl]; [by left|].
    intros [Hp|?]%IH; [|by right]. unfold step in Hp.
    destruct (negb _); [by left|]. destruct (truthy _); [by left|].
    destruct (_route_destination route) as [d|]; [|by left].
    pose proof (eligible_networks_spec "route" interface_name None [PStr d] p) as He.
    destruct (_eligible_networks _ _ _ _ _) as [found more]. cbn [fst] in *.
    apply elem_of_app in Hp as [?|?]; auto. }
  intros [Hp|?]%H; [by apply elem_of_nil in Hp|done].
Qed.
End proposals.
