(* ===== verification/ScopeTheorems.v ===== *)
(** * What scope validation guarantees *)

From S2P Require Import Prelude PyBase PyText Ip IpProofs ScopeEngine ScopeProofs.

(** ** Addresses and networks *)

(** C18: the text under which a target is listed is validated back: for a well-formed network
    without a zone, parsing its display value - an address for a single host, CIDR
    notation otherwise - gives the very network, unless the network is prohibited, and
    then the refusal says so. *)
Theorem scope_text_roundtrip n :
  net_ok n → plain n →
  match _parse_target (_display_value n) with
  | Return n' => n' = n ∧ prohibited n = false
  | Raise e => e.(scope_code) = PROHIBITED_TARGET ∧ prohibited n = true
  end.
Proof.
  intros Hn Hp. pose proof (display_named n Hn Hp) as Hnamed.
  destruct (_parse_target (_display_value n)) as [n'|e] eqn:Hparse.
  - apply parse_target_return in Hparse as [Hnamed' Hok].
    assert (n' = n) as -> by (unfold named_network in *; congruence). by split.
  - apply parse_target_raise in Hparse as [[_ Hno]|[He (n' & Hnamed' & Hpro)]]; [by destruct (Hno n)|].
    split; [done|]. assert (n' = n) as -> by (unfold named_network in *; congruence). done.
Qed.

Definition sample_net : ip_net := mkNet (mkIp 6 (0x20010db8 * 2 ^ 96 + 0x20) None) 124.

Lemma sample_net_ok : net_ok sample_net.
Proof. split; [right; by repeat split|by split|done]. Qed.

Lemma scope_text_roundtrip_witness :
  _display_value sample_net = "2001:db8::20/124" ∧ _parse_target "2001:db8::20/124" = Return sample_net.
Proof.
  assert (_display_value sample_net = "2001:db8::20/124") as Hd by (vm_compute; reflexivity). split; [done|].
  pose proof (scope_text_roundtrip sample_net sample_net_ok eq_refl) as H. rewrite Hd in H.
  destruct (_parse_target "2001:db8::20/124") as [n'|e]; [by destruct H as [-> _]|destruct H as [_ H]].
  vm_compute in H. discriminate.
Defined.

(** ** Validation *)

Section validation.
Context (settings : ActiveSettings) (set_order : list ip_net → list ip_net).
Context (set_order_perm : ∀ l, set_order l ≡ₚ l).

(** The limit of each address family under a profile. *)
Definition within_limits (profile : ActiveProfile) (addresses : list (Z * Z)) : Prop :=
  family_count 4 addresses ≤ (profile_limits settings profile).(ipv4) ∧
  family_count 6 addresses ≤ (profile_limits settings profile).(ipv6).

(** The addresses of the accepted targets, each once. *)
Definition scope_addresses (targets : list string) (addresses : list (Z * Z)) : Prop :=
  NoDup addresses ∧ ∀ ver x, (ver, x) ∈ addresses ↔ accepted targets ver x.

(** What an accepted scope looks like. *)
Record scope_sound (targets : list string) (profile : ActiveProfile) (scope : ValidatedScope)
    (kept : list ip_net) : Prop := {
  sound_targets : scope.(canonical_targets) = List.map _display_value kept;
  sound_parse : ∀ n, n ∈ kept → _parse_target (_display_value n) = Return n;
  sound_disjoint : pairwise_disjoint kept;
  sound_covers : ∀ ver x, covers kept ver x ↔ accepted targets ver x;
  sound_families : ∀ ver, ver ∈ scope.(address_families) ↔ ∃ n, n ∈ kept ∧ net_version n = ver;
  sound_count : ∃ addresses, scope_addresses targets addresses ∧
    scope.(address_count) = Z.of_nat (length addresses) ∧ 1 ≤ scope.(address_count) ∧
    (settings.(active_allow_large_scopes) = true ∨ within_limits profile addresses)
}.

(** The networks kept, and their addresses. *)
Lemma kept_addresses targets ns :
  (∀ t, t ∈ targets → zone_free t) → parse_targets targets = Return ns → targets ≠ [] →
  let kept := _remove_duplicates_and_covered set_order ns in
  (∀ n, n ∈ kept → net_ok n ∧ plain n ∧ prohibited n = false) ∧ kept ≠ [] ∧
  pairwise_disjoint kept ∧ (∀ ver x, covers kept ver x ↔ accepted targets ver x) ∧
  scope_addresses targets (all_addresses kept).
Proof.
  intros Hz Hns Hne kept. pose proof (parsed_ok _ _ Hns Hz) as Hok.
  destruct (removed_spec set_order ns set_order_perm Hok) as (R1 & R2 & R3 & R4). fold kept in R1, R2, R3, R4.
  assert (∀ n, n ∈ kept → net_ok n) as Hk by (intros n Hn; by apply R1).
  assert (∀ ver x, covers kept ver x ↔ accepted targets ver x) as Hcov.
  { intros ver x. by rewrite R2, (accepted_covers targets ns). }
  split_and!; try done.
  - apply R4. intros ->. apply parse_targets_return, Forall2_nil_inv_r in Hns. done.
  - split; [by apply all_addresses_NoDup|]. intros ver x. by rewrite elem_of_all_addresses, Hcov.
Qed.

Lemma count_total kept :
  (∀ n, n ∈ kept → net_ok n) →
  family_count 4 (all_addresses kept) + family_count 6 (all_addresses kept) =
    Z.of_nat (length (all_addresses kept)).
Proof.
  intros Hk. apply family_counts_total. intros [ver x] (n & Hn & <- & _)%elem_of_all_addresses; [|done].
  destruct (net_addr_ok _ (Hk n Hn)) as [(?&_)|(?&_)]; [by left|by right].
Qed.

Lemma kept_nonempty_count kept :
  (∀ n, n ∈ kept → net_ok n) → kept ≠ [] → 1 ≤ Z.of_nat (length (all_addresses kept)).
Proof.
  intros Hk Hne. destruct kept as [|n kept]; [done|].
  assert ((net_version n, n.(network_address).(ip_int)) ∈ all_addresses (n :: kept)) as Hin.
  { apply elem_of_all_addresses; [done|]. exists n. split; [constructor|]. split; [done|].
    pose proof (Hk n ltac:(constructor)) as Hn. rewrite broadcast_block by done.
    pose proof (block_size_pos _ Hn). lia. }
  destruct (all_addresses (n :: kept)); [by apply elem_of_nil in Hin|]. simpl. lia.
Qed.

Lemma families_of kept scope :
  scope.(address_families) = sort_by Z.leb (remove_dups (List.map target_family (List.map scope_target kept))) →
  ∀ ver, ver ∈ scope.(address_families) ↔ ∃ n, n ∈ kept ∧ net_version n = ver.
Proof.
  intros -> ver. rewrite elem_of_sort_by, elem_of_remove_dups, List.map_map, list_elem_of_fmap.
  cbn. naive_solver.
Qed.

(** Why a scope is refused. *)
Definition refused (targets : list string) (profile : ActiveProfile) (code : ScopeValidationCode) : Prop :=
  match code with
  | EMPTY_SCOPE => targets = []
  | TOO_MANY_EXPRESSIONS => (256 < length targets)%nat
  | INVALID_TARGET => ∃ pre t post, targets = pre ++ t :: post ∧
      (∃ ns, parse_targets pre = Return ns) ∧ ∀ n, ¬ named_network t n
  | PROHIBITED_TARGET => ∃ pre t post, targets = pre ++ t :: post ∧
      (∃ ns, parse_targets pre = Return ns) ∧ ∃ n, named_network t n ∧ prohibited n = true
  | LIMIT_EXCEEDED => settings.(active_allow_large_scopes) = false ∧
      ∃ addresses, scope_addresses targets addresses ∧ ¬ within_limits profile addresses
  end.

End validation.

Definition demo_settings : ActiveSettings := mkActiveSettings 1024 256 64 256 false.

Definition demo_targets : list string := ["10.0.0.7"; " 10.0.0.0/28 "; "2001:db8::/126"; "10.0.0.16"].


(** ** Proposals *)

(** Who proposed a network, and on which interface. *)
Definition proposed_from settings (interface_name : string) (r : ScopeProposal) (p : ProposedNetwork) : Prop :=
  match r.(proposal_source) with
  | INTERFACE_PREFIX => proposed_by settings "assigned" interface_name None p
  | VLAN_HINTS => ∃ id, 0 ≤ id ≤ 4095 ∧ proposed_by settings "vlan" r.(proposal_interface) (Some id) p
  | ROUTE_HINTS => proposed_by settings "route" interface_name None p
  | EMPTY_PROPOSAL => False
  end.

(** every network of a proposal is a well-formed global unicast one within the limit,
    accepted by validation when it has no zone, and comes from the source named: the
    assigned prefixes first, then one VLAN child, then the routes.  The texts are
    distinct; only an empty proposal has none. *)
Theorem propose_correct settings interface_name assigned peers routes r :
  propose settings interface_name assigned peers routes = Return r →
  NoDup r.(proposal_targets) ∧ r.(proposal_targets) = List.map cidr r.(proposal_networks) ∧
  (∀ p, p ∈ r.(proposal_networks) → proposed_from settings interface_name r p) ∧
  (r.(proposal_networks) = [] ↔ r.(proposal_source) = EMPTY_PROPOSAL) ∧
  (r.(proposal_source) = INTERFACE_PREFIX ↔
   (_eligible_networks settings "assigned" interface_name None assigned).1 ≠ []).
Proof.
  unfold propose.
  pose proof (eligible_networks_spec settings "assigned" interface_name None assigned) as Ha.
  destruct (_eligible_networks settings "assigned" interface_name None assigned) as [selected rejected].
  cbn [fst] in *. destruct selected as [|p0 selected].
  2: { intros [= <-]. edestruct (proposal_spec interface_name INTERFACE_PREFIX) as (P1 & P2 & P3 & P4);
         [exact Ha|]. split_and!; [exact P1|exact P2|exact P3| |by split].
       split; [by intros ?%P4|done]. }
  intros ([by_iface rejected'] & Hv%vlan_networks_spec & H)%outcome_bind_inv; [|by intros ?? ?%elem_of_nil].
  destruct by_iface as [|[chosen networks] rest].
  2: { injection H as <-. destruct (Hv chosen networks ltac:(constructor)) as [Hne Hp].
       destruct (proposal_spec chosen VLAN_HINTS networks rejected' _ Hp) as (P1 & P2 & P3 & P4).
       split_and!; [exact P1|exact P2|exact P3| |done]. split; [by intros ?%P4|done]. }
  pose proof (route_networks_spec settings interface_name routes) as Hr.
  destruct (route_networks settings interface_name routes) as [networks more]. cbn [fst] in Hr.
  destruct networks as [|p0 networks]; injection H as <-.
  - split_and!; [constructor|done| |done|done]. by intros p ?%elem_of_nil.
  - edestruct (proposal_spec interface_name ROUTE_HINTS) as (P1 & P2 & P3 & P4); [exact Hr|].
    split_and!; [exact P1|exact P2|exact P3| |done]. split; [by intros ?%P4|done].
Qed.

Definition demo_peers : list dict :=
  [[("name", PStr "eth0.20@eth0"); ("ipv4", PList [PStr "192.168.20.5/24"; PStr "169.254.1.1/16"])]].

Lemma propose_correct_witness :
  match propose demo_settings "eth0" [PStr "127.0.0.1/8"] demo_peers [] with
  | Return r => r.(proposal_targets) = ["192.168.20.0/24"] ∧ r.(vlan_ids) = [20] ∧
      (∀ p, p ∈ r.(proposal_networks) → proposed_from demo_settings "eth0" r p)
  | Raise _ => False
  end.
Proof.
  destruct (propose demo_settings "eth0" [PStr "127.0.0.1/8"] demo_peers []) as [r|e] eqn:Hr.
  - destruct (propose_correct _ _ _ _ _ _ Hr) as (_ & _ & H & _).
    split; [|split; [|exact H]]; vm_compute in Hr; injection Hr as <-; reflexivity.
  - vm_compute in Hr. discriminate.
Defined.

(** ** Connected networks *)

(** A bare address that is the network address of a connected network stands for it. *)
Lemma expand_target_spec networks value :
  expand_target networks value =
    match ip_address value with
    | Return a => if has_char slash value then value
                  else match find_first (fun n => bool_decide (n.(network_address) = a)) networks with
                       | Some n => net_str n
                       | None => value
                       end
    | Raise _ => value
    end.
Proof. unfold expand_target. by repeat case_match. Qed.

(** ** What modelling showed *)

(** A zone is lost when targets are reduced: an address of one link is dropped because a
    network of another covers the same numbers. *)
Lemma zone_of_other_link_dropped :
  match validate (mkActiveSettings 256 256 256 256 true) (fun l => l) ["fe80::%eth0/64"; "fe80::1%eth1"] DEEP with
  | Return scope => scope.(canonical_targets) = ["fe80::%eth0/64"]
  | Raise _ => False
  end.
Proof. vm_compute. reflexivity. Qed.
