(* ===== verification/Nmap.v ===== *)
(** * Nmap's XML ([parsers/nmap.py])

    The typed document the inventory ingests, and its construction from the parsed
    element tree ([xml.etree] is the standard library's: here an [element]). *)

From S2P Require Import Prelude PyBase PyText.

(** ** The element tree *)

#[warnings="-register-all"]
Inductive element : Type :=
  | Element (tag : string) (attrib : list (string * string)) (text : option string)
      (children : list element).

Definition el_tag (e : element) : string := let 'Element t _ _ _ := e in t.
Definition el_attrib (e : element) : list (string * string) := let 'Element _ a _ _ := e in a.
Definition el_text (e : element) : option string := let 'Element _ _ t _ := e in t.
Definition el_children (e : element) : list element := let 'Element _ _ _ c := e in c.

(** [e.attrib.get(key)], with and without a default *)
Definition attr (e : element) (key : string) : option string := dict_get (el_attrib e) key.
Definition attr_or (e : element) (key d : string) : string := default d (attr e key).

(** [e.findall(tag)], [e.find(tag)] *)
Definition findall (t : string) (e : element) : list element :=
  List.filter (fun c => String.eqb (el_tag c) t) (el_children e).
Definition find (t : string) (e : element) : option element := head (findall t e).

(** [e.findall(".//tag")]: the descendants, in document order. *)
Fixpoint descendants (t : string) (e : element) : list element :=
  flat_map (fun c => (if String.eqb (el_tag c) t then [c] else []) ++ descendants t c) (el_children e).

(** ** Documents *)

Record NmapHostname : Type := mkHostname { host_name : string; host_name_type : string }.

Record NmapAddress : Type := mkNmapAddress {
  nmap_address : string;
  nmap_family : string;
  nmap_vendor : option string
}.

Record NmapService : Type := mkNmapService {
  svc_name : option string;
  svc_product : option string;
  svc_version : option string;
  svc_extra_info : option string;
  svc_tunnel : option string;
  svc_method : option string;
  svc_confidence : option Z;
  svc_cpe : list string;
  svc_banner : option string
}.

Record NmapPort : Type := mkNmapPort {
  np_protocol : string;
  np_port : Z;
  np_state : string;
  np_reason : option string;
  np_service : option NmapService
}.

Record NmapOsMatch : Type := mkOsMatch {
  os_match_name : string;
  accuracy : Z;
  os_match_family : option string;
  generation : option string;
  os_match_vendor : option string;
  os_match_cpe : list string
}.

Record NmapHost : Type := mkHost {
  status : string;
  status_reason : option string;
  host_addresses : list NmapAddress;
  hostnames : list NmapHostname;
  ports : list NmapPort;
  os_matches : list NmapOsMatch;
  uptime_seconds : option Z;
  network_distance : option Z
}.

(** [next((item.address for item in addresses if item.family == family), None)] *)
Definition address_of (family : string) (h : NmapHost) : option string :=
  nmap_address <$> find_first (fun a => String.eqb a.(nmap_family) family) h.(host_addresses).

Definition host_ipv4 : NmapHost → option string := address_of "ipv4".
Definition host_ipv6 : NmapHost → option string := address_of "ipv6".
Definition host_mac : NmapHost → option string := address_of "mac".

Definition mac_vendor (h : NmapHost) : option string :=
  a ← find_first (fun a => String.eqb a.(nmap_family) "mac" && truthy_str a.(nmap_vendor)) h.(host_addresses);
  a.(nmap_vendor).

Record NmapScanDocument : Type := mkScanDocument {
  scanner : string;
  scan_args : option string;
  scan_version : option string;
  xml_output_version : option string;
  start_time : option datetime;
  hosts : list NmapHost;
  hosts_up : option Z;
  hosts_down : option Z;
  hosts_total : option Z;
  finished : bool
}.

Inductive NmapParseCode : Type := MALFORMED_XML | UNSUPPORTED_OUTPUT | INCOMPLETE_OUTPUT.

Inductive NmapExc : Type :=
  | NmapParseError (code : NmapParseCode)
  | NmapOverflowError
  | NmapValueError
  | NmapOSError.

(** ** Parsing *)

Definition _optional_int (value : option string) : option Z :=
  match value with None | Some EmptyString => None | Some s => int_of_str s end.

(** [datetime.fromtimestamp(n, tz=timezone.utc)], in microseconds: the C library's bounds
    first, then those of [datetime]. *)
Definition fromtimestamp (n : Z) : outcome NmapExc datetime :=
  if negb ((- 2 ^ 63 <=? n) && (n <? 2 ^ 63)) then Raise NmapOverflowError
  else if negb ((-67768040609740800 <=? n) && (n <=? 67768036191676799)) then Raise NmapOSError
  else if negb ((-62135596800 <=? n) && (n <=? 253402300799)) then Raise NmapValueError
  else Return (n * 1000000).

Definition _unix_time (value : option string) : outcome NmapExc (option datetime) :=
  match _optional_int value with
  | None => mret None
  | Some n => t ← fromtimestamp n; mret (Some t)
  end.

(** [[item.text for item in items if item.text]] *)
Definition texts (items : list element) : list string :=
  flat_map (fun i => match el_text i with Some (String c s) => [String c s] | _ => [] end) items.

Definition parse_service (e : element) : NmapService :=
  mkNmapService (attr e "name") (attr e "product") (attr e "version") (attr e "extrainfo")
    (attr e "tunnel") (attr e "method") (_optional_int (attr e "conf")) (texts (findall "cpe" e))
    (attr e "servicefp").

Definition _parse_port (e : element) : option NmapPort :=
  port ← int_of_str (attr_or e "portid" "");
  let state := find "state" e in
  Some (mkNmapPort (attr_or e "protocol" "tcp") port
          (match state with Some s => attr_or s "state" "unknown" | None => "unknown" end)
          (s ← state; attr s "reason")
          (parse_service <$> find "service" e)).

Definition parse_os_match (e : element) : NmapOsMatch :=
  let osclass := find "osclass" e in
  mkOsMatch (attr_or e "name" "unknown") (default 0 (_optional_int (attr e "accuracy")))
    (c ← osclass; attr c "osfamily") (c ← osclass; attr c "osgen") (c ← osclass; attr c "vendor")
    (texts (descendants "cpe" e)).

Definition _parse_os (e : element) : list NmapOsMatch := List.map parse_os_match (findall "osmatch" e).

(** [if item.attrib.get(key)] *)
Definition has_attr (key : string) (e : element) : bool := truthy_str (attr e key).

Definition _parse_host (e : element) : NmapHost :=
  let status := find "status" e in
  mkHost
    (match status with Some s => attr_or s "state" "unknown" | None => "unknown" end)
    (s ← status; attr s "reason")
    (List.map (fun i => mkNmapAddress (attr_or i "addr" "") (attr_or i "addrtype" "unknown") (attr i "vendor"))
       (List.filter (has_attr "addr") (findall "address" e)))
    (List.map (fun i => mkHostname (attr_or i "name" "") (attr_or i "type" "PTR"))
       (List.filter (has_attr "name") (flat_map (findall "hostname") (findall "hostnames" e))))
    (flat_map (fun p => match _parse_port p with Some q => [q] | None => [] end)
       (flat_map (findall "port") (findall "ports" e)))
    (match find "os" e with Some o => _parse_os o | None => [] end)
    (u ← find "uptime" e; _optional_int (attr u "seconds"))
    (d ← find "distance" e; _optional_int (attr d "value")).

(** [parse_nmap_xml] on the root [ElementTree.fromstring] returns; [None] is its [ParseError]. *)
Definition parse_nmap_xml (parsed : option element) : outcome NmapExc NmapScanDocument :=
  match parsed with
  | None => Raise (NmapParseError MALFORMED_XML)
  | Some root =>
      if negb (String.eqb (el_tag root) "nmaprun") then Raise (NmapParseError UNSUPPORTED_OUTPUT)
      else
        let runstats := find "runstats" root in
        let hosts_stats := s ← runstats; find "hosts" s in
        match (s ← runstats; find "finished" s) with
        | None => Raise (NmapParseError INCOMPLETE_OUTPUT)
        | Some _ =>
            start ← _unix_time (attr root "start");
            mret (mkScanDocument (attr_or root "scanner" "nmap") (attr root "args") (attr root "version")
                    (attr root "xmloutputversion") start (List.map _parse_host (findall "host" root))
                    (s ← hosts_stats; _optional_int (attr s "up"))
                    (s ← hosts_stats; _optional_int (attr s "down"))
                    (s ← hosts_stats; _optional_int (attr s "total")) true)
        end
  end.

(** The addresses of the hosts that are up, each once, in order. *)
Definition live_targets (document : NmapScanDocument) : list string :=
  foldl (fun targets h =>
    if negb (String.eqb h.(status) "up") then targets
    else foldl (fun targets a => match a with
                                 | Some (String c s) => append_new targets (String c s)
                                 | _ => targets
                                 end) targets [host_ipv4 h; host_ipv6 h]) [] document.(hosts).
