(* ===== verification/FindModels.v ===== *)
(** * Findings: severities, drafts and evaluation inputs

    [findings/models.py] with the records it evaluates: protocol observations
    ([protocol_audits/models.py]) and services ([inventory/models.py]). *)

From S2P Require Import Prelude PyBase PyText.

(** ** Enumerations *)

Inductive Severity : Type := CRITICAL | HIGH | MEDIUM | LOW | INFO.

(** [engine.passive_models.ConfidenceLevel] *)
Inductive ConfidenceLevel : Type :=
  | CONF_CONFIRMED | CONF_HIGH | CONF_MEDIUM | CONF_LOW | CONF_HINT | CONF_UNKNOWN.

Inductive FindingStatus : Type := OPEN | SUPPRESSED | ACCEPTED_RISK.

#[export] Instance Severity_eq_dec : EqDecision Severity.
Proof. solve_decision. Defined.
#[export] Instance ConfidenceLevel_eq_dec : EqDecision ConfidenceLevel.
Proof. solve_decision. Defined.
#[export] Instance FindingStatus_eq_dec : EqDecision FindingStatus.
Proof. solve_decision. Defined.

Definition Severity_value (s : Severity) : string :=
  match s with
  | CRITICAL => "critical" | HIGH => "high" | MEDIUM => "medium" | LOW => "low" | INFO => "info"
  end.

(** [Severity(value)] *)
Definition Severity_of (value : string) : option Severity :=
  find_first (fun s => String.eqb (Severity_value s) value) [CRITICAL; HIGH; MEDIUM; LOW; INFO].

Definition SEVERITY_RANK (s : Severity) : Z :=
  match s with CRITICAL => 0 | HIGH => 1 | MEDIUM => 2 | LOW => 3 | INFO => 4 end.

Definition CONFIDENCE_RANK (c : ConfidenceLevel) : Z :=
  match c with
  | CONF_CONFIRMED => 0 | CONF_HIGH => 1 | CONF_MEDIUM => 2 | CONF_LOW => 3 | CONF_HINT => 4
  | CONF_UNKNOWN => 5
  end.

Definition FINDING_SCHEMA_VERSION : Z := 1.
Definition MAX_FINDING_DATA_BYTES : Z := 12288.
Definition MAX_TITLE : Z := 256.
Definition MAX_TEXT : Z := 4096.
Definition MAX_DEDUPE_KEY : Z := 128.
Definition MAX_OBSERVATION_LINKS : nat := 64.

Definition NON_EVIDENCE_KINDS : list string :=
  ["cancelled"; "tool_timeout"; "tool_unavailable"; "empty_output"; "tool_failed";
   "malformed_output"; "dns_unreachable"].

(** ** Inputs *)

(** [inventory.models.ServiceRecord] *)
Record ServiceRecord : Type := mkService {
  service_id : string;
  service_audit_id : string;
  service_asset_id : string;
  service_protocol : string;
  service_port : Z;
  service_state : string;
  service_reason : option string;
  service_name : option string;
  service_product : option string;
  service_version : option string;
  service_extra_info : option string;
  service_tunnel : option string;
  service_cpe : list string;
  service_banner : option string;
  service_method : option string;
  service_confidence : ConfidenceLevel;
  service_source : string;
  service_first_seen : datetime;
  service_last_seen : datetime
}.
#[export] Instance eta_ServiceRecord : Eta ServiceRecord := fun r =>
  mkService r.(service_id) r.(service_audit_id) r.(service_asset_id) r.(service_protocol)
    r.(service_port) r.(service_state) r.(service_reason) r.(service_name) r.(service_product)
    r.(service_version) r.(service_extra_info) r.(service_tunnel) r.(service_cpe)
    r.(service_banner) r.(service_method) r.(service_confidence) r.(service_source)
    r.(service_first_seen) r.(service_last_seen).

(** [protocol_audits.models.ProtocolObservationRecord] *)
Record ProtocolObservationRecord : Type := mkObservation {
  obs_id : string;
  obs_audit_id : string;
  obs_asset_id : string;
  obs_service_id : string;
  obs_protocol : string;
  obs_module : string;
  obs_kind : string;
  obs_data : dict;
  obs_confidence : ConfidenceLevel;
  obs_source : string;
  obs_evidence_artifact_id : option string;
  obs_first_seen : datetime;
  obs_last_seen : datetime
}.
#[export] Instance eta_ProtocolObservationRecord : Eta ProtocolObservationRecord := fun r =>
  mkObservation r.(obs_id) r.(obs_audit_id) r.(obs_asset_id) r.(obs_service_id) r.(obs_protocol)
    r.(obs_module) r.(obs_kind) r.(obs_data) r.(obs_confidence) r.(obs_source)
    r.(obs_evidence_artifact_id) r.(obs_first_seen) r.(obs_last_seen).

(** [EvaluationContext], less the asset records, which no rule reads. *)
Record EvaluationContext : Type := mkEvaluation {
  eval_audit_id : string;
  observations : list ProtocolObservationRecord;
  services : list ServiceRecord;
  passive_result : option dict;
  passive_artifact_id : option string;
  evaluated_at : datetime
}.
#[export] Instance eta_EvaluationContext : Eta EvaluationContext := fun r =>
  mkEvaluation r.(eval_audit_id) r.(observations) r.(services) r.(passive_result)
    r.(passive_artifact_id) r.(evaluated_at).

(** ** Drafts *)

(** [FindingDraft] *)
Record FindingDraft : Type := mkDraft {
  rule_id : string;
  rule_version : string;
  family : string;
  title : string;
  severity : Severity;
  confidence : ConfidenceLevel;
  asset_id : option string;
  draft_service_id : option string;
  description : string;
  rationale : string;
  recommendation : string;
  data : dict;
  observation_ids : list string;
  evidence_artifact_ids : list string;
  dedupe_key : string
}.
#[export] Instance eta_FindingDraft : Eta FindingDraft := fun r =>
  mkDraft r.(rule_id) r.(rule_version) r.(family) r.(title) r.(severity) r.(confidence)
    r.(asset_id) r.(draft_service_id) r.(description) r.(rationale) r.(recommendation) r.(data)
    r.(observation_ids) r.(evidence_artifact_ids) r.(dedupe_key).

(** [Field(min_length=1, max_length=n)] *)
Definition field_ok (n : Z) (s : string) : bool := (1 <=? str_len s) && (str_len s <=? n).

(** The constraints pydantic checks when a draft is built; the first field that
    fails. *)
Definition draft_violation (d : FindingDraft) : option string :=
  find_first (fun _ => true) (omap (fun '(name, limit, value) =>
    if field_ok limit value then None else Some name)
  [("rule_id", 64, d.(rule_id)); ("rule_version", 16, d.(rule_version));
   ("family", 32, d.(family)); ("title", MAX_TITLE, d.(title));
   ("description", MAX_TEXT, d.(description)); ("rationale", MAX_TEXT, d.(rationale));
   ("recommendation", MAX_TEXT, d.(recommendation));
   ("dedupe_key", MAX_DEDUPE_KEY, d.(dedupe_key))]).

(** [FindingDraft(...)] *)
Definition build_draft (d : FindingDraft) : outcome PyExc FindingDraft :=
  match draft_violation d with
  | Some name => Raise (ValidationError name)
  | None => Return d
  end.
