(* ===== verification/FindCopy.v ===== *)
(** * Operator-facing texts of findings ([findings/copy.py])

    Titles, descriptions and recommendations as the catalog has them, and the
    rationales built from observed values. *)

From S2P Require Import Prelude PyBase PyText.

Record FindingCopy : Type := mkCopy {
  copy_title : string;
  copy_description : string;
  copy_recommendation : string
}.

Definition SSH_WEAK : FindingCopy := mkCopy
  "Предлагаются слабые алгоритмы SSH"
  "Служба SSH объявляет заведомо слабые алгоритмы обмена ключами, ключа узла, шифрования или MAC."
  "Отключите SHA-1, CBC, RC4, 3DES, DSS и связанные устаревшие алгоритмы. Предпочитайте curve25519, rsa-sha2, AES-GCM или chacha20-poly1305 и MAC на SHA-2.".

Definition TLS_LEGACY : FindingCopy := mkCopy
  "Согласован устаревший протокол TLS"
  "Рукопожатие TLS согласовало протокол старше TLS 1.2."
  "Отключите SSLv3, TLS 1.0 и TLS 1.1. Оставляйте только TLS 1.2 и TLS 1.3.".

Definition TLS_WEAK_CIPHER : FindingCopy := mkCopy
  "Согласован слабый шифр TLS"
  "Рукопожатие TLS выбрало набор шифров с NULL, EXPORT, RC4, DES, 3DES, MD5 или анонимным DH."
  "Отключите устаревшие наборы шифров и предпочитайте AEAD, например AES-GCM или ChaCha20-Poly1305.".

Definition TLS_CERT_EXPIRED : FindingCopy := mkCopy
  "Срок действия сертификата TLS истёк"
  "Дата notAfter предъявленного сертификата TLS раньше времени оценки."
  "Замените сертификат до истечения срока и автоматизируйте продление.".

Definition TLS_CERT_UNTRUSTED : FindingCopy := mkCopy
  "Сертификат TLS не прошёл проверку"
  "OpenSSL вернул ненулевой код проверки сертификата для этой службы."
  "Установите сертификат, выданный доверенным УЦ, либо задокументируйте закрытый PKI, если это ожидаемый внутренний якорь доверия.".

Definition HTTP_MISSING_HSTS : FindingCopy := mkCopy
  "Служба HTTPS не отдаёт HSTS"
  "Ответ HTTPS не содержал заголовок Strict-Transport-Security."
  "Отправляйте Strict-Transport-Security с консервативным max-age на слушателях HTTPS. Не включайте HSTS на обычном HTTP.".

Definition HTTP_MISSING_HEADERS : FindingCopy := mkCopy
  "Неполные заголовки безопасности HTTP"
  "Ответ HTTP не содержал обычных заголовков против clickjacking или политики содержимого."
  "Добавьте Content-Security-Policy и либо X-Frame-Options, либо CSP frame-ancestors.".

Definition HTTP_SERVER_DISCLOSURE : FindingCopy := mkCopy
  "Раскрывается идентичность HTTP-сервера"
  "Ответ HTTP содержит Server или X-Powered-By."
  "Уберите или обезличьте Server и X-Powered-By, если они не нужны для совместимости.".

Definition SMB_NULL_SESSION : FindingCopy := mkCopy
  "Принята нулевая сессия SMB"
  "Неаутентифицированный просмотр SMB к этой службе завершился успешно."
  "Отключите анонимные/нулевые сессии SMB и ограничьте перечень ресурсов аутентифицированными пользователями.".

Definition SMB_SIGNING : FindingCopy := mkCopy
  "Подпись SMB не обязательна"
  "Нормализованные наблюдения SMB указывают, что подпись отключена или не требуется."
  "Требуйте подпись SMB на этой службе.".

Definition SMB_LEGACY : FindingCopy := mkCopy
  "Предлагается устаревший диалект SMB"
  "Служба, по-видимому, предлагает SMBv1 или LANMAN."
  "Отключите SMBv1 и другие устаревшие диалекты.".

Definition DNS_RECURSION : FindingCopy := mkCopy
  "Доступна рекурсия DNS"
  "Резолвер установил флаг Recursion Available."
  "Отключите рекурсию на авторитативных серверах либо ограничьте рекурсивный сервис доверенными клиентами.".

Definition DNS_VERSION : FindingCopy := mkCopy
  "Раскрывается идентичность DNS CHAOS"
  "Резолвер ответил на запросы идентичности CHAOS TXT."
  "Отключите ответы CHAOS version.bind / id.server, если они не нужны для эксплуатации.".

Definition SNMP_UNAUTH : FindingCopy := mkCopy
  "SNMP ответил без аутентификации"
  "Зонд SNMPv3 noAuthNoPriv получил ответ."
  "Требуйте аутентификацию и конфиденциальность SNMPv3 и ограничьте SNMP сетями управления. Подбор community не входит в профиль по умолчанию.".

Definition LDAP_ANON : FindingCopy := mkCopy
  "Разрешён анонимный bind LDAP"
  "Анонимный поиск LDAP вернул атрибуты naming context каталога."
  "Отключите анонимный bind либо ограничьте раскрытие root DSE аутентифицированными клиентами.".

Definition LLMNR : FindingCopy := mkCopy
  "Наблюдалось разрешение имён LLMNR"
  "Пассивный захват зафиксировал LLMNR, уязвимый к подмене имён в локальном сегменте."
  "Отключите LLMNR на конечных узлах и предпочитайте аутентифицированный DNS.".

Definition NBNS : FindingCopy := mkCopy
  "Наблюдалась служба имён NetBIOS"
  "Пассивный захват зафиксировал трафик NBNS/NetBIOS Name Service."
  "Отключите разрешение имён NetBIOS там, где оно не используется, и рассматривайте NBNS как локальный протокол, подверженный отравлению.".

Definition MULTIPLE_DHCP : FindingCopy := mkCopy
  "Наблюдалось несколько DHCP-серверов"
  "Пассивные наблюдения DHCP содержат более одного идентификатора сервера."
  "Проверьте, уполномочены ли несколько DHCP-серверов в этом сегменте. Посторонний DHCP — типичный риск ЛВС.".

Definition ssh_rationale (families : string) : string :=
  "Нормализованные наблюдения ssh_algorithms перечислили слабые алгоритмы в: " +:+
  families +:+
  ".".

Definition tls_legacy_rationale (protocol : string) : string :=
  "Наблюдения tls_session зафиксировали протокол " +:+
  protocol +:+
  ".".

Definition tls_cipher_rationale (cipher : string) : string :=
  "Наблюдения tls_session зафиксировали шифр " +:+
  cipher +:+
  ".".

Definition tls_expired_rationale (not_after : pyval) (evaluated_at : string) : string :=
  "tls_certificate.not_after равен " +:+
  py_str not_after +:+
  ", время оценки — " +:+
  evaluated_at +:+
  ".".

Definition tls_untrusted_rationale (verify_code verify_message : pyval) : string :=
  "tls_certificate.verify_code равен " +:+
  py_str verify_code +:+
  " (" +:+
  py_str verify_message +:+
  ").".

Definition http_hsts_rationale : string :=
  "Заголовки http_response нормализованы и не содержат strict-transport-security на службе HTTPS.".

Definition http_headers_rationale (missing : string) : string :=
  "Заголовки http_response не содержат: " +:+
  missing +:+
  ".".

Definition http_disclosure_rationale (disclosed : string) : string :=
  "Заголовки http_response зафиксировали " +:+
  disclosed +:+
  ".".

Definition smb_null_rationale (share_count : pyval) : string :=
  let extra := if negb (is_none share_count) then " с " +:+ py_str share_count +:+ " ресурсами" else EmptyString in
  "smb_null_session.accepted равен true" +:+
  extra +:+
  ".".

Definition smb_signing_rationale : string :=
  "Поле smb signing указывает, что подпись выключена.".

Definition smb_dialect_rationale (dialect : pyval) : string :=
  "Нормализованное поле dialect равно " +:+
  py_str dialect +:+
  ".".

Definition dns_recursion_rationale (flags : pyval) : string :=
  let extra := if truthy flags then " с флагами " +:+ py_str flags else EmptyString in
  "dns_flags.recursion_available равен true" +:+
  extra +:+
  ".".

Definition dns_identity_rationale (version hostname : pyval) : string :=
  "dns_identity зафиксировал version=" +:+
  py_repr version +:+
  " hostname=" +:+
  py_repr hostname +:+
  ".".

Definition snmp_rationale (usm_indicator : pyval) : string :=
  let extra := if truthy usm_indicator then " (usm_indicator=" +:+ py_str usm_indicator +:+ ")" else EmptyString in
  "snmp_unauthenticated.responded равен true" +:+
  extra +:+
  ".".

Definition ldap_rationale : string :=
  "ldap_rootdse/ldap_anonymous_bind.anonymous_bind равен true.".

Definition management_title (name : string) : string :=
  "Открыта небезопасная служба управления " +:+
  name.

Definition management_description (name protocol : string) (port : Z) : string :=
  "В инвентаре зафиксирована открытая служба " +:+
  name +:+
  " на " +:+
  protocol +:+
  "/" +:+
  str_int port +:+
  ".".

Definition management_rationale (service_name protocol : string) (port : Z) : string :=
  "Нормализованная служба инвентаря " +:+
  service_name +:+
  " открыта на " +:+
  protocol +:+
  "/" +:+
  str_int port +:+
  ". Это не результат протокольного аудита; служба не подвергалась перебору.".

Definition management_recommendation (name : string) : string :=
  "Отключите " +:+
  name +:+
  " в продуктивных сетях либо ограничьте её выделенной плоскостью управления с аутентификацией.".

Definition infra_rationale (sensor status : string) (hits : Z) : string :=
  "Сохранённый пассивный датчик " +:+
  sensor +:+
  " status=" +:+
  status +:+
  " hits=" +:+
  str_int hits +:+
  ".".

Definition dhcp_rationale (count : Z) : string :=
  "Нормализованная сводка датчика dhcpv4 перечислила " +:+
  str_int count +:+
  " различных идентификаторов серверов.".

(** The static texts by rule. *)
Definition STATIC_COPY : list (string * FindingCopy) :=
  [("WS-SSH-WEAK-ALGORITHMS", SSH_WEAK);
   ("WS-TLS-LEGACY-PROTOCOL", TLS_LEGACY);
   ("WS-TLS-WEAK-CIPHER", TLS_WEAK_CIPHER);
   ("WS-TLS-CERT-EXPIRED", TLS_CERT_EXPIRED);
   ("WS-TLS-CERT-UNTRUSTED", TLS_CERT_UNTRUSTED);
   ("WS-HTTP-MISSING-HSTS", HTTP_MISSING_HSTS);
   ("WS-HTTP-MISSING-SECURITY-HEADERS", HTTP_MISSING_HEADERS);
   ("WS-HTTP-SERVER-DISCLOSURE", HTTP_SERVER_DISCLOSURE);
   ("WS-SMB-NULL-SESSION", SMB_NULL_SESSION);
   ("WS-SMB-SIGNING-DISABLED", SMB_SIGNING);
   ("WS-SMB-LEGACY-DIALECT", SMB_LEGACY);
   ("WS-DNS-RECURSION", DNS_RECURSION);
   ("WS-DNS-VERSION-DISCLOSED", DNS_VERSION);
   ("WS-SNMP-UNAUTHENTICATED", SNMP_UNAUTH);
   ("WS-LDAP-ANONYMOUS-BIND", LDAP_ANON);
   ("WS-INFRA-LLMNR", LLMNR);
   ("WS-INFRA-NBNS", NBNS);
   ("WS-INFRA-MULTIPLE-DHCP", MULTIPLE_DHCP)].

(** ** Catalogs of weak algorithms and insecure services ([findings/catalog.py]) *)

Definition WEAK_SSH_KEX : list string :=
  ["diffie-hellman-group1-sha1"; "diffie-hellman-group14-sha1";
   "diffie-hellman-group-exchange-sha1"; "ecdsa-sha2-nistp256-sha1"].

Definition WEAK_SSH_HOST_KEY : list string :=
  ["ssh-dss"; "ssh-dsa"; "ssh-rsa"; "ecdsa-sha2-nistp256"; "ecdsa-sha2-nistp384";
   "ecdsa-sha2-nistp521"].

Definition WEAK_SSH_ENCRYPTION : list string :=
  ["3des-cbc"; "aes128-cbc"; "aes192-cbc"; "aes256-cbc"; "arcfour"; "arcfour128"; "arcfour256";
   "blowfish-cbc"; "cast128-cbc"; "des-cbc"; "rijndael-cbc@lysator.liu.se"].

Definition WEAK_SSH_MAC : list string :=
  ["hmac-md5"; "hmac-md5-96"; "hmac-sha1"; "hmac-sha1-96"; "hmac-sha1-etm@openssh.com";
   "hmac-md5-etm@openssh.com"; "umac-64@openssh.com"; "umac-64-etm@openssh.com"].

Definition WEAK_SSH_BY_FAMILY : list (string * list string) :=
  [("kex", WEAK_SSH_KEX); ("host_key", WEAK_SSH_HOST_KEY); ("encryption", WEAK_SSH_ENCRYPTION);
   ("mac", WEAK_SSH_MAC)].

Definition LEGACY_TLS_PROTOCOLS : list string :=
  ["ssl"; "sslv2"; "sslv3"; "ssl2"; "ssl3"; "tlsv1"; "tlsv1.0"; "tls1"; "tls1.0"; "tlsv1.1";
   "tls1.1"].

Definition TLS1_0_TOKENS : list string :=
  ["tlsv1"; "tlsv1.0"; "tls1"; "tls1.0"].

Definition SSL_TOKENS : list string :=
  ["ssl"; "sslv2"; "sslv3"; "ssl2"; "ssl3"].

Definition WEAK_TLS_CIPHER_TOKENS : list string :=
  ["RC4"; "DES"; "3DES"; "NULL"; "EXPORT"; "EXP"; "MD5"; "ADH"; "AECDH"; "PSK-NULL"; "IDEA"].

Definition LEGACY_SMB_DIALECTS : list string :=
  ["smb1"; "smb 1"; "smb1.0"; "nt lm 0.12"; "ntlm 0.12"; "lanman"; "lanman1.0"; "lanman2.1"].

Definition INSECURE_MANAGEMENT_NAMES : list string :=
  ["telnet"; "ftp"; "tftp"; "rsh"; "rlogin"; "rexec"; "finger"; "exec"; "login"; "shell";
   "chargen"; "discard"; "echo"].

Definition INSECURE_MANAGEMENT_PORTS : list (Z * string * (string * string)) :=
  [(21, "tcp", ("ftp", "high")); (23, "tcp", ("telnet", "high"));
   (69, "udp", ("tftp", "medium")); (69, "tcp", ("tftp", "medium"));
   (512, "tcp", ("rexec", "high")); (513, "tcp", ("rlogin", "high"));
   (514, "tcp", ("rsh", "high")); (79, "tcp", ("finger", "low"))].

Definition NAME_SEVERITY : list (string * string) :=
  [("telnet", "high"); ("ftp", "high"); ("tftp", "medium"); ("rsh", "high"); ("rlogin", "high");
   ("rexec", "high"); ("finger", "low"); ("exec", "high"); ("login", "high"); ("shell", "high");
   ("chargen", "medium"); ("discard", "low"); ("echo", "low")].

Definition HTTPS_PORTS : list Z :=
  [443; 8443; 9443].

Definition HTTPS_NAMES : list string :=
  ["https"; "https-alt"; "ssl/http"; "http-alt"].

Definition SMB_SIGNING_DISABLED : list string :=
  ["disabled"; "not required"; "not-required"; "false"; "off"; "no"; "unsigned"].
