(* ===== verification/FindDates.v ===== *)
(** * Certificate dates ([_parse_time] of [findings/rules/tls.py])

    A datetime is its microseconds since 1970-01-01T00:00Z.  The two [strptime]
    formats and the [email.utils] fallback are modelled on the interpreter's own
    code, in the C locale; the names of the host's time zone, which [%Z] accepts,
    are a parameter. *)

From S2P Require Import Prelude PyBase PyText.

(** ** The calendar of [datetime] *)

Definition is_leap (y : Z) : bool :=
  (y mod 4 =? 0) && (negb (y mod 100 =? 0) || (y mod 400 =? 0)).

Definition month_lengths (y : Z) : list Z :=
  [31; if is_leap y then 29 else 28; 31; 30; 31; 30; 31; 31; 30; 31; 30; 31].

Definition days_in_month (y m : Z) : Z := default 0 (month_lengths y !! Z.to_nat (m - 1)).

Definition days_before_month (y m : Z) : Z :=
  foldr Z.add 0 (take (Z.to_nat (m - 1)) (month_lengths y)).

Definition days_before_year (y : Z) : Z :=
  let y := y - 1 in 365 * y + y / 4 - y / 100 + y / 400.

(** [date.toordinal()] *)
Definition toordinal (y m d : Z) : Z := days_before_year y + days_before_month y m + d.

Definition EPOCH_ORDINAL : Z := 719163.

(** [datetime(y, mo, d, h, mi, s)] at offset [offset] seconds from UTC.  Arguments
    beyond a C int overflow before any range check. *)
Definition c_int (n : Z) : bool := (- 2 ^ 31 <=? n) && (n <? 2 ^ 31).

Definition make_datetime (y mo d h mi s offset : Z) : outcome PyExc datetime :=
  if negb (forallb c_int [y; mo; d; h; mi; s]) then
    Raise (PyOverflowError "Python int too large to convert to C int")
  else if (1 <=? y) && (y <=? 9999) && (1 <=? mo) && (mo <=? 12) &&
          (1 <=? d) && (d <=? days_in_month y mo) &&
          (0 <=? h) && (h <=? 23) && (0 <=? mi) && (mi <=? 59) && (0 <=? s) && (s <=? 59) then
    Return (((toordinal y mo d - EPOCH_ORDINAL) * 86400 + h * 3600 + mi * 60 + s - offset)
              * 1000000)
  else Raise (PyValueError "datetime argument out of range").

(** [timezone(timedelta(seconds=n))]: the offset, strictly within a day. *)
Definition fixed_offset (n : Z) : outcome PyExc Z :=
  if 999999999 <? Z.abs (n / 86400) then
    Raise (PyOverflowError "days out of range")
  else if Z.abs n <? 86400 then Return n
  else Raise (PyValueError "offset must be strictly between -24h and 24h").

(** ** [datetime.strptime(s, "%b %d %H:%M:%S %Y[ %Z]")] *)

Definition MONTH_ABBR : list string :=
  ["jan"; "feb"; "mar"; "apr"; "may"; "jun"; "jul"; "aug"; "sep"; "oct"; "nov"; "dec"].

Fixpoint index_of (x : string) (l : list string) : option nat :=
  match l with
  | [] => None
  | y :: l' => if String.eqb x y then Some O else S <$> index_of x l'
  end.

(** One or two digits. *)
Definition short_number (s : string) : option Z :=
  match s with
  | String a EmptyString => if is_digit a then Some (digit_value a) else None
  | String a (String b EmptyString) =>
      if is_digit a && is_digit b then Some (10 * digit_value a + digit_value b) else None
  | _ => None
  end.

Definition ranged (lo hi : Z) (s : string) : option Z :=
  n ← short_number s; if (lo <=? n) && (n <=? hi) then Some n else None.

(** [%Y]: four digits. *)
Definition four_digits (s : string) : option Z :=
  match s with
  | String a (String b (String c (String d EmptyString))) =>
      if is_digit a && is_digit b && is_digit c && is_digit d
      then Some (1000 * digit_value a + 100 * digit_value b + 10 * digit_value c + digit_value d)
      else None
  | _ => None
  end.

Section dates.
(** [time.tzname] of the host, in lower case. *)
Context (host_zones : list string).

Definition zone_name (s : string) : bool :=
  existsb (String.eqb (lower s)) (["utc"; "gmt"] ++ host_zones).

(** The match of a format against the words of the text; [zone] when it ends in
    [%Z].  The value is naive, so it is read as UTC. *)
Definition strptime (zone : bool) (ws : list string) : option datetime :=
  match ws with
  | b :: d :: t :: y :: rest =>
      month ← index_of (lower b) MONTH_ABBR;
      day ← ranged 1 31 d;
      '(h, m, s) ← match split_on (chr 58) t with
                   | [h; m; s] =>
                       h ← ranged 0 23 h; m ← ranged 0 59 m; s ← ranged 0 61 s;
                       Some (h, m, s)
                   | _ => None
                   end;
      year ← four_digits y;
      if (if zone then match rest with [] => false | _ => zone_name (join " " rest) end
          else match rest with [] => true | _ => false end)
      then match make_datetime year (Z.of_nat month + 1) day h m s 0 with
           | Return t => Some t
           | Raise _ => None
           end
      else None
  | _ => None
  end.

End dates.

(** ** [email.utils.parsedate_to_datetime] *)

Definition MONTH_NAMES : list string :=
  MONTH_ABBR ++ ["january"; "february"; "march"; "april"; "may"; "june"; "july";
                 "august"; "september"; "october"; "november"; "december"].

Definition DAY_NAMES : list string := ["mon"; "tue"; "wed"; "thu"; "fri"; "sat"; "sun"].

Definition TIMEZONES : list (string * Z) :=
  [("UT", 0); ("UTC", 0); ("GMT", 0); ("Z", 0); ("AST", -400); ("ADT", -300); ("EST", -500);
   ("EDT", -400); ("CST", -600); ("CDT", -500); ("MST", -700); ("MDT", -600); ("PST", -800);
   ("PDT", -700)].

Definition comma : ascii := chr 44.
Definition ends_with (c : ascii) (s : string) : bool :=
  match last_char s with Some c' => Ascii.eqb c c' | None => false end.

(** [s[s.rfind(c)+1:]] *)
Fixpoint after_last (c : ascii) (s : string) : string :=
  match s with
  | EmptyString => EmptyString
  | String x s' => if has_char c s' then after_last c s'
                   else if Ascii.eqb x c then s' else String x s'
  end.

(** The day name, or what precedes a comma in the first word, is dropped. *)
Definition drop_day (ws : list string) : list string :=
  match ws with
  | [] => []
  | w :: rest =>
      if ends_with comma w || existsb (String.eqb (lower w)) DAY_NAMES then rest
      else (if has_char comma w then after_last comma w else w) :: rest
  end.

(** An RFC 850 date [dd-mon-yy] becomes three words. *)
Definition split_dashes (ws : list string) : list string :=
  match ws with
  | [w; _; _] => match split_on (chr 45) w with
                 | [_; _; _] as stuff => stuff ++ tail ws
                 | _ => ws
                 end
  | _ => ws
  end.

(** With four words the zone is glued to the time, or missing. *)
Definition split_zone (ws : list string) : list string :=
  match ws with
  | [a; b; c; s] =>
      let i := match find_char (chr 43) s with
               | Some i => Some i
               | None => find_char (chr 45) s
               end in
      match i with
      | Some (S i) => [a; b; c; String.substring 0 (S i) s;
                       String.substring (S i) (String.length s - S i) s]
      | _ => ws ++ [EmptyString]
      end
  | _ => ws
  end.

(** Month and day, in either order. *)
Definition month_and_day (dd mm : string) : option (Z * string) :=
  let mm := lower mm in
  let number (i : nat) := let m := Z.of_nat i + 1 in if 12 <? m then m - 12 else m in
  match index_of mm MONTH_NAMES with
  | Some i => Some (number i, dd)
  | None => match index_of (lower dd) MONTH_NAMES with
            | Some i => Some (number i, mm)
            | None => None
            end
  end.

Definition drop_comma (s : string) : string := if ends_with comma s then drop_last s else s.

(** Hour, minute and second, as text. *)
Definition time_fields (tm : string) : option (string * string * string) :=
  match split_on (chr 58) tm with
  | [h; m] => Some (h, m, "0")
  | [h; m; s] => Some (h, m, s)
  | [w] => if has_char (chr 46) w then
             match split_on (chr 46) w with
             | [h; m] => Some (h, m, "0")
             | [h; m; s] => Some (h, m, s)
             | _ => None
             end
           else None
  | _ => None
  end.

(** The offset in seconds; [None] for an unknown or "-0000" zone. *)
Definition zone_offset (tz : string) : option Z :=
  let tz := upper tz in
  let o := match dict_get TIMEZONES tz with
           | Some o => Some o
           | None => match int_of_str tz with
                     | Some o => if (o =? 0) && startswith tz "-" then None else Some o
                     | None => None
                     end
           end in
  (fun o => Z.sgn o * ((Z.abs o / 100) * 3600 + (Z.abs o mod 100) * 60)) <$> o.

(** [_parsedate_tz]: year, month, day, hour, minute, second, offset.  [None] also
    stands for the IndexError of an empty field. *)
Definition parsedate_tz (text : string) : option (Z * Z * Z * Z * Z * Z * option Z) :=
  match split_zone (split_dashes (drop_day (split_ws text))) with
  | dd :: mm :: yy :: tm :: tz :: _ =>
      if String.eqb dd EmptyString || String.eqb mm EmptyString || String.eqb yy EmptyString
      then None
      else
        '(month, dd) ← month_and_day dd mm;
        let dd := drop_comma dd in
        let '(yy, tm) := match find_char (chr 58) yy with
                         | Some (S _) => (tm, yy)
                         | _ => (yy, tm)
                         end in
        let yy := drop_comma yy in
        match yy with
        | EmptyString => None
        | String c _ =>
            let '(yy, tz) := if is_digit c then (yy, tz) else (tz, yy) in
            if String.eqb tm EmptyString then None
            else
              '(h, m, s) ← time_fields (drop_comma tm);
              yy ← int_of_str yy; dd ← int_of_str dd;
              h ← int_of_str h; m ← int_of_str m; s ← int_of_str s;
              let yy := if yy <? 100 then (if 68 <? yy then yy + 1900 else yy + 2000) else yy in
              Some (yy, month, dd, h, m, s, zone_offset tz)
        end
  | _ => None
  end.

(** [parsedate_to_datetime], a naive result read as UTC. *)
Definition parsedate_to_datetime (text : string) : outcome PyExc datetime :=
  match parsedate_tz text with
  | None => Raise (PyValueError "Invalid date value or format")
  | Some (y, mo, d, h, mi, s, None) => make_datetime y mo d h mi s 0
  | Some (y, mo, d, h, mi, s, Some tz) =>
      offset ← fixed_offset tz;
      make_datetime y mo d h mi s offset
  end.

(** ** [_parse_time] *)

Definition parse_time (host_zones : list string) (value : pyval)
    : outcome PyExc (option datetime) :=
  match value with
  | PStr s =>
      match split_ws s with
      | [] => Return None
      | ws =>
          match strptime host_zones true ws with
          | Some t => Return (Some t)
          | None =>
              match strptime host_zones false ws with
              | Some t => Return (Some t)
              | None =>
                  match parsedate_to_datetime (join " " ws) with
                  | Return t => Return (Some t)
                  | Raise (PyOverflowError m) => Raise (PyOverflowError m)
                  | Raise _ => Return None
                  end
              end
          end
      end
  | _ => Return None
  end.

(** ** [datetime.isoformat()] of a UTC datetime *)

(** [date.fromordinal]: year, month, day. *)
Definition fromordinal (n : Z) : Z * Z * Z :=
  let n := n - 1 in
  let n400 := n / 146097 in let n := n mod 146097 in
  let year := n400 * 400 + 1 in
  let n100 := n / 36524 in let n := n mod 36524 in
  let n4 := n / 1461 in let n := n mod 1461 in
  let n1 := n / 365 in let n := n mod 365 in
  let year := year + n100 * 100 + n4 * 4 + n1 in
  if (n1 =? 4) || (n100 =? 4) then (year - 1, 12, 31)
  else
    let leap := (n1 =? 3) && (negb (n4 =? 24) || (n100 =? 3)) in
    (fix go (m : Z) (lengths : list Z) (n : Z) : Z * Z * Z :=
       match lengths with
       | [] => (year, m, n + 1)
       | l :: rest => if n <? l then (year, m, n + 1) else go (m + 1) rest (n - l)
       end) 1 [31; if leap then 29 else 28; 31; 30; 31; 30; 31; 31; 30; 31; 30; 31] n.

Fixpoint zeros (n : nat) : string :=
  match n with O => EmptyString | S n => String (chr 48) (zeros n) end.
Definition pad (width : nat) (n : Z) : string :=
  let s := str_int n in zeros (width - String.length s) +:+ s.

Definition isoformat (t : datetime) : string :=
  let seconds := t / 1000000 in let micro := t mod 1000000 in
  let day := seconds / 86400 in let sec := seconds mod 86400 in
  let '(y, m, d) := fromordinal (day + EPOCH_ORDINAL) in
  pad 4 y +:+ "-" +:+ pad 2 m +:+ "-" +:+ pad 2 d +:+ "T" +:+ pad 2 (sec / 3600) +:+ ":" +:+
  pad 2 (sec / 60 mod 60) +:+ ":" +:+ pad 2 (sec mod 60) +:+
  (if micro =? 0 then EmptyString else "." +:+ pad 6 micro) +:+ "+00:00".
