(* ===== verification/FindRules.v ===== *)
(** * Finding rules: shared helpers and the rules over protocol observations
      ([findings/rules/])

    A rule reads the evaluation context and returns the drafts it emits.  It may
    raise: pydantic refuses an over-long draft, and some conversions fail. *)

From S2P Require Import Prelude PyBase PyText FindModels FindCopy FindDates.

(** ** Loops *)

(** [for x in l:] with a body that may [continue] ([None]) or append one item. *)
Fixpoint collect {E A B} (body : A → outcome E (option B)) (l : list A) : outcome E (list B) :=
  match l with
  | [] => mret []
  | x :: l' =>
      r ← body x;
      rest ← collect body l';
      mret (match r with Some b => b :: rest | None => rest end)
  end.

(** [[x for x in l if p(x)]] with a test that may raise. *)
Fixpoint filter_or_raise {E A} (p : A → outcome E bool) (l : list A) : outcome E (list A) :=
  match l with
  | [] => mret []
  | x :: l' =>
      b ← p x;
      rest ← filter_or_raise p l';
      mret (if b : bool then x :: rest else rest)
  end.

(** ** [rules/base.py] *)

Definition usable_observations (context : EvaluationContext) (kinds : option (list string))
    : list ProtocolObservationRecord :=
  List.filter (fun item =>
    negb (str_in item.(obs_kind) NON_EVIDENCE_KINDS) &&
    match kinds with Some allowed => str_in item.(obs_kind) allowed | None => true end)
    context.(observations).

Definition service_map (context : EvaluationContext) : list (string * ServiceRecord) :=
  foldl (fun m item => dict_set m item.(service_id) item) [] context.(services).

(** Both loops stop once they hold [MAX_OBSERVATION_LINKS] items. *)
Fixpoint observation_evidence_from (ordered : list string)
    (items : list ProtocolObservationRecord) : list string :=
  match items with
  | [] => ordered
  | item :: items' =>
      let ordered := match item.(obs_evidence_artifact_id) with
                     | Some (String _ _ as artifact) => append_new ordered artifact
                     | _ => ordered
                     end in
      if (MAX_OBSERVATION_LINKS <=? length ordered)%nat then ordered
      else observation_evidence_from ordered items'
  end.
Definition observation_evidence : list ProtocolObservationRecord → list string :=
  observation_evidence_from [].

Fixpoint observation_ids_from (ordered : list string)
    (items : list ProtocolObservationRecord) : list string :=
  match items with
  | [] => ordered
  | item :: items' =>
      let ordered := append_new ordered item.(obs_id) in
      if (MAX_OBSERVATION_LINKS <=? length ordered)%nat then ordered
      else observation_ids_from ordered items'
  end.
Definition observation_ids_of : list ProtocolObservationRecord → list string :=
  observation_ids_from [].

Definition service_dedupe_key (observation : ProtocolObservationRecord) : string :=
  observation.(obs_asset_id) +:+ ":" +:+ observation.(obs_service_id).

Definition inventory_dedupe_key (service : ServiceRecord) : string :=
  service.(service_asset_id) +:+ ":" +:+ service.(service_id).

(** The groups in order of their first item; items of a group in input order. *)
Definition group_key (item : ProtocolObservationRecord) : string * string :=
  (item.(obs_asset_id), item.(obs_service_id)).

Fixpoint add_to_group (groups : list ((string * string) * list ProtocolObservationRecord))
    (item : ProtocolObservationRecord) : list ((string * string) * list ProtocolObservationRecord) :=
  match groups with
  | [] => [(group_key item, [item])]
  | (k, g) :: groups' =>
      if decide (k = group_key item) then (k, g ++ [item]) :: groups'
      else (k, g) :: add_to_group groups' item
  end.

Definition grouped_by_service (items : list ProtocolObservationRecord)
    : list ((string * string) * list ProtocolObservationRecord) :=
  foldl add_to_group [] items.

Definition as_string_list (value : pyval) : list string :=
  match value with
  | PNone => []
  | PStr s => if truthy value then [s] else []
  | PList items =>
      omap (fun item => if negb (is_none item) && truthy (PStr (py_str item))
                        then Some (py_str item) else None) items
  | _ => [py_str value]
  end.

(** What a rule object holds besides its code. *)
Record RuleHead : Type := mkRuleHead {
  head_id : string;
  head_version : string;
  head_family : string
}.

Record Rule : Type := mkRule {
  Rule_head :> RuleHead;
  Rule_evaluate : EvaluationContext → outcome PyExc (list FindingDraft)
}.

(** [draft(...)]: the rule's identity, the texts, and what was observed. *)
Definition draft (self : RuleHead) (copy : FindingCopy) (severity : Severity)
    (confidence : ConfidenceLevel) (asset_id service_id : option string) (rationale : string)
    (data : dict) (linked : list ProtocolObservationRecord) (evidence_artifact_ids : list string)
    (dedupe_key : string) : outcome PyExc FindingDraft :=
  let evidence := foldl append_new evidence_artifact_ids (observation_evidence linked) in
  build_draft (mkDraft self.(head_id) self.(head_version) self.(head_family) copy.(copy_title)
    severity confidence asset_id service_id copy.(copy_description) rationale
    copy.(copy_recommendation) data (observation_ids_of linked)
    (take MAX_OBSERVATION_LINKS evidence) dedupe_key).

(** A rule over the observations of some kinds: one step per service. *)
Definition for_each_service (context : EvaluationContext) (kinds : list string)
    (body : list ProtocolObservationRecord → outcome PyExc (option FindingDraft))
    : outcome PyExc (list FindingDraft) :=
  collect (fun kg => body kg.2) (grouped_by_service (usable_observations context (Some kinds))).

(** A draft about the service of [sample]. *)
Definition service_draft (self : RuleHead) (copy : FindingCopy) (severity : Severity)
    (confidence : ConfidenceLevel) (sample : ProtocolObservationRecord) (rationale : string)
    (data : dict) (linked : list ProtocolObservationRecord)
    : outcome PyExc (option FindingDraft) :=
  Some <$> draft self copy severity confidence (Some sample.(obs_asset_id))
             (Some sample.(obs_service_id)) rationale data linked []
             (service_dedupe_key sample).
