(* ===== verification/FindProtocolRules.v ===== *)
(** * The rules over protocol observations ([findings/rules/]: ssh, tls, http, smb,
      dns, snmp, ldap) *)

From S2P Require Import Prelude PyBase PyText FindModels FindCopy FindDates FindRules.

(** A dictionary of string lists as a value. *)
Definition PStrings (l : list string) : pyval := PList (map PStr l).
Definition opt_str (o : option string) : pyval :=
  match o with Some s => PStr s | None => PNone end.

(** ** SSH *)

Definition Ssh_head : RuleHead := mkRuleHead "WS-SSH-WEAK-ALGORITHMS" "1" "ssh".

(** The weak names of one observation in one family. *)
Definition weak_names (item : ProtocolObservationRecord) (family : string)
    (catalog : list string) : list string :=
  List.filter (fun name => str_in (lower name) catalog)
    (as_string_list (get item.(obs_data) family)).

Definition add_weak (item : ProtocolObservationRecord) (weak : list (string * list string))
    (entry : string * list string) : list (string * list string) :=
  let '(family, catalog) := entry in
  match weak_names item family catalog with
  | [] => weak
  | matched => dict_set weak family
                 (foldl append_new (default [] (dict_get weak family)) matched)
  end.

Definition weak_algorithms (group : list ProtocolObservationRecord)
    : list (string * list string) :=
  foldl (fun weak item => foldl (add_weak item) weak WEAK_SSH_BY_FAMILY) [] group.

Definition HIGH_SSH_TOKENS : list string :=
  ["diffie-hellman-group1-sha1"; "ssh-dss"; "ssh-dsa"; "arcfour"; "arcfour128"; "arcfour256";
   "3des-cbc"; "des-cbc"; "hmac-md5"; "hmac-md5-96"].

Definition _ssh_severity (weak : list (string * list string)) : Severity :=
  let names := map lower (mjoin (weak.*2)) in
  let has (family : string) := match dict_get weak family with
                               | Some (_ :: _) => true | _ => false end in
  if existsb (fun name => str_in name HIGH_SSH_TOKENS) names then HIGH
  else if has "encryption" || has "kex" then MEDIUM
  else LOW.

Definition WeakSshAlgorithmsRule : Rule := mkRule Ssh_head (fun context =>
  for_each_service context ["ssh_algorithms"] (fun group =>
    match weak_algorithms group, group with
    | [], _ | _, [] => mret None
    | weak, sample :: _ =>
        let families := sort_by str_le (dict_keys weak) in
        service_draft Ssh_head SSH_WEAK (_ssh_severity weak) CONF_HIGH sample
          (ssh_rationale (join ", " families))
          [("weak_algorithms", PDict (map (fun kv => (kv.1, PStrings kv.2)) weak));
           ("families", PStrings families)] group
    end)).

(** ** TLS *)

Definition _normalize_protocol (value : string) : string :=
  drop_char (chr 95) (drop_char (chr 32) (lower (strip value))).

Definition _protocol_severity (protocols : list string) : Severity :=
  let tokens := map _normalize_protocol protocols in
  if existsb (fun t => str_in t SSL_TOKENS) tokens then CRITICAL
  else if existsb (fun t => str_in t TLS1_0_TOKENS) tokens then HIGH
  else MEDIUM.

Definition _weak_cipher (cipher : string) : bool :=
  existsb (fun token => contains token (upper cipher)) WEAK_TLS_CIPHER_TOKENS.

Definition LegacyTls_head : RuleHead := mkRuleHead "WS-TLS-LEGACY-PROTOCOL" "1" "tls".

Definition LegacyTlsProtocolRule : Rule := mkRule LegacyTls_head (fun context =>
  for_each_service context ["tls_session"] (fun group =>
    let protocols := omap (fun item =>
      let protocol := get item.(obs_data) "protocol" in
      if truthy protocol then Some (py_str (por protocol (PStr EmptyString))) else None) group in
    let legacy := List.filter
      (fun protocol => str_in (_normalize_protocol protocol) LEGACY_TLS_PROTOCOLS) protocols in
    match legacy, group with
    | [], _ | _, [] => mret None
    | first :: _, sample :: _ =>
        service_draft LegacyTls_head TLS_LEGACY (_protocol_severity legacy) CONF_HIGH sample
          (tls_legacy_rationale first) [("protocols", PStrings legacy)] group
    end)).

Definition WeakCipher_head : RuleHead := mkRuleHead "WS-TLS-WEAK-CIPHER" "1" "tls".

Definition WeakTlsCipherRule : Rule := mkRule WeakCipher_head (fun context =>
  for_each_service context ["tls_session"] (fun group =>
    let weak := omap (fun item =>
      let cipher := get item.(obs_data) "cipher" in
      if truthy cipher && _weak_cipher (py_str cipher) then Some (py_str cipher) else None)
      group in
    match weak, group with
    | [], _ | _, [] => mret None
    | first :: _, sample :: _ =>
        service_draft WeakCipher_head TLS_WEAK_CIPHER HIGH CONF_HIGH sample
          (tls_cipher_rationale first) [("ciphers", PStrings weak)] group
    end)).

(** [try: int(code) != 0 except (TypeError, ValueError): False] *)
Definition _untrusted (item : ProtocolObservationRecord) : bool :=
  let code := get item.(obs_data) "verify_code" in
  if is_none code then false
  else match py_int code with Return n => negb (n =? 0) | Raise _ => false end.

Definition CertUntrusted_head : RuleHead := mkRuleHead "WS-TLS-CERT-UNTRUSTED" "1" "tls".

Definition TlsCertificateUntrustedRule : Rule := mkRule CertUntrusted_head (fun context =>
  for_each_service context ["tls_certificate"] (fun group =>
    match List.filter _untrusted group with
    | [] => mret None
    | (sample :: _) as untrusted =>
        let field := get sample.(obs_data) in
        service_draft CertUntrusted_head TLS_CERT_UNTRUSTED MEDIUM CONF_HIGH sample
          (tls_untrusted_rationale (field "verify_code") (field "verify_message"))
          [("verify_code", field "verify_code"); ("verify_message", field "verify_message");
           ("subject", field "subject"); ("issuer", field "issuer")] untrusted
    end)).

(** [_parse_time] may let an OverflowError through. *)
Definition _expired (host_zones : list string) (not_after : pyval) (evaluated_at : datetime)
    : outcome PyExc bool :=
  parsed ← parse_time host_zones not_after;
  mret match parsed with None => false | Some t => t <? evaluated_at end.

Definition CertExpired_head : RuleHead := mkRuleHead "WS-TLS-CERT-EXPIRED" "1" "tls".

Definition TlsCertificateExpiredRule (host_zones : list string) : Rule :=
  mkRule CertExpired_head (fun context =>
  for_each_service context ["tls_certificate"] (fun group =>
    expired ← filter_or_raise (fun item =>
      _expired host_zones (get item.(obs_data) "not_after") context.(evaluated_at)) group;
    match expired with
    | [] => mret None
    | sample :: _ =>
        let field := get sample.(obs_data) in
        service_draft CertExpired_head TLS_CERT_EXPIRED HIGH CONF_HIGH sample
          (tls_expired_rationale (field "not_after") (isoformat context.(evaluated_at)))
          [("not_after", field "not_after"); ("subject", field "subject")] expired
    end)).

(** ** HTTP *)

Definition _is_https (service : ServiceRecord) : bool :=
  if String.eqb (lower (str_or service.(service_tunnel) EmptyString)) "ssl" then true
  else if str_in (lower (str_or service.(service_name) EmptyString)) HTTPS_NAMES then true
  else existsb (Z.eqb service.(service_port)) HTTPS_PORTS.

Definition _headers (item : ProtocolObservationRecord) : list (string * string) :=
  match por (get item.(obs_data) "headers") (PDict []) with
  | PDict raw => foldl (fun headers kv =>
      if truthy kv.2 then dict_set headers (lower kv.1) (py_str kv.2) else headers) [] raw
  | _ => []
  end.

(** [value or None] *)
Definition _header (item : ProtocolObservationRecord) (name : string) : option string :=
  match dict_get (_headers item) (lower name) with
  | Some (String _ _ as value) => Some value
  | _ => None
  end.

Definition has_header (name : string) (item : ProtocolObservationRecord) : bool :=
  truthy_str (_header item name).

Definition strings_dict (d : list (string * string)) : pyval :=
  PDict (map (fun kv => (kv.1, PStr kv.2)) d).

Definition MissingHsts_head : RuleHead := mkRuleHead "WS-HTTP-MISSING-HSTS" "1" "http".

Definition MissingHstsRule : Rule := mkRule MissingHsts_head (fun context =>
  let services := service_map context in
  for_each_service context ["http_response"] (fun group =>
    match group with
    | [] => mret None
    | sample :: _ =>
        match dict_get services sample.(obs_service_id) with
        | None => mret None
        | Some service =>
            if negb (_is_https service) then mret None
            else if existsb (has_header "strict-transport-security") group then mret None
            else service_draft MissingHsts_head HTTP_MISSING_HSTS MEDIUM CONF_HIGH sample
                   http_hsts_rationale [("headers", strings_dict (_headers sample))] group
        end
    end)).

Definition frame_ancestors (item : ProtocolObservationRecord) : bool :=
  contains "frame-ancestors" (str_or (_header item "content-security-policy") EmptyString).

Definition missing_headers (group : list ProtocolObservationRecord) : list string :=
  (if negb (existsb (has_header "x-frame-options") group) &&
      negb (existsb frame_ancestors group) then ["x-frame-options"] else []) ++
  (if negb (existsb (has_header "content-security-policy") group)
   then ["content-security-policy"] else []).

Definition MissingHeaders_head : RuleHead :=
  mkRuleHead "WS-HTTP-MISSING-SECURITY-HEADERS" "1" "http".

Definition MissingSecurityHeadersRule : Rule := mkRule MissingHeaders_head (fun context =>
  for_each_service context ["http_response"] (fun group =>
    match missing_headers group, group with
    | [], _ | _, [] => mret None
    | missing, sample :: _ =>
        service_draft MissingHeaders_head HTTP_MISSING_HEADERS LOW CONF_MEDIUM sample
          (http_headers_rationale (join ", " missing))
          [("missing_headers", PStrings missing); ("headers", strings_dict (_headers sample))]
          group
    end)).

Definition disclosed_headers (group : list ProtocolObservationRecord)
    : list (string * string) :=
  foldl (fun disclosed item =>
    let headers := _headers item in
    foldl (fun disclosed name =>
      match dict_get headers name with
      | Some (String _ _ as value) => dict_set disclosed name value
      | _ => disclosed
      end) disclosed ["server"; "x-powered-by"]) [] group.

Definition ServerDisclosure_head : RuleHead := mkRuleHead "WS-HTTP-SERVER-DISCLOSURE" "1" "http".

Definition HttpServerDisclosureRule : Rule := mkRule ServerDisclosure_head (fun context =>
  for_each_service context ["http_response"] (fun group =>
    match disclosed_headers group, group with
    | [], _ | _, [] => mret None
    | disclosed, sample :: _ =>
        service_draft ServerDisclosure_head HTTP_SERVER_DISCLOSURE INFO CONF_HIGH sample
          (http_disclosure_rationale
             (join ", " (map (fun kv => kv.1 +:+ "=" +:+ kv.2) disclosed)))
          [("headers", strings_dict disclosed)] group
    end)).

(** ** SMB *)

Definition SmbNull_head : RuleHead := mkRuleHead "WS-SMB-NULL-SESSION" "1" "smb".

Definition SmbNullSessionRule : Rule := mkRule SmbNull_head (fun context =>
  for_each_service context ["smb_null_session"] (fun group =>
    match List.filter (fun item => is_true (get item.(obs_data) "accepted")) group with
    | [] => mret None
    | (sample :: _) as accepted =>
        let field := get sample.(obs_data) in
        service_draft SmbNull_head SMB_NULL_SESSION HIGH CONF_HIGH sample
          (smb_null_rationale (field "share_count"))
          [("accepted", PBool true); ("share_count", field "share_count");
           ("shares", por (field "shares") (PList []))] accepted
    end)).

Definition _signing_value (data : dict) : pyval := por (get data "signing") (get data "smb_signing").

Definition _signing_disabled (data : dict) : bool :=
  match _signing_value data with
  | PBool b => negb b
  | PNone => false
  | value => str_in (lower (strip (py_str value))) SMB_SIGNING_DISABLED
  end.

Definition SmbSigning_head : RuleHead := mkRuleHead "WS-SMB-SIGNING-DISABLED" "1" "smb".

Definition SmbSigningDisabledRule : Rule := mkRule SmbSigning_head (fun context =>
  for_each_service context ["smb_null_session"; "smb_probe_result"] (fun group =>
    match List.filter (fun item => _signing_disabled item.(obs_data)) group with
    | [] => mret None
    | (sample :: _) as disabled =>
        service_draft SmbSigning_head SMB_SIGNING MEDIUM CONF_MEDIUM sample
          smb_signing_rationale [("signing", _signing_value sample.(obs_data))] disabled
    end)).

Definition _dialect_value (data : dict) : option string :=
  let value := por (get data "dialect") (get data "smb_dialect") in
  if truthy value then Some (py_str value) else None.

Definition _legacy_dialect (data : dict) : bool :=
  match _dialect_value data with
  | Some (String _ _ as dialect) => str_in (lower (strip dialect)) LEGACY_SMB_DIALECTS
  | _ => false
  end.

Definition SmbLegacy_head : RuleHead := mkRuleHead "WS-SMB-LEGACY-DIALECT" "1" "smb".

Definition SmbLegacyDialectRule : Rule := mkRule SmbLegacy_head (fun context =>
  for_each_service context ["smb_null_session"; "smb_probe_result"] (fun group =>
    match List.filter (fun item => _legacy_dialect item.(obs_data)) group with
    | [] => mret None
    | (sample :: _) as legacy =>
        let dialect := opt_str (_dialect_value sample.(obs_data)) in
        service_draft SmbLegacy_head SMB_LEGACY HIGH CONF_MEDIUM sample
          (smb_dialect_rationale dialect) [("dialect", dialect)] legacy
    end)).

(** ** DNS *)

Definition DnsRecursion_head : RuleHead := mkRuleHead "WS-DNS-RECURSION" "1" "dns".

Definition DnsRecursionRule : Rule := mkRule DnsRecursion_head (fun context =>
  for_each_service context ["dns_flags"] (fun group =>
    match List.filter (fun item => is_true (get item.(obs_data) "recursion_available")) group with
    | [] => mret None
    | (sample :: _) as recursive =>
        let field := get sample.(obs_data) in
        service_draft DnsRecursion_head DNS_RECURSION MEDIUM CONF_HIGH sample
          (dns_recursion_rationale (field "flags"))
          [("flags", por (field "flags") (PList [])); ("recursion_available", PBool true);
           ("rcode", field "rcode")] recursive
    end)).

Definition DnsVersion_head : RuleHead := mkRuleHead "WS-DNS-VERSION-DISCLOSED" "1" "dns".

Definition DnsVersionDisclosedRule : Rule := mkRule DnsVersion_head (fun context =>
  for_each_service context ["dns_identity"] (fun group =>
    match List.filter (fun item => truthy (get item.(obs_data) "version") ||
                                   truthy (get item.(obs_data) "hostname")) group with
    | [] => mret None
    | (sample :: _) as disclosed =>
        let field := get sample.(obs_data) in
        service_draft DnsVersion_head DNS_VERSION LOW CONF_HIGH sample
          (dns_identity_rationale (field "version") (field "hostname"))
          [("version", field "version"); ("hostname", field "hostname")] disclosed
    end)).

(** ** SNMP and LDAP *)

Definition Snmp_head : RuleHead := mkRuleHead "WS-SNMP-UNAUTHENTICATED" "1" "snmp".

Definition SnmpUnauthenticatedRule : Rule := mkRule Snmp_head (fun context =>
  for_each_service context ["snmp_unauthenticated"] (fun group =>
    match List.filter (fun item => is_true (get item.(obs_data) "responded")) group with
    | [] => mret None
    | (sample :: _) as responded =>
        let field := get sample.(obs_data) in
        service_draft Snmp_head SNMP_UNAUTH HIGH CONF_HIGH sample
          (snmp_rationale (field "usm_indicator"))
          [("responded", PBool true); ("auth", field "auth"); ("version", field "version");
           ("usm_indicator", field "usm_indicator"); ("sys_descr", field "sys_descr")] responded
    end)).

Definition Ldap_head : RuleHead := mkRuleHead "WS-LDAP-ANONYMOUS-BIND" "1" "ldap".

Definition LdapAnonymousBindRule : Rule := mkRule Ldap_head (fun context =>
  for_each_service context ["ldap_rootdse"; "ldap_anonymous_bind"] (fun group =>
    match List.filter (fun item => is_true (get item.(obs_data) "anonymous_bind")) group with
    | [] => mret None
    | (sample :: _) as accepted =>
        let field := get sample.(obs_data) in
        service_draft Ldap_head LDAP_ANON MEDIUM CONF_HIGH sample ldap_rationale
          [("anonymous_bind", PBool true); ("attributes", por (field "attributes") (PDict []))]
          accepted
    end)).
