(* ===== verification/FindInventoryRules.v ===== *)
(** * The rules over inventory services and passive results
      ([findings/rules/management.py], [findings/rules/infrastructure.py]) *)

From S2P Require Import Prelude PyBase PyText FindModels FindCopy FindRules FindProtocolRules.

(** ** Insecure management services *)

(** [Severity(value)] *)
Definition severity_value (value : string) : outcome PyExc Severity :=
  match Severity_of value with
  | Some s => Return s
  | None => Raise (PyValueError (str_repr value +:+ " is not a valid Severity"))
  end.

Definition management_port (port : Z) (protocol : string) : option (string * string) :=
  snd <$> find_first (fun e => (e.1.1 =? port) && String.eqb e.1.2 protocol)
            INSECURE_MANAGEMENT_PORTS.

Definition _match (service : ServiceRecord) : outcome PyExc (option (string * Severity)) :=
  if negb (String.eqb service.(service_state) "open") then mret None
  else
    let name := strip (lower (str_or service.(service_name) EmptyString)) in
    if str_in name INSECURE_MANAGEMENT_NAMES then
      rank ← severity_value (default "medium" (dict_get NAME_SEVERITY name));
      mret (Some (name, rank))
    else
      match management_port service.(service_port) (lower service.(service_protocol)) with
      | None => mret None
      | Some (port_name, port_severity) =>
          if truthy (PStr name) && negb (str_in name INSECURE_MANAGEMENT_NAMES) &&
             negb (str_in name [port_name; "unknown"; EmptyString])
          then mret None
          else rank ← severity_value port_severity; mret (Some (port_name, rank))
      end.

Definition Management_head : RuleHead := mkRuleHead "WS-MGMT-INSECURE-PROTOCOL" "1" "management".

Definition management_draft (service : ServiceRecord) : outcome PyExc (option FindingDraft) :=
  matched ← _match service;
  match matched with
  | None => mret None
  | Some (name, severity) =>
      Some <$> draft Management_head
        (mkCopy (management_title name)
           (management_description name service.(service_protocol) service.(service_port))
           (management_recommendation name))
        severity CONF_HIGH (Some service.(service_asset_id)) (Some service.(service_id))
        (management_rationale (str_or service.(service_name) name) service.(service_protocol)
           service.(service_port))
        [("protocol", PStr service.(service_protocol)); ("port", PInt service.(service_port));
         ("service_name", opt_str service.(service_name));
         ("product", opt_str service.(service_product)); ("matched_as", PStr name);
         ("source", PStr "inventory_service")]
        [] [] (inventory_dedupe_key service)
  end.

Definition InsecureManagementRule : Rule := mkRule Management_head (fun context =>
  collect management_draft context.(services)).

(** ** Passive sensors *)

(** [v.get(key)] on a value that need not be a dictionary. *)
Definition get_attr (v : pyval) (key : string) : outcome PyExc pyval :=
  match v with
  | PDict d => mret (get d key)
  | _ => Raise (PyAttributeError "object has no attribute 'get'")
  end.

Definition _sensor (document : dict) (name : string) : outcome PyExc (option dict) :=
  let result := default (PDict []) (dict_get document "result") in
  nested ← get_attr result "sensors";
  match por nested (get document "sensors") with
  | PDict sensors =>
      mret match get sensors name with PDict item => Some item | _ => None end
  | _ => mret None
  end.

Definition _dhcp_servers (document : dict) : outcome PyExc (list string) :=
  found ← _sensor document "dhcpv4";
  let dhcp := default [] found in
  let summary := match get dhcp "summary" with PDict d => d | _ => [] end in
  match por (get summary "servers") (PList []) with
  | PList servers =>
      mret (foldl (fun identifiers item =>
        let value := match item with
                     | PDict d => por (get d "server_id") (get d "address")
                     | _ => item
                     end in
        if truthy value then append_new identifiers (py_str value) else identifiers) [] servers)
  | _ => mret []
  end.

Definition passive_evidence (context : EvaluationContext) : list string :=
  match context.(passive_artifact_id) with
  | Some (String _ _ as artifact) => [artifact]
  | _ => []
  end.

Definition _sensor_presence (context : EvaluationContext) (self : RuleHead) (sensor : string)
    (copy : FindingCopy) (severity : Severity) : outcome PyExc (list FindingDraft) :=
  match context.(passive_result) with
  | None => mret []
  | Some document =>
      found ← _sensor document sensor;
      match found with
      | None => mret []
      | Some result =>
          let status := py_str (por (get result "status") (PStr EmptyString)) in
          hits ← py_int (por (get result "hits") (PInt 0));
          if negb (str_in status ["detected"; "partial"]) || (hits <? 1) then mret []
          else
            finding ← draft self copy severity
              (if String.eqb status "detected" then CONF_HIGH else CONF_MEDIUM) None None
              (infra_rationale sensor status hits)
              [("sensor", PStr sensor); ("status", PStr status); ("hits", PInt hits);
               ("source", PStr "passive_assessment")] [] (passive_evidence context) "audit";
            mret [finding]
      end
  end.

Definition Llmnr_head : RuleHead := mkRuleHead "WS-INFRA-LLMNR" "1" "infrastructure".
Definition Nbns_head : RuleHead := mkRuleHead "WS-INFRA-NBNS" "1" "infrastructure".
Definition MultipleDhcp_head : RuleHead := mkRuleHead "WS-INFRA-MULTIPLE-DHCP" "1" "infrastructure".

Definition LlmnrPresentRule : Rule := mkRule Llmnr_head (fun context =>
  _sensor_presence context Llmnr_head "llmnr" LLMNR MEDIUM).

Definition NbnsPresentRule : Rule := mkRule Nbns_head (fun context =>
  _sensor_presence context Nbns_head "nbns" NBNS MEDIUM).

Definition MultipleDhcpServersRule : Rule := mkRule MultipleDhcp_head (fun context =>
  match context.(passive_result) with
  | None => mret []
  | Some document =>
      servers ← _dhcp_servers document;
      if (length servers <? 2)%nat then mret []
      else
        finding ← draft MultipleDhcp_head MULTIPLE_DHCP MEDIUM CONF_HIGH None None
          (dhcp_rationale (Z.of_nat (length servers)))
          [("servers", PStrings servers); ("source", PStr "passive_assessment")] []
          (passive_evidence context) "audit";
        mret [finding]
  end).
