(* ===== verification/FindEngine.v ===== *)
(** * The rule registry and the findings engine ([findings/registry.py],
      [findings/engine.py]) *)

From S2P Require Import Prelude PyBase PyText FindModels FindRules FindProtocolRules FindInventoryRules.

(** ** RuleRegistry *)

Definition RuleRegistry : Type := list (string * Rule).

Definition register (registry : RuleRegistry) (rule : Rule) : outcome PyExc RuleRegistry :=
  match dict_get registry rule.(head_id) with
  | Some _ => Raise (PyValueError ("Finding rule already registered: " +:+ rule.(head_id)))
  | None => Return (dict_set registry rule.(head_id) rule)
  end.

Definition get_rule (registry : RuleRegistry) (rule_id : string) : outcome PyExc Rule :=
  match dict_get registry rule_id with
  | Some rule => Return rule
  | None => Raise (PyLookupError ("Unknown finding rule: " +:+ rule_id))
  end.

Definition rule_ids (registry : RuleRegistry) : list string :=
  sort_by str_le (dict_keys registry).

(** [self._rules[key] for key in sorted(self._rules)] *)
Definition rules (registry : RuleRegistry) : list Rule :=
  omap (dict_get registry) (rule_ids registry).

Fixpoint register_all (registry : RuleRegistry) (l : list Rule) : outcome PyExc RuleRegistry :=
  match l with
  | [] => mret registry
  | rule :: l' => registry ← register registry rule; register_all registry l'
  end.

Definition DEFAULT_RULES (host_zones : list string) : list Rule :=
  [WeakSshAlgorithmsRule; LegacyTlsProtocolRule; WeakTlsCipherRule;
   TlsCertificateExpiredRule host_zones; TlsCertificateUntrustedRule; MissingHstsRule;
   MissingSecurityHeadersRule; HttpServerDisclosureRule; SmbNullSessionRule;
   SmbSigningDisabledRule; SmbLegacyDialectRule; DnsRecursionRule; DnsVersionDisclosedRule;
   SnmpUnauthenticatedRule; LdapAnonymousBindRule; InsecureManagementRule; LlmnrPresentRule;
   NbnsPresentRule; MultipleDhcpServersRule].

Definition default_registry (host_zones : list string) : outcome PyExc RuleRegistry :=
  register_all [] (DEFAULT_RULES host_zones).

(** ** Deduplication *)

Definition draft_key (d : FindingDraft) : string * string := (d.(rule_id), d.(dedupe_key)).

(** [if item not in acc: acc.append(item)], for the items of [right]. *)
Definition extend_new (left right : list string) : list string := foldl append_new left right.

Definition _merge (left right : FindingDraft) : FindingDraft :=
  let observations := extend_new left.(observation_ids) right.(observation_ids) in
  let evidence := extend_new left.(evidence_artifact_ids) right.(evidence_artifact_ids) in
  let updated := dict_update left.(data) right.(data) in
  let updated :=
    match left.(observation_ids), right.(observation_ids) with
    | [], [] => updated
    | _, _ => dict_set updated "correlated_observation_count"
                (PInt (Z.of_nat (length observations)))
    end in
  left <| severity := if SEVERITY_RANK left.(severity) <=? SEVERITY_RANK right.(severity)
                      then left.(severity) else right.(severity) |>
       <| confidence := if CONFIDENCE_RANK left.(confidence) <=? CONFIDENCE_RANK right.(confidence)
                        then left.(confidence) else right.(confidence) |>
       <| observation_ids := observations |>
       <| evidence_artifact_ids := evidence |>
       <| data := updated |>
       <| rationale := if String.eqb left.(rationale) right.(rationale) then left.(rationale)
                       else left.(rationale) +:+ " " +:+ right.(rationale) |>.

(** [merged[key] = ...]: a new key goes last, a known key keeps its place. *)
Fixpoint merge_into (merged : list FindingDraft) (d : FindingDraft) : list FindingDraft :=
  match merged with
  | [] => [d]
  | e :: merged' =>
      if decide (draft_key e = draft_key d) then _merge e d :: merged'
      else e :: merge_into merged' d
  end.

(** [(SEVERITY_RANK[severity], rule_id, dedupe_key)], lexicographically. *)
Definition draft_le : FindingDraft → FindingDraft → bool :=
  rank_then (fun d => SEVERITY_RANK d.(severity))
    (str_then rule_id (fun a b => str_le a.(dedupe_key) b.(dedupe_key))).

Definition deduplicate_drafts (drafts : list FindingDraft) : list FindingDraft :=
  sort_by draft_le (foldl merge_into [] drafts).

(** ** Evaluation *)

Fixpoint evaluate_rules (context : EvaluationContext) (l : list Rule)
    : outcome PyExc (list FindingDraft) :=
  match l with
  | [] => mret []
  | rule :: l' =>
      produced ← rule.(Rule_evaluate) context;
      rest ← evaluate_rules context l';
      mret (produced ++ rest)
  end.

Definition evaluate_findings (host_zones : list string) (context : EvaluationContext)
    (registry : option RuleRegistry) : outcome PyExc (list FindingDraft) :=
  active ← match registry with
           | Some registry => mret registry
           | None => default_registry host_zones
           end;
  drafts ← evaluate_rules context (rules active);
  mret (deduplicate_drafts drafts).
