(* ===== verification/FindRulesProofs.v ===== *)
(** * Lemmas on the rule helpers: loops, groups, linked observations, drafts *)

From S2P Require Import Prelude PyBase PyText FindModels FindCopy FindDates FindRules.

(** ** Loops that may raise *)

Section loops.
Context {E A B : Type}.
Implicit Types (body : A → outcome E (option B)) (p : A → outcome E bool) (l : list A).

Lemma collect_Return body l bs :
  collect body l = Return bs →
  (∀ b, b ∈ bs ↔ ∃ x, x ∈ l ∧ body x = Return (Some b)) ∧
  (∀ x, x ∈ l → ∃ r, body x = Return r).
Proof.
  revert bs. induction l as [|x l IH]; intros bs; simpl.
  { intros [= <-]. split; [|by intros ? ?%elem_of_nil].
    intros b. split; [by intros ?%elem_of_nil|]. by intros (? & ?%elem_of_nil & _). }
  unfold mbind, outcome_bind. destruct (body x) as [r|] eqn:Hx; [|done].
  destruct (collect body l) as [rest|]; [|done]. intros [= <-].
  destruct (IH rest eq_refl) as [H1 H2]. split.
  - intros b. destruct r as [b0|]; rewrite ?elem_of_cons, H1; split.
    + intros [->|(y & Hy & ?)]; [exists x|exists y]; split; try done; by constructor.
    + intros (y & [->|Hy]%elem_of_cons & Hb); [left; congruence|right; eauto].
    + intros (y & Hy & ?). exists y. split; [by constructor|done].
    + intros (y & [->|Hy]%elem_of_cons & Hb); [congruence|eauto].
  - intros y [->|Hy]%elem_of_cons; eauto.
Qed.

Lemma collect_Raise body l e : collect body l = Raise e → ∃ x, x ∈ l ∧ body x = Raise e.
Proof.
  induction l as [|x l IH]; cbn [collect]; [done|]. unfold mbind, outcome_bind.
  destruct (body x) as [r|e'] eqn:Hx.
  - destruct (collect body l) as [rest|e'']; [done|]. intros [= ->].
    destruct (IH eq_refl) as (y & ? & ?). exists y. split; [by constructor|done].
  - intros [= ->]. exists x. split; [constructor|done].
Qed.

Lemma filter_or_raise_Raise p l e :
  filter_or_raise p l = Raise e → ∃ x, x ∈ l ∧ p x = Raise e.
Proof.
  induction l as [|x l IH]; cbn [filter_or_raise]; [done|]. unfold mbind, outcome_bind.
  destruct (p x) as [b|e'] eqn:Hx.
  - destruct (filter_or_raise p l) as [rest|e'']; [done|]. intros [= ->].
    destruct (IH eq_refl) as (y & ? & ?). exists y. split; [by constructor|done].
  - intros [= ->]. exists x. split; [constructor|done].
Qed.

Lemma collect_length body l bs : collect body l = Return bs → (length bs <= length l)%nat.
Proof.
  revert bs. induction l as [|x l IH]; intros bs; simpl; [by intros [= <-]|].
  unfold mbind, outcome_bind. destruct (body x) as [r|]; [|done].
  destruct (collect body l) as [rest|] eqn:Hl; [|done]. intros [= <-].
  specialize (IH rest eq_refl). destruct r; simpl; lia.
Qed.

(** The appended items are distinct when items of different elements differ. *)
Lemma collect_NoDup {K} (f : B → K) (g : A → K) body l bs :
  NoDup (map g l) →
  (∀ x b, x ∈ l → body x = Return (Some b) → f b = g x) →
  collect body l = Return bs → NoDup (map f bs).
Proof.
  revert bs. induction l as [|x l IH]; intros bs Hl Hfg; cbn [collect].
  { intros [= <-]. constructor. }
  apply NoDup_cons in Hl as [Hx Hl].
  unfold mbind, outcome_bind. destruct (body x) as [r|] eqn:Hbx; [|done].
  destruct (collect body l) as [rest|] eqn:Hrest; [|done]. intros [= <-].
  assert (NoDup (map f rest)) as Hnd.
  { apply IH; [done| |done]. intros y b Hy. apply Hfg. by constructor. }
  destruct r as [b|]; [|done]. cbn [map]. apply NoDup_cons. split; [|done].
  intros (b' & Hb' & (y & Hy & Hyb)%(proj1 (collect_Return _ _ _ Hrest) _))%list_elem_of_fmap.
  apply Hx, list_elem_of_fmap. exists y. split; [|done].
  rewrite <- (Hfg y b'), <- Hb'; [|by constructor|done]. symmetry. apply Hfg; [by constructor|done].
Qed.

Lemma filter_or_raise_Return p l xs :
  filter_or_raise p l = Return xs →
  xs = List.filter (fun x => match p x with Return b => b | Raise _ => false end) l ∧
  (∀ x, x ∈ l → ∃ b, p x = Return b).
Proof.
  revert xs. induction l as [|x l IH]; intros xs; simpl.
  { intros [= <-]. split; [done|]. by intros ? ?%elem_of_nil. }
  unfold mbind, outcome_bind. destruct (p x) as [b|] eqn:Hx; [|done].
  destruct (filter_or_raise p l) as [rest|]; [|done]. intros [= <-].
  destruct (IH rest eq_refl) as [-> H2]. split; [by destruct b|].
  intros y [->|Hy]%elem_of_cons; eauto.
Qed.
End loops.

(** ** Linked observations *)

(** The ids of a draft: distinct, at most [MAX_OBSERVATION_LINKS], each of a linked
    observation, and some unless nothing is linked. *)
Lemma observation_ids_from_spec acc items :
  NoDup acc → (length acc < MAX_OBSERVATION_LINKS)%nat →
  NoDup (observation_ids_from acc items) ∧
  (length (observation_ids_from acc items) <= MAX_OBSERVATION_LINKS)%nat ∧
  (∀ i, i ∈ observation_ids_from acc items → i ∈ acc ∨ i ∈ map obs_id items) ∧
  (items ≠ [] → observation_ids_from acc items ≠ []).
Proof.
  revert acc. induction items as [|item items IH]; intros acc Hnd Hlen; cbn [observation_ids_from].
  { split_and!; try done; [lia|]. by left. }
  pose proof (append_new_length acc item.(obs_id)) as Hl.
  pose proof (append_new_NoDup acc item.(obs_id) Hnd) as Hnd'.
  destruct (Nat.leb_spec MAX_OBSERVATION_LINKS (length (append_new acc item.(obs_id)))).
  - split_and!; [done|lia| |intros _; apply append_new_nonempty].
    intros i [?| ->]%append_new_elem; [by left|]. right. by constructor.
  - destruct (IH (append_new acc item.(obs_id)) Hnd' ltac:(done)) as (H1 & H2 & H3 & H4).
    split_and!; [done|done| |].
    + intros i [[?| ->]%append_new_elem|Hi]%H3; [by left| |]; right; cbn; by constructor.
    + intros _. destruct items; [|by apply H4]. apply append_new_nonempty.
Qed.

Lemma observation_ids_of_spec items :
  NoDup (observation_ids_of items) ∧
  (length (observation_ids_of items) <= MAX_OBSERVATION_LINKS)%nat ∧
  (∀ i, i ∈ observation_ids_of items → i ∈ map obs_id items) ∧
  (items ≠ [] → observation_ids_of items ≠ []).
Proof.
  destruct (observation_ids_from_spec [] items) as (H1 & H2 & H3 & H4);
    [constructor|unfold MAX_OBSERVATION_LINKS; simpl; lia|].
  split_and!; try done. intros i [Hi|?]%H3; [by apply elem_of_nil in Hi|done].
Qed.

Lemma observation_evidence_from_elem acc items e :
  e ∈ observation_evidence_from acc items →
  e ∈ acc ∨ ∃ o, o ∈ items ∧ o.(obs_evidence_artifact_id) = Some e.
Proof.
  revert acc. induction items as [|item items IH]; intros acc; cbn [observation_evidence_from];
    [by left|].
  set (acc' := match item.(obs_evidence_artifact_id) with Some (String _ _ as a) => _ | _ => _ end).
  assert (∀ e, e ∈ acc' → e ∈ acc ∨ ∃ o, o ∈ item :: items ∧ o.(obs_evidence_artifact_id) = Some e)
    as Hacc.
  { intros e' He. subst acc'. destruct item.(obs_evidence_artifact_id) as [[|x y]|] eqn:Ha; try (by left).
    apply append_new_elem in He as [?| ->]; [by left|].
    right. exists item. split; [constructor|done]. }
  case_match; [apply Hacc|]. intros [He|(o & ? & ?)]%IH; [by apply Hacc|].
  right. exists o. split; [by constructor|done].
Qed.

(** ** Groups *)

Definition of_service (k : string * string) (o : ProtocolObservationRecord) : bool :=
  bool_decide (group_key o = k).

(** Adding an item updates the group of its key, or starts one. *)
Lemma add_to_group_spec groups item k g :
  NoDup (groups.*1) →
  (k, g) ∈ add_to_group groups item ↔
    if decide (k = group_key item)
    then (∃ g0, (k, g0) ∈ groups ∧ g = (g0 ++ [item])) ∨ ((k ∉ groups.*1) ∧ g = [item])
    else (k, g) ∈ groups.
Proof.
  induction groups as [|[k0 g0] groups IH]; cbn [add_to_group]; intros Hnd.
  - rewrite list_elem_of_singleton. case_decide as Hk.
    + subst. split; [intros [= ->]; right; split; [apply not_elem_of_nil|done]|].
      intros [(? & ?%elem_of_nil & _)|[_ ->]]; done.
    + split; [by intros [= -> ->]|by intros ?%elem_of_nil].
  - rewrite fmap_cons in Hnd. apply NoDup_cons in Hnd as [Hk0 Hnd]. cbn in Hk0. specialize (IH Hnd).
    rewrite fmap_cons. cbn [fst].
    assert (∀ g1, k0 ∉ groups.*1 → (k0, g1) ∉ groups) as Hnotin.
    { intros g1 Hno Hin. apply Hno, list_elem_of_fmap. by exists (k0, g1). }
    destruct (decide (k0 = group_key item)) as [->|Hne].
    + rewrite elem_of_cons. case_decide as Hk.
      * subst k. split.
        { intros [[= ->]|Hin]; [left; exists g0; split; [constructor|done]|]. by destruct (Hnotin g). }
        intros [(g1 & [[= ->]|Hin]%elem_of_cons & ->)|[Hno _]]; [by left| |].
        { by destruct (Hnotin g1). }
        destruct Hno. constructor.
      * rewrite elem_of_cons. naive_solver.
    + rewrite elem_of_cons, IH. case_decide as Hk.
      * subst k. split.
        { intros [Heq|[(g1 & Hin & ->)|[Hno ->]]]; [congruence| |].
          - left. exists g1. split; [by constructor|done].
          - right. split; [|done]. by intros [?|?]%elem_of_cons. }
        intros [(g1 & [Heq|Hin]%elem_of_cons & ->)|[Hno ->]]; [congruence| |].
        { right. left. eauto. }
        right. right. split; [|done]. intros ?. apply Hno. by constructor.
      * rewrite elem_of_cons. naive_solver.
Qed.

Lemma add_to_group_NoDup groups item :
  NoDup (groups.*1) → NoDup ((add_to_group groups item).*1).
Proof.
  induction groups as [|[k0 g0] groups IH]; cbn [add_to_group]; intros Hnd; [apply NoDup_singleton|].
  case_decide as Hk; [done|]. rewrite fmap_cons in Hnd |- *.
  apply NoDup_cons in Hnd as [Hk0 Hnd]. apply NoDup_cons. split; [|by apply IH]. cbn in *.
  intros ([k g] & -> & Hin)%list_elem_of_fmap. cbn in *.
  apply add_to_group_spec in Hin; [|done]. rewrite decide_False in Hin by done.
  apply Hk0, list_elem_of_fmap. by exists (k, g).
Qed.

Lemma filter_snoc {A} (p : A → bool) l x :
  List.filter p (l ++ [x]) = List.filter p l ++ if p x then [x] else [].
Proof. rewrite List.filter_app. simpl. by destruct (p x). Qed.

(** The groups are the non-empty sublists of equal keys, one per key. *)
Lemma grouped_by_service_spec items :
  NoDup ((grouped_by_service items).*1) ∧
  ∀ k g, (k, g) ∈ grouped_by_service items ↔ g = List.filter (of_service k) items ∧ g ≠ [].
Proof.
  unfold grouped_by_service. induction items as [|item items [Hnd IH]] using rev_ind.
  { split; [constructor|]. intros k g. split; [by intros ?%elem_of_nil|]. by intros [-> []]. }
  rewrite foldl_app. cbn [foldl]. split; [by apply add_to_group_NoDup|].
  intros k g. rewrite add_to_group_spec by done. rewrite filter_snoc. unfold of_service at 2.
  case_decide as Hk; [rewrite bool_decide_true by done|rewrite bool_decide_false by done].
  - split.
    + intros [(g0 & [-> _]%IH & ->)|[Hno ->]]; [split; [done|]; by destruct (List.filter _ items)|].
      split; [|done]. destruct (List.filter (of_service k) items) as [|y l] eqn:Hf; [done|].
      destruct Hno. apply list_elem_of_fmap. exists (k, y :: l). split; [done|].
      apply IH. by rewrite Hf.
    + intros [-> _]. destruct (List.filter (of_service k) items) as [|y l] eqn:Hf.
      * right. split; [|done]. intros ([k' g'] & -> & [-> Hne]%IH)%list_elem_of_fmap.
        cbn in Hf. congruence.
      * left. exists (y :: l). split; [|done]. apply IH. by rewrite Hf.
  - rewrite app_nil_r. apply IH.
Qed.

Lemma of_service_spec k items o :
  o ∈ List.filter (of_service k) items ↔ o ∈ items ∧ group_key o = k.
Proof. rewrite elem_of_lfilter. unfold of_service. by rewrite bool_decide_eq_true. Qed.

(** ** Usable observations *)

Lemma usable_observations_spec context kinds o :
  o ∈ usable_observations context kinds ↔
    o ∈ context.(observations) ∧ (o.(obs_kind) ∉ NON_EVIDENCE_KINDS) ∧
    match kinds with Some allowed => o.(obs_kind) ∈ allowed | None => True end.
Proof.
  unfold usable_observations.
  rewrite elem_of_lfilter, andb_true_iff, negb_true_iff, str_in_false.
  destruct kinds; rewrite ?str_in_spec; tauto.
Qed.

(** The observations of one service among some kinds, in input order. *)
Definition service_observations (context : EvaluationContext) (kinds : list string)
    (asset service : string) : list ProtocolObservationRecord :=
  List.filter (fun o => str_in o.(obs_kind) kinds && String.eqb o.(obs_asset_id) asset &&
                        String.eqb o.(obs_service_id) service) context.(observations).

Lemma group_of_service context kinds a s :
  Forall (fun k => k ∉ NON_EVIDENCE_KINDS) kinds →
  List.filter (of_service (a, s)) (usable_observations context (Some kinds)) =
    service_observations context kinds a s.
Proof.
  intros Hkinds. unfold usable_observations, service_observations.
  induction context.(observations) as [|o l IH]; [done|]. cbn [List.filter].
  rewrite Forall_forall in Hkinds.
  destruct (str_in o.(obs_kind) kinds) eqn:Hk; rewrite ?andb_false_r, ?andb_true_r; cbn [andb]; [|done].
  apply str_in_spec, Hkinds, str_in_false in Hk. rewrite Hk. cbn [negb List.filter].
  rewrite IH. unfold of_service, group_key.
  destruct (String.eqb_spec o.(obs_asset_id) a), (String.eqb_spec o.(obs_service_id) s);
    cbn [andb]; case_bool_decide; congruence.
Qed.

(** ** Drafts *)

Lemma build_draft_Return d d' : build_draft d = Return d' → d' = d ∧ draft_violation d = None.
Proof. unfold build_draft. destruct (draft_violation d); [done|]. by intros [= ->]. Qed.

Lemma draft_Return self copy sev conf a s why dat linked ev key d :
  draft self copy sev conf a s why dat linked ev key = Return d →
  d = mkDraft self.(head_id) self.(head_version) self.(head_family) copy.(copy_title) sev conf a s
        copy.(copy_description) why copy.(copy_recommendation) dat (observation_ids_of linked)
        (take MAX_OBSERVATION_LINKS (foldl append_new ev (observation_evidence linked))) key ∧
  draft_violation d = None.
Proof. intros [-> ?]%build_draft_Return. done. Qed.

(** Drafting fails only when pydantic refuses the draft. *)
Definition refused (e : PyExc) : Prop := ∃ name, e = ValidationError name.

Lemma draft_Raise self copy sev conf a s why dat linked ev key e :
  draft self copy sev conf a s why dat linked ev key = Raise e → refused e.
Proof.
  unfold draft, build_draft, refused. destruct (draft_violation _) as [name|]; [|done].
  intros [= <-]. by exists name.
Qed.

Lemma service_draft_Raise self copy sev conf sample why dat linked e :
  service_draft self copy sev conf sample why dat linked = Raise e → refused e.
Proof.
  unfold service_draft, fmap, outcome_fmap.
  destruct (draft _ _ _ _ _ _ _ _ _ _ _) as [d|e'] eqn:Hd; [done|]. intros [= <-].
  by apply draft_Raise in Hd.
Qed.
