(* ===== verification/FindProtocolProofs.v ===== *)
(** * When the protocol rules report, and on what evidence

    Each rule has a specification: the kinds of observation it reads and a test on
    all observations of one service.  The rules implement it. *)

From S2P Require Import Prelude PyBase PyText FindModels FindCopy FindDates FindRules FindProtocolRules FindRulesProofs.

(** ** The specification of a rule over observations *)

Record ProtocolSpec : Type := mkSpec {
  spec_rule : Rule;
  spec_kinds : list string;
  spec_reports : EvaluationContext → list ProtocolObservationRecord → bool
}.

Section tests.
Implicit Types (o : ProtocolObservationRecord) (g : list ProtocolObservationRecord).

Definition field o (key : string) : pyval := get o.(obs_data) key.

(** Some algorithm of the four families is in its family's catalog. *)
Definition weak_ssh o : bool :=
  existsb (fun fc => existsb (fun name => str_in (lower name) fc.2)
    (as_string_list (field o fc.1))) WEAK_SSH_BY_FAMILY.

Definition legacy_tls o : bool :=
  truthy (field o "protocol") &&
  str_in (_normalize_protocol (py_str (field o "protocol"))) LEGACY_TLS_PROTOCOLS.

Definition weak_cipher o : bool :=
  truthy (field o "cipher") && _weak_cipher (py_str (field o "cipher")).

(** The certificate's date parses and is in the past. *)
Definition expired (host_zones : list string) (now : datetime) o : bool :=
  match parse_time host_zones (field o "not_after") with
  | Return (Some t) => t <? now
  | _ => false
  end.

(** [verify_code] is a number, or text of one, other than 0. *)
Definition untrusted o : bool :=
  match field o "verify_code" with
  | PInt n => negb (n =? 0)
  | PBool b => b
  | PStr s => match int_of_str s with Some n => negb (n =? 0) | None => false end
  | _ => false
  end.

Definition known_service (c : EvaluationContext) (id : string) : option ServiceRecord :=
  find_first (fun s => String.eqb s.(service_id) id) (rev c.(services)).

(** An HTTPS service none of whose responses has the header. *)
Definition missing_hsts (c : EvaluationContext) g : bool :=
  match g with
  | [] => false
  | o :: _ =>
      match known_service c o.(obs_service_id) with
      | Some s => _is_https s && negb (existsb (has_header "strict-transport-security") g)
      | None => false
      end
  end.

Definition missing_security_headers g : bool :=
  negb (existsb (has_header "content-security-policy") g) ||
  (negb (existsb (has_header "x-frame-options") g) && negb (existsb frame_ancestors g)).

Definition discloses_server o : bool := has_header "server" o || has_header "x-powered-by" o.

Definition flag (key : string) o : bool :=
  match field o key with PBool b => b | _ => false end.

Definition names_server o : bool :=
  truthy (field o "version") || truthy (field o "hostname").
End tests.

Definition protocol_specs (host_zones : list string) : list ProtocolSpec :=
  [mkSpec WeakSshAlgorithmsRule ["ssh_algorithms"] (fun _ => existsb weak_ssh);
   mkSpec LegacyTlsProtocolRule ["tls_session"] (fun _ => existsb legacy_tls);
   mkSpec WeakTlsCipherRule ["tls_session"] (fun _ => existsb weak_cipher);
   mkSpec (TlsCertificateExpiredRule host_zones) ["tls_certificate"]
     (fun c => existsb (expired host_zones c.(evaluated_at)));
   mkSpec TlsCertificateUntrustedRule ["tls_certificate"] (fun _ => existsb untrusted);
   mkSpec MissingHstsRule ["http_response"] missing_hsts;
   mkSpec MissingSecurityHeadersRule ["http_response"] (fun _ => missing_security_headers);
   mkSpec HttpServerDisclosureRule ["http_response"] (fun _ => existsb discloses_server);
   mkSpec SmbNullSessionRule ["smb_null_session"] (fun _ => existsb (flag "accepted"));
   mkSpec SmbSigningDisabledRule ["smb_null_session"; "smb_probe_result"]
     (fun _ => existsb (fun o => _signing_disabled o.(obs_data)));
   mkSpec SmbLegacyDialectRule ["smb_null_session"; "smb_probe_result"]
     (fun _ => existsb (fun o => _legacy_dialect o.(obs_data)));
   mkSpec DnsRecursionRule ["dns_flags"] (fun _ => existsb (flag "recursion_available"));
   mkSpec DnsVersionDisclosedRule ["dns_identity"] (fun _ => existsb names_server);
   mkSpec SnmpUnauthenticatedRule ["snmp_unauthenticated"] (fun _ => existsb (flag "responded"));
   mkSpec LdapAnonymousBindRule ["ldap_rootdse"; "ldap_anonymous_bind"]
     (fun _ => existsb (flag "anonymous_bind"))].

(** ** Rule bodies *)

(** A certificate date the parser does not survive. *)
Definition bad_date (host_zones : list string) (e : PyExc) (o : ProtocolObservationRecord) : Prop :=
  parse_time host_zones (field o "not_after") = Raise e.

Record body_spec (hz : list string) (self : RuleHead)
    (reports : list ProtocolObservationRecord → bool)
    (body : list ProtocolObservationRecord → outcome PyExc (option FindingDraft)) : Prop := {
  body_none g : g ≠ [] → body g = Return None → reports g = false;
  body_some g d : body g = Return (Some d) →
    reports g = true ∧
    ∃ copy sev conf sample why dat linked,
      sample ∈ linked ∧ (∀ o, o ∈ linked → o ∈ g) ∧
      service_draft self copy sev conf sample why dat linked = Return (Some d);
  body_raise g e : body g = Raise e → refused e ∨ ∃ o, o ∈ g ∧ bad_date hz e o
}.

Definition implements (hz : list string) (sp : ProtocolSpec) : Prop :=
  Forall (fun k => k ∉ NON_EVIDENCE_KINDS) sp.(spec_kinds) ∧
  ∀ c, ∃ body,
    Rule_evaluate sp.(spec_rule) c = for_each_service c sp.(spec_kinds) body ∧
    body_spec hz sp.(spec_rule) (sp.(spec_reports) c) body.

Lemma service_draft_not_None self copy sev conf sample why dat linked :
  service_draft self copy sev conf sample why dat linked ≠ Return None.
Proof.
  unfold service_draft, fmap, outcome_fmap. by destruct (draft _ _ _ _ _ _ _ _ _ _ _).
Qed.

(** A body that drafts from the observations satisfying a test. *)
Lemma filter_body hz self p (finish : ProtocolObservationRecord → list ProtocolObservationRecord →
    outcome PyExc (option FindingDraft)) (reports : list ProtocolObservationRecord → bool) :
  (∀ g, reports g = existsb p g) →
  (∀ sample l, ∃ copy sev conf why dat,
     finish sample l = service_draft self copy sev conf sample why dat (sample :: l)) →
  body_spec hz self reports (fun g => match List.filter p g with
                                   | [] => mret None
                                   | sample :: l => finish sample l
                                   end).
Proof.
  intros Hr Hfinish. split; intros g; rewrite ?Hr.
  - intros _. destruct (List.filter p g) as [|sample l] eqn:Hf; intros Hb.
    + by apply existsb_false_elem_of, lfilter_nil.
    + destruct (Hfinish sample l) as (?&?&?&?&?&Heq). rewrite Heq in Hb.
      by apply service_draft_not_None in Hb.
  - intros d. destruct (List.filter p g) as [|sample l] eqn:Hf; [done|]. intros Hb.
    assert (∀ o, o ∈ sample :: l → o ∈ g ∧ p o = true) as Hin.
    { intros o. by rewrite <- Hf, elem_of_lfilter. }
    split; [apply existsb_elem_of; exists sample; apply Hin; by constructor|].
    destruct (Hfinish sample l) as (copy&sev&conf&why&dat&Heq). rewrite Heq in Hb.
    exists copy, sev, conf, sample, why, dat, (sample :: l).
    split_and!; [by constructor|by intros o [? _]%Hin|done].
  - intros e. destruct (List.filter p g) as [|sample l]; [done|].
    destruct (Hfinish sample l) as (?&?&?&?&?&->). intros ?%service_draft_Raise. by left.
Qed.

(** A body that drafts when something computed from the group is not empty. *)
Lemma computed_body {X} hz self (compute : list ProtocolObservationRecord → list X)
    (reports : list ProtocolObservationRecord → bool)
    (body : list ProtocolObservationRecord → outcome PyExc (option FindingDraft)) :
  (∀ g, g ≠ [] → reports g = match compute g with [] => false | _ => true end) →
  (∀ g, match compute g, g with
        | [], _ | _, [] => body g = Return None
        | _, sample :: _ => ∃ copy sev conf why dat,
            body g = service_draft self copy sev conf sample why dat g
        end) →
  body_spec hz self reports body.
Proof.
  intros Hr Hb. split; intros g.
  - intros Hg. rewrite Hr by done. specialize (Hb g).
    destruct (compute g); [done|]. destruct g as [|sample g]; [done|].
    destruct Hb as (?&?&?&?&?&->). by intros ?%service_draft_not_None.
  - intros d Hd. specialize (Hb g). pose proof (Hr g) as Hrg.
    destruct (compute g); [congruence|]. destruct g as [|sample g]; [congruence|].
    split; [by apply Hrg|]. destruct Hb as (copy&sev&conf&why&dat&Heq). rewrite Heq in Hd.
    exists copy, sev, conf, sample, why, dat, (sample :: g).
    split_and!; [by constructor|done|done].
  - intros e He. specialize (Hb g). destruct (compute g); [congruence|].
    destruct g as [|sample g]; [congruence|]. destruct Hb as (?&?&?&?&?&Heq). rewrite Heq in He.
    apply service_draft_Raise in He. by left.
Qed.

(** ** What the rules compute *)

Lemma dict_set_not_nil {V} (d : list (string * V)) k v :
  match dict_set d k v with [] => false | _ => true end = true.
Proof. destruct d as [|[k' v'] d]; cbn [dict_set]; [done|]. by destruct (String.eqb k k'). Qed.

Lemma weak_algorithms_empty g :
  match weak_algorithms g with [] => false | _ => true end = existsb weak_ssh g.
Proof.
  unfold weak_algorithms.
  assert (∀ (l : list (string * list string)) o weak,
    match foldl (add_weak o) weak l with [] => false | _ => true end =
    match weak with [] => false | _ => true end ||
    existsb (fun fc => existsb (fun name => str_in (lower name) fc.2)
      (as_string_list (field o fc.1))) l) as Hitem.
  { induction l as [|[fam cat] l IH]; intros o weak; cbn [foldl existsb]; [by rewrite orb_false_r|].
    rewrite IH, orb_assoc. f_equal. cbn [add_weak fst snd]. unfold weak_names, field.
    destruct (List.filter _ _) as [|x xs] eqn:Hf.
    - assert (existsb (fun name => str_in (lower name) cat) (as_string_list (get (obs_data o) fam)) = false)
        as ->; [|by rewrite orb_false_r].
      by apply existsb_false_elem_of, lfilter_nil.
    - assert (existsb (fun name => str_in (lower name) cat) (as_string_list (get (obs_data o) fam)) = true)
        as ->.
      { apply existsb_elem_of. exists x.
        apply (elem_of_lfilter (fun name => str_in (lower name) cat)). rewrite Hf. constructor. }
      by rewrite dict_set_not_nil, orb_true_r. }
  assert (∀ weak, match foldl (fun weak item => foldl (add_weak item) weak WEAK_SSH_BY_FAMILY) weak g
    with [] => false | _ => true end =
    match weak with [] => false | _ => true end || existsb weak_ssh g) as Hgo; [|apply (Hgo [])].
  induction g as [|o g IH]; intros weak; cbn [foldl existsb]; [by rewrite orb_false_r|].
  by rewrite IH, Hitem, orb_assoc.
Qed.

(** An [omap] or a filter over it is empty when no item qualifies. *)
Lemma omap_empty {A B} (f : A → option B) l :
  match omap f l with [] => false | _ => true end =
  existsb (fun x => match f x with Some _ => true | None => false end) l.
Proof. induction l as [|x l IH]; cbn; [done|]. by destruct (f x); cbn. Qed.

Lemma filter_omap_empty {A B} (f : A → option B) (p : B → bool) l :
  match List.filter p (omap f l) with [] => false | _ => true end =
  existsb (fun x => match f x with Some b => p b | None => false end) l.
Proof. induction l as [|x l IH]; cbn; [done|]. destruct (f x) as [b|]; cbn; [|done]. by destruct (p b). Qed.

Lemma existsb_ext {A} (p q : A → bool) l : (∀ x, p x = q x) → existsb p l = existsb q l.
Proof. intros H. induction l as [|x l IH]; cbn; [done|]. by rewrite H, IH. Qed.

Lemma has_header_get name o :
  has_header name o = match dict_get (_headers o) (lower name) with
                      | Some (String _ _) => true | _ => false end.
Proof. unfold has_header, _header. by destruct (dict_get (_headers o) (lower name)) as [[]|]. Qed.

Lemma disclosed_headers_empty g :
  match disclosed_headers g with [] => false | _ => true end = existsb discloses_server g.
Proof.
  unfold disclosed_headers.
  match goal with |- context [foldl ?f [] g] => set (step := f) end.
  assert (∀ o d, match step d o with [] => false | _ => true end =
    match d with [] => false | _ => true end || discloses_server o) as Hstep.
  { intros o d. subst step. unfold discloses_server. rewrite !has_header_get. cbn [foldl].
    change (lower "server") with "server". change (lower "x-powered-by") with "x-powered-by".
    destruct (dict_get (_headers o) "server") as [[|? ?]|];
      destruct (dict_get (_headers o) "x-powered-by") as [[|? ?]|];
      rewrite ?dict_set_not_nil, ?orb_true_r, ?orb_false_r; done. }
  assert (∀ d, match foldl step d g with [] => false | _ => true end =
    match d with [] => false | _ => true end || existsb discloses_server g) as Hgo; [|apply (Hgo [])].
  induction g as [|o g IH]; intros d; cbn [foldl existsb]; [by rewrite orb_false_r|].
  by rewrite IH, Hstep, orb_assoc.
Qed.

Lemma missing_headers_empty g :
  match missing_headers g with [] => false | _ => true end = missing_security_headers g.
Proof.
  unfold missing_headers, missing_security_headers.
  by destruct (existsb (has_header "x-frame-options") g), (existsb frame_ancestors g),
    (existsb (has_header "content-security-policy") g).
Qed.

Lemma service_map_get c id : dict_get (service_map c) id = known_service c id.
Proof.
  unfold service_map, known_service. induction c.(services) as [|s l IH] using rev_ind; [done|].
  rewrite foldl_app, rev_unit. cbn [foldl]. rewrite dict_get_set, IH. unfold find_first. cbn [List.filter].
  rewrite (String.eqb_sym id). by destruct (String.eqb _ _).
Qed.

Lemma untrusted_spec o : _untrusted o = untrusted o.
Proof. unfold _untrusted, untrusted, field. destruct (get _ _) as [| | |s| |]; cbn; try done.
  - by destruct b.
  - by destruct (int_of_str s). Qed.

(** ** The rules implement their specifications *)

(** For a rule that drafts from the observations satisfying a test. *)
Ltac by_filter :=
  split; [by_decide|]; intros c; eexists; split; [reflexivity|];
  first [apply filter_body | eapply filter_body]; [done|]; intros sample l; repeat eexists.

(** For a rule that drafts from all observations of a service when [compute] gives
    something. *)
Ltac by_computing compute :=
  split; [by_decide|]; intros c; eexists; split; [reflexivity|];
  apply (computed_body _ _ compute);
    [ | intros g; cbn beta zeta;
        let computed := eval cbn beta zeta in (compute g) in
        destruct computed; [done|]; destruct g; [done|]; repeat eexists ].

Lemma ssh_implements hz : implements hz (mkSpec WeakSshAlgorithmsRule ["ssh_algorithms"]
  (fun _ => existsb weak_ssh)).
Proof. by_computing weak_algorithms. intros g _. symmetry. apply weak_algorithms_empty. Qed.

Lemma legacy_tls_implements hz : implements hz (mkSpec LegacyTlsProtocolRule ["tls_session"]
  (fun _ => existsb legacy_tls)).
Proof.
  by_computing (fun g => List.filter (fun protocol =>
    str_in (_normalize_protocol protocol) LEGACY_TLS_PROTOCOLS)
    (omap (fun item => let protocol := get item.(obs_data) "protocol" in
       if truthy protocol then Some (py_str (por protocol (PStr EmptyString))) else None) g)).
  intros g _. rewrite filter_omap_empty. apply existsb_ext. intros o.
  unfold legacy_tls, field, por. cbn [spec_reports]. by destruct (truthy (get (obs_data o) "protocol")).
Qed.

Lemma weak_cipher_implements hz : implements hz (mkSpec WeakTlsCipherRule ["tls_session"]
  (fun _ => existsb weak_cipher)).
Proof.
  by_computing (fun g : list ProtocolObservationRecord => omap (fun item : ProtocolObservationRecord =>
    let cipher := get item.(obs_data) "cipher" in
    if truthy cipher && _weak_cipher (py_str cipher) then Some (py_str cipher) else None) g).
  intros g _. rewrite omap_empty. apply existsb_ext. intros o. unfold weak_cipher, field. cbn.
  by destruct (_ && _).
Qed.

Lemma untrusted_implements hz : implements hz (mkSpec TlsCertificateUntrustedRule ["tls_certificate"]
  (fun _ => existsb untrusted)).
Proof.
  split; [by_decide|]. intros c. eexists. split; [reflexivity|].
  apply filter_body; [|intros sample l; repeat eexists].
  intros g. apply existsb_ext. intros o. symmetry. apply untrusted_spec.
Qed.

Lemma expired_implements hz : implements hz (mkSpec (TlsCertificateExpiredRule hz)
  ["tls_certificate"] (fun c => existsb (expired hz c.(evaluated_at)))).
Proof.
  split; [by_decide|]. intros c. eexists. split; [reflexivity|].
  assert (∀ g xs, filter_or_raise (fun item =>
      _expired hz (get item.(obs_data) "not_after") c.(evaluated_at)) g = Return xs →
    xs = List.filter (expired hz c.(evaluated_at)) g) as Hxs.
  { intros g xs [-> _]%filter_or_raise_Return. apply filter_ext. intros o.
    unfold _expired, expired, field, mbind, outcome_bind. by destruct (parse_time _ _) as [[|]|]. }
  match goal with |- body_spec _ _ _ ?b => set (body := b) end.
  assert (∀ g r, body g = Return r →
    (match List.filter (expired hz c.(evaluated_at)) g with
     | [] => mret None
     | (sample :: _) as l => service_draft CertExpired_head TLS_CERT_EXPIRED HIGH CONF_HIGH sample
          (tls_expired_rationale (get sample.(obs_data) "not_after") (isoformat c.(evaluated_at)))
          [("not_after", get sample.(obs_data) "not_after");
           ("subject", get sample.(obs_data) "subject")] l
     end = Return r)) as Hbody.
  { intros g r. subst body. cbn beta zeta. unfold mbind at 1, outcome_bind at 1.
    destruct (filter_or_raise _ g) as [xs|] eqn:Hf; [|done]. apply Hxs in Hf as ->.
    by destruct (List.filter _ g). }
  edestruct (filter_body hz CertExpired_head (expired hz c.(evaluated_at))
    (fun sample l => service_draft CertExpired_head TLS_CERT_EXPIRED HIGH CONF_HIGH sample
      (tls_expired_rationale (get sample.(obs_data) "not_after") (isoformat c.(evaluated_at)))
      [("not_after", get sample.(obs_data) "not_after"); ("subject", get sample.(obs_data) "subject")]
      (sample :: l)) (existsb (expired hz c.(evaluated_at)))) as [Hnone Hsome _]; [done|by intros; repeat eexists|].
  split; [intros g Hg ?%Hbody|intros g d ?%Hbody|intros g e]; [by apply Hnone|by apply Hsome|].
  subst body. cbn beta zeta. unfold mbind at 1, outcome_bind at 1.
  destruct (filter_or_raise _ g) as [[|sample l]|e'] eqn:Hf; [done|intros ?%service_draft_Raise; by left|].
  intros [= ->]. apply filter_or_raise_Raise in Hf as (o & Ho & He). right. exists o. split; [done|].
  unfold bad_date, field. unfold _expired, mbind, outcome_bind in He.
  by destruct (parse_time _ _) as [|e']; [|injection He as ->].
Qed.

Lemma hsts_implements hz : implements hz (mkSpec MissingHstsRule ["http_response"] missing_hsts).
Proof.
  split; [by_decide|]. intros c. eexists. split; [reflexivity|].
  apply (computed_body _ _ (fun g => if missing_hsts c g then [tt] else [])).
  - intros g _. cbn. by destruct (missing_hsts c g).
  - intros [|o g]; cbn zeta; [by destruct (missing_hsts c [])|].
    rewrite service_map_get. unfold missing_hsts. destruct (known_service c _) as [s|]; [|done].
    destruct (_is_https s); [|done]. cbn [negb andb].
    destruct (existsb _ (o :: g)); [done|]. cbn [negb]. repeat eexists.
Qed.

Lemma headers_implements hz : implements hz (mkSpec MissingSecurityHeadersRule ["http_response"]
  (fun _ => missing_security_headers)).
Proof. by_computing missing_headers. intros g _. symmetry. apply missing_headers_empty. Qed.

Lemma disclosure_implements hz : implements hz (mkSpec HttpServerDisclosureRule ["http_response"]
  (fun _ => existsb discloses_server)).
Proof. by_computing disclosed_headers. intros g _. symmetry. apply disclosed_headers_empty. Qed.

Lemma flag_spec key o : flag key o = is_true (get o.(obs_data) key).
Proof. done. Qed.

Lemma protocol_specs_implemented hz sp : sp ∈ protocol_specs hz → implements hz sp.
Proof.
  unfold protocol_specs. intros Hsp. revert sp Hsp. apply Forall_forall.
  repeat apply Forall_cons_2; [| | | | | | | | | | | | | | |apply Forall_nil_2].
  - apply ssh_implements.
  - apply legacy_tls_implements.
  - apply weak_cipher_implements.
  - apply expired_implements.
  - apply untrusted_implements.
  - apply hsts_implements.
  - apply headers_implements.
  - apply disclosure_implements.
  - by_filter.
  - by_filter.
  - by_filter.
  - by_filter.
  - by_filter.
  - by_filter.
  - by_filter.
Qed.

(** ** Consequences *)

(** A draft about a service: what it says of the observations it cites. *)
Lemma service_draft_Return self copy sev conf sample why dat linked d :
  service_draft self copy sev conf sample why dat linked = Return (Some d) →
  asset_id d = Some sample.(obs_asset_id) ∧ draft_service_id d = Some sample.(obs_service_id) ∧
  rule_id d = self.(head_id) ∧ dedupe_key d = service_dedupe_key sample ∧
  observation_ids d = observation_ids_of linked ∧ draft_violation d = None ∧
  ∀ e, e ∈ evidence_artifact_ids d → ∃ o, o ∈ linked ∧ o.(obs_evidence_artifact_id) = Some e.
Proof.
  unfold service_draft, fmap, outcome_fmap.
  destruct (draft _ _ _ _ _ _ _ _ _ _ _) as [d'|] eqn:Hd; [|done]. intros [= ->].
  apply draft_Return in Hd as [-> Hv]. split_and!; try done.
  intros e He. cbn in He. apply elem_of_take in He as (i & He & _).
  apply list_elem_of_lookup_2, append_all_elem in He as [He|He]; [by apply elem_of_nil in He|].
  by apply observation_evidence_from_elem in He as [?%elem_of_nil|].
Qed.

(** The groups a rule visits. *)
Lemma for_each_service_Return c kinds body ds :
  Forall (fun k => k ∉ NON_EVIDENCE_KINDS) kinds →
  for_each_service c kinds body = Return ds →
  (∀ d, d ∈ ds ↔ ∃ a s, service_observations c kinds a s ≠ [] ∧
                        body (service_observations c kinds a s) = Return (Some d)) ∧
  (∀ a s, service_observations c kinds a s ≠ [] →
     ∃ r, body (service_observations c kinds a s) = Return r).
Proof.
  unfold for_each_service. intros Hk [Hin Hall]%collect_Return.
  destruct (grouped_by_service_spec (usable_observations c (Some kinds))) as [_ Hgroups].
  split.
  - intros d. rewrite Hin. split.
    + intros ([[a s] g] & [-> Hne]%Hgroups & Hb). exists a, s. cbn in *.
      rewrite group_of_service in Hne, Hb by done. done.
    + intros (a & s & Hne & Hb). exists ((a, s), service_observations c kinds a s).
      split; [|done]. apply Hgroups. by rewrite group_of_service.
  - intros a s Hne. destruct (Hall ((a, s), service_observations c kinds a s)) as [r Hr]; [|by eexists].
    apply Hgroups. by rewrite group_of_service.
Qed.

Lemma elem_of_service_observations c kinds a s o :
  o ∈ service_observations c kinds a s ↔
    o ∈ c.(observations) ∧ o.(obs_kind) ∈ kinds ∧ o.(obs_asset_id) = a ∧ o.(obs_service_id) = s.
Proof.
  unfold service_observations. rewrite elem_of_lfilter, !andb_true_iff, str_in_spec, !String.eqb_eq. tauto.
Qed.

(** A draft about a service: only when the rule's test holds there. *)
Lemma protocol_draft hz sp c ds d :
  implements hz sp → Rule_evaluate sp.(spec_rule) c = Return ds → d ∈ ds →
  ∃ a s g, g = service_observations c sp.(spec_kinds) a s ∧
    sp.(spec_reports) c g = true ∧ asset_id d = Some a ∧ draft_service_id d = Some s ∧
    dedupe_key d = a +:+ ":" +:+ s ∧ rule_id d = sp.(spec_rule).(head_id) ∧
    observation_ids d ≠ [] ∧
    (∀ i, i ∈ observation_ids d → i ∈ map obs_id g) ∧
    (∀ e, e ∈ evidence_artifact_ids d → ∃ o, o ∈ g ∧ o.(obs_evidence_artifact_id) = Some e).
Proof.
  intros [Hk Himpl] Heval Hd. destruct (Himpl c) as (body & Hbody & [Hnone Hsome _]).
  rewrite Hbody in Heval. apply for_each_service_Return in Heval as [Hds _]; [|done].
  apply Hds in Hd as (a & s & Hne & Hb). exists a, s, (service_observations c (spec_kinds sp) a s).
  destruct (Hsome _ _ Hb) as (Hrep & copy & sev & conf & sample & why & dat & linked & Hsm & Hl & Hdr).
  apply service_draft_Return in Hdr as (Ha & Hs & Hr & Hkey & Hids & _ & Hev).
  destruct (observation_ids_of_spec linked) as (_ & _ & Hsub & Hne').
  pose proof (Hl _ Hsm) as (_ & _ & <- & <-)%elem_of_service_observations.
  split_and!; try done.
  - rewrite Hids. apply Hne'. intros ->. by apply elem_of_nil in Hsm.
  - rewrite Hids. intros i (o & -> & Ho)%Hsub%list_elem_of_fmap. apply list_elem_of_fmap. eauto.
  - intros e (o & Ho & He)%Hev. eauto.
Qed.

Lemma protocol_reports hz sp c ds a s :
  implements hz sp → Rule_evaluate sp.(spec_rule) c = Return ds →
  let g := service_observations c sp.(spec_kinds) a s in
  g ≠ [] → sp.(spec_reports) c g = true →
  ∃ d, d ∈ ds ∧ asset_id d = Some a ∧ draft_service_id d = Some s.
Proof.
  intros [Hk Himpl] Heval g Hg Hrep. destruct (Himpl c) as (body & Hbody & [Hnone Hsome _]).
  rewrite Hbody in Heval. apply for_each_service_Return in Heval as [Hds Hall]; [|done].
  destruct (Hall a s Hg) as [[d|] Hr]; [|by rewrite (Hnone _ Hg Hr) in Hrep].
  exists d. split; [apply Hds; by exists a, s|].
  destruct (Hsome _ _ Hr) as (_ & ? & ? & ? & sample & ? & ? & linked & Hsm & Hl & Hdr).
  apply service_draft_Return in Hdr as (-> & -> & _).
  by pose proof (Hl _ Hsm) as (_ & _ & -> & ->)%elem_of_service_observations.
Qed.

(** One draft per service. *)
Lemma protocol_drafts_NoDup hz sp c ds :
  implements hz sp → Rule_evaluate sp.(spec_rule) c = Return ds →
  NoDup (map (fun d => (asset_id d, draft_service_id d)) ds).
Proof.
  intros [Hk Himpl] Heval. destruct (Himpl c) as (body & Hbody & [_ Hsome _]).
  rewrite Hbody in Heval. unfold for_each_service in Heval.
  destruct (grouped_by_service_spec (usable_observations c (Some sp.(spec_kinds)))) as [Hnd Hgroups].
  eapply (collect_NoDup _ (fun kg => (Some kg.1.1, Some kg.1.2))); [| |exact Heval].
  - rewrite <- (map_map fst (fun k : string * string => (Some k.1, Some k.2))).
    apply NoDup_fmap; [|done]. intros [??] [??]. naive_solver.
  - intros [[a s] g] d [-> _]%Hgroups Hb.
    destruct (Hsome _ _ Hb) as (_ & ? & ? & ? & sample & ? & ? & linked & Hsm & Hl & Hdr).
    apply service_draft_Return in Hdr as (-> & -> & _). cbn.
    by apply Hl, of_service_spec in Hsm as [_ [= -> ->]].
Qed.

(** Why a protocol rule fails. *)
Lemma protocol_raise hz sp c e :
  implements hz sp → Rule_evaluate sp.(spec_rule) c = Raise e →
  refused e ∨ ∃ o, o ∈ c.(observations) ∧ o.(obs_kind) ∈ sp.(spec_kinds) ∧ bad_date hz e o.
Proof.
  intros [_ Himpl] Heval. destruct (Himpl c) as (body & Hbody & [_ _ Hraise]).
  rewrite Hbody in Heval. unfold for_each_service in Heval.
  apply collect_Raise in Heval as ([k g] & Hg & He).
  destruct (grouped_by_service_spec (usable_observations c (Some sp.(spec_kinds)))) as [_ Hgroups].
  apply Hgroups in Hg as [-> _]. destruct (Hraise _ _ He) as [|(o & Ho & Hd)]; [by left|right].
  apply of_service_spec in Ho as [Ho _]. apply usable_observations_spec in Ho as (? & _ & ?). by exists o.
Qed.

(** Only an overflow escapes the date parser. *)
Lemma parse_time_Raise hz v e : parse_time hz v = Raise e → ∃ m, e = PyOverflowError m.
Proof.
  unfold parse_time. destruct v; try done. case_match; [done|]. repeat (case_match; try done).
  intros [= <-]. by eexists.
Qed.
