(* ===== verification/FindInventoryProofs.v ===== *)
(** * When the inventory and passive rules report *)

From S2P Require Import Prelude PyBase PyText FindModels FindCopy FindRules FindProtocolRules FindInventoryRules FindRulesProofs.

(** ** Management services *)

Definition clean_name (s : ServiceRecord) : string :=
  strip (lower (str_or s.(service_name) EmptyString)).

(** An open service is insecure by its name; an unnamed one by its port. *)
Definition insecure_as (s : ServiceRecord) (name : string) (sev : Severity) : Prop :=
  s.(service_state) = "open" ∧
  ((clean_name s ∈ INSECURE_MANAGEMENT_NAMES ∧ name = clean_name s ∧
    Severity_of (default "medium" (dict_get NAME_SEVERITY name)) = Some sev) ∨
   (clean_name s ∈ ["unknown"; ""] ∧
    ∃ sev_text, management_port s.(service_port) (lower s.(service_protocol)) = Some (name, sev_text) ∧
      Severity_of sev_text = Some sev)).

Lemma name_severities :
  Forall (fun name => is_Some (Severity_of (default "medium" (dict_get NAME_SEVERITY name))))
    INSECURE_MANAGEMENT_NAMES.
Proof. by_decide. Qed.

(** Every cataloged port names a cataloged service with a valid severity. *)
Lemma port_severities port protocol name sev_text :
  management_port port protocol = Some (name, sev_text) →
  name ∈ INSECURE_MANAGEMENT_NAMES ∧ is_Some (Severity_of sev_text).
Proof.
  unfold management_port. destruct (find_first _ _) as [[[p q] v]|] eqn:Hf; [|done].
  intros [= ->]. apply find_first_Some in Hf as [Hin _]. revert Hin.
  assert (Forall (fun e : Z * string * (string * string) =>
    e.2.1 ∈ INSECURE_MANAGEMENT_NAMES ∧ is_Some (Severity_of e.2.2)) INSECURE_MANAGEMENT_PORTS)
    as Hall by by_decide.
  rewrite Forall_forall in Hall. apply (Hall (p, q, (name, sev_text))).
Qed.

Lemma severity_value_Some v s : Severity_of v = Some s → severity_value v = Return s.
Proof. unfold severity_value. by intros ->. Qed.

Lemma insecure_as_unique s n1 v1 n2 v2 :
  insecure_as s n1 v1 → insecure_as s n2 v2 → n1 = n2 ∧ v1 = v2.
Proof.
  assert (∀ x, x ∈ INSECURE_MANAGEMENT_NAMES → x ∉ ["unknown"; ""]) as Hdisj
    by (apply Forall_forall; by_decide).
  intros [_ [(H1 & -> & S1)|(H1 & t1 & P1 & S1)]] [_ [(H2 & -> & S2)|(H2 & t2 & P2 & S2)]];
    [split; [done|congruence]|by destruct (Hdisj _ H1)|by destruct (Hdisj _ H2)|].
  rewrite P1 in P2. simplify_eq. split; [done|congruence].
Qed.

(** The match never raises, and is the specification above. *)
Lemma match_spec s :
  ∃ r, _match s = Return r ∧
       match r with
       | Some (name, sev) => insecure_as s name sev
       | None => ∀ name sev, ¬ insecure_as s name sev
       end.
Proof.
  unfold _match. fold (clean_name s).
  destruct (String.eqb_spec s.(service_state) "open") as [Hopen|Hclosed]; cbn [negb];
    [|exists None; split; [done|]; by intros ?? [??]].
  destruct (str_in (clean_name s) INSECURE_MANAGEMENT_NAMES) eqn:Hname.
  - apply str_in_spec in Hname. pose proof name_severities as Hsev. rewrite Forall_forall in Hsev.
    destruct (Hsev _ Hname) as [sev Hs]. exists (Some (clean_name s, sev)).
    rewrite (severity_value_Some _ _ Hs). split; [done|]. split; [done|left; done].
  - apply str_in_false in Hname.
    destruct (management_port _ _) as [[port_name sev_text]|] eqn:Hport.
    + destruct (port_severities _ _ _ _ Hport) as [Hpn [sev Hs]].
      destruct (str_in (clean_name s) [port_name; "unknown"; ""]) eqn:Hin.
      * apply str_in_spec in Hin. rewrite andb_false_r. exists (Some (port_name, sev)).
        rewrite (severity_value_Some _ _ Hs). split; [done|]. split; [done|right].
        split; [|by exists sev_text].
        apply elem_of_cons in Hin as [Heq|Hin]; [by rewrite Heq in Hname|done].
      * apply str_in_false in Hin. exists None. split.
        { assert (truthy (PStr (clean_name s)) = true) as ->; [|done].
          cbn. destruct (String.eqb_spec (clean_name s) "") as [He|]; [|done].
          destruct Hin. rewrite He. by repeat constructor. }
        intros name v [_ [(Hn & _)|(Hn & _)]]; [done|]. apply Hin. by constructor.
    + exists None. split; [done|]. intros name v [_ [(Hn & _)|(_ & t & Ht & _)]]; congruence.
Qed.

(** ** Passive sensors *)

(** The record of a sensor in a passive result. *)
Definition sensor_of (document : dict) (name : string) : option dict :=
  match _sensor document name with Return r => r | Raise _ => None end.

(** The [hits] of a record, at least one, under a status that counts. *)
Definition seen_by (record : dict) (status : string) (hits : Z) : Prop :=
  py_str (por (get record "status") (PStr EmptyString)) = status ∧
  status ∈ ["detected"; "partial"] ∧
  py_int (por (get record "hits") (PInt 0)) = Return hits ∧ 1 ≤ hits.

Lemma sensor_presence_spec c self sensor copy sev ds :
  _sensor_presence c self sensor copy sev = Return ds →
  (∀ d, d ∈ ds → ∃ document record status hits,
     c.(passive_result) = Some document ∧ sensor_of document sensor = Some record ∧
     seen_by record status hits ∧
     asset_id d = None ∧ draft_service_id d = None ∧ dedupe_key d = "audit" ∧
     rule_id d = self.(head_id) ∧ observation_ids d = [] ∧ severity d = sev ∧
     confidence d = (if String.eqb status "detected" then CONF_HIGH else CONF_MEDIUM) ∧
     (∀ e, e ∈ evidence_artifact_ids d → c.(passive_artifact_id) = Some e)) ∧
  (∀ document record status hits,
     c.(passive_result) = Some document → sensor_of document sensor = Some record →
     seen_by record status hits → ∃ d, ds = [d]).
Proof.
  unfold _sensor_presence, sensor_of.
  destruct c.(passive_result) as [document|]; [|intros [= <-]; split; [by intros ? ?%elem_of_nil|done]].
  unfold mbind, outcome_bind.
  destruct (_sensor document sensor) as [[record|]|] eqn:Hs; [| |done]; cbn beta iota;
    [|intros [= <-]; split; [by intros ? ?%elem_of_nil|]; intros ???? [= <-]; by rewrite Hs].
  set (status := py_str (por (get record "status") (PStr EmptyString))).
  destruct (py_int _) as [hits|] eqn:Hh; [|done].
  destruct (negb (str_in status ["detected"; "partial"]) || (hits <? 1)) eqn:Hb.
  - intros [= <-]. split; [by intros ? ?%elem_of_nil|].
    intros ?? st h [= <-]. rewrite Hs. intros [= <-] (Hst & Hin & Hh' & Hpos).
    rewrite Hh in Hh'. injection Hh' as <-. fold status in Hst. subst st.
    apply str_in_spec in Hin. rewrite Hin in Hb. cbn in Hb. apply Z.ltb_lt in Hb. lia.
  - destruct (draft _ _ _ _ _ _ _ _ _ _ _) as [d|] eqn:Hd; [|done]. intros [= <-].
    split; [|by intros; exists d]. intros d' ->%list_elem_of_singleton.
    apply orb_false_iff in Hb as [Hin%negb_false_iff Hpos%Z.ltb_ge]. apply str_in_spec in Hin.
    apply draft_Return in Hd as [-> _]. exists document, record, status, hits. rewrite Hs.
    split_and!; try done. intros e He. cbn in He.
    apply elem_of_take in He as (i & He%list_elem_of_lookup_2 & _).
    unfold passive_evidence in He. destruct c.(passive_artifact_id) as [[|? ?]|];
      [by apply elem_of_nil in He|by apply list_elem_of_singleton in He as ->|by apply elem_of_nil in He].
Qed.

(** The same, as a condition on the stored result. *)
Lemma sensor_presence_iff c self sensor copy sev ds :
  _sensor_presence c self sensor copy sev = Return ds →
  (∀ d, d ∈ ds → asset_id d = None ∧ dedupe_key d = "audit") ∧ (length ds <= 1)%nat ∧
  (ds ≠ [] ↔ ∃ document, c.(passive_result) = Some document ∧ ∃ record status hits,
     sensor_of document sensor = Some record ∧ seen_by record status hits).
Proof.
  intros [H1 H2]%sensor_presence_spec. split_and!.
  - intros d (?&?&?&?&_&_&_&?&_&?&_)%H1. done.
  - destruct ds as [|d ds]; [simpl; lia|].
    destruct (H1 d ltac:(constructor)) as (document&record&status&hits&Hp&Hs&Hseen&_).
    destruct (H2 _ _ _ _ Hp Hs Hseen) as [? [= -> ->]]. done.
  - split.
    + destruct ds as [|d ds]; [done|]. intros _.
      destruct (H1 d ltac:(constructor)) as (document&record&status&hits&?&?&?&_).
      exists document. split; [done|]. by exists record, status, hits.
    + intros (document&Hp&record&status&hits&Hs&Hseen).
      by destruct (H2 _ _ _ _ Hp Hs Hseen) as [? ->].
Qed.

(** ** DHCP servers *)

(** The identifier an entry of the server list stands for. *)
Definition server_identifier (item : pyval) : option string :=
  let value := match item with
               | PDict d => por (get d "server_id") (get d "address")
               | _ => item
               end in
  if truthy value then Some (py_str value) else None.

Definition dhcp_entries (document : dict) : list pyval :=
  match por (get (match get (default [] (sensor_of document "dhcpv4")) "summary" with
                  | PDict d => d | _ => [] end) "servers") (PList []) with
  | PList l => l
  | _ => []
  end.

Lemma dhcp_servers_spec document servers :
  _dhcp_servers document = Return servers →
  NoDup servers ∧ ∀ s, s ∈ servers ↔ ∃ item, item ∈ dhcp_entries document ∧
                                             server_identifier item = Some s.
Proof.
  unfold _dhcp_servers, dhcp_entries, sensor_of, mbind, outcome_bind, mret, outcome_ret.
  destruct (_sensor document "dhcpv4") as [found|]; [|done]. cbv zeta.
  destruct (por _ (PList [])) as [| | | |l|] eqn:Hp;
    try (intros [= <-]; split; [constructor|]; intros x; split;
         [by intros ?%elem_of_nil|by intros (? & ?%elem_of_nil & _)]).
  intros [= <-].
  assert (∀ acc, NoDup acc →
    let r := foldl (fun identifiers item =>
      let value := match item with
                   | PDict d => por (get d "server_id") (get d "address") | _ => item end in
      if truthy value then append_new identifiers (py_str value) else identifiers) acc l in
    NoDup r ∧ ∀ s, s ∈ r ↔ s ∈ acc ∨ ∃ item, item ∈ l ∧ server_identifier item = Some s) as Hgo.
  { clear Hp. induction l as [|item l IH]; intros acc Hacc; cbn [foldl].
    { split; [done|]. intros s. split; [by left|]. by intros [?|(? & ?%elem_of_nil & _)]. }
    cbv zeta in IH |- *.
    match goal with |- context [if truthy ?v then _ else _] => set (value := v) end.
    assert (server_identifier item = if truthy value then Some (py_str value) else None) as Hid
      by (subst value; by destruct item).
    destruct (truthy value).
    - destruct (IH (append_new acc (py_str value)) (append_new_NoDup _ _ Hacc)) as [H1 H2].
      split; [done|]. intros s. rewrite H2, append_new_elem.
      setoid_rewrite elem_of_cons. naive_solver.
    - destruct (IH acc Hacc) as [H1 H2]. split; [done|]. intros s. rewrite H2.
      setoid_rewrite elem_of_cons. naive_solver. }
  destruct (Hgo [] (NoDup_nil_2)) as [H1 H2]. split; [done|]. intros s. rewrite H2.
  split; [|by right]. by intros [?%elem_of_nil|].
Qed.

(** The rule over the DHCP servers. *)
Lemma multiple_dhcp_spec c ds :
  Rule_evaluate MultipleDhcpServersRule c = Return ds →
  (∀ d, d ∈ ds → ∃ document servers,
     c.(passive_result) = Some document ∧ _dhcp_servers document = Return servers ∧
     (2 <= length servers)%nat ∧ asset_id d = None ∧ draft_service_id d = None ∧
     dedupe_key d = "audit" ∧ rule_id d = MultipleDhcp_head.(head_id) ∧ observation_ids d = [] ∧
     get (data d) "servers" = PStrings servers) ∧
  (∀ document servers,
     c.(passive_result) = Some document → _dhcp_servers document = Return servers →
     (2 <= length servers)%nat → ∃ d, ds = [d]).
Proof.
  cbn [Rule_evaluate MultipleDhcpServersRule].
  destruct c.(passive_result) as [document|]; [|intros [= <-]; split; [by intros ? ?%elem_of_nil|done]].
  unfold mbind, outcome_bind. destruct (_dhcp_servers document) as [servers|] eqn:Hs; [|done].
  destruct (Nat.ltb_spec (length servers) 2) as [Hlen|Hlen].
  - intros [= <-]. split; [by intros ? ?%elem_of_nil|].
    intros ? servers' [= <-]. rewrite Hs. intros [= <-]. lia.
  - destruct (draft _ _ _ _ _ _ _ _ _ _ _) as [d|] eqn:Hd; [|done]. intros [= <-].
    split; [|by intros; exists d]. intros d' ->%list_elem_of_singleton.
    apply draft_Return in Hd as [-> _]. exists document, servers. by split_and!.
Qed.

(** Two entries of the list name different servers exactly when the rule sees at least two. *)
Lemma dhcp_servers_two document servers :
  _dhcp_servers document = Return servers →
  (2 <= length servers)%nat ↔
  ∃ a b, a ≠ b ∧ ∀ s, s ∈ [a; b] → ∃ item, item ∈ dhcp_entries document ∧
                                            server_identifier item = Some s.
Proof.
  intros [Hnd Hin]%dhcp_servers_spec. setoid_rewrite <- Hin. split.
  - intros Hl. destruct servers as [|a [|b servers]]; simpl in Hl; try lia. exists a, b. split.
    + intros ->. apply NoDup_cons in Hnd as [Hno _]. apply Hno. constructor.
    + set_solver.
  - intros (a & b & Hab & H).
    pose proof (H a ltac:(set_solver)) as Ha. pose proof (H b ltac:(set_solver)) as Hb.
    destruct servers as [|x [|y servers]]; simpl; [by apply elem_of_nil in Ha| |lia].
    apply list_elem_of_singleton in Ha, Hb. congruence.
Qed.

Lemma dhcp_servers_raise document e :
  _dhcp_servers document = Raise e → dhcp_entries document = [].
Proof.
  unfold dhcp_entries, sensor_of, _dhcp_servers, mbind, outcome_bind.
  destruct (_sensor document "dhcpv4") as [found|e']; [by repeat case_match|done].
Qed.

Lemma multiple_dhcp_iff c ds :
  Rule_evaluate MultipleDhcpServersRule c = Return ds →
  (∀ d, d ∈ ds → asset_id d = None ∧ dedupe_key d = "audit") ∧ (length ds <= 1)%nat ∧
  (ds ≠ [] ↔ ∃ document, c.(passive_result) = Some document ∧
     ∃ a b, a ≠ b ∧ ∀ s, s ∈ [a; b] → ∃ item, item ∈ dhcp_entries document ∧
                                               server_identifier item = Some s).
Proof.
  intros [H1 H2]%multiple_dhcp_spec. split_and!.
  - intros d (?&?&_&_&_&?&_&?&_)%H1. done.
  - destruct ds as [|d ds]; [simpl; lia|].
    destruct (H1 d ltac:(constructor)) as (document&servers&Hp&Hs&Hl&_).
    destruct (H2 _ _ Hp Hs Hl) as [? [= -> ->]]. done.
  - split.
    + destruct ds as [|d ds]; [done|]. intros _.
      destruct (H1 d ltac:(constructor)) as (document&servers&Hp&Hs&Hl&_).
      exists document. split; [done|]. by apply (dhcp_servers_two _ _ Hs).
    + intros (document&Hp&Htwo). destruct (_dhcp_servers document) as [servers|e] eqn:Hs.
      * by destruct (H2 _ _ Hp Hs (proj2 (dhcp_servers_two _ _ Hs) Htwo)) as [? ->].
      * destruct Htwo as (a&b&_&Hitems). destruct (Hitems a) as (item&Hitem&_); [constructor|].
        rewrite (dhcp_servers_raise _ _ Hs) in Hitem. by apply elem_of_nil in Hitem.
Qed.

(** The management rule. *)
Lemma management_spec c ds :
  Rule_evaluate InsecureManagementRule c = Return ds →
  (∀ d, d ∈ ds → ∃ s name sev, s ∈ c.(services) ∧ insecure_as s name sev ∧
     asset_id d = Some s.(service_asset_id) ∧ draft_service_id d = Some s.(service_id) ∧
     dedupe_key d = inventory_dedupe_key s ∧ severity d = sev ∧
     rule_id d = Management_head.(head_id) ∧ observation_ids d = [] ∧
     get (data d) "matched_as" = PStr name) ∧
  (∀ s name sev, s ∈ c.(services) → insecure_as s name sev →
     ∃ d, d ∈ ds ∧ dedupe_key d = inventory_dedupe_key s ∧ severity d = sev).
Proof.
  cbn [Rule_evaluate InsecureManagementRule]. intros [Hin Hall]%collect_Return.
  assert (∀ s r, management_draft s = Return r →
    match r with
    | None => ∀ name sev, ¬ insecure_as s name sev
    | Some d => ∃ name sev, insecure_as s name sev ∧
       asset_id d = Some s.(service_asset_id) ∧ draft_service_id d = Some s.(service_id) ∧
       dedupe_key d = inventory_dedupe_key s ∧ severity d = sev ∧
       rule_id d = Management_head.(head_id) ∧ observation_ids d = [] ∧
       get (data d) "matched_as" = PStr name
    end) as Hdraft.
  { intros s r. destruct (match_spec s) as (m & Hm & Hspec).
    unfold management_draft, mbind, outcome_bind. rewrite Hm.
    destruct m as [[name sev]|]; [|by intros [= <-]]. unfold fmap, outcome_fmap.
    destruct (draft _ _ _ _ _ _ _ _ _ _ _) as [d|] eqn:Hd; [|done]. intros [= <-].
    apply draft_Return in Hd as [-> _]. exists name, sev. by split_and!. }
  split.
  - intros d (s & Hs & Hd)%Hin. apply Hdraft in Hd as (name & sev & ?). by exists s, name, sev.
  - intros s name sev Hs Hi. destruct (Hall s Hs) as [[d|] Hr].
    + exists d. split; [apply Hin; by exists s|]. apply Hdraft in Hr as (n' & v' & Hi' & _ & _ & ? & ? & _).
      destruct (insecure_as_unique _ _ _ _ _ Hi Hi') as [_ ->]. done.
    + by destruct (Hdraft _ _ Hr name sev).
Qed.

(** ** Failures *)

Lemma management_raise c e : Rule_evaluate InsecureManagementRule c = Raise e → refused e.
Proof.
  cbn [Rule_evaluate InsecureManagementRule]. intros (s & _ & Hs)%collect_Raise. revert Hs.
  destruct (match_spec s) as (m & Hm & _). unfold management_draft, mbind, outcome_bind. rewrite Hm.
  destruct m as [[name sev]|]; [|done]. unfold fmap, outcome_fmap.
  destruct (draft _ _ _ _ _ _ _ _ _ _ _) as [|e'] eqn:Hd; [done|]. intros [= <-].
  by apply draft_Raise in Hd.
Qed.

(** A passive result whose shape is not the one the rules read. *)
Definition malformed_passive (document : dict) (e : PyExc) : Prop :=
  get_attr (default (PDict []) (dict_get document "result")) "sensors" = Raise e ∨
  ∃ sensor record, sensor_of document sensor = Some record ∧
                   py_int (por (get record "hits") (PInt 0)) = Raise e.

Lemma sensor_raise document name e :
  _sensor document name = Raise e → malformed_passive document e.
Proof.
  unfold _sensor, mbind, outcome_bind. destruct (get_attr _ _) as [v|e'] eqn:Hg; [by case_match|].
  intros [= <-]. by left.
Qed.

Lemma sensor_presence_raise c self sensor copy sev e :
  _sensor_presence c self sensor copy sev = Raise e →
  refused e ∨ ∃ document, c.(passive_result) = Some document ∧ malformed_passive document e.
Proof.
  unfold _sensor_presence. destruct c.(passive_result) as [document|]; [|done].
  unfold mbind, outcome_bind. destruct (_sensor document sensor) as [[record|]|e'] eqn:Hs; [|done|].
  - destruct (py_int _) as [hits|e'] eqn:Hh.
    + case_match; [done|]. destruct (draft _ _ _ _ _ _ _ _ _ _ _) as [|e''] eqn:Hd; [done|].
      intros [= <-]. apply draft_Raise in Hd. by left.
    + intros [= <-]. right. exists document. split; [done|]. right. exists sensor, record.
      unfold sensor_of. by rewrite Hs.
  - intros [= <-]. apply sensor_raise in Hs. right. by exists document.
Qed.

Lemma multiple_dhcp_raise c e :
  Rule_evaluate MultipleDhcpServersRule c = Raise e →
  refused e ∨ ∃ document, c.(passive_result) = Some document ∧ malformed_passive document e.
Proof.
  cbn [Rule_evaluate MultipleDhcpServersRule]. destruct c.(passive_result) as [document|]; [|done].
  unfold mbind, outcome_bind. destruct (_dhcp_servers document) as [servers|e'] eqn:Hs.
  - case_match; [done|]. destruct (draft _ _ _ _ _ _ _ _ _ _ _) as [|e''] eqn:Hd; [done|].
    intros [= <-]. apply draft_Raise in Hd. by left.
  - intros [= <-]. right. exists document. split; [done|]. revert Hs.
    unfold _dhcp_servers, mbind, outcome_bind. destruct (_sensor document "dhcpv4") as [found|e''] eqn:Hse.
    + cbv zeta. by case_match.
    + intros [= <-]. by apply sensor_raise in Hse.
Qed.
