(* ===== verification/FindEngineProofs.v ===== *)
(** * Lemmas on deduplication and the registry *)

From S2P Require Import Prelude PyBase PyText FindModels FindDates FindRules FindProtocolRules FindInventoryRules FindEngine FindRulesProofs.

(** ** Merging two drafts *)

Lemma merge_key left right : draft_key (_merge left right) = draft_key left.
Proof. done. Qed.

Lemma SEVERITY_RANK_inj a b : SEVERITY_RANK a = SEVERITY_RANK b → a = b.
Proof. by destruct a, b. Qed.

Lemma CONFIDENCE_RANK_inj a b : CONFIDENCE_RANK a = CONFIDENCE_RANK b → a = b.
Proof. by destruct a, b. Qed.

(** What a draft [m] merged from [group] reports. *)
Record merged_from (group : list FindingDraft) (m : FindingDraft) : Prop := {
  merged_severity : ∃ d, d ∈ group ∧ severity m = severity d;
  merged_severity_best d : d ∈ group → SEVERITY_RANK (severity m) ≤ SEVERITY_RANK (severity d);
  merged_confidence : ∃ d, d ∈ group ∧ confidence m = confidence d;
  merged_confidence_best d :
    d ∈ group → CONFIDENCE_RANK (confidence m) ≤ CONFIDENCE_RANK (confidence d);
  merged_observations i : i ∈ observation_ids m ↔ ∃ d, d ∈ group ∧ i ∈ observation_ids d;
  merged_evidence e :
    e ∈ evidence_artifact_ids m ↔ ∃ d, d ∈ group ∧ e ∈ evidence_artifact_ids d
}.

Lemma merged_from_singleton d : merged_from [d] d.
Proof.
  split.
  - exists d. split; [by constructor|done].
  - intros x ->%list_elem_of_singleton. lia.
  - exists d. split; [by constructor|done].
  - intros x ->%list_elem_of_singleton. lia.
  - intros i. split; [intros; exists d; split; [by constructor|done]|].
    by intros (x & ->%list_elem_of_singleton & ?).
  - intros i. split; [intros; exists d; split; [by constructor|done]|].
    by intros (x & ->%list_elem_of_singleton & ?).
Qed.

Lemma merged_from_snoc group m d :
  merged_from group m → merged_from (group ++ [d]) (_merge m d).
Proof.
  intros [(sd & Hsd & Es) Hs (cd & Hcd & Ec) Hc Ho He].
  assert (∀ (P : FindingDraft → Prop), (∃ x, x ∈ group ++ [d] ∧ P x) ↔ (∃ x, x ∈ group ∧ P x) ∨ P d) as Hex.
  { intros P. setoid_rewrite elem_of_app. setoid_rewrite list_elem_of_singleton. naive_solver. }
  assert (∀ (P : FindingDraft → Prop), (∀ x, x ∈ group ++ [d] → P x) ↔ (∀ x, x ∈ group → P x) ∧ P d) as Hall.
  { intros P. setoid_rewrite elem_of_app. setoid_rewrite list_elem_of_singleton. naive_solver. }
  split; rewrite ?Hex.
  - unfold _merge. cbn. case_match; [left; eauto|by right].
  - apply Hall. unfold _merge. cbn. case_match eqn:Hle; [apply Z.leb_le in Hle; split; [done|lia]|].
    apply Z.leb_gt in Hle. split; [|lia]. intros x Hx. specialize (Hs x Hx). lia.
  - unfold _merge. cbn. case_match; [left; eauto|by right].
  - apply Hall. unfold _merge. cbn. case_match eqn:Hle; [apply Z.leb_le in Hle; split; [done|lia]|].
    apply Z.leb_gt in Hle. split; [|lia]. intros x Hx. specialize (Hc x Hx). lia.
  - intros i. rewrite Hex, <- Ho. unfold _merge, extend_new. cbn. apply append_all_elem.
  - intros e. rewrite Hex, <- He. unfold _merge, extend_new. cbn. apply append_all_elem.
Qed.

Lemma merge_all_spec first rest : merged_from (first :: rest) (foldl _merge first rest).
Proof.
  induction rest as [|d rest IH] using rev_ind; [apply merged_from_singleton|].
  rewrite foldl_app. cbn. by apply (merged_from_snoc (first :: rest)).
Qed.

Lemma merge_all_key first rest : draft_key (foldl _merge first rest) = draft_key first.
Proof. revert first. induction rest as [|d rest IH]; intros first; [done|]. cbn. by rewrite IH. Qed.

(** ** Merging into the dictionary *)

Definition has_key (k : string * string) (d : FindingDraft) : bool := bool_decide (draft_key d = k).

(** The one draft a group of equal keys becomes. *)
Definition merge_group (group : list FindingDraft) : list FindingDraft :=
  match group with [] => [] | first :: rest => [foldl _merge first rest] end.

Lemma merge_into_keys l d :
  map draft_key (merge_into l d) =
    if decide (draft_key d ∈ map draft_key l) then map draft_key l
    else map draft_key l ++ [draft_key d].
Proof.
  induction l as [|e l IH]; cbn [merge_into map]; [done|].
  destruct (decide (draft_key e = draft_key d)) as [Heq|Hne]; cbn [map].
  - rewrite merge_key, decide_True; [done|]. rewrite Heq. constructor.
  - rewrite IH. destruct (decide (draft_key d ∈ map draft_key l)).
    + rewrite decide_True; [done|]. by constructor.
    + rewrite decide_False; [done|]. by intros [?|?]%elem_of_cons.
Qed.

Lemma merge_into_filter l d k :
  NoDup (map draft_key l) →
  List.filter (has_key k) (merge_into l d) =
    if decide (draft_key d = k)
    then match List.filter (has_key k) l with e :: _ => [_merge e d] | [] => [d] end
    else List.filter (has_key k) l.
Proof.
  induction l as [|e l IH]; cbn [merge_into map]; intros Hnd.
  - cbn. unfold has_key. by case_decide; [rewrite bool_decide_true|rewrite bool_decide_false].
  - apply NoDup_cons in Hnd as [He Hnd]. specialize (IH Hnd).
    assert (draft_key e = k → List.filter (has_key k) l = []) as Hnil.
    { intros <-. apply lfilter_nil. intros x Hx. apply bool_decide_false. intros Heq.
      apply He, list_elem_of_fmap. by exists x. }
    destruct (decide (draft_key e = draft_key d)) as [Heq|Hne]; cbn [List.filter].
    + change (has_key k (_merge e d)) with (has_key k e). case_decide as Hk.
      * assert (has_key k e = true) as -> by (apply bool_decide_true; congruence).
        by rewrite Hnil by congruence.
      * by assert (has_key k e = false) as -> by (apply bool_decide_false; congruence).
    + rewrite IH. case_decide as Hk; [|done].
      by assert (has_key k e = false) as -> by (apply bool_decide_false; congruence).
Qed.

Lemma merge_drafts_spec drafts :
  NoDup (map draft_key (foldl merge_into [] drafts)) ∧
  ∀ k, List.filter (has_key k) (foldl merge_into [] drafts) =
       merge_group (List.filter (has_key k) drafts).
Proof.
  induction drafts as [|d drafts [Hnd IH]] using rev_ind; [split; [constructor|done]|].
  rewrite foldl_app. cbn [foldl]. split.
  - rewrite merge_into_keys. case_decide as Hin; [done|].
    apply NoDup_app. split_and!; [done| |apply NoDup_singleton].
    by intros x Hx ->%list_elem_of_singleton.
  - intros k. rewrite merge_into_filter, IH, filter_snoc by done. case_decide as Hk.
    + assert (has_key k d = true) as -> by by apply bool_decide_true.
      destruct (List.filter (has_key k) drafts) as [|first rest]; [done|]. cbn. by rewrite foldl_app.
    + assert (has_key k d = false) as -> by by apply bool_decide_false. by rewrite app_nil_r.
Qed.

(** A key has at most one element in a list of distinct keys. *)
Lemma filter_key_unique l l' k :
  NoDup (map draft_key l) → l' ≡ₚ l →
  List.filter (has_key k) l' = List.filter (has_key k) l.
Proof.
  intros Hnd Hperm.
  assert (∀ l, NoDup (map draft_key l) → ∀ d, d ∈ l → List.filter (has_key (draft_key d)) l = [d]) as Hone.
  { clear. induction l as [|e l IH]; intros Hnd d Hd; [by apply elem_of_nil in Hd|].
    cbn [map] in Hnd. apply NoDup_cons in Hnd as [He Hnd]. cbn [List.filter]. unfold has_key at 1.
    apply elem_of_cons in Hd as [->|Hd].
    - rewrite bool_decide_true by done. f_equal. apply lfilter_nil. intros x Hx.
      apply bool_decide_false. intros Heq. apply He, list_elem_of_fmap. by exists x.
    - rewrite bool_decide_false; [by apply IH|]. intros Heq. apply He, list_elem_of_fmap. by exists d. }
  destruct (List.filter (has_key k) l) as [|d rest] eqn:Hf.
  - apply lfilter_nil. intros x Hx. rewrite Hperm in Hx. by apply (proj1 (lfilter_nil _ _) Hf).
  - assert (d ∈ List.filter (has_key k) l) as Hd by (rewrite Hf; constructor).
    apply elem_of_lfilter in Hd as [Hd Hk%bool_decide_eq_true]. subst k.
    rewrite <- Hf, (Hone l), (Hone l'); [done| | |done|done]; [|by rewrite Hperm].
    change (NoDup (draft_key <$> l')). by rewrite Hperm.
Qed.

Lemma deduplicate_keys_NoDup drafts : NoDup (map draft_key (deduplicate_drafts drafts)).
Proof.
  unfold deduplicate_drafts. change (NoDup (draft_key <$> sort_by draft_le (foldl merge_into [] drafts))).
  rewrite sort_by_perm. apply merge_drafts_spec.
Qed.

Lemma deduplicate_group drafts k :
  List.filter (has_key k) (deduplicate_drafts drafts) =
    merge_group (List.filter (has_key k) drafts).
Proof.
  destruct (merge_drafts_spec drafts) as [Hnd Hf]. rewrite <- Hf.
  apply filter_key_unique; [done|]. apply sort_by_perm.
Qed.

#[export] Instance draft_le_order : SortOrder draft_le.
Proof. unfold draft_le. apply _. Qed.

(** Distinct keys are left alone. *)
Lemma merge_into_fresh acc drafts :
  NoDup (map draft_key (acc ++ drafts)) → foldl merge_into acc drafts = acc ++ drafts.
Proof.
  revert acc. induction drafts as [|d drafts IH]; intros acc Hnd; cbn [foldl]; [by rewrite app_nil_r|].
  assert (merge_into acc d = acc ++ [d]) as ->.
  { rewrite map_app in Hnd. apply NoDup_app in Hnd as (_ & Hdisj & _). clear IH.
    induction acc as [|e acc IH]; cbn [merge_into app]; [done|].
    rewrite decide_False; [rewrite IH; [done|]|].
    - intros x Hx. apply Hdisj. by constructor.
    - intros Heq. apply (Hdisj (draft_key e)); [by constructor|]. rewrite Heq. by constructor. }
  rewrite IH; by rewrite <- (assoc_L (++)).
Qed.

(** ** The registry *)

Lemma register_all_spec l registry registry' :
  NoDup (dict_keys registry) → (∀ id (r : Rule), (id, r) ∈ registry → id = r.(head_id)) →
  register_all registry l = Return registry' →
  NoDup (dict_keys registry') ∧ (∀ id (r : Rule), (id, r) ∈ registry' → id = r.(head_id)) ∧
  map snd registry' = map snd registry ++ l.
Proof.
  revert registry. induction l as [|rule l IH]; intros registry Hnd Hids; cbn [register_all].
  { intros [= <-]. by rewrite app_nil_r. }
  unfold mbind, outcome_bind, register. destruct (dict_get registry rule.(head_id)) eqn:Hget; [done|].
  apply dict_get_None in Hget. intros Hreg.
  assert (dict_set registry rule.(head_id) rule = registry ++ [(rule.(head_id), rule)]) as Hset.
  { clear -Hget. induction registry as [|[k v] registry IH]; cbn [dict_set]; [done|].
    rewrite dict_keys_cons in Hget. apply not_elem_of_cons in Hget as [Hne Hget].
    by rewrite (proj2 (String.eqb_neq _ _) Hne), IH. }
  apply IH in Hreg as (H1 & H2 & H3).
  - split_and!; [done|done|]. rewrite H3, Hset, map_app, <- (assoc_L (++)). done.
  - by apply dict_set_NoDup.
  - rewrite Hset. intros id r [Hin|[= -> ->]%list_elem_of_singleton]%elem_of_app; [|done]. by apply Hids.
Qed.

(** The rules of a registry are those registered, in order of their ids. *)
Lemma rules_spec l registry :
  register_all [] l = Return registry →
  rules registry ≡ₚ l ∧
  StronglySorted (fun a b => str_le a b = true) (map (fun r : Rule => r.(head_id)) (rules registry)).
Proof.
  intros Hreg. apply register_all_spec in Hreg as (Hnd & Hids & Hl);
    [|constructor|by intros ?? ?%elem_of_nil].
  cbn in Hl. subst l. unfold rules, rule_ids.
  assert (∀ ks, (∀ k, k ∈ ks → k ∈ dict_keys registry) →
    map (fun r : Rule => r.(head_id)) (omap (dict_get registry) ks) = ks) as Hmap.
  { induction ks as [|k ks IH]; intros Hks; [done|].
    destruct (dict_get registry k) as [r|] eqn:Hget; [|apply dict_get_None in Hget].
    - cbn. rewrite Hget. cbn. rewrite IH by (intros; apply Hks; by constructor). f_equal.
      symmetry. eapply Hids. by apply dict_get_elem.
    - destruct Hget. apply Hks. constructor. }
  split.
  - rewrite sort_by_perm. unfold dict_keys.
    assert (omap (dict_get registry) (registry.*1) = map snd registry) as ->; [|done].
    assert (∀ d, (∀ k v, (k, v) ∈ d → dict_get registry k = Some v) →
      omap (dict_get registry) (d.*1) = map snd d) as Hgo.
    { clear. induction d as [|[k v] d IH]; intros Hd; [done|]. cbn.
      rewrite (Hd k v) by constructor. cbn. rewrite IH; [done|]. intros k' v' ?. apply Hd. by constructor. }
    apply Hgo. intros k v. by apply dict_get_elem_NoDup.
  - rewrite Hmap; [apply sorted_by, _|]. intros k. by rewrite elem_of_sort_by.
Qed.

Lemma get_rule_spec l registry id rule :
  register_all [] l = Return registry →
  get_rule registry id = Return rule ↔ rule ∈ l ∧ rule.(head_id) = id.
Proof.
  intros Hreg. apply register_all_spec in Hreg as (Hnd & Hids & Hl);
    [|constructor|by intros ?? ?%elem_of_nil].
  cbn in Hl. subst l. unfold get_rule. split.
  - destruct (dict_get registry id) as [r|] eqn:Hget; [|done]. intros [= ->].
    apply dict_get_elem in Hget. split; [|symmetry; by apply Hids].
    apply list_elem_of_fmap. by exists (id, rule).
  - intros [([k r] & -> & Hin)%list_elem_of_fmap Hid]. cbn in Hid.
    rewrite <- Hid, <- (Hids _ _ Hin). cbn. by rewrite (dict_get_elem_NoDup _ _ _ Hnd Hin).
Qed.

Lemma register_all_ids l registry :
  NoDup (dict_keys registry ++ map (fun r : Rule => r.(head_id)) l) →
  ∃ registry', register_all registry l = Return registry'.
Proof.
  revert registry. induction l as [|rule l IH]; intros registry Hnd; cbn [register_all]; [by eexists|].
  cbn [map] in Hnd. unfold mbind, outcome_bind, register.
  assert (rule.(head_id) ∉ dict_keys registry) as Hno.
  { intros Hin. apply NoDup_app in Hnd as (_ & Hdisj & _). apply (Hdisj _ Hin). constructor. }
  rewrite (proj2 (dict_get_None _ _) Hno). apply IH.
  rewrite dict_keys_set, decide_False by done. by rewrite <- (assoc_L (++)).
Qed.

(** ** Evaluation *)

Lemma evaluate_rules_Return c l ds :
  evaluate_rules c l = Return ds →
  (∀ d, d ∈ ds ↔ ∃ r rds, r ∈ l ∧ Rule_evaluate r c = Return rds ∧ d ∈ rds) ∧
  (∀ r, r ∈ l → ∃ rds, Rule_evaluate r c = Return rds).
Proof.
  revert ds. induction l as [|r l IH]; intros ds; cbn [evaluate_rules].
  { intros [= <-]. split; [|by intros ? ?%elem_of_nil].
    intros d. split; [by intros ?%elem_of_nil|]. by intros (? & ? & ?%elem_of_nil & _). }
  unfold mbind, outcome_bind. destruct (Rule_evaluate r c) as [produced|] eqn:Hr; [|done].
  destruct (evaluate_rules c l) as [rest|]; [|done]. intros [= <-].
  destruct (IH rest eq_refl) as [H1 H2]. split.
  - intros d. rewrite elem_of_app, H1. split.
    + intros [Hd|(r' & rds & ? & ? & ?)]; [exists r, produced|exists r', rds]; split_and!; try done;
        by constructor.
    + intros (r' & rds & [->|Hr']%elem_of_cons & Hrds & Hd); [left; congruence|right; eauto].
  - intros r' [->|Hr']%elem_of_cons; eauto.
Qed.

Lemma evaluate_rules_Raise c l e :
  evaluate_rules c l = Raise e → ∃ r, r ∈ l ∧ Rule_evaluate r c = Raise e.
Proof.
  induction l as [|r l IH]; cbn [evaluate_rules]; [done|]. unfold mbind, outcome_bind.
  destruct (Rule_evaluate r c) as [produced|e'] eqn:Hr.
  - destruct (evaluate_rules c l) as [rest|e'']; [done|]. intros [= ->].
    destruct (IH eq_refl) as (r' & ? & ?). exists r'. split; [by constructor|done].
  - intros [= ->]. exists r. split; [constructor|done].
Qed.

(** ** Certificate dates are read as OpenSSL writes them *)

(** *** The text of a date

    [ASN1_TIME_print]: month, day padded with a space, time, year, zone. *)

Definition MONTH_TEXT : list string :=
  ["Jan"; "Feb"; "Mar"; "Apr"; "May"; "Jun"; "Jul"; "Aug"; "Sep"; "Oct"; "Nov"; "Dec"].

Definition clock_text (h mi s : Z) : string :=
  pad 2 h +:+ ":" +:+ pad 2 mi +:+ ":" +:+ pad 2 s.

Definition openssl_text (y mo d h mi s : Z) : string :=
  default EmptyString (MONTH_TEXT !! Z.to_nat (mo - 1)) +:+ " " +:+
  (if d <? 10 then " " else EmptyString) +:+ str_int d +:+ " " +:+ clock_text h mi s +:+ " " +:+
  pad 4 y +:+ " GMT".

Definition valid_date (y mo d h mi s : Z) : Prop :=
  1 ≤ y ≤ 9999 ∧ 1 ≤ mo ≤ 12 ∧ 1 ≤ d ≤ days_in_month y mo ∧
  0 ≤ h ≤ 23 ∧ 0 ≤ mi ≤ 59 ∧ 0 ≤ s ≤ 59.

(** Microseconds since the epoch, counting days by the calendar. *)
Definition instant (y mo d h mi s : Z) : datetime :=
  ((toordinal y mo d - EPOCH_ORDINAL) * 86400 + h * 3600 + mi * 60 + s) * 1000000.

(** *** Numbers, checked one by one *)

Lemma two_digits n :
  0 ≤ n ≤ 99 → short_number (pad 2 n) = Some n ∧ no_space (pad 2 n) = true ∧
               without (chr 58) (pad 2 n) = true ∧ nonempty (pad 2 n) = true.
Proof.
  intros Hn. pose proof (by_cases (fun n => reads_as (short_number (pad 2 n)) n &&
    no_space (pad 2 n) && without (chr 58) (pad 2 n) && nonempty (pad 2 n)) 0 100
    ltac:(vm_compute; reflexivity) n ltac:(lia)) as H.
  rewrite !andb_true_iff, reads_as_spec in H. tauto.
Qed.

Lemma day_digits n :
  1 ≤ n ≤ 31 → short_number (str_int n) = Some n ∧ no_space (str_int n) = true ∧
               nonempty (str_int n) = true.
Proof.
  intros Hn. pose proof (by_cases (fun n => reads_as (short_number (str_int n)) n &&
    no_space (str_int n) && nonempty (str_int n)) 1 31 ltac:(vm_compute; reflexivity) n ltac:(lia)) as H.
  rewrite !andb_true_iff, reads_as_spec in H. tauto.
Qed.

#[local] Ltac Zify.zify_post_hook ::= Z.to_euclidean_division_equations.

(** A printed number, digit by digit: [pretty] on numbers of at most four digits. *)
Lemma pretty_go_last x s :
  (0 < x < 10)%N → pretty_N_go x s = String (pretty_N_char x) s.
Proof.
  intros Hx. rewrite pretty_N_go_step, N.div_small, pretty_N_go_0, N.mod_small by lia. done.
Qed.

Lemma str_int_go x : (0 < x)%N → str_int (Z.of_N x) = pretty_N_go x EmptyString.
Proof. destruct x as [|x]; [lia|]. done. Qed.

Lemma pad_four x :
  (x <= 9999)%N →
  pad 4 (Z.of_N x) =
    String (pretty_N_char (x / 1000)) (String (pretty_N_char (x / 100 mod 10))
      (String (pretty_N_char (x / 10 mod 10)) (String (pretty_N_char (x mod 10)) EmptyString))).
Proof.
  intros Hx. unfold pad.
  assert (x / 10 / 10 = x / 100 ∧ x / 10 / 10 / 10 = x / 1000)%N as [E2 E3]
    by (rewrite !N.Div0.div_div; done).
  destruct (decide (x = 0)%N) as [->|Hx0]; [reflexivity|]. rewrite str_int_go by lia.
  destruct (decide (x < 10)%N) as [H1|H1]; [|destruct (decide (x < 100)%N) as [H2|H2];
    [|destruct (decide (x < 1000)%N) as [H3|H3]]].
  - rewrite pretty_go_last by lia. rewrite !(N.div_small x), (N.mod_small x) by lia. reflexivity.
  - rewrite pretty_N_go_step, pretty_go_last by lia.
    rewrite (N.div_small x 1000), (N.div_small x 100), (N.mod_small (x / 10)) by lia. reflexivity.
  - rewrite 2!pretty_N_go_step, pretty_go_last, E2 by lia.
    rewrite (N.div_small x 1000), (N.mod_small (x / 100)) by lia. reflexivity.
  - rewrite 3!pretty_N_go_step, pretty_go_last, E3, E2 by lia. reflexivity.
Qed.

Lemma digit_char x :
  (x < 10)%N → let c := pretty_N_char x in
  is_digit c = true ∧ digit_value c = Z.of_N x ∧ str_all (fun c => negb (is_space c)) (String c EmptyString) = true.
Proof.
  intros Hx. assert (x ∈ [0; 1; 2; 3; 4; 5; 6; 7; 8; 9])%N as Hin by (set_unfold; lia).
  repeat apply elem_of_cons in Hin as [->|Hin]; [by repeat split..|by apply elem_of_nil in Hin].
Qed.

Lemma year_digits n :
  0 ≤ n ≤ 9999 → four_digits (pad 4 n) = Some n ∧ no_space (pad 4 n) = true ∧
                 nonempty (pad 4 n) = true.
Proof.
  intros Hn. rewrite <- (Z2N.id n) by lia. set (x := Z.to_N n). rewrite pad_four by lia.
  destruct (digit_char (x / 1000)) as (Ha & Hav & Has); [lia|].
  destruct (digit_char (x / 100 mod 10)) as (Hb & Hbv & Hbs); [lia|].
  destruct (digit_char (x / 10 mod 10)) as (Hc & Hcv & Hcs); [lia|].
  destruct (digit_char (x mod 10)) as (Hd & Hdv & Hds); [lia|].
  cbn [four_digits]. rewrite Ha, Hb, Hc, Hd, Hav, Hbv, Hcv, Hdv. split_and!; [|..|done].
  - f_equal. lia.
  - unfold no_space. cbn [str_all] in *. rewrite !andb_true_r in *. by rewrite Has, Hbs, Hcs, Hds.
Qed.

Definition month_text (mo : Z) : string := default EmptyString (MONTH_TEXT !! Z.to_nat (mo - 1)).

Lemma month_words mo :
  1 ≤ mo ≤ 12 → (option_map Z.of_nat (index_of (lower (month_text mo)) MONTH_ABBR)) = Some (mo - 1) ∧
                no_space (month_text mo) = true ∧ nonempty (month_text mo) = true.
Proof.
  intros Hmo. pose proof (by_cases (fun mo =>
    reads_as (option_map Z.of_nat (index_of (lower (month_text mo)) MONTH_ABBR)) (mo - 1) &&
    no_space (month_text mo) && nonempty (month_text mo)) 1 12 ltac:(vm_compute; reflexivity) mo ltac:(lia)) as H.
  rewrite !andb_true_iff, reads_as_spec in H. tauto.
Qed.

Lemma ranged_in lo hi s n : short_number s = Some n → lo ≤ n ≤ hi → ranged lo hi s = Some n.
Proof.
  unfold ranged. intros -> [H1 H2]. cbn. by rewrite (proj2 (Z.leb_le _ _) H1), (proj2 (Z.leb_le _ _) H2).
Qed.

Lemma days_in_month_31 y mo : days_in_month y mo ≤ 31.
Proof.
  unfold days_in_month. destruct (month_lengths y !! _) as [n|] eqn:Hn; cbn; [|lia].
  apply list_elem_of_lookup_2 in Hn. revert n Hn. apply Forall_forall. unfold month_lengths.
  repeat constructor; try lia. destruct (is_leap y); lia.
Qed.

Lemma make_datetime_valid y mo d h mi s :
  valid_date y mo d h mi s → make_datetime y mo d h mi s 0 = Return (instant y mo d h mi s).
Proof.
  intros (Hy & Hmo & Hd & Hh & Hmi & Hs). pose proof (days_in_month_31 y mo) as Hd31.
  unfold make_datetime, c_int. cbn [forallb].
  assert (∀ n, 0 ≤ n ≤ 9999 → (- 2 ^ 31 <=? n) && (n <? 2 ^ 31) = true) as Hint.
  { intros n Hn. apply andb_true_iff. split; [apply Z.leb_le; lia|apply Z.ltb_lt; lia]. }
  rewrite !Hint by lia. cbn [negb andb].
  repeat match goal with |- context [?a <=? ?b] => rewrite (proj2 (Z.leb_le a b)) by lia end.
  cbn [andb]. by rewrite Z.sub_0_r.
Qed.

Lemma openssl_words y mo d h mi s :
  valid_date y mo d h mi s →
  split_ws (openssl_text y mo d h mi s) =
    [month_text mo; str_int d; clock_text h mi s; pad 4 y; "GMT"].
Proof.
  intros (Hy & Hmo & Hd & Hh & Hmi & Hs). pose proof (days_in_month_31 y mo).
  unfold openssl_text. fold (month_text mo).
  destruct (month_words mo Hmo) as (_ & Hmw & Hmn). rewrite split_ws_word by done. f_equal.
  assert (∀ r, split_ws ((if d <? 10 then " " else "") +:+ r) = split_ws r) as -> by (by destruct (d <? 10)).
  destruct (day_digits d ltac:(lia)) as (_ & Hdw & Hdn). rewrite split_ws_word by done. f_equal.
  destruct (two_digits h ltac:(lia)) as (_ & Hhw & _ & Hhn), (two_digits mi ltac:(lia)) as (_ & Hmiw & _),
    (two_digits s ltac:(lia)) as (_ & Hsw & _).
  rewrite split_ws_word; [f_equal| |].
  - destruct (year_digits y ltac:(lia)) as (_ & Hyw & Hyn). change " GMT" with (" " +:+ "GMT"). by rewrite split_ws_word.
  - unfold clock_text, no_space in *. rewrite !str_all_app. by rewrite Hhw, Hmiw, Hsw.
  - unfold clock_text. by destruct (pad 2 h).
Qed.

Lemma parse_openssl_text hz y mo d h mi s :
  valid_date y mo d h mi s →
  parse_time hz (PStr (openssl_text y mo d h mi s)) = Return (Some (instant y mo d h mi s)).
Proof.
  intros Hv. pose proof Hv as (Hy & Hmo & Hd & Hh & Hmi & Hs). pose proof (days_in_month_31 y mo).
  unfold parse_time. rewrite openssl_words by done. unfold strptime.
  destruct (month_words mo Hmo) as (Hmo1 & _).
  destruct (index_of (lower (month_text mo)) MONTH_ABBR) as [i|]; [|done]. injection Hmo1 as Hi.
  cbn [mbind option_bind].
  destruct (day_digits d ltac:(lia)) as (Hds & _). rewrite (ranged_in _ _ _ _ Hds) by lia. cbn [mbind option_bind].
  destruct (two_digits h ltac:(lia)) as (Hh1 & _ & Hh2 & _), (two_digits mi ltac:(lia)) as (Hm1 & _ & Hm2 & _),
    (two_digits s ltac:(lia)) as (Hs1 & _ & Hs2 & _).
  unfold clock_text. change (":" +:+ pad 2 mi +:+ ":" +:+ pad 2 s) with
    (String (chr 58) (pad 2 mi +:+ String (chr 58) (pad 2 s))).
  rewrite !split_on_word by done. rewrite split_on_last by done.
  rewrite (ranged_in _ _ _ _ Hh1), (ranged_in _ _ _ _ Hm1), (ranged_in _ _ _ _ Hs1) by lia.
  cbn [mbind option_bind]. destruct (year_digits y ltac:(lia)) as (-> & _). cbn [mbind option_bind].
  change (zone_name hz (join " " ["GMT"])) with true. cbn iota.
  replace (Z.of_nat i + 1) with mo by lia. by rewrite make_datetime_valid.
Qed.
