(* ===== verification/FindTheorems.v ===== *)
(** * Theorems on the findings engine *)

From S2P Require Import Prelude PyBase PyText FindModels FindCopy FindDates FindRules FindProtocolRules FindInventoryRules FindEngine FindRulesProofs FindProtocolProofs FindInventoryProofs FindEngineProofs.

(** ** A sample evaluation *)

Definition sample_observation (id kind : string) (data : dict) : ProtocolObservationRecord :=
  mkObservation id "audit" "asset" "service" "tcp" "module" kind data CONF_HIGH "probe"
    (Some "artifact") 0 0.

Definition sample_service (port : Z) (name : option string) : ServiceRecord :=
  mkService "service" "audit" "asset" "tcp" port "open" None name None None None None [] None None
    CONF_HIGH "nmap" 0 0.

Definition sample_passive : dict :=
  [("sensors", PDict
     [("llmnr", PDict [("status", PStr "detected"); ("hits", PInt 3)]);
      ("dhcpv4", PDict [("summary", PDict [("servers",
         PList [PDict [("server_id", PStr "10.0.0.1")]; PDict [("address", PStr "10.0.0.2")];
                PStr "10.0.0.1"])])])])].

Definition sample_context : EvaluationContext :=
  mkEvaluation "audit"
    [sample_observation "o1" "ssh_algorithms" [("kex", PList [PStr "Diffie-Hellman-Group1-SHA1"])];
     sample_observation "o2" "tls_certificate"
       [("not_after", PStr "Jan  1 00:00:00 2020 GMT"); ("verify_code", PStr "18")];
     sample_observation "o3" "tool_timeout" [];
     sample_observation "o4" "http_response" [("headers", PDict [("Server", PStr "x")])]]
    [sample_service 23 None] (Some sample_passive) (Some "passive") 1700000000000000.

Definition outcome_or {E A} (d : A) (r : outcome E A) : A :=
  match r with Return a => a | Raise _ => d end.

Definition sample_findings : list FindingDraft :=
  Eval vm_compute in outcome_or [] (evaluate_findings [] sample_context None).

Definition sample_ssh : list FindingDraft :=
  Eval vm_compute in outcome_or [] (Rule_evaluate WeakSshAlgorithmsRule sample_context).

(** ** Rules over observations *)

(** C6: each of the fifteen protocol rules, when it evaluates, reports exactly the
    services whose observations of its kinds satisfy its test, at most once each. *)
Theorem protocol_rules_report_exactly hz sp c ds :
  sp ∈ protocol_specs hz → Rule_evaluate sp.(spec_rule) c = Return ds →
  NoDup (map (fun d => (asset_id d, draft_service_id d)) ds) ∧
  ∀ a s, (∃ d, d ∈ ds ∧ asset_id d = Some a ∧ draft_service_id d = Some s) ↔
    let observed := service_observations c sp.(spec_kinds) a s in
    observed ≠ [] ∧ sp.(spec_reports) c observed = true.
Proof.
  intros Hsp Heval. apply protocol_specs_implemented in Hsp.
  split; [by eapply protocol_drafts_NoDup|]. intros a s. split.
  - intros (d & Hd & Ha & Hs).
    destruct (protocol_draft _ _ _ _ _ Hsp Heval Hd)
      as (a' & s' & g & -> & Hrep & Ha' & Hs' & _ & _ & Hne & Hids & _).
    rewrite Ha in Ha'. rewrite Hs in Hs'. simplify_eq. split; [|done]. intros Hnil.
    rewrite Hnil in Hids. destruct (observation_ids d) as [|i ids]; [done|].
    by apply (not_elem_of_nil i), Hids; constructor.
  - intros [Hne Hrep]. by eapply protocol_reports.
Qed.

Lemma protocol_rules_report_exactly_witness :
  ∃ d, d ∈ sample_ssh ∧ asset_id d = Some "asset" ∧ draft_service_id d = Some "service".
Proof.
  apply (protocol_rules_report_exactly []
    (mkSpec WeakSshAlgorithmsRule ["ssh_algorithms"] (fun _ => existsb weak_ssh)) sample_context
    sample_ssh); [left|vm_compute; reflexivity|].
  split; [discriminate|vm_compute; reflexivity].
Defined.

(** What backs a finding of a protocol rule. *)
Definition cites (c : EvaluationContext) (key i : string) : Prop :=
  ∃ o, o ∈ c.(observations) ∧ o.(obs_id) = i ∧ o.(obs_kind) ∉ NON_EVIDENCE_KINDS ∧
       service_dedupe_key o = key.

Lemma default_registry_returns hz :
  ∃ registry, default_registry hz = Return registry ∧ register_all [] (DEFAULT_RULES hz) = Return registry.
Proof.
  destruct (register_all_ids (DEFAULT_RULES hz) []) as [registry Hr]; [|by exists registry].
  assert (NoDup (map (fun r : Rule => r.(head_id)) (DEFAULT_RULES []))) as H by by_decide. exact H.
Qed.

(** Evaluation with the default rules. *)
Lemma evaluate_default hz c ds :
  evaluate_findings hz c None = Return ds →
  ∃ drafts, ds = deduplicate_drafts drafts ∧
    (∀ d, d ∈ drafts ↔ ∃ r rds, r ∈ DEFAULT_RULES hz ∧ Rule_evaluate r c = Return rds ∧ d ∈ rds) ∧
    (∀ r, r ∈ DEFAULT_RULES hz → ∃ rds, Rule_evaluate r c = Return rds).
Proof.
  destruct (default_registry_returns hz) as (registry & Hdef & Hreg).
  unfold evaluate_findings, mbind, outcome_bind. rewrite Hdef.
  destruct (rules_spec _ _ Hreg) as [Hperm _].
  destruct (evaluate_rules c (rules registry)) as [drafts|] eqn:Hev; [|done]. intros [= <-].
  exists drafts. split; [done|]. apply evaluate_rules_Return in Hev as [H1 H2].
  split; [intros d; rewrite H1|intros r]; setoid_rewrite Hperm in H2; [|by apply H2].
  by setoid_rewrite Hperm.
Qed.

Lemma elem_of_deduplicate drafts d :
  d ∈ deduplicate_drafts drafts →
  ∃ first rest, List.filter (has_key (draft_key d)) drafts = first :: rest ∧
                d = foldl _merge first rest.
Proof.
  intros Hd. pose proof (deduplicate_group drafts (draft_key d)) as Hg.
  assert (d ∈ List.filter (has_key (draft_key d)) (deduplicate_drafts drafts)) as Hin
    by (apply elem_of_lfilter; split; [done|by apply bool_decide_true]).
  rewrite Hg in Hin. destruct (List.filter _ drafts) as [|first rest]; [by apply elem_of_nil in Hin|].
  apply list_elem_of_singleton in Hin. by exists first, rest.
Qed.

(** The rules that read observations, and the others. *)
Lemma default_rules_split hz r :
  r ∈ DEFAULT_RULES hz →
  (∃ sp, sp ∈ protocol_specs hz ∧ spec_rule sp = r) ∨
  r ∈ [InsecureManagementRule; LlmnrPresentRule; NbnsPresentRule; MultipleDhcpServersRule].
Proof.
  change (DEFAULT_RULES hz) with (map spec_rule (protocol_specs hz) ++
    [InsecureManagementRule; LlmnrPresentRule; NbnsPresentRule; MultipleDhcpServersRule]).
  intros [(sp & -> & Hsp)%list_elem_of_fmap|]%elem_of_app; [left; by exists sp|by right].
Qed.

Lemma other_drafts c r rds d :
  r ∈ [InsecureManagementRule; LlmnrPresentRule; NbnsPresentRule; MultipleDhcpServersRule] →
  Rule_evaluate r c = Return rds → d ∈ rds → observation_ids d = [] ∧ rule_id d = r.(head_id).
Proof.
  intros Hr Heval Hd.
  repeat apply elem_of_cons in Hr as [->|Hr]; [..|by apply elem_of_nil in Hr].
  - apply management_spec in Heval as [Heval _].
    by destruct (Heval _ Hd) as (?&?&?&_&_&_&_&_&_&?&?&_).
  - apply sensor_presence_spec in Heval as [Heval _].
    by destruct (Heval _ Hd) as (?&?&?&?&_&_&_&_&_&_&?&?&_).
  - apply sensor_presence_spec in Heval as [Heval _].
    by destruct (Heval _ Hd) as (?&?&?&?&_&_&_&_&_&_&?&?&_).
  - apply multiple_dhcp_spec in Heval as [Heval _].
    by destruct (Heval _ Hd) as (?&?&_&_&_&_&_&_&?&?&_).
Qed.

Lemma other_rule_ids hz (r : Rule) :
  r ∈ [InsecureManagementRule; LlmnrPresentRule; NbnsPresentRule; MultipleDhcpServersRule] →
  r.(head_id) ∉ map (fun sp => (spec_rule sp).(head_id)) (protocol_specs hz).
Proof.
  intros Hr. change (map _ (protocol_specs hz)) with
    (map (fun sp => (spec_rule sp).(head_id)) (protocol_specs [])).
  repeat apply elem_of_cons in Hr as [->|Hr]; [by_decide..|by apply elem_of_nil in Hr].
Qed.

(** C13: whatever observations a finding cites were made in the audit, are of a kind
    that counts as evidence (no timeout, missing tool or other failed probe), and are
    about the service the finding is filed under; a finding of a protocol rule cites
    at least one. *)
Theorem findings_cite_evidence hz c ds d :
  evaluate_findings hz c None = Return ds → d ∈ ds →
  (∀ i, i ∈ observation_ids d → cites c d.(dedupe_key) i) ∧
  (rule_id d ∈ map (fun sp => (spec_rule sp).(head_id)) (protocol_specs hz) → observation_ids d ≠ []).
Proof.
  intros (drafts & -> & Hin & _)%evaluate_default Hd.
  destruct (elem_of_deduplicate _ _ Hd) as (first & rest & Hf & Hm).
  assert (∀ x, x ∈ first :: rest → x ∈ drafts ∧ draft_key x = draft_key d) as Hgroup.
  { intros x. rewrite <- Hf, elem_of_lfilter. unfold has_key. by rewrite bool_decide_eq_true. }
  destruct (merge_all_spec first rest) as [_ _ _ _ Hobs _]. rewrite <- Hm in Hobs.
  assert (∀ x, x ∈ drafts →
    (∃ sp rds, sp ∈ protocol_specs hz ∧ Rule_evaluate (spec_rule sp) c = Return rds ∧ x ∈ rds) ∨
    (∃ r rds, r ∈ [InsecureManagementRule; LlmnrPresentRule; NbnsPresentRule; MultipleDhcpServersRule] ∧
       Rule_evaluate r c = Return rds ∧ x ∈ rds)) as Horigin.
  { intros x (r & rds & Hr & Hev & Hx)%Hin.
    destruct (default_rules_split _ _ Hr) as [(sp & ? & <-)|?]; [left|right]; eauto. }
  split.
  - intros i (x & Hx & Hi)%Hobs. apply Hgroup in Hx as [Hx Hk].
    destruct (Horigin _ Hx) as [(sp & rds & Hsp & Hev & Hxr)|(r & rds & Hr & Hev & Hxr)];
      [|destruct (other_drafts _ _ _ _ Hr Hev Hxr) as [Hnone _]; rewrite Hnone in Hi; by apply elem_of_nil in Hi].
    apply protocol_specs_implemented in Hsp.
    destruct (protocol_draft _ _ _ _ _ Hsp Hev Hxr)
      as (a & s & g & -> & _ & _ & _ & Hkey & _ & _ & Hids & _).
    destruct Hsp as [Hkinds _]. rewrite Forall_forall in Hkinds.
    apply Hids in Hi. apply list_elem_of_fmap in Hi as (o & -> & Ho).
    apply elem_of_service_observations in Ho as (Ho & Hok & <- & <-).
    exists o. split_and!; [done|done|by apply Hkinds|].
    unfold draft_key in Hk. injection Hk as _ <-. by rewrite Hkey.
  - intros Hrule Hnil.
    destruct (Hgroup first ltac:(constructor)) as [Hfirst Hk].
    assert (observation_ids first = []) as Hfn.
    { destruct (observation_ids first) as [|i l] eqn:Hi; [done|].
      assert (i ∈ observation_ids d) as Hid
        by (apply Hobs; exists first; rewrite Hi; split; constructor).
      rewrite Hnil in Hid. by apply elem_of_nil in Hid. }
    destruct (Horigin _ Hfirst) as [(sp & rds & Hsp & Hev & Hxr)|(r & rds & Hr & Hev & Hxr)].
    + apply protocol_specs_implemented in Hsp.
      by destruct (protocol_draft _ _ _ _ _ Hsp Hev Hxr) as (? & ? & ? & _ & _ & _ & _ & _ & _ & Hne & _).
    + destruct (other_drafts _ _ _ _ Hr Hev Hxr) as [_ Hid].
      unfold draft_key in Hk. injection Hk as Hk _. rewrite <- Hk, Hid in Hrule.
      by apply (other_rule_ids hz r Hr).
Qed.

Lemma findings_cite_evidence_witness :
  Forall (fun d => Forall (cites sample_context d.(dedupe_key)) d.(observation_ids)) sample_findings.
Proof.
  apply Forall_forall. intros d Hd. apply Forall_forall.
  apply (findings_cite_evidence [] sample_context sample_findings d);
    [vm_compute; reflexivity|exact Hd].
Defined.

(** ** Deduplication *)

(** C7: deduplication keeps one finding per (rule, dedupe key), in order of severity,
    rule and key; each is the merge of the drafts of its key in order, and so has the
    best severity and confidence among them and cites exactly their observations and
    artifacts. *)
Theorem deduplicate_correct drafts :
  NoDup (map draft_key (deduplicate_drafts drafts)) ∧
  StronglySorted (fun a b => draft_le a b = true) (deduplicate_drafts drafts) ∧
  (∀ d, d ∈ drafts → draft_key d ∈ map draft_key (deduplicate_drafts drafts)) ∧
  ∀ d, d ∈ deduplicate_drafts drafts →
    ∃ first rest, List.filter (has_key (draft_key d)) drafts = first :: rest ∧
      d = foldl _merge first rest ∧ merged_from (first :: rest) d.
Proof.
  split_and!.
  - apply deduplicate_keys_NoDup.
  - apply sorted_by, _.
  - intros d Hd. pose proof (deduplicate_group drafts (draft_key d)) as Hg.
    destruct (List.filter (has_key (draft_key d)) drafts) as [|first rest] eqn:Hf.
    + by pose proof (proj1 (lfilter_nil _ _) Hf d Hd) as Hk%bool_decide_eq_false.
    + apply list_elem_of_fmap. exists (foldl _merge first rest).
      assert (foldl _merge first rest ∈ List.filter (has_key (draft_key d)) (deduplicate_drafts drafts))
        as [Hin Hk%bool_decide_eq_true]%elem_of_lfilter by (rewrite Hg; constructor).
      done.
  - intros d (first & rest & Hf & Hd)%elem_of_deduplicate. exists first, rest.
    split_and!; [done|done|]. rewrite Hd. apply merge_all_spec.
Qed.

(** Deduplicating again changes nothing. *)
Theorem deduplicate_idempotent drafts :
  deduplicate_drafts (deduplicate_drafts drafts) = deduplicate_drafts drafts.
Proof.
  unfold deduplicate_drafts at 1. rewrite merge_into_fresh by apply deduplicate_keys_NoDup.
  apply sort_by_id, sorted_by, _.
Qed.

Lemma deduplicate_singleton_key drafts k :
  k ∈ map draft_key drafts ↔ k ∈ map draft_key (deduplicate_drafts drafts).
Proof.
  pose proof (deduplicate_group drafts k) as Hg.
  assert (∀ l, k ∈ map draft_key l ↔ List.filter (has_key k) l ≠ []) as Hk.
  { intros l. split.
    - intros (d & -> & Hd)%list_elem_of_fmap Hnil.
      by pose proof (proj1 (lfilter_nil _ _) Hnil d Hd) as ?%bool_decide_eq_false.
    - destruct (List.filter (has_key k) l) as [|d rest] eqn:Hf; [done|]. intros _.
      assert (d ∈ List.filter (has_key k) l) as [Hd <-%bool_decide_eq_true]%elem_of_lfilter
        by (rewrite Hf; constructor).
      apply list_elem_of_fmap. by exists d. }
  rewrite !Hk, Hg. by destruct (List.filter (has_key k) drafts).
Qed.

(** ** Evaluation *)

(** an evaluation with the default rules that returns has run all nineteen rules;
    it reports a (rule, dedupe key) exactly when one of the rules drafted it. *)
Theorem evaluate_findings_complete hz c ds :
  evaluate_findings hz c None = Return ds →
  (∀ r, r ∈ DEFAULT_RULES hz → ∃ rds, Rule_evaluate r c = Return rds) ∧
  ∀ k, k ∈ map draft_key ds ↔
       ∃ r rds d, r ∈ DEFAULT_RULES hz ∧ Rule_evaluate r c = Return rds ∧ d ∈ rds ∧ draft_key d = k.
Proof.
  intros (drafts & -> & Hin & Hall)%evaluate_default. split; [done|]. intros k.
  rewrite <- deduplicate_singleton_key. unfold map. split.
  - intros (d & -> & (r & rds & ? & ? & ?)%Hin)%list_elem_of_fmap. by exists r, rds, d.
  - intros (r & rds & d & ? & ? & ? & <-). apply list_elem_of_fmap. exists d.
    split; [done|]. apply Hin. by exists r, rds.
Qed.

Lemma evaluate_findings_complete_witness :
  ("WS-SSH-WEAK-ALGORITHMS", "asset:service") ∈ map draft_key sample_findings.
Proof.
  apply (evaluate_findings_complete [] sample_context sample_findings);
    [vm_compute; reflexivity|].
  exists WeakSshAlgorithmsRule, sample_ssh. eexists.
  split; [left|split; [vm_compute; reflexivity|split; [left|reflexivity]]].
Defined.

(** C14: an evaluation fails only when pydantic refuses a draft, when the expiry date of
    an observed certificate overflows the date parser, or when the stored passive result
    has another shape than the rules read. *)
Theorem evaluate_findings_failures hz c e :
  evaluate_findings hz c None = Raise e →
  refused e ∨
  (∃ o m, o ∈ c.(observations) ∧ o.(obs_kind) ∉ NON_EVIDENCE_KINDS ∧ bad_date hz e o ∧
          e = PyOverflowError m) ∨
  (∃ document, c.(passive_result) = Some document ∧ malformed_passive document e).
Proof.
  destruct (default_registry_returns hz) as (registry & Hdef & Hreg).
  unfold evaluate_findings, mbind, outcome_bind. rewrite Hdef.
  destruct (rules_spec _ _ Hreg) as [Hperm _].
  destruct (evaluate_rules c (rules registry)) as [|e'] eqn:Hev; [done|]. intros [= <-].
  apply evaluate_rules_Raise in Hev as (r & Hr & Hev). rewrite Hperm in Hr.
  destruct (default_rules_split _ _ Hr) as [(sp & Hsp & <-)|Ho].
  - apply protocol_specs_implemented in Hsp. pose proof Hsp as [Hkinds _].
    rewrite Forall_forall in Hkinds.
    destruct (protocol_raise _ _ _ _ Hsp Hev) as [|(o & Ho & Hk & Hbad)]; [by left|].
    right. left. destruct (parse_time_Raise _ _ _ Hbad) as [m Hm]. exists o, m.
    split_and!; [done|by apply Hkinds|done|done].
  - repeat apply elem_of_cons in Ho as [->|Ho]; [..|by apply elem_of_nil in Ho].
    + left. by apply management_raise in Hev.
    + apply sensor_presence_raise in Hev as [|?]; [by left|by right; right].
    + apply sensor_presence_raise in Hev as [|?]; [by left|by right; right].
    + apply multiple_dhcp_raise in Hev as [|?]; [by left|by right; right].
Qed.

(** A certificate whose printed year does not fit a C int. *)
Definition overflow_context : EvaluationContext :=
  sample_context <| observations := [sample_observation "o2" "tls_certificate"
    [("not_after", PStr "1 Jan 99999999999 00:00:00 GMT")]] |>.

Definition overflow_error : PyExc := PyOverflowError "Python int too large to convert to C int".

Lemma evaluate_findings_failures_witness :
  refused overflow_error ∨
  (∃ o m, o ∈ overflow_context.(observations) ∧ o.(obs_kind) ∉ NON_EVIDENCE_KINDS ∧
          bad_date [] overflow_error o ∧ overflow_error = PyOverflowError m) ∨
  (∃ document, overflow_context.(passive_result) = Some document ∧
               malformed_passive document overflow_error).
Proof. apply evaluate_findings_failures. vm_compute. reflexivity. Defined.

(** the default registry exists, holds exactly the nineteen default rules, finds
    each under its id, and runs them in order of their ids. *)
Theorem default_registry_correct hz :
  ∃ registry, default_registry hz = Return registry ∧
    rules registry ≡ₚ DEFAULT_RULES hz ∧
    StronglySorted (fun a b => str_le a b = true)
      (map (fun r : Rule => r.(head_id)) (rules registry)) ∧
    (∀ id rule, get_rule registry id = Return rule ↔ rule ∈ DEFAULT_RULES hz ∧ rule.(head_id) = id) ∧
    (∀ rule, rule ∈ DEFAULT_RULES hz → ∃ e, register registry rule = Raise e).
Proof.
  destruct (default_registry_returns hz) as (registry & Hdef & Hreg). exists registry.
  destruct (rules_spec _ _ Hreg) as [Hperm Hsorted]. split_and!; try done.
  - intros id rule. by apply get_rule_spec.
  - intros rule Hr. pose proof (proj2 (get_rule_spec _ _ rule.(head_id) rule Hreg) (conj Hr eq_refl)) as Hget.
    unfold get_rule in Hget. unfold register. destruct (dict_get registry rule.(head_id)); [by eexists|done].
Qed.

(** ** Rules over the inventory *)

(** the management rule fails only when a draft is refused; otherwise it reports
    exactly the open services that an insecure name, or an insecure port of a service
    Nmap left unnamed, gives away, with the cataloged severity. *)
Theorem management_rule_correct c :
  match Rule_evaluate InsecureManagementRule c with
  | Raise e => refused e
  | Return ds =>
      (∀ d, d ∈ ds → ∃ s name sev, s ∈ c.(services) ∧ insecure_as s name sev ∧
         asset_id d = Some s.(service_asset_id) ∧ draft_service_id d = Some s.(service_id) ∧
         severity d = sev ∧ get (data d) "matched_as" = PStr name) ∧
      (∀ s name sev, s ∈ c.(services) → insecure_as s name sev →
         ∃ d, d ∈ ds ∧ dedupe_key d = inventory_dedupe_key s ∧ severity d = sev)
  end.
Proof.
  destruct (Rule_evaluate InsecureManagementRule c) as [ds|e] eqn:He; [|by apply management_raise in He].
  apply management_spec in He as [H1 H2]. split; [|done].
  intros d Hd. destruct (H1 d Hd) as (s & name & sev & ? & ? & ? & ? & ? & ? & ? & ? & ?).
  by exists s, name, sev.
Qed.

(** the LLMNR and NBNS rules report when the stored passive result has the sensor
    detected or partial with a hit, at most once and with no asset; the DHCP rule when
    the sensor's servers have two distinct identifiers. *)
Theorem passive_rules_correct c rule ds :
  rule ∈ [LlmnrPresentRule; NbnsPresentRule; MultipleDhcpServersRule] →
  Rule_evaluate rule c = Return ds →
  (∀ d, d ∈ ds → asset_id d = None ∧ dedupe_key d = "audit") ∧
  (length ds <= 1)%nat ∧
  (ds ≠ [] ↔ ∃ document, c.(passive_result) = Some document ∧
     if String.eqb rule.(head_id) "WS-INFRA-MULTIPLE-DHCP"
     then ∃ a b, a ≠ b ∧ ∀ s, s ∈ [a; b] → ∃ item, item ∈ dhcp_entries document ∧
                                                    server_identifier item = Some s
     else ∃ record status hits,
       sensor_of document (if String.eqb rule.(head_id) "WS-INFRA-LLMNR" then "llmnr" else "nbns")
         = Some record ∧ seen_by record status hits).
Proof.
  intros Hr Heval. repeat apply elem_of_cons in Hr as [->|Hr]; [..|by apply elem_of_nil in Hr].
  - exact (sensor_presence_iff c Llmnr_head "llmnr" LLMNR MEDIUM ds Heval).
  - exact (sensor_presence_iff c Nbns_head "nbns" NBNS MEDIUM ds Heval).
  - exact (multiple_dhcp_iff c ds Heval).
Qed.

Lemma passive_rules_correct_witness :
  outcome_or [] (Rule_evaluate LlmnrPresentRule sample_context) ≠ [].
Proof.
  apply (passive_rules_correct sample_context LlmnrPresentRule
    (outcome_or [] (Rule_evaluate LlmnrPresentRule sample_context)));
    [left|vm_compute; reflexivity|].
  exists sample_passive. split; [reflexivity|].
  exists [("status", PStr "detected"); ("hits", PInt 3)], "detected", 3.
  split; [vm_compute; reflexivity|]. split; [reflexivity|split; [left|split; [reflexivity|lia]]].
Defined.

(** ** Certificate dates *)

(** a certificate date printed by OpenSSL (for any host time zone) is read as the
    instant it names, for every valid date and time of years 1 to 9999. *)
Theorem certificate_date_roundtrip hz y mo d h mi s :
  valid_date y mo d h mi s →
  parse_time hz (PStr (openssl_text y mo d h mi s)) = Return (Some (instant y mo d h mi s)).
Proof. apply parse_openssl_text. Qed.

Lemma certificate_date_roundtrip_witness :
  openssl_text 2024 2 29 23 59 59 = "Feb 29 23:59:59 2024 GMT" ∧
  parse_time [] (PStr (openssl_text 2024 2 29 23 59 59)) = Return (Some 1709251199000000).
Proof.
  split; [vm_compute; reflexivity|].
  apply (certificate_date_roundtrip [] 2024 2 29 23 59 59).
  unfold valid_date. vm_compute. intuition discriminate.
Defined.

(** ** What modelling showed *)

(** A boolean [signing: False], SMB signing switched off, is never reported. *)
Lemma smb_signing_false_ignored data :
  get data "signing" = PBool false → get data "smb_signing" = PNone →
  _signing_disabled data = false.
Proof. unfold _signing_disabled, _signing_value. by intros -> ->. Qed.

(** A plain HTTP service on port 8080 that Nmap names "http-alt" counts as HTTPS. *)
Lemma http_alt_counts_as_https : _is_https (sample_service 8080 (Some "http-alt")) = true.
Proof. reflexivity. Qed.

(** One unreadable certificate date aborts the whole evaluation. *)
Lemma overflow_aborts_evaluation :
  evaluate_findings [] overflow_context None = Raise overflow_error.
Proof. vm_compute. reflexivity. Qed.
