(* ===== verification/FindStore.v ===== *)
(** * Persistence of findings ([findings/store.py])

    The rows of [findings] and [finding_state_events], the ids the foreign keys may
    refer to, and the operations of [FindingStore].  A transaction is one atomic step. *)

From S2P Require Import Prelude PyBase PyText JobModels JobStore FindModels.

(** ** Bounding the data of a finding *)

Definition MAX_LIST_ITEMS : nat := 64.
Definition MAX_STRING_VALUE : Z := 2048.
Definition MAX_KEY : Z := 64.

Fixpoint _truncate (value : pyval) : pyval :=
  match value with
  | PDict d =>
      PDict (foldl (fun acc kv => dict_set acc kv.1 kv.2) []
               (take MAX_LIST_ITEMS (List.map (fun kv => (str_take MAX_KEY kv.1, _truncate kv.2)) d)))
  | PList l => PList (take MAX_LIST_ITEMS (List.map _truncate l))
  | PStr s => if MAX_STRING_VALUE <? str_len s then PStr (str_take MAX_STRING_VALUE s) else value
  | _ => value
  end.

Definition _bound_data (data : dict) : dict :=
  let bounded := _truncate (PDict data) in
  let encoded := byte_len (json_dumps bounded) in
  if encoded <=? MAX_FINDING_DATA_BYTES
  then match bounded with PDict d => d | _ => [] end
  else [("truncated", PBool true);
        ("keys", PList (map PStr (take MAX_LIST_ITEMS (sort_by str_le (dict_keys data)))));
        ("original_bytes", PInt encoded)].

(** ** Rows *)

(** [FindingModel]; its CHECK constraints make the three enumerations closed. *)
Record FindingModel : Type := mkFinding {
  finding_id : string;
  finding_audit_id : string;
  finding_asset_id : option string;
  finding_service_id : option string;
  finding_rule_id : string;
  finding_rule_version : string;
  finding_schema_version : Z;
  finding_family : string;
  finding_title : string;
  finding_severity : Severity;
  finding_confidence : ConfidenceLevel;
  finding_status : FindingStatus;
  finding_description : string;
  finding_rationale : string;
  finding_recommendation : string;
  finding_data : dict;
  finding_observation_ids : list string;
  finding_evidence_ids : list string;
  finding_dedupe_key : string;
  finding_first_seen : datetime;
  finding_last_seen : datetime;
  finding_created_at : datetime;
  finding_updated_at : datetime
}.
#[export] Instance eta_FindingModel : Eta FindingModel := fun r =>
  mkFinding r.(finding_id) r.(finding_audit_id) r.(finding_asset_id) r.(finding_service_id)
    r.(finding_rule_id) r.(finding_rule_version) r.(finding_schema_version) r.(finding_family)
    r.(finding_title) r.(finding_severity) r.(finding_confidence) r.(finding_status)
    r.(finding_description) r.(finding_rationale) r.(finding_recommendation) r.(finding_data)
    r.(finding_observation_ids) r.(finding_evidence_ids) r.(finding_dedupe_key)
    r.(finding_first_seen) r.(finding_last_seen) r.(finding_created_at) r.(finding_updated_at).

(** [FindingStateEventModel] *)
Record FindingStateEventModel : Type := mkStateEvent {
  state_event_id : Z;
  state_event_finding_id : string;
  state_event_audit_id : string;
  state_event_created_at : datetime;
  state_event_actor : string;
  from_status : FindingStatus;
  to_status : FindingStatus;
  state_event_reason : string;
  state_event_details : dict
}.

(** [FindingRecord]: the fields of the row, and the events it was loaded with. *)
Record FindingRecord : Type := mkFindingRecord {
  record_of : FindingModel;
  state_events : list FindingStateEventModel
}.

(** The tables, the ids other tables hold, and the readings of clock and generator. *)
Record FindingWorld : Type := mkFindingWorld {
  findings : gmap string FindingModel;
  finding_events : list FindingStateEventModel;
  audit_rows : gset string;
  asset_rows : gset string;
  service_rows : gset string;
  finding_clock_reads : nat;
  finding_uuids_drawn : nat
}.
#[export] Instance eta_FindingWorld : Eta FindingWorld := fun r =>
  mkFindingWorld r.(findings) r.(finding_events) r.(audit_rows) r.(asset_rows) r.(service_rows)
    r.(finding_clock_reads) r.(finding_uuids_drawn).

Inductive FindExc : Type :=
  | FindingNotFound (finding_id : string)
  | InvalidFindingState (current desired : FindingStatus)
  | FindingIntegrityError (constraint : string).

Abbreviation FM := (prog FindingWorld FindExc).

(** [with self.database.session() as session, session.begin()] *)
Definition finding_transaction {A} (body : FM A) : FM A := fun w =>
  match body w with
  | (Return a, w') => (Return a, w')
  | (Raise e, w') =>
      (Raise e, w <| finding_clock_reads := w'.(finding_clock_reads) |>
                  <| finding_uuids_drawn := w'.(finding_uuids_drawn) |>)
  end.

Section store.
Context `{Runtime}.

Definition finding_now : FM datetime := fun w =>
  (Return (clock w.(finding_clock_reads)), w <| finding_clock_reads ::= S |>).

Definition finding_uuid : FM string := fun w =>
  (Return (uuid4 w.(finding_uuids_drawn)), w <| finding_uuids_drawn ::= S |>).

(** ** The identity of a finding: [uq_findings_identity] *)

Definition identity (f : FindingModel) : string * string * string :=
  (f.(finding_audit_id), f.(finding_rule_id), f.(finding_dedupe_key)).

(** [session.scalar(select(FindingModel).where(identity))]; at most one row has it. *)
Definition find_identity (k : string * string * string) : FM (option FindingModel) :=
  reads (fun w => find_first (fun f => bool_decide (identity f = k)) (map_to_list w.(findings)).*2).

(** ** Constraints *)

Definition references (w : FindingWorld) (f : FindingModel) : bool :=
  bool_decide (f.(finding_audit_id) ∈ w.(audit_rows)) &&
  match f.(finding_asset_id) with Some a => bool_decide (a ∈ w.(asset_rows)) | None => true end &&
  match f.(finding_service_id) with Some s => bool_decide (s ∈ w.(service_rows)) | None => true end.

(** A flush writes a row whose foreign keys hold. *)
Definition put_finding (f : FindingModel) : FM unit := fun w =>
  if references w f then (Return tt, w <| findings ::= insert f.(finding_id) f |>)
  else (Raise (FindingIntegrityError "FOREIGN KEY"), w).

Definition insert_finding (f : FindingModel) : FM unit :=
  old ← reads (fun w => w.(findings) !! f.(finding_id));
  match old with
  | Some _ => raise (FindingIntegrityError "findings.id")
  | None => put_finding f
  end.

(** ** upsert_evaluation *)

(** The columns an evaluation writes on a known finding; the id, identity, status,
    first-seen and creation time are left as they are. *)
Definition evaluated (draft : FindingDraft) (now : datetime) (f : FindingModel) : FindingModel :=
  mkFinding f.(finding_id) f.(finding_audit_id) draft.(asset_id) draft.(draft_service_id)
    f.(finding_rule_id) draft.(rule_version) FINDING_SCHEMA_VERSION draft.(family) draft.(title)
    draft.(severity) draft.(confidence) f.(finding_status) draft.(description) draft.(rationale)
    draft.(recommendation) (_bound_data draft.(data))
    (take MAX_OBSERVATION_LINKS draft.(observation_ids))
    (take MAX_OBSERVATION_LINKS draft.(evidence_artifact_ids)) f.(finding_dedupe_key)
    f.(finding_first_seen) now f.(finding_created_at) now.

Definition new_finding (id audit_id : string) (draft : FindingDraft) (now : datetime)
    : FindingModel :=
  mkFinding id audit_id draft.(asset_id) draft.(draft_service_id) draft.(rule_id)
    draft.(rule_version) FINDING_SCHEMA_VERSION draft.(family) draft.(title) draft.(severity)
    draft.(confidence) OPEN draft.(description) draft.(rationale) draft.(recommendation)
    (_bound_data draft.(data)) (take MAX_OBSERVATION_LINKS draft.(observation_ids))
    (take MAX_OBSERVATION_LINKS draft.(evidence_artifact_ids)) draft.(dedupe_key) now now now now.

Definition upsert_draft (audit_id : string) (now : datetime) (draft : FindingDraft)
    : FM FindingRecord :=
  existing ← find_identity (audit_id, draft.(rule_id), draft.(dedupe_key));
  match existing with
  | None =>
      id ← finding_uuid;
      let f := new_finding id audit_id draft now in
      _ ← insert_finding f;
      mret (mkFindingRecord f [])
  | Some f =>
      let f := evaluated draft now f in
      _ ← put_finding f;
      mret (mkFindingRecord f [])
  end.

Definition upsert_evaluation (audit_id : string) (drafts : list FindingDraft)
    : FM (list FindingRecord) :=
  finding_transaction (now ← finding_now; for_each (upsert_draft audit_id now) drafts).

(** ** Queries *)

(** [ORDER BY severity, rule_id, id] *)
Definition finding_le : FindingModel → FindingModel → bool :=
  rank_then (fun f => SEVERITY_RANK f.(finding_severity))
    (str_then finding_rule_id (fun a b => str_le a.(finding_id) b.(finding_id))).

Record FindingFilter : Type := mkFindingFilter {
  by_severity : option Severity;
  by_status : option FindingStatus;
  by_asset : option string;
  by_service : option string;
  by_rule : option string;
  by_family : option string
}.

(** [if value: filters.append(column == value)] *)
Definition text_filter (wanted : option string) (column : option string) : bool :=
  match wanted with
  | Some (String _ _ as v) => bool_decide (column = Some v)
  | _ => true
  end.

Definition matches (audit_id : string) (q : FindingFilter) (f : FindingModel) : bool :=
  String.eqb f.(finding_audit_id) audit_id &&
  match q.(by_severity) with Some s => bool_decide (f.(finding_severity) = s) | None => true end &&
  match q.(by_status) with Some s => bool_decide (f.(finding_status) = s) | None => true end &&
  text_filter q.(by_asset) f.(finding_asset_id) &&
  text_filter q.(by_service) f.(finding_service_id) &&
  text_filter q.(by_rule) (Some f.(finding_rule_id)) &&
  text_filter q.(by_family) (Some f.(finding_family)).

Definition finding_rows (w : FindingWorld) (p : FindingModel → bool) : list FindingModel :=
  List.filter p (map_to_list w.(findings)).*2.

Definition list_findings (audit_id : string) (limit offset : Z) (q : FindingFilter)
    : FM (Page FindingRecord) :=
  reads (fun w =>
    let rows := finding_rows w (matches audit_id q) in
    mkPage (map (fun f => mkFindingRecord f [])
                     (sql_page limit offset (sort_by finding_le rows)))
      limit offset (Z.of_nat (length rows))).

(** The events of a finding, in order of their ids. *)
Definition events_of (finding : string) (evs : list FindingStateEventModel)
    : list FindingStateEventModel :=
  sort_by (fun a b => a.(state_event_id) <=? b.(state_event_id))
    (List.filter (fun e => String.eqb e.(state_event_finding_id) finding) evs).

Definition get_finding (audit_id finding : string) (include_events : bool)
    : FM FindingRecord :=
  row ← reads (fun w => w.(findings) !! finding);
  match row with
  | None => raise (FindingNotFound finding)
  | Some f =>
      if negb (String.eqb f.(finding_audit_id) audit_id) then raise (FindingNotFound finding)
      else
        evs ← reads (fun w => if include_events then events_of finding w.(finding_events) else []);
        mret (mkFindingRecord f evs)
  end.

Definition count (audit_id : string) : FM Z :=
  reads (fun w => Z.of_nat (length (finding_rows w (fun f => String.eqb f.(finding_audit_id) audit_id)))).

(** Every severity, absent ones at zero. *)
Definition counts_by_severity (audit_id : string) : FM (list (Severity * Z)) :=
  reads (fun w => map (fun sev => (sev, Z.of_nat (length
    (finding_rows w (fun f => String.eqb f.(finding_audit_id) audit_id &&
                              bool_decide (f.(finding_severity) = sev))))))
    [CRITICAL; HIGH; MEDIUM; LOW; INFO]).

(** ** change_status *)

Definition _ALLOWED_TRANSITIONS (current : FindingStatus) : list FindingStatus :=
  match current with
  | OPEN => [SUPPRESSED; ACCEPTED_RISK]
  | SUPPRESSED => [OPEN; ACCEPTED_RISK]
  | ACCEPTED_RISK => [OPEN; SUPPRESSED]
  end.

(** The id SQLite gives the next event: one above the largest in use. *)
Definition next_state_event_id (evs : list FindingStateEventModel) : Z :=
  1 + foldr Z.max 0 (map state_event_id evs).

Definition change_status (audit_id finding : string) (desired : FindingStatus)
    (actor reason : string) (details : option dict) : FM FindingRecord :=
  _ ← finding_transaction (
    row ← reads (fun w => w.(findings) !! finding);
    match row with
    | None => raise (FindingNotFound finding)
    | Some f =>
        if negb (String.eqb f.(finding_audit_id) audit_id) then raise (FindingNotFound finding)
        else
          let current := f.(finding_status) in
          if negb (bool_decide (desired ∈ _ALLOWED_TRANSITIONS current))
          then raise (InvalidFindingState current desired)
          else
            now ← finding_now;
            _ ← put_finding (f <| finding_status := desired |> <| finding_updated_at := now |>);
            modify (fun w => w <| finding_events ::= fun evs =>
              evs ++ [mkStateEvent (next_state_event_id evs) f.(finding_id) audit_id now actor
                        current desired reason (default [] details)] |>)
    end);
  get_finding audit_id finding true.
End store.
