(* ===== verification/FindStoreProofs.v ===== *)
(** * The findings store: its invariant, and what each operation does *)

From S2P Require Import Prelude PyBase PyText JobModels JobStore FindModels FindRulesProofs FindStore.

(** ** The trail of a finding's status *)

(** [trail s evs s']: the events lead from [s] to [s'], each an allowed change. *)
Inductive trail : FindingStatus → list FindingStateEventModel → FindingStatus → Prop :=
  | trail_nil s : trail s [] s
  | trail_cons s e evs s' :
      e.(from_status) = s → e.(to_status) ∈ _ALLOWED_TRANSITIONS s →
      trail e.(to_status) evs s' → trail s (e :: evs) s'.

Lemma trail_snoc s evs s' e :
  trail s evs s' → e.(from_status) = s' → e.(to_status) ∈ _ALLOWED_TRANSITIONS s' →
  trail s (evs ++ [e]) e.(to_status).
Proof.
  induction 1 as [s|s e' evs s' He Hin Ht IH]; intros Hfrom Hto; cbn.
  - apply trail_cons; [done|done|constructor].
  - apply trail_cons; auto.
Qed.

Lemma trail_functional s evs s1 s2 : trail s evs s1 → trail s evs s2 → s1 = s2.
Proof. intros H1. revert s2. induction H1; inversion 1; subst; auto. Qed.

(** Any other status is an allowed change. *)
Lemma transition_allowed s s' : s' ∈ _ALLOWED_TRANSITIONS s ↔ s' ≠ s.
Proof. destruct s, s'; cbn; set_solver. Qed.

(** ** The invariant *)

Section store_proofs.
Context `{!Runtime, !RuntimeOk}.
Implicit Types (w : FindingWorld) (f : FindingModel) (d : FindingDraft).

Definition events_about (finding : string) (evs : list FindingStateEventModel)
    : list FindingStateEventModel :=
  List.filter (fun e => String.eqb e.(state_event_finding_id) finding) evs.

Record store_ok w : Prop := {
  rows_keyed id f : w.(findings) !! id = Some f → f.(finding_id) = id;
  rows_unique f g : w.(findings) !! f.(finding_id) = Some f →
    w.(findings) !! g.(finding_id) = Some g → identity f = identity g → f = g;
  rows_drawn id : is_Some (w.(findings) !! id) →
    ∃ n, (n < w.(finding_uuids_drawn))%nat ∧ id = uuid4 n;
  rows_refer id f : w.(findings) !! id = Some f → references w f = true;
  rows_bounded id f : w.(findings) !! id = Some f →
    (length f.(finding_observation_ids) <= MAX_OBSERVATION_LINKS)%nat ∧
    (length f.(finding_evidence_ids) <= MAX_OBSERVATION_LINKS)%nat;
  events_ordered : StronglySorted Z.lt (map state_event_id w.(finding_events));
  events_known e : e ∈ w.(finding_events) →
    ∃ f, w.(findings) !! e.(state_event_finding_id) = Some f ∧
         e.(state_event_audit_id) = f.(finding_audit_id);
  events_trail id f : w.(findings) !! id = Some f →
    trail OPEN (events_about id w.(finding_events)) f.(finding_status)
}.

(** ** Rows by identity *)

Definition finding_at w (k : string * string * string) : option FindingModel :=
  find_first (fun f => bool_decide (identity f = k)) (map_to_list w.(findings)).*2.

Lemma elem_of_finding_rows w f : store_ok w →
  f ∈ (map_to_list w.(findings)).*2 ↔ w.(findings) !! f.(finding_id) = Some f.
Proof.
  intros Hok. rewrite list_elem_of_fmap. split.
  - intros ([id g] & -> & Hg%elem_of_map_to_list). cbn. by rewrite (rows_keyed _ Hok _ _ Hg).
  - intros Hf. exists (f.(finding_id), f). split; [done|]. by apply elem_of_map_to_list.
Qed.

Lemma finding_at_Some w k f : store_ok w →
  finding_at w k = Some f ↔ w.(findings) !! f.(finding_id) = Some f ∧ identity f = k.
Proof.
  intros Hok. unfold finding_at. split.
  - intros [Hf Hk%bool_decide_eq_true]%find_first_Some. by rewrite elem_of_finding_rows in Hf.
  - intros [Hf <-]. destruct (find_first _ _) as [g|] eqn:Hg.
    + apply find_first_Some in Hg as [Hg Hk%bool_decide_eq_true]. rewrite elem_of_finding_rows in Hg by done.
      f_equal. by apply (rows_unique _ Hok).
    + pose proof (proj1 (find_first_None _ _) Hg f) as Hno.
      rewrite elem_of_finding_rows in Hno by done. by apply Hno, bool_decide_eq_false in Hf.
Qed.

Lemma finding_at_None w k : store_ok w →
  finding_at w k = None ↔ ∀ f, w.(findings) !! f.(finding_id) = Some f → identity f ≠ k.
Proof.
  intros Hok. unfold finding_at. rewrite find_first_None. split.
  - intros Hr f Hf. apply (proj1 (bool_decide_eq_false _)), Hr. by apply elem_of_finding_rows.
  - intros Hr f Hf. apply bool_decide_false, Hr. by apply elem_of_finding_rows.
Qed.

(** Writing a row of identity [k], fresh or in place of the row that had it. *)
Lemma finding_at_put w w' f k :
  store_ok w → store_ok w' → w'.(findings) = <[f.(finding_id) := f]> w.(findings) →
  (∀ g, w.(findings) !! f.(finding_id) = Some g → identity g = identity f) →
  finding_at w' k = if decide (k = identity f) then Some f else finding_at w k.
Proof.
  intros Hok Hok' Heq Hid. case_decide as Hk.
  - subst k. apply finding_at_Some; [done|]. by rewrite Heq, lookup_insert_eq.
  - destruct (finding_at w k) as [g|] eqn:Hg.
    + apply finding_at_Some in Hg as [Hg <-]; [|done]. apply finding_at_Some; [done|].
      rewrite Heq. split; [|done]. rewrite lookup_insert_ne; [done|]. intros Hne.
      apply Hk, Hid. by rewrite Hne.
    + apply finding_at_None; [done|]. intros g Hg1. rewrite Heq in Hg1.
      apply lookup_insert_Some in Hg1 as [[_ <-]|[_ Hg1]]; [by intros <-|].
      revert g Hg1. by apply finding_at_None.
Qed.

(** ** Writing one row keeps the invariant *)

Definition same_tables w w' : Prop :=
  w'.(audit_rows) = w.(audit_rows) ∧ w'.(asset_rows) = w.(asset_rows) ∧
  w'.(service_rows) = w.(service_rows).

Lemma references_same w w' f : same_tables w w' → references w' f = references w f.
Proof. unfold references. by intros (-> & -> & ->). Qed.

Lemma store_ok_write w w' f :
  store_ok w → same_tables w w' → (w.(finding_uuids_drawn) <= w'.(finding_uuids_drawn))%nat →
  w'.(findings) = <[f.(finding_id) := f]> w.(findings) → references w f = true →
  (length f.(finding_observation_ids) <= MAX_OBSERVATION_LINKS)%nat →
  (length f.(finding_evidence_ids) <= MAX_OBSERVATION_LINKS)%nat →
  (∃ n, (n < w'.(finding_uuids_drawn))%nat ∧ f.(finding_id) = uuid4 n) →
  (∀ g, w.(findings) !! g.(finding_id) = Some g → identity g = identity f →
        g.(finding_id) = f.(finding_id)) →
  (∀ g, w.(findings) !! f.(finding_id) = Some g → identity g = identity f) →
  StronglySorted Z.lt (map state_event_id w'.(finding_events)) →
  (∀ e, e ∈ w'.(finding_events) → e ∈ w.(finding_events) ∨
        e.(state_event_finding_id) = f.(finding_id) ∧
        e.(state_event_audit_id) = f.(finding_audit_id)) →
  (∀ id, id ≠ f.(finding_id) →
     events_about id w'.(finding_events) = events_about id w.(finding_events)) →
  trail OPEN (events_about f.(finding_id) w'.(finding_events)) f.(finding_status) →
  store_ok w'.
Proof.
  intros Hok Htab Hdrawn Heq Href Hobs Hev Hid Huniq Hsame Hord Hknown Hother Htrail.
  split; rewrite ?Heq.
  - intros id g [[<- <-]|[_ Hg]]%lookup_insert_Some; [done|]. by apply (rows_keyed _ Hok).
  - intros g1 g2 [[E1 <-]|[N1 H1]]%lookup_insert_Some [[E2 <-]|[N2 H2]]%lookup_insert_Some Hk; try done.
    + destruct N2. symmetry. by apply Huniq.
    + destruct N1. symmetry. by apply Huniq.
    + by apply (rows_unique _ Hok).
  - intros id [g [[<- _]|[_ Hg]]%lookup_insert_Some]; [done|].
    destruct (rows_drawn _ Hok id) as (n & Hn & ->); [by eexists|]. exists n. split; [lia|done].
  - intros id g [[_ <-]|[_ Hg]]%lookup_insert_Some; rewrite (references_same w) by done; [done|].
    by apply (rows_refer _ Hok id).
  - intros id g [[_ <-]|[_ Hg]]%lookup_insert_Some; [done|]. by apply (rows_bounded _ Hok id).
  - done.
  - intros e [He|[He1 He2]]%Hknown.
    + destruct (events_known _ Hok e He) as (g & Hg & Ha).
      destruct (decide (state_event_finding_id e = finding_id f)) as [E|N].
      * exists f. rewrite E, lookup_insert_eq. split; [done|]. rewrite E in Hg.
        pose proof (Hsame _ Hg) as Hi. rewrite Ha. by injection Hi.
      * exists g. by rewrite lookup_insert_ne.
    + exists f. by rewrite He1, lookup_insert_eq.
  - intros id g [[<- <-]|[N Hg]]%lookup_insert_Some; [done|].
    rewrite Hother by done. by apply (events_trail _ Hok).
Qed.

(** The clock is not part of the invariant. *)
Lemma store_ok_clock w w' :
  w'.(findings) = w.(findings) → w'.(finding_events) = w.(finding_events) → same_tables w w' →
  (w.(finding_uuids_drawn) <= w'.(finding_uuids_drawn))%nat → store_ok w → store_ok w'.
Proof.
  intros Hf He Htab Hu Hok. split; rewrite ?Hf, ?He; try apply Hok.
  - intros id Hid. destruct (rows_drawn _ Hok _ Hid) as (n & ? & ->). exists n. split; [lia|done].
  - intros id f Hi. rewrite (references_same w) by done. by apply (rows_refer _ Hok id).
Qed.

(** No event speaks of a finding that does not exist. *)
Lemma events_about_unknown w id :
  store_ok w → w.(findings) !! id = None → events_about id w.(finding_events) = [].
Proof.
  intros Hok Hid. apply lfilter_nil. intros e He. apply String.eqb_neq. intros Heq.
  destruct (events_known _ Hok e He) as (f & Hf & _). congruence.
Qed.

(** ** upsert *)

(** What evaluating a draft at [now] makes of the row of its identity. *)
Definition upserted (audit_id : string) (now : datetime) d (old : option FindingModel) f : Prop :=
  match old with
  | Some g => f = evaluated d now g
  | None => ∃ id, f = new_finding id audit_id d now
  end.

Definition draft_identity (audit_id : string) d : string * string * string :=
  (audit_id, d.(rule_id), d.(dedupe_key)).

Lemma upserted_identity audit_id now d old f :
  (∀ g, old = Some g → identity g = draft_identity audit_id d) →
  upserted audit_id now d old f → identity f = draft_identity audit_id d.
Proof. destruct old as [g|]; [intros Hg ->; exact (Hg g eq_refl)|by intros _ [id ->]]. Qed.

(** *** Field equations *)

Definition write f w : FindingWorld := w <| findings ::= insert f.(finding_id) f |>.

Lemma wp_put_finding f (Q : outcome FindExc unit → FindingWorld → Prop) w :
  (references w f = true → Q (Return tt) (write f w)) →
  (references w f = false → Q (Raise (FindingIntegrityError "FOREIGN KEY")) w) →
  wp (put_finding f) Q w.
Proof. unfold wp, put_finding. destruct (references w f); auto. Qed.

Lemma write_fields f w :
  (write f w).(findings) = <[f.(finding_id) := f]> w.(findings) ∧
  (write f w).(finding_events) = w.(finding_events) ∧ same_tables w (write f w) ∧
  (write f w).(finding_uuids_drawn) = w.(finding_uuids_drawn) ∧
  (write f w).(finding_clock_reads) = w.(finding_clock_reads).
Proof. done. Qed.

Lemma evaluated_fields d now f :
  (evaluated d now f).(finding_id) = f.(finding_id) ∧
  (evaluated d now f).(finding_status) = f.(finding_status) ∧
  identity (evaluated d now f) = identity f ∧
  (evaluated d now f).(finding_observation_ids) = take MAX_OBSERVATION_LINKS d.(observation_ids) ∧
  (evaluated d now f).(finding_evidence_ids) = take MAX_OBSERVATION_LINKS d.(evidence_artifact_ids).
Proof. done. Qed.

Lemma new_finding_fields id audit_id d now :
  (new_finding id audit_id d now).(finding_id) = id ∧
  (new_finding id audit_id d now).(finding_status) = OPEN ∧
  identity (new_finding id audit_id d now) = draft_identity audit_id d ∧
  (new_finding id audit_id d now).(finding_observation_ids) =
    take MAX_OBSERVATION_LINKS d.(observation_ids) ∧
  (new_finding id audit_id d now).(finding_evidence_ids) =
    take MAX_OBSERVATION_LINKS d.(evidence_artifact_ids).
Proof. done. Qed.

(** What one step of an evaluation leaves. *)
Definition upsert_post audit_id now d w (r : outcome FindExc FindingRecord) w' : Prop :=
  store_ok w' ∧ same_tables w w' ∧ w'.(finding_events) = w.(finding_events) ∧
  w'.(finding_clock_reads) = w.(finding_clock_reads) ∧
  (w.(finding_uuids_drawn) <= w'.(finding_uuids_drawn))%nat ∧
  match r with
  | Return rec =>
      upserted audit_id now d (finding_at w (draft_identity audit_id d)) (record_of rec) ∧
      state_events rec = [] ∧
      ∀ k, finding_at w' k = if decide (k = draft_identity audit_id d) then Some (record_of rec)
                             else finding_at w k
  | Raise e => e = FindingIntegrityError "FOREIGN KEY" ∧ w'.(findings) = w.(findings)
  end.

Lemma upsert_known audit_id now d w g :
  store_ok w → finding_at w (draft_identity audit_id d) = Some g →
  wp (_ ← put_finding (evaluated d now g); mret (mkFindingRecord (evaluated d now g) []))
    (upsert_post audit_id now d w) w.
Proof.
  intros Hok Hat. pose proof Hat as [Hg Hk]%finding_at_Some; [|done].
  assert (upserted audit_id now d (Some g) (evaluated d now g)) as Hup by done.
  destruct (evaluated_fields d now g) as (Hid & Hst & Hident & Hobs & Hev).
  remember (evaluated d now g) as f eqn:Ef. clear Ef.
  apply wp_bind, wp_put_finding; intros Href; [|split_and!; done].
  destruct (write_fields f w) as (Hrows & Hevs & Htab & Hu & Hc).
  assert (store_ok (write f w)) as Hok'.
  { apply (store_ok_write w (write f w) f); rewrite ?Hid, ?Hobs, ?Hev, ?Hevs, ?Hst; try done.
    - by rewrite Hrows, Hid.
    - apply firstn_le_length.
    - apply firstn_le_length.
    - rewrite Hu. apply (rows_drawn _ Hok). by eexists.
    - intros g' Hg' Hk'. rewrite (rows_unique _ Hok g' g); [done..|congruence].
    - intros g' Hg'. congruence.
    - apply (events_ordered _ Hok).
    - intros e He. by left.
    - by apply (events_trail _ Hok). }
  apply wp_ret. unfold upsert_post. rewrite Hevs, Hc, Hu, Hat. split_and!; try done.
  intros k. rewrite (finding_at_put w (write f w) f) by (done || (rewrite Hid; congruence)).
  cbn [record_of]. by rewrite Hident, Hk.
Qed.

Lemma upsert_unknown audit_id now d w :
  store_ok w → finding_at w (draft_identity audit_id d) = None →
  wp (id ← finding_uuid;
      let f := new_finding id audit_id d now in
      _ ← insert_finding f; mret (mkFindingRecord f [])) (upsert_post audit_id now d w) w.
Proof.
  intros Hok Hat. pose proof (proj1 (finding_at_None _ _ Hok) Hat) as Hnone.
  set (n := w.(finding_uuids_drawn)).
  assert (w.(findings) !! uuid4 n = None) as Hfresh.
  { destruct (w.(findings) !! _) eqn:Hl; [|done].
    destruct (rows_drawn _ Hok (uuid4 n)) as (m & Hm & Hi); [by eexists|].
    apply (inj uuid4) in Hi. unfold n in Hi. lia. }
  apply wp_bind. unfold wp at 1, finding_uuid. cbn [fst snd]. fold n.
  remember (w <| finding_uuids_drawn ::= S |>) as w1 eqn:Ew1.
  assert (w1.(findings) = w.(findings) ∧ w1.(finding_events) = w.(finding_events) ∧
    same_tables w w1 ∧ w1.(finding_uuids_drawn) = S n ∧
    w1.(finding_clock_reads) = w.(finding_clock_reads)) as (Hr1 & He1 & Ht1 & Hu1 & Hc1) by by subst w1.
  clear Ew1. assert (store_ok w1) as Hok1 by (apply (store_ok_clock w); try done; rewrite Hu1; unfold n; lia).
  assert (upserted audit_id now d None (new_finding (uuid4 n) audit_id d now)) as Hup by by eexists.
  destruct (new_finding_fields (uuid4 n) audit_id d now) as (Hid & Hst & Hident & Hobs & Hev).
  cbv zeta. remember (new_finding (uuid4 n) audit_id d now) as f eqn:Ef. clear Ef.
  apply wp_bind. unfold insert_finding. apply wp_bind, wp_reads. rewrite Hid, Hr1, Hfresh.
  assert (∀ k, finding_at w1 k = finding_at w k) as Hat1 by (intros k; unfold finding_at; by rewrite Hr1).
  apply wp_put_finding; intros Href.
  2: { unfold upsert_post. split_and!; try done. rewrite Hu1. unfold n. lia. }
  destruct (write_fields f w1) as (Hrows & Hevs & Htab & Hu & Hc).
  assert (same_tables w (write f w1)) as Htab' by (unfold same_tables in *; naive_solver).
  assert (store_ok (write f w1)) as Hok'.
  { apply (store_ok_write w1 (write f w1) f); rewrite ?Hid, ?Hobs, ?Hev, ?Hevs, ?Hst; try done.
    - by rewrite Hrows, Hid.
    - apply firstn_le_length.
    - apply firstn_le_length.
    - exists n. rewrite Hu, Hu1. split; [lia|done].
    - intros g Hg Hk. rewrite Hr1 in Hg. destruct (Hnone g Hg). congruence.
    - intros g. by rewrite Hr1, Hfresh.
    - apply (events_ordered _ Hok1).
    - intros e He. by left.
    - rewrite (events_about_unknown w1), <- Hst; [constructor|done|by rewrite Hr1]. }
  apply wp_ret. unfold upsert_post. rewrite Hevs, Hc, Hu, Hat, He1, Hc1, Hu1. split_and!; try done.
  { unfold n. lia. }
  intros k. rewrite (finding_at_put w1 (write f w1) f) by (done || (rewrite Hid, Hr1, Hfresh; done)).
  cbn [record_of]. by rewrite Hident, Hat1.
Qed.

Lemma upsert_draft_spec audit_id now d w :
  store_ok w → wp (upsert_draft audit_id now d) (upsert_post audit_id now d w) w.
Proof.
  intros Hok. unfold upsert_draft, find_identity. apply wp_bind, wp_reads.
  change (find_first _ _) with (finding_at w (draft_identity audit_id d)).
  destruct (finding_at w _) as [g|] eqn:Hat; [by apply upsert_known|by apply upsert_unknown].
Qed.

(** *** All drafts of an evaluation *)

Lemma same_tables_trans w1 w2 w3 : same_tables w1 w2 → same_tables w2 w3 → same_tables w1 w3.
Proof. unfold same_tables. intros (?&?&?) (?&?&?). split_and!; congruence. Qed.

(** A draft, and the record its row became. *)
Definition persisted audit_id now w w' d (rec : FindingRecord) : Prop :=
  state_events rec = [] ∧
  finding_at w' (draft_identity audit_id d) = Some (record_of rec) ∧
  upserted audit_id now d (finding_at w (draft_identity audit_id d)) (record_of rec).

Definition evaluation_post audit_id now drafts w (r : outcome FindExc (list FindingRecord)) w'
    : Prop :=
  store_ok w' ∧ same_tables w w' ∧ w'.(finding_events) = w.(finding_events) ∧
  w'.(finding_clock_reads) = w.(finding_clock_reads) ∧
  (w.(finding_uuids_drawn) <= w'.(finding_uuids_drawn))%nat ∧
  match r with
  | Return recs =>
      length recs = length drafts ∧
      (∀ k, k ∉ map (draft_identity audit_id) drafts → finding_at w' k = finding_at w k) ∧
      (NoDup (map (draft_identity audit_id) drafts) →
       Forall2 (persisted audit_id now w w') drafts recs)
  | Raise e => e = FindingIntegrityError "FOREIGN KEY"
  end.

Lemma upsert_all_spec audit_id now drafts w :
  store_ok w →
  wp (for_each (upsert_draft audit_id now) drafts) (evaluation_post audit_id now drafts w) w.
Proof.
  revert w. induction drafts as [|d drafts IH]; intros w Hok; cbn [for_each].
  { apply wp_ret. unfold evaluation_post. split_and!; try done. }
  apply wp_bind. eapply wp_mono; [by apply upsert_draft_spec|].
  intros [rec|e] w1 (Hok1 & Ht1 & He1 & Hc1 & Hu1 & Hpost).
  2: { unfold evaluation_post. by destruct Hpost as [-> _]. }
  destruct Hpost as (Hup & Hev & Hat1). apply wp_bind. eapply wp_mono; [by apply IH|].
  intros [recs|e] w2 (Hok2 & Ht2 & He2 & Hc2 & Hu2 & Hpost).
  2: { unfold evaluation_post. split_and!; [done|by eapply same_tables_trans|congruence..|lia|done]. }
  destruct Hpost as (Hlen & Hother & Hall). apply wp_ret. unfold evaluation_post.
  split_and!; [done|by eapply same_tables_trans|congruence..|lia|by simpl; rewrite Hlen| |].
  - intros k Hk. cbn [map] in Hk. apply not_elem_of_cons in Hk as [Hk Hks].
    rewrite Hother, Hat1 by done. by rewrite decide_False.
  - intros Hnd. cbn [map] in Hnd. apply NoDup_cons in Hnd as [Hd Hnd].
    constructor.
    + split_and!; [done| |done]. rewrite Hother, Hat1 by done. by rewrite decide_True.
    + specialize (Hall Hnd). clear IH Hlen Hother Hnd.
      induction Hall as [|d' rec' drafts recs (H1 & H2 & H3) Hall IH]; [constructor|].
      cbn [map] in Hd. apply not_elem_of_cons in Hd as [Hne Hd].
      constructor; [|by apply IH]. split_and!; [done|done|].
      by rewrite Hat1, decide_False in H3.
Qed.

Lemma upsert_evaluation_spec audit_id drafts w :
  store_ok w →
  wp (upsert_evaluation audit_id drafts) (fun r w' =>
    store_ok w' ∧ w'.(finding_events) = w.(finding_events) ∧
    match r with
    | Return recs =>
        length recs = length drafts ∧
        (∀ k, k ∉ map (draft_identity audit_id) drafts → finding_at w' k = finding_at w k) ∧
        (NoDup (map (draft_identity audit_id) drafts) →
         Forall2 (persisted audit_id (clock w.(finding_clock_reads)) w w') drafts recs)
    | Raise e => e = FindingIntegrityError "FOREIGN KEY" ∧ w'.(findings) = w.(findings)
    end) w.
Proof.
  intros Hok. set (w1 := w <| finding_clock_reads ::= S |>).
  assert (store_ok w1) as Hok1 by by apply (store_ok_clock w).
  pose proof (upsert_all_spec audit_id (clock w.(finding_clock_reads)) drafts w1 Hok1) as Hspec.
  unfold wp, upsert_evaluation, finding_transaction in *.
  change ((now ← finding_now; for_each (upsert_draft audit_id now) drafts) w) with
    (for_each (upsert_draft audit_id (clock w.(finding_clock_reads))) drafts w1).
  destruct (for_each _ drafts w1) as [[recs|e] w2]; cbn [fst snd] in *;
    destruct Hspec as (Hok2 & Ht & He & Hc & Hu & Hpost).
  - split; [done|split; [done|]]. destruct Hpost as (Hlen & Hother & Hall). by split_and!.
  - split; [|done].
    apply (store_ok_clock w); [done|done|done| |done]. exact Hu.
Qed.

(** ** change_status *)

Lemma next_state_event_id_above (evs : list FindingStateEventModel) e :
  e ∈ evs → e.(state_event_id) < next_state_event_id evs.
Proof.
  unfold next_state_event_id. intros He.
  enough (e.(state_event_id) ≤ foldr Z.max 0 (map state_event_id evs)) by lia.
  induction evs as [|e' evs IH]; [by apply elem_of_nil in He|]. cbn.
  apply elem_of_cons in He as [->|He]; [lia|]. specialize (IH He). lia.
Qed.

Lemma events_ordered_snoc (evs : list FindingStateEventModel) e :
  StronglySorted Z.lt (map state_event_id evs) → e.(state_event_id) = next_state_event_id evs →
  StronglySorted Z.lt (map state_event_id (evs ++ [e])).
Proof.
  intros Hs He. rewrite map_app. cbn [map].
  assert (∀ x, x ∈ map state_event_id evs → x < e.(state_event_id)) as Hlt.
  { intros x (e' & -> & He')%list_elem_of_fmap. rewrite He. by apply next_state_event_id_above. }
  clear He. induction Hs as [|x l Hs IH Hx]; cbn [app]; [repeat constructor|].
  constructor.
  - apply IH. intros y Hy. apply Hlt. by constructor.
  - apply Forall_app. split; [done|]. constructor; [|done]. apply Hlt. constructor.
Qed.

(** Events are loaded in the order they were written. *)
Lemma events_of_about w id :
  store_ok w → events_of id w.(finding_events) = events_about id w.(finding_events).
Proof.
  intros Hok. unfold events_of. fold (events_about id w.(finding_events)).
  apply sort_by_id. pose proof (events_ordered _ Hok) as Hs. unfold events_about.
  induction w.(finding_events) as [|e evs IH]; cbn; [constructor|].
  cbn [map] in Hs. inversion Hs as [|?? Hs' Hx]; subst. specialize (IH Hs').
  case_match; [|done]. constructor; [done|]. apply Forall_forall.
  intros e' [He' _]%elem_of_lfilter. apply Z.leb_le.
  rewrite Forall_forall in Hx. apply Z.lt_le_incl, Hx, list_elem_of_fmap. by exists e'.
Qed.

(** What [get_finding] answers. *)
Definition found audit_id id (with_events : bool) w : outcome FindExc FindingRecord :=
  match w.(findings) !! id with
  | Some f => if String.eqb f.(finding_audit_id) audit_id
              then Return (mkFindingRecord f
                     (if with_events then events_about id w.(finding_events) else []))
              else Raise (FindingNotFound id)
  | None => Raise (FindingNotFound id)
  end.

Lemma get_finding_spec audit_id id with_events w :
  store_ok w → get_finding audit_id id with_events w = (found audit_id id with_events w, w).
Proof.
  intros Hok. unfold get_finding, found, mbind, prog_bind, reads. cbn.
  destruct (w.(findings) !! id) as [f|]; [|done].
  destruct (String.eqb f.(finding_audit_id) audit_id); [|done]. cbn.
  destruct with_events; [|done]. by rewrite events_of_about.
Qed.

(** The row and the event of a change. *)
Definition changed_row (desired : FindingStatus) (now : datetime) f : FindingModel :=
  f <| finding_status := desired |> <| finding_updated_at := now |>.

Definition change_event (evs : list FindingStateEventModel) (audit_id : string) f
    (desired : FindingStatus) (actor reason : string) (details : option dict) (now : datetime)
    : FindingStateEventModel :=
  mkStateEvent (next_state_event_id evs) f.(finding_id) audit_id now actor f.(finding_status)
    desired reason (default [] details).

Definition change_world (desired : FindingStatus) (now : datetime) f e w : FindingWorld :=
  write (changed_row desired now f) (w <| finding_clock_reads ::= S |>)
    <| finding_events ::= fun evs => evs ++ [e] |>.

Lemma change_world_ok audit_id f desired actor reason details now w :
  store_ok w → w.(findings) !! f.(finding_id) = Some f → f.(finding_audit_id) = audit_id →
  desired ≠ f.(finding_status) →
  let e := change_event w.(finding_events) audit_id f desired actor reason details now in
  store_ok (change_world desired now f e w).
Proof.
  intros Hok Hf Haudit Hne e. set (f' := changed_row desired now f).
  apply (store_ok_write w _ f'); try done.
  - exact (rows_refer _ Hok _ _ Hf).
  - apply (rows_bounded _ Hok _ _ Hf).
  - apply (rows_bounded _ Hok _ _ Hf).
  - apply (rows_drawn _ Hok). by eexists.
  - intros g Hg Hk. by rewrite (rows_unique _ Hok g f).
  - intros g Hg. change (w.(findings) !! f.(finding_id) = Some g) in Hg. by simplify_eq.
  - apply events_ordered_snoc; [apply (events_ordered _ Hok)|done].
  - intros e' [He'| ->%list_elem_of_singleton]%elem_of_app; [by left|by right].
  - intros id Hid. change (events_about id (w.(finding_events) ++ [e]) = events_about id w.(finding_events)).
    unfold events_about. rewrite filter_snoc.
    assert (String.eqb (state_event_finding_id e) id = false) as ->; [|by rewrite app_nil_r].
    apply String.eqb_neq. by intros Heq.
  - change (trail OPEN (events_about f.(finding_id) (w.(finding_events) ++ [e])) (to_status e)).
    unfold events_about. rewrite filter_snoc.
    assert (String.eqb (state_event_finding_id e) f.(finding_id) = true) as -> by apply String.eqb_refl.
    eapply trail_snoc; [exact (events_trail _ Hok _ _ Hf)|done|]. by apply transition_allowed.
Qed.

(** [change_status] on each branch. *)
Lemma change_status_spec audit_id id desired actor reason details w :
  store_ok w →
  change_status audit_id id desired actor reason details w =
    match w.(findings) !! id with
    | None => (Raise (FindingNotFound id), w)
    | Some f =>
        if negb (String.eqb f.(finding_audit_id) audit_id) then (Raise (FindingNotFound id), w)
        else if decide (desired = f.(finding_status))
        then (Raise (InvalidFindingState f.(finding_status) desired), w)
        else
          let now := clock w.(finding_clock_reads) in
          let e := change_event w.(finding_events) audit_id f desired actor reason details now in
          (Return (mkFindingRecord (changed_row desired now f)
                     (events_about id w.(finding_events) ++ [e])),
           change_world desired now f e w)
    end.
Proof.
  intros Hok. assert (∀ w : FindingWorld, w <| finding_clock_reads := w.(finding_clock_reads) |>
    <| finding_uuids_drawn := w.(finding_uuids_drawn) |> = w) as Heta by by intros [].
  unfold change_status, finding_transaction, mbind, prog_bind, reads. cbn [fst snd].
  destruct (w.(findings) !! id) as [f|] eqn:Hf; [|unfold raise; by rewrite Heta].
  pose proof (rows_keyed _ Hok _ _ Hf) as Hid. subst id.
  destruct (String.eqb_spec f.(finding_audit_id) audit_id) as [Haudit|Haudit]; cbn [negb];
    [|unfold raise; by rewrite Heta].
  case_decide as Heq.
  { rewrite bool_decide_false by (rewrite transition_allowed; naive_solver).
    cbn [negb]. unfold raise. by rewrite Heta. }
  rewrite bool_decide_true by by apply transition_allowed. cbn [negb].
  unfold finding_now. cbn [fst snd]. fold (changed_row desired (clock w.(finding_clock_reads)) f).
  set (now := clock w.(finding_clock_reads)). set (w1 := w <| finding_clock_reads ::= S |>).
  unfold put_finding.
  assert (references w1 (changed_row desired now f) = true) as -> by exact (rows_refer _ Hok _ _ Hf).
  cbv zeta. set (e := change_event w.(finding_events) audit_id f desired actor reason details now).
  pose proof (change_world_ok audit_id f desired actor reason details now w Hok Hf Haudit Heq) as Hok'.
  change (get_finding audit_id f.(finding_id) true (change_world desired now f e w) =
    (Return (mkFindingRecord (changed_row desired now f)
       (events_about f.(finding_id) w.(finding_events) ++ [e])), change_world desired now f e w)).
  rewrite get_finding_spec by done. f_equal. unfold found.
  assert ((change_world desired now f e w).(findings) !! f.(finding_id) = Some (changed_row desired now f))
    as -> by apply lookup_insert_eq.
  assert (String.eqb (finding_audit_id (changed_row desired now f)) audit_id = true) as ->
    by by apply String.eqb_eq.
  f_equal. f_equal.
  change (events_about f.(finding_id) (w.(finding_events) ++ [e]) = events_about f.(finding_id) w.(finding_events) ++ [e]).
  unfold events_about. rewrite filter_snoc.
  by assert (String.eqb (state_event_finding_id e) f.(finding_id) = true) as -> by apply String.eqb_refl.
Qed.
End store_proofs.

(** ** Bounds on the data of a stored finding ([_truncate], [_bound_data]) *)

(** *** Induction on values, through lists and dictionaries *)

Section pyval_induction.
Context (P : pyval → Prop).
Context (HNone : P PNone) (HBool : ∀ b, P (PBool b)) (HInt : ∀ n, P (PInt n)) (HStr : ∀ s, P (PStr s)).
Context (HList : ∀ l, Forall P l → P (PList l)).
Context (HDict : ∀ d, Forall (fun kv => P kv.2) d → P (PDict d)).

Fixpoint pyval_nested_ind (v : pyval) : P v :=
  match v with
  | PNone => HNone
  | PBool b => HBool b
  | PInt n => HInt n
  | PStr s => HStr s
  | PList l =>
      HList l ((fix go (l : list pyval) : Forall P l :=
        match l with
        | [] => Forall_nil_2 _
        | x :: l' => Forall_cons_2 _ _ _ (pyval_nested_ind x) (go l')
        end) l)
  | PDict d =>
      HDict d ((fix go (d : dict) : Forall (fun kv => P kv.2) d :=
        match d with
        | [] => Forall_nil_2 _
        | kv :: d' => Forall_cons_2 _ _ _ (pyval_nested_ind kv.2) (go d')
        end) d)
  end.
End pyval_induction.

(** *** The bounds *)

(** At every depth: at most [MAX_LIST_ITEMS] items and keys, short strings and keys,
    and no key twice. *)
#[warnings="-register-all"]
Inductive within_bounds : pyval → Prop :=
  | bound_None : within_bounds PNone
  | bound_Bool b : within_bounds (PBool b)
  | bound_Int n : within_bounds (PInt n)
  | bound_Str s : str_len s ≤ MAX_STRING_VALUE → within_bounds (PStr s)
  | bound_List l :
      (length l <= MAX_LIST_ITEMS)%nat → Forall within_bounds l → within_bounds (PList l)
  | bound_Dict d :
      (length d <= MAX_LIST_ITEMS)%nat → NoDup (dict_keys d) →
      Forall (fun kv => str_len kv.1 ≤ MAX_KEY ∧ within_bounds kv.2) d → within_bounds (PDict d).

(** *** Dictionaries built entry by entry *)

Lemma dict_set_length {V} (d : list (string * V)) k v :
  (length (dict_set d k v) <= S (length d))%nat.
Proof. induction d as [|[k' v'] d IH]; simpl; [done|]. case_match; simpl; lia. Qed.

Lemma dict_update_length {V} (d e : list (string * V)) :
  (length (dict_update d e) <= length d + length e)%nat.
Proof.
  unfold dict_update. revert d. induction e as [|[k v] e IH]; intros d; cbn [foldl length]; [lia|].
  specialize (IH (dict_set d k v)). pose proof (dict_set_length d k v). cbn [fst snd] in *. lia.
Qed.

Lemma dict_set_Forall {V} (P : string * V → Prop) d k v :
  Forall P d → P (k, v) → (∀ k' v', k' = k → P (k', v') → P (k', v)) → Forall P (dict_set d k v).
Proof.
  intros Hd Hkv Hsame. induction Hd as [|[k' v'] d Hk' Hd IH]; cbn [dict_set]; [by constructor|].
  destruct (String.eqb_spec k k') as [->|]; constructor; eauto.
Qed.

Lemma dict_update_Forall {V} (P : string * V → Prop) d e :
  (∀ k v v', P (k, v) → P (k, v') → P (k, v')) →
  Forall P d → Forall P e → Forall P (dict_update d e).
Proof.
  intros Hsame Hd He. unfold dict_update. revert d Hd.
  induction He as [|[k v] e Hkv He IH]; intros d Hd; cbn [foldl]; [done|].
  apply IH. apply dict_set_Forall; [done|done|]. intros k' v' -> Hv'. by apply Hsame with v'.
Qed.

Lemma dict_update_NoDup {V} (d e : list (string * V)) :
  NoDup (dict_keys d) → NoDup (dict_keys (dict_update d e)).
Proof.
  unfold dict_update. revert d. induction e as [|[k v] e IH]; intros d Hd; cbn [foldl]; [done|].
  by apply IH, dict_set_NoDup.
Qed.

(** Distinct new keys are appended in order. *)
Lemma dict_update_fresh {V} (d e : list (string * V)) :
  NoDup (dict_keys (d ++ e)) → dict_update d e = d ++ e.
Proof.
  unfold dict_update. revert d. induction e as [|[k v] e IH]; intros d Hnd; cbn [foldl fst snd];
    [by rewrite app_nil_r|].
  assert (dict_set d k v = d ++ [(k, v)]) as ->.
  { unfold dict_keys in Hnd. rewrite fmap_app in Hnd. apply NoDup_app in Hnd as (_ & Hdisj & _).
    clear IH. induction d as [|[k' v'] d IH]; cbn [dict_set]; [done|].
    destruct (String.eqb_spec k k') as [->|].
    - destruct (Hdisj k'); constructor.
    - rewrite IH; [done|]. intros x Hx. apply Hdisj. by constructor. }
  rewrite IH; by rewrite <- (assoc_L (++)).
Qed.

(** *** Truncation *)

Lemma truncate_within v : within_bounds (_truncate v).
Proof.
  induction v as [| | |s|l IH|d IH] using pyval_nested_ind; cbn [_truncate]; try constructor.
  - destruct (Z.ltb_spec MAX_STRING_VALUE (str_len s)); constructor; [|done].
    by apply str_len_take.
  - rewrite length_take. lia.
  - apply Forall_take. change (Forall within_bounds (_truncate <$> l)). by rewrite Forall_fmap.
  - etrans; [apply (dict_update_length [])|]. simpl. rewrite length_take. lia.
  - apply (dict_update_NoDup []). constructor.
  - apply (dict_update_Forall _ []); [by intros k v v' _|constructor|]. apply Forall_take.
    induction IH as [|[k v] d Hv Hd IHd]; constructor; [|done].
    split; [by apply str_len_take|done].
Qed.

Lemma within_truncate v : within_bounds v → _truncate v = v.
Proof.
  induction v as [| | |s|l IH|d IH] using pyval_nested_ind; inversion 1 as [| | |? Hs|? Hl Hall|? Hl Hnd Hall];
    subst; cbn [_truncate]; try done.
  - by rewrite (proj2 (Z.ltb_ge _ _) Hs).
  - f_equal. rewrite take_ge by by rewrite length_map.
    clear H Hl. induction IH as [|x l Hx IH IHl]; [done|].
    apply Forall_cons in Hall as [Hx' Hall]. cbn. by rewrite Hx, IHl.
  - f_equal. rewrite take_ge by by rewrite length_map.
    assert (List.map (fun kv => (str_take MAX_KEY kv.1, _truncate kv.2)) d = d) as ->.
    { clear Hl Hnd H. induction IH as [|[k x] d Hx IH IHd]; [done|].
      apply Forall_cons in Hall as [[Hk Hx'] Hall]. cbn in *. rewrite Hx, IHd by done.
      by rewrite str_take_short. }
    by apply (dict_update_fresh []).
Qed.

Lemma truncate_idempotent v : _truncate (_truncate v) = _truncate v.
Proof. apply within_truncate, truncate_within. Qed.

(** *** The size of the summary an over-long document becomes *)

Lemma byte_len_app (a b : string) : byte_len (a +:+ b) = byte_len a + byte_len b.
Proof.
  unfold byte_len. induction a as [|c a IH]; [done|].
  change (String c a +:+ b) with (String c (a +:+ b)). simpl. lia.
Qed.

Lemma byte_len_join n sep l :
  0 ≤ byte_len sep → Forall (fun s => byte_len s ≤ n) l → 0 ≤ n →
  byte_len (join sep l) ≤ Z.of_nat (length l) * (n + byte_len sep).
Proof.
  intros Hsep Hl Hn. induction Hl as [|s l Hs Hl IH]; [done|].
  destruct l as [|s' l]; [simpl in *; lia|].
  change (join sep (s :: s' :: l)) with (s +:+ sep +:+ join sep (s' :: l)).
  rewrite !byte_len_app. cbn [length] in *. lia.
Qed.

Lemma pretty_N_go_length k x s :
  (x < 10 ^ N.of_nat k)%N → byte_len (pretty_N_go x s) ≤ Z.of_nat k + byte_len s.
Proof.
  revert x s. induction k as [|k IH]; intros x s Hx.
  - assert (x = 0)%N as -> by (simpl in Hx; lia). rewrite pretty_N_go_0. simpl. lia.
  - destruct (decide (x = 0)%N) as [->|Hne]; [rewrite pretty_N_go_0; lia|].
    rewrite pretty_N_go_step by lia.
    etrans; [apply IH|unfold byte_len; simpl; lia].
    apply N.Div0.div_lt_upper_bound. rewrite Nat2N.inj_succ, N.pow_succ_r' in Hx. lia.
Qed.

Lemma str_int_length n : 0 ≤ n < 10 ^ 20 → byte_len (str_int n) ≤ 20.
Proof.
  intros Hn. unfold str_int. destruct n as [|p|p]; [vm_compute; done| |lia].
  change (pretty (Z.pos p)) with (pretty (N.pos p)). unfold pretty, pretty_N. case_decide; [done|].
  change 20 with (Z.of_nat 20 + byte_len ""). apply pretty_N_go_length. lia.
Qed.

(** A document over the limit is replaced by a summary; the limit holds for the
    summary when the keys are short. *)
Lemma bound_data_size data :
  (∀ k, k ∈ dict_keys data → byte_len (json_str k) ≤ 180) →
  byte_len (json_dumps (_truncate (PDict data))) < 10 ^ 20 →
  byte_len (json_dumps (PDict (_bound_data data))) ≤ MAX_FINDING_DATA_BYTES.
Proof.
  intros Hkeys Hlen. unfold _bound_data.
  destruct (Z.leb_spec (byte_len (json_dumps (_truncate (PDict data)))) MAX_FINDING_DATA_BYTES) as [Hle|_];
    [exact Hle|].
  set (n := byte_len (json_dumps (_truncate (PDict data)))) in *.
  assert (0 ≤ n) as Hn by (unfold n, byte_len; lia). clearbody n.
  set (keys := take MAX_LIST_ITEMS (sort_by str_le (dict_keys data))).
  assert (json_dumps (PDict [("truncated", PBool true); ("keys", PList (map PStr keys));
      ("original_bytes", PInt n)]) =
    "{" +:+ ((json_str "keys" +:+ ":" +:+ ("[" +:+ join "," (List.map json_dumps (map PStr keys)) +:+ "]")) +:+
    "," +:+ (json_str "original_bytes" +:+ ":" +:+ str_int n) +:+ "," +:+
    (json_str "truncated" +:+ ":" +:+ "true")) +:+ "}") as -> by reflexivity.
  rewrite !byte_len_app.
  assert (byte_len (join "," (List.map json_dumps (map PStr keys))) ≤ 64 * (180 + 1)) as Hjoin.
  { etrans; [apply (byte_len_join 180)|]; [done| |lia|].
    - apply Forall_forall. intros x Hx. apply list_elem_of_fmap in Hx as (v & -> & Hv).
      apply list_elem_of_fmap in Hv as (k & -> & Hk). cbn [json_dumps]. apply Hkeys.
      apply elem_of_take in Hk as (i & Hk%list_elem_of_lookup_2 & _). by apply elem_of_sort_by in Hk.
    - rewrite !length_map. unfold keys, MAX_LIST_ITEMS. rewrite length_take.
      change (byte_len ",") with 1. lia. }
  pose proof (str_int_length n (conj Hn Hlen)) as Hint.
  change (byte_len "{") with 1. change (byte_len "[") with 1. change (byte_len ",") with 1.
  change (byte_len "}") with 1. change (byte_len "]") with 1. change (byte_len ":") with 1.
  change (byte_len "true") with 4. change (byte_len (json_str "keys")) with 6.
  change (byte_len (json_str "original_bytes")) with 16. change (byte_len (json_str "truncated")) with 11.
  unfold MAX_FINDING_DATA_BYTES. lia.
Qed.
