(* ===== verification/FindStoreTheorems.v ===== *)
(** * Theorems on the findings store *)

From S2P Require Import Prelude PyBase PyText JobModels JobStore JobSystem FindModels FindRules FindEngine FindEngineProofs FindStore FindStoreProofs.

(** ** Histories *)

Inductive StoreCall : Type :=
  | UpsertEvaluation (audit_id : string) (drafts : list FindingDraft)
  | ChangeStatus (audit_id finding : string) (desired : FindingStatus) (actor reason : string)
      (details : option dict).

Section histories.
Context {RT : Runtime} {RTOK : RuntimeOk}.
Implicit Types (w : FindingWorld) (f : FindingModel) (d : FindingDraft).

Definition store_call (c : StoreCall) w : FindingWorld :=
  match c with
  | UpsertEvaluation audit_id drafts => (upsert_evaluation audit_id drafts w).2
  | ChangeStatus audit_id finding desired actor reason details =>
      (change_status audit_id finding desired actor reason details w).2
  end.

Definition store_step w w' : Prop := ∃ c, w' = store_call c w.

(** An empty findings table next to any rows of the tables it refers to. *)
Definition empty_store (audits assets services : gset string) : FindingWorld :=
  mkFindingWorld ∅ [] audits assets services 0 0.

Definition store_reachable w : Prop :=
  ∃ audits assets services, rtc store_step (empty_store audits assets services) w.

Lemma empty_store_ok audits assets services : store_ok (empty_store audits assets services).
Proof. split; cbn; try done; [by intros ? [? ?]|constructor|by intros ? ?%elem_of_nil]. Qed.

Lemma store_call_ok c w : store_ok w → store_ok (store_call c w).
Proof.
  intros Hok. destruct c as [audit_id drafts|audit_id finding desired actor reason details]; cbn.
  - apply (upsert_evaluation_spec audit_id drafts w Hok).
  - rewrite change_status_spec by done. destruct (w.(findings) !! finding) as [f|] eqn:Hf; [|done].
    destruct (String.eqb_spec f.(finding_audit_id) audit_id); [|done]. cbn [negb].
    case_decide; [done|]. cbn [snd]. pose proof (rows_keyed _ Hok _ _ Hf) as <-.
    by apply change_world_ok.
Qed.

Lemma store_reachable_good w : store_reachable w → store_ok w.
Proof.
  intros (audits & assets & services & Hw).
  assert (∀ w1 w2, rtc store_step w1 w2 → store_ok w1 → store_ok w2) as Hrtc.
  { induction 1 as [|w1 w2 w3 [c ->] _ IH]; [done|]. intros ?. by apply IH, store_call_ok. }
  eapply Hrtc; [exact Hw|apply empty_store_ok].
Qed.

(** ** Properties *)

(** C16: in every store that evaluations and status changes lead to, a finding is the
    only one with its (audit, rule, dedupe key), and its status is where its recorded
    events, each an allowed change, lead from OPEN. *)
Theorem findings_unique_and_audited w f :
  store_reachable w → w.(findings) !! f.(finding_id) = Some f →
  (∀ g, w.(findings) !! g.(finding_id) = Some g → identity g = identity f → g = f) ∧
  ∃ evs, get_finding f.(finding_audit_id) f.(finding_id) true w =
           (Return (mkFindingRecord f evs), w) ∧
         trail OPEN evs f.(finding_status).
Proof.
  intros Hok%store_reachable_good Hf. split; [intros g Hg Hk; by apply (rows_unique _ Hok)|].
  exists (events_about f.(finding_id) w.(finding_events)).
  rewrite get_finding_spec by done. unfold found. rewrite Hf, String.eqb_refl.
  split; [done|by apply (events_trail _ Hok)].
Qed.

(** C8: storing an evaluation gives every draft of a distinct key the row of its
    identity: a known finding keeps its id, status and first-seen time and takes the
    draft's content, an unknown one starts open; every other row and all events stay.
    When a draft names a row that is gone, nothing is stored. *)
Theorem upsert_evaluation_correct audit_id drafts w :
  store_reachable w → NoDup (map (draft_identity audit_id) drafts) →
  let '(r, w') := upsert_evaluation audit_id drafts w in
  let now := clock w.(finding_clock_reads) in
  w'.(finding_events) = w.(finding_events) ∧
  match r with
  | Return recs =>
      Forall2 (fun d rec =>
        finding_at w' (draft_identity audit_id d) = Some (record_of rec) ∧
        match finding_at w (draft_identity audit_id d) with
        | Some old => record_of rec = evaluated d now old ∧
                      (record_of rec).(finding_id) = old.(finding_id) ∧
                      (record_of rec).(finding_status) = old.(finding_status) ∧
                      (record_of rec).(finding_first_seen) = old.(finding_first_seen)
        | None => ∃ id, record_of rec = new_finding id audit_id d now
        end) drafts recs ∧
      ∀ k, k ∉ map (draft_identity audit_id) drafts → finding_at w' k = finding_at w k
  | Raise _ => w'.(findings) = w.(findings)
  end.
Proof.
  intros Hok%store_reachable_good Hnd.
  pose proof (upsert_evaluation_spec audit_id drafts w Hok) as Hspec. unfold wp in Hspec.
  destruct (upsert_evaluation audit_id drafts w) as [r w']. destruct Hspec as (_ & Hev & Hpost).
  split; [done|]. destruct r as [recs|e]; [|by destruct Hpost]. destruct Hpost as (_ & Hother & Hall).
  split; [|done]. specialize (Hall Hnd). eapply Forall2_impl; [exact Hall|].
  intros d rec (_ & Hat & Hup). split; [done|]. unfold upserted in Hup.
  destruct (finding_at w _) as [old|]; [|done]. rewrite Hup. done.
Qed.

(** Storing the same evaluation again. *)
Lemma evaluated_again d now now' f :
  evaluated d now' (evaluated d now f) =
    (evaluated d now f) <| finding_last_seen := now' |> <| finding_updated_at := now' |>.
Proof. done. Qed.

Lemma evaluated_new id audit_id d now now' :
  evaluated d now' (new_finding id audit_id d now) =
    (new_finding id audit_id d now) <| finding_last_seen := now' |> <| finding_updated_at := now' |>.
Proof. done. Qed.

(** storing an evaluation a second time changes nothing but the last-seen and
    updated times of its findings. *)
Theorem upsert_evaluation_idempotent audit_id drafts w recs w1 recs2 w2 :
  store_reachable w → NoDup (map (draft_identity audit_id) drafts) →
  upsert_evaluation audit_id drafts w = (Return recs, w1) →
  upsert_evaluation audit_id drafts w1 = (Return recs2, w2) →
  let now := clock w1.(finding_clock_reads) in
  ∀ k, finding_at w2 k =
         if decide (k ∈ map (draft_identity audit_id) drafts)
         then (fun f => f <| finding_last_seen := now |> <| finding_updated_at := now |>)
                <$> finding_at w1 k
         else finding_at w1 k.
Proof.
  intros Hok%store_reachable_good Hnd H1 H2 now k.
  pose proof (upsert_evaluation_spec audit_id drafts w Hok) as S1. unfold wp in S1. rewrite H1 in S1.
  destruct S1 as (Hok1 & _ & _ & _ & P1). cbn [snd] in Hok1.
  pose proof (upsert_evaluation_spec audit_id drafts w1 Hok1) as S2. unfold wp in S2. rewrite H2 in S2.
  destruct S2 as (_ & _ & _ & Hother & P2). specialize (P1 Hnd). specialize (P2 Hnd).
  case_decide as Hk; [|by apply Hother]. apply list_elem_of_fmap in Hk as (d & -> & Hd).
  apply list_elem_of_lookup_1 in Hd as [i Hd].
  destruct (Forall2_lookup_l _ _ _ _ _ P1 Hd) as (rec1 & _ & _ & A1 & U1).
  destruct (Forall2_lookup_l _ _ _ _ _ P2 Hd) as (rec2 & _ & _ & A2 & U2).
  cbn [snd] in *. rewrite A2, A1. cbn. f_equal. rewrite A1 in U2. cbn in U2. rewrite U2.
  unfold upserted in U1. destruct (finding_at w _) as [old|]; [rewrite U1; apply evaluated_again|].
  destruct U1 as [id ->]. apply evaluated_new.
Qed.

(** The drafts of one evaluation have distinct keys, so storing them is covered by
    the theorems above: each gets a row of its own. *)
Theorem evaluation_identities_distinct audit_id drafts :
  NoDup (map (draft_identity audit_id) (deduplicate_drafts drafts)).
Proof.
  pose proof (deduplicate_keys_NoDup drafts) as Hnd.
  assert (map (draft_identity audit_id) (deduplicate_drafts drafts) =
    map (fun k => (audit_id, k.1, k.2)) (map draft_key (deduplicate_drafts drafts))) as ->
    by by rewrite map_map.
  assert (Inj (=) (=) (fun k : string * string => (audit_id, k.1, k.2))) as Hinj
    by (intros [? ?] [? ?] [= -> ->]; done).
  exact (NoDup_fmap_2 _ _ Hnd).
Qed.

(** C15: a status change answers on every branch: an unknown finding, or one of another
    audit, is not found; the status it already has is refused; any other is stored with
    one event that records it, and the answer shows the finding with its whole trail. *)
Theorem change_status_correct audit_id id desired actor reason details w :
  store_reachable w →
  let '(r, w') := change_status audit_id id desired actor reason details w in
  match w.(findings) !! id with
  | Some f =>
      if negb (String.eqb f.(finding_audit_id) audit_id)
      then r = Raise (FindingNotFound id) ∧ w' = w
      else if decide (desired = f.(finding_status))
      then r = Raise (InvalidFindingState f.(finding_status) desired) ∧ w' = w
      else ∃ f' e, w'.(findings) = <[id := f']> w.(findings) ∧
             w'.(finding_events) = w.(finding_events) ++ [e] ∧
             f'.(finding_status) = desired ∧ identity f' = identity f ∧
             e.(from_status) = f.(finding_status) ∧ e.(to_status) = desired ∧
             e.(state_event_actor) = actor ∧ e.(state_event_reason) = reason ∧
             (∀ e', e' ∈ w.(finding_events) → e'.(state_event_id) < e.(state_event_id)) ∧
             r = Return (mkFindingRecord f' (events_about id w.(finding_events) ++ [e])) ∧
             trail OPEN (events_about id w.(finding_events) ++ [e]) desired
  | None => r = Raise (FindingNotFound id) ∧ w' = w
  end.
Proof.
  intros Hok%store_reachable_good. rewrite change_status_spec by done.
  destruct (w.(findings) !! id) as [f|] eqn:Hf; [|done].
  destruct (String.eqb_spec f.(finding_audit_id) audit_id) as [Ha|]; cbn [negb]; [|done].
  case_decide as Hne; [done|]. pose proof (rows_keyed _ Hok _ _ Hf) as <-.
  set (now := clock w.(finding_clock_reads)).
  exists (changed_row desired now f),
    (change_event w.(finding_events) audit_id f desired actor reason details now).
  split_and!; try done.
  - intros e' He'. by apply next_state_event_id_above.
  - eapply (trail_snoc _ _ _ (change_event w.(finding_events) audit_id f desired actor reason details now));
      [exact (events_trail _ Hok _ _ Hf)|done|by apply transition_allowed].
Qed.

(** a page of findings is a slice of the matching rows in order of severity, rule
    and id, none missing and none twice, and [total] counts them all. *)
Theorem list_findings_correct audit_id q w :
  store_reachable w →
  ∃ all : list FindingModel,
    StronglySorted (fun f g => finding_le f g = true) all ∧ NoDup (map finding_id all) ∧
    (∀ f, f ∈ all ↔ w.(findings) !! f.(finding_id) = Some f ∧ matches audit_id q f = true) ∧
    ∀ limit offset, 0 ≤ limit → 0 ≤ offset →
      list_findings audit_id limit offset q w =
        (Return (mkPage (map (fun f => mkFindingRecord f [])
                           (take (Z.to_nat limit) (drop (Z.to_nat offset) all)))
                   limit offset (Z.of_nat (length all))), w).
Proof.
  intros Hok%store_reachable_good.
  set (rows := finding_rows w (matches audit_id q)).
  assert (∀ f, f ∈ rows ↔ w.(findings) !! f.(finding_id) = Some f ∧ matches audit_id q f = true) as Hrows.
  { intros f. unfold rows, finding_rows. by rewrite elem_of_lfilter, elem_of_finding_rows. }
  assert (NoDup (map finding_id rows)) as Hnd.
  { unfold rows, finding_rows. pose proof (NoDup_fst_map_to_list w.(findings)) as Hk.
    assert (map finding_id (map_to_list w.(findings)).*2 = (map_to_list w.(findings)).*1) as Heq.
    { assert (∀ l : list (string * FindingModel), (∀ x, x ∈ l → x.2.(finding_id) = x.1) →
        map finding_id (l.*2) = l.*1) as Hl.
      { induction l as [|x l IH]; intros Hx; [done|]. cbn. rewrite Hx by constructor.
        rewrite <- IH; [done|]. intros y Hy. apply Hx. by constructor. }
      apply Hl. intros [id f] Hx%elem_of_map_to_list. by apply (rows_keyed _ Hok). }
    rewrite <- Heq in Hk. clear -Hk. induction ((map_to_list w.(findings)).*2) as [|f l IH]; [constructor|].
    cbn in *. apply NoDup_cons in Hk as [Hf Hk]. specialize (IH Hk).
    destruct (matches audit_id q f); [|done]. cbn. apply NoDup_cons. split; [|done].
    intros (g & Hg & [Hgl _]%elem_of_lfilter)%list_elem_of_fmap. apply Hf, list_elem_of_fmap. eauto. }
  exists (sort_by finding_le rows). split_and!.
  - apply sorted_by. unfold finding_le. apply _.
  - change (NoDup (finding_id <$> sort_by finding_le rows)). by rewrite sort_by_perm.
  - intros f. by rewrite elem_of_sort_by.
  - intros limit offset Hl Ho. unfold list_findings, reads, sql_page. fold rows.
    rewrite (proj2 (Z.ltb_ge _ _) Hl). by rewrite (Permutation_length (sort_by_perm finding_le rows)).
Qed.

(** The counts by severity, one per severity, add up to the number of findings. *)
Theorem counts_by_severity_total audit_id w :
  ∃ counts n, counts_by_severity audit_id w = (Return counts, w) ∧ count audit_id w = (Return n, w) ∧
    map fst counts = [CRITICAL; HIGH; MEDIUM; LOW; INFO] ∧ foldr Z.add 0 (map snd counts) = n.
Proof.
  eexists _, _. split; [done|]. split; [done|]. split; [done|]. unfold finding_rows. cbn [map snd foldr].
  induction ((map_to_list w.(findings)).*2) as [|f l IH]; [done|]. cbn [List.filter].
  destruct (String.eqb f.(finding_audit_id) audit_id); cbn [andb]; [|exact IH].
  destruct f.(finding_severity); cbn [bool_decide decide_rel Severity_eq_dec] in *;
    repeat case_bool_decide; try congruence; cbn [length]; lia.
Qed.
End histories.

(** ** Bounds *)

(** Truncation bounds a value at every depth (lists and dictionaries, keys,
    strings), keeps dictionaries free of repeated keys, and does nothing to a value
    within the bounds; in particular nothing to its own result. *)
Theorem truncate_bounds v :
  within_bounds (_truncate v) ∧ (within_bounds v → _truncate v = v) ∧
  _truncate (_truncate v) = _truncate v.
Proof. split_and!; [apply truncate_within|apply within_truncate|apply truncate_idempotent]. Qed.

(** the data stored with a finding encodes in at most 12288 bytes, when its keys
    encode in at most 180. *)
Theorem bound_data_bounded data :
  (∀ k, k ∈ dict_keys data → byte_len (json_str k) ≤ 180) →
  byte_len (json_dumps (_truncate (PDict data))) < 10 ^ 20 →
  byte_len (json_dumps (PDict (_bound_data data))) ≤ MAX_FINDING_DATA_BYTES.
Proof. apply bound_data_size. Qed.

(** ** A concrete history *)

Fixpoint repeat_char (c : ascii) (n : nat) : string :=
  match n with O => EmptyString | S n => String c (repeat_char c n) end.

Definition demo_draft (rule key : string) (sev : Severity) (dat : dict) : FindingDraft :=
  mkDraft rule "1" "ssh" "title" sev CONF_HIGH (Some "asset") (Some "service") "description"
    "rationale" "recommendation" dat ["o1"] ["e1"] key.

Definition demo_drafts : list FindingDraft :=
  [demo_draft "WS-SSH-WEAK-ALGORITHMS" "asset:service" HIGH [("families", PList [PStr "kex"])];
   demo_draft "WS-TLS-WEAK-CIPHER" "asset:service" MEDIUM []].

Definition demo_empty : FindingWorld := empty_store {["audit"]} {["asset"]} {["service"]}.

Definition demo_store : FindingWorld :=
  store_call (ChangeStatus "audit" "" SUPPRESSED "admin" "known" None)
    (store_call (UpsertEvaluation "audit" demo_drafts) demo_empty).

Lemma demo_store_reachable : store_reachable demo_store.
Proof.
  exists {["audit"]}, {["asset"]}, {["service"]}.
  eapply rtc_l; [by exists (UpsertEvaluation "audit" demo_drafts)|].
  eapply rtc_l; [|apply rtc_refl]. by exists (ChangeStatus "audit" "" SUPPRESSED "admin" "known" None).
Qed.

Definition demo_row (id : string) (w : FindingWorld) : FindingModel :=
  default (mkFinding "" "" None None "" "" 0 "" "" INFO CONF_UNKNOWN OPEN "" "" "" [] [] [] "" 0 0 0 0)
    (w.(findings) !! id).

Lemma findings_unique_and_audited_witness :
  (demo_row "" demo_store).(finding_status) = SUPPRESSED ∧
  ∃ evs, get_finding "audit" "" true demo_store =
           (Return (mkFindingRecord (demo_row "" demo_store) evs), demo_store) ∧
         trail OPEN evs SUPPRESSED.
Proof.
  split; [vm_compute; reflexivity|].
  apply (findings_unique_and_audited demo_store (demo_row "" demo_store) demo_store_reachable).
  vm_compute. reflexivity.
Defined.

Lemma upsert_evaluation_correct_witness :
  (upsert_evaluation "audit" demo_drafts demo_store).2.(finding_events) =
    demo_store.(finding_events).
Proof.
  pose proof (upsert_evaluation_correct "audit" demo_drafts demo_store demo_store_reachable
    ltac:(by_decide)) as Hup.
  destruct (upsert_evaluation "audit" demo_drafts demo_store) as [r w']. apply Hup.
Defined.

(** The same findings, stored again. *)
Definition demo_store_again (w : FindingWorld) : FindingWorld :=
  (upsert_evaluation "audit" demo_drafts w).2.
Definition demo_records (w : FindingWorld) : list FindingRecord :=
  match (upsert_evaluation "audit" demo_drafts w).1 with Return l => l | Raise _ => [] end.

Lemma upsert_evaluation_idempotent_witness :
  finding_at (demo_store_again (demo_store_again demo_store)) ("audit", "WS-TLS-WEAK-CIPHER", "asset:service") =
    (fun f => f <| finding_last_seen := 3 |> <| finding_updated_at := 3 |>)
      <$> finding_at (demo_store_again demo_store) ("audit", "WS-TLS-WEAK-CIPHER", "asset:service").
Proof.
  assert (∀ w, match (upsert_evaluation "audit" demo_drafts w).1 with Return _ => true | _ => false end = true →
    upsert_evaluation "audit" demo_drafts w = (Return (demo_records w), demo_store_again w)) as Hsplit.
  { intros w. unfold demo_records, demo_store_again.
    by destruct (upsert_evaluation "audit" demo_drafts w) as [[l|e] w']. }
  pose proof (upsert_evaluation_idempotent "audit" demo_drafts demo_store _ _ _ _ demo_store_reachable
    ltac:(by_decide) (Hsplit demo_store ltac:(vm_compute; reflexivity))
    (Hsplit (demo_store_again demo_store) ltac:(vm_compute; reflexivity))
    ("audit", "WS-TLS-WEAK-CIPHER", "asset:service")) as H.
  rewrite decide_True in H by by_decide.
  replace (clock _) with 3 in H by (vm_compute; reflexivity). exact H.
Defined.

Lemma change_status_correct_witness :
  (change_status "audit" "" OPEN "admin" "reopened" None demo_store).1 ≠
    Raise (FindingNotFound "").
Proof.
  pose proof (change_status_correct "audit" "" OPEN "admin" "reopened" None demo_store
    demo_store_reachable) as H.
  destruct (change_status "audit" "" OPEN "admin" "reopened" None demo_store) as [r w'].
  assert (demo_store.(findings) !! "" = Some (demo_row "" demo_store)) as Hrow by (vm_compute; reflexivity).
  assert (String.eqb (demo_row "" demo_store).(finding_audit_id) "audit" = true) as Haudit
    by (vm_compute; reflexivity).
  rewrite Hrow, Haudit in H. cbn [negb] in H. rewrite decide_False in H by by_decide.
  destruct H as (f' & e & _ & _ & _ & _ & _ & _ & _ & _ & _ & -> & _). discriminate.
Defined.

Lemma list_findings_correct_witness :
  ∃ all, NoDup (map finding_id all) ∧
    (list_findings "audit" 1 0 (mkFindingFilter None None None None None None) demo_store).1 =
      Return (mkPage (map (fun f => mkFindingRecord f []) (take 1 all)) 1 0 (Z.of_nat (length all))).
Proof.
  destruct (list_findings_correct "audit" (mkFindingFilter None None None None None None) demo_store
    demo_store_reachable) as (all & _ & Hnd & _ & Hpage).
  exists all. split; [exact Hnd|]. rewrite (Hpage 1 0); [reflexivity|lia|lia].
Defined.

Lemma bound_data_bounded_witness :
  byte_len (json_dumps (PDict (_bound_data [("families", PList [PStr "kex"])]))) ≤ 12288.
Proof.
  apply (bound_data_bounded [("families", PList [PStr "kex"])]).
  - intros k ->%list_elem_of_singleton. vm_compute. discriminate.
  - vm_compute. reflexivity.
Defined.

(** ** What modelling showed

    The summary of an over-long document lists its keys whole: sixty-four long keys
    make it longer than the limit. *)
Definition long_keys : dict :=
  map (fun n => (unary n +:+ repeat_char "k" 1025, PStr (repeat_char "v" 1000))) (seq 0 12).

Lemma bound_data_can_exceed :
  MAX_FINDING_DATA_BYTES < byte_len (json_dumps (PDict (_bound_data long_keys))).
Proof. vm_compute. reflexivity. Qed.
