(* ===== verification/InventoryBase.v ===== *)
(** * Identities, vendors and device classes ([inventory/])

    The canonical forms of [inventory/normalize.py], the vendor lookup of
    [inventory/vendor.py], the device-class hints of [inventory/classify.py], the
    enumerations of [inventory/models.py] and the small functions at the end of
    [inventory/service.py]. *)

From S2P Require Import Prelude PyBase PyText Sha256 Ip FindModels ScopeEngine Nmap.

(** ** inventory/models.py *)

Inductive AssetState : Type := OBSERVED | RESPONSIVE | UNRESPONSIVE | STATE_UNKNOWN.

Inductive DeviceClassHint : Type :=
  | SERVER | WORKSTATION | NETWORK_DEVICE | PRINTER | IOT | CLASS_UNKNOWN.

#[export] Instance AssetState_eq_dec : EqDecision AssetState.
Proof. solve_decision. Defined.
#[export] Instance DeviceClassHint_eq_dec : EqDecision DeviceClassHint.
Proof. solve_decision. Defined.
#[export] Instance DeviceClassHint_countable : Countable DeviceClassHint.
Proof.
  refine (inj_countable'
    (fun h => match h with SERVER => 0 | WORKSTATION => 1 | NETWORK_DEVICE => 2 | PRINTER => 3 | IOT => 4
                         | CLASS_UNKNOWN => 5 end)
    (fun n => match n with 0 => SERVER | 1 => WORKSTATION | 2 => NETWORK_DEVICE | 3 => PRINTER | 4 => IOT
                         | _ => CLASS_UNKNOWN end) _).
  by intros [].
Defined.

Definition DeviceClassHint_value (h : DeviceClassHint) : string :=
  match h with
  | SERVER => "server-like" | WORKSTATION => "workstation-like" | NETWORK_DEVICE => "network-device-like"
  | PRINTER => "printer-like" | IOT => "iot-like" | CLASS_UNKNOWN => "unknown"
  end.

Definition ConfidenceLevel_value (c : ConfidenceLevel) : string :=
  match c with
  | CONF_CONFIRMED => "confirmed" | CONF_HIGH => "high" | CONF_MEDIUM => "medium" | CONF_LOW => "low"
  | CONF_HINT => "hint" | CONF_UNKNOWN => "unknown"
  end.

(** ** inventory/normalize.py *)

Definition is_hex_char (c : ascii) : bool := bool_decide (is_Some (hex_nibble c)).

(** [re.sub(r"[^0-9A-Fa-f]", "", value)] *)
Fixpoint hex_chars (s : string) : string :=
  match s with
  | EmptyString => EmptyString
  | String c s' => if is_hex_char c then String c (hex_chars s') else hex_chars s'
  end.

(** [":".join(s[i:i + 2].upper() for i in range(0, 2 * n, 2))] *)
Fixpoint hex_pairs (n : nat) (s : string) : list string :=
  match n, s with
  | S n', String a (String b s') => upper (String a (String b EmptyString)) :: hex_pairs n' s'
  | _, _ => []
  end.

Definition canonical_mac (value : option string) : option string :=
  match value with
  | None | Some EmptyString => None
  | Some s => let h := hex_chars s in
              if (String.length h =? 12)%nat then Some (join ":" (hex_pairs 6 h)) else None
  end.

(** The same on a JSON value: [re.sub] refuses what is not text. *)
Definition canonical_mac_of (value : pyval) : outcome PyExc (option string) :=
  if negb (truthy value) then mret None
  else match value with
       | PStr s => mret (canonical_mac (Some s))
       | _ => Raise (PyTypeError "expected string or bytes-like object")
       end.

(** [None] is the ValueError of [ip_address]. *)
Definition canonical_ip (value : string) : option (string * Z) :=
  match ip_address (strip value) with
  | Return a => Some (ip_str a, a.(version))
  | Raise _ => None
  end.

Definition canonical_ip_of (value : pyval) : outcome PyExc (option (string * Z)) :=
  match value with
  | PStr s => mret (canonical_ip s)
  | _ => Raise (PyAttributeError "object has no attribute 'strip'")
  end.

(** [s.replace(x, "\" + x)] for each of the three characters, the backslash first. *)
Definition escape_char (x : ascii) (s : string) : string :=
  str_flat_map (fun c => if Ascii.eqb c x then String backslash (String c EmptyString) else String c EmptyString) s.

Definition underscore : ascii := chr 95.

Definition escape_like (value : string) : string :=
  escape_char underscore (escape_char percent (escape_char backslash value)).

(** ** inventory/vendor.py *)

Record VendorResolution : Type := mkVendor {
  vendor_name : option string;
  vendor_name_source : option string;
  vendor_version : option string
}.

(** [OuiResolver]: the table, source and version [_load_oui_table] read from the file. *)
Record OuiResolver : Type := mkResolver {
  oui_table : list (string * string);
  oui_source : string;
  oui_version : option string
}.

Definition _oui_prefix (mac : option string) : option string :=
  match mac with
  | None | Some EmptyString => None
  | Some s => let h := hex_chars s in
              if (String.length h <? 6)%nat then None else Some (join ":" (hex_pairs 3 h))
  end.

Definition lookup_vendor (r : OuiResolver) (mac : option string) : VendorResolution :=
  match _oui_prefix mac with
  | None => mkVendor None None None
  | Some prefix => mkVendor (dict_get r.(oui_table) prefix) (Some r.(oui_source)) r.(oui_version)
  end.

(** ** inventory/classify.py *)

Definition PRINTER_PORTS : gset Z := list_to_set [515; 631; 9100].
Definition PRINTER_VENDORS : list string :=
  ["hewlett packard"; "hp inc"; "xerox"; "brother"; "canon"; "epson"; "lexmark"; "kyocera"; "ricoh"].
Definition NETWORK_VENDORS : list string :=
  ["cisco"; "juniper"; "mikrotik"; "aruba"; "ubiquiti"; "fortinet"; "palo alto"; "netgear"; "tp-link";
   "huawei"; "zyxel"; "extreme networks"; "arista"].
Definition IOT_VENDORS : list string :=
  ["espressif"; "tuya"; "sonoff"; "shelly"; "hikvision"; "dahua"; "axis communications"; "ring"; "nest"].
Definition WINDOWS_PORTS : gset Z := list_to_set [135; 139; 445; 3389; 5355; 5357].
Definition SERVER_PORTS : gset Z := list_to_set [22; 25; 80; 443; 3306; 5432; 6379; 8080; 8443].
Definition NETWORK_HINT_PORTS : gset Z := list_to_set [22; 23; 80; 161; 443; 8291].

Definition _confidence (sources : list string) (strong : bool) : ConfidenceLevel :=
  let unique := size (list_to_set sources : gset string) in
  if strong && (2 <=? unique)%nat then CONF_HIGH
  else if (2 <=? unique)%nat then CONF_MEDIUM
  else if (unique =? 1)%nat then if strong then CONF_MEDIUM else CONF_LOW
  else CONF_UNKNOWN.

(** [any(token in text for token in tokens)] *)
Definition mentions (tokens : list string) (text : string) : bool :=
  existsb (fun token => contains token text) tokens.

Definition ports_of (protocol : string) (open_ports : gset (string * Z)) : gset Z :=
  set_map snd (filter (fun p => p.1 = protocol) open_ports).

(** [if condition: sources.append(name)], over a list of such *)
Definition signals (l : list (bool * string)) : list string :=
  flat_map (fun p => if p.1 : bool then [p.2] else []) l.

Definition meets (a b : gset Z) : bool := negb (bool_decide (a ∩ b = ∅)).

Definition classify_device (os_family os_name vendor : option string) (open_ports : gset (string * Z))
    (name_sources : gset string) (passive_neighbors : bool)
    : DeviceClassHint * ConfidenceLevel * list string :=
  let vendor_l := lower (default "" vendor) in
  let os_blob := join " " (List.map lower
    (flat_map (fun o => match o with Some (String c s) => [String c s] | _ => [] end) [os_family; os_name])) in
  let tcp_ports := ports_of "tcp" open_ports in
  let udp_ports := ports_of "udp" open_ports in
  let printer_vendor := mentions PRINTER_VENDORS vendor_l in
  let printer_port := meets tcp_ports PRINTER_PORTS in
  let printer_os := contains "printer" os_blob in
  if printer_vendor || printer_port || printer_os then
    let sources := signals [(printer_vendor, "mac-vendor"); (printer_port, "printer-port");
                            (printer_os, "os-hint")] in
    (PRINTER, _confidence sources true, sources)
  else
    let network_vendor := mentions NETWORK_VENDORS vendor_l in
    let network_os := mentions ["router"; "switch"; "ios"; "routeros"; "junos"] os_blob in
    let network_ports := bool_decide (161 ∈ udp_ports) && meets tcp_ports NETWORK_HINT_PORTS in
    if passive_neighbors || network_vendor || network_os || network_ports then
      let sources := signals [(passive_neighbors, "lldp-or-cdp"); (network_vendor, "mac-vendor");
                              (network_os, "os-hint"); (network_ports, "network-management-ports")] in
      (NETWORK_DEVICE, _confidence sources true, sources)
    else
      let windows_os := contains "windows" os_blob in
      let windows_ports := (2 <=? size (tcp_ports ∩ WINDOWS_PORTS))%nat in
      let windows_names := bool_decide ("llmnr" ∈ name_sources ∨ "nbns" ∈ name_sources) in
      if windows_os || windows_ports then
        let sources := signals [(windows_os, "os-hint"); (windows_ports, "windows-ports");
                                (windows_names, "llmnr-or-nbns")] in
        (WORKSTATION, _confidence sources windows_os, sources)
      else
        let server_port_count := size (tcp_ports ∩ SERVER_PORTS) in
        let linux_os := contains "linux" os_blob || contains "unix" os_blob in
        if (2 <=? server_port_count)%nat || linux_os then
          let sources := signals [(linux_os, "os-hint"); ((2 <=? server_port_count)%nat, "server-ports")] in
          (SERVER, _confidence sources (3 <=? server_port_count)%nat, sources)
        else
          let iot_vendor := mentions IOT_VENDORS vendor_l in
          let mdns_limited := bool_decide ("mdns" ∈ name_sources) && (size tcp_ports <=? 3)%nat &&
            negb (meets tcp_ports (SERVER_PORTS ∖ {[80; 443]})) in
          if iot_vendor || mdns_limited then
            let sources := signals [(iot_vendor, "mac-vendor"); (mdns_limited, "mdns-limited-ports")] in
            (IOT, _confidence sources (iot_vendor && mdns_limited), sources)
          else (CLASS_UNKNOWN, CONF_UNKNOWN, []).

(** ** The functions of inventory/service.py that read no row *)

Definition SOURCE_CONFIDENCE (source : string) : ConfidenceLevel :=
  if str_in source ["arp"; "dhcp"; "nmap"] then CONF_HIGH else CONF_MEDIUM.

Definition scope_snapshot_hash (profile : ActiveProfile) (interface : string) (targets : list string) : string :=
  hex (sha256 (encode (
    "{" +:+ json_ascii_str "interface" +:+ ":" +:+ json_ascii_str interface +:+ "," +:+
    json_ascii_str "profile" +:+ ":" +:+ json_ascii_str (ActiveProfile_value profile) +:+ "," +:+
    json_ascii_str "targets" +:+ ":[" +:+ join "," (List.map json_ascii_str targets) +:+ "]}"))).

Definition _host_state (status : string) : AssetState :=
  if String.eqb status "up" then RESPONSIVE
  else if String.eqb status "down" then UNRESPONSIVE
  else STATE_UNKNOWN.

Definition _os_confidence (accuracy : Z) : ConfidenceLevel :=
  if 95 <=? accuracy then CONF_HIGH
  else if 85 <=? accuracy then CONF_MEDIUM
  else if 70 <=? accuracy then CONF_LOW
  else CONF_HINT.

Definition _service_confidence (service : option NmapService) : ConfidenceLevel :=
  match service with
  | None => CONF_LOW
  | Some s =>
      match s.(svc_confidence) with
      | Some n => if 10 <=? n then CONF_HIGH
                  else if 7 <=? n then CONF_MEDIUM
                  else if 4 <=? n then CONF_LOW
                  else CONF_HINT
      | None => if bool_decide (s.(svc_method) = Some "probed") then CONF_MEDIUM else CONF_LOW
      end
  end.

Definition _confidence_rank (level : ConfidenceLevel) : Z :=
  match level with
  | CONF_UNKNOWN => 0 | CONF_HINT => 1 | CONF_LOW => 2 | CONF_MEDIUM => 3 | CONF_HIGH => 4 | CONF_CONFIRMED => 5
  end.

Definition state_rank (s : AssetState) : Z :=
  match s with STATE_UNKNOWN => 0 | UNRESPONSIVE => 1 | OBSERVED => 2 | RESPONSIVE => 3 end.

Definition _merge_state (current observed : AssetState) : AssetState :=
  if bool_decide (observed = UNRESPONSIVE) && bool_decide (current = RESPONSIVE) then observed
  else if state_rank current <=? state_rank observed then observed
  else current.
