(* ===== verification/Inventory.v ===== *)
(** * The inventory of an audit ([inventory/service.py])

    The rows of confirmed scopes, assets, addresses, names, services and observations
    ([persistence/models.py]) and the operations of [InventoryService].  A transaction
    is one atomic step and commits or rolls back as a whole; rows added to the session
    are visible to its later queries, so an added row is in its table at once.  An
    asset object is the row of its id. *)

From S2P Require Import Prelude PyBase PyText JobModels JobStore ScopeEngine Nmap FindModels InventoryBase.

(** ** Rows *)

(** [ConfirmedScopeModel] *)
Record ConfirmedScopeModel : Type := mkScopeRow {
  cs_id : string;
  cs_audit_id : string;
  cs_created_at : datetime;
  activated_at : option datetime;
  cs_profile : ActiveProfile;
  cs_interface : string;
  cs_targets : list string;
  cs_families : list Z;
  cs_address_count : Z;
  route_context : dict;
  timing_policy : string;
  cs_actor : option string;
  snapshot_hash : string
}.
#[export] Instance eta_ConfirmedScopeModel : Eta ConfirmedScopeModel := fun r =>
  mkScopeRow r.(cs_id) r.(cs_audit_id) r.(cs_created_at) r.(activated_at) r.(cs_profile)
    r.(cs_interface) r.(cs_targets) r.(cs_families) r.(cs_address_count) r.(route_context)
    r.(timing_policy) r.(cs_actor) r.(snapshot_hash).

(** [AssetModel]; its CHECK constraint makes the states closed. *)
Record AssetModel : Type := mkAsset {
  asset_id : string;
  asset_audit_id : string;
  asset_state : AssetState;
  mac : option string;
  vendor : option string;
  vendor_source : option string;
  vendor_database_version : option string;
  device_class_hint : DeviceClassHint;
  device_class_confidence : ConfidenceLevel;
  os_family : option string;
  os_name : option string;
  os_generation : option string;
  os_accuracy : option Z;
  asset_first_seen : datetime;
  asset_last_seen : datetime;
  metadata_json : dict
}.
#[export] Instance eta_AssetModel : Eta AssetModel := fun r =>
  mkAsset r.(asset_id) r.(asset_audit_id) r.(asset_state) r.(mac) r.(vendor) r.(vendor_source)
    r.(vendor_database_version) r.(device_class_hint) r.(device_class_confidence) r.(os_family)
    r.(os_name) r.(os_generation) r.(os_accuracy) r.(asset_first_seen) r.(asset_last_seen)
    r.(metadata_json).

(** [AssetAddressModel] *)
Record AssetAddressModel : Type := mkAddress {
  address_id : string;
  address_audit_id : string;
  address_asset_id : string;
  address : string;
  family : Z;
  is_primary : bool;
  address_first_seen : datetime;
  address_last_seen : datetime;
  address_source : string;
  address_confidence : ConfidenceLevel
}.
#[export] Instance eta_AssetAddressModel : Eta AssetAddressModel := fun r =>
  mkAddress r.(address_id) r.(address_audit_id) r.(address_asset_id) r.(address) r.(family)
    r.(is_primary) r.(address_first_seen) r.(address_last_seen) r.(address_source)
    r.(address_confidence).

(** [AssetNameModel] *)
Record AssetNameModel : Type := mkName {
  name_id : string;
  name_audit_id : string;
  name_asset_id : string;
  asset_name : string;
  name_type : string;
  name_source : string;
  name_confidence : ConfidenceLevel;
  name_first_seen : datetime;
  name_last_seen : datetime
}.
#[export] Instance eta_AssetNameModel : Eta AssetNameModel := fun r =>
  mkName r.(name_id) r.(name_audit_id) r.(name_asset_id) r.(asset_name) r.(name_type)
    r.(name_source) r.(name_confidence) r.(name_first_seen) r.(name_last_seen).

(** [ServiceModel] *)
Record ServiceModel : Type := mkServiceRow {
  srv_id : string;
  srv_audit_id : string;
  srv_asset_id : string;
  srv_protocol : string;
  srv_port : Z;
  srv_state : string;
  srv_reason : option string;
  srv_service_name : option string;
  srv_product : option string;
  srv_version : option string;
  srv_extra_info : option string;
  srv_tunnel : option string;
  srv_cpe : list string;
  srv_banner : option string;
  srv_method : option string;
  srv_confidence : ConfidenceLevel;
  srv_source : string;
  srv_first_seen : datetime;
  srv_last_seen : datetime
}.
#[export] Instance eta_ServiceModel : Eta ServiceModel := fun r =>
  mkServiceRow r.(srv_id) r.(srv_audit_id) r.(srv_asset_id) r.(srv_protocol) r.(srv_port)
    r.(srv_state) r.(srv_reason) r.(srv_service_name) r.(srv_product) r.(srv_version)
    r.(srv_extra_info) r.(srv_tunnel) r.(srv_cpe) r.(srv_banner) r.(srv_method)
    r.(srv_confidence) r.(srv_source) r.(srv_first_seen) r.(srv_last_seen).

(** [AssetObservationModel] *)
Record AssetObservationModel : Type := mkAssetObservation {
  aobs_id : string;
  aobs_audit_id : string;
  aobs_asset_id : option string;
  aobs_job_id : option string;
  observation_type : string;
  aobs_source : string;
  evidence_reference : option string;
  aobs_data : dict;
  aobs_created_at : datetime
}.

(** The database: the tables of the inventory, the ids of the audits and jobs its foreign
    keys name, and the artifacts it reads. *)
Record InvWorld : Type := mkInvWorld {
  audit_ids : gset string;
  job_ids : gset string;
  audit_artifacts : gmap string ArtifactModel;
  scopes : gmap string ConfirmedScopeModel;
  assets : gmap string AssetModel;
  addresses : gmap string AssetAddressModel;
  names : gmap string AssetNameModel;
  services : gmap string ServiceModel;
  observations : gmap string AssetObservationModel;
  inv_clock_reads : nat;
  inv_uuids_drawn : nat
}.
#[export] Instance eta_InvWorld : Eta InvWorld := fun w =>
  mkInvWorld w.(audit_ids) w.(job_ids) w.(audit_artifacts) w.(scopes) w.(assets) w.(addresses)
    w.(names) w.(services) w.(observations) w.(inv_clock_reads) w.(inv_uuids_drawn).

Inductive InvExc : Type :=
  | InvLookupError (message : string)
  | InvIntegrityError (constraint : string)
  | InvPyExc (e : PyExc)
  | JobExecutionError (code : string).
#[export] Instance InvExc_eq_dec : EqDecision InvExc.
Proof. solve_decision. Defined.

Abbreviation IM := (prog InvWorld InvExc).

Definition lift_inv {A} (m : outcome PyExc A) : IM A :=
  match m with Return a => mret a | Raise e => raise (InvPyExc e) end.

(** [with self.database.session() as session, session.begin()] *)
Definition inv_transaction {A} (body : IM A) : IM A := fun w =>
  match body w with
  | (Return a, w') => (Return a, w')
  | (Raise e, w') =>
      (Raise e, w <| inv_clock_reads := w'.(inv_clock_reads) |> <| inv_uuids_drawn := w'.(inv_uuids_drawn) |>)
  end.

Section rows.
Context `{Runtime}.

Definition inv_now : IM datetime := fun w =>
  (Return (clock w.(inv_clock_reads)), w <| inv_clock_reads ::= S |>).
Definition inv_uuid : IM string := fun w =>
  (Return (uuid4 w.(inv_uuids_drawn)), w <| inv_uuids_drawn ::= S |>).

(** [select(...).where(p)] without ORDER BY, and its first row. *)
Definition rows_of {R} (table : gmap string R) (p : R → bool) : list R :=
  scan (List.filter p (map_to_list table).*2).
Definition first_row {R} (table : gmap string R) (p : R → bool) : option R := head (rows_of table p).

(** The flush of added rows: primary key, UNIQUE constraints and foreign keys. *)
Definition checked {R} (table : gmap string R) (id : string) (taken : R → bool) (owned : bool) : bool :=
  bool_decide (table !! id = None) && bool_decide (first_row table taken = None) && owned.

Definition insert_scope (s : ConfirmedScopeModel) : IM unit := fun w =>
  if checked w.(scopes) s.(cs_id)
       (fun s' => String.eqb s'.(cs_audit_id) s.(cs_audit_id) &&
                  String.eqb s'.(snapshot_hash) s.(snapshot_hash))
       (bool_decide (s.(cs_audit_id) ∈ w.(audit_ids)))
  then (Return tt, w <| scopes ::= insert s.(cs_id) s |>)
  else (Raise (InvIntegrityError "confirmed_scopes"), w).

(** [AssetModel.audit_id == audit_id, AssetModel.mac == mac] *)
Definition asset_has_mac (audit_id m : string) (a : AssetModel) : bool :=
  String.eqb a.(asset_audit_id) audit_id && bool_decide (a.(mac) = Some m).

Definition insert_asset (a : AssetModel) : IM unit := fun w =>
  if checked w.(assets) a.(asset_id)
       (fun a' => match a.(mac) with Some m => asset_has_mac a.(asset_audit_id) m a' | None => false end)
       (bool_decide (a.(asset_audit_id) ∈ w.(audit_ids)))
  then (Return tt, w <| assets ::= insert a.(asset_id) a |>)
  else (Raise (InvIntegrityError "assets"), w).

Definition asset_exists (w : InvWorld) (id : string) : bool := bool_decide (is_Some (w.(assets) !! id)).

Definition address_is (audit_id addr : string) (a : AssetAddressModel) : bool :=
  String.eqb a.(address_audit_id) audit_id && String.eqb a.(address) addr.

Definition insert_address (a : AssetAddressModel) : IM unit := fun w =>
  if checked w.(addresses) a.(address_id) (address_is a.(address_audit_id) a.(address))
       (bool_decide (a.(address_audit_id) ∈ w.(audit_ids)) && asset_exists w a.(address_asset_id))
  then (Return tt, w <| addresses ::= insert a.(address_id) a |>)
  else (Raise (InvIntegrityError "asset_addresses"), w).

Definition name_is (asset_id name ty source : string) (n : AssetNameModel) : bool :=
  String.eqb n.(name_asset_id) asset_id && String.eqb n.(asset_name) name &&
  String.eqb n.(name_type) ty && String.eqb n.(name_source) source.

Definition insert_name (n : AssetNameModel) : IM unit := fun w =>
  if checked w.(names) n.(name_id)
       (name_is n.(name_asset_id) n.(asset_name) n.(name_type) n.(name_source))
       (bool_decide (n.(name_audit_id) ∈ w.(audit_ids)) && asset_exists w n.(name_asset_id))
  then (Return tt, w <| names ::= insert n.(name_id) n |>)
  else (Raise (InvIntegrityError "asset_names"), w).

Definition service_is (asset_id protocol : string) (port : Z) (s : ServiceModel) : bool :=
  String.eqb s.(srv_asset_id) asset_id && String.eqb s.(srv_protocol) protocol && (s.(srv_port) =? port).

Definition insert_service (s : ServiceModel) : IM unit := fun w =>
  if checked w.(services) s.(srv_id) (service_is s.(srv_asset_id) s.(srv_protocol) s.(srv_port))
       (bool_decide (s.(srv_audit_id) ∈ w.(audit_ids)) && asset_exists w s.(srv_asset_id))
  then (Return tt, w <| services ::= insert s.(srv_id) s |>)
  else (Raise (InvIntegrityError "services"), w).

Definition insert_observation (o : AssetObservationModel) : IM unit := fun w =>
  if checked w.(observations) o.(aobs_id) (fun _ => false)
       (bool_decide (o.(aobs_audit_id) ∈ w.(audit_ids)) &&
        match o.(aobs_asset_id) with Some a => asset_exists w a | None => true end &&
        match o.(aobs_job_id) with Some j => bool_decide (j ∈ w.(job_ids)) | None => true end)
  then (Return tt, w <| observations ::= insert o.(aobs_id) o |>)
  else (Raise (InvIntegrityError "asset_observations"), w).

(** [asset.mac = m]: the UPDATE is checked too. *)
Definition set_asset_mac (id audit_id m : string) : IM unit := fun w =>
  if bool_decide (first_row w.(assets) (fun a => asset_has_mac audit_id m a && negb (String.eqb a.(asset_id) id)) = None)
  then (Return tt, w <| assets ::= alter (fun a => a <| mac := Some m |>) id |>)
  else (Raise (InvIntegrityError "uq_assets_audit_mac"), w).

(** Attributes of a loaded asset changed, and read back. *)
Definition update_asset (id : string) (f : AssetModel → AssetModel) : IM unit :=
  modify (fun w => w <| assets ::= alter f id |>).
Definition update_address (id : string) (f : AssetAddressModel → AssetAddressModel) : IM unit :=
  modify (fun w => w <| addresses ::= alter f id |>).

(** The object of an asset: its row, which exists while the object does. *)
Definition asset_object (id : string) : IM AssetModel := fun w =>
  match w.(assets) !! id with
  | Some a => (Return a, w)
  | None => (Raise (InvLookupError id), w)
  end.

Definition _observe (audit_id : string) (asset_id job_id : option string) (type source : string)
    (evidence : option string) (data : dict) : IM unit :=
  id ← inv_uuid;
  created ← inv_now;
  insert_observation (mkAssetObservation id audit_id asset_id job_id type source evidence data created).

(** ** Confirmed scopes *)

Definition confirm_scope (audit_id : string) (scope : ValidatedScope) (interface : string)
    (route_context : dict) (actor : option string) (timing_policy : string) : IM ConfirmedScopeModel :=
  let hash := scope_snapshot_hash scope.(scope_profile) interface scope.(canonical_targets) in
  inv_transaction
    (existing ← reads (fun w => first_row w.(scopes)
                   (fun s => String.eqb s.(cs_audit_id) audit_id && String.eqb s.(snapshot_hash) hash));
     match existing with
     | Some s => mret s
     | None =>
         id ← inv_uuid;
         created ← inv_now;
         let model := mkScopeRow id audit_id created None scope.(scope_profile) interface
                        scope.(canonical_targets) scope.(address_families) scope.(address_count)
                        route_context timing_policy actor hash in
         _ ← insert_scope model;
         mret model
     end).

Definition get_scope (id : string) : IM (option ConfirmedScopeModel) := reads (fun w => w.(scopes) !! id).

Definition latest_scope (audit_id : string) : IM (option ConfirmedScopeModel) :=
  reads (fun w => head (sort_by (fun a b => b.(cs_created_at) <=? a.(cs_created_at))
                          (rows_of w.(scopes) (fun s => String.eqb s.(cs_audit_id) audit_id)))).

Definition activate_scope (id : string) : IM ConfirmedScopeModel :=
  inv_transaction
    (model ← get_scope id;
     match model with
     | None => raise (InvLookupError id)
     | Some s =>
         match s.(activated_at) with
         | Some _ => mret s
         | None =>
             now ← inv_now;
             let s' := s <| activated_at := Some now |> in
             _ ← modify (fun w => w <| scopes ::= insert id s' |>);
             mret s'
         end
     end).

(** ** Correlation *)

Definition _asset_by_mac (audit_id : string) (m : option string) : IM (option AssetModel) :=
  match m with
  | Some (String c s) => reads (fun w => first_row w.(assets) (asset_has_mac audit_id (String c s)))
  | _ => mret None
  end.

Definition _asset_by_address (audit_id addr : string) : IM (option AssetModel) :=
  reads (fun w => row ← first_row w.(addresses) (address_is audit_id addr);
                  w.(assets) !! row.(address_asset_id)).

(** [address_assets[address] = found], for the addresses that are known. *)
Fixpoint known_addresses (audit_id : string) (found : list (string * AssetModel)) (l : list (string * Z))
    : IM (list (string * AssetModel)) :=
  match l with
  | [] => mret found
  | (addr, _) :: l' =>
      a ← _asset_by_address audit_id addr;
      known_addresses audit_id (match a with Some a => dict_set found addr a | None => found end) l'
  end.

(** [{asset.id: asset for asset in found.values()}] *)
Definition unique_assets (found : list (string * AssetModel)) : list (string * AssetModel) :=
  foldl (fun d fa => dict_set d fa.2.(asset_id) fa.2) [] found.

Definition blocked_for (id : string) (found : list (string * AssetModel)) : list string :=
  List.map fst (List.filter (fun fa => negb (String.eqb fa.2.(asset_id) id)) found).

Definition strings (l : list string) : pyval := PList (List.map PStr l).

(** The conflict is an observation's data; without one it is empty. *)
Definition _correlate (audit_id : string) (m : option string) (addrs : list (string * Z))
    : IM (option AssetModel * dict) :=
  by_mac ← _asset_by_mac audit_id m;
  found ← known_addresses audit_id [] addrs;
  let unique := unique_assets found in
  mret (match by_mac with
        | Some a =>
            (Some a,
             match blocked_for a.(asset_id) found with
             | [] => []
             | blocked => [("reason", PStr "mac_and_ip_disagree"); ("mac_asset_id", PStr a.(asset_id));
                           ("blocked_addresses", strings blocked);
                           ("ip_asset_ids", strings (List.map (fun u => u.2.(asset_id)) unique))]
             end)
        | None =>
            match unique with
            | [] => (None, [])
            | [(_, a)] => (Some a, [])
            | (_, chosen) :: _ =>
                (Some chosen,
                 [("reason", PStr "addresses_map_to_multiple_assets"); ("asset_ids", strings (dict_keys unique));
                  ("blocked_addresses", strings (blocked_for chosen.(asset_id) found))])
            end
        end).

(** [set(conflict.get("blocked_addresses", []))] *)
Definition blocked_addresses (conflict : dict) : list string :=
  match get conflict "blocked_addresses" with
  | PList l => flat_map (fun v => match v with PStr s => [s] | _ => [] end) l
  | _ => []
  end.
End rows.
