(* ===== verification/InventoryIngest.v ===== *)
(** * Ingesting observations into the inventory ([inventory/service.py])

    What one host of a scan or one passive observation does to assets, addresses,
    names and services, and the ingestion of whole documents. *)

From S2P Require Import Prelude PyBase PyText JobModels JobStore ScopeEngine Nmap FindModels InventoryBase Inventory.

Section ingest.
Context `{Runtime}.
Context (vendors : OuiResolver).

(** ** Assets *)

(** A new asset of either source; [named] is its vendor. *)
Definition new_asset (id audit_id : string) (state : AssetState) (m named : option string) (now : datetime) : AssetModel :=
  let v := lookup_vendor vendors m in
  mkAsset id audit_id state m named v.(vendor_name_source) v.(vendor_version) CLASS_UNKNOWN CONF_UNKNOWN
    None None None None now now [].

(** [if mac and asset.mac is None: ...]: the address is adopted unless it is taken. *)
Definition adopt_mac (audit_id : string) (id m : string) : IM unit :=
  other ← _asset_by_mac audit_id (Some m);
  if match other with Some o => String.eqb o.(asset_id) id | None => true end then
    _ ← set_asset_mac id audit_id m;
    a ← asset_object id;
    let v := lookup_vendor vendors (Some m) in
    if truthy_str v.(vendor_name) && negb (truthy_str a.(vendor)) then
      update_asset id (fun a => a <| vendor := v.(vendor_name) |> <| vendor_source := v.(vendor_name_source) |>
                                  <| vendor_database_version := v.(vendor_version) |>)
    else mret tt
  else mret tt.

Definition touch_asset (id : string) (now : datetime) (observed : AssetState) : IM unit :=
  update_asset id (fun a => a <| asset_last_seen := now |> <| asset_state := _merge_state a.(asset_state) observed |>).

(** ** Addresses, names and services *)

Definition _upsert_address (audit_id asset : string) (addr : string) (fam : Z) (source : string)
    (now : datetime) (primary : bool) : IM unit :=
  existing ← reads (fun w => first_row w.(addresses) (address_is audit_id addr));
  match existing with
  | None =>
      id ← inv_uuid;
      insert_address (mkAddress id audit_id asset addr fam primary now now source (SOURCE_CONFIDENCE source))
  | Some e =>
      if negb (String.eqb e.(address_asset_id) asset) then
        _ ← _observe audit_id (Some asset) None "address_owned_by_other_asset" source None
              [("address", PStr addr); ("owner_asset_id", PStr e.(address_asset_id))];
        update_address e.(address_id) (fun a => a <| address_last_seen := now |>)
      else
        update_address e.(address_id) (fun a =>
          let a' := a <| address_last_seen := now |> in
          if primary then a' <| is_primary := true |> else a')
  end.

(** The addresses that are not blocked; the first becomes the primary one unless there is one. *)
Fixpoint upsert_addresses (audit_id asset : string) (source : string) (now : datetime)
    (blocked : list string) (primary_set : bool) (l : list (string * Z)) : IM unit :=
  match l with
  | [] => mret tt
  | (addr, fam) :: l' =>
      if str_in addr blocked then upsert_addresses audit_id asset source now blocked primary_set l'
      else
        _ ← _upsert_address audit_id asset addr fam source now (negb primary_set);
        upsert_addresses audit_id asset source now blocked true l'
  end.

(** [name.strip().rstrip(".")] *)
Definition clean_name (name : string) : string := rstrip_by (Ascii.eqb (chr 46)) (strip name).

Definition _upsert_name (audit_id asset : string) (name : pyval) (ty source : string) (now : datetime) : IM unit :=
  match name with
  | PStr s =>
      let cleaned := clean_name s in
      if negb (nonempty cleaned) then mret tt
      else
        existing ← reads (fun w => first_row w.(names) (name_is asset cleaned ty source));
        match existing with
        | None =>
            id ← inv_uuid;
            insert_name (mkName id audit_id asset cleaned ty source (SOURCE_CONFIDENCE source) now now)
        | Some e => modify (fun w => w <| names ::= alter (fun n => n <| name_last_seen := now |>) e.(name_id) |>)
        end
  | _ => raise (InvPyExc (PyAttributeError "object has no attribute 'strip'"))
  end.

(** Values as they stand in the metadata. *)
Definition opt_val (o : option string) : pyval := match o with Some s => PStr s | None => PNone end.

(** [list(metadata.get("service_conflicts") or [])] with one more, the last twenty kept. *)
Definition add_conflict (metadata : dict) (conflict : dict) : outcome PyExc dict :=
  conflicts ← match por (get metadata "service_conflicts") (PList []) with
              | PList l => mret l
              | PDict d => mret (List.map (fun kv => PStr kv.1) d)
              | PStr s => mret (List.map PStr (chars s))
              | _ => Raise (PyTypeError "object is not iterable")
              end;
  let all := conflicts ++ [PDict conflict] in
  mret (dict_set metadata "service_conflicts" (PList (drop (length all - 20) all))).

(** One turn of the loop over the observed values, for the guarded fields. *)
Definition merge_field {A} `{EqDecision A} (val : A → pyval) (key : string) (proj : ServiceModel → A)
    (put : A → ServiceModel → ServiceModel) (value : A) (observed : ConfidenceLevel)
    (st : ServiceModel * dict) : outcome PyExc (ServiceModel * dict) :=
  let '(s, metadata) := st in
  let current := proj s in
  if truthy (val current) && truthy (val value) && negb (bool_decide (current = value)) then
    metadata' ← add_conflict metadata
      [("protocol", PStr s.(srv_protocol)); ("port", PInt s.(srv_port)); ("field", PStr key);
       ("existing", val current); ("observed", val value)];
    if _confidence_rank observed <=? _confidence_rank s.(srv_confidence) then mret (s, metadata')
    else mret (put value s, metadata')
  else mret (put value s, metadata).

(** The loop over [values.items()] on an existing service. *)
Definition merge_service (p : NmapPort) (source : string) (now : datetime) (s : ServiceModel) (metadata : dict)
    : outcome PyExc (ServiceModel * dict) :=
  let field {B} (f : NmapService → option B) : option B := v ← p.(np_service); f v in
  let observed := _service_confidence p.(np_service) in
  let cpe := match p.(np_service) with Some v => v.(svc_cpe) | None => [] end in
  let s := s <| srv_state := p.(np_state) |> <| srv_reason := p.(np_reason) |> in
  st ← merge_field opt_val "service_name" srv_service_name (fun v s => s <| srv_service_name := v |>)
         (field svc_name) observed (s, metadata);
  st ← merge_field opt_val "product" srv_product (fun v s => s <| srv_product := v |>) (field svc_product) observed st;
  st ← merge_field opt_val "version" srv_version (fun v s => s <| srv_version := v |>) (field svc_version) observed st;
  st ← merge_field opt_val "extra_info" srv_extra_info (fun v s => s <| srv_extra_info := v |>)
         (field svc_extra_info) observed st;
  let '(s, metadata) := (st : ServiceModel * dict) in
  let s := s <| srv_tunnel := field svc_tunnel |> in
  st ← merge_field strings "cpe" srv_cpe (fun v s => s <| srv_cpe := v |>) cpe observed (s, metadata);
  st ← merge_field opt_val "banner" srv_banner (fun v s => s <| srv_banner := v |>) (field svc_banner) observed st;
  let '(s, metadata) := (st : ServiceModel * dict) in
  mret (s <| srv_method := field svc_method |> <| srv_confidence := observed |> <| srv_source := source |>
          <| srv_last_seen := now |>, metadata).

Definition new_service (id audit_id asset : string) (p : NmapPort) (source : string) (now : datetime) : ServiceModel :=
  let field {B} (f : NmapService → option B) : option B := v ← p.(np_service); f v in
  mkServiceRow id audit_id asset p.(np_protocol) p.(np_port) p.(np_state) p.(np_reason)
    (field svc_name) (field svc_product) (field svc_version) (field svc_extra_info) (field svc_tunnel)
    (match p.(np_service) with Some v => v.(svc_cpe) | None => [] end) (field svc_banner) (field svc_method)
    (_service_confidence p.(np_service)) source now now.

Definition _upsert_service (audit_id asset : string) (p : NmapPort) (source : string) (now : datetime) : IM unit :=
  existing ← reads (fun w => first_row w.(services) (service_is asset p.(np_protocol) p.(np_port)));
  match existing with
  | None =>
      id ← inv_uuid;
      insert_service (new_service id audit_id asset p source now)
  | Some e =>
      a ← asset_object asset;
      merged ← lift_inv (merge_service p source now e a.(metadata_json));
      let '(s, metadata) := (merged : ServiceModel * dict) in
      _ ← modify (fun w => w <| services ::= insert e.(srv_id) s |>);
      update_asset asset (fun a => a <| metadata_json := metadata |>)
  end.

(** ** OS and device class *)

(** [max(matches, key=accuracy)]: the first of the most accurate. *)
Fixpoint best_match (best : NmapOsMatch) (l : list NmapOsMatch) : NmapOsMatch :=
  match l with
  | [] => best
  | m :: l' => best_match (if best.(accuracy) <? m.(accuracy) then m else best) l'
  end.

Definition opt_int (o : option Z) : pyval := match o with Some n => PInt n | None => PNone end.

(** The hint adopted. *)
Definition adopt_os (best : NmapOsMatch) (h : NmapHost) (a : AssetModel) : AssetModel :=
  let hint := [("family", opt_val best.(os_match_family)); ("name", PStr best.(os_match_name));
               ("generation", opt_val best.(generation)); ("accuracy", PInt best.(accuracy));
               ("source", PStr "nmap");
               ("confidence", PStr (ConfidenceLevel_value (_os_confidence best.(accuracy))))] in
  let metadata := dict_set a.(metadata_json) "os_hint" (PDict hint) in
  let metadata := match h.(uptime_seconds) with
                  | Some n => dict_set metadata "uptime_seconds" (PInt n) | None => metadata end in
  let metadata := match h.(network_distance) with
                  | Some n => dict_set metadata "network_distance" (PInt n) | None => metadata end in
  a <| os_family := best.(os_match_family) |> <| os_name := Some best.(os_match_name) |>
    <| os_generation := best.(generation) |> <| os_accuracy := Some best.(accuracy) |>
    <| metadata_json := metadata |>.

Definition _apply_os_hint (id : string) (h : NmapHost) (job_id evidence : option string) : IM unit :=
  match h.(os_matches) with
  | [] => mret tt
  | m :: rest =>
      let best := best_match m rest in
      a ← asset_object id;
      keep ← (if truthy_str a.(os_name) && negb (bool_decide (a.(os_name) = Some best.(os_match_name))) then
                _ ← _observe a.(asset_audit_id) (Some id) job_id "os_hint_conflict" "nmap" evidence
                      [("existing", PDict [("name", opt_val a.(os_name)); ("family", opt_val a.(os_family));
                                           ("accuracy", opt_int a.(os_accuracy))]);
                       ("observed", PDict [("name", PStr best.(os_match_name)); ("family", opt_val best.(os_match_family));
                                           ("accuracy", PInt best.(accuracy))])];
                mret (best.(accuracy) <=? default 0 a.(os_accuracy))
              else mret false);
      if (keep : bool) then mret tt else update_asset id (adopt_os best h)
  end.

Definition open_ports (rows : list ServiceModel) : gset (string * Z) :=
  list_to_set (List.map (fun s => (s.(srv_protocol), s.(srv_port)))
    (List.filter (fun s => String.eqb s.(srv_state) "open") rows)).

Definition _classify_asset (id : string) : IM unit :=
  a ← asset_object id;
  found ← reads (fun w => rows_of w.(services) (fun s => String.eqb s.(srv_asset_id) id));
  named ← reads (fun w => rows_of w.(names) (fun n => String.eqb n.(name_asset_id) id));
  let '(hint, confidence, sources) :=
    classify_device a.(os_family) a.(os_name) a.(vendor) (open_ports found)
      (list_to_set (List.map name_source named)) false in
  update_asset id (fun a =>
    a <| device_class_hint := hint |> <| device_class_confidence := confidence |>
      <| metadata_json ::= fun d => dict_set d "device_class"
           (PDict [("hint", PStr (DeviceClassHint_value hint));
                   ("confidence", PStr (ConfidenceLevel_value confidence)); ("sources", strings sources)]) |>).

Definition _refresh_classifications (audit_id : string) : IM unit :=
  rows ← reads (fun w => rows_of w.(assets) (fun a => String.eqb a.(asset_audit_id) audit_id));
  _ ← for_each (fun a => _classify_asset a.(asset_id)) rows;
  mret tt.

(** ** One host of a scan *)

(** [canonical_ip] of the addresses of the two families, the malformed ones left out. *)
Definition host_ips (h : NmapHost) : list (string * Z) :=
  flat_map (fun i => if str_in i.(nmap_family) ["ipv4"; "ipv6"]
                     then match canonical_ip i.(nmap_address) with Some a => [a] | None => [] end
                     else []) h.(host_addresses).

Definition interesting (h : NmapHost) (m : option string) : bool :=
  String.eqb h.(status) "up" || bool_decide (is_Some m) ||
  match h.(hostnames) with [] => false | _ => true end || match h.(ports) with [] => false | _ => true end.

(** [if conflict: self._observe(...)] *)
Definition observe_conflict (audit_id : string) (asset_id : string) (job_id : option string) (source : string)
    (evidence : option string) (conflict : dict) : IM unit :=
  match conflict with
  | [] => mret tt
  | _ => _observe audit_id (Some asset_id) job_id "identity_conflict" source evidence conflict
  end.

(** The asset of the host: created, or brought up to date. *)
Definition host_asset (audit_id : string) (job_id : option string) (h : NmapHost) (source : string)
    (evidence : option string) (m : option string) (now : datetime) (found : option AssetModel) : IM string :=
  let state := _host_state h.(status) in
  match found with
  | None =>
      let v := (lookup_vendor vendors m).(vendor_name) in
      id ← inv_uuid;
      _ ← insert_asset (new_asset id audit_id state m (if truthy_str v then v else mac_vendor h) now);
      mret id
  | Some a =>
      _ ← touch_asset a.(asset_id) now state;
      _ ← (match m, a.(mac) with
           | Some observed, None => adopt_mac audit_id a.(asset_id) observed
           | Some observed, Some existing =>
               if nonempty existing && negb (String.eqb existing observed) then
                 _observe audit_id (Some a.(asset_id)) job_id "mac_conflict" source evidence
                   [("existing", PStr existing); ("observed", PStr observed)]
               else mret tt
           | None, _ => mret tt
           end);
      mret a.(asset_id)
  end.

Definition _upsert_nmap_host (audit_id : string) (job_id : option string) (h : NmapHost) (source : string)
    (evidence : option string) (persist_unresponsive_singletons : bool) : IM bool :=
  let m := canonical_mac (host_mac h) in
  let ips := host_ips h in
  if negb (interesting h m) && negb (persist_unresponsive_singletons && String.eqb h.(status) "down")
  then mret false
  else
    correlated ← _correlate audit_id m ips;
    let '(found, conflict) := (correlated : option AssetModel * dict) in
    now ← inv_now;
    id ← host_asset audit_id job_id h source evidence m now found;
    _ ← observe_conflict audit_id id job_id source evidence conflict;
    _ ← upsert_addresses audit_id id source now (blocked_addresses conflict) false ips;
    _ ← for_each (fun n => _upsert_name audit_id id (PStr n.(host_name))
                             (if nonempty n.(host_name_type) then n.(host_name_type) else "PTR") "nmap" now)
          h.(hostnames);
    _ ← _apply_os_hint id h job_id evidence;
    _ ← for_each (fun p => _upsert_service audit_id id p source now) h.(ports);
    _ ← _observe audit_id (Some id) job_id "nmap_host" source evidence
          [("status", PStr h.(status)); ("reason", opt_val h.(status_reason));
           ("addresses", strings (List.map fst ips)); ("mac", opt_val m)];
    _ ← _classify_asset id;
    mret true.

Definition count_true (l : list bool) : Z := Z.of_nat (length (List.filter id l)).

Definition ingest_nmap_document (audit_id : string) (job_id : option string) (document : NmapScanDocument)
    (source : string) (evidence : option string) (persist_unresponsive_singletons : bool) : IM Z :=
  inv_transaction
    (persisted ← for_each (fun h => _upsert_nmap_host audit_id job_id h source evidence
                                      persist_unresponsive_singletons) document.(hosts);
     mret (count_true persisted)).

(** ** One passive observation *)

Definition identity_asset (audit_id : string) (state : AssetState) (m : option string) (now : datetime)
    (found : option AssetModel) : IM string :=
  match found with
  | None =>
      id ← inv_uuid;
      _ ← insert_asset (new_asset id audit_id state m (lookup_vendor vendors m).(vendor_name) now);
      mret id
  | Some a =>
      _ ← touch_asset a.(asset_id) now state;
      _ ← (match m, a.(mac) with
           | Some observed, None => adopt_mac audit_id a.(asset_id) observed
           | _, _ => mret tt
           end);
      mret a.(asset_id)
  end.

(** Names come with their type and source. *)
Definition _upsert_identity (audit_id : string) (job_id : option string) (m : option string)
    (ips : list (string * Z)) (named : list (pyval * string * string)) (source : string)
    (evidence : option string) (state : AssetState) : IM string :=
  correlated ← _correlate audit_id m ips;
  let '(found, conflict) := (correlated : option AssetModel * dict) in
  now ← inv_now;
  id ← identity_asset audit_id state m now found;
  _ ← observe_conflict audit_id id job_id source evidence conflict;
  primary_set ← reads (fun w => match rows_of w.(addresses) (fun a => String.eqb a.(address_asset_id) id) with
                                | [] => false | _ => true end);
  _ ← upsert_addresses audit_id id source now (blocked_addresses conflict) primary_set ips;
  _ ← for_each (fun n => let '(name, ty, name_source) := (n : pyval * string * string) in
                         _upsert_name audit_id id name ty name_source now) named;
  mret id.

(** What an observation identifies. *)
Record Identity : Type := mkIdentity {
  identity_mac : option string;
  identity_ips : list (string * Z);
  identity_names : list (pyval * string * string)
}.

(** [v.get(key) or d] of a value that should be a dictionary *)
Definition attr_of (v : pyval) (key : string) : outcome PyExc pyval :=
  match v with PDict d => mret (get d key) | _ => Raise (PyAttributeError "object has no attribute 'get'") end.
Definition attr_or_empty (v : pyval) (key : string) : outcome PyExc pyval :=
  found ← attr_of v key; mret (por found (PDict [])).

(** [for x in v.get(key) or []] *)
Definition items_of (v : pyval) (key : string) : outcome PyExc (list pyval) :=
  found ← attr_of v key; py_list (por found (PList [])).

(** [try: addresses.append(canonical_ip(value)) except ValueError: pass] *)
Definition valid_ip (value : pyval) : outcome PyExc (list (string * Z)) :=
  found ← canonical_ip_of value; mret (match found with Some a => [a] | None => [] end).

(** [int(mac.split(":", 1)[0], 16) & 1] *)
Definition group_address (m : string) : bool :=
  match m with
  | String a (String b _) =>
      match hex_nibble a, hex_nibble b with
      | Some h, Some l => Z.land (16 * h + l) 1 =? 1
      | _, _ => false
      end
  | _ => false
  end.

Definition ethernet_identity (observation : pyval) : outcome PyExc (option Identity) :=
  data ← attr_or_empty observation "data";
  multicast ← attr_of data "multicast_source";
  if truthy multicast then mret None
  else
    value ← attr_of data "mac";
    m ← canonical_mac_of value;
    mret (match m with
          | Some addr => if String.eqb addr "00:00:00:00:00:00" || group_address addr then None
                         else Some (mkIdentity m [] [])
          | None => None
          end).

Definition arp_identity (observation : pyval) : outcome PyExc (option Identity) :=
  data ← attr_or_empty observation "data";
  value ← attr_of data "sender_mac";
  m ← canonical_mac_of value;
  ipv4 ← attr_of data "sender_ipv4";
  ips ← (if truthy ipv4 then valid_ip ipv4 else mret []);
  mret (match m, ips with None, [] => None | _, _ => Some (mkIdentity m ips []) end).

(** The first of the values that is an address. *)
Fixpoint first_ip (values : list pyval) : outcome PyExc (list (string * Z)) :=
  match values with
  | [] => mret []
  | v :: rest =>
      if negb (truthy v) then first_ip rest
      else found ← canonical_ip_of v;
           match found with Some a => mret [a] | None => first_ip rest end
  end.

Definition dhcp_identity (observation : pyval) : outcome PyExc (option Identity) :=
  data ← attr_or_empty observation "data";
  value ← attr_of data "client_mac";
  m ← canonical_mac_of value;
  offered ← attr_of data "offered_ip";
  requested ← attr_of data "requested_ip";
  ips ← first_ip [offered; requested];
  hostname ← attr_of data "hostname";
  let named := if truthy hostname then [(hostname, "DHCP", "dhcp")] else [] in
  mret (match m, ips, named with None, [], [] => None | _, _, _ => Some (mkIdentity m ips named) end).

Definition sensor_type (sensor : string) : string :=
  if String.eqb sensor "mdns" then "mDNS" else if String.eqb sensor "llmnr" then "LLMNR" else "NBNS".

Fixpoint valid_ips (values : list pyval) : outcome PyExc (list (string * Z)) :=
  match values with
  | [] => mret []
  | v :: rest => a ← valid_ip v; l ← valid_ips rest; mret (a ++ l)
  end.

Definition naming_identity (sensor : string) (observation : pyval) : outcome PyExc (option Identity) :=
  data ← attr_or_empty observation "data";
  values ← items_of data "addresses";
  ips ← valid_ips values;
  metadata ← attr_or_empty observation "metadata";
  source_ip ← attr_of metadata "source_ip";
  more ← (if truthy source_ip then valid_ip source_ip else mret []);
  responses ← items_of data "response_names";
  queries ← items_of data "query_names";
  plain ← items_of data "names";
  value ← attr_of metadata "source_mac";
  m ← canonical_mac_of value;
  let named := List.map (fun n => (n, sensor_type sensor, sensor)) (responses ++ queries ++ plain) in
  mret (match m, ips ++ more, named with
        | None, [], [] => None
        | _, all, _ => Some (mkIdentity m all named)
        end).

(** The loop over the observations of one sensor; [None] is [continue]. *)
Definition ingest_observations (audit_id : string) (job_id evidence : option string) (source : string)
    (identify : pyval → outcome PyExc (option Identity)) (sensor : pyval) : IM Z :=
  rows ← lift_inv (items_of sensor "observations");
  counted ← for_each (fun o =>
    found ← lift_inv (identify o);
    match found with
    | None => mret false
    | Some i => _ ← _upsert_identity audit_id job_id i.(identity_mac) i.(identity_ips) i.(identity_names)
                      source evidence OBSERVED;
                mret true
    end) rows;
  mret (count_true counted).

Definition _ingest_ethernet (audit_id : string) (job_id : option string) (sensors : dict) (evidence : option string) : IM Z :=
  ingest_observations audit_id job_id evidence "ethernet" ethernet_identity
    (por (get sensors "ethernet") (PDict [])).

Definition _ingest_arp (audit_id : string) (job_id : option string) (sensors : dict) (evidence : option string) : IM Z :=
  ingest_observations audit_id job_id evidence "arp" arp_identity (por (get sensors "arp") (PDict [])).

Definition _ingest_dhcp (audit_id : string) (job_id : option string) (sensors : dict) (evidence : option string) : IM Z :=
  ingest_observations audit_id job_id evidence "dhcp" dhcp_identity
    (por (por (get sensors "dhcpv4") (get sensors "dhcp")) (PDict [])).

Definition _ingest_naming (audit_id : string) (job_id : option string) (sensor : string) (sensors : dict)
    (evidence : option string) : IM Z :=
  ingest_observations audit_id job_id evidence sensor (naming_identity sensor)
    (por (get sensors sensor) (PDict [])).

Definition ingest_passive_sensors (audit_id : string) (job_id : option string) (sensors : dict)
    (evidence : option string) : IM Z :=
  inv_transaction
    (a ← _ingest_ethernet audit_id job_id sensors evidence;
     b ← _ingest_arp audit_id job_id sensors evidence;
     c ← _ingest_dhcp audit_id job_id sensors evidence;
     ds ← for_each (fun sensor => _ingest_naming audit_id job_id sensor sensors evidence) ["mdns"; "llmnr"; "nbns"];
     _ ← _refresh_classifications audit_id;
     mret (a + b + c + foldr Z.add 0 ds)).

Definition refresh_classifications (audit_id : string) : IM unit := inv_transaction (_refresh_classifications audit_id).

(** [document.get("result", {}).get("sensors", {})] *)
Definition passive_sensors (document : pyval) : outcome PyExc pyval :=
  let get_or_empty v key := match v with
                            | PDict d => mret (default (PDict []) (dict_get d key))
                            | _ => Raise (PyAttributeError "object has no attribute 'get'")
                            end in
  result ← get_or_empty document "result";
  get_or_empty result "sensors".

(** The newest passive result; [read_json] reads the file of an artifact, and there may
    be no evidence store. *)
Context (read_json : option (ArtifactModel → outcome InvExc pyval)).

Definition ingest_passive_from_audit (audit_id : string) (job_id : option string) : IM Z :=
  match read_json with
  | None => mret 0
  | Some read =>
      found ← reads (fun w => head (sort_by (fun a b => b.(artifact_created_at) <=? a.(artifact_created_at))
                 (rows_of w.(audit_artifacts) (fun a => String.eqb a.(artifact_audit_id) audit_id &&
                                                        String.eqb a.(artifact_type) "passive_result"))));
      match found with
      | None => mret 0
      | Some record =>
          document ← (fun w => (read record, w));
          sensors ← lift_inv (passive_sensors document);
          match sensors with
          | PDict s => ingest_passive_sensors audit_id job_id s (Some record.(artifact_id))
          | _ => raise (InvPyExc (PyAttributeError "object has no attribute 'get'"))
          end
      end
  end.

Definition ensure_passive_inventory (audit_id : string) (job_id : option string) : IM Z :=
  try_except (ingest_passive_from_audit audit_id job_id)
    (fun e => match e with JobExecutionError _ => mret 0 | _ => raise e end).
End ingest.
