(* ===== verification/InventoryQueries.v ===== *)
(** * Reading the inventory ([inventory/service.py])

    Summaries, filtered pages and single assets.  Reading takes in the newest passive
    result first.  [ILIKE] is evaluated as SQLite does: both sides lowered, [%] any
    text, [_] one character, a backslash before either taking it literally. *)

From S2P Require Import Prelude PyBase PyText JobModels JobStore Ip ScopeEngine Nmap FindModels InventoryBase Inventory InventoryIngest.

(** ** Patterns *)

(** [s] matches a pattern read up to a [%], when the rest of the pattern matches by [k]. *)
Fixpoint any_suffix (k : list string → bool) (s : list string) : bool :=
  k s || match s with [] => false | _ :: s' => any_suffix k s' end.

(** [text LIKE pattern ESCAPE '\'], on code points *)
Fixpoint like_match (pattern text : list string) : bool :=
  match pattern with
  | [] => match text with [] => true | _ => false end
  | p :: pattern' =>
      if String.eqb p (String percent EmptyString) then any_suffix (like_match pattern') text
      else if String.eqb p (String backslash EmptyString) then
        match pattern' with
        | [] => false
        | q :: pattern'' => match text with
                            | c :: text' => String.eqb q c && like_match pattern'' text'
                            | [] => false
                            end
        end
      else match text with
           | c :: text' => (String.eqb p (String underscore EmptyString) || String.eqb p c) &&
                           like_match pattern' text'
           | [] => false
           end
  end.

(** [column.ilike(f"%{escape_like(value)}%", escape="\\")]; NULL matches nothing. *)
Definition ilike (column : option string) (value : string) : bool :=
  match column with
  | None => false
  | Some text => like_match (chars (lower ("%" +:+ escape_like value +:+ "%"))) (chars (lower text))
  end.

(** ** Records *)

Record AssetRecord : Type := mkAssetRecord {
  record_asset : AssetModel;
  record_addresses : list AssetAddressModel;
  record_names : list AssetNameModel;
  record_services : list ServiceModel
}.

(** [_service_record]: the record bounds the port. *)
Definition _service_record (s : ServiceModel) : outcome PyExc ServiceModel :=
  if (0 <=? s.(srv_port)) && (s.(srv_port) <=? 65535) then Return s else Raise (ValidationError "port").

Fixpoint service_records (l : list ServiceModel) : outcome PyExc (list ServiceModel) :=
  match l with
  | [] => mret []
  | s :: l' => r ← _service_record s; rs ← service_records l'; mret (r :: rs)
  end.

Record AssetFilter : Type := mkAssetFilter {
  by_address : option string;
  by_hostname : option string;
  by_mac : option string;
  by_vendor : option string;
  by_state : option AssetState;
  by_class : option DeviceClassHint
}.

Record ServiceFilter : Type := mkServiceFilter {
  of_asset : option string;
  of_protocol : option string;
  of_port : option Z;
  of_state : option string;
  of_name : option string;
  of_product : option string
}.

(** [if value: filters.append(test(value))] *)
Definition when (value : option string) (test : string → bool) : bool :=
  match value with Some (String c s) => test (String c s) | _ => true end.

Record InventorySummary : Type := mkSummary {
  asset_count : Z;
  service_count : Z;
  tcp_services : Z;
  udp_services : Z;
  ipv4_addresses : Z;
  ipv6_addresses : Z;
  device_classes : gmap DeviceClassHint Z
}.

Section queries.
Context `{Runtime}.
Context (vendors : OuiResolver) (read_json : option (ArtifactModel → outcome InvExc pyval)).

Definition count_rows {R} (table : gmap string R) (p : R → bool) : Z := Z.of_nat (length (rows_of table p)).

(** [dict] of the groups and their sizes *)
Definition count_classes (rows : list AssetModel) : gmap DeviceClassHint Z :=
  foldr (fun a m => partial_alter (fun n => Some (default 0 n + 1)) a.(device_class_hint) m) ∅ rows.

Definition summary (audit_id : string) : IM InventorySummary :=
  _ ← ensure_passive_inventory vendors read_json audit_id None;
  reads (fun w =>
    let service p := count_rows w.(services) (fun s => String.eqb s.(srv_audit_id) audit_id && p s) in
    let addr f := count_rows w.(addresses) (fun a => String.eqb a.(address_audit_id) audit_id && (a.(family) =? f)) in
    let rows := rows_of w.(assets) (fun a => String.eqb a.(asset_audit_id) audit_id) in
    mkSummary (Z.of_nat (length rows)) (service (fun _ => true))
      (service (fun s => String.eqb s.(srv_protocol) "tcp")) (service (fun s => String.eqb s.(srv_protocol) "udp"))
      (addr 4) (addr 6) (count_classes rows)).

Definition address_le : AssetAddressModel → AssetAddressModel → bool :=
  rank_then family (fun a b => str_le a.(address) b.(address)).
Definition name_le : AssetNameModel → AssetNameModel → bool :=
  str_then name_source (fun a b => str_le a.(asset_name) b.(asset_name)).
Definition service_le : ServiceModel → ServiceModel → bool :=
  str_then srv_protocol (fun a b => a.(srv_port) <=? b.(srv_port)).

(** The rows of one asset in a table. *)
Definition addresses_of (w : InvWorld) (id : string) : list AssetAddressModel :=
  rows_of w.(addresses) (fun a => String.eqb a.(address_asset_id) id).
Definition names_of (w : InvWorld) (id : string) : list AssetNameModel :=
  rows_of w.(names) (fun n => String.eqb n.(name_asset_id) id).
Definition services_of (w : InvWorld) (id : string) : list ServiceModel :=
  rows_of w.(services) (fun s => String.eqb s.(srv_asset_id) id).

Definition _asset_record (w : InvWorld) (include_services : bool) (a : AssetModel) : outcome PyExc AssetRecord :=
  rows ← (if include_services then service_records (sort_by service_le (services_of w a.(asset_id))) else mret []);
  mret (mkAssetRecord a (sort_by address_le (addresses_of w a.(asset_id)))
          (sort_by name_le (names_of w a.(asset_id))) rows).

Fixpoint asset_records (w : InvWorld) (include_services : bool) (l : list AssetModel) : outcome PyExc (list AssetRecord) :=
  match l with
  | [] => mret []
  | a :: l' => r ← _asset_record w include_services a; rs ← asset_records w include_services l'; mret (r :: rs)
  end.

Definition asset_matches (w : InvWorld) (audit_id : string) (q : AssetFilter) (a : AssetModel) : bool :=
  String.eqb a.(asset_audit_id) audit_id &&
  match q.(by_state) with Some s => bool_decide (a.(asset_state) = s) | None => true end &&
  match q.(by_class) with Some c => bool_decide (a.(device_class_hint) = c) | None => true end &&
  when q.(by_vendor) (ilike a.(vendor)) &&
  when q.(by_mac) (fun m => ilike a.(mac) (default m (canonical_mac (Some m)))) &&
  when q.(by_address) (fun v => existsb (fun r => ilike (Some r.(address)) v) (addresses_of w a.(asset_id))) &&
  when q.(by_hostname) (fun v => existsb (fun r => ilike (Some r.(asset_name)) v) (names_of w a.(asset_id))).

(** [AssetModel.last_seen.desc(), AssetModel.id] *)
Definition asset_le : AssetModel → AssetModel → bool :=
  rank_then (fun a => - a.(asset_last_seen)) (fun a b => str_le a.(asset_id) b.(asset_id)).

Definition list_assets (audit_id : string) (limit offset : Z) (q : AssetFilter) (include_services : bool)
    : IM (Page AssetRecord) :=
  _ ← ensure_passive_inventory vendors read_json audit_id None;
  rows ← reads (fun w => rows_of w.(assets) (asset_matches w audit_id q));
  page ← reads (fun w => asset_records w include_services (sql_page limit offset (sort_by asset_le rows)));
  items ← lift_inv page;
  mret (mkPage items limit offset (Z.of_nat (length rows))).

Definition get_asset (audit_id id : string) : IM (option AssetRecord) :=
  found ← reads (fun w => first_row w.(assets) (fun a => String.eqb a.(asset_audit_id) audit_id && String.eqb a.(asset_id) id));
  match found with
  | None => mret None
  | Some a =>
      record ← reads (fun w => _asset_record w true a);
      r ← lift_inv record;
      mret (Some r)
  end.

Definition service_matches (audit_id : string) (q : ServiceFilter) (s : ServiceModel) : bool :=
  String.eqb s.(srv_audit_id) audit_id &&
  when q.(of_asset) (String.eqb s.(srv_asset_id)) &&
  when q.(of_protocol) (fun p => String.eqb s.(srv_protocol) (lower p)) &&
  match q.(of_port) with Some p => s.(srv_port) =? p | None => true end &&
  when q.(of_state) (String.eqb s.(srv_state)) &&
  when q.(of_name) (ilike s.(srv_service_name)) &&
  when q.(of_product) (ilike s.(srv_product)).

(** [ServiceModel.protocol, ServiceModel.port, ServiceModel.id] *)
Definition listed_le : ServiceModel → ServiceModel → bool :=
  str_then srv_protocol (rank_then srv_port (fun a b => str_le a.(srv_id) b.(srv_id))).

Definition list_services (audit_id : string) (limit offset : Z) (q : ServiceFilter) : IM (Page ServiceModel) :=
  _ ← ensure_passive_inventory vendors read_json audit_id None;
  rows ← reads (fun w => rows_of w.(services) (service_matches audit_id q));
  items ← lift_inv (service_records (sql_page limit offset (sort_by listed_le rows)));
  mret (mkPage items limit offset (Z.of_nat (length rows))).
End queries.
