(* ===== verification/InventoryInvariant.v ===== *)
(** * The invariant of the inventory, and how its rows may change

    Tables are treated alike: rows stand under their own drawn id, satisfy a row
    predicate and have distinct keys.  [evolves] says what a later state keeps of an
    earlier one, and [steps] that a program keeps the invariant, only evolves the
    tables and raises nothing but what it may. *)

From S2P Require Import Prelude PyBase PyText JobModels JobStore ScopeEngine Nmap FindModels InventoryBase Inventory.

(** ** One table *)

Section table.
Context `{Runtime, !RuntimeOk}.
Context {R : Type}.
Implicit Types (t : gmap string R) (r : R) (p : R → bool).

Lemma rows_of_elem t p r : r ∈ rows_of t p ↔ ∃ id, t !! id = Some r ∧ p r = true.
Proof.
  unfold rows_of. rewrite scan_perm, elem_of_lfilter, list_elem_of_fmap.
  split.
  - intros [([id r'] & -> & Hin%elem_of_map_to_list) Hp]. by exists id.
  - intros (id & Hid & Hp). split; [|done]. exists (id, r). split; [done|]. by apply elem_of_map_to_list.
Qed.

(** Rows under their own id are listed once. *)
Lemma rows_of_NoDup t (id_of : R → string) p : (∀ id r, t !! id = Some r → id_of r = id) → NoDup (id_of <$> rows_of t p).
Proof.
  intros Hid. unfold rows_of. rewrite scan_perm. pose proof (NoDup_fst_map_to_list t) as Hk.
  assert (∀ l : list (string * R), (∀ x, x ∈ l → t !! x.1 = Some x.2) → NoDup l.*1 → NoDup (id_of <$> List.filter p l.*2)) as Hl.
  { induction l as [|[id r] l IH]; intros Hx Hnd; [constructor|]. rewrite !fmap_cons in *. apply NoDup_cons in Hnd as [Hn Hnd].
    assert (NoDup (id_of <$> List.filter p l.*2)) as Hrest by (apply IH; [intros x Hin; apply Hx; by constructor|done]).
    cbn [List.filter snd]. destruct (p r); [|done]. rewrite fmap_cons. constructor; [|done].
    intros (r' & E & [Hr _]%elem_of_lfilter)%list_elem_of_fmap. apply list_elem_of_fmap in Hr as ([id' r''] & -> & Hin).
    apply Hn. apply list_elem_of_fmap. exists (id', r''). split; [|done]. cbn in *.
    rewrite <- (Hid id r), <- (Hid id' r''); [done|apply (Hx (id', r'')); by constructor|apply (Hx (id, r)); constructor]. }
  apply Hl; [|done]. by intros [id r] Hx%elem_of_map_to_list.
Qed.

Lemma first_row_Some t p r : first_row t p = Some r → ∃ id, t !! id = Some r ∧ p r = true.
Proof.
  unfold first_row. intros Hr. apply rows_of_elem. destruct (rows_of t p); [done|].
  injection Hr as <-. constructor.
Qed.

Lemma first_row_None t p : first_row t p = None ↔ ∀ id r, t !! id = Some r → p r = false.
Proof.
  unfold first_row. split.
  - intros Hn id r Hid. destruct (p r) eqn:Hp; [|done].
    assert (r ∈ rows_of t p) as Hin by (apply rows_of_elem; eauto).
    destruct (rows_of t p); [by apply elem_of_nil in Hin|done].
  - intros Hall. destruct (rows_of t p) as [|r l] eqn:Hl; [done|].
    assert (r ∈ rows_of t p) as (id & Hid & Hp)%rows_of_elem by (rewrite Hl; constructor).
    by rewrite (Hall _ _ Hid) in Hp.
Qed.

(** When at most one row satisfies the predicate, it is the one found. *)
Lemma first_row_eq t p id r :
  t !! id = Some r → p r = true → (∀ id' r', t !! id' = Some r' → p r' = true → id' = id) →
  first_row t p = Some r.
Proof.
  intros Hid Hp Huniq. destruct (first_row t p) as [r'|] eqn:Hr.
  - apply first_row_Some in Hr as (id' & Hid' & Hp'). rewrite (Huniq _ _ Hid' Hp') in Hid'. congruence.
  - by rewrite (proj1 (first_row_None _ _) Hr _ _ Hid) in Hp.
Qed.

Record table_ok (drawn : nat) t (id_of : R → string) (row_ok : R → Prop) (key : R → R → Prop) : Prop := {
  rows_ok : ∀ id r, t !! id = Some r → id_of r = id ∧ row_ok r;
  rows_drawn : ∀ id, is_Some (t !! id) → ∃ n, (n < drawn)%nat ∧ id = uuid4 n;
  rows_unique : ∀ id1 id2 r1 r2, t !! id1 = Some r1 → t !! id2 = Some r2 → key r1 r2 → id1 = id2
}.

Lemma table_empty drawn id_of row_ok key : table_ok drawn ∅ id_of row_ok key.
Proof. split; intros *; rewrite ?lookup_empty; try done. Qed.

Lemma table_fresh drawn t id_of row_ok key : table_ok drawn t id_of row_ok key → t !! uuid4 drawn = None.
Proof.
  intros Ht. apply eq_None_not_Some. intros Hin. destruct (rows_drawn _ _ _ _ _ Ht _ Hin) as (n & Hn & Heq).
  apply uuid4_inj in Heq. lia.
Qed.

Lemma table_mono drawn drawn' t id_of (row_ok row_ok' : R → Prop) key :
  table_ok drawn t id_of row_ok key → (drawn <= drawn')%nat → (∀ r, row_ok r → row_ok' r) →
  table_ok drawn' t id_of row_ok' key.
Proof.
  intros [K1 K2 K3] Hn Hrow. split; [|intros id Hid|done].
  - intros id r Hid. destruct (K1 _ _ Hid). auto.
  - destruct (K2 id Hid) as (n & ? & ?). exists n. split; [lia|done].
Qed.

Lemma table_insert drawn t id_of (row_ok : R → Prop) key r :
  table_ok drawn t id_of row_ok key → (∃ n, (n < drawn)%nat ∧ id_of r = uuid4 n) → row_ok r → Symmetric key →
  (∀ id r', t !! id = Some r' → ¬ key r r') →
  table_ok drawn (<[id_of r := r]> t) id_of row_ok key.
Proof.
  intros [K1 K2 K3] Hid Hr Hsym Hkey. split.
  - intros id r' [[<- <-]|[_ Hr']]%lookup_insert_Some; eauto.
  - intros id. rewrite lookup_insert_is_Some'. intros [<-|Hin]; [done|by apply K2].
  - intros id1 id2 r1 r2 [[<- <-]|[_ H1]]%lookup_insert_Some [[<- <-]|[_ H2]]%lookup_insert_Some Hk;
      [done|by destruct (Hkey _ _ H2)|by destruct (Hkey _ _ H1)|by eapply K3].
Qed.

(** Changing one row, its id and key kept. *)
Lemma table_update drawn t id_of (row_ok : R → Prop) key id r r' :
  table_ok drawn t id_of row_ok key → t !! id = Some r → id_of r' = id_of r → row_ok r' →
  (∀ id2 r2, id2 ≠ id → t !! id2 = Some r2 → ¬ key r' r2 ∧ ¬ key r2 r') →
  table_ok drawn (<[id := r']> t) id_of row_ok key.
Proof.
  intros [K1 K2 K3] Hid Hof Hr' Hkey. split.
  - intros id2 r2 [[<- <-]|[_ H2]]%lookup_insert_Some; [|by apply K1].
    split; [|done]. rewrite Hof. by apply K1.
  - intros id2. rewrite lookup_insert_is_Some'. intros [<-|?]; [by apply K2; eexists|by apply K2].
  - intros id1 id2 r1 r2 [[<- <-]|[N1 H1]]%lookup_insert_Some [[<- <-]|[N2 H2]]%lookup_insert_Some Hk;
      [done|by destruct (Hkey _ _ (not_eq_sym N2) H2)|by destruct (Hkey _ _ (not_eq_sym N1) H1)|by eapply K3].
Qed.

(** Rows of a later table stand for the same rows of an earlier one. *)
Definition table_evolves (Q : R → R → Prop) (t t' : gmap string R) : Prop :=
  ∀ id r, t !! id = Some r → ∃ r', t' !! id = Some r' ∧ Q r r'.

Lemma table_evolves_refl Q t : Reflexive Q → table_evolves Q t t.
Proof. intros HQ id r Hr. by exists r. Qed.

Lemma table_evolves_trans Q t1 t2 t3 :
  Transitive Q → table_evolves Q t1 t2 → table_evolves Q t2 t3 → table_evolves Q t1 t3.
Proof.
  intros HQ H12 H23 id r Hr. destruct (H12 _ _ Hr) as (r' & Hr' & ?). destruct (H23 _ _ Hr') as (r'' & ? & ?). eauto.
Qed.

Lemma table_evolves_insert Q t id r : Reflexive Q → t !! id = None → table_evolves Q t (<[id := r]> t).
Proof.
  intros HQ Hid id' r' Hr'. exists r'. split; [|done]. rewrite lookup_insert_ne; [done|congruence].
Qed.

Lemma table_evolves_update Q t id r r' :
  Reflexive Q → t !! id = Some r → Q r r' → table_evolves Q t (<[id := r']> t).
Proof.
  intros HQ Hid Hr id2 r2 H2. destruct (decide (id2 = id)) as [->|Hne].
  - exists r'. rewrite lookup_insert_eq. split; [done|]. congruence.
  - exists r2. by rewrite lookup_insert_ne.
Qed.
End table.

Lemma alter_known {R} (t : gmap string R) id r (f : R → R) :
  t !! id = Some r → alter f id t = <[id := f r]> t.
Proof.
  intros Hid. apply map_eq. intros id'. destruct (decide (id' = id)) as [->|].
  - by rewrite lookup_alter_eq, lookup_insert_eq, Hid.
  - by rewrite lookup_alter_ne, lookup_insert_ne by done.
Qed.

(** ** The database *)

(** The conflicts kept in the metadata of an asset. *)
Definition conflicts_listed (metadata : dict) : Prop :=
  get metadata "service_conflicts" = PNone ∨
  ∃ l, get metadata "service_conflicts" = PList l ∧ (length l <= 20)%nat.

Definition owner_ok w (audit_id asset : string) : Prop :=
  ∃ a, w.(assets) !! asset = Some a ∧ a.(asset_audit_id) = audit_id.

Definition scope_key (s s' : ConfirmedScopeModel) : Prop :=
  s.(cs_audit_id) = s'.(cs_audit_id) ∧ s.(snapshot_hash) = s'.(snapshot_hash).
Definition asset_key (a a' : AssetModel) : Prop :=
  a.(asset_audit_id) = a'.(asset_audit_id) ∧ a.(mac) = a'.(mac) ∧ is_Some a.(mac).
Definition address_key (a a' : AssetAddressModel) : Prop :=
  a.(address_audit_id) = a'.(address_audit_id) ∧ a.(address) = a'.(address).
Definition name_key (n n' : AssetNameModel) : Prop :=
  n.(name_asset_id) = n'.(name_asset_id) ∧ n.(asset_name) = n'.(asset_name) ∧
  n.(name_type) = n'.(name_type) ∧ n.(name_source) = n'.(name_source).
Definition service_key (s s' : ServiceModel) : Prop :=
  s.(srv_asset_id) = s'.(srv_asset_id) ∧ s.(srv_protocol) = s'.(srv_protocol) ∧ s.(srv_port) = s'.(srv_port).

Definition scope_row_ok (audits : gset string) (s : ConfirmedScopeModel) : Prop :=
  s.(cs_audit_id) ∈ audits ∧
  s.(snapshot_hash) = scope_snapshot_hash s.(cs_profile) s.(cs_interface) s.(cs_targets).
Definition asset_row_ok (audits : gset string) (a : AssetModel) : Prop :=
  a.(asset_audit_id) ∈ audits ∧ a.(mac) ≠ Some "" ∧ conflicts_listed a.(metadata_json).
Definition observation_row_ok w (o : AssetObservationModel) : Prop :=
  o.(aobs_audit_id) ∈ w.(audit_ids) ∧
  (∀ a, o.(aobs_asset_id) = Some a → is_Some (w.(assets) !! a)) ∧
  (∀ j, o.(aobs_job_id) = Some j → j ∈ w.(job_ids)).

Section inventory.
Context `{Runtime, !RuntimeOk}.
Implicit Types (w : InvWorld).

Record inv_ok w : Prop := {
  scopes_ok : table_ok w.(inv_uuids_drawn) w.(scopes) cs_id (scope_row_ok w.(audit_ids)) scope_key;
  assets_ok : table_ok w.(inv_uuids_drawn) w.(assets) asset_id (asset_row_ok w.(audit_ids)) asset_key;
  addresses_ok : table_ok w.(inv_uuids_drawn) w.(addresses) address_id
    (fun a => owner_ok w a.(address_audit_id) a.(address_asset_id)) address_key;
  names_ok : table_ok w.(inv_uuids_drawn) w.(names) name_id
    (fun n => owner_ok w n.(name_audit_id) n.(name_asset_id)) name_key;
  services_ok : table_ok w.(inv_uuids_drawn) w.(services) srv_id
    (fun s => owner_ok w s.(srv_audit_id) s.(srv_asset_id)) service_key;
  observations_ok : table_ok w.(inv_uuids_drawn) w.(observations) aobs_id (observation_row_ok w) (fun _ _ => False)
}.

(** What a later row keeps of an earlier one. *)
Definition asset_kept (a a' : AssetModel) : Prop :=
  a'.(asset_audit_id) = a.(asset_audit_id) ∧ a'.(asset_first_seen) = a.(asset_first_seen) ∧
  (is_Some a.(mac) → a'.(mac) = a.(mac)).
Definition address_kept (a a' : AssetAddressModel) : Prop :=
  ∃ t p, (a.(is_primary) = true → p = true) ∧ a' = a <| address_last_seen := t |> <| is_primary := p |>.
Definition name_kept (n n' : AssetNameModel) : Prop := ∃ t, n' = n <| name_last_seen := t |>.
Definition service_kept (s s' : ServiceModel) : Prop :=
  s'.(srv_audit_id) = s.(srv_audit_id) ∧ service_key s s' ∧ s'.(srv_first_seen) = s.(srv_first_seen).
Definition scope_kept (s s' : ConfirmedScopeModel) : Prop :=
  s' = s ∨ s.(activated_at) = None ∧ ∃ t, s' = s <| activated_at := Some t |>.

Record evolves w w' : Prop := {
  drawn_grow : (w.(inv_uuids_drawn) <= w'.(inv_uuids_drawn))%nat;
  same_audits : w'.(audit_ids) = w.(audit_ids);
  same_jobs : w'.(job_ids) = w.(job_ids);
  same_artifacts : w'.(audit_artifacts) = w.(audit_artifacts);
  scopes_evolve : table_evolves scope_kept w.(scopes) w'.(scopes);
  assets_evolve : table_evolves asset_kept w.(assets) w'.(assets);
  addresses_evolve : table_evolves address_kept w.(addresses) w'.(addresses);
  names_evolve : table_evolves name_kept w.(names) w'.(names);
  services_evolve : table_evolves service_kept w.(services) w'.(services);
  observations_evolve : table_evolves eq w.(observations) w'.(observations)
}.

#[export] Instance asset_kept_preorder : PreOrder asset_kept.
Proof.
  split; [done|]. intros a b c (H1 & H2 & H3) (H4 & H5 & H6). unfold asset_kept.
  split_and!; [congruence..|]. intros Ha. rewrite H6, H3; [done..|]. by rewrite H3.
Qed.
#[export] Instance address_kept_preorder : PreOrder address_kept.
Proof.
  split.
  - intros a. exists a.(address_last_seen), a.(is_primary). split; [done|]. by destruct a.
  - intros a b c (t1 & p1 & H1 & ->) (t2 & p2 & H2 & ->). exists t2, p2. split; [|by destruct a].
    intros Ha. apply H2. cbn. auto.
Qed.
#[export] Instance name_kept_preorder : PreOrder name_kept.
Proof.
  split; [intros n; exists n.(name_last_seen); by destruct n|].
  intros a b c (t1 & ->) (t2 & ->). exists t2. by destruct a.
Qed.
#[export] Instance service_kept_preorder : PreOrder service_kept.
Proof.
  split; [done|]. intros a b c (H1 & (H2 & H3 & H4) & H5) (H6 & (H7 & H8 & H9) & H10).
  unfold service_kept, service_key. split_and!; congruence.
Qed.
#[export] Instance scope_kept_preorder : PreOrder scope_kept.
Proof.
  split; [by left|]. intros a b c [->|[H1 [t ->]]] [->|[H2 [t' ->]]].
  - by left.
  - right. split; [done|]. by exists t'.
  - right. split; [done|]. by exists t.
  - done.
Qed.

#[export] Instance evolves_preorder : PreOrder evolves.
Proof.
  split.
  - intros w. split; try done; apply table_evolves_refl; apply _.
  - intros a b c [] []. split; [lia|congruence..| | | | | |]; eapply table_evolves_trans; eauto; apply _.
Qed.

(** ** Programs that step *)

(** What a program may raise. *)
Definition only_python (e : InvExc) : Prop := match e with InvPyExc _ => True | _ => False end.
Definition nothing (e : InvExc) : Prop := False.

Definition steps {A} (E : InvExc → Prop) (P : A → InvWorld → Prop) (m : IM A) w : Prop :=
  wp m (fun r w' => inv_ok w' ∧ evolves w w' ∧ match r with Return a => P a w' | Raise e => E e end) w.

Lemma steps_bind {A B} E (m : IM A) (k : A → IM B) (P : B → InvWorld → Prop) w :
  steps E (fun a w' => steps E P (k a) w') m w → steps E P (m ≫= k) w.
Proof.
  unfold steps. intros Hm. apply wp_bind. eapply wp_mono; [exact Hm|].
  intros [a|e] w' (Hok & Hev & Ha); [|done].
  eapply wp_mono; [exact Ha|]. intros r w'' (Hok' & Hev' & Hr). split_and!; [done|by etrans|done].
Qed.

Lemma steps_mono {A} (E E' : InvExc → Prop) (P P' : A → InvWorld → Prop) (m : IM A) w :
  steps E P m w → (∀ e, E e → E' e) → (∀ a w', inv_ok w' → evolves w w' → P a w' → P' a w') → steps E' P' m w.
Proof.
  unfold steps. intros Hm HE HP. eapply wp_mono; [exact Hm|]. intros [a|e] w' (Hok & Hev & Ha); eauto.
Qed.

Lemma steps_ret {A} E (P : A → InvWorld → Prop) (a : A) w : inv_ok w → P a w → steps E P (mret a) w.
Proof. intros Hok HP. apply wp_ret. by split_and!. Qed.

Lemma steps_raise {A} (E : InvExc → Prop) (P : A → InvWorld → Prop) e w : inv_ok w → E e → steps E P (raise e) w.
Proof. intros Hok HE. apply wp_raise. by split_and!. Qed.

Lemma steps_reads {A} E (P : A → InvWorld → Prop) (f : InvWorld → A) w : inv_ok w → P (f w) w → steps E P (reads f) w.
Proof. intros Hok HP. apply wp_reads. by split_and!. Qed.

Lemma steps_seq {A B} E (Q : A → InvWorld → Prop) (m : IM A) (k : A → IM B) (P : B → InvWorld → Prop) w :
  steps E Q m w → (∀ a w', inv_ok w' → evolves w w' → Q a w' → steps E P (k a) w') → steps E P (m ≫= k) w.
Proof. intros Hm Hk. apply steps_bind. eapply steps_mono; [exact Hm|done|exact Hk]. Qed.

(** A loop whose body needs only facts that last. *)
Lemma steps_for_each {A B} E (body : A → IM B) (lasting : InvWorld → Prop) (done_for : A → InvWorld → Prop) l w :
  (∀ w1 w2, inv_ok w2 → evolves w1 w2 → lasting w1 → lasting w2) →
  (∀ x w1 w2, inv_ok w2 → evolves w1 w2 → done_for x w1 → done_for x w2) →
  inv_ok w → lasting w →
  (∀ x w1, x ∈ l → inv_ok w1 → lasting w1 → steps E (fun _ w2 => done_for x w2) (body x) w1) →
  steps E (fun _ w' => ∀ x, x ∈ l → done_for x w') (for_each body l) w.
Proof.
  intros Hl Hd. revert w. induction l as [|x l IH]; intros w Hok Hw Hbody; cbn [for_each].
  { apply steps_ret; [done|]. by intros x ?%elem_of_nil. }
  apply steps_bind. eapply steps_mono; [apply Hbody; [constructor|done..]|done|].
  intros b w1 Hok1 Hev1 Hx. apply steps_bind. eapply steps_mono; [apply IH|done|].
  - done.
  - by eapply Hl.
  - intros y w2 Hy. apply Hbody. by constructor.
  - intros bs w2 Hok2 Hev2 Hall. apply steps_ret; [done|].
    intros y [->|Hy]%elem_of_cons; [by eapply Hd|by apply Hall].
Qed.

Lemma steps_conj {A} E (P P' : A → InvWorld → Prop) (m : IM A) w :
  steps E P m w → steps E P' m w → steps E (fun a w' => P a w' ∧ P' a w') m w.
Proof. unfold steps, wp. destruct (m w) as [[a|e] w']; intros (? & ? & ?) (? & ? & ?); by split_and!. Qed.

(** A loop whose body relates its states by a preorder. *)
Lemma steps_for_each_rel {A B} E (Q : InvWorld → InvWorld → Prop) `{!PreOrder Q} (body : A → IM B)
    (lasting : InvWorld → Prop) l w :
  (∀ w1 w2, evolves w1 w2 → lasting w1 → lasting w2) → inv_ok w → lasting w →
  (∀ x w1, x ∈ l → inv_ok w1 → evolves w w1 → lasting w1 → steps E (fun _ => Q w1) (body x) w1) →
  steps E (fun _ => Q w) (for_each body l) w.
Proof.
  intros Hl. revert w. induction l as [|x l IH]; intros w Hok Hw Hbody; cbn [for_each].
  { apply steps_ret; [done|reflexivity]. }
  eapply steps_seq; [apply Hbody; [constructor|done|reflexivity|done]|]. intros b w1 Hok1 Hev1 H1.
  eapply steps_seq; [apply IH|].
  - done.
  - by eapply Hl.
  - intros y w2 Hy Hok2 Hev2. apply Hbody; [by constructor|done|by etrans].
  - intros bs w2 Hok2 Hev2 H2. apply steps_ret; [done|]. etrans; [exact H1|exact H2].
Qed.
End inventory.

(** ** What each statement on the inventory's rows does

    The rules for drawing ids, reading the clock, adding rows and changing them. *)

Section steps.
Context `{Runtime, !RuntimeOk}.
Implicit Types (w : InvWorld).

Definition same_rows w w' : Prop :=
  w'.(audit_ids) = w.(audit_ids) ∧ w'.(job_ids) = w.(job_ids) ∧ w'.(audit_artifacts) = w.(audit_artifacts) ∧
  w'.(scopes) = w.(scopes) ∧ w'.(assets) = w.(assets) ∧ w'.(addresses) = w.(addresses) ∧
  w'.(names) = w.(names) ∧ w'.(services) = w.(services) ∧ w'.(observations) = w.(observations).

Lemma owner_ok_assets w w' a id :
  table_evolves asset_kept w.(assets) w'.(assets) → owner_ok w a id → owner_ok w' a id.
Proof. intros Hev (r & Hr & Ha). destruct (Hev _ _ Hr) as (r' & Hr' & Haud & _). exists r'. split; [done|congruence]. Qed.

Lemma owner_ok_mono w w' a id : evolves w w' → owner_ok w a id → owner_ok w' a id.
Proof. intros Hev. apply owner_ok_assets, Hev. Qed.

(** The tables one at a time; [d] ids drawn. *)
Lemma inv_ok_drawn w d : inv_ok w → (w.(inv_uuids_drawn) <= d)%nat → inv_ok (w <| inv_uuids_drawn := d |>).
Proof. intros [] Hd. split; cbn; (eapply table_mono; [eassumption|done|by intros]). Qed.

Lemma inv_ok_clock w n : inv_ok w → inv_ok (w <| inv_clock_reads := n |>).
Proof. by intros []. Qed.

Lemma inv_ok_assets w t :
  inv_ok w → table_ok w.(inv_uuids_drawn) t asset_id (asset_row_ok w.(audit_ids)) asset_key →
  table_evolves asset_kept w.(assets) t → inv_ok (w <| assets := t |>).
Proof.
  intros [] Ht Hev. split; cbn; try done; (eapply table_mono; [eassumption|done|]); intros r.
  1-3: by apply owner_ok_assets.
  intros (Ha & Hb & Hc). split_and!; [done| |done]. intros a Hra. cbn.
  destruct (Hb _ Hra) as [x Hx]. destruct (Hev _ _ Hx) as (y & Hy & _). by exists y.
Qed.

Lemma inv_ok_addresses w t :
  inv_ok w → table_ok w.(inv_uuids_drawn) t address_id
    (fun a => owner_ok w a.(address_audit_id) a.(address_asset_id)) address_key →
  inv_ok (w <| addresses := t |>).
Proof. by intros [] Ht. Qed.

Lemma inv_ok_names w t :
  inv_ok w → table_ok w.(inv_uuids_drawn) t name_id
    (fun n => owner_ok w n.(name_audit_id) n.(name_asset_id)) name_key →
  inv_ok (w <| names := t |>).
Proof. by intros [] Ht. Qed.

Lemma inv_ok_services w t :
  inv_ok w → table_ok w.(inv_uuids_drawn) t srv_id
    (fun s => owner_ok w s.(srv_audit_id) s.(srv_asset_id)) service_key →
  inv_ok (w <| services := t |>).
Proof. by intros [] Ht. Qed.

Lemma inv_ok_observations w t :
  inv_ok w → table_ok w.(inv_uuids_drawn) t aobs_id (observation_row_ok w) (fun _ _ => False) →
  inv_ok (w <| observations := t |>).
Proof. by intros [] Ht. Qed.

Lemma inv_ok_scopes w t :
  inv_ok w → table_ok w.(inv_uuids_drawn) t cs_id (scope_row_ok w.(audit_ids)) scope_key →
  inv_ok (w <| scopes := t |>).
Proof. by intros [] Ht. Qed.

(** One table differs. *)
Lemma evolves_same w w' : same_rows w w' → (w.(inv_uuids_drawn) <= w'.(inv_uuids_drawn))%nat → evolves w w'.
Proof.
  intros (E1 & E2 & E3 & E4 & E5 & E6 & E7 & E8 & E9).
  split; rewrite ?E4, ?E5, ?E6, ?E7, ?E8, ?E9; try done; apply table_evolves_refl; apply _.
Qed.

Ltac one_table := intros; split; cbn; try done; try (apply table_evolves_refl; apply _).

Lemma evolves_assets w t : table_evolves asset_kept w.(assets) t → evolves w (w <| assets := t |>).
Proof. one_table. Qed.
Lemma evolves_addresses w t : table_evolves address_kept w.(addresses) t → evolves w (w <| addresses := t |>).
Proof. one_table. Qed.
Lemma evolves_names w t : table_evolves name_kept w.(names) t → evolves w (w <| names := t |>).
Proof. one_table. Qed.
Lemma evolves_services w t : table_evolves service_kept w.(services) t → evolves w (w <| services := t |>).
Proof. one_table. Qed.
Lemma evolves_observations w t : table_evolves eq w.(observations) t → evolves w (w <| observations := t |>).
Proof. one_table. Qed.
Lemma evolves_scopes w t : table_evolves scope_kept w.(scopes) t → evolves w (w <| scopes := t |>).
Proof. one_table. Qed.

(** *** Ids and times *)

Record fresh w (id : string) : Prop := {
  fresh_drawn : ∃ n, (n < w.(inv_uuids_drawn))%nat ∧ id = uuid4 n;
  fresh_scope : w.(scopes) !! id = None;
  fresh_asset : w.(assets) !! id = None;
  fresh_address : w.(addresses) !! id = None;
  fresh_name : w.(names) !! id = None;
  fresh_service : w.(services) !! id = None;
  fresh_observation : w.(observations) !! id = None
}.

Lemma steps_uuid {A} E (P : A → InvWorld → Prop) (k : string → IM A) w :
  inv_ok w →
  (∀ w', inv_ok w' → same_rows w w' → w'.(inv_clock_reads) = w.(inv_clock_reads) →
     fresh w' (uuid4 w.(inv_uuids_drawn)) → steps E P (k (uuid4 w.(inv_uuids_drawn))) w') →
  steps E P (inv_uuid ≫= k) w.
Proof.
  intros Hok Hk. set (w1 := w <| inv_uuids_drawn ::= S |>).
  assert (inv_ok w1) as Hok1 by (apply inv_ok_drawn; [done|lia]).
  assert (steps E P (k (uuid4 w.(inv_uuids_drawn))) w1) as Hs.
  { apply Hk; [done|done|done|]. destruct Hok as [O1 O2 O3 O4 O5 O6].
    split; [exists w.(inv_uuids_drawn); split; [cbn; lia|done]|..];
      cbn; eapply table_fresh; eassumption. }
  unfold steps, wp in *. cbn. destruct Hs as (H1 & H2 & H3). split_and!; [done| |done].
  etrans; [|exact H2]. apply evolves_same; [done|]. cbn. lia.
Qed.

Lemma steps_now {A} E (P : A → InvWorld → Prop) (k : datetime → IM A) w :
  inv_ok w →
  (∀ w', inv_ok w' → same_rows w w' → w'.(inv_uuids_drawn) = w.(inv_uuids_drawn) →
     steps E P (k (clock w.(inv_clock_reads))) w') →
  steps E P (inv_now ≫= k) w.
Proof.
  intros Hok Hk. set (w1 := w <| inv_clock_reads ::= S |>).
  assert (steps E P (k (clock w.(inv_clock_reads))) w1) as Hs by (apply Hk; [by apply inv_ok_clock|done|done]).
  unfold steps, wp in *. cbn. destruct Hs as (H1 & H2 & H3). split_and!; [done| |done].
  etrans; [|exact H2]. apply evolves_same; [done|]. cbn. lia.
Qed.

Lemma fresh_same w w' id : fresh w id → same_rows w w' → w'.(inv_uuids_drawn) = w.(inv_uuids_drawn) → fresh w' id.
Proof.
  intros [] (E1 & E2 & E3 & E4 & E5 & E6 & E7 & E8 & E9) En. by split; rewrite ?En, ?E4, ?E5, ?E6, ?E7, ?E8, ?E9.
Qed.

(** *** Adding rows *)

Lemma checked_ok {R} (t : gmap string R) id taken owned :
  t !! id = None → (∀ id' r, t !! id' = Some r → taken r = false) → owned = true →
  checked t id taken owned = true.
Proof.
  intros Hid Htaken ->. unfold checked. rewrite bool_decide_eq_true_2 by done.
  rewrite bool_decide_eq_true_2; [done|]. by apply first_row_None.
Qed.

Lemma asset_has_mac_spec audit m a :
  asset_has_mac audit m a = true ↔ a.(asset_audit_id) = audit ∧ a.(mac) = Some m.
Proof. unfold asset_has_mac. by rewrite andb_true_iff, String.eqb_eq, bool_decide_eq_true. Qed.

Lemma address_is_spec audit addr a :
  address_is audit addr a = true ↔ a.(address_audit_id) = audit ∧ a.(address) = addr.
Proof. unfold address_is. by rewrite andb_true_iff, !String.eqb_eq. Qed.

Lemma name_is_spec asset name ty source n :
  name_is asset name ty source n = true ↔
  n.(name_asset_id) = asset ∧ n.(asset_name) = name ∧ n.(name_type) = ty ∧ n.(name_source) = source.
Proof. unfold name_is. rewrite !andb_true_iff, !String.eqb_eq. tauto. Qed.

Lemma service_is_spec asset protocol port s :
  service_is asset protocol port s = true ↔
  s.(srv_asset_id) = asset ∧ s.(srv_protocol) = protocol ∧ s.(srv_port) = port.
Proof. unfold service_is. rewrite !andb_true_iff, !String.eqb_eq, Z.eqb_eq. tauto. Qed.

Lemma steps_insert_asset E (P : unit → InvWorld → Prop) a w :
  inv_ok w → fresh w a.(asset_id) → asset_row_ok w.(audit_ids) a →
  (∀ m id a', a.(mac) = Some m → w.(assets) !! id = Some a' → a'.(asset_audit_id) = a.(asset_audit_id) → a'.(mac) ≠ Some m) →
  P tt (w <| assets := <[a.(asset_id) := a]> w.(assets) |>) →
  steps E P (insert_asset a) w.
Proof.
  intros Hok Hf Ha Hm HP. unfold steps, wp, insert_asset. rewrite checked_ok; cbn [fst snd].
  - assert (table_evolves asset_kept w.(assets) (<[a.(asset_id) := a]> w.(assets))) as Hev
      by (apply table_evolves_insert; [apply _|by apply Hf]).
    split_and!; [|by apply evolves_assets|done]. apply inv_ok_assets; [done| |done].
    apply table_insert; [by apply Hok|by apply Hf|done| |].
    + intros x y (E1 & E2 & E3). split_and!; [done..|congruence].
    + intros id a' Ha' (E1 & E2 & [m Em]). by eapply (Hm m id a' Em Ha'); [|congruence].
  - by apply Hf.
  - intros id a' Ha'. destruct a.(mac) as [m|] eqn:Em; [|done]. apply not_true_iff_false.
    rewrite asset_has_mac_spec. intros [E1 E2]. by eapply Hm.
  - apply bool_decide_eq_true_2, Ha.
Qed.

Lemma steps_insert_address E (P : unit → InvWorld → Prop) a w :
  inv_ok w → fresh w a.(address_id) → owner_ok w a.(address_audit_id) a.(address_asset_id) →
  first_row w.(addresses) (address_is a.(address_audit_id) a.(address)) = None →
  P tt (w <| addresses := <[a.(address_id) := a]> w.(addresses) |>) →
  steps E P (insert_address a) w.
Proof.
  intros Hok Hf Ha Hfree HP. pose proof (proj1 (first_row_None _ _) Hfree) as Hnone.
  unfold steps, wp, insert_address. rewrite checked_ok; cbn [fst snd].
  - split_and!; [|apply evolves_addresses, table_evolves_insert; [apply _|by apply Hf]|done].
    apply inv_ok_addresses; [done|].
    apply (table_insert _ _ address_id); [by apply Hok|by apply Hf|done|by intros x y []|].
    intros id a' Ha' [E1 E2]. apply Hnone in Ha'. apply not_true_iff_false in Ha'.
    by apply Ha', address_is_spec.
  - by apply Hf.
  - exact Hnone.
  - destruct Ha as (r & Hr & Haud). unfold asset_exists. rewrite !bool_decide_eq_true_2; [done|by exists r|].
    rewrite <- Haud. by apply (rows_ok _ _ _ _ _ (assets_ok _ Hok) _ _ Hr).
Qed.

Lemma steps_insert_name E (P : unit → InvWorld → Prop) n w :
  inv_ok w → fresh w n.(name_id) → owner_ok w n.(name_audit_id) n.(name_asset_id) →
  first_row w.(names) (name_is n.(name_asset_id) n.(asset_name) n.(name_type) n.(name_source)) = None →
  P tt (w <| names := <[n.(name_id) := n]> w.(names) |>) →
  steps E P (insert_name n) w.
Proof.
  intros Hok Hf Ha Hfree HP. pose proof (proj1 (first_row_None _ _) Hfree) as Hnone.
  unfold steps, wp, insert_name. rewrite checked_ok; cbn [fst snd].
  - split_and!; [|apply evolves_names, table_evolves_insert; [apply _|by apply Hf]|done].
    apply inv_ok_names; [done|].
    apply (table_insert _ _ name_id); [by apply Hok|by apply Hf|done|by intros x y (?&?&?&?)|].
    intros id n' Hn' (E1 & E2 & E3 & E4). apply Hnone in Hn'. apply not_true_iff_false in Hn'.
    by apply Hn', name_is_spec.
  - by apply Hf.
  - exact Hnone.
  - destruct Ha as (r & Hr & Haud). unfold asset_exists. rewrite !bool_decide_eq_true_2; [done|by exists r|].
    rewrite <- Haud. by apply (rows_ok _ _ _ _ _ (assets_ok _ Hok) _ _ Hr).
Qed.

Lemma steps_insert_service E (P : unit → InvWorld → Prop) s w :
  inv_ok w → fresh w s.(srv_id) → owner_ok w s.(srv_audit_id) s.(srv_asset_id) →
  first_row w.(services) (service_is s.(srv_asset_id) s.(srv_protocol) s.(srv_port)) = None →
  P tt (w <| services := <[s.(srv_id) := s]> w.(services) |>) →
  steps E P (insert_service s) w.
Proof.
  intros Hok Hf Ha Hfree HP. pose proof (proj1 (first_row_None _ _) Hfree) as Hnone.
  unfold steps, wp, insert_service. rewrite checked_ok; cbn [fst snd].
  - split_and!; [|apply evolves_services, table_evolves_insert; [apply _|by apply Hf]|done].
    apply inv_ok_services; [done|].
    apply (table_insert _ _ srv_id); [by apply Hok|by apply Hf|done|by intros x y (?&?&?)|].
    intros id s' Hs' (E1 & E2 & E3). apply Hnone in Hs'. apply not_true_iff_false in Hs'.
    by apply Hs', service_is_spec.
  - by apply Hf.
  - exact Hnone.
  - destruct Ha as (r & Hr & Haud). unfold asset_exists. rewrite !bool_decide_eq_true_2; [done|by exists r|].
    rewrite <- Haud. by apply (rows_ok _ _ _ _ _ (assets_ok _ Hok) _ _ Hr).
Qed.

(** Only observations (and readings) differ. *)
Definition observed_only w w' : Prop :=
  w'.(scopes) = w.(scopes) ∧ w'.(assets) = w.(assets) ∧ w'.(addresses) = w.(addresses) ∧
  w'.(names) = w.(names) ∧ w'.(services) = w.(services).

Definition job_ok w (job_id : option string) : Prop := ∀ j, job_id = Some j → j ∈ w.(job_ids).

Lemma steps_observe E (P : unit → InvWorld → Prop) audit asset job ty source evidence data w :
  inv_ok w → owner_ok w audit asset → job_ok w job →
  (∀ w', observed_only w w' → P tt w') →
  steps E P (_observe audit (Some asset) job ty source evidence data) w.
Proof.
  intros Hok Ha Hj HP. unfold _observe. apply steps_uuid; [done|]. intros w1 Hok1 Hs1 _ Hf1.
  apply steps_now; [done|]. intros w2 Hok2 Hs2 Hn2.
  pose proof (fresh_same _ _ _ Hf1 Hs2 Hn2) as Hf2.
  destruct Hs1 as (A1 & A2 & A3 & A4 & A5 & A6 & A7 & A8 & A9), Hs2 as (B1 & B2 & B3 & B4 & B5 & B6 & B7 & B8 & B9).
  set (o := mkAssetObservation _ _ _ _ _ _ _ _ _).
  assert (observation_row_ok w2 o) as Ho.
  { destruct Ha as (r & Hr & Haud). unfold observation_row_ok. cbn. rewrite B5, A5, B1, A1, B2, A2. split_and!.
    - rewrite <- Haud. by apply (rows_ok _ _ _ _ _ (assets_ok _ Hok) _ _ Hr).
    - intros x [= <-]. by exists r.
    - done. }
  unfold steps, wp, insert_observation. rewrite checked_ok; cbn [fst snd].
  - split_and!; [|apply evolves_observations, table_evolves_insert; [apply _|by apply Hf2]|].
    + apply inv_ok_observations; [done|].
      apply (table_insert _ _ aobs_id); [by apply Hok2|by apply Hf2|done|by intros ? ? []|by intros ? ? ? []].
    + apply HP. unfold observed_only. cbn. rewrite B4, A4, B5, A5, B6, A6, B7, A7, B8, A8. done.
  - by apply Hf2.
  - done.
  - destruct Ho as (H1 & H2 & H3). cbn in H1, H2, H3 |- *. unfold asset_exists. rewrite !bool_decide_eq_true_2; [|auto..].
    cbn. destruct job as [j|]; [|done]. apply bool_decide_eq_true_2. auto.
Qed.

(** *** Changing rows *)

Lemma steps_update_asset E (P : unit → InvWorld → Prop) id a f w :
  inv_ok w → w.(assets) !! id = Some a → asset_kept a (f a) → asset_id (f a) = asset_id a →
  mac (f a) = mac a → conflicts_listed (metadata_json (f a)) →
  P tt (w <| assets := <[id := f a]> w.(assets) |>) →
  steps E P (update_asset id f) w.
Proof.
  intros Hok Ha Hkept Hid Hmac Hmeta HP. unfold update_asset. apply wp_modify.
  change (w <| assets ::= alter f id |>) with (w <| assets := alter f id w.(assets) |>).
  rewrite (alter_known _ _ _ _ Ha). destruct (rows_ok _ _ _ _ _ (assets_ok _ Hok) _ _ Ha) as [Hida (H1 & H2 & H3)].
  destruct Hkept as (K1 & K2 & K3).
  assert (table_evolves asset_kept w.(assets) (<[id := f a]> w.(assets))) as Hev
    by (eapply table_evolves_update; [apply _|exact Ha|done]).
  split_and!; [|by apply evolves_assets|done]. apply inv_ok_assets; [done| |done].
  eapply table_update; [by apply Hok|exact Ha|done| |].
  - split_and!; [congruence|by rewrite Hmac|done].
  - intros id2 a2 Hne H2a. unfold asset_key. rewrite K1, Hmac.
    split; intros (E1 & E2 & E3); apply Hne; apply (rows_unique _ _ _ _ _ (assets_ok _ Hok) _ _ _ _ H2a Ha); split_and!; congruence.
Qed.

Lemma steps_set_mac E (P : unit → InvWorld → Prop) id a m w :
  inv_ok w → w.(assets) !! id = Some a → a.(mac) = None → m ≠ "" →
  (∀ id' a', w.(assets) !! id' = Some a' → a'.(asset_audit_id) = a.(asset_audit_id) → a'.(mac) ≠ Some m) →
  P tt (w <| assets := <[id := a <| mac := Some m |>]> w.(assets) |>) →
  steps E P (set_asset_mac id a.(asset_audit_id) m) w.
Proof.
  intros Hok Ha Hnone Hm Hfree HP. unfold steps, wp, set_asset_mac.
  rewrite bool_decide_eq_true_2; cbn [fst snd].
  2: { apply first_row_None. intros id' a' Ha'. apply not_true_iff_false.
       rewrite andb_true_iff, asset_has_mac_spec. intros [[E1 E2] _]. by eapply Hfree. }
  change (w <| assets ::= alter (fun a => a <| mac := Some m |>) id |>) with
    (w <| assets := alter (fun a => a <| mac := Some m |>) id w.(assets) |>).
  rewrite (alter_known _ _ _ _ Ha). destruct (rows_ok _ _ _ _ _ (assets_ok _ Hok) _ _ Ha) as [Hida (H1 & H2 & H3)].
  assert (table_evolves asset_kept w.(assets) (<[id := a <| mac := Some m |>]> w.(assets))) as Hev.
  { eapply table_evolves_update; [apply _|exact Ha|]. split_and!; [done..|]. rewrite Hnone. by intros [? ?]. }
  split_and!; [|by apply evolves_assets|done]. apply inv_ok_assets; [done| |done].
  eapply table_update; [by apply Hok|exact Ha|done| |].
  - split_and!; [done| |done]. cbn. congruence.
  - intros id2 a2 Hne H2a. unfold asset_key. cbn. split; intros (E1 & E2 & E3); eapply (Hfree id2 a2 H2a); congruence.
Qed.

Lemma steps_update_address E (P : unit → InvWorld → Prop) id a f w :
  inv_ok w → w.(addresses) !! id = Some a → address_kept a (f a) →
  P tt (w <| addresses := <[id := f a]> w.(addresses) |>) →
  steps E P (update_address id f) w.
Proof.
  intros Hok Ha Hkept HP. unfold update_address. apply wp_modify.
  change (w <| addresses ::= alter f id |>) with (w <| addresses := alter f id w.(addresses) |>).
  rewrite (alter_known _ _ _ _ Ha).
  split_and!; [|apply evolves_addresses; by eapply table_evolves_update; [apply _|exact Ha|]|done].
  destruct Hkept as (t & p & _ & Hf). apply inv_ok_addresses; [done|].
  destruct (rows_ok _ _ _ _ _ (addresses_ok _ Hok) _ _ Ha) as [Hida Hown].
  eapply table_update; [by apply Hok|exact Ha|by rewrite Hf|by rewrite Hf|].
  intros id2 a2 Hne H2a. rewrite Hf. unfold address_key. cbn.
  split; intros (E1 & E2); apply Hne; apply (rows_unique _ _ _ _ _ (addresses_ok _ Hok) _ _ _ _ H2a Ha); split; congruence.
Qed.

Lemma steps_put_name E (P : unit → InvWorld → Prop) id n t w :
  inv_ok w → w.(names) !! id = Some n →
  P tt (w <| names := <[id := n <| name_last_seen := t |>]> w.(names) |>) →
  steps E P (modify (fun w => w <| names ::= alter (fun n => n <| name_last_seen := t |>) id |>)) w.
Proof.
  intros Hok Hn HP. apply wp_modify.
  change (w <| names ::= alter (fun n => n <| name_last_seen := t |>) id |>) with
    (w <| names := alter (fun n => n <| name_last_seen := t |>) id w.(names) |>).
  rewrite (alter_known _ _ _ _ Hn).
  split_and!; [|apply evolves_names; eapply table_evolves_update; [apply _|exact Hn|by exists t]|done].
  apply inv_ok_names; [done|]. destruct (rows_ok _ _ _ _ _ (names_ok _ Hok) _ _ Hn) as [Hidn Hown].
  eapply table_update; [by apply Hok|exact Hn|done|done|].
  intros id2 n2 Hne H2n. unfold name_key. cbn.
  split; intros (E1 & E2 & E3 & E4); apply Hne; apply (rows_unique _ _ _ _ _ (names_ok _ Hok) _ _ _ _ H2n Hn); split_and!; congruence.
Qed.

Lemma steps_put_service E (P : unit → InvWorld → Prop) id s s' w :
  inv_ok w → w.(services) !! id = Some s → service_kept s s' → s'.(srv_id) = s.(srv_id) →
  P tt (w <| services := <[id := s']> w.(services) |>) →
  steps E P (modify (fun w => w <| services ::= insert id s' |>)) w.
Proof.
  intros Hok Hs Hkept Hid HP. apply wp_modify.
  change (w <| services ::= insert id s' |>) with (w <| services := <[id := s']> w.(services) |>).
  split_and!; [|apply evolves_services; by eapply table_evolves_update; [apply _|exact Hs|]|done].
  destruct Hkept as (K1 & (K2 & K3 & K4) & K5). apply inv_ok_services; [done|].
  destruct (rows_ok _ _ _ _ _ (services_ok _ Hok) _ _ Hs) as [Hids Hown].
  eapply table_update; [by apply Hok|exact Hs|done|by rewrite K1, <- K2|].
  intros id2 s2 Hne H2s. unfold service_key. rewrite <- K2, <- K3, <- K4.
  split; intros (E1 & E2 & E3); apply Hne; apply (rows_unique _ _ _ _ _ (services_ok _ Hok) _ _ _ _ H2s Hs); split_and!; congruence.
Qed.

Lemma steps_asset_object {A} E (P : A → InvWorld → Prop) id a (k : AssetModel → IM A) w :
  inv_ok w → w.(assets) !! id = Some a → steps E P (k a) w → steps E P (asset_object id ≫= k) w.
Proof. intros Hok Ha Hk. apply steps_bind. unfold steps, wp, asset_object. rewrite Ha. by split_and!. Qed.

(** A transaction that raises leaves the tables alone. *)
Lemma steps_transaction {A} E (P : A → InvWorld → Prop) (m : IM A) w :
  inv_ok w → steps E P m w → steps E P (inv_transaction m) w.
Proof.
  intros Hok Hm. unfold steps, wp, inv_transaction in *.
  destruct (m w) as [[a|e] w']; [done|]. cbn in *. destruct Hm as (_ & Hev & He). pose proof (drawn_grow _ _ Hev).
  split_and!; [|by apply evolves_same|done].
  apply (inv_ok_drawn (w <| inv_clock_reads := inv_clock_reads w' |>)); [by apply inv_ok_clock|done].
Qed.
End steps.
