(* ===== verification/InventoryCorrelate.v ===== *)
(** * Whose identity an observation is ([InventoryService._correlate])

    The lookups as functions of the tables, and what the choice of an asset and the
    blocked addresses amount to. *)

From S2P Require Import Prelude PyBase PyText JobModels JobStore ScopeEngine Nmap FindModels InventoryBase Inventory InventoryInvariant.

Section correlate.
Context `{Runtime, !RuntimeOk}.
Implicit Types (w : InvWorld) (a : AssetModel).

(** ** Lookups *)

Definition by_mac w (audit : string) (m : option string) : option AssetModel :=
  match m with
  | Some (String c s) => first_row w.(assets) (asset_has_mac audit (String c s))
  | _ => None
  end.

Definition owner w (audit addr : string) : option AssetModel :=
  row ← first_row w.(addresses) (address_is audit addr); w.(assets) !! row.(address_asset_id).

Lemma by_mac_Some w audit m a :
  inv_ok w → by_mac w audit m = Some a ↔
    w.(assets) !! a.(asset_id) = Some a ∧ a.(asset_audit_id) = audit ∧ a.(mac) = m ∧ is_Some m.
Proof.
  intros Hok. destruct m as [[|c s]|]; cbn.
  - split; [done|]. intros (Ha & _ & Hm & _).
    by destruct (rows_ok _ _ _ _ _ (assets_ok _ Hok) _ _ Ha) as (_ & _ & Hne & _).
  - split.
    + intros (id & Ha & [E1 E2]%asset_has_mac_spec)%first_row_Some.
      destruct (rows_ok _ _ _ _ _ (assets_ok _ Hok) _ _ Ha) as [-> _]. by split_and!; eauto.
    + intros (Ha & E1 & E2 & _). eapply first_row_eq; [exact Ha|by apply asset_has_mac_spec|].
      intros id' a' Ha' [E1' E2']%asset_has_mac_spec.
      eapply (rows_unique _ _ _ _ _ (assets_ok _ Hok) _ _ _ _ Ha' Ha). split_and!; [congruence..|by rewrite E2'].
  - split; [done|]. intros (_ & _ & _ & [? ?]). done.
Qed.

Lemma by_mac_None w audit m :
  inv_ok w → by_mac w audit (Some m) = None → m ≠ "" →
  ∀ id a, w.(assets) !! id = Some a → a.(asset_audit_id) = audit → a.(mac) ≠ Some m.
Proof.
  intros Hok Hnone Hm id a Ha Haud Hmac. destruct (rows_ok _ _ _ _ _ (assets_ok _ Hok) _ _ Ha) as [Hid _].
  assert (by_mac w audit (Some m) = Some a) as E; [|congruence].
  apply by_mac_Some; [done|]. rewrite Hid. by eauto.
Qed.

Lemma owner_Some w audit addr a :
  inv_ok w → owner w audit addr = Some a ↔
    w.(assets) !! a.(asset_id) = Some a ∧ ∃ id row, w.(addresses) !! id = Some row ∧
      row.(address_audit_id) = audit ∧ row.(address) = addr ∧ row.(address_asset_id) = a.(asset_id).
Proof.
  intros Hok. unfold owner. split.
  - destruct (first_row _ _) as [row|] eqn:Hrow; [|done]. cbn. intros Ha.
    apply first_row_Some in Hrow as (id & Hid & [E1 E2]%address_is_spec).
    destruct (rows_ok _ _ _ _ _ (assets_ok _ Hok) _ _ Ha) as [E _]. rewrite E. split; [done|]. by exists id, row.
  - intros (Ha & id & row & Hid & E1 & E2 & E3).
    rewrite (first_row_eq _ _ id row Hid); [cbn; by rewrite E3|by apply address_is_spec|].
    intros id' row' Hid' [E1' E2']%address_is_spec.
    eapply (rows_unique _ _ _ _ _ (addresses_ok _ Hok) _ _ _ _ Hid' Hid). split; congruence.
Qed.

Lemma owner_None w audit addr :
  inv_ok w → owner w audit addr = None → first_row w.(addresses) (address_is audit addr) = None.
Proof.
  intros Hok. unfold owner. destruct (first_row _ _) as [row|] eqn:Hrow; [|done]. cbn. intros Hnone.
  apply first_row_Some in Hrow as (id & Hid & _).
  destruct (rows_ok _ _ _ _ _ (addresses_ok _ Hok) _ _ Hid) as (_ & r & Hr & _). congruence.
Qed.

Lemma owner_audit w audit addr a : inv_ok w → owner w audit addr = Some a → a.(asset_audit_id) = audit.
Proof.
  intros Hok (Ha & id & row & Hid & E1 & _ & E3)%owner_Some; [|done].
  destruct (rows_ok _ _ _ _ _ (addresses_ok _ Hok) _ _ Hid) as (_ & r & Hr & Haud). congruence.
Qed.

(** ** The known addresses *)

Definition known_step w (audit : string) (found : list (string * AssetModel)) (x : string * Z) :=
  match owner w audit x.1 with Some a => dict_set found x.1 a | None => found end.
Definition known w (audit : string) (ips : list (string * Z)) : list (string * AssetModel) :=
  foldl (known_step w audit) [] ips.

Lemma known_addresses_run w audit found ips :
  known_addresses audit found ips w = (Return (foldl (known_step w audit) found ips), w).
Proof.
  revert found. induction ips as [|[addr fam] ips IH]; intros found; [done|]. cbn.
  unfold known_step at 2. cbn. rewrite <- IH. unfold mbind, prog_bind, reads, owner. done.
Qed.

Lemma dict_set_pair {V} (d : list (string * V)) k v k' v' :
  (k', v') ∈ dict_set d k v → (k', v') = (k, v) ∨ (k', v') ∈ d.
Proof.
  induction d as [|[k0 v0] d IH]; cbn; [by intros ->%list_elem_of_singleton; left|].
  destruct (String.eqb_spec k k0) as [->|]; rewrite !elem_of_cons; naive_solver.
Qed.

Lemma dict_set_elem_keep {V} (d : list (string * V)) k v k' v' : k' ≠ k → (k', v') ∈ d → (k', v') ∈ dict_set d k v.
Proof.
  intros Hne. induction d as [|[k0 v0] d IH]; cbn; [by intros ?%elem_of_nil|].
  destruct (String.eqb_spec k k0) as [->|]; rewrite !elem_of_cons; naive_solver.
Qed.

Lemma dict_set_here {V} (d : list (string * V)) k v : (k, v) ∈ dict_set d k v.
Proof. apply dict_get_elem. by rewrite dict_get_set, String.eqb_refl. Qed.

Lemma dict_set_head {V} (d : list (string * V)) k v :
  head (dict_set d k v) = match d with
                          | [] => Some (k, v)
                          | (k0, v0) :: _ => Some (k0, if String.eqb k k0 then v else v0)
                          end.
Proof. destruct d as [|[k0 v0] d]; cbn; [done|]. by destruct (String.eqb k k0). Qed.

(** Exactly the addresses listed that have an owner, with it; the first known comes first. *)
Lemma known_from w audit found ips addr a :
  (∀ x b, (x, b) ∈ found → owner w audit x = Some b) →
  (addr, a) ∈ foldl (known_step w audit) found ips ↔
    owner w audit addr = Some a ∧ (addr ∈ found.*1 ∨ addr ∈ ips.*1).
Proof.
  revert found. induction ips as [|[x fam] ips IH]; intros found Hf; cbn [foldl].
  - split.
    + intros Hin. split; [by apply Hf|]. left. apply list_elem_of_fmap. by exists (addr, a).
    + intros [Ho [([y b] & -> & Hin)%list_elem_of_fmap|?%elem_of_nil]]; [|done].
      cbn in Ho. by rewrite (Hf _ _ Hin) in Ho; injection Ho as <-.
  - rewrite fmap_cons, elem_of_cons. unfold known_step at 2. cbn [fst].
    destruct (owner w audit x) as [b|] eqn:Hx.
    + rewrite IH.
      * rewrite !list_elem_of_fmap. split.
        -- intros [Ho [([y c] & -> & [[= -> ->]|Hin]%dict_set_pair)|?]]; naive_solver.
        -- intros [Ho [([y c] & -> & Hin)|[->|?]]].
           ++ split; [done|]. left. destruct (decide (y = x)) as [->|Hne].
              ** exists (x, b). split; [done|]. apply dict_set_here.
              ** exists (y, c). split; [done|]. by apply dict_set_elem_keep.
           ++ split; [done|]. left. exists (x, b). split; [done|]. apply dict_set_here.
           ++ naive_solver.
      * intros y c [[= -> ->]|Hin]%dict_set_pair; [done|by apply Hf].
    + rewrite IH by done. naive_solver.
Qed.

Lemma known_elem w audit ips addr a :
  (addr, a) ∈ known w audit ips ↔ addr ∈ ips.*1 ∧ owner w audit addr = Some a.
Proof.
  unfold known. rewrite known_from by (by intros x b ?%elem_of_nil). cbn [fmap list_fmap].
  rewrite elem_of_nil. tauto.
Qed.

Definition first_owner w (audit : string) (ips : list (string * Z)) : option AssetModel :=
  head (omap (fun x => owner w audit x.1) ips).

Lemma known_head w audit ips : snd <$> head (known w audit ips) = first_owner w audit ips.
Proof.
  unfold known, first_owner.
  assert (∀ found, (∀ x b, (x, b) ∈ found → owner w audit x = Some b) →
    snd <$> head (foldl (known_step w audit) found ips) =
      match found with [] => head (omap (fun x => owner w audit x.1) ips) | (_, b) :: _ => Some b end) as Hgo.
  { induction ips as [|[x fam] ips IH]; intros found Hf; cbn [foldl]; [by destruct found as [|[]]|].
    cbn. unfold known_step at 2. cbn [fst]. destruct (owner w audit x) as [a|] eqn:Hx; [|by apply IH].
    rewrite IH.
    - destruct found as [|[y b] found]; cbn; [done|].
      destruct (String.eqb_spec x y) as [->|]; [|done]. rewrite (Hf y b) in Hx by constructor. congruence.
    - intros y b [[= -> ->]|Hin]%dict_set_pair; [done|by apply Hf]. }
  apply Hgo. by intros x b ?%elem_of_nil.
Qed.

(** ** The assets they belong to *)

Lemma unique_from (found d : list (string * AssetModel)) :
  (∀ x a y b, (x, a) ∈ found → (y, b) ∈ found → a.(asset_id) = b.(asset_id) → a = b) →
  (∀ id a, (id, a) ∈ d → id = a.(asset_id) ∧ ∃ x, (x, a) ∈ found) →
  ∀ rest, (∀ x a, (x, a) ∈ rest → (x, a) ∈ found) →
  let u := foldl (fun d (fa : string * AssetModel) => dict_set d fa.2.(asset_id) fa.2) d rest in
  head u = match d with [] => (fun fa => (fa.2.(asset_id), fa.2)) <$> head rest | kv :: _ => Some kv end ∧
  (∀ x a, (x, a) ∈ rest → (a.(asset_id), a) ∈ u) ∧ (∀ kv, kv ∈ d → kv ∈ u).
Proof.
  intros Hsame Hd rest. revert d Hd. induction rest as [|[x a] rest IH]; intros d Hd Hrest; cbn [foldl].
  { split_and!; [by destruct d|by intros ?? ?%elem_of_nil|done]. }
  cbn [snd]. assert ((x, a) ∈ found) as Hin by (apply Hrest; constructor).
  assert (∀ kv, kv ∈ d → kv ∈ dict_set d a.(asset_id) a) as Hkeep.
  { intros [id b] Hb. destruct (Hd _ _ Hb) as (-> & y & Hy).
    destruct (decide (b.(asset_id) = a.(asset_id))) as [E|Hne]; [|by apply dict_set_elem_keep].
    rewrite (Hsame _ _ _ _ Hy Hin E). apply dict_set_here. }
  destruct (IH (dict_set d a.(asset_id) a)) as (IH1 & IH2 & IH3).
  - intros id b [[= -> ->]|Hb]%dict_set_pair; [|by apply Hd]. split; [done|]. by exists x.
  - intros y b Hb. apply Hrest. by constructor.
  - split_and!.
    + cbn in IH1 |- *. rewrite IH1. pose proof (dict_set_head d a.(asset_id) a) as Hh.
      destruct (dict_set d a.(asset_id) a) as [|kv d'] eqn:Hds.
      { pose proof (dict_set_here d a.(asset_id) a) as Hx. rewrite Hds in Hx. by apply elem_of_nil in Hx. }
      cbn in Hh. rewrite Hh. destruct d as [|[id0 b0] d0]; [done|].
      destruct (String.eqb_spec a.(asset_id) id0) as [<-|]; [|done].
      destruct (Hd a.(asset_id) b0) as (E & y & Hy); [constructor|]. by rewrite (Hsame _ _ _ _ Hin Hy E).
    + intros y b [[= -> ->]|Hb]%elem_of_cons; [|by eapply IH2]. apply IH3, dict_set_here.
    + auto.
Qed.

Lemma unique_spec (found : list (string * AssetModel)) :
  (∀ x a y b, (x, a) ∈ found → (y, b) ∈ found → a.(asset_id) = b.(asset_id) → a = b) →
  head (unique_assets found) = (fun fa => (fa.2.(asset_id), fa.2)) <$> head found ∧
  (∀ x a, (x, a) ∈ found → (a.(asset_id), a) ∈ unique_assets found) ∧
  NoDup (dict_keys (unique_assets found)) ∧
  (∀ id a, (id, a) ∈ unique_assets found → id = a.(asset_id) ∧ ∃ x, (x, a) ∈ found).
Proof.
  intros Hsame. assert (NoDup (dict_keys (unique_assets found)) ∧
    (∀ id a, (id, a) ∈ unique_assets found → id = a.(asset_id) ∧ ∃ x, (x, a) ∈ found)) as Hrest.
  { clear Hsame. unfold unique_assets. assert (∀ rest d, NoDup (dict_keys d) → (∀ x a, (x, a) ∈ rest → (x, a) ∈ found) →
      (∀ id a, (id, a) ∈ d → id = a.(asset_id) ∧ ∃ x, (x, a) ∈ found) →
      let u := foldl (fun d (fa : string * AssetModel) => dict_set d fa.2.(asset_id) fa.2) d rest in
      NoDup (dict_keys u) ∧ (∀ id a, (id, a) ∈ u → id = a.(asset_id) ∧ ∃ x, (x, a) ∈ found)) as Hgo.
    { induction rest as [|[x a] rest IH]; intros d Hnd Hin Hd; [done|]. cbn [foldl snd]. apply IH.
      - by apply dict_set_NoDup.
      - intros y b Hy. apply Hin. by constructor.
      - intros id b [[= -> ->]|Hb]%dict_set_pair; [|by apply Hd]. split; [done|]. exists x. apply Hin. constructor. }
    apply Hgo; [constructor|done|by intros ?? ?%elem_of_nil]. }
  destruct (unique_from found [] Hsame) with (rest := found) as (H1 & H2 & _); [|done|].
  - by intros id a ?%elem_of_nil.
  - split_and!; [exact H1|exact H2|apply Hrest..].
Qed.

(** ** The choice *)

Definition chosen w (audit : string) (m : option string) (ips : list (string * Z)) : option AssetModel :=
  match by_mac w audit m with Some a => Some a | None => first_owner w audit ips end.

Definition blocked w (audit : string) (ips : list (string * Z)) (id : string) : list string :=
  blocked_for id (known w audit ips).

Lemma blocked_elem w audit ips id addr :
  addr ∈ blocked w audit ips id ↔ addr ∈ ips.*1 ∧ ∃ a, owner w audit addr = Some a ∧ a.(asset_id) ≠ id.
Proof.
  unfold blocked, blocked_for. rewrite list_elem_of_In, in_map_iff. split.
  - intros ([x a] & <- & Hin%list_elem_of_In). apply elem_of_lfilter in Hin as [[Hx Ho]%known_elem Hne].
    split; [done|]. exists a. split; [done|]. by apply negb_true_iff, String.eqb_neq in Hne.
  - intros (Hx & a & Ho & Hne). exists (addr, a). split; [done|]. apply list_elem_of_In, elem_of_lfilter.
    rewrite known_elem. split; [done|]. by apply negb_true_iff, String.eqb_neq.
Qed.

Lemma blocked_addresses_strings d l : get d "blocked_addresses" = strings l → blocked_addresses d = l.
Proof.
  intros Hd. unfold blocked_addresses. rewrite Hd. clear Hd. unfold strings.
  induction l as [|x l IH]; [done|]. cbn. by rewrite IH.
Qed.

Lemma owner_same w audit x a y b :
  inv_ok w → owner w audit x = Some a → owner w audit y = Some b → a.(asset_id) = b.(asset_id) → a = b.
Proof. intros Hok [Ha _]%owner_Some [Hb _]%owner_Some; try done. congruence. Qed.

Lemma correlate_run w audit m ips :
  inv_ok w →
  ∃ conflict, _correlate audit m ips w = (Return (chosen w audit m ips, conflict), w) ∧
    blocked_addresses conflict = match chosen w audit m ips with
                                 | Some a => blocked w audit ips a.(asset_id) | None => [] end ∧
    (blocked_addresses conflict = [] → conflict = []).
Proof.
  intros Hok. unfold _correlate.
  assert (_asset_by_mac audit m w = (Return (by_mac w audit m), w)) as Hm by (by destruct m as [[|c s]|]).
  unfold mbind at 1, prog_bind at 1. rewrite Hm. unfold mbind at 1, prog_bind at 1.
  rewrite known_addresses_run. fold (known w audit ips). cbn [mret prog_ret].
  unfold chosen, blocked. set (found := known w audit ips).
  assert (∀ x a y b, (x, a) ∈ found → (y, b) ∈ found → a.(asset_id) = b.(asset_id) → a = b) as Hsame.
  { intros x a y b [_ Ha]%known_elem [_ Hb]%known_elem. by eapply owner_same. }
  destruct (unique_spec found Hsame) as (Hhead & Hall & Hnd & Hfrom).
  destruct (by_mac w audit m) as [a|]; cbn [fst snd].
  { eexists. split; [done|]. destruct (blocked_for a.(asset_id) found) as [|b bs] eqn:Hb; [done|].
    rewrite (blocked_addresses_strings _ (b :: bs)) by done. by split. }
  rewrite <- known_head. fold found.
  destruct (unique_assets found) as [|[id a] rest] eqn:Hu; cbn [head fmap option_fmap option_map] in Hhead.
  { destruct found as [|[x a] found']; [|done]. by eexists. }
  destruct found as [|[x a'] found'] eqn:Hf; [done|]. cbn in Hhead. injection Hhead as -> ->. cbn [head fmap option_fmap option_map snd].
  destruct rest as [|kv rest]; eexists; (split; [done|]).
  - assert (blocked_for a'.(asset_id) ((x, a') :: found') = []) as ->; [|done].
    unfold blocked_for. rewrite (proj2 (lfilter_nil _ _)); [done|]. intros [y b] Hy. cbn.
    apply Hall in Hy as [= E1 E2]%list_elem_of_singleton. cbn. rewrite E1. by rewrite String.eqb_refl.
  - rewrite (blocked_addresses_strings _ (blocked_for a'.(asset_id) ((x, a') :: found'))) by done.
    split; [done|]. intros Hnil. exfalso. destruct kv as [id b].
    destruct (Hfrom id b) as (-> & y & Hy); [by constructor; constructor|].
    assert (b.(asset_id) = a'.(asset_id)) as Hb.
    { unfold blocked_for in Hnil. apply map_eq_nil in Hnil. apply (proj1 (lfilter_nil _ _)) with (x := (y, b)) in Hnil; [|done].
      by apply negb_false_iff, String.eqb_eq in Hnil. }
    rewrite !dict_keys_cons, Hb in Hnd. apply NoDup_cons in Hnd as [Hnd _]. apply Hnd. constructor.
Qed.
End correlate.
