(* ===== verification/InventoryProofs.v ===== *)
(** * The statements of ingestion keep the invariant and record what was seen *)

From S2P Require Import Prelude PyBase PyText JobModels JobStore ScopeEngine Nmap FindModels InventoryBase Inventory InventoryIngest InventoryInvariant InventoryCorrelate.

(** ** Metadata *)

Lemma get_dict_set d k v k' : get (dict_set d k v) k' = if String.eqb k' k then v else get d k'.
Proof. unfold get. rewrite dict_get_set. by destruct (String.eqb k' k). Qed.

Lemma conflicts_listed_set d k v : k ≠ "service_conflicts" → conflicts_listed d → conflicts_listed (dict_set d k v).
Proof.
  intros Hk. unfold conflicts_listed. rewrite get_dict_set.
  by rewrite (proj2 (String.eqb_neq "service_conflicts" k)) by congruence.
Qed.

Lemma conflicts_listed_empty : conflicts_listed [].
Proof. by left. Qed.

(** One conflict more, and no more than twenty kept. *)
Lemma add_conflict_spec d c :
  conflicts_listed d →
  ∃ l, (get d "service_conflicts" = PNone ∧ l = [] ∨ get d "service_conflicts" = PList l) ∧
    add_conflict d c = Return (dict_set d "service_conflicts"
      (PList (drop (length (l ++ [PDict c]) - 20) (l ++ [PDict c])))) ∧
    conflicts_listed (dict_set d "service_conflicts" (PList (drop (length (l ++ [PDict c]) - 20) (l ++ [PDict c])))).
Proof.
  intros Hd.
  assert (∀ l, conflicts_listed (dict_set d "service_conflicts" (PList (drop (length (l ++ [PDict c]) - 20) (l ++ [PDict c]))))) as Hlist.
  { intros l. right. eexists. rewrite get_dict_set, String.eqb_refl. split; [done|]. rewrite length_drop. lia. }
  unfold add_conflict. destruct Hd as [Hd|(l & Hd & Hl)]; rewrite Hd.
  - exists []. split_and!; [by left|done|apply Hlist].
  - exists l. split_and!; [by right| |apply Hlist]. destruct l as [|x l]; done.
Qed.

(** ** Merging a service *)

(** The value a guarded field ends with. *)
Definition merged {A} `{EqDecision A} (val : A → pyval) (weaker : bool) (current value : A) : A :=
  if truthy (val current) && truthy (val value) && negb (bool_decide (current = value)) && weaker
  then current else value.

Lemma merge_field_spec {A} `{EqDecision A} (val : A → pyval) key proj (put : A → ServiceModel → ServiceModel)
    value observed s d :
  conflicts_listed d → (∀ s0 : ServiceModel, put (proj s0) s0 = s0) →
  ∃ d', merge_field val key proj put value observed (s, d) =
      Return (put (merged val (_confidence_rank observed <=? _confidence_rank s.(srv_confidence)) (proj s) value) s, d') ∧
    conflicts_listed d'.
Proof.
  intros Hd Hput. unfold merge_field, merged. destruct (truthy (val (proj s)) && _ && _) eqn:Hg.
  - edestruct (add_conflict_spec d) as (l & _ & Hadd & Hok); [done|]. rewrite Hadd, bind_Return.
    destruct (_ <=? _); cbn [andb]; eexists; (split; [|exact Hok]); [by rewrite Hput|done].
  - by exists d.
Qed.

(** The fields of an existing service after a port was observed. *)
Definition merged_service (p : NmapPort) (source : string) (now : datetime) (s : ServiceModel) : ServiceModel :=
  let field {B} (f : NmapService → option B) : option B := v ← p.(np_service); f v in
  let observed := _service_confidence p.(np_service) in
  let weaker := _confidence_rank observed <=? _confidence_rank s.(srv_confidence) in
  s <| srv_state := p.(np_state) |> <| srv_reason := p.(np_reason) |>
    <| srv_service_name := merged opt_val weaker s.(srv_service_name) (field svc_name) |>
    <| srv_product := merged opt_val weaker s.(srv_product) (field svc_product) |>
    <| srv_version := merged opt_val weaker s.(srv_version) (field svc_version) |>
    <| srv_extra_info := merged opt_val weaker s.(srv_extra_info) (field svc_extra_info) |>
    <| srv_tunnel := field svc_tunnel |>
    <| srv_cpe := merged strings weaker s.(srv_cpe) (match p.(np_service) with Some v => v.(svc_cpe) | None => [] end) |>
    <| srv_banner := merged opt_val weaker s.(srv_banner) (field svc_banner) |>
    <| srv_method := field svc_method |> <| srv_confidence := observed |> <| srv_source := source |>
    <| srv_last_seen := now |>.

Lemma merge_service_spec p source now s d :
  conflicts_listed d →
  ∃ d', merge_service p source now s d = Return (merged_service p source now s, d') ∧ conflicts_listed d'.
Proof.
  intros Hd. unfold merge_service.
  do 4 (match goal with |- context [merge_field ?val ?key ?proj ?put ?value ?obs (?s0, ?d0)] =>
    destruct (merge_field_spec val key proj put value obs s0 d0) as (?d & ?E & ?Hc);
      [assumption|by intros []|]; rewrite E, bind_Return; clear E end).
  cbv beta iota.
  do 2 (match goal with |- context [merge_field ?val ?key ?proj ?put ?value ?obs (?s0, ?d0)] =>
    destruct (merge_field_spec val key proj put value obs s0 d0) as (?d & ?E & ?Hc);
      [assumption|by intros []|]; rewrite E, bind_Return; clear E end).
  eexists. split; [|eassumption]. reflexivity.
Qed.

Section ingest.
Context `{Runtime, !RuntimeOk}.
Context (vendors : OuiResolver).
Implicit Types (w : InvWorld).

(** ** What is recorded *)

Definition has_address w (audit asset addr : string) : Prop :=
  ∃ id row, w.(addresses) !! id = Some row ∧ row.(address_audit_id) = audit ∧ row.(address) = addr ∧
            row.(address_asset_id) = asset.

Definition has_name w (asset name ty source : string) : Prop :=
  ∃ id row, w.(names) !! id = Some row ∧ name_is asset name ty source row = true.

Definition has_service w (asset protocol : string) (port : Z) : Prop :=
  ∃ id row, w.(services) !! id = Some row ∧ service_is asset protocol port row = true.

(** Nobody but the asset holds the address. *)
Definition free_for w (audit asset addr : string) : Prop :=
  ∀ id row, w.(addresses) !! id = Some row → row.(address_audit_id) = audit → row.(address) = addr →
            row.(address_asset_id) = asset.

Lemma has_address_mono w w' audit asset addr : evolves w w' → has_address w audit asset addr → has_address w' audit asset addr.
Proof.
  intros Hev (id & row & Hid & E1 & E2 & E3). destruct (addresses_evolve _ _ Hev _ _ Hid) as (row' & Hid' & t & p & _ & ->).
  by exists id, (row <| address_last_seen := t |> <| is_primary := p |>).
Qed.

Lemma has_name_mono w w' asset name ty source : evolves w w' → has_name w asset name ty source → has_name w' asset name ty source.
Proof.
  intros Hev (id & row & Hid & E). destruct (names_evolve _ _ Hev _ _ Hid) as (row' & Hid' & t & ->).
  by exists id, (row <| name_last_seen := t |>).
Qed.

Lemma has_service_mono w w' asset protocol port : evolves w w' → has_service w asset protocol port → has_service w' asset protocol port.
Proof.
  intros Hev (id & row & Hid & (E1 & E2 & E3)%service_is_spec).
  destruct (services_evolve _ _ Hev _ _ Hid) as (row' & Hid' & _ & (K1 & K2 & K3) & _).
  exists id, row'. split; [done|]. apply service_is_spec. split_and!; congruence.
Qed.

Lemma owner_known w audit asset addr : inv_ok w → has_address w audit asset addr → owner w audit addr ≠ None.
Proof.
  intros Hok (id & row & Hid & E1 & E2 & E3).
  destruct (rows_ok _ _ _ _ _ (addresses_ok _ Hok) _ _ Hid) as (_ & r & Hr & Haud).
  destruct (rows_ok _ _ _ _ _ (assets_ok _ Hok) _ _ Hr) as (Hidr & _).
  assert (owner w audit addr = Some r) as ->; [|done]. apply owner_Some; [done|]. rewrite Hidr. split; [done|].
  exists id, row. by split_and!.
Qed.

Lemma owner_has w audit addr a : inv_ok w → owner w audit addr = Some a → has_address w audit a.(asset_id) addr.
Proof. intros Hok (_ & id & row & ? & ? & ? & ?)%owner_Some; [|done]. by exists id, row. Qed.

(** ** Addresses *)

Lemma steps_upsert_address audit asset addr fam source now primary w :
  inv_ok w → owner_ok w audit asset →
  steps nothing (fun _ w' =>
      (∃ id, has_address w' audit id addr) ∧ (free_for w audit asset addr → has_address w' audit asset addr) ∧
      (∀ x, free_for w audit asset x → free_for w' audit asset x) ∧ w'.(assets) = w.(assets) ∧
      (owner w audit addr ≠ None → dom w'.(addresses) = dom w.(addresses)))
    (_upsert_address audit asset addr fam source now primary) w.
Proof.
  intros Hok Hown. unfold _upsert_address. apply steps_bind, steps_reads; [done|].
  destruct (first_row w.(addresses) (address_is audit addr)) as [e|] eqn:He.
  - apply first_row_Some in He as (id & Hid & [E1 E2]%address_is_spec).
    destruct (rows_ok _ _ _ _ _ (addresses_ok _ Hok) _ _ Hid) as (Hide & Howne). rewrite Hide.
    destruct (String.eqb_spec e.(address_asset_id) asset) as [Ea|Ea]; cbn [negb].
    + apply (steps_update_address _ _ _ e); [done|done| |].
      * destruct primary; [exists now, true|exists now, e.(is_primary)]; by destruct e.
      * set (e' := if primary then _ else _).
        assert (e'.(address_audit_id) = audit ∧ e'.(address) = addr ∧ e'.(address_asset_id) = asset) as (F1 & F2 & F3)
          by (unfold e'; by destruct primary).
        assert (has_address (w <| addresses := <[id := e']> w.(addresses) |>) audit asset addr) as Hhas.
        { exists id, e'. cbn. by rewrite lookup_insert_eq. }
        split_and!; [by exists asset|done| |done|].
        -- intros x Hfree id2 row. cbn. intros [[<- <-]|[_ Hrow]]%lookup_insert_Some; [done|by apply (Hfree id2)].
        -- intros _. cbn. apply dom_insert_lookup_L. by exists e.
    + eapply steps_seq; [apply (steps_observe _ (fun _ => observed_only w)); [done|done|by intros j|done]|].
      intros _ w1 Hok1 Hev1 (A1 & A2 & A3 & A4 & A5). rewrite <- A3 in Hid.
      apply (steps_update_address _ _ _ e); [done|done|exists now, e.(is_primary); by destruct e|].
      split_and!; [| | |done|].
      * exists e.(address_asset_id), id, (e <| address_last_seen := now |>). cbn. by rewrite lookup_insert_eq.
      * intros Hfree. destruct Ea. apply (Hfree id e); [congruence|done..].
      * intros x Hfree id2 row. cbn. rewrite A3 in *.
        intros [[<- <-]|[_ Hrow]]%lookup_insert_Some; [cbn; intros ? ?; by apply (Hfree id e)|by apply (Hfree id2)].
      * intros _. cbn. rewrite dom_insert_lookup_L by by exists e. by rewrite A3.
  - apply steps_uuid; [done|]. intros w1 Hok1 (A1 & A2 & A3 & A4 & A5 & A6 & A7 & A8 & A9) _ Hf.
    pose proof (proj1 (first_row_None _ _) He) as Hnone.
    set (row := mkAddress _ _ _ _ _ _ _ _ _ _).
    assert (has_address (w1 <| addresses := <[row.(address_id) := row]> w1.(addresses) |>) audit asset addr) as Hhas.
    { exists row.(address_id), row. cbn. by rewrite lookup_insert_eq. }
    apply steps_insert_address; [done|done| |by rewrite A6|].
    + destruct Hown as (r & Hr & ?). exists r. by rewrite A5.
    + split_and!; [by exists asset|done| |done|].
      * intros x Hfree id2 r2. cbn. rewrite A6. intros [[<- <-]|[_ Hrow]]%lookup_insert_Some; [done|by apply (Hfree id2)].
      * intros Ho. destruct Ho. unfold owner. by rewrite He.
Qed.

Lemma known_mono w w' audit addr : inv_ok w → inv_ok w' → evolves w w' → owner w audit addr ≠ None → owner w' audit addr ≠ None.
Proof.
  intros Hok Hok' Hev Ho. destruct (owner w audit addr) as [a|] eqn:E; [|done]. apply owner_has in E; [|done].
  eapply owner_known; [done|]. by eapply has_address_mono.
Qed.

(** Every address is known afterwards, and those not blocked are the asset's. *)
Lemma steps_upsert_addresses audit asset source now blocked primary ips w :
  inv_ok w → owner_ok w audit asset → (∀ x, x ∈ ips.*1 → x ∉ blocked → free_for w audit asset x) →
  (∀ x, x ∈ blocked → owner w audit x ≠ None) →
  steps nothing (fun _ w' =>
      (∀ x, x ∈ ips.*1 → owner w' audit x ≠ None) ∧ (∀ x, x ∈ ips.*1 → x ∉ blocked → has_address w' audit asset x) ∧
      w'.(assets) = w.(assets) ∧
      ((∀ x, x ∈ ips.*1 → owner w audit x ≠ None) → dom w'.(addresses) = dom w.(addresses)))
    (upsert_addresses audit asset source now blocked primary ips) w.
Proof.
  revert primary w. induction ips as [|[x fam] ips IH]; intros primary w Hok Hown Hfree Hblocked; cbn [upsert_addresses].
  { apply steps_ret; [done|]. split_and!; try done; by intros x ?%elem_of_nil. }
  rewrite fmap_cons in *. cbn [fst] in *. destruct (str_in x blocked) eqn:Hx.
  - apply str_in_spec in Hx. eapply steps_mono; [apply IH|done|]; [done|done|..|].
    + intros y Hy. apply Hfree. by constructor.
    + done.
    + intros _ w' Hok' Hev' (H1 & H2 & H3 & H4). split_and!; [| |done|].
      * intros y [->|Hy]%elem_of_cons; [|by apply H1]. eapply known_mono; [exact Hok|done..|by apply Hblocked].
      * intros y [->|Hy]%elem_of_cons; [by intros []|by apply H2].
      * intros Hall. apply H4. intros y Hy. apply Hall. by constructor.
  - apply str_in_false in Hx. eapply steps_seq; [by apply steps_upsert_address|].
    intros _ w1 Hok1 Hev1 ([id Hsome] & Hhas & Hkeep & Ha & Hdom).
    assert (has_address w1 audit asset x) as Hx1 by (apply Hhas, Hfree; [constructor|done]).
    eapply steps_mono; [apply IH|done|].
    + done.
    + by eapply owner_ok_mono.
    + intros y Hy Hny. apply Hkeep, Hfree; [by constructor|done].
    + intros y Hy. eapply known_mono; [exact Hok|done..|by apply Hblocked].
    + intros _ w' Hok' Hev' (H1 & H2 & H3 & H4). split_and!; [| |congruence|].
      * intros y [->|Hy]%elem_of_cons; [|by apply H1]. eapply known_mono; [exact Hok1|done..|by eapply owner_known].
      * intros y [->|Hy]%elem_of_cons; [by intros _; eapply has_address_mono|by apply H2].
      * intros Hall. rewrite H4.
        -- apply Hdom, Hall. constructor.
        -- intros y Hy. eapply known_mono; [exact Hok|done..|]. apply Hall. by constructor.
Qed.

(** ** Names *)

Lemma steps_upsert_name audit asset s ty source now w :
  inv_ok w → owner_ok w audit asset →
  steps nothing (fun _ w' =>
      (nonempty (clean_name s) = true → has_name w' asset (clean_name s) ty source) ∧
      ((nonempty (clean_name s) = true → has_name w asset (clean_name s) ty source) → dom w'.(names) = dom w.(names)) ∧
      w'.(assets) = w.(assets) ∧ w'.(addresses) = w.(addresses))
    (_upsert_name audit asset (PStr s) ty source now) w.
Proof.
  intros Hok Hown. unfold _upsert_name. destruct (nonempty (clean_name s)) eqn:Hne; cbn [negb].
  2: { by apply steps_ret. }
  apply steps_bind, steps_reads; [done|].
  destruct (first_row w.(names) (name_is asset (clean_name s) ty source)) as [e|] eqn:He.
  - apply first_row_Some in He as (id & Hid & E). destruct (rows_ok _ _ _ _ _ (names_ok _ Hok) _ _ Hid) as (-> & _).
    eapply steps_put_name; [done|exact Hid|]. split_and!; [| |done|done].
    + intros _. exists id, (e <| name_last_seen := now |>). cbn. by rewrite lookup_insert_eq.
    + intros _. cbn. apply dom_insert_lookup_L. by exists e.
  - apply steps_uuid; [done|]. intros w1 Hok1 (A1 & A2 & A3 & A4 & A5 & A6 & A7 & A8 & A9) _ Hf.
    apply steps_insert_name; [done|done| |by rewrite A7|].
    + destruct Hown as (r & Hr & ?). exists r. by rewrite A5.
    + cbn. rewrite A5, A6. split_and!; [| |done|done].
      * intros _. do 2 eexists. cbn. split; [apply lookup_insert_eq|]. by apply name_is_spec.
      * intros Hhas. destruct (Hhas eq_refl) as (id & row & Hid & Hrow).
        by rewrite (proj1 (first_row_None _ _) He _ _ Hid) in Hrow.
Qed.

(** ** Services *)

(** The fields every observation sets. *)
Definition observed_as (p : NmapPort) (source : string) (now : datetime) (s : ServiceModel) : Prop :=
  s.(srv_state) = p.(np_state) ∧ s.(srv_reason) = p.(np_reason) ∧
  s.(srv_tunnel) = (v ← p.(np_service); v.(svc_tunnel)) ∧ s.(srv_method) = (v ← p.(np_service); v.(svc_method)) ∧
  s.(srv_confidence) = _service_confidence p.(np_service) ∧ s.(srv_source) = source ∧ s.(srv_last_seen) = now.

Lemma merged_observed p source now s : observed_as p source now (merged_service p source now s).
Proof. by destruct s. Qed.

Lemma merged_kept p source now s : service_kept s (merged_service p source now s).
Proof. by destruct s. Qed.

Definition port_of (p : NmapPort) : string * Z := (p.(np_protocol), p.(np_port)).

Lemma steps_upsert_service audit asset p source now w :
  inv_ok w → owner_ok w audit asset →
  steps nothing (fun _ w' =>
      (∃ id s, w'.(services) !! id = Some s ∧ service_is asset p.(np_protocol) p.(np_port) s = true ∧
               observed_as p source now s) ∧
      (∀ id s, w.(services) !! id = Some s → service_is asset p.(np_protocol) p.(np_port) s = false →
               w'.(services) !! id = Some s) ∧
      (has_service w asset p.(np_protocol) p.(np_port) → dom w'.(services) = dom w.(services)) ∧
      dom w'.(assets) = dom w.(assets) ∧ w'.(addresses) = w.(addresses) ∧ w'.(names) = w.(names))
    (_upsert_service audit asset p source now) w.
Proof.
  intros Hok Hown. unfold _upsert_service. apply steps_bind, steps_reads; [done|].
  destruct (first_row w.(services) (service_is asset p.(np_protocol) p.(np_port))) as [e|] eqn:He.
  - apply first_row_Some in He as (id & Hid & Hkey). destruct (rows_ok _ _ _ _ _ (services_ok _ Hok) _ _ Hid) as (-> & _).
    destruct Hown as (a & Ha & Haud). eapply steps_asset_object; [done|exact Ha|].
    destruct (rows_ok _ _ _ _ _ (assets_ok _ Hok) _ _ Ha) as (Hida & _ & _ & Hmeta).
    destruct (merge_service_spec p source now e a.(metadata_json) Hmeta) as (d' & Hmerge & Hd'). rewrite Hmerge.
    cbn [lift_inv]. apply steps_bind, steps_ret; [done|]. cbv iota.
    eapply steps_seq; [eapply (steps_put_service _ (fun _ w' => w' = w <| services := <[id := merged_service p source now e]> w.(services) |>));
                        [done|exact Hid|apply merged_kept|by destruct e|done]|].
    intros _ w1 Hok1 Hev1 ->. apply (steps_update_asset _ _ _ a); [done|done|done|done|done|done|].
    cbn [services assets addresses names]. split_and!; [| | | |done|done].
    + exists id, (merged_service p source now e). cbn. rewrite lookup_insert_eq. split_and!; [done| |apply merged_observed].
      apply service_is_spec in Hkey as (E1 & E2 & E3). by apply service_is_spec; destruct e.
    + intros id2 s2 H2 Hno. cbn. rewrite lookup_insert_ne; [done|]. intros <-. rewrite Hid in H2. injection H2 as <-. congruence.
    + intros _. cbn. apply dom_insert_lookup_L. by exists e.
    + cbn. apply dom_insert_lookup_L. by exists a.
  - apply steps_uuid; [done|]. intros w1 Hok1 (A1 & A2 & A3 & A4 & A5 & A6 & A7 & A8 & A9) _ Hf.
    apply steps_insert_service; [done|done| |by rewrite A8|].
    + destruct Hown as (r & Hr & ?). exists r. by rewrite A5.
    + cbn. rewrite A5, A6, A7. split_and!; try done.
      * do 2 eexists. split; [apply lookup_insert_eq|]. split; [by apply service_is_spec|]. by split_and!.
      * intros id s Hs _. rewrite lookup_insert_ne; [by rewrite A8|]. intros <-.
        pose proof (fresh_service _ _ Hf) as Hfr. rewrite A8 in Hfr. congruence.
      * intros (id & s & Hs & Hkey). by rewrite (proj1 (first_row_None _ _) He _ _ Hs) in Hkey.
Qed.

(** The rows a host leaves for its ports: the last observation of each stands. *)
Lemma steps_upsert_services audit asset source now ps w :
  inv_ok w → owner_ok w audit asset → NoDup (port_of <$> ps) →
  steps nothing (fun _ w' =>
      (∀ p, p ∈ ps → ∃ id s, w'.(services) !! id = Some s ∧ service_is asset p.(np_protocol) p.(np_port) s = true ∧
                     observed_as p source now s) ∧
      (∀ id s, w.(services) !! id = Some s → (∀ p, p ∈ ps → service_is asset p.(np_protocol) p.(np_port) s = false) →
               w'.(services) !! id = Some s))
    (for_each (fun p => _upsert_service audit asset p source now) ps) w.
Proof.
  revert w. induction ps as [|p ps IH]; intros w Hok Hown Hnd; cbn [for_each].
  { apply steps_ret; [done|]. split; [by intros p ?%elem_of_nil|done]. }
  rewrite fmap_cons in Hnd. apply NoDup_cons in Hnd as [Hp Hnd].
  eapply steps_seq; [by apply steps_upsert_service|].
  intros b w1 Hok1 Hev1 ((id & s & Hid & Hkey & Hobs) & Hframe & _).
  eapply steps_seq; [apply IH; [done|by eapply owner_ok_mono|done]|].
  intros bs w2 Hok2 Hev2 (Hall & Hframe2). apply steps_ret; [done|]. split.
  - intros q [->|Hq]%elem_of_cons; [|by apply Hall]. exists id, s. split_and!; [|done|done].
    apply Hframe2; [done|]. intros q Hq. apply not_true_iff_false. rewrite service_is_spec. intros (_ & E1 & E2).
    apply service_is_spec in Hkey as (_ & E3 & E4). destruct Hp. apply list_elem_of_fmap. exists q.
    unfold port_of. split; [congruence|done].
  - intros id' s' Hs' Hno. apply Hframe2; [apply Hframe; [done|apply Hno; constructor]|].
    intros q Hq. apply Hno. by constructor.
Qed.

(** ** OS hint and class *)

Definition only_assets w w' : Prop :=
  dom w'.(assets) = dom w.(assets) ∧ w'.(addresses) = w.(addresses) ∧ w'.(names) = w.(names) ∧ w'.(services) = w.(services).

Lemma steps_update_quiet E id a f w :
  inv_ok w → w.(assets) !! id = Some a → asset_kept a (f a) → asset_id (f a) = asset_id a →
  mac (f a) = mac a → conflicts_listed (metadata_json (f a)) →
  steps E (fun _ => only_assets w) (update_asset id f) w.
Proof.
  intros Hok Ha ? ? ? ?. apply (steps_update_asset _ _ _ a); try done.
  split_and!; [|done..]. cbn. apply dom_insert_lookup_L. by exists a.
Qed.

Lemma adopt_os_ok best h a :
  conflicts_listed a.(metadata_json) →
  asset_kept a (adopt_os best h a) ∧ asset_id (adopt_os best h a) = asset_id a ∧ mac (adopt_os best h a) = mac a ∧
  conflicts_listed (metadata_json (adopt_os best h a)).
Proof.
  intros Hm. destruct a. split_and!; try done. cbn in *.
  destruct (uptime_seconds h), (network_distance h); repeat (apply conflicts_listed_set; [done|]); done.
Qed.

Lemma steps_os_hint audit id h job evidence w :
  inv_ok w → owner_ok w audit id → job_ok w job →
  steps nothing (fun _ => only_assets w) (_apply_os_hint id h job evidence) w.
Proof.
  intros Hok Hown Hj. unfold _apply_os_hint. destruct h.(os_matches) as [|m rest]; [by apply steps_ret|].
  cbv zeta. set (best := best_match m rest). destruct Hown as (a & Ha & Haud).
  eapply steps_asset_object; [done|exact Ha|].
  eapply (steps_seq _ (fun _ => observed_only w)).
  { destruct (truthy_str a.(os_name) && _); [|by apply steps_ret].
    eapply steps_seq; [apply (steps_observe _ (fun _ => observed_only w)); [done|by exists a|done|done]|].
    intros u w1 Hok1 Hev1 Hs. by apply steps_ret. }
  intros keep w1 Hok1 _ (A1 & A2 & A3 & A4 & A5). destruct keep.
  { apply steps_ret; [done|]. unfold only_assets. by rewrite A2, A3, A4, A5. }
  rewrite <- A2 in Ha. destruct (rows_ok _ _ _ _ _ (assets_ok _ Hok1) _ _ Ha) as (_ & _ & _ & Hmeta).
  destruct (adopt_os_ok best h a Hmeta) as (K1 & K2 & K3 & K4).
  eapply steps_mono; [by eapply steps_update_quiet|done|]. intros _ w2 _ _ (B1 & B2 & B3 & B4).
  unfold only_assets. by rewrite B1, B2, B3, B4, A2, A3, A4, A5.
Qed.

Lemma steps_classify audit id w :
  inv_ok w → owner_ok w audit id → steps nothing (fun _ => only_assets w) (_classify_asset id) w.
Proof.
  intros Hok (a & Ha & _). unfold _classify_asset. eapply steps_asset_object; [done|exact Ha|].
  apply steps_bind, steps_reads; [done|]. apply steps_bind, steps_reads; [done|].
  destruct (classify_device _ _ _ _ _ _) as [[hint confidence] sources].
  destruct (rows_ok _ _ _ _ _ (assets_ok _ Hok) _ _ Ha) as (_ & _ & _ & Hmeta).
  eapply steps_update_quiet; [done|exact Ha|by destruct a..|]. destruct a. cbn in *. by apply conflicts_listed_set.
Qed.

Lemma only_assets_owner w w' audit id : evolves w w' → owner_ok w audit id → owner_ok w' audit id.
Proof. apply owner_ok_mono. Qed.

Lemma steps_refresh audit w : inv_ok w → steps nothing (fun _ => only_assets w) (_refresh_classifications audit) w.
Proof.
  intros Hok. unfold _refresh_classifications. apply steps_bind, steps_reads; [done|].
  eapply (steps_seq _ (fun _ => only_assets w)).
  - set (rows := rows_of _ _).
    assert (∀ a, a ∈ rows → owner_ok w audit a.(asset_id)) as Hrows.
    { intros a (id & Hid & Haud%String.eqb_eq)%rows_of_elem.
      destruct (rows_ok _ _ _ _ _ (assets_ok _ Hok) _ _ Hid) as (-> & _). by exists a. }
    clearbody rows. revert w Hok Hrows. induction rows as [|a rows IH]; intros w Hok Hrows; cbn [for_each].
    { by apply steps_ret. }
    eapply steps_seq; [apply (steps_classify audit); [done|apply Hrows; constructor]|].
    intros r w1 Hok1 Hev1 (A1 & A2 & A3 & A4).
    eapply steps_seq; [apply IH; [done|]|].
    { intros b Hb. eapply owner_ok_mono; [done|]. apply Hrows. by constructor. }
    intros rs w2 Hok2 _ (B1 & B2 & B3 & B4). apply steps_ret; [done|].
    unfold only_assets. by rewrite B1, B2, B3, B4, A1, A2, A3, A4.
  - intros u w1 Hok1 Hev1 Hs. by apply steps_ret.
Qed.
End ingest.
