(* ===== verification/InventoryNormalize.v ===== *)
(** * Canonical forms and patterns of the inventory

    Canonical addresses are fixed points, whatever punctuation and case they were
    written in, and an escaped pattern matches exactly the texts that contain it. *)

From S2P Require Import Prelude PyBase PyText JobModels JobStore Ip IpProofs ScopeEngine ScopeProofs Nmap FindModels InventoryBase Inventory InventoryIngest InventoryQueries.

(** ** Hardware addresses *)

Lemma by_chars (p : ascii → bool) :
  forallb (fun n => p (chr (Z.of_nat n))) (seq 0 256) = true → ∀ c, p c = true.
Proof.
  intros Hall c. rewrite forallb_forall in Hall. specialize (Hall (N.to_nat (Ascii.N_of_ascii c))).
  unfold chr in Hall.
  replace (Z.to_N (Z.of_nat (N.to_nat (N_of_ascii c)))) with (N_of_ascii c) in Hall by lia.
  rewrite ascii_N_embedding in Hall. apply Hall. apply in_seq. pose proof (N_ascii_bounded c). lia.
Qed.

Lemma upper_hex c : is_hex_char c = true → is_hex_char (upper_char c) = true ∧ upper_char (upper_char c) = upper_char c ∧
  Ascii.eqb (upper_char c) colon = false.
Proof.
  intros Hc. pose proof (by_chars (fun c => negb (is_hex_char c) || (is_hex_char (upper_char c) &&
    Ascii.eqb (upper_char (upper_char c)) (upper_char c) && negb (Ascii.eqb (upper_char c) colon)))
    ltac:(vm_compute; reflexivity) c) as H.
  cbv beta in H. rewrite Hc in H. cbn in H. rewrite !andb_true_iff, Ascii.eqb_eq, negb_true_iff in H. tauto.
Qed.

Lemma hex_chars_all s : str_all is_hex_char (hex_chars s) = true.
Proof. induction s as [|c s IH]; [done|]. cbn. destruct (is_hex_char c) eqn:Hc; [|done]. cbn. by rewrite Hc. Qed.

(** Two digits at a time. *)
Lemma hex_pairs_spec n h :
  str_all is_hex_char h = true → String.length h = (2 * n)%nat →
  String.length (join ":" (hex_pairs n h)) = (3 * n - 1)%nat ∧
  hex_chars (join ":" (hex_pairs n h)) = upper h ∧ hex_pairs n (upper h) = hex_pairs n h.
Proof.
  revert h. induction n as [|n IH]; intros h Hall Hlen.
  { destruct h; [done|cbn in Hlen; lia]. }
  destruct h as [|a [|b h]]; [cbn in Hlen; lia..|]. cbn [str_all] in Hall.
  apply andb_true_iff in Hall as [Ha Hall]. apply andb_true_iff in Hall as [Hb Hall].
  destruct (upper_hex _ Ha) as (A1 & A2 & A3), (upper_hex _ Hb) as (B1 & B2 & B3).
  destruct (IH h Hall) as (I1 & I2 & I3); [cbn in Hlen; lia|].
  assert (hex_pairs (S n) (upper (String a (String b h))) = hex_pairs (S n) (String a (String b h))) as E3.
  { unfold upper in *. cbn [hex_pairs str_map]. unfold upper. cbn [str_map]. by rewrite A2, B2, I3. }
  destruct n as [|n].
  { destruct h; [|cbn in Hlen; lia]. split_and!; [done| |exact E3].
    change (hex_chars (String (upper_char a) (String (upper_char b) "")) = String (upper_char a) (String (upper_char b) "")).
    cbn [hex_chars]. by rewrite A1, B1. }
  assert (join ":" (hex_pairs (S (S n)) (String a (String b h))) =
    String (upper_char a) (String (upper_char b) (String colon (join ":" (hex_pairs (S n) h))))) as ->.
  { destruct h as [|c [|d h]]; [cbn in Hlen; lia..|]. reflexivity. }
  split_and!; [| |exact E3].
  - cbn [String.length]. rewrite I1. lia.
  - cbn [hex_chars]. rewrite A1, B1, I2. reflexivity.
Qed.

Lemma canonical_mac_length v m : canonical_mac v = Some m → String.length m = 17%nat.
Proof.
  destruct v as [[|c s]|]; [done| |done]. unfold canonical_mac. cbv zeta.
  pose proof (hex_chars_all (String c s)) as Hall. generalize dependent (hex_chars (String c s)). intros h Hall.
  destruct (Nat.eqb_spec (String.length h) 12) as [Hlen|]; [|done]. intros Hm.
  assert (m = join ":" (hex_pairs 6 h)) as -> by congruence.
  by destruct (hex_pairs_spec 6 _ Hall Hlen) as (-> & _).
Qed.

Lemma canonical_mac_nonempty v : canonical_mac v ≠ Some "".
Proof. intros Hm. by apply canonical_mac_length in Hm. Qed.

(** The canonical text of a hardware address is its own canonical text. *)
Lemma canonical_mac_idem v m : canonical_mac v = Some m → canonical_mac (Some m) = Some m.
Proof.
  intros Hm. pose proof (canonical_mac_length _ _ Hm) as Hl.
  destruct v as [[|c s]|]; [done| |done]. unfold canonical_mac in Hm. cbv zeta in Hm.
  pose proof (hex_chars_all (String c s)) as Hall. generalize dependent (hex_chars (String c s)). intros h Hm Hall.
  destruct (Nat.eqb_spec (String.length h) 12) as [Hlen|]; [|done].
  destruct (hex_pairs_spec 6 _ Hall Hlen) as (_ & H2 & H3). assert (join ":" (hex_pairs 6 h) = m) as Hm' by congruence. clear Hm.
  rename Hm' into Hm. rewrite Hm in H2.
  assert (canonical_mac (Some m) = if (String.length (hex_chars m) =? 12)%nat then Some (join ":" (hex_pairs 6 (hex_chars m))) else None) as ->.
  { destruct m; [discriminate|done]. }
  rewrite H2, H3, Hm. assert (String.length (upper h) = 12%nat) as ->; [|done].
  rewrite <- Hlen. unfold upper. clear. induction h as [|x t IH]; cbn; [done|]. by rewrite IH.
Qed.

(** ** Internet addresses *)

Lemma rstrip_idem p s : rstrip_by p (rstrip_by p s) = rstrip_by p s.
Proof.
  induction s as [|c s IH]; [done|]. cbn. destruct (rstrip_by p s) as [|d t].
  - destruct (p c) eqn:Hc; cbn; by rewrite ?Hc.
  - change (rstrip_by p (String c (String d t))) with
      (match rstrip_by p (String d t) with "" => if p c then "" else String c "" | t => String c t end). by rewrite IH.
Qed.

Lemma rstrip_app p a z : nonempty z = true → rstrip_by p z = z ↔ rstrip_by p (a +:+ z) = a +:+ z.
Proof.
  intros Hz. induction a as [|c a IH]; [done|]. rewrite app_cons_string. cbn [rstrip_by]. rewrite IH.
  assert (a +:+ z ≠ "") as Hne by (destruct a, z; done). split.
  - intros ->. by destruct (a +:+ z).
  - destruct (rstrip_by p (a +:+ z)) as [|d t]; [|congruence].
    destruct (p c); [done|]. by intros [= <-].
Qed.

Lemma lstrip_id p s : (match s with String c _ => p c = false | "" => True end) → lstrip_by p s = s.
Proof. destruct s as [|c s]; [done|]. intros Hc. cbn. by rewrite Hc. Qed.

(** The zone of an address read off a text is the end of the text. *)
Lemma ip_address_zone s a z : ip_address s = Return a → a.(scope_id) = Some z → nonempty z = true ∧ ∃ b, s = b +:+ z.
Proof.
  intros [Ha|[_ Ha]]%first_version_inv Hz.
  { apply ipv4_address_ok in Ha as [[(_ & _ & E)|(E & _)] Hv]; congruence. }
  unfold IPv6Address in Ha. destruct (has_char slash s); [done|].
  apply outcome_bind_inv in Ha as ([addr zone] & Hsplit & Ha). apply outcome_bind_inv in Ha as (n & _ & [= <-]).
  cbn in Hz. subst zone. unfold _split_scope_id in Hsplit. pose proof (split_once_spec percent s) as Hspec.
  destruct (split_once percent s) as [x [y|]]; [|by injection Hsplit]. destruct (nonempty y) eqn:Hne; [|done].
  destruct (has_char percent y); [done|]. injection Hsplit as <- <-. destruct Hspec as [-> _]. split; [done|].
  exists (x +:+ String percent ""). by rewrite app_assoc_string.
Qed.

(** The text of an address read off stripped text needs no stripping. *)
Lemma strip_ip_str s a : ip_address (strip s) = Return a → strip (ip_str a) = ip_str a.
Proof.
  intros Ha. pose proof (ip_address_ok _ _ Ha) as Hok.
  assert (∀ t, str_all addr_char t = true → str_all (fun c => negb (is_space c)) t = true) as Hsp.
  { intros t. apply str_all_mono. intros c Hc. apply addr_char_not_space. by rewrite Hc. }
  destruct a.(scope_id) as [z|] eqn:Hz; [|by apply strip_no_space, Hsp, plain_str_chars].
  destruct (ip_address_zone _ _ _ Ha Hz) as (Hne & b & Hs).
  assert (rstrip_by is_space z = z) as Hr.
  { apply (rstrip_app _ b z Hne). rewrite <- Hs. unfold strip. apply rstrip_idem. }
  destruct Hok as [(_ & _ & E)|(Hv & Hn & Hzone)]; [congruence|]. rewrite ip_str_zone, Hz by done.
  set (text := ipv6_to_string a.(ip_int)).
  assert (text +:+ String percent z = (text +:+ String percent "") +:+ z) as -> by by rewrite app_assoc_string.
  unfold strip. rewrite lstrip_id.
  - by apply rstrip_app.
  - pose proof (Hsp _ (ipv6_chars a.(ip_int))) as Ht. fold text in Ht. destruct text as [|c t]; [done|].
    cbn in Ht |- *. apply andb_true_iff in Ht as [Hc _]. by apply negb_true_iff.
Qed.

(** Canonical text is canonical, whatever spelling it came from. *)
Lemma canonical_ip_idem s t v : canonical_ip s = Some (t, v) → canonical_ip t = Some (t, v).
Proof.
  unfold canonical_ip. destruct (ip_address (strip s)) as [a|] eqn:Ha; [|done]. intros [= <- <-].
  by rewrite (strip_ip_str _ _ Ha), parse_ip_str by by eapply ip_address_ok.
Qed.

Lemma canonical_ip_family s t v : canonical_ip s = Some (t, v) → v = 4 ∨ v = 6.
Proof.
  unfold canonical_ip. destruct (ip_address (strip s)) as [a|] eqn:Ha; [|done]. intros [= <- <-].
  apply ip_address_ok in Ha as [(-> & _)|(-> & _)]; auto.
Qed.

(** ** Escaped patterns match what contains the value ([escape_like], [ilike])

    The three characters LIKE treats specially are taken literally once escaped, so a
    filter of the inventory is plain containment, whatever the user typed. *)

(** *** Code points of a concatenation *)

Lemma cont_head_app a b : a ≠ "" → cont_head (a +:+ b) = cont_head a.
Proof. by destruct a. Qed.

Lemma chars_app a b : cont_head b = false → chars (a +:+ b) = chars a ++ chars b.
Proof.
  intros Hb. induction a as [|c a IH]; [done|]. rewrite app_cons_string. cbn [chars]. rewrite IH.
  destruct a as [|d a]; [change ("" +:+ b) with b; rewrite Hb; by destruct (chars b)|].
  pose proof (concat_chars (String d a)) as Hne. rewrite cont_head_app by done.
  destruct (chars (String d a)) as [|h t]; [done|]. cbn [app]. by destruct (cont_head (String d a)).
Qed.

(** *** Escaping *)

Definition special (c : ascii) : bool := Ascii.eqb c percent || Ascii.eqb c underscore || Ascii.eqb c backslash.

Definition escaped (c : ascii) : string :=
  if special c then String backslash (String c EmptyString) else String c EmptyString.

Lemma flat_map_app_string f a b : str_flat_map f (a +:+ b) = str_flat_map f a +:+ str_flat_map f b.
Proof.
  induction a as [|c a IH]; [done|]. rewrite app_cons_string. cbn. by rewrite IH, app_assoc_string.
Qed.

Lemma escape_like_map s : escape_like s = str_flat_map escaped s.
Proof.
  unfold escape_like, escape_char. induction s as [|c s IH]; [done|]. cbn [str_flat_map].
  rewrite !flat_map_app_string, IH. f_equal.
  pose proof (by_chars (fun c => String.eqb (escape_char underscore (escape_char percent (escape_char backslash (String c ""))))
    (escaped c)) ltac:(vm_compute; reflexivity) c) as H.
  apply String.eqb_eq in H. rewrite <- H. unfold escape_char. cbn [str_flat_map]. by rewrite app_nil_string.
Qed.

Lemma lower_app a b : lower (a +:+ b) = lower a +:+ lower b.
Proof. induction a as [|c a IH]; [done|]. rewrite app_cons_string. unfold lower in *. cbn [str_map]. by rewrite IH. Qed.

Lemma lower_escaped s : lower (str_flat_map escaped s) = str_flat_map escaped (lower s).
Proof.
  induction s as [|c s IH]; [done|]. cbn [str_flat_map]. rewrite lower_app, IH. unfold lower at 3. cbn [str_map str_flat_map].
  f_equal.
  pose proof (by_chars (fun c => String.eqb (lower (escaped c)) (escaped (lower_char c))) ltac:(vm_compute; reflexivity) c) as H.
  by apply String.eqb_eq.
Qed.

Lemma special_not_cont c : special c = true → is_continuation c = false.
Proof.
  intros Hc. pose proof (by_chars (fun c => negb (special c) || negb (is_continuation c)) ltac:(vm_compute; reflexivity) c) as H.
  cbv beta in H. rewrite Hc in H. by apply negb_true_iff.
Qed.

(** An escaped code point: two pattern characters when it is special. *)
Definition escaped_point (x : string) : list string :=
  match x with
  | String c _ => if special c then [String backslash EmptyString; x] else [x]
  | EmptyString => [x]
  end.

Lemma cont_head_escaped s : cont_head (str_flat_map escaped s) = cont_head s.
Proof.
  destruct s as [|c s]; [done|]. cbn. unfold escaped. destruct (special c) eqn:Hc; cbn; [|done].
  by rewrite (special_not_cont _ Hc).
Qed.

Lemma chars_head s h t : chars s = h :: t → ∃ c r r', h = String c r ∧ s = String c r'.
Proof.
  destruct s as [|c s]; [done|]. cbn. destruct (chars s) as [|h' t']; [intros [= <- <-]; by eexists c, _, _|].
  destruct (cont_head s); intros [= <- <-]; by eexists c, _, _.
Qed.

Lemma chars_cons c s : chars (String c s) =
  match chars s with
  | h :: t => if cont_head s then String c h :: t else String c EmptyString :: h :: t
  | [] => [String c EmptyString]
  end.
Proof. done. Qed.

Lemma chars_escaped s : chars (str_flat_map escaped s) = flat_map escaped_point (chars s).
Proof.
  induction s as [|c s IH]; [done|]. cbn [str_flat_map].
  assert (chars (String c (str_flat_map escaped s)) =
    match chars s with
    | h :: t => if cont_head s then String c h :: flat_map escaped_point t
                else String c EmptyString :: flat_map escaped_point (h :: t)
    | [] => [String c EmptyString]
    end) as Hc.
  { rewrite chars_cons, IH, cont_head_escaped. destruct (chars s) as [|h t] eqn:Hs; [done|]. cbn [flat_map].
    destruct (chars_head _ _ _ Hs) as (d & r & r' & -> & ->). cbn [cont_head escaped_point].
    destruct (special d) eqn:Hd; [by rewrite (special_not_cont _ Hd)|]. done. }
  assert (chars (String c s) = match chars s with
    | h :: t => if cont_head s then String c h :: t else String c EmptyString :: h :: t | [] => [String c EmptyString] end) as Hp
    by apply chars_cons.
  unfold escaped at 1. destruct (special c) eqn:Hsp.
  - rewrite !app_cons_string. change ("" +:+ str_flat_map escaped s) with (str_flat_map escaped s).
    rewrite (chars_cons backslash), Hc, Hp. assert (cont_head (String c (str_flat_map escaped s)) = false) as ->
      by (cbn; by apply special_not_cont).
    destruct (chars s) as [|h t]; [cbn; by rewrite Hsp|]. destruct (cont_head s); cbn; by rewrite Hsp.
  - rewrite app_cons_string. change ("" +:+ str_flat_map escaped s) with (str_flat_map escaped s). rewrite Hc, Hp.
    destruct (chars s) as [|h t]; [cbn; by rewrite Hsp|]. destruct (cont_head s); cbn; by rewrite Hsp.
Qed.

(** *** Matching *)

Lemma any_suffix_spec k s : any_suffix k s = true ↔ ∃ pre post, s = pre ++ post ∧ k post = true.
Proof.
  induction s as [|c s IHk]; cbn; rewrite orb_true_iff.
  - split; [intros [Hk|]; [by exists [], []|done]|]. intros ([|] & post & [=] & Hk). subst. by left.
  - rewrite IHk. split.
    + intros [Hk|(pre & post & -> & Hk)]; [by exists [], (c :: s)|by exists (c :: pre), post].
    + intros ([|d pre] & post & E & Hk); [cbn in E; subst; by left|]. injection E as -> ->. right. by exists pre, post.
Qed.

(** A special character only matches specially when it stands alone. *)
Lemma like_match_literal x pattern text :
  x ≠ "" → like_match (escaped_point x ++ pattern) text =
    match text with c :: text' => String.eqb x c && like_match pattern text' | [] => false end.
Proof.
  intros Hx. destruct x as [|c r]; [done|]. unfold escaped_point. destruct (special c) eqn:Hc; [done|].
  cbn [app like_match].
  assert (∀ d, special d = true → String.eqb (String c r) (String d EmptyString) = false) as Hno.
  { intros d Hd. apply String.eqb_neq. intros [= -> _]. congruence. }
  by rewrite !Hno.
Qed.

Lemma like_match_prefix l text :
  (∀ x, x ∈ l → x ≠ "") →
  like_match (flat_map escaped_point l ++ ["%"]) text = true ↔ ∃ post, text = l ++ post.
Proof.
  revert text. induction l as [|x l IH]; intros text Hne; cbn [flat_map].
  - change (any_suffix (like_match []) text = true ↔ ∃ post, text = post). rewrite any_suffix_spec.
    split; [by exists text|]. intros _. exists text, []. by rewrite app_nil_r.
  - rewrite <- app_assoc, like_match_literal by (apply Hne; constructor). destruct text as [|c text].
    + split; [done|by intros (post & [=])].
    + rewrite andb_true_iff, String.eqb_eq, IH by (intros y Hy; apply Hne; by constructor).
      split; [intros [-> (post & ->)]; by exists post|]. intros (post & [= -> ->]). split; [done|by exists post].
Qed.

(** The text contains the value, code point by code point, whatever the case. *)
Definition contains_text (text value : string) : Prop :=
  ∃ pre post, chars (lower text) = pre ++ chars (lower value) ++ post.

Lemma ilike_spec text value :
  cont_head value = false → ilike (Some text) value = true ↔ contains_text text value.
Proof.
  intros Hv. unfold ilike.
  assert (cont_head (lower value) = false) as Hlv.
  { destruct value as [|c s]; [done|]. cbn in *.
    pose proof (by_chars (fun c => Bool.eqb (is_continuation (lower_char c)) (is_continuation c)) ltac:(vm_compute; reflexivity) c) as H.
    by apply Bool.eqb_prop in H as ->. }
  rewrite !lower_app, escape_like_map, lower_escaped.
  change (lower "%") with "%".
  assert (chars ("%" +:+ str_flat_map escaped (lower value) +:+ "%") =
    "%" :: (flat_map escaped_point (chars (lower value)) ++ ["%"])) as Hpat.
  { rewrite (chars_app "%"); [|].
    - rewrite (chars_app _ "%"), chars_escaped by done. done.
    - destruct (lower value) as [|c s] eqn:E; [done|]. rewrite cont_head_app; [by rewrite cont_head_escaped|].
      cbn. unfold escaped. by destruct (special c). }
  rewrite Hpat. change (any_suffix (like_match (flat_map escaped_point (chars (lower value)) ++ ["%"])) (chars (lower text)) = true ↔ contains_text text value).
  rewrite any_suffix_spec. unfold contains_text. split.
  - intros (pre & post & E & (rest & ->)%like_match_prefix); [|by intros x; apply chars_nonempty]. by exists pre, rest.
  - intros (pre & post & E). exists pre, (chars (lower value) ++ post). split; [done|].
    apply like_match_prefix; [by intros x; apply chars_nonempty|by exists post].
Qed.
