(* ===== verification/InventoryHostProofs.v ===== *)
(** * Ingesting a whole host or observation *)

From S2P Require Import Prelude PyBase PyText JobModels JobStore ScopeEngine Nmap FindModels InventoryBase Inventory InventoryIngest InventoryQueries InventoryInvariant InventoryCorrelate InventoryProofs InventoryNormalize.

Section host.
Context `{Runtime, !RuntimeOk}.
Context (vendors : OuiResolver).
Implicit Types (w : InvWorld).

Definition only_asset_rows w w' : Prop :=
  w'.(addresses) = w.(addresses) ∧ w'.(names) = w.(names) ∧ w'.(services) = w.(services).

(** ** The asset *)

Lemma new_asset_ok w audit id state m named now :
  audit ∈ w.(audit_ids) → m ≠ Some "" → asset_row_ok w.(audit_ids) (new_asset vendors id audit state m named now).
Proof. intros Ha Hm. split_and!; [done..|apply conflicts_listed_empty]. Qed.

(** A new asset, of a hardware address nobody has. *)
Lemma steps_create_asset audit state m named now w :
  inv_ok w → audit ∈ w.(audit_ids) → m ≠ Some "" → by_mac w audit m = None →
  steps nothing (fun id w' => owner_ok w' audit id ∧ only_asset_rows w w' ∧ w.(assets) !! id = None ∧
                              (is_Some m → by_mac w' audit m ≠ None))
    (id ← inv_uuid; _ ← insert_asset (new_asset vendors id audit state m named now); mret id) w.
Proof.
  intros Hok Haud Hm Hfree. apply steps_uuid; [done|].
  intros w1 Hok1 (A1 & A2 & A3 & A4 & A5 & A6 & A7 & A8 & A9) _ Hf.
  set (a := new_asset vendors _ audit state m named now).
  eapply (steps_seq _ (fun _ w' => w' = w1 <| assets := <[a.(asset_id) := a]> w1.(assets) |>)).
  - apply steps_insert_asset; [done|done|apply new_asset_ok; [by rewrite A1|done]| |done].
    intros x id' a' Hx Ha' Haud'. cbn in Hx, Haud'. subst m. rewrite A5 in Ha'.
    eapply (by_mac_None w audit x); [done..|by intros ->|exact Ha'|done].
  - intros [] w2 Hok2 _ ->. apply steps_ret; [done|]. split_and!.
    + exists a. cbn. by rewrite lookup_insert_eq.
    + unfold only_asset_rows. cbn. by rewrite A6, A7, A8.
    + rewrite <- A5. apply Hf.
    + intros Hsome. assert (by_mac (w1 <| assets := <[a.(asset_id) := a]> w1.(assets) |>) audit m = Some a) as ->; [|done].
      apply by_mac_Some; [done|]. cbn. by rewrite lookup_insert_eq.
Qed.

Lemma steps_touch id a now state w :
  inv_ok w → w.(assets) !! id = Some a →
  steps nothing (fun _ w' => only_assets w w' ∧ ∃ a', w'.(assets) !! id = Some a' ∧ a'.(mac) = a.(mac) ∧ a'.(asset_audit_id) = a.(asset_audit_id))
    (touch_asset id now state) w.
Proof.
  intros Hok Ha. destruct (rows_ok _ _ _ _ _ (assets_ok _ Hok) _ _ Ha) as (_ & _ & _ & Hmeta).
  apply (steps_update_asset _ _ _ a); [done|done|by destruct a..|].
  split.
  - split_and!; [|done..]. cbn. apply dom_insert_lookup_L. by exists a.
  - eexists. cbn. rewrite lookup_insert_eq. split_and!; [done|by destruct a..].
Qed.

Lemma only_assets_trans w1 w2 w3 : only_assets w1 w2 → only_assets w2 w3 → only_assets w1 w3.
Proof. unfold only_assets. intros (-> & -> & -> & ->) (-> & -> & -> & ->). done. Qed.

Lemma steps_adopt_mac audit id a m w :
  inv_ok w → w.(assets) !! id = Some a → a.(mac) = None → a.(asset_audit_id) = audit → m ≠ "" →
  steps nothing (fun _ => only_assets w) (adopt_mac vendors audit id m) w.
Proof.
  intros Hok Ha Hmac Haud Hm. unfold adopt_mac.
  destruct (rows_ok _ _ _ _ _ (assets_ok _ Hok) _ _ Ha) as (Hid & _).
  eapply (steps_seq _ (fun o w' => o = by_mac w audit (Some m) ∧ w' = w)).
  { destruct m as [|c s]; [done|]. by apply steps_reads. }
  intros o w' _ _ [-> ->]. destruct (by_mac w audit (Some m)) as [o|] eqn:Hby.
  { apply by_mac_Some in Hby as (Ho & Hoaud & Homac & _); [|done].
    destruct (String.eqb_spec o.(asset_id) id) as [E|]; [|by apply steps_ret]. rewrite E, Ha in Ho. congruence. }
  subst audit. eapply (steps_seq _ (fun _ w' => w' = w <| assets := <[id := a <| mac := Some m |>]> w.(assets) |>)).
  { apply steps_set_mac; try done. by apply by_mac_None. }
  intros _ w1 Hok1 _ ->. set (a1 := a <| mac := Some m |>).
  assert ((w <| assets := <[id := a1]> w.(assets) |>).(assets) !! id = Some a1) as Ha1 by (cbn; by rewrite lookup_insert_eq).
  eapply steps_asset_object; [done|exact Ha1|].
  assert (only_assets w (w <| assets := <[id := a1]> w.(assets) |>)) as Honly.
  { split_and!; [|done..]. cbn. apply dom_insert_lookup_L. by exists a. }
  destruct (truthy_str _ && _); [|by apply steps_ret].
  destruct (rows_ok _ _ _ _ _ (assets_ok _ Hok1) _ _ Ha1) as (_ & _ & _ & Hmeta).
  eapply steps_mono; [eapply steps_update_quiet; [done|exact Ha1|by destruct a..|by destruct a]|done|].
  intros u w2 Hok2 Hev2 H2. by eapply only_assets_trans.
Qed.

(** What the choice of an asset guarantees. *)
Lemma chosen_row w audit m ips a : inv_ok w → chosen w audit m ips = Some a → w.(assets) !! a.(asset_id) = Some a ∧ a.(asset_audit_id) = audit.
Proof.
  intros Hok. unfold chosen, first_owner. destruct (by_mac w audit m) as [b|] eqn:Hb.
  - intros [= <-]. apply by_mac_Some in Hb as (? & ? & _); done.
  - intros Ha%head_Some_elem_of. apply list_elem_of_omap in Ha as (x & _ & Hx).
    split; [by apply owner_Some in Hx as [? _]|by eapply owner_audit].
Qed.

Lemma chosen_None w audit m ips : chosen w audit m ips = None ↔ by_mac w audit m = None ∧ ∀ x, x ∈ ips.*1 → owner w audit x = None.
Proof.
  unfold chosen, first_owner. destruct (by_mac w audit m) as [b|]; [naive_solver|].
  split.
  - intros Hn. split; [done|]. intros x ([y fam] & -> & Hin)%list_elem_of_fmap. cbn.
    destruct (owner w audit y) as [a|] eqn:Ho; [|done].
    assert (a ∈ omap (fun x => owner w audit x.1) ips) as Ha by (apply list_elem_of_omap; by exists (y, fam)).
    destruct (omap _ ips); [by apply elem_of_nil in Ha|done].
  - intros [_ Hall]. destruct (omap _ ips) as [|a l] eqn:Ho; [done|]. exfalso.
    assert (a ∈ omap (fun x => owner w audit x.1) ips) as Ha by (rewrite Ho; constructor).
    apply list_elem_of_omap in Ha as ([y fam] & Hin & Hy). cbn in Hy.
    rewrite Hall in Hy; [done|]. apply list_elem_of_fmap. by exists (y, fam).
Qed.

Lemma chosen_same w w' audit m ips : same_rows w w' → chosen w' audit m ips = chosen w audit m ips.
Proof.
  intros (A1 & A2 & A3 & A4 & A5 & A6 & A7 & A8 & A9). unfold chosen, first_owner, by_mac, owner. by rewrite A5, A6.
Qed.

Lemma chosen_mono w w' audit m ips :
  inv_ok w → inv_ok w' → evolves w w' → chosen w audit m ips ≠ None → chosen w' audit m ips ≠ None.
Proof.
  intros Hok Hok' Hev Hc. destruct (chosen w' audit m ips) as [|] eqn:Hc'; [done|].
  apply chosen_None in Hc' as [Hm Hx]. destruct Hc. apply chosen_None. split.
  - destruct (by_mac w audit m) as [a|] eqn:Ha; [|done]. apply by_mac_Some in Ha as (Ha & E1 & E2 & E3); [|done].
    destruct (assets_evolve _ _ Hev _ _ Ha) as (a' & Ha' & K1 & _ & K3).
    destruct (rows_ok _ _ _ _ _ (assets_ok _ Hok') _ _ Ha') as (Hid & _).
    assert (by_mac w' audit m = Some a') as E; [|congruence]. apply by_mac_Some; [done|]. rewrite Hid.
    split_and!; [done|congruence| |done]. rewrite K3; [done|]. by rewrite E2.
  - intros x Hin. destruct (owner w audit x) eqn:Ho; [|done]. destruct (known_mono w w' audit x Hok Hok' Hev); [congruence|by apply Hx].
Qed.

(** Both ways to the asset: created, or brought up to date. *)
Definition asset_post w audit m (found : option AssetModel) (id : string) w' : Prop :=
  owner_ok w' audit id ∧ only_asset_rows w w' ∧
  match found with
  | Some a => id = a.(asset_id) ∧ dom w'.(assets) = dom w.(assets)
  | None => w.(assets) !! id = None ∧ (is_Some m → by_mac w' audit m ≠ None)
  end.

Lemma steps_identity_asset audit state m now ips w :
  inv_ok w → audit ∈ w.(audit_ids) → m ≠ Some "" →
  steps nothing (asset_post w audit m (chosen w audit m ips))
    (identity_asset vendors audit state m now (chosen w audit m ips)) w.
Proof.
  intros Hok Haud Hm. unfold identity_asset, asset_post. destruct (chosen w audit m ips) as [a|] eqn:Hc.
  - apply chosen_row in Hc as [Ha Haa]; [|done].
    eapply steps_seq; [by apply (steps_touch _ a)|]. intros _ w1 Hok1 Hev1 [Hs1 (a1 & Ha1 & Hmac1 & Haud1)].
    eapply (steps_seq _ (fun _ => only_assets w)).
    + destruct m as [observed|]; [|by apply steps_ret]. destruct a.(mac) eqn:Hamac; [by apply steps_ret|].
      eapply steps_mono; [eapply (steps_adopt_mac _ _ a1); [done|done|congruence|congruence|congruence]|done|].
      intros u w2 Hok2 Hev2 H2. by eapply only_assets_trans.
    + intros _ w2 Hok2 Hev2 (B1 & B2 & B3 & B4). apply steps_ret; [done|]. split_and!; try done.
      eapply owner_ok_mono; [exact Hev2|]. exists a1. split; [done|congruence].
  - apply chosen_None in Hc as [Hby _].
    eapply steps_mono; [by apply steps_create_asset|done|]. naive_solver.
Qed.

Lemma steps_host_asset audit job h source evidence m now ips w :
  inv_ok w → audit ∈ w.(audit_ids) → m ≠ Some "" → job_ok w job →
  steps nothing (asset_post w audit m (chosen w audit m ips))
    (host_asset vendors audit job h source evidence m now (chosen w audit m ips)) w.
Proof.
  intros Hok Haud Hm Hj. unfold host_asset, asset_post. cbv zeta. destruct (chosen w audit m ips) as [a|] eqn:Hc.
  - apply chosen_row in Hc as [Ha Haa]; [|done].
    eapply steps_seq; [by apply (steps_touch _ a)|]. intros _ w1 Hok1 Hev1 [Hs1 (a1 & Ha1 & Hmac1 & Haud1)].
    eapply (steps_seq _ (fun _ => only_assets w)).
    + destruct m as [observed|]; [|by apply steps_ret]. destruct a.(mac) as [existing|] eqn:Hamac.
      * destruct (nonempty existing && _); [|by apply steps_ret].
        apply steps_observe; [done|exists a1; split; [done|congruence]|by intros j Hjob; rewrite (same_jobs _ _ Hev1); apply Hj|].
        intros w2 (A1 & A2 & A3 & A4 & A5). eapply only_assets_trans; [exact Hs1|].
        unfold only_assets. by rewrite A2, A3, A4, A5.
      * eapply steps_mono; [eapply (steps_adopt_mac _ _ a1); [done|done|congruence|congruence|congruence]|done|].
        intros u w2 Hok2 Hev2 H2. by eapply only_assets_trans.
    + intros _ w2 Hok2 Hev2 (B1 & B2 & B3 & B4). apply steps_ret; [done|]. split_and!; try done.
      eapply owner_ok_mono; [exact Hev2|]. exists a1. split; [done|congruence].
  - apply chosen_None in Hc as [Hby _].
    eapply steps_mono; [by apply steps_create_asset|done|]. naive_solver.
Qed.

(** ** One passive observation *)

Lemma steps_correlate {A} E (P : A → InvWorld → Prop) audit m ips (k : option AssetModel * dict → IM A) w :
  inv_ok w →
  (∀ conflict, blocked_addresses conflict = match chosen w audit m ips with
                                            | Some a => blocked w audit ips a.(asset_id) | None => [] end →
     steps E P (k (chosen w audit m ips, conflict)) w) →
  steps E P (_correlate audit m ips ≫= k) w.
Proof.
  intros Hok Hk. destruct (correlate_run w audit m ips Hok) as (conflict & Hrun & Hb & _).
  apply steps_bind. unfold steps at 1, wp. rewrite Hrun. cbn. split_and!; [done|done|by apply Hk].
Qed.

Lemma steps_observe_conflict audit id job source evidence conflict w :
  inv_ok w → owner_ok w audit id → job_ok w job →
  steps nothing (fun _ => observed_only w) (observe_conflict audit id job source evidence conflict) w.
Proof.
  intros Hok Hown Hj. unfold observe_conflict. destruct conflict; [by apply steps_ret|]. by apply steps_observe.
Qed.

(** The ids of assets and addresses stay. *)
Definition keeps_ids w w' : Prop := dom w'.(assets) = dom w.(assets) ∧ dom w'.(addresses) = dom w.(addresses).

#[export] Instance keeps_ids_preorder : PreOrder keeps_ids.
Proof. split; [done|]. intros a b c [E1 E2] [E3 E4]. split; congruence. Qed.

Lemma only_assets_ids w w' : only_assets w w' → keeps_ids w w'.
Proof. intros (E1 & E2 & _). split; [done|by rewrite E2]. Qed.

Lemma observed_only_ids w w' : observed_only w w' → keeps_ids w w'.
Proof. intros (E1 & E2 & E3 & _). split; congruence. Qed.

(** The choice, and what an ingested identity leaves. *)
Definition ingested w audit m (ips : list (string * Z)) (id : string) w' : Prop :=
  owner_ok w' audit id ∧
  (match chosen w audit m ips with Some a => id = a.(asset_id) | None => w.(assets) !! id = None end) ∧
  (∀ x, x ∈ ips.*1 → owner w' audit x ≠ None) ∧
  (∀ x, x ∈ ips.*1 → (∀ a, owner w audit x = Some a → a.(asset_id) = id) → has_address w' audit id x) ∧
  (is_Some m ∨ ips ≠ [] → chosen w' audit m ips ≠ None) ∧
  (chosen w audit m ips ≠ None → (∀ x, x ∈ ips.*1 → owner w audit x ≠ None) → keeps_ids w w').

Lemma ingested_later w w1 w2 audit m ips id :
  inv_ok w1 → inv_ok w2 → evolves w1 w2 → keeps_ids w1 w2 → ingested w audit m ips id w1 → ingested w audit m ips id w2.
Proof.
  intros Hok1 Hok2 Hev Hids (H1 & H2 & H3 & H4 & H5 & H6). split_and!.
  - by eapply owner_ok_mono.
  - done.
  - intros x Hx. eapply known_mono; [exact Hok1|done..|by apply H3].
  - intros x Hx Hfree. eapply has_address_mono; [done|by apply H4].
  - intros Hm. eapply chosen_mono; [exact Hok1|done..|by apply H5].
  - intros Hc Hx. etrans; [by apply H6|done].
Qed.

(** Not blocked, not another's. *)
Lemma unblocked_free w audit m ips conflict x id :
  inv_ok w →
  blocked_addresses conflict = match chosen w audit m ips with
                               | Some a => blocked w audit ips a.(asset_id) | None => [] end →
  (match chosen w audit m ips with Some a => id = a.(asset_id) | None => True end) →
  x ∈ ips.*1 →
  (x ∉ blocked_addresses conflict ↔ ∀ a, owner w audit x = Some a → a.(asset_id) = id).
Proof.
  intros Hok Hb Hid Hx. rewrite Hb. destruct (chosen w audit m ips) as [a|] eqn:Hc.
  - subst id. rewrite blocked_elem. split.
    + intros Hno b Ho. destruct (decide (b.(asset_id) = a.(asset_id))) as [|Hne]; [done|]. destruct Hno. split; [done|]. by exists b.
    + intros Hall (_ & b & Ho & Hne). by destruct Hne; apply Hall.
  - apply chosen_None in Hc as [_ Hnone]. split; [|by intros _ ?%elem_of_nil].
    intros _ b Ho. rewrite Hnone in Ho; done.
Qed.

(** From the choice to the addresses: the same for hosts and passive observations. *)
Lemma steps_identity_core {A} E (P : A → InvWorld → Prop) (k : string → IM A) audit job m ips source evidence (make : datetime → IM string) (primary : string → IM bool) w :
  inv_ok w → audit ∈ w.(audit_ids) → job_ok w job →
  (∀ now w1, inv_ok w1 → same_rows w w1 → steps nothing (asset_post w1 audit m (chosen w audit m ips)) (make now) w1) →
  (∀ id w1, inv_ok w1 → steps nothing (fun _ w2 => w2 = w1) (primary id) w1) →
  ∀ conflict, blocked_addresses conflict = match chosen w audit m ips with
                                           | Some a => blocked w audit ips a.(asset_id) | None => [] end →
  ∀ now w1, inv_ok w1 → same_rows w w1 → w1.(inv_uuids_drawn) = w.(inv_uuids_drawn) →
  (∀ id w2, inv_ok w2 → evolves w w2 → ingested w audit m ips id w2 → steps E P (k id) w2) →
  steps E P
    (id ← make now;
     _ ← observe_conflict audit id job source evidence conflict;
     p ← primary id;
     _ ← upsert_addresses audit id source now (blocked_addresses conflict) p ips;
     k id) w1.
Proof.
  intros Hok Haud Hj Hmake Hprim conflict Hb now w1 Hok1 Hsame Hn1 Hk.
  assert (∀ {B} (Q : B → InvWorld → Prop) (b : IM B) v, steps nothing Q b v → steps E Q b v) as Hweak
    by (intros B Q b v Hb'; by eapply steps_mono).
  eapply steps_seq; [by apply Hweak, Hmake|]. intros id w2 Hok2 Hev2 (Hown2 & (A1 & A2 & A3) & Hfound).
  assert (evolves w w2) as Hev02 by (etrans; [|exact Hev2]; apply evolves_same; [done|lia]).
  eapply steps_seq; [apply Hweak, steps_observe_conflict; [done|done|by intros j Hjob; rewrite (same_jobs _ _ Hev02); apply Hj]|].
  intros _ w3 Hok3 Hev3 (B1 & B2 & B3 & B4 & B5).
  eapply steps_seq; [by apply Hweak, Hprim|]. intros p w4 Hok4 Hev4 ->.
  destruct Hsame as (S1 & S2 & S3 & S4 & S5 & S6 & S7 & S8 & S9).
  assert (w3.(addresses) = w.(addresses)) as Haddr by congruence.
  assert (match chosen w audit m ips with Some a => id = a.(asset_id) | None => w.(assets) !! id = None end) as Hid.
  { destruct (chosen w audit m ips); [by destruct Hfound|]. rewrite <- S5. apply Hfound. }
  assert (∀ x, x ∈ ips.*1 → (x ∉ blocked_addresses conflict ↔ ∀ a, owner w audit x = Some a → a.(asset_id) = id)) as Hun.
  { intros x Hx. eapply unblocked_free; [done|exact Hb| |done]. by destruct (chosen w audit m ips). }
  assert (evolves w w3) as Hev03 by by etrans.
  eapply steps_seq; [apply Hweak, steps_upsert_addresses; [done|eapply owner_ok_mono; [exact Hev3|exact Hown2]| |]|].
  - intros x Hx Hno rid row Hrow E1 E2. rewrite Haddr in Hrow.
    destruct (owner w audit x) as [a|] eqn:Ho.
    + rewrite <- (proj1 (Hun x Hx) Hno a Ho). apply owner_Some in Ho as (_ & rid' & row' & Hrow' & E1' & E2' & E3'); [|done].
      assert (rid = rid') as -> by (eapply (rows_unique _ _ _ _ _ (addresses_ok _ Hok) _ _ _ _ Hrow Hrow'); split; congruence).
      congruence.
    + apply owner_None in Ho; [|done]. exfalso. eapply eq_true_false_abs; [apply address_is_spec; by split|].
      by eapply (proj1 (first_row_None _ _) Ho).
  - intros x Hx. eapply known_mono; [exact Hok|done..|]. rewrite Hb in Hx.
    destruct (chosen w audit m ips); [|by apply elem_of_nil in Hx].
    apply blocked_elem in Hx as (_ & a' & -> & _). done.
  - intros _ w5 Hok5 Hev5 (H1 & H2 & H3 & H4). apply Hk; [done|by etrans|]. split_and!.
    + eapply owner_ok_mono; [exact Hev5|]. eapply owner_ok_mono; [exact Hev3|exact Hown2].
    + done.
    + done.
    + intros x Hx Hfree. apply H2; [done|]. by apply (Hun x Hx).
    + intros Hm. destruct (chosen w audit m ips) as [a|] eqn:Hc.
      * eapply chosen_mono; [exact Hok|done|by etrans|congruence].
      * destruct Hfound as [_ Hby]. intros Hno. apply chosen_None in Hno as [Hno1 Hno2].
        destruct Hm as [Hm|Hm].
        -- assert (by_mac w3 audit m = by_mac w2 audit m) as Eby by (unfold by_mac; by rewrite B2).
           destruct (by_mac w2 audit m) as [b|] eqn:Hbm; [|by apply Hby].
           assert (chosen w5 audit m ips ≠ None) as Hch; [|by apply Hch, chosen_None].
           eapply (chosen_mono w3); [done..|]. unfold chosen. by rewrite Eby.
        -- destruct ips as [|[x fam] ips']; [done|]. apply (H1 x); [constructor|]. apply Hno2. constructor.
    + intros Hc Hx. destruct (chosen w audit m ips) as [a|]; [|done]. destruct Hfound as [_ Hdom].
      split; [congruence|]. rewrite H4; [congruence|]. intros x Hin. eapply known_mono; [exact Hok|done..|by apply Hx].
Qed.

Lemma job_ok_mono w w' job : evolves w w' → job_ok w job → job_ok w' job.
Proof. intros Hev Hj j Hjob. rewrite (same_jobs _ _ Hev). by apply Hj. Qed.

Lemma nothing_python {A} (P : A → InvWorld → Prop) (m : IM A) w : steps nothing P m w → steps only_python P m w.
Proof. intros Hm. by eapply steps_mono. Qed.

(** Names, of whatever type, leave the assets and addresses alone. *)
Lemma steps_name_value audit asset v ty source now w :
  inv_ok w → owner_ok w audit asset →
  steps only_python (fun _ => keeps_ids w) (_upsert_name audit asset v ty source now) w.
Proof.
  intros Hok Hown. destruct v; try by apply steps_raise.
  eapply steps_mono; [by apply steps_upsert_name|done|]. intros u w' _ _ (_ & _ & E1 & E2). split; congruence.
Qed.

Lemma steps_upsert_identity audit job m ips named source evidence state w :
  inv_ok w → audit ∈ w.(audit_ids) → job_ok w job → m ≠ Some "" →
  steps only_python (ingested w audit m ips) (_upsert_identity vendors audit job m ips named source evidence state) w.
Proof.
  intros Hok Haud Hj Hm. unfold _upsert_identity. apply steps_correlate; [done|]. intros conflict Hb. cbv iota.
  apply steps_now; [done|]. intros w1 Hok1 Hs1 Hn1.
  eapply (steps_identity_core _ _ _ audit job m ips source evidence
    (fun now => identity_asset vendors audit state m now (chosen w audit m ips)) _ w); try done.
  - intros now w2 Hok2 Hs2. rewrite <- (chosen_same _ _ _ _ _ Hs2). apply steps_identity_asset; [done| |done].
    by rewrite (proj1 Hs2).
  - intros id w2 Hok2 Hev2 Hin. cbv beta.
    eapply (steps_seq _ (fun _ w3 => ingested w audit m ips id w3)).
    + eapply steps_mono; [apply (steps_for_each_rel _ keeps_ids _ (fun w => owner_ok w audit id))|done|].
      * intros ??. apply owner_ok_mono.
      * done.
      * apply Hin.
      * intros [[v ty] src] w3 _ Hok3 _ Hown. by apply steps_name_value.
      * intros u w3 Hok3 Hev3 Hids. eapply (ingested_later _ w2); [exact Hok2|exact Hok3|exact Hev3|exact Hids|exact Hin].
    + intros u w3 Hok3 Hev3 H3. by apply steps_ret.
Qed.

(** ** One host of a scan *)

Definition host_identified (h : NmapHost) : Prop := is_Some (canonical_mac (host_mac h)) ∨ host_ips h ≠ [].

(** What a host leaves behind under its asset. *)
Definition host_recorded w audit (source : string) (h : NmapHost) (id : string) w' : Prop :=
  ingested w audit (canonical_mac (host_mac h)) (host_ips h) id w' ∧
  (∀ n, n ∈ h.(hostnames) → nonempty (clean_name n.(host_name)) = true →
     has_name w' id (clean_name n.(host_name)) (if nonempty n.(host_name_type) then n.(host_name_type) else "PTR") "nmap") ∧
  (∀ p, p ∈ h.(ports) → has_service w' id p.(np_protocol) p.(np_port)) ∧
  (NoDup (port_of <$> h.(ports)) → ∀ p, p ∈ h.(ports) →
     ∃ sid s now, w'.(services) !! sid = Some s ∧ service_is id p.(np_protocol) p.(np_port) s = true ∧ observed_as p source now s).

Lemma steps_host_names audit id now (ns : list NmapHostname) w :
  inv_ok w → owner_ok w audit id →
  steps nothing (fun _ w' => keeps_ids w w' ∧
      ∀ n, n ∈ ns → nonempty (clean_name n.(host_name)) = true →
        has_name w' id (clean_name n.(host_name)) (if nonempty n.(host_name_type) then n.(host_name_type) else "PTR") "nmap")
    (for_each (fun n => _upsert_name audit id (PStr n.(host_name))
                          (if nonempty n.(host_name_type) then n.(host_name_type) else "PTR") "nmap" now) ns) w.
Proof.
  intros Hok Hown. apply steps_conj.
  - apply (steps_for_each_rel _ keeps_ids _ (fun w => owner_ok w audit id)); [intros ??; apply owner_ok_mono|done|done|].
    intros n w1 _ Hok1 _ Hown1. eapply steps_mono; [by apply steps_upsert_name|done|].
    intros u w2 _ _ (_ & _ & E1 & E2). split; congruence.
  - apply (steps_for_each _ _ (fun w => owner_ok w audit id)); [intros ?? _; apply owner_ok_mono| |done|done|].
    + intros n w1 w2 _ Hev Hn Hne. eapply has_name_mono; [done|by apply Hn].
    + intros n w1 _ Hok1 Hown1. eapply steps_mono; [by apply steps_upsert_name|done|]. by intros u w2 _ _ (H1 & _).
Qed.

Lemma steps_host_ports audit id source now ps w :
  inv_ok w → owner_ok w audit id →
  steps nothing (fun _ w' => keeps_ids w w' ∧ (∀ p, p ∈ ps → has_service w' id p.(np_protocol) p.(np_port)) ∧
      (NoDup (port_of <$> ps) → ∀ p, p ∈ ps →
        ∃ sid s, w'.(services) !! sid = Some s ∧ service_is id p.(np_protocol) p.(np_port) s = true ∧ observed_as p source now s))
    (for_each (fun p => _upsert_service audit id p source now) ps) w.
Proof.
  intros Hok Hown. apply steps_conj; [|apply steps_conj].
  - apply (steps_for_each_rel _ keeps_ids _ (fun w => owner_ok w audit id)); [intros ??; apply owner_ok_mono|done|done|].
    intros p w1 _ Hok1 _ Hown1. eapply steps_mono; [by apply steps_upsert_service|done|].
    intros u w2 _ _ (_ & _ & _ & E1 & E2 & _). split; congruence.
  - apply (steps_for_each _ _ (fun w => owner_ok w audit id)); [intros ?? _; apply owner_ok_mono| |done|done|].
    + intros p w1 w2 _ Hev Hp. by eapply has_service_mono.
    + intros p w1 _ Hok1 Hown1. eapply steps_mono; [by apply steps_upsert_service|done|].
      intros u w2 _ _ ((sid & s & ? & ? & _) & _). by exists sid, s.
  - destruct (decide (NoDup (port_of <$> ps))) as [Hnd|Hnd].
    + eapply steps_mono; [by apply steps_upsert_services|done|]. by intros u w2 _ _ [H1 _] _.
    + eapply steps_mono; [|intros e He; exact He|by intros u w2 _ _ _ ?].
      apply (steps_for_each_rel _ keeps_ids _ (fun w => owner_ok w audit id)); [intros ??; apply owner_ok_mono|done|done|].
      intros p w1 _ Hok1 _ Hown1. eapply steps_mono; [by apply steps_upsert_service|done|].
      intros u w2 _ _ (_ & _ & _ & E1 & E2 & _). split; congruence.
Qed.

Definition host_skipped (persist : bool) (h : NmapHost) : bool :=
  negb (interesting h (canonical_mac (host_mac h))) && negb (persist && String.eqb h.(status) "down").

Lemma steps_nmap_host audit job h source evidence persist w :
  inv_ok w → audit ∈ w.(audit_ids) → job_ok w job →
  steps nothing (fun b w' => b = negb (host_skipped persist h) ∧ (host_skipped persist h = true → w' = w) ∧
      (host_skipped persist h = false → ∃ id, host_recorded w audit source h id w'))
    (_upsert_nmap_host vendors audit job h source evidence persist) w.
Proof.
  intros Hok Haud Hj. unfold _upsert_nmap_host. cbv zeta. fold (host_skipped persist h).
  destruct (host_skipped persist h); [by apply steps_ret|]. cbn [negb].
  set (m := canonical_mac (host_mac h)). set (ips := host_ips h).
  apply steps_correlate; [done|]. intros conflict Hb. cbv iota.
  apply steps_now; [done|]. intros w1 Hok1 Hs1 Hn1. set (now := clock _).
  match goal with |- steps _ _ (_ ≫= ?k) _ => change (steps nothing (fun b w' => b = true ∧ (false = true → w' = w) ∧ (false = false → ∃ id, host_recorded w audit source h id w'))
    (id ← host_asset vendors audit job h source evidence m now (chosen w audit m ips);
     _ ← observe_conflict audit id job source evidence conflict;
     p ← (fun _ : string => mret false) id;
     _ ← upsert_addresses audit id source now (blocked_addresses conflict) p ips;
     (fun id => _ ← for_each (fun n => _upsert_name audit id (PStr n.(host_name))
                          (if nonempty n.(host_name_type) then n.(host_name_type) else "PTR") "nmap" now) h.(hostnames);
      _ ← _apply_os_hint id h job evidence;
      _ ← for_each (fun p => _upsert_service audit id p source now) h.(ports);
      _ ← _observe audit (Some id) job "nmap_host" source evidence
            [("status", PStr h.(status)); ("reason", opt_val h.(status_reason));
             ("addresses", strings (List.map fst ips)); ("mac", opt_val m)];
      _ ← _classify_asset id; mret true) id) w1) end.
  eapply (steps_identity_core _ _ _ audit job m ips source evidence
    (fun now => host_asset vendors audit job h source evidence m now (chosen w audit m ips)) (fun _ => mret false) w); try done.
  - intros now' w2 Hok2 Hs2. rewrite <- (chosen_same _ _ _ _ _ Hs2). apply steps_host_asset; [done| | |].
    + by rewrite (proj1 Hs2).
    + apply canonical_mac_nonempty.
    + intros j Hjob. destruct Hs2 as (_ & -> & _). by apply Hj.
  - intros id w2 Hok2 Hev2 Hin. pose proof Hin as (Hown2 & _). cbv beta.
    eapply steps_seq; [by apply steps_host_names|]. intros us w3 Hok3 Hev3 [Hids3 Hnames].
    assert (owner_ok w3 audit id) as Hown3 by (by eapply owner_ok_mono).
    eapply steps_seq; [apply (steps_os_hint audit); [done|done|]|].
    { do 2 (eapply job_ok_mono; [eassumption|]). done. }
    intros u w4 Hok4 Hev4 Hids4%only_assets_ids.
    assert (owner_ok w4 audit id) as Hown4 by (eapply owner_ok_mono; [exact Hev4|done]).
    eapply steps_seq; [by apply steps_host_ports|]. intros us5 w5 Hok5 Hev5 (Hids5 & Hhas & Hports).
    assert (owner_ok w5 audit id) as Hown5 by (eapply owner_ok_mono; [exact Hev5|done]).
    eapply steps_seq; [apply (steps_observe _ (fun _ => observed_only w5)); [done|done| |done]|].
    { do 4 (eapply job_ok_mono; [eassumption|]). done. }
    intros u6 w6 Hok6 Hev6 Hobs6. assert (owner_ok w6 audit id) as Hown6 by (eapply owner_ok_mono; [exact Hev6|done]).
    eapply steps_seq; [by apply (steps_classify audit)|]. intros u7 w7 Hok7 Hev7 Hs7.
    apply steps_ret; [done|]. split_and!; [done|done|]. intros _. exists id.
    assert (keeps_ids w2 w7) as Hids.
    { apply only_assets_ids in Hs7. apply observed_only_ids in Hobs6.
      etrans; [exact Hids3|]. etrans; [exact Hids4|]. etrans; [exact Hids5|]. by etrans. }
    assert (evolves w5 w7) as Hev57 by (by etrans). assert (evolves w3 w7) as Hev37 by (etrans; [exact Hev4|]; by etrans).
    split_and!.
    + eapply ingested_later; [exact Hok2|done|by etrans|done|done].
    + intros n Hn Hne. eapply has_name_mono; [exact Hev37|]. by apply Hnames.
    + intros p Hp. eapply has_service_mono; [exact Hev57|]. by apply Hhas.
    + intros Hnd p Hp. destruct (Hports Hnd p Hp) as (sid & s & Hs & Hk & Ho). exists sid, s, now.
      destruct Hs7 as (_ & _ & _ & ->), Hobs6 as (_ & _ & _ & _ & ->). done.
Qed.
End host.
