(* ===== verification/InventorySystem.v ===== *)
(** * The operations of [InventoryService] as one system

    Whole documents, passive results, scopes and queries: each keeps the invariant and
    only evolves the tables. *)

From S2P Require Import Prelude PyBase PyText JobModels JobStore ScopeEngine Nmap FindModels InventoryBase Inventory InventoryIngest InventoryQueries InventoryInvariant InventoryCorrelate InventoryProofs InventoryNormalize InventoryHostProofs.

Section system.
Context `{Runtime, !RuntimeOk}.
Context (vendors : OuiResolver).
Implicit Types (w : InvWorld).

(** ** Documents *)

Definition kept_hosts (persist : bool) (document : NmapScanDocument) : list NmapHost :=
  List.filter (fun h => negb (host_skipped persist h)) document.(hosts).

(** What lasts of a recorded host. *)
Definition host_known w audit (h : NmapHost) : Prop :=
  (host_identified h → chosen w audit (canonical_mac (host_mac h)) (host_ips h) ≠ None) ∧
  (∀ x, x ∈ (host_ips h).*1 → owner w audit x ≠ None) ∧
  ∃ id, owner_ok w audit id ∧
    (∀ n, n ∈ h.(hostnames) → nonempty (clean_name n.(host_name)) = true →
       has_name w id (clean_name n.(host_name)) (if nonempty n.(host_name_type) then n.(host_name_type) else "PTR") "nmap") ∧
    (∀ p, p ∈ h.(ports) → has_service w id p.(np_protocol) p.(np_port)).

Lemma host_known_mono w w' audit h : inv_ok w → inv_ok w' → evolves w w' → host_known w audit h → host_known w' audit h.
Proof.
  intros Hok Hok' Hev (H1 & H2 & id & H3 & H4 & H5). split_and!.
  - intros Hid. eapply chosen_mono; [exact Hok|done..|by apply H1].
  - intros x Hx. eapply known_mono; [exact Hok|done..|by apply H2].
  - exists id. split_and!; [by eapply owner_ok_mono| |].
    + intros n Hn Hne. eapply has_name_mono; [done|by apply H4].
    + intros p Hp. eapply has_service_mono; [done|by apply H5].
Qed.

Lemma recorded_known w audit source h id w' : host_recorded w audit source h id w' → host_known w' audit h.
Proof.
  intros ((H1 & H2 & H3 & H4 & H5 & H6) & Hn & Hp & _). split_and!; [by apply H5|done|]. by exists id.
Qed.

Lemma steps_ingest_hosts audit job source evidence persist hs w :
  inv_ok w → audit ∈ w.(audit_ids) → job_ok w job →
  steps nothing (fun bs w' => bs = List.map (fun h => negb (host_skipped persist h)) hs ∧
      (∀ h, h ∈ hs → host_skipped persist h = false → host_known w' audit h) ∧
      ((∀ h, h ∈ hs → host_skipped persist h = false → host_identified h ∧ host_known w audit h) → keeps_ids w w'))
    (for_each (fun h => _upsert_nmap_host vendors audit job h source evidence persist) hs) w.
Proof.
  revert w. induction hs as [|h hs IH]; intros w Hok Haud Hj; cbn [for_each].
  { apply steps_ret; [done|]. split_and!; [done|by intros h ?%elem_of_nil|done]. }
  eapply steps_seq; [by apply steps_nmap_host|]. intros b w1 Hok1 Hev1 (-> & Hskipped & Hrec).
  eapply steps_seq; [apply IH; [done|by rewrite (same_audits _ _ Hev1)|by eapply job_ok_mono]|].
  intros bs w2 Hok2 Hev2 (-> & Hall & Hids). apply steps_ret; [done|]. split_and!; [done| |].
  - intros h' [->|Hh]%elem_of_cons Hskip; [|by apply Hall]. destruct (Hrec Hskip) as [id Hid].
    eapply (host_known_mono w1); [done..|]. by eapply recorded_known.
  - intros Hknown. etrans.
    + destruct (host_skipped persist h) eqn:Hskip.
      * by rewrite (Hskipped eq_refl).
      * destruct (Hrec eq_refl) as (id & (_ & _ & _ & _ & _ & Hk) & _).
        destruct (Hknown h) as [Hid (Hc & Ho & _)]; [constructor|done|]. apply Hk; [by apply Hc|done].
    + apply Hids. intros h' Hh Hskip. destruct (Hknown h') as [Hid Hk]; [by constructor|done|].
      split; [done|]. by eapply (host_known_mono w).
Qed.

Lemma count_true_map {A} (f : A → bool) l : count_true (List.map f l) = Z.of_nat (length (List.filter f l)).
Proof.
  unfold count_true. f_equal. induction l as [|x l IH]; [done|]. cbn. destruct (f x); cbn; by rewrite IH.
Qed.

Lemma steps_ingest_document audit job document source evidence persist w :
  inv_ok w → audit ∈ w.(audit_ids) → job_ok w job →
  steps nothing (fun n w' => n = Z.of_nat (length (kept_hosts persist document)) ∧
      (∀ h, h ∈ kept_hosts persist document → host_known w' audit h) ∧
      ((∀ h, h ∈ kept_hosts persist document → host_identified h ∧ host_known w audit h) → keeps_ids w w'))
    (ingest_nmap_document vendors audit job document source evidence persist) w.
Proof.
  intros Hok Haud Hj. apply steps_transaction; [done|].
  assert (∀ h, h ∈ kept_hosts persist document ↔ h ∈ document.(hosts) ∧ host_skipped persist h = false) as Hkept.
  { intros h. unfold kept_hosts. by rewrite elem_of_lfilter, negb_true_iff. }
  eapply steps_seq; [by apply steps_ingest_hosts|]. intros bs w1 Hok1 Hev1 (-> & Hall & Hids).
  apply steps_ret; [done|]. split_and!; [apply count_true_map| |].
  - intros h [Hh Hs]%Hkept. by apply Hall.
  - intros Hknown. apply Hids. intros h Hh Hs. apply Hknown, Hkept. by split.
Qed.

(** ** Passive results *)

(** The identities a sensor gives have no empty hardware address. *)
Definition identifies_ok (identify : pyval → outcome PyExc (option Identity)) : Prop :=
  ∀ o i, identify o = Return (Some i) → i.(identity_mac) ≠ Some "".

Lemma canonical_mac_of_nonempty v m : canonical_mac_of v = Return m → m ≠ Some "".
Proof.
  unfold canonical_mac_of. destruct (truthy v); [|by intros [= <-]]. destruct v as [| | |text| |]; try done.
  pose proof (canonical_mac_nonempty (Some text)) as Hne. generalize dependent (canonical_mac (Some text)). by intros o Hne [= <-].
Qed.

(** Reading an identity off: each binding in turn. *)
Ltac identity_of :=
  repeat match goal with
  | H : (_ ≫= _) = Return _ |- _ => apply outcome_bind_inv in H as (? & ? & H)
  | H : mret _ = Return _ |- _ => apply (inj Return) in H
  | H : (if ?b then _ else _) = Return _ |- _ => destruct b; try discriminate
  end.

Lemma ethernet_identity_ok : identifies_ok ethernet_identity.
Proof.
  intros o i Hi. unfold ethernet_identity in Hi. identity_of.
  match goal with H : canonical_mac_of _ = Return ?m |- _ => apply canonical_mac_of_nonempty in H; destruct m end; [|done].
  destruct (_ || _); [done|]. by injection Hi as <-.
Qed.

Lemma arp_identity_ok : identifies_ok arp_identity.
Proof.
  intros o i Hi. unfold arp_identity in Hi. apply outcome_bind_inv in Hi as (data & _ & Hi).
  apply outcome_bind_inv in Hi as (v & _ & Hi). apply outcome_bind_inv in Hi as (m & Hm & Hi).
  apply canonical_mac_of_nonempty in Hm. apply outcome_bind_inv in Hi as (a & _ & Hi).
  apply outcome_bind_inv in Hi as (ips & _ & [= Hi]).
  destruct m, ips; try discriminate; by injection Hi as <-.
Qed.

Lemma dhcp_identity_ok : identifies_ok dhcp_identity.
Proof.
  intros o i Hi. unfold dhcp_identity in Hi. apply outcome_bind_inv in Hi as (data & _ & Hi).
  apply outcome_bind_inv in Hi as (v & _ & Hi). apply outcome_bind_inv in Hi as (m & Hm & Hi).
  apply canonical_mac_of_nonempty in Hm. do 4 (apply outcome_bind_inv in Hi as (? & _ & Hi)). injection Hi as Hi.
  repeat case_match; simplify_eq; done.
Qed.

Lemma naming_identity_ok sensor : identifies_ok (naming_identity sensor).
Proof.
  intros o i Hi. unfold naming_identity in Hi. do 10 (apply outcome_bind_inv in Hi as (? & _ & Hi)).
  apply outcome_bind_inv in Hi as (m & Hm & Hi). apply canonical_mac_of_nonempty in Hm. injection Hi as Hi.
  repeat case_match; simplify_eq; done.
Qed.

Lemma steps_lift {A} (m : outcome PyExc A) w : inv_ok w → steps only_python (fun a w' => m = Return a ∧ w' = w) (lift_inv m) w.
Proof. intros Hok. destruct m; [by apply steps_ret|by apply steps_raise]. Qed.

(** An audit and a job there are. *)
Definition input_ok audit job w : Prop := audit ∈ w.(audit_ids) ∧ job_ok w job.

Lemma input_ok_mono audit job w w' : evolves w w' → input_ok audit job w → input_ok audit job w'.
Proof. intros Hev [H1 H2]. split; [by rewrite (same_audits _ _ Hev)|by eapply job_ok_mono]. Qed.

(** A loop that need not end in anything. *)
Lemma steps_each {A B} E (body : A → IM B) audit job l w :
  inv_ok w → input_ok audit job w →
  (∀ x w1, inv_ok w1 → input_ok audit job w1 → steps E (fun _ _ => True) (body x) w1) →
  steps E (fun _ _ => True) (for_each body l) w.
Proof.
  intros Hok Hin Hbody. eapply steps_mono; [apply (steps_for_each _ _ (input_ok audit job) (fun _ _ => True))|done|done]; auto.
  intros w1 w2 _. apply input_ok_mono.
Qed.

Lemma steps_ingest_observations audit job evidence source identify sensor w :
  inv_ok w → input_ok audit job w → identifies_ok identify →
  steps only_python (fun _ _ => True) (ingest_observations vendors audit job evidence source identify sensor) w.
Proof.
  intros Hok Hin Hid. unfold ingest_observations.
  eapply steps_seq; [by apply steps_lift|]. intros rows w1 Hok1 Hev1 [_ ->].
  eapply (steps_seq _ (fun _ _ => True)); [|intros bs w2 Hok2 _ _; by apply steps_ret].
  apply (steps_each _ _ audit job); [done..|]. intros o w2 Hok2 [Haud2 Hj2]. eapply steps_seq; [by apply steps_lift|]. intros found w3 Hok3 _ [Hf ->].
  destruct found as [i|]; [|by apply steps_ret].
  eapply steps_seq; [apply steps_upsert_identity; [done..|by eapply Hid]|]. intros u w4 Hok4 _ _. by apply steps_ret.
Qed.

Lemma steps_passive_sensors audit job sensors evidence w :
  inv_ok w → input_ok audit job w →
  steps only_python (fun _ _ => True) (ingest_passive_sensors vendors audit job sensors evidence) w.
Proof.
  intros Hok Hin. apply steps_transaction; [done|].
  eapply steps_seq; [apply steps_ingest_observations; [done..|apply ethernet_identity_ok]|].
  intros a w1 Hok1 Hev1 _. eapply input_ok_mono in Hin; [|exact Hev1].
  eapply steps_seq; [apply steps_ingest_observations; [done..|apply arp_identity_ok]|].
  intros b w2 Hok2 Hev2 _. eapply input_ok_mono in Hin; [|exact Hev2].
  eapply steps_seq; [apply steps_ingest_observations; [done..|apply dhcp_identity_ok]|].
  intros c w3 Hok3 Hev3 _. eapply input_ok_mono in Hin; [|exact Hev3].
  eapply (steps_seq _ (fun _ _ => True)).
  - apply (steps_each _ _ audit job); [done..|]. intros sensor w4 Hok4 Hin4. apply steps_ingest_observations; [done..|apply naming_identity_ok].
  - intros ds w4 Hok4 _ _. eapply steps_seq; [by apply nothing_python, steps_refresh|].
    intros u w5 Hok5 _ _. by apply steps_ret.
Qed.

(** ** Evidence *)

Context (read_json : option (ArtifactModel → outcome InvExc pyval)).

(** The artifacts of audits there are. *)
Definition artifacts_ok w : Prop := ∀ id a, w.(audit_artifacts) !! id = Some a → a.(artifact_audit_id) ∈ w.(audit_ids).

(** What the reader of evidence may raise. *)
Definition unreadable (e : InvExc) : Prop :=
  ∃ read a, read_json = Some read ∧ read a = Raise e.
Definition passive_errors (e : InvExc) : Prop := only_python e ∨ unreadable e.

Lemma steps_passive_from_audit audit job w :
  inv_ok w → artifacts_ok w → job_ok w job →
  steps passive_errors (fun _ _ => True) (ingest_passive_from_audit vendors read_json audit job) w.
Proof.
  intros Hok Hart Hj. unfold ingest_passive_from_audit. destruct read_json as [read|] eqn:Hread; [|by apply steps_ret].
  apply steps_bind, steps_reads; [done|].
  destruct (head _) as [record|] eqn:Hrec; [|by apply steps_ret].
  assert (record.(artifact_audit_id) = audit ∧ audit ∈ w.(audit_ids)) as [_ Haud].
  { apply head_Some_elem_of, elem_of_sort_by, rows_of_elem in Hrec as (id & Hid & Hp%andb_true_iff).
    destruct Hp as [E%String.eqb_eq _]. split; [done|]. rewrite <- E. by eapply Hart. }
  eapply (steps_seq _ (fun _ w' => w' = w)).
  { unfold steps, wp. cbn. destruct (read record) as [d|e] eqn:Hd; (split_and!; [done|done|]); [done|].
    right. by exists read, record. }
  intros document w1 Hok1 _ ->. eapply steps_seq; [eapply steps_mono; [by apply steps_lift|by left|done]|].
  intros sensors w1 _ _ [_ ->]. destruct sensors; try (apply steps_raise; [done|by left]).
  eapply steps_mono; [by apply steps_passive_sensors|by left|done].
Qed.

(** Reading the inventory survives what the job machinery raises. *)
Definition ensure_errors (e : InvExc) : Prop := passive_errors e ∧ ∀ code, e ≠ JobExecutionError code.

Lemma steps_ensure audit job w :
  inv_ok w → artifacts_ok w → job_ok w job →
  steps ensure_errors (fun _ _ => True) (ensure_passive_inventory vendors read_json audit job) w.
Proof.
  intros Hok Hart Hj. unfold ensure_passive_inventory, steps. apply wp_try.
  eapply wp_mono; [by apply steps_passive_from_audit|].
  intros [n|e] w' (Hok' & Hev & He); [by split_and!|].
  destruct e; first [apply wp_raise; split_and!; [done|done|split; [exact He|by intros c]]|by apply wp_ret].
Qed.

(** ** Scopes *)

Lemma steps_insert_scope E (P : unit → InvWorld → Prop) s w :
  inv_ok w → fresh w s.(cs_id) → scope_row_ok w.(audit_ids) s →
  first_row w.(scopes) (fun s' => String.eqb s'.(cs_audit_id) s.(cs_audit_id) &&
                                  String.eqb s'.(snapshot_hash) s.(snapshot_hash)) = None →
  P tt (w <| scopes := <[s.(cs_id) := s]> w.(scopes) |>) →
  steps E P (insert_scope s) w.
Proof.
  intros Hok Hf Hs Hfree HP. pose proof (proj1 (first_row_None _ _) Hfree) as Hnone.
  unfold steps, wp, insert_scope. rewrite checked_ok; cbn [fst snd].
  - split_and!; [|apply evolves_scopes, table_evolves_insert; [apply _|by apply Hf]|done].
    apply inv_ok_scopes; [done|].
    apply (table_insert _ _ cs_id); [by apply Hok|by apply Hf|done|by intros x y []|].
    intros id s' Hs' [E1 E2]. apply Hnone in Hs'. apply not_true_iff_false in Hs'. apply Hs'.
    by rewrite andb_true_iff, !String.eqb_eq.
  - by apply Hf.
  - exact Hnone.
  - by apply bool_decide_eq_true_2, Hs.
Qed.

(** The scope with that snapshot, the one there was or a new one. *)
Definition confirmed_as w audit (hash : string) (s : ConfirmedScopeModel) w' : Prop :=
  w'.(scopes) !! s.(cs_id) = Some s ∧ s.(cs_audit_id) = audit ∧ s.(snapshot_hash) = hash ∧
  ((∃ id s0, w.(scopes) !! id = Some s0 ∧ s0.(cs_audit_id) = audit ∧ s0.(snapshot_hash) = hash) → w' = w).

Lemma steps_confirm_scope audit scope interface route actor policy w :
  inv_ok w → audit ∈ w.(audit_ids) →
  steps nothing (confirmed_as w audit (scope_snapshot_hash scope.(scope_profile) interface scope.(canonical_targets)))
    (confirm_scope audit scope interface route actor policy) w.
Proof.
  intros Hok Haud. unfold confirm_scope. cbv zeta. set (hash := scope_snapshot_hash _ _ _).
  apply steps_transaction; [done|]. apply steps_bind, steps_reads; [done|].
  destruct (first_row _ _) as [s|] eqn:Hs.
  - apply first_row_Some in Hs as (id & Hid & [E1%String.eqb_eq E2%String.eqb_eq]%andb_true_iff).
    destruct (rows_ok _ _ _ _ _ (scopes_ok _ Hok) _ _ Hid) as (E & _).
    apply steps_ret; [done|]. split_and!; [by rewrite E|done|done|done].
  - pose proof (proj1 (first_row_None _ _) Hs) as Hnone.
    apply steps_uuid; [done|]. intros w1 Hok1 Hs1 _ Hf1. apply steps_now; [done|]. intros w2 Hok2 Hs2 Hn2.
    pose proof (fresh_same _ _ _ Hf1 Hs2 Hn2) as Hf2.
    destruct Hs1 as (A1 & _ & _ & A4 & _), Hs2 as (B1 & _ & _ & B4 & _).
    set (model := mkScopeRow _ _ _ _ _ _ _ _ _ _ _ _ _).
    eapply (steps_seq _ (fun _ w' => w' = w2 <| scopes := <[model.(cs_id) := model]> w2.(scopes) |>)).
    + apply steps_insert_scope; [done|done| |by rewrite B4, A4|done]. split; [by rewrite B1, A1|done].
    + intros _ w3 Hok3 _ ->. apply steps_ret; [done|]. split_and!; [cbn; by rewrite lookup_insert_eq|done|done|].
      intros (id & s0 & Hid & E1 & E2). apply Hnone in Hid. rewrite E1, E2, !String.eqb_refl in Hid. done.
Qed.

Lemma steps_activate_scope id w :
  inv_ok w →
  steps (fun e => e = InvLookupError id ∧ w.(scopes) !! id = None)
    (fun s w' => w'.(scopes) !! id = Some s ∧ is_Some s.(activated_at) ∧ ∃ s0, w.(scopes) !! id = Some s0 ∧ scope_kept s0 s)
    (activate_scope id) w.
Proof.
  intros Hok. unfold activate_scope. apply steps_transaction; [done|]. apply steps_bind, steps_reads; [done|].
  destruct (w.(scopes) !! id) as [s|] eqn:Hs; [|by apply steps_raise].
  destruct s.(activated_at) as [t|] eqn:Ht.
  { apply steps_ret; [done|]. split_and!; [done|by exists t|]. exists s. split; [done|by left]. }
  apply steps_now; [done|]. intros w1 Hok1 (A1 & _ & _ & A4 & _) _. set (s' := s <| activated_at := Some _ |>).
  assert (scope_kept s s') as Hkept by (right; split; [done|by eexists]).
  rewrite <- A4 in Hs. destruct (rows_ok _ _ _ _ _ (scopes_ok _ Hok1) _ _ Hs) as (E & Hrow).
  assert (steps (fun _ => False) (fun _ w' => w' = w1 <| scopes := <[id := s']> w1.(scopes) |>)
            (modify (fun w => w <| scopes ::= insert id s' |>)) w1) as Hput.
  { apply wp_modify. split_and!; [|apply evolves_scopes; by eapply table_evolves_update; [apply _|exact Hs|]|done].
    apply inv_ok_scopes; [done|]. eapply table_update; [by apply Hok1|exact Hs|done|done|].
    intros id2 s2 Hne H2. unfold scope_key. cbn.
    split; intros [E1 E2]; apply Hne; apply (rows_unique _ _ _ _ _ (scopes_ok _ Hok1) _ _ _ _ H2 Hs); split; congruence. }
  eapply steps_seq; [eapply steps_mono; [exact Hput|done|done]|]. intros _ w2 Hok2 _ ->. apply steps_ret; [done|]. split_and!.
  - cbn. by rewrite lookup_insert_eq.
  - by eexists.
  - exists s. split; [congruence|done].
Qed.
End system.

(** ** Sequences of inventory requests

    Reading the inventory, and every operation of [InventoryService] as one request:
    a database served by any sequence of them stays well formed, whatever fails. *)

Section requests.
Context `{Runtime, !RuntimeOk}.
Context (vendors : OuiResolver) (read_json : option (ArtifactModel → outcome InvExc pyval)).
Implicit Types (w : InvWorld).

(** *** Reading *)

(** Running [k] on the rows as they are after the passive results were taken in. *)
Lemma steps_after_ensure {A} (k : Z → IM A) audit P w :
  inv_ok w → artifacts_ok w →
  (∀ n w1, inv_ok w1 → evolves w w1 → steps (ensure_errors read_json) P (k n) w1) →
  steps (ensure_errors read_json) P (ensure_passive_inventory vendors read_json audit None ≫= k) w.
Proof.
  intros Hok Hart Hk. eapply steps_seq; [by apply steps_ensure; [..|by intros j]|].
  intros n w1 Hok1 Hev1 _. by apply Hk.
Qed.

Lemma steps_lift_ensure {A} (m : outcome PyExc A) w :
  inv_ok w → steps (ensure_errors read_json) (fun a w' => m = Return a ∧ w' = w) (lift_inv m) w.
Proof.
  intros Hok. eapply steps_mono; [by apply steps_lift| |done].
  intros e He. split; [by left|]. by intros code ->.
Qed.

Lemma count_rows_add {R} (t : gmap string R) (p q r : R → bool) :
  (∀ x, p x = true → q x = true → False) → (∀ x, r x = p x || q x) → count_rows t p + count_rows t q = count_rows t r.
Proof.
  intros Hd Hr. unfold count_rows, rows_of. rewrite !(Permutation_length (scan_perm _)).
  generalize (map_to_list t).*2. intros l. induction l as [|x l IH]; [done|]. cbn. rewrite Hr.
  specialize (Hd x). destruct (p x), (q x); cbn; lia || by destruct Hd.
Qed.

Lemma count_rows_ext {R} (t : gmap string R) (p q : R → bool) : (∀ x, p x = q x) → count_rows t p = count_rows t q.
Proof.
  intros E. pose proof (count_rows_add t p (fun _ => false) q) as Ha. rewrite <- Ha; [|done|by intros x; rewrite orb_false_r].
  unfold count_rows at 3, rows_of. rewrite (Permutation_length (scan_perm _)).
  assert (List.filter (fun _ => false) (map_to_list t).*2 = []) as ->; [|cbn; lia]. by apply lfilter_nil.
Qed.

Lemma count_rows_le {R} (t : gmap string R) (p q : R → bool) : (∀ x, p x = true → q x = true) → count_rows t p ≤ count_rows t q.
Proof.
  intros Himp. rewrite <- (count_rows_add t p (fun x => q x && negb (p x)) q).
  - unfold count_rows. lia.
  - by intros x -> [_ ?%negb_true_iff]%andb_true_iff.
  - intros x. specialize (Himp x). destruct (p x); cbn; [by rewrite Himp|by rewrite andb_true_r].
Qed.

Lemma count_classes_filter rows c :
  default 0 (count_classes rows !! c) = Z.of_nat (length (List.filter (fun a => bool_decide (a.(device_class_hint) = c)) rows)).
Proof.
  induction rows as [|a rows IH]; cbn; [by rewrite lookup_empty|].
  destruct (decide (a.(device_class_hint) = c)) as [->|Hne].
  - rewrite lookup_partial_alter_eq, bool_decide_eq_true_2 by done.
    transitivity (default 0 (count_classes rows !! c) + 1); [done|]. rewrite IH. cbn [length]. lia.
  - rewrite lookup_partial_alter_ne, bool_decide_eq_false_2 by done. exact IH.
Qed.

Lemma lfilter_length_perm {A} (p : A → bool) l1 l2 : l1 ≡ₚ l2 → length (List.filter p l1) = length (List.filter p l2).
Proof. induction 1; cbn; repeat case_match; cbn; congruence. Qed.

Lemma lfilter_and {A} (p q : A → bool) l : List.filter q (List.filter p l) = List.filter (fun x => p x && q x) l.
Proof. induction l as [|x l IH]; cbn; [done|]. destruct (p x); cbn; [|done]. by rewrite IH. Qed.

Lemma count_classes_rows (t : gmap string AssetModel) p c :
  default 0 (count_classes (rows_of t p) !! c) = count_rows t (fun a => p a && bool_decide (a.(device_class_hint) = c)).
Proof.
  rewrite count_classes_filter. unfold count_rows, rows_of.
  by rewrite (lfilter_length_perm _ _ _ (scan_perm _)), lfilter_and, (Permutation_length (scan_perm _)).
Qed.

Definition services_where w audit (p : ServiceModel → bool) : Z :=
  count_rows w.(services) (fun s => String.eqb s.(srv_audit_id) audit && p s).

(** What a summary is of: the database it leaves. *)
Definition summarises (s : InventorySummary) audit w : Prop :=
  s.(asset_count) = count_rows w.(assets) (fun a => String.eqb a.(asset_audit_id) audit) ∧
  s.(service_count) = services_where w audit (fun _ => true) ∧
  s.(tcp_services) = services_where w audit (fun s => String.eqb s.(srv_protocol) "tcp") ∧
  s.(udp_services) = services_where w audit (fun s => String.eqb s.(srv_protocol) "udp") ∧
  (∀ c, default 0 (s.(device_classes) !! c) =
        count_rows w.(assets) (fun a => String.eqb a.(asset_audit_id) audit && bool_decide (a.(device_class_hint) = c))).

Lemma steps_summary audit w :
  inv_ok w → artifacts_ok w →
  steps (ensure_errors read_json) (fun s => summarises s audit) (summary vendors read_json audit) w.
Proof.
  intros Hok Hart. apply steps_after_ensure; [done..|]. intros _ w1 Hok1 Hev1.
  apply steps_reads; [done|]. split_and!; try done. intros c. apply count_classes_rows.
Qed.

(** *** Pages *)

(** A page of [rows], in the order [le]: its slice, and how many there are in all. *)
Definition page_of {R} (le : R → R → bool) (rows : list R) (limit offset : Z) (records : list R) (total : Z) : Prop :=
  records = sql_page limit offset (sort_by le rows) ∧ total = Z.of_nat (length rows).

Lemma service_records_id l rs : service_records l = Return rs → rs = l.
Proof.
  revert rs. induction l as [|s l IH]; intros rs; [by intros [= <-]|]. cbn. intros Hr.
  apply outcome_bind_inv in Hr as (r & Hs & Hr). apply outcome_bind_inv in Hr as (rest & Hl & [= <-]).
  rewrite (IH _ Hl). unfold _service_record in Hs. by destruct (_ && _); [injection Hs as ->|].
Qed.

(** The record of an asset shows exactly its rows. *)
Definition record_of w (include_services : bool) (a : AssetModel) (r : AssetRecord) : Prop :=
  r.(record_asset) = a ∧ (∀ x, x ∈ r.(record_addresses) ↔ x ∈ addresses_of w a.(asset_id)) ∧
  (∀ x, x ∈ r.(record_names) ↔ x ∈ names_of w a.(asset_id)) ∧
  (∀ x, x ∈ r.(record_services) ↔ include_services = true ∧ x ∈ services_of w a.(asset_id)).

Lemma asset_record_of w include a r : _asset_record w include a = Return r → record_of w include a r.
Proof.
  unfold _asset_record. intros (rows & Hrows & [= <-])%outcome_bind_inv. split_and!; cbn; [done|intros x; apply elem_of_sort_by..|].
  intros x. destruct include; [|injection Hrows as <-; rewrite elem_of_nil; naive_solver].
  rewrite (service_records_id _ _ Hrows), elem_of_sort_by. naive_solver.
Qed.

Lemma asset_records_of w include l rs : asset_records w include l = Return rs → Forall2 (record_of w include) l rs.
Proof.
  revert rs. induction l as [|a l IH]; intros rs; [by intros [= <-]|]. cbn. intros Hr.
  apply outcome_bind_inv in Hr as (r & Ha & Hr). apply outcome_bind_inv in Hr as (rest & Hl & [= <-]).
  constructor; [by apply asset_record_of|by apply IH].
Qed.

Lemma steps_list_assets audit limit offset q include w :
  inv_ok w → artifacts_ok w →
  steps (ensure_errors read_json) (fun p w' =>
      let rows := rows_of w'.(assets) (asset_matches w' audit q) in
      p.(total) = Z.of_nat (length rows) ∧
      Forall2 (record_of w' include) (sql_page limit offset (sort_by asset_le rows)) p.(items))
    (list_assets vendors read_json audit limit offset q include) w.
Proof.
  intros Hok Hart. apply steps_after_ensure; [done..|]. intros _ w1 Hok1 Hev1.
  apply steps_bind, steps_reads; [done|]. apply steps_bind, steps_reads; [done|].
  eapply steps_seq; [by apply steps_lift_ensure|]. intros rs w2 Hok2 _ [Hrs ->].
  apply steps_ret; [done|]. split; [done|]. by apply asset_records_of.
Qed.

Lemma steps_list_services audit limit offset q w :
  inv_ok w → artifacts_ok w →
  steps (ensure_errors read_json) (fun p w' =>
      page_of listed_le (rows_of w'.(services) (service_matches audit q)) limit offset p.(items) p.(total))
    (list_services vendors read_json audit limit offset q) w.
Proof.
  intros Hok Hart. apply steps_after_ensure; [done..|]. intros _ w1 Hok1 Hev1.
  apply steps_bind, steps_reads; [done|].
  eapply steps_seq; [by apply steps_lift_ensure|]. intros rs w2 Hok2 _ [Hrs ->].
  apply steps_ret; [done|]. split; [by apply service_records_id|done].
Qed.

Lemma steps_get_asset audit id w :
  inv_ok w →
  steps only_python (fun r w' => w' = w ∧ match r with
      | None => ∀ a, w.(assets) !! id = Some a → a.(asset_audit_id) ≠ audit
      | Some r => r.(record_asset).(asset_audit_id) = audit ∧ w.(assets) !! id = Some r.(record_asset) ∧
                  record_of w true r.(record_asset) r
      end) (get_asset audit id) w.
Proof.
  intros Hok. unfold get_asset. apply steps_bind, steps_reads; [done|]. destruct (first_row _ _) as [a|] eqn:Ha.
  - apply first_row_Some in Ha as (id' & Hid & [E1%String.eqb_eq E2%String.eqb_eq]%andb_true_iff).
    destruct (rows_ok _ _ _ _ _ (assets_ok _ Hok) _ _ Hid) as [E _]. rewrite <- E, E2 in Hid.
    apply steps_bind, steps_reads; [done|]. eapply steps_seq; [by apply steps_lift|]. intros r w1 Hok1 _ [Hr ->].
    apply asset_record_of in Hr. pose proof Hr as (Er & _). apply steps_ret; [done|]. by rewrite Er.
  - apply steps_ret; [done|]. split; [done|]. intros a Hid Haud. pose proof (proj1 (first_row_None _ _) Ha _ _ Hid) as Hno.
    destruct (rows_ok _ _ _ _ _ (assets_ok _ Hok) _ _ Hid) as [E _].
    cbv beta in Hno. by rewrite Haud, E, !String.eqb_refl in Hno.
Qed.

(** *** Requests *)

(** The operations of [InventoryService]. *)
Inductive InvCall : Type :=
  | ConfirmScope (audit : string) (scope : ValidatedScope) (interface : string) (route : dict)
      (actor : option string) (policy : string)
  | ActivateScope (id : string)
  | GetScope (id : string)
  | LatestScope (audit : string)
  | IngestNmap (audit : string) (job : option string) (document : NmapScanDocument) (source : string)
      (evidence : option string) (persist : bool)
  | IngestPassive (audit : string) (job : option string) (sensors : dict) (evidence : option string)
  | IngestPassiveFromAudit (audit : string) (job : option string)
  | EnsurePassive (audit : string) (job : option string)
  | RefreshClassifications (audit : string)
  | Summary (audit : string)
  | ListAssets (audit : string) (limit offset : Z) (q : AssetFilter) (include_services : bool)
  | GetAsset (audit id : string)
  | ListServices (audit : string) (limit offset : Z) (q : ServiceFilter).

Definition discard {A} (m : IM A) : IM unit := _ ← m; mret tt.

Definition inv_request (c : InvCall) : IM unit :=
  match c with
  | ConfirmScope audit scope interface route actor policy => discard (confirm_scope audit scope interface route actor policy)
  | ActivateScope id => discard (activate_scope id)
  | GetScope id => discard (get_scope id)
  | LatestScope audit => discard (latest_scope audit)
  | IngestNmap audit job document source evidence persist =>
      discard (ingest_nmap_document vendors audit job document source evidence persist)
  | IngestPassive audit job sensors evidence => discard (ingest_passive_sensors vendors audit job sensors evidence)
  | IngestPassiveFromAudit audit job => discard (ingest_passive_from_audit vendors read_json audit job)
  | EnsurePassive audit job => discard (ensure_passive_inventory vendors read_json audit job)
  | RefreshClassifications audit => refresh_classifications audit
  | Summary audit => discard (summary vendors read_json audit)
  | ListAssets audit limit offset q include => discard (list_assets vendors read_json audit limit offset q include)
  | GetAsset audit id => discard (get_asset audit id)
  | ListServices audit limit offset q => discard (list_services vendors read_json audit limit offset q)
  end.

(** The audit a request writes to, and its job, exist. *)
Definition request_ok w (c : InvCall) : Prop :=
  match c with
  | ConfirmScope audit _ _ _ _ _ => audit ∈ w.(audit_ids)
  | IngestNmap audit job _ _ _ _ | IngestPassive audit job _ _ => input_ok audit job w
  | IngestPassiveFromAudit _ job | EnsurePassive _ job => job_ok w job
  | _ => True
  end.

(** What a request may raise: a scope that is not there, a malformed passive value, an
    evidence file that cannot be read. *)
Definition request_errors w (c : InvCall) (e : InvExc) : Prop :=
  match c with
  | ConfirmScope _ _ _ _ _ _ | GetScope _ | LatestScope _ | IngestNmap _ _ _ _ _ _ | RefreshClassifications _ => False
  | ActivateScope id => e = InvLookupError id ∧ w.(scopes) !! id = None
  | IngestPassive _ _ _ _ | GetAsset _ _ => only_python e
  | IngestPassiveFromAudit _ _ => passive_errors read_json e
  | EnsurePassive _ _ | Summary _ | ListAssets _ _ _ _ _ | ListServices _ _ _ _ => ensure_errors read_json e
  end.

Lemma steps_discard {A} E (P : A → InvWorld → Prop) (m : IM A) w : steps E P m w → steps E (fun _ _ => True) (discard m) w.
Proof. intros Hm. eapply steps_seq; [exact Hm|]. intros a w1 Hok1 _ _. by apply steps_ret. Qed.

Lemma steps_request c w :
  inv_ok w → artifacts_ok w → request_ok w c → steps (request_errors w c) (fun _ _ => True) (inv_request c) w.
Proof.
  intros Hok Hart Hc. destruct c; cbn in *.
  - eapply steps_discard. by apply steps_confirm_scope.
  - eapply steps_discard. by apply steps_activate_scope.
  - eapply (steps_discard _ (fun _ _ => True)). by apply steps_reads.
  - eapply (steps_discard _ (fun _ _ => True)). by apply steps_reads.
  - destruct Hc as [Haud Hj]. eapply steps_discard. by apply steps_ingest_document.
  - eapply steps_discard. by apply steps_passive_sensors.
  - eapply steps_discard. by apply steps_passive_from_audit.
  - eapply steps_discard. by apply steps_ensure.
  - apply steps_transaction; [done|]. eapply steps_mono; [by apply steps_refresh|done|done].
  - eapply steps_discard. by apply steps_summary.
  - eapply steps_discard. by apply steps_list_assets.
  - eapply steps_discard. by apply steps_get_asset.
  - eapply steps_discard. by apply steps_list_services.
Qed.

(** Requests one after another; a failure is answered, and the next one is served. *)
Fixpoint serve (cs : list InvCall) w : list (outcome InvExc unit) * InvWorld :=
  match cs with
  | [] => ([], w)
  | c :: cs' => let '(r, w1) := inv_request c w in let '(rs, w2) := serve cs' w1 in (r :: rs, w2)
  end.

Lemma request_ok_mono w w' c : evolves w w' → request_ok w c → request_ok w' c.
Proof.
  intros Hev. destruct c; cbn; try done; try apply input_ok_mono; try done; try by apply job_ok_mono.
  by rewrite (same_audits _ _ Hev).
Qed.

Lemma artifacts_ok_mono w w' : evolves w w' → artifacts_ok w → artifacts_ok w'.
Proof. intros Hev Hart id a. rewrite (same_artifacts _ _ Hev), (same_audits _ _ Hev). apply Hart. Qed.

(** No constraint of the database ever fails. *)
Definition no_integrity_error (r : outcome InvExc unit) : Prop := ∀ c, r ≠ Raise (InvIntegrityError c).

(** The reader of evidence does not touch the database. *)
Definition reader_ok : Prop := ∀ read a c, read_json = Some read → read a ≠ Raise (InvIntegrityError c).

Lemma request_errors_no_integrity w c e : reader_ok → request_errors w c e → ∀ k, e ≠ InvIntegrityError k.
Proof.
  intros Hr. assert (∀ e, passive_errors read_json e → ∀ k, e ≠ InvIntegrityError k) as Hp.
  { intros e' [He|(read & a & Hread & He)] k ->; [done|by eapply Hr]. }
  destruct c; cbn; try done; try (by apply Hp); intros He k ->; first [done|by destruct He|by destruct He as [He _]; apply (Hp _ He k)].
Qed.

Lemma serve_ok cs w :
  inv_ok w → artifacts_ok w → reader_ok → Forall (request_ok w) cs →
  inv_ok (serve cs w).2 ∧ evolves w (serve cs w).2 ∧ Forall no_integrity_error (serve cs w).1.
Proof.
  intros Hok Hart Hr. revert w Hok Hart. induction cs as [|c cs IH]; intros w Hok Hart Hall; [done|].
  apply Forall_cons in Hall as [Hc Hall]. pose proof (steps_request c w Hok Hart Hc) as Hs. unfold steps, wp in Hs. cbn.
  destruct (inv_request c w) as [r w1]. cbn in Hs. destruct Hs as (Hok1 & Hev1 & He).
  destruct (IH w1) as (I1 & I2 & I3); [done|by eapply artifacts_ok_mono|eapply Forall_impl; [exact Hall|intros c'; by apply request_ok_mono]|].
  destruct (serve cs w1) as [rs w2]. cbn in *. split_and!; [done|by etrans|]. constructor; [|done].
  intros k ->. by eapply request_errors_no_integrity.
Qed.
End requests.
