(* ===== verification/InventoryTheorems.v ===== *)
(** * What holds of the inventory

    Sequences of requests keep the database well formed; a scan is recorded whole and
    taking it in again adds nothing; correlation follows the hardware address, then the
    first known address, and never takes an address from another asset. *)

From S2P Require Import Prelude PyBase PyText JobModels JobStore JobSystem ScopeEngine Nmap FindModels InventoryBase Inventory InventoryIngest InventoryQueries InventoryInvariant InventoryCorrelate InventoryProofs InventoryNormalize InventoryHostProofs InventorySystem.

Section theorems.
Context `{Runtime, !RuntimeOk}.
Context (vendors : OuiResolver) (read_json : option (ArtifactModel → outcome InvExc pyval)).
Implicit Types (w : InvWorld).

(** C21: Whatever requests the inventory serves, and however they fail, its tables stay
    well formed (rows under their own id, foreign keys met, unique keys unique, at most
    twenty conflicts kept per asset); rows only evolve: none disappears, an address never
    moves to another asset, a hardware address never changes, first-seen times stay; and
    no constraint of the database ever fails. *)
Theorem inventory_invariant requests w :
  inv_ok w → artifacts_ok w → reader_ok read_json → Forall (request_ok w) requests →
  inv_ok (serve vendors read_json requests w).2 ∧ evolves w (serve vendors read_json requests w).2 ∧
  Forall no_integrity_error (serve vendors read_json requests w).1.
Proof. intros Hok Hart Hr Hall. by apply serve_ok. Qed.

(** C22: Taking in a scan always succeeds and answers how many hosts were kept: those that
    are up or have a hardware address, a name or a port, and, when asked for, those that
    are down.  Every kept host has afterwards one asset of the audit to which its names
    and ports are recorded, and each of its addresses belongs to some asset. *)
Theorem ingest_document_correct audit job document source evidence persist w :
  inv_ok w → audit ∈ w.(audit_ids) → (∀ j, job = Some j → j ∈ w.(job_ids)) →
  ∃ w', ingest_nmap_document vendors audit job document source evidence persist w =
          (Return (Z.of_nat (length (kept_hosts persist document))), w') ∧
    inv_ok w' ∧ evolves w w' ∧
    ∀ h, h ∈ kept_hosts persist document →
      (∀ x, x ∈ (host_ips h).*1 → owner w' audit x ≠ None) ∧
      ∃ id, owner_ok w' audit id ∧
        (∀ n, n ∈ h.(hostnames) → nonempty (clean_name n.(host_name)) = true →
           has_name w' id (clean_name n.(host_name))
             (if nonempty n.(host_name_type) then n.(host_name_type) else "PTR") "nmap") ∧
        (∀ p, p ∈ h.(ports) → has_service w' id p.(np_protocol) p.(np_port)).
Proof.
  intros Hok Haud Hj. pose proof (steps_ingest_document vendors audit job document source evidence persist w Hok Haud Hj) as Hs.
  unfold steps, wp in Hs. destruct (ingest_nmap_document _ _ _ _ _ _ _ w) as [[n|e] w']; cbn in Hs;
    [|by destruct Hs as (_ & _ & [])].
  destruct Hs as (Hok' & Hev & -> & Hall & _). exists w'. split_and!; [done..|].
  intros h Hh. destruct (Hall h Hh) as (_ & Hx & id & Hrest). split; [done|]. by exists id.
Qed.

(** C23: Taking the same scan in again, when each kept host has a hardware address or an
    address to be known by, adds no asset and no address, even after other requests. *)
Theorem reingest_creates_nothing audit job job2 document source source2 evidence evidence2 persist w w1 w2 w3 n n2 :
  inv_ok w → audit ∈ w.(audit_ids) → (∀ j, job = Some j → j ∈ w.(job_ids)) → (∀ j, job2 = Some j → j ∈ w.(job_ids)) →
  (∀ h, h ∈ kept_hosts persist document → is_Some (canonical_mac (host_mac h)) ∨ host_ips h ≠ []) →
  ingest_nmap_document vendors audit job document source evidence persist w = (Return n, w1) →
  inv_ok w2 → evolves w1 w2 →
  ingest_nmap_document vendors audit job2 document source2 evidence2 persist w2 = (Return n2, w3) →
  n2 = n ∧ dom w3.(assets) = dom w2.(assets) ∧ dom w3.(addresses) = dom w2.(addresses).
Proof.
  intros Hok Haud Hj Hj2 Hid Hrun1 Hok2 Hev12 Hrun2.
  pose proof (steps_ingest_document vendors audit job document source evidence persist w Hok Haud Hj) as H1.
  unfold steps, wp in H1. rewrite Hrun1 in H1. cbn in H1. destruct H1 as (Hok1 & Hev1 & -> & Hall & _).
  assert (evolves w w2) as Hev2 by by etrans.
  assert (job_ok w2 job2) as Hj2' by by eapply job_ok_mono.
  pose proof (steps_ingest_document vendors audit job2 document source2 evidence2 persist w2 Hok2
    ltac:(by rewrite (same_audits _ _ Hev2)) Hj2') as H2.
  unfold steps, wp in H2. rewrite Hrun2 in H2. cbn in H2. destruct H2 as (Hok3 & Hev3 & -> & _ & Hids).
  split; [done|]. destruct Hids as [E1 E2]; [|by split].
  intros h Hh. split; [by apply Hid|]. eapply (host_known_mono w1); [done..|by apply Hall].
Qed.

(** Correlation: the asset with the hardware address; without one, the owner of the
    first of the addresses that has an owner; otherwise none.  Blocked are exactly the
    addresses another asset owns, and there is a conflict only when one is blocked. *)
Theorem correlate_correct audit m ips w :
  inv_ok w →
  ∃ found conflict, _correlate audit m ips w = (Return (found, conflict), w) ∧
    (∀ a, found = Some a ↔
       (w.(assets) !! a.(asset_id) = Some a ∧ a.(asset_audit_id) = audit ∧ a.(mac) = m ∧ is_Some m) ∨
       (by_mac w audit m = None ∧ ∃ pre x post, ips = pre ++ x :: post ∧ owner w audit x.1 = Some a ∧
          ∀ y, y ∈ pre → owner w audit y.1 = None)) ∧
    (∀ x, x ∈ blocked_addresses conflict ↔
       ∃ a b, found = Some a ∧ x ∈ ips.*1 ∧ owner w audit x = Some b ∧ b.(asset_id) ≠ a.(asset_id)) ∧
    (blocked_addresses conflict = [] → conflict = []).
Proof.
  intros Hok. destruct (correlate_run w audit m ips Hok) as (conflict & Hrun & Hb & Hc).
  exists (chosen w audit m ips), conflict. split_and!; [done| | |done].
  - intros a. unfold chosen. destruct (by_mac w audit m) as [b|] eqn:Hm.
    + split; [intros [= <-]; left; by apply by_mac_Some|]. intros [Ha|[? _]]; [|done].
      rewrite <- Hm. by apply by_mac_Some.
    + assert (∀ a, first_owner w audit ips = Some a ↔ ∃ pre x post, ips = pre ++ x :: post ∧ owner w audit x.1 = Some a ∧
          ∀ y, y ∈ pre → owner w audit y.1 = None) as Hfirst.
      { clear. intros a. unfold first_owner. induction ips as [|x ips IH]; cbn.
        - split; [done|]. intros ([|] & x & post & [=] & _).
        - destruct (owner w audit x.1) as [b|] eqn:Hx; cbn.
          + split; [intros [= <-]; exists [], x, ips; split_and!; [done..|by intros y ?%elem_of_nil]|].
            intros ([|z pre] & y & post & E & Ho & Hpre); injection E as -> ->; [congruence|].
            rewrite Hpre in Hx; [done|constructor].
          + rewrite IH. split.
            * intros (pre & y & post & -> & Ho & Hpre). exists (x :: pre), y, post. split_and!; [done..|].
              intros z [->|Hz]%elem_of_cons; [done|by apply Hpre].
            * intros ([|z pre] & y & post & E & Ho & Hpre); injection E as -> ->; [congruence|].
              exists pre, y, post. split_and!; [done..|]. intros u Hu. apply Hpre. by constructor. }
      rewrite Hfirst. split; [by right|]. intros [Ha|[_ Ha]]; [|done]. by apply by_mac_Some in Ha; [congruence|].
  - intros x. rewrite Hb. destruct (chosen w audit m ips) as [a|].
    + rewrite blocked_elem. split.
      * intros (Hx & b & Ho & Hne). by exists a, b.
      * intros (? & b & [= <-] & Hx & Ho & Hne). split; [done|]. by exists b.
    + split; [by intros ?%elem_of_nil|]. by intros (? & ? & ? & _).
Qed.

(** Confirming a scope again, with the same profile, interface and targets, gives the
    scope confirmed first, whatever happened in between, and writes nothing. *)
Theorem confirm_scope_idempotent audit scope scope2 interface route route2 actor actor2 policy policy2 w w1 s w2 :
  inv_ok w → audit ∈ w.(audit_ids) →
  scope2.(scope_profile) = scope.(scope_profile) → scope2.(canonical_targets) = scope.(canonical_targets) →
  confirm_scope audit scope interface route actor policy w = (Return s, w1) →
  inv_ok w2 → evolves w1 w2 →
  ∃ s', confirm_scope audit scope2 interface route2 actor2 policy2 w2 = (Return s', w2) ∧
        s'.(cs_id) = s.(cs_id) ∧ w2.(scopes) !! s.(cs_id) = Some s' ∧ scope_kept s s'.
Proof.
  intros Hok Haud Ep Et Hrun Hok2 Hev.
  pose proof (steps_confirm_scope audit scope interface route actor policy w Hok Haud) as H1.
  unfold steps, wp in H1. rewrite Hrun in H1. cbn in H1. destruct H1 as (Hok1 & Hev1 & Hs & E1 & E2 & _).
  destruct (scopes_evolve _ _ Hev _ _ Hs) as (s2 & Hs2 & Hkept).
  assert (s2.(cs_id) = s.(cs_id) ∧ s2.(cs_audit_id) = s.(cs_audit_id) ∧ s2.(snapshot_hash) = s.(snapshot_hash)) as (K1 & K2 & K3).
  { destruct Hkept as [->|(_ & t & ->)]; done. }
  assert (audit ∈ w2.(audit_ids)) as Haud2.
  { by rewrite (same_audits _ _ Hev), (same_audits _ _ Hev1). }
  pose proof (steps_confirm_scope audit scope2 interface route2 actor2 policy2 w2 Hok2 Haud2) as H2.
  unfold steps, wp in H2. destruct (confirm_scope _ scope2 _ _ _ _ w2) as [[s3|e] w3]; cbn in H2; [|by destruct H2 as (_ & _ & [])].
  destruct H2 as (Hok3 & Hev3 & Hs3 & F1 & F2 & Hsame). rewrite Ep, Et in F2, Hsame.
  rewrite Hsame in Hs3 |- * by (exists s.(cs_id), s2; split_and!; congruence).
  assert (s3.(cs_id) = s.(cs_id)) as Eid.
  { apply (rows_unique _ _ _ _ _ (scopes_ok _ Hok2) _ _ _ _ Hs3 Hs2). split; congruence. }
  exists s3. rewrite <- Eid in *. split_and!; [done|done|done|]. by replace s3 with s2 by congruence.
Qed.

(** Observing a port again: state, reason, tunnel, method, confidence, source and time
    are the new ones; name, product, version, extra information, banner and CPEs are the
    new ones too unless a less or equally trusted observation contradicts a value there
    is; the asset's list of conflicts keeps at most twenty. *)
Theorem merge_service_correct p source now s metadata :
  conflicts_listed metadata →
  ∃ s' metadata', merge_service p source now s metadata = Return (s', metadata') ∧
    observed_as p source now s' ∧ service_kept s s' ∧ s'.(srv_id) = s.(srv_id) ∧
    let weaker := _confidence_rank (_service_confidence p.(np_service)) <=? _confidence_rank s.(srv_confidence) in
    let keeps {A} (val : A → pyval) (current value final : A) :=
      (final = value ∨ final = current) ∧
      (final ≠ value → truthy (val current) = true ∧ truthy (val value) = true ∧ weaker = true) ∧
      (truthy (val current) = true → truthy (val value) = true → weaker = true → final = current) in
    keeps opt_val s.(srv_service_name) (v ← p.(np_service); v.(svc_name)) s'.(srv_service_name) ∧
    keeps opt_val s.(srv_product) (v ← p.(np_service); v.(svc_product)) s'.(srv_product) ∧
    keeps opt_val s.(srv_version) (v ← p.(np_service); v.(svc_version)) s'.(srv_version) ∧
    keeps opt_val s.(srv_extra_info) (v ← p.(np_service); v.(svc_extra_info)) s'.(srv_extra_info) ∧
    keeps opt_val s.(srv_banner) (v ← p.(np_service); v.(svc_banner)) s'.(srv_banner) ∧
    keeps strings s.(srv_cpe) (match p.(np_service) with Some v => v.(svc_cpe) | None => [] end) s'.(srv_cpe) ∧
    conflicts_listed metadata'.
Proof.
  intros Hm. destruct (merge_service_spec p source now s metadata Hm) as (metadata' & Hrun & Hm').
  exists (merged_service p source now s), metadata'.
  split; [done|]. split; [apply merged_observed|]. split; [apply merged_kept|]. split; [by destruct s|]. cbv zeta.
  assert (∀ A (EA : EqDecision A) (val : A → pyval) weaker (current value : A),
    (merged val weaker current value = value ∨ merged val weaker current value = current) ∧
    (merged val weaker current value ≠ value → truthy (val current) = true ∧ truthy (val value) = true ∧ weaker = true) ∧
    (truthy (val current) = true → truthy (val value) = true → weaker = true → merged val weaker current value = current)) as Hmerged.
  { intros A EA val weaker current value. unfold merged.
    destruct (truthy (val current)), (truthy (val value)), weaker, (bool_decide_reflect (current = value)); cbn; naive_solver. }
  split_and!; try apply Hmerged. done.
Qed.

(** What every class but the unknown one comes with. *)
Definition cautious (r : DeviceClassHint * ConfidenceLevel * list string) : Prop :=
  let '(hint, confidence, sources) := r in
  (hint = CLASS_UNKNOWN ↔ sources = []) ∧ NoDup sources ∧
  (confidence = CONF_HIGH → (2 <= length sources)%nat) ∧
  (length sources = 1%nat → confidence = CONF_MEDIUM ∨ confidence = CONF_LOW) ∧
  (sources = [] → confidence = CONF_UNKNOWN) ∧ confidence ≠ CONF_CONFIRMED ∧ confidence ≠ CONF_HINT.

Lemma signals_cautious hint strong (l : list (bool * string)) :
  hint ≠ CLASS_UNKNOWN → NoDup l.*2 → existsb fst l = true → cautious (hint, _confidence (signals l) strong, signals l).
Proof.
  intros Hh Hl Hany.
  assert (NoDup (signals l) ∧ signals l ≠ []) as [Hnd Hne].
  { split.
    - clear -Hl. induction l as [|[b x] l IH]; [constructor|]. rewrite fmap_cons in Hl. apply NoDup_cons in Hl as [Hx Hl].
      unfold signals. cbn [flat_map fst snd]. fold (signals l). destruct b; [|by apply IH]. constructor; [|by apply IH].
      intros Hin. apply Hx. clear -Hin. induction l as [|[[|] y] l IH]; [by apply elem_of_nil in Hin| |].
      + change (x ∈ y :: signals l) in Hin. rewrite fmap_cons. apply elem_of_cons in Hin as [->|Hin]; [constructor|].
        constructor. by apply IH.
      + rewrite fmap_cons. constructor. by apply IH.
    - clear -Hany. induction l as [|[[|] x] l IH]; [done|done|]. by apply IH. }
  clear Hany. generalize dependent (signals l). intros sources Hnd Hne. unfold cautious, _confidence. rewrite size_list_to_set by done.
  destruct sources as [|x [|y sources]]; [done| |]; destruct strong; cbn; split_and!; try done; naive_solver lia.
Qed.

(** A device class is only hinted at: there is one exactly when a signal was seen, its
    confidence is high only with two different signals, a single signal gives medium at
    most, and it is never confirmed. *)
Theorem classify_device_cautious family name vendor open names neighbors :
  cautious (classify_device family name vendor open names neighbors).
Proof.
  unfold classify_device. cbv zeta.
  repeat match goal with
  | |- cautious (if ?b then _ else _) =>
      destruct b eqn:?;
        [apply signals_cautious; [done|by apply (bool_decide_unpack _); vm_compute|
           cbn [existsb fst]; rewrite ?orb_true_iff in *; rewrite ?orb_false_r; tauto]|]
  end.
  split_and!; try done. constructor.
Qed.

(** A filter of the inventory matches exactly the texts that contain the value, code
    point by code point and whatever the case of ASCII letters: the characters LIKE treats
    specially are taken literally. *)
Theorem ilike_contains text value :
  cont_head value = false →
  (ilike (Some text) value = true ↔ ∃ pre post, chars (lower text) = pre ++ chars (lower value) ++ post) ∧
  ilike None value = false.
Proof. intros Hv. split; [by apply ilike_spec|done]. Qed.

(** Canonical forms are fixed points: the canonical text of a hardware or internet
    address is its own canonical text, with the same family, which is 4 or 6; canonical
    hardware addresses have 17 characters. *)
Theorem canonical_forms_idempotent value m s t family :
  (canonical_mac value = Some m → canonical_mac (Some m) = Some m ∧ String.length m = 17%nat) ∧
  (canonical_ip s = Some (t, family) → canonical_ip t = Some (t, family) ∧ (family = 4 ∨ family = 6)).
Proof.
  split.
  - intros Hm. split; [by eapply canonical_mac_idem|by eapply canonical_mac_length].
  - intros Hs. split; [by eapply canonical_ip_idem|by eapply canonical_ip_family].
Qed.

(** A returned page of assets is the requested slice of the matching assets, newest
    first, each with exactly its addresses, names and, when asked for, services, as they
    are once the newest passive result is taken in; the total counts all that match. *)
Theorem list_assets_correct audit limit offset q include w p w' :
  inv_ok w → artifacts_ok w → 0 ≤ limit → 0 ≤ offset →
  list_assets vendors read_json audit limit offset q include w = (Return p, w') →
  inv_ok w' ∧ evolves w w' ∧
  ∃ all : list AssetModel,
    StronglySorted (fun a b => asset_le a b = true) all ∧ NoDup (map asset_id all) ∧
    (∀ a, a ∈ all ↔ w'.(assets) !! a.(asset_id) = Some a ∧ asset_matches w' audit q a = true) ∧
    p.(total) = Z.of_nat (length all) ∧
    Forall2 (record_of w' include) (take (Z.to_nat limit) (drop (Z.to_nat offset) all)) p.(items).
Proof.
  intros Hok Hart Hl Ho Hrun. pose proof (steps_list_assets vendors read_json audit limit offset q include w Hok Hart) as Hs.
  unfold steps, wp in Hs. rewrite Hrun in Hs. cbn in Hs. destruct Hs as (Hok' & Hev & Ht & Hp).
  split; [done|]. split; [done|]. set (rows := rows_of w'.(assets) (asset_matches w' audit q)) in *.
  exists (sort_by asset_le rows). split_and!.
  - apply sorted_by. unfold asset_le. apply _.
  - change (NoDup (asset_id <$> sort_by asset_le rows)). rewrite sort_by_perm. apply (rows_of_NoDup _ asset_id).
    intros id a Ha. by apply (rows_ok _ _ _ _ _ (assets_ok _ Hok')).
  - intros a. rewrite elem_of_sort_by. unfold rows. rewrite rows_of_elem. split.
    + intros (id & Hid & Hm). destruct (rows_ok _ _ _ _ _ (assets_ok _ Hok') _ _ Hid) as [-> _]. done.
    + intros [Hid Hm]. by exists a.(asset_id).
  - by rewrite (Permutation_length (sort_by_perm asset_le rows)).
  - unfold sql_page in Hp. by rewrite (proj2 (Z.ltb_ge _ _) Hl) in Hp.
Qed.

(** A summary counts the rows the database holds once the newest passive result is
    taken in: the assets and services of the audit, each class of device, and no service
    both as TCP and as UDP. *)
Theorem summary_correct audit w s w' :
  inv_ok w → artifacts_ok w → summary vendors read_json audit w = (Return s, w') →
  inv_ok w' ∧ evolves w w' ∧ summarises s audit w' ∧ s.(tcp_services) + s.(udp_services) ≤ s.(service_count).
Proof.
  intros Hok Hart Hrun. pose proof (steps_summary vendors read_json audit w Hok Hart) as Hs.
  unfold steps, wp in Hs. rewrite Hrun in Hs. cbn in Hs. destruct Hs as (Hok' & Hev & Hsum).
  split_and!; [done..|]. destruct Hsum as (_ & Eall & Et & Eu & _). rewrite Eall, Et, Eu. unfold services_where.
  rewrite (count_rows_add w'.(services) _ _
    (fun s => String.eqb s.(srv_audit_id) audit && (String.eqb s.(srv_protocol) "tcp" || String.eqb s.(srv_protocol) "udp"))).
  - apply count_rows_le. intros x. by rewrite andb_true_r, andb_true_iff; intros [-> _].
  - intros x [_ E1%String.eqb_eq]%andb_true_iff [_ E2%String.eqb_eq]%andb_true_iff. congruence.
  - intros x. by rewrite <- andb_orb_distrib_r.
Qed.
End theorems.

(** ** The theorems at work *)

(** An audit without assets, and a host of a scan. *)
Definition empty_inventory : InvWorld := mkInvWorld {["a"]} ∅ ∅ ∅ ∅ ∅ ∅ ∅ ∅ 0 0.

Lemma empty_inventory_ok : inv_ok empty_inventory.
Proof. split; apply table_empty. Qed.

Lemma empty_artifacts_ok : artifacts_ok empty_inventory.
Proof. intros id a Ha. cbn in Ha. by rewrite lookup_empty in Ha. Qed.

Definition demo_vendors : OuiResolver := mkResolver [("AA:BB:CC", "Brother")] "oui" None.

Definition web_service : NmapService :=
  mkNmapService (Some "http") (Some "nginx") (Some "1.24") None None (Some "probed") (Some 10) [] None.
Definition web_port : NmapPort := mkNmapPort "tcp" 80 "open" (Some "syn-ack") (Some web_service).
Definition web_host : NmapHost :=
  mkHost "up" None [mkNmapAddress "192.0.2.7" "ipv4" None; mkNmapAddress "aabb.ccdd.eeff" "mac" None]
    [mkHostname "web.example." "PTR"] [web_port] [] None None.
Definition web_scan : NmapScanDocument :=
  mkScanDocument "nmap" None None None None [web_host] None None None true.

Definition scanned : InvWorld := (ingest_nmap_document demo_vendors "a" None web_scan "nmap" None false empty_inventory).2.

Lemma scan_runs : ingest_nmap_document demo_vendors "a" None web_scan "nmap" None false empty_inventory = (Return 1, scanned).
Proof. unfold scanned. rewrite (surjective_pairing (ingest_nmap_document _ _ _ _ _ _ _ _)). by vm_compute. Qed.

Lemma no_job w : ∀ j : string, None = Some j → j ∈ w.(job_ids).
Proof. done. Qed.

Lemma scanned_ok : inv_ok scanned ∧ evolves empty_inventory scanned.
Proof.
  pose proof (steps_ingest_document demo_vendors "a" None web_scan "nmap" None false _ empty_inventory_ok
    ltac:(set_solver) (no_job _)) as Hs.
  unfold steps, wp in Hs. rewrite scan_runs in Hs. cbn [fst snd] in Hs. by destruct Hs as (? & ? & _).
Qed.

Lemma scanned_artifacts : artifacts_ok scanned.
Proof. exact (artifacts_ok_mono _ _ (proj2 scanned_ok) empty_artifacts_ok). Qed.

Lemma inventory_invariant_witness :
  let requests := [IngestNmap "a" None web_scan "nmap" None false; Summary "a"; ActivateScope "none"] in
  inv_ok empty_inventory ∧ inv_ok (serve demo_vendors None requests empty_inventory).2 ∧
  Forall no_integrity_error (serve demo_vendors None requests empty_inventory).1.
Proof.
  cbv zeta. split; [apply empty_inventory_ok|].
  assert (Forall (request_ok empty_inventory)
    [IngestNmap "a" None web_scan "nmap" None false; Summary "a"; ActivateScope "none"]) as Hall.
  { constructor; [split; [set_solver|by intros j]|]. by constructor; [|constructor; [|constructor]]. }
  pose proof (inventory_invariant demo_vendors None _ empty_inventory empty_inventory_ok empty_artifacts_ok
    ltac:(by intros read) Hall) as (H1 & _ & H3). by split.
Defined.

Lemma ingest_document_correct_witness :
  ∃ w', ingest_nmap_document demo_vendors "a" None web_scan "nmap" None false empty_inventory = (Return 1, w') ∧
    owner w' "a" "192.0.2.7" ≠ None.
Proof.
  destruct (ingest_document_correct demo_vendors "a" None web_scan "nmap" None false empty_inventory
    empty_inventory_ok ltac:(set_solver) (no_job _)) as (w' & Hrun & _ & _ & Hall).
  exists w'. split; [exact Hrun|]. apply (Hall web_host); [constructor|]. vm_compute. constructor.
Defined.

Definition rescanned : InvWorld := (ingest_nmap_document demo_vendors "a" None web_scan "again" None false scanned).2.

Lemma rescan_runs : ingest_nmap_document demo_vendors "a" None web_scan "again" None false scanned = (Return 1, rescanned).
Proof. unfold rescanned. rewrite (surjective_pairing (ingest_nmap_document _ _ _ _ _ _ _ scanned)). by vm_compute. Qed.

Lemma reingest_creates_nothing_witness :
  dom rescanned.(assets) = dom scanned.(assets) ∧ dom rescanned.(addresses) = dom scanned.(addresses).
Proof.
  refine (proj2 (reingest_creates_nothing demo_vendors "a" None None web_scan "nmap" "again" None None false
    empty_inventory scanned scanned rescanned 1 1 empty_inventory_ok ltac:(set_solver) (no_job _) (no_job _) _ scan_runs
    (proj1 scanned_ok) _ rescan_runs)).
  - intros h Hh. apply list_elem_of_singleton in Hh as ->. left. vm_compute. by eexists.
  - reflexivity.
Defined.

(** The address is known; with another hardware address it is blocked. *)
Lemma correlate_correct_witness :
  inv_ok scanned ∧
  ∃ found conflict, _correlate "a" (Some "AA:BB:CC:DD:EE:FF") [("192.0.2.7", 4); ("192.0.2.9", 4)] scanned =
                      (Return (found, conflict), scanned) ∧ blocked_addresses conflict = [].
Proof.
  split; [apply scanned_ok|].
  destruct (correlate_correct "a" (Some "AA:BB:CC:DD:EE:FF") [("192.0.2.7", 4); ("192.0.2.9", 4)] scanned
    (proj1 scanned_ok)) as (found & conflict & Hrun & _ & Hb & _).
  exists found, conflict. split; [exact Hrun|]. vm_compute in Hrun. injection Hrun as _ <-. reflexivity.
Defined.

Definition demo_scope : ValidatedScope := mkValidatedScope DISCOVERY [] ["192.0.2.0/24"] [4] 254 (mkPerFamily 1024 256).

Lemma confirm_scope_idempotent_witness :
  match confirm_scope "a" demo_scope "eth0" [] None "polite" empty_inventory with
  | (Return s, w1) =>
      ∃ s', confirm_scope "a" demo_scope "eth0" [] (Some "ops") "normal" w1 = (Return s', w1) ∧ s'.(cs_id) = s.(cs_id)
  | (Raise _, _) => False
  end.
Proof.
  pose proof (steps_confirm_scope "a" demo_scope "eth0" [] None "polite" empty_inventory empty_inventory_ok
    ltac:(set_solver)) as Hs.
  unfold steps, wp in Hs. destruct (confirm_scope _ _ _ _ _ _ _) as [[s|e] w1] eqn:Hrun;
    [|exact (proj2 (proj2 Hs))].
  destruct (confirm_scope_idempotent "a" demo_scope demo_scope "eth0" [] [] None (Some "ops") "polite" "normal"
    empty_inventory w1 s w1 empty_inventory_ok ltac:(set_solver) eq_refl eq_refl Hrun (proj1 Hs) ltac:(reflexivity))
    as (s' & H1 & H2 & _).
  exists s'. split; [exact H1|exact H2].
Defined.

Definition web_row : ServiceModel := new_service "1" "a" "x" web_port "nmap" 0.

(** A guess does not replace what a probe found. *)
Lemma merge_service_correct_witness :
  conflicts_listed [] ∧
  ∃ s' d', merge_service (mkNmapPort "tcp" 80 "open" None
    (Some (mkNmapService (Some "http") (Some "apache") None None None (Some "table") (Some 3) [] None))) "nmap" 5 web_row [] =
      Return (s', d') ∧ s'.(srv_product) = Some "nginx" ∧ s'.(srv_version) = None.
Proof.
  split; [apply conflicts_listed_empty|].
  destruct (merge_service_correct (mkNmapPort "tcp" 80 "open" None
    (Some (mkNmapService (Some "http") (Some "apache") None None None (Some "table") (Some 3) [] None))) "nmap" 5 web_row []
    conflicts_listed_empty) as (s' & d' & Hrun & _).
  exists s', d'. split; [exact Hrun|]. vm_compute in Hrun. injection Hrun as <- _. by split.
Defined.

Lemma ilike_contains_witness :
  cont_head "100%" = false ∧ ilike (Some "at 100% load") "100%" = true ∧ ilike (Some "at 1000 load") "100%" = false.
Proof.
  split; [done|]. split; [|by vm_compute].
  apply (proj1 (ilike_contains "at 100% load" "100%" eq_refl)).
  exists ["a"; "t"; " "], [" "; "l"; "o"; "a"; "d"]. by vm_compute.
Defined.

Lemma canonical_forms_idempotent_witness :
  canonical_mac (Some "aabb.ccdd.eeff") = Some "AA:BB:CC:DD:EE:FF" ∧
  canonical_mac (Some "AA:BB:CC:DD:EE:FF") = Some "AA:BB:CC:DD:EE:FF".
Proof.
  split; [by vm_compute|].
  exact (proj1 (proj1 (canonical_forms_idempotent (Some "aabb.ccdd.eeff") "AA:BB:CC:DD:EE:FF" "" "" 4) ltac:(by vm_compute))).
Defined.

Definition is_return {E A} (r : outcome E A) : bool := match r with Return _ => true | Raise _ => false end.

Definition no_filter : AssetFilter := mkAssetFilter None None None None None None.

Lemma list_assets_correct_witness :
  match list_assets demo_vendors None "a" 10 0 no_filter true scanned with
  | (Return p, w') => inv_ok w' ∧ ∃ all : list AssetModel, p.(total) = Z.of_nat (length all) ∧ NoDup (map asset_id all)
  | (Raise _, _) => False
  end.
Proof.
  pose proof (eq_refl : is_return (list_assets demo_vendors None "a" 10 0 no_filter true scanned).1 = true) as Hret.
  destruct (list_assets _ _ _ _ _ _ _ _) as [[p|e] w'] eqn:Hrun; [|discriminate Hret].
  destruct (list_assets_correct demo_vendors None "a" 10 0 no_filter true scanned p w' (proj1 scanned_ok)
    scanned_artifacts ltac:(lia) ltac:(lia) Hrun)
    as (H1 & _ & all & _ & H2 & _ & H3 & _).
  split; [exact H1|]. exists all. split; [exact H3|exact H2].
Defined.

(** What the inventory holds after one scan. *)
Example scanned_summary :
  match (summary demo_vendors None "a" scanned).1 with
  | Return s => s.(asset_count) = 1 ∧ s.(service_count) = 1 ∧ s.(ipv4_addresses) = 1 ∧ s.(device_classes) !! PRINTER = Some 1
  | Raise _ => False
  end.
Proof. vm_compute. by split_and!. Qed.

(** ** What the code does not mean to do *)

(** A guess of the product, of a given trust. *)
Definition guess (confidence : Z) : NmapPort :=
  mkNmapPort "tcp" 80 "open" None
    (Some (mkNmapService (Some "http") (Some "apache") None None None (Some "table") (Some confidence) [] None)).

(** The first guess is kept out, but leaves its low confidence on the row: the second,
    still weaker than the probe, replaces what the probe found. *)
Example two_guesses_replace_probe :
  web_row.(srv_confidence) = CONF_HIGH ∧
  match (st ← merge_service (guess 3) "nmap" 5 web_row []; let '(s, d) := (st : ServiceModel * dict) in
         st2 ← merge_service (guess 4) "nmap" 6 s d; mret (s, fst (st2 : ServiceModel * dict))) with
  | Return (first, second) => first.(srv_product) = Some "nginx" ∧ first.(srv_confidence) = CONF_HINT ∧
                              second.(srv_product) = Some "apache"
  | Raise _ => False
  end.
Proof. vm_compute. by split_and!. Qed.

(** A scan without version detection clears the product and version found before. *)
Example plain_scan_forgets_product :
  match merge_service (mkNmapPort "tcp" 80 "open" None None) "nmap" 5 web_row [] with
  | Return (s, _) => s.(srv_product) = None ∧ s.(srv_version) = None ∧ s.(srv_service_name) = None
  | Raise _ => False
  end.
Proof. vm_compute. by split_and!. Qed.

(** "Manufacturing" contains "ring", and "iOS" contains "ios". *)
Example substrings_classify :
  (classify_device None None (Some "Murata Manufacturing Co., Ltd.") ∅ ∅ false).1.1 = IOT ∧
  (classify_device (Some "iOS") (Some "Apple iOS 16") (Some "Apple") ∅ ∅ false).1.1 = NETWORK_DEVICE.
Proof. by vm_compute. Qed.

(** A DHCP observation of a host name alone, in the passive result of the audit. *)
Definition named_only : pyval :=
  PDict [("result", PDict [("sensors", PDict [("dhcpv4", PDict [("observations",
    PList [PDict [("data", PDict [("hostname", PStr "printer-2")])]])])])])].

Definition passive_artifact : ArtifactModel := mkArtifact "r" "a" None "passive_result" "r.json" "application/json" 1 "h" 0 RETENTION_AUDIT None None.

Definition with_passive_result : InvWorld := empty_inventory <| audit_artifacts := {["r" := passive_artifact]} |>.

(** Each time the inventory is read the host becomes one more asset. *)
Example names_alone_multiply :
  let read := Some (fun _ : ArtifactModel => Return named_only) in
  match (s1 ← summary demo_vendors read "a"; s2 ← summary demo_vendors read "a"; mret (s1, s2)) with_passive_result with
  | (Return (s1, s2), _) => s1.(asset_count) = 1 ∧ s2.(asset_count) = 2
  | _ => False
  end.
Proof. vm_compute. by split. Qed.
