(* ===== verification/Regex.v ===== *)
(** * Regular expressions ([re])

    The part of Python's [re] the modelled code uses: character classes, sequences,
    alternatives, greedy and lazy repetition, groups, anchors and lookahead, matched by
    backtracking from left to right.  A pattern is matched against bytes; the classes of
    the code treat the bytes of a character beyond ASCII alike.  The flag [re.I] is a
    closure of the classes under case, [re.M] and [re.S] choose the anchors and the dot. *)

From S2P Require Import Prelude PyBase PyText.

Inductive regex : Type :=
  | RChar (class : ascii → bool)
  | REmpty
  | RSeq (a b : regex)
  | RAlt (a b : regex)
  | RStar (greedy : bool) (r : regex)
  | RGroup (n : nat) (r : regex)
  | RBegin (multiline : bool)
  | REnd (multiline : bool)
  | RAbsoluteEnd
  | RLook (r : regex).

(** Where the matcher stands: the byte before, and what is left. *)
Record position : Type := mkPos { before : option ascii; rest : string }.

(** Groups as (number, what was left where it began, what was left where it ended), the
    latest first. *)
Definition captures : Type := list (nat * string * string).

Definition newline : ascii := chr 10.

Definition at_begin (multiline : bool) (p : position) : bool :=
  match p.(before) with None => true | Some c => multiline && Ascii.eqb c newline end.

(** [$]: the end, before a final newline, and with [re.M] before any newline. *)
Definition at_end (multiline : bool) (p : position) : bool :=
  match p.(rest) with
  | EmptyString => true
  | String c s => Ascii.eqb c newline && (multiline || negb (nonempty s))
  end.

Definition shorter (a b : position) : bool :=
  (String.length a.(rest) <? String.length b.(rest))%nat.

(** [first or second], where no result is [None]. *)
Definition or_else {R} (first second : option R) : option R :=
  match first with Some x => Some x | None => second end.

Section matcher.
Context {R : Type}.

(** A loop takes at most [n] turns, each of which must consume something. *)
Definition star_with (body : (position → captures → option R) → position → captures → option R)
    (greedy : bool) (k : position → captures → option R) : nat → position → captures → option R :=
  fix loop n p c :=
    match n with
    | O => k p c
    | S n =>
        let again := body (fun q d => if shorter q p then loop n q d else None) p c in
        if greedy then or_else again (k p c) else or_else (k p c) again
    end.

(** The first way, in the order of backtracking, to match [r] here and go on with [k]. *)
Fixpoint match_with (r : regex) (k : position → captures → option R) (p : position) (c : captures)
    : option R :=
  match r with
  | REmpty => k p c
  | RChar class =>
      match p.(rest) with
      | String x s => if class x then k (mkPos (Some x) s) c else None
      | EmptyString => None
      end
  | RSeq a b => match_with a (match_with b k) p c
  | RAlt a b => or_else (match_with a k p c) (match_with b k p c)
  | RStar greedy a => star_with (match_with a) greedy k (S (String.length p.(rest))) p c
  | RGroup n a => match_with a (fun q d => k q ((n, p.(rest), q.(rest)) :: d)) p c
  | RBegin m => if at_begin m p then k p c else None
  | REnd m => if at_end m p then k p c else None
  | RAbsoluteEnd => match p.(rest) with EmptyString => k p c | _ => None end
  | RLook a => match_with a (fun _ d => k p d) p c
  end.
End matcher.

(** ** Patterns *)

Definition RMaybe (r : regex) : regex := RAlt r REmpty.
Definition RPlus (r : regex) : regex := RSeq r (RStar true r).

(** [r{0,n}] *)
Fixpoint RUpTo (n : nat) (r : regex) : regex :=
  match n with O => REmpty | S n => RMaybe (RSeq r (RUpTo n r)) end.

(** [r{n}] *)
Fixpoint RTimes (n : nat) (r : regex) : regex :=
  match n with O => REmpty | S n => RSeq r (RTimes n r) end.

Fixpoint RSeqs (l : list regex) : regex :=
  match l with [] => REmpty | [r] => r | r :: l => RSeq r (RSeqs l) end.

Fixpoint RAlts (l : list regex) : regex :=
  match l with [] => RAlt (RChar (fun _ => false)) (RChar (fun _ => false)) | [r] => r | r :: l => RAlt r (RAlts l) end.

(** A literal, and one under [re.I]. *)
Definition lit_char (c : ascii) : regex := RChar (Ascii.eqb c).
Definition lit_char_i (c : ascii) : regex := RChar (fun x => Ascii.eqb (lower_char c) (lower_char x)).
Fixpoint lit_with (f : ascii → regex) (s : string) : regex :=
  match s with EmptyString => REmpty | String c EmptyString => f c | String c s => RSeq (f c) (lit_with f s) end.
Definition lit : string → regex := lit_with lit_char.
Definition lit_i : string → regex := lit_with lit_char_i.

(** [\d], [\s], [\S], [\w], and the dot without [re.S]. *)
Definition R_digit : regex := RChar is_digit.
Definition R_space : regex := RChar is_space.
Definition R_nonspace : regex := RChar (fun c => negb (is_space c)).
Definition is_word (c : ascii) : bool := is_alnum c || Ascii.eqb c (chr 95).
Definition R_dot : regex := RChar (fun c => negb (Ascii.eqb c newline)).
Definition spaces : regex := RStar true R_space.
Definition one_of (s : string) : ascii → bool := fun c => has_char c s.

(** ** Matching *)

Definition done : position → captures → option (position * captures) := fun p c => Some (p, c).

(** [pattern.match(s)], [pattern.fullmatch(s)] *)
Definition re_match (r : regex) (s : string) : option (position * captures) :=
  match_with r done (mkPos None s) [].
Definition re_fullmatch (r : regex) (s : string) : option (position * captures) :=
  re_match (RSeq r RAbsoluteEnd) s.

(** [pattern.search(s)] from a position: where the match begins, and the match. *)
Fixpoint search_from (r : regex) (prev : option ascii) (s : string)
    : option (position * (position * captures)) :=
  match match_with r done (mkPos prev s) [] with
  | Some m => Some (mkPos prev s, m)
  | None => match s with
            | EmptyString => None
            | String c s' => search_from r (Some c) s'
            end
  end.
Definition re_search (r : regex) (s : string) : option captures :=
  match search_from r None s with Some (_, (_, c)) => Some c | None => None end.

(** The text between two positions, given as what is left at each. *)
Definition between (from to : string) : string :=
  String.substring 0 (String.length from - String.length to) from.

(** [match.group(n)]: the last time the group matched. *)
Definition group (n : nat) (c : captures) : option string :=
  match find_first (fun g => (g.1.1 =? n)%nat) c with
  | Some (_, from, to) => Some (between from to)
  | None => None
  end.

(** [match.group(n)] of a group every match goes through. *)
Definition group_text (n : nat) (c : captures) : string := default EmptyString (group n c).

(** [pattern.sub(by, s)] for a pattern that matches no empty text; [skip] bytes belong to
    the match last replaced. *)
Fixpoint sub_from (r : regex) (by_text : string) (skip : nat) (prev : option ascii) (s : string) : string :=
  match s with
  | EmptyString => EmptyString
  | String c s' =>
      match skip with
      | S skip => sub_from r by_text skip (Some c) s'
      | O =>
          match match_with r done (mkPos prev s) [] with
          | Some (q, _) =>
              match (String.length s - String.length q.(rest))%nat with
              | S more => by_text +:+ sub_from r by_text more (Some c) s'
              | O => String c (sub_from r by_text 0 (Some c) s')
              end
          | None => String c (sub_from r by_text 0 (Some c) s')
          end
      end
  end.
Definition re_sub (r : regex) (by_text s : string) : string := sub_from r by_text 0 None s.

(** [re.split(pattern, s, maxsplit=1)]: before the first match, and after it. *)
Definition re_split_once (r : regex) (s : string) : string * option string :=
  match search_from r None s with
  | Some (start, (stop, _)) => (between s start.(rest), Some stop.(rest))
  | None => (s, None)
  end.

Example re_hello : re_search (RSeqs [lit_i "ab"; RGroup 1 (RPlus R_digit); lit "."]) "xAB123.4" = Some [(1%nat, "123.4", ".4")].
Proof. reflexivity. Qed.
Example re_lazy : group 1 <$> re_search (RSeqs [lit "<"; RGroup 1 (RStar false R_dot); lit ">"]) "a<b>c>" = Some (Some "b").
Proof. reflexivity. Qed.
Example re_greedy : group 1 <$> re_search (RSeqs [lit "<"; RGroup 1 (RStar true R_dot); lit ">"]) "a<b>c>" = Some (Some "b>c").
Proof. reflexivity. Qed.
Example re_spaces : re_sub (RPlus R_space) " " "a  b   c" = "a b c".
Proof. reflexivity. Qed.
