(* ===== verification/RegexProofs.v ===== *)
(** * What the matcher of regular expressions finds

    A pattern relates the position where a match begins to the positions where it may
    end.  The matcher finds an end its continuation accepts exactly when there is one,
    and the bound on the turns of a loop never cuts a match short. *)

From S2P Require Import Prelude PyBase PyText Regex.

#[local] Arguments shorter : simpl never.

(** ** The relation of a pattern *)

Fixpoint runs (r : regex) : position → position → Prop :=
  match r with
  | REmpty => eq
  | RChar class => fun p q => ∃ x, p.(rest) = String x q.(rest) ∧ q.(before) = Some x ∧ class x = true
  | RSeq a b => fun p q => ∃ m, runs a p m ∧ runs b m q
  | RAlt a b => fun p q => runs a p q ∨ runs b p q
  | RStar _ a => rtc (fun p q => runs a p q ∧ shorter q p = true)
  | RGroup _ a => runs a
  | RBegin m => fun p q => p = q ∧ at_begin m p = true
  | REnd m => fun p q => p = q ∧ at_end m p = true
  | RAbsoluteEnd => fun p q => p = q ∧ p.(rest) = EmptyString
  | RLook a => fun p q => p = q ∧ ∃ m, runs a p m
  end.

Lemma or_else_Some {R} (a b : option R) x : or_else a b = Some x → a = Some x ∨ b = Some x.
Proof. destruct a; naive_solver. Qed.
Lemma or_else_is_Some {R} (a b : option R) : is_Some (or_else a b) ↔ is_Some a ∨ is_Some b.
Proof. destruct a; unfold or_else; rewrite ?is_Some_alt; naive_solver. Qed.

Section sound.
Context {R : Type}.
Implicit Types (k : position → captures → option R) (p q : position) (c d : captures).

Lemma star_sound body (step : position → position → Prop) greedy k n p c x :
  (∀ k p c x, body k p c = Some x → ∃ q d, step p q ∧ k q d = Some x) →
  star_with body greedy k n p c = Some x →
  ∃ q d, rtc (fun p q => step p q ∧ shorter q p = true) p q ∧ k q d = Some x.
Proof.
  intros Hbody. revert p c. induction n as [|n IH]; intros p c Hx; cbn in Hx.
  { exists p, c. split; [apply rtc_refl|done]. }
  assert (body (fun q d => if shorter q p then star_with body greedy k n q d else None) p c = Some x
          ∨ k p c = Some x) as [Hb|Hk].
  { destruct greedy; apply or_else_Some in Hx; tauto. }
  2: exists p, c; split; [apply rtc_refl|done].
  apply Hbody in Hb as (q & d & Hstep & Hq). destruct (shorter q p) eqn:Hs; [|done].
  apply IH in Hq as (q' & d' & Hrun & Hk). exists q', d'. split; [|done]. by eapply rtc_l.
Qed.

Lemma match_sound r k p c x :
  match_with r k p c = Some x → ∃ q d, runs r p q ∧ k q d = Some x.
Proof.
  revert k p c x. induction r as [class| |a IHa b IHb|a IHa b IHb|g a IHa|n a IHa|m|m| |a IHa];
    intros k p c x; cbn [match_with runs].
  - destruct p as [bf [|y s]]; cbn; [done|]. destruct (class y) eqn:Hy; [|done].
    intros Hk. exists (mkPos (Some y) s), c. split; [|done]. by exists y.
  - intros Hk. by exists p, c.
  - intros (m & d & Ha & Hb)%IHa. apply IHb in Hb as (q & d' & Hb & Hk). exists q, d'. split; [|done].
    by exists m.
  - intros [(q & d & Ha & Hk)%IHa|(q & d & Hb & Hk)%IHb]%or_else_Some; exists q, d; auto.
  - apply star_sound, IHa.
  - intros (q & d & Ha & Hk)%IHa. by exists q, ((n, p.(rest), q.(rest)) :: d).
  - destruct (at_begin m p) eqn:Hb; [|done]. intros Hk. by exists p, c.
  - destruct (at_end m p) eqn:Hb; [|done]. intros Hk. by exists p, c.
  - destruct p.(rest) eqn:Hr; [|done]. intros Hk. by exists p, c.
  - intros (q & d & Ha & Hk)%IHa. exists p, d. split; [|done]. split; [done|by exists q].
Qed.

(** A continuation that accepts the end of some match, whatever the groups, is reached. *)
Lemma star_complete body (step : position → position → Prop) greedy k n p q c :
  (∀ k p q c, step p q → (∀ d, is_Some (k q d)) → is_Some (body k p c)) →
  rtc (fun p q => step p q ∧ shorter q p = true) p q → (∀ d, is_Some (k q d)) →
  (String.length p.(rest) < n)%nat → is_Some (star_with body greedy k n p c).
Proof.
  intros Hbody Hrun Hk. revert n c. induction Hrun as [p|p m q [Hstep Hs] Hrun IH]; intros n c Hn.
  - destruct n as [|n]; cbn; [apply Hk|]. destruct greedy; apply or_else_is_Some; eauto.
  - destruct n as [|n]; [lia|]. cbn.
    assert (is_Some (body (fun q' d => if shorter q' p then star_with body greedy k n q' d else None) p c)).
    { eapply Hbody; [exact Hstep|]. intros d. rewrite Hs. apply IH; [done|].
      unfold shorter in Hs. apply Nat.ltb_lt in Hs. lia. }
    destruct greedy; apply or_else_is_Some; auto.
Qed.

Lemma match_complete r k p q c :
  runs r p q → (∀ d, is_Some (k q d)) → is_Some (match_with r k p c).
Proof.
  revert k p q c. induction r as [class| |a IHa b IHb|a IHa b IHb|g a IHa|n a IHa|m|m| |a IHa];
    intros k p q c; cbn [match_with runs].
  - intros (x & Hp & Hq & Hx) Hk. rewrite Hp, Hx. destruct q; cbn in *; subst. apply Hk.
  - intros <-. auto.
  - intros (m & Ha & Hb) Hk. eapply IHa; [exact Ha|]. intros d. by eapply IHb.
  - intros [Ha|Hb] Hk; apply or_else_is_Some; [left; by eapply IHa|right; by eapply IHb].
  - intros Hrun Hk. eapply star_complete; [exact IHa|exact Hrun|done|lia].
  - intros Ha Hk. eapply IHa; [exact Ha|]. intros d. apply Hk.
  - intros [<- ->]. auto.
  - intros [<- ->]. auto.
  - intros [<- ->]. auto.
  - intros [<- (m & Ha)] Hk. eapply IHa; [exact Ha|]. intros d. apply Hk.
Qed.

(** ** The bound on a loop is no restriction *)

Lemma match_ext r k k' p c : (∀ q d, k q d = k' q d) → match_with r k p c = match_with r k' p c.
Proof.
  revert k k' p c. induction r as [class| |a IHa b IHb|a IHa b IHb|g a IHa|n a IHa|m|m| |a IHa];
    intros k k' p c Hk; cbn [match_with].
  - destruct p.(rest); [done|]. by case_match.
  - done.
  - apply IHa. intros q d. by apply IHb.
  - by rewrite (IHa k k'), (IHb k k').
  - generalize (S (String.length p.(rest))) as n. intros n. revert p c.
    induction n as [|n IH]; intros p c; cbn; [done|]. rewrite Hk.
    rewrite (IHa _ (fun q d => if shorter q p then star_with (match_with a) g k' n q d else None));
      [done|]. intros q d. case_match; [apply IH|done].
  - apply IHa. intros q d. apply Hk.
  - by case_match.
  - by case_match.
  - by case_match.
  - apply IHa. intros q d. apply Hk.
Qed.

Lemma star_bound r greedy k n n' p c :
  (String.length p.(rest) < n)%nat → (n <= n')%nat →
  star_with (match_with r) greedy k n' p c = star_with (match_with r) greedy k n p c.
Proof.
  revert n' p c. induction n as [|n IH]; intros n' p c Hn Hn'; [lia|].
  destruct n' as [|n']; [lia|]. cbn.
  rewrite (match_ext r _ (fun q d => if shorter q p then star_with (match_with r) greedy k n q d else None));
    [done|]. intros q d. destruct (shorter q p) eqn:Hs; [|done]. unfold shorter in Hs.
  apply Nat.ltb_lt in Hs. apply IH; lia.
Qed.
End sound.

Lemma fullmatch_spec r s : is_Some (re_fullmatch r s) ↔ ∃ q, runs r (mkPos None s) q ∧ q.(rest) = EmptyString.
Proof.
  unfold re_fullmatch, re_match. split.
  - intros [[q d] H]. apply match_sound in H as (m & e & (q' & Hr & <- & He) & _). by exists q'.
  - intros (q & Hr & He). eapply match_complete; [|by intros; eexists]. exists q. by split.
Qed.

(** ** What a match consumes *)

Definition last_of (b : option ascii) (u : string) : option ascii :=
  match last_char u with Some c => Some c | None => b end.

(** [q] is where one stands after reading [u] from [p]. *)
Definition reads_text (p : position) (u : string) (q : position) : Prop := p.(rest) = u +:+ q.(rest).

Lemma reads_nil p : reads_text p "" p.
Proof. done. Qed.
Lemma reads_app p u m v q : reads_text p u m → reads_text m v q → reads_text p (u +:+ v) q.
Proof. unfold reads_text. intros -> ->. by rewrite app_assoc_string. Qed.

Lemma runs_reads r p q : runs r p q → ∃ u, reads_text p u q.
Proof.
  revert p q. induction r as [class| |a IHa b IHb|a IHa b IHb|g a IHa|n a IHa|m|m| |a IHa];
    intros p q; cbn [runs].
  - intros (x & Hp & _). by exists (String x "").
  - intros <-. by exists "".
  - intros (m & (u & Hu)%IHa & (v & Hv)%IHb). exists (u +:+ v). by eapply reads_app.
  - intros [?|?]; auto.
  - intros Hrun. induction Hrun as [p|p m q [(u & Hu)%IHa _] _ (v & Hv)]; [by exists ""|].
    exists (u +:+ v). by eapply reads_app.
  - apply IHa.
  - intros [<- _]. by exists "".
  - intros [<- _]. by exists "".
  - intros [<- _]. by exists "".
  - intros [<- _]. by exists "".
Qed.

Lemma length_app_string (a b : string) : String.length (a +:+ b) = (String.length a + String.length b)%nat.
Proof. induction a as [|c a IH]; [done|]. rewrite app_cons_string. cbn. by rewrite IH. Qed.

Lemma app_inv_tail_string (u v s : string) : u +:+ s = v +:+ s → u = v.
Proof.
  intros H. apply (f_equal String.length) in H as Hl. rewrite !length_app_string in Hl.
  revert v H Hl. induction u as [|c u IH]; intros [|d v] H Hl; [done|cbn in Hl; lia..|].
  rewrite !app_cons_string in H. injection H as -> H. cbn in Hl. by rewrite (IH v H) by lia.
Qed.

(** ** What simple patterns read

    For patterns made of classes, literals and loops: the texts a match reads, as a
    condition on the text alone. *)

#[local] Arguments shorter : simpl never.

(** [q] is the position reached from [p] by reading [u]. *)
Definition moves (p : position) (u : string) (q : position) : Prop :=
  p.(rest) = u +:+ q.(rest) ∧ q.(before) = last_of p.(before) u.

Lemma last_of_nil b : last_of b "" = b.
Proof. done. Qed.
Lemma last_char_cons c u : last_char (String c u) = match last_char u with Some d => Some d | None => Some c end.
Proof.
  revert c. induction u as [|d u IH]; intros c; [done|].
  change (last_char (String c (String d u))) with (last_char (String d u)). by rewrite IH; destruct (last_char u).
Qed.
Lemma last_of_cons b c u : last_of b (String c u) = last_of (Some c) u.
Proof. unfold last_of. rewrite last_char_cons. by destruct (last_char u). Qed.
Lemma last_of_app b u v : last_of b (u +:+ v) = last_of (last_of b u) v.
Proof. revert b. induction u as [|c u IH]; intros b; [done|]. by rewrite app_cons_string, !last_of_cons. Qed.

Lemma moves_nil p q : moves p "" q ↔ p = q.
Proof.
  unfold moves. rewrite last_of_nil. destruct p as [b s], q as [b' s']; cbn. split.
  - intros [-> ->]. done.
  - by intros [= <- <-].
Qed.
Lemma moves_app p u m v q : moves p u m → moves m v q → moves p (u +:+ v) q.
Proof. unfold moves. intros [-> Hb] [-> Hc]. by rewrite app_assoc_string, last_of_app, <- Hb. Qed.
Lemma moves_app_inv p u v q : moves p (u +:+ v) q → ∃ m, moves p u m ∧ moves m v q.
Proof.
  unfold moves. rewrite app_assoc_string, last_of_app. intros [Hp Hq].
  exists (mkPos (last_of p.(before) u) (v +:+ q.(rest))). done.
Qed.

(** The patterns whose matches depend on the text they read, and on nothing around it. *)
Definition accepts (r : regex) (L : string → Prop) : Prop :=
  ∀ p q, runs r p q ↔ ∃ u, moves p u q ∧ L u.

Lemma accepts_ext r (L M : string → Prop) : accepts r L → (∀ u, L u ↔ M u) → accepts r M.
Proof. intros Hr HL p q. rewrite (Hr p q). by setoid_rewrite HL. Qed.

Lemma accepts_char class : accepts (RChar class) (fun u => ∃ c, u = String c "" ∧ class c = true).
Proof.
  intros p q. cbn. unfold moves. split.
  - intros (c & Hp & Hq & Hc). exists (String c ""). by rewrite app_cons_string; split; [|exists c].
  - intros (u & [Hp Hq] & c & -> & Hc). by exists c.
Qed.

Lemma accepts_empty : accepts REmpty (fun u => u = "").
Proof. intros p q. cbn. setoid_rewrite <- moves_nil. naive_solver. Qed.

Lemma accepts_seq a b L M :
  accepts a L → accepts b M → accepts (RSeq a b) (fun u => ∃ v w, u = v +:+ w ∧ L v ∧ M w).
Proof.
  intros Ha Hb p q. cbn. split.
  - intros (m & (v & Hv & HL)%Ha & (w & Hw & HM)%Hb). exists (v +:+ w). split; [by eapply moves_app|eauto].
  - intros (u & Hu & v & w & -> & HL & HM). apply moves_app_inv in Hu as (m & Hv & Hw).
    exists m. split; [apply Ha|apply Hb]; eauto.
Qed.

Lemma accepts_alt a b L M : accepts a L → accepts b M → accepts (RAlt a b) (fun u => L u ∨ M u).
Proof. intros Ha Hb p q. cbn. rewrite (Ha p), (Hb p). naive_solver. Qed.

Lemma accepts_group n a L : accepts a L → accepts (RGroup n a) L.
Proof. done. Qed.

Lemma moves_shorter p u q : moves p u q → shorter q p = nonempty u.
Proof.
  unfold moves, shorter. intros [-> _]. rewrite length_app_string. destruct u as [|c u]; cbn.
  - apply Nat.ltb_irrefl.
  - apply Nat.leb_le. lia.
Qed.

(** A loop accepts a list of texts, one per turn. *)
Lemma accepts_star g a L :
  accepts a L → accepts (RStar g a) (fun u => ∃ us, u = concat us ∧ Forall (fun v => L v ∧ nonempty v = true) us).
Proof.
  intros Ha p q. cbn. split.
  - intros Hrun. induction Hrun as [p|p m q [Hs Hsh] _ (u & Hu & us & -> & Hus)].
    { exists "". split; [by apply moves_nil|]. by exists []. }
    apply Ha in Hs as (v & Hv & HL). exists (v +:+ concat us). split; [by eapply moves_app|].
    exists (v :: us). split; [done|]. constructor; [|done]. split; [done|].
    by rewrite <- (moves_shorter _ _ _ Hv).
  - intros (u & Hu & us & -> & Hus). revert p Hu. induction Hus as [|v us [HL Hn] _ IH]; intros p Hu.
    + apply moves_nil in Hu as ->. apply rtc_refl.
    + cbn in Hu. apply moves_app_inv in Hu as (m & Hv & Hm). eapply rtc_l; [|by apply IH].
      split; [by apply Ha; exists v|by rewrite (moves_shorter _ _ _ Hv)].
Qed.

(** Loops over one class *)

Lemma str_all_cons p c s : str_all p (String c s) = p c && str_all p s.
Proof. done. Qed.

Lemma accepts_class_star g class : accepts (RStar g (RChar class)) (fun u => str_all class u = true).
Proof.
  eapply accepts_ext; [apply accepts_star, accepts_char|]. intros u. cbn. split.
  - intros (us & -> & Hus). induction Hus as [|v us [(c & -> & Hc) _] _ IH]; [done|].
    cbn [concat]. rewrite app_cons_string, str_all_cons, Hc. exact IH.
  - induction u as [|c u IH]; intros Hu; [by exists []|].
    rewrite str_all_cons in Hu. apply andb_true_iff in Hu as [Hc Hu]. destruct (IH Hu) as (us & -> & HF).
    exists (String c "" :: us). split; [by cbn; rewrite app_cons_string|]. constructor; [|exact HF]. eauto.
Qed.

Lemma accepts_class_plus class :
  accepts (RPlus (RChar class)) (fun u => str_all class u = true ∧ nonempty u = true).
Proof.
  eapply accepts_ext; [apply accepts_seq; [apply accepts_char|apply accepts_class_star]|]. intros u. cbn. split.
  - intros (v & w & -> & (c & -> & Hc) & Hw). by rewrite app_cons_string, str_all_cons, Hc.
  - intros [Hu Hn]. destruct u as [|c u]; [done|]. rewrite str_all_cons in Hu.
    apply andb_true_iff in Hu as [Hc Hu]. exists (String c ""), u. eauto.
Qed.

Lemma accepts_class_upto n class :
  accepts (RUpTo n (RChar class)) (fun u => str_all class u = true ∧ (String.length u <= n)%nat).
Proof.
  induction n as [|n IH]; cbn [RUpTo].
  - eapply accepts_ext; [apply accepts_empty|]. intros u. split; [by intros ->; cbn|].
    intros [_ Hl]. destruct u; [done|cbn in Hl; lia].
  - unfold RMaybe. eapply accepts_ext;
      [apply accepts_alt; [apply accepts_seq; [apply accepts_char|apply IH]|apply accepts_empty]|].
    intros u. cbn. split.
    + intros [(v & w & -> & (c & -> & Hc) & Hw & Hl)| ->]; [|cbn; split; [done|lia]].
      rewrite app_cons_string, str_all_cons, Hc. split; [exact Hw|]. change (S (String.length w) <= S n)%nat. lia.
    + intros [Hu Hl]. destruct u as [|c u]; [by right|left].
      rewrite str_all_cons in Hu. apply andb_true_iff in Hu as [Hc Hu]. cbn in Hl.
      exists (String c ""), u. split; [done|]. split; [eauto|]. split; [done|lia].
Qed.

Lemma accepts_lit_char c : accepts (lit_char c) (fun u => u = String c "").
Proof.
  eapply accepts_ext; [apply accepts_char|]. intros u. cbn. split.
  - intros (x & -> & Hx). by apply Ascii.eqb_eq in Hx as ->.
  - intros ->. exists c. split; [done|apply Ascii.eqb_refl].
Qed.

Lemma moves_all b s q : moves (mkPos b s) s q ↔ q = mkPos (last_of b s) "".
Proof.
  unfold moves. cbn. destruct q as [b' s']; cbn. split.
  - intros [Hs ->]. f_equal. apply (f_equal String.length) in Hs. rewrite length_app_string in Hs.
    destruct s'; [done|cbn in Hs; lia].
  - intros [= -> ->]. by rewrite app_nil_string.
Qed.

(** A full match of such a pattern is a condition on the whole text. *)
Lemma fullmatch_accepts r L s : accepts r L → is_Some (re_fullmatch r s) ↔ L s.
Proof.
  intros Hr. rewrite fullmatch_spec. split.
  - intros (q & Hq & He). apply Hr in Hq as (u & [Hs _] & HL). cbn in Hs. rewrite He, app_nil_string in Hs.
    by subst.
  - intros HL. exists (mkPos (last_of None s) ""). split; [|done]. apply Hr. exists s.
    by rewrite moves_all.
Qed.

(** ** What the groups of a match hold

    The groups recorded by a match come from its own groups, each the text that part of
    the pattern read; and a group on every way through the pattern is recorded. *)

#[local] Arguments shorter : simpl never.

(** *** Matches with their groups *)

(** The relation of a pattern on positions and the groups recorded so far. *)
Fixpoint traces (r : regex) : position * captures → position * captures → Prop :=
  match r with
  | REmpty => eq
  | RChar class => fun p q => ∃ x, p.1.(rest) = String x q.1.(rest) ∧ q.1.(before) = Some x ∧ class x = true ∧ q.2 = p.2
  | RSeq a b => fun p q => ∃ m, traces a p m ∧ traces b m q
  | RAlt a b => fun p q => traces a p q ∨ traces b p q
  | RStar _ a => rtc (fun p q => traces a p q ∧ shorter q.1 p.1 = true)
  | RGroup n a => fun p q => ∃ c, traces a p (q.1, c) ∧ q.2 = (n, p.1.(rest), q.1.(rest)) :: c
  | RBegin m => fun p q => p = q ∧ at_begin m p.1 = true
  | REnd m => fun p q => p = q ∧ at_end m p.1 = true
  | RAbsoluteEnd => fun p q => p = q ∧ p.1.(rest) = EmptyString
  | RLook a => fun p q => p.1 = q.1 ∧ ∃ m, traces a p (m, q.2)
  end.

Lemma star_trace {R} body (step : position * captures → position * captures → Prop) greedy
    (k : position → captures → option R) n p c x :
  (∀ k p c x, body k p c = Some x → ∃ q d, step (p, c) (q, d) ∧ k q d = Some x) →
  star_with body greedy k n p c = Some x →
  ∃ q d, rtc (fun p q => step p q ∧ shorter q.1 p.1 = true) (p, c) (q, d) ∧ k q d = Some x.
Proof.
  intros Hbody. revert p c. induction n as [|n IH]; intros p c Hx; cbn in Hx.
  { exists p, c. split; [apply rtc_refl|done]. }
  assert (body (fun q d => if shorter q p then star_with body greedy k n q d else None) p c = Some x
          ∨ k p c = Some x) as [Hb|Hk].
  { destruct greedy; apply or_else_Some in Hx; tauto. }
  2: exists p, c; split; [apply rtc_refl|done].
  apply Hbody in Hb as (q & d & Hstep & Hq). destruct (shorter q p) eqn:Hs; [|done].
  apply IH in Hq as (q' & d' & Hrun & Hk). exists q', d'. split; [|done]. eapply rtc_l; [|exact Hrun]. done.
Qed.

Lemma match_trace {R} r (k : position → captures → option R) p c x :
  match_with r k p c = Some x → ∃ q d, traces r (p, c) (q, d) ∧ k q d = Some x.
Proof.
  revert k p c x. induction r as [class| |a IHa b IHb|a IHa b IHb|g a IHa|n a IHa|m|m| |a IHa];
    intros k p c x; cbn [match_with traces].
  - destruct p as [bf [|y s]]; cbn; [done|]. destruct (class y) eqn:Hy; [|done].
    intros Hk. exists (mkPos (Some y) s), c. split; [|done]. by exists y.
  - intros Hk. by exists p, c.
  - intros (m & d & Ha & Hb)%IHa. apply IHb in Hb as (q & d' & Hb & Hk). exists q, d'. split; [|done].
    by exists (m, d).
  - intros [(q & d & Ha & Hk)%IHa|(q & d & Hb & Hk)%IHb]%or_else_Some; exists q, d; auto.
  - apply star_trace, IHa.
  - intros (q & d & Ha & Hk)%IHa. exists q, ((n, p.(rest), q.(rest)) :: d). split; [|done]. by exists d.
  - destruct (at_begin m p) eqn:Hb; [|done]. intros Hk. by exists p, c.
  - destruct (at_end m p) eqn:Hb; [|done]. intros Hk. by exists p, c.
  - destruct p.(rest) eqn:Hr; [|done]. intros Hk. by exists p, c.
  - intros (q & d & Ha & Hk)%IHa. exists p, d. split; [|done]. split; [done|by exists q].
Qed.

Lemma traces_runs r p q : traces r p q → runs r p.1 q.1.
Proof.
  revert p q. induction r as [class| |a IHa b IHb|a IHa b IHb|g a IHa|n a IHa|m|m| |a IHa];
    intros p q; cbn [traces runs].
  - intros (x & ? & ? & ? & _). by exists x.
  - by intros ->.
  - intros (m & Ha%IHa & Hb%IHb). by exists m.1.
  - intros [?%IHa|?%IHb]; auto.
  - intros Hrun. induction Hrun as [p|p m q [Hs Hsh] _ IH]; [apply rtc_refl|].
    eapply rtc_l; [|exact IH]. split; [by apply IHa|done].
  - intros (c & Ha%IHa & _). done.
  - by intros [-> ?].
  - by intros [-> ?].
  - by intros [-> ?].
  - intros [Hp (m & Ha%IHa)]. split; [done|]. by exists m.
Qed.

(** *** Where groups come from *)

(** The groups of a pattern. *)
Fixpoint subgroups (r : regex) : list (nat * regex) :=
  match r with
  | RSeq a b | RAlt a b => subgroups a ++ subgroups b
  | RStar _ a | RLook a => subgroups a
  | RGroup n a => (n, a) :: subgroups a
  | _ => []
  end.

(** The group was recorded by one of the groups of [r], reading on from [p]. *)
Definition recorded (r : regex) (p : position) (g : nat * string * string) : Prop :=
  ∃ a u m q, (g.1.1, a) ∈ subgroups r ∧ reads_text p u m ∧ runs a m q ∧ g.1.2 = m.(rest) ∧ g.2 = q.(rest).

Lemma recorded_after r p u m g : reads_text p u m → recorded r m g → recorded r p g.
Proof.
  intros Hu (a & v & m' & q & Ha & Hv & H). exists a, (u +:+ v), m', q. split; [done|].
  split; [by eapply reads_app|done].
Qed.

Lemma recorded_sub r r' p g : subgroups r ⊆ subgroups r' → recorded r p g → recorded r' p g.
Proof. intros Hs (a & u & m & q & Ha & H). exists a, u, m, q. split; [by apply Hs|done]. Qed.

Lemma traces_recorded r p q g : traces r p q → g ∈ q.2 → g ∈ p.2 ∨ recorded r p.1 g.
Proof.
  revert p q. induction r as [class| |a IHa b IHb|a IHa b IHb|s a IHa|n a IHa|m|m| |a IHa];
    intros p q; cbn [traces].
  - intros (x & _ & _ & _ & ->). auto.
  - intros ->. auto.
  - intros (m & Ha & Hb) Hg. destruct (IHb _ _ Hb Hg) as [Hm|Hr].
    + destruct (IHa _ _ Ha Hm) as [?|Hr]; [auto|right]. eapply recorded_sub, Hr. cbn. set_solver.
    + right. apply traces_runs, runs_reads in Ha as (u & Hu). eapply recorded_after; [exact Hu|].
      eapply recorded_sub, Hr. cbn. set_solver.
  - intros [Ha|Hb] Hg; [destruct (IHa _ _ Ha Hg) as [?|Hr]|destruct (IHb _ _ Hb Hg) as [?|Hr]]; auto;
      right; (eapply recorded_sub, Hr); cbn; set_solver.
  - intros Hrun Hg. induction Hrun as [p|p m q [Hs _] _ IH]; [auto|].
    destruct (IH Hg) as [Hm|Hr]; [by apply (IHa p m Hs Hm)|]. right.
    apply traces_runs, runs_reads in Hs as (u & Hu). by eapply recorded_after.
  - intros (c & Ha & Hq) Hg. rewrite Hq in Hg. apply elem_of_cons in Hg as [->|Hg].
    + right. exists a, "", p.1, q.1. split; [cbn; set_solver|]. split; [apply reads_nil|].
      split; [by apply traces_runs in Ha|done].
    + destruct (IHa _ _ Ha Hg) as [?|Hr]; [auto|right]. eapply recorded_sub, Hr. cbn. set_solver.
  - intros [-> _]. auto.
  - intros [-> _]. auto.
  - intros [-> _]. auto.
  - intros [Hp (m & Ha)] Hg. destruct (IHa _ _ Ha Hg) as [?|Hr]; auto.
Qed.

(** *** Groups that are always there *)

Fixpoint always (n : nat) (r : regex) : bool :=
  match r with
  | RGroup m a => (m =? n)%nat || always n a
  | RSeq a b => always n a || always n b
  | RAlt a b => always n a && always n b
  | RLook a => always n a
  | _ => false
  end.

Definition has_group (n : nat) (c : captures) : Prop := ∃ g, g ∈ c ∧ g.1.1 = n.

Lemma traces_groups n r p q :
  traces r p q → (has_group n p.2 → has_group n q.2) ∧ (always n r = true → has_group n q.2).
Proof.
  unfold has_group. revert p q. induction r as [class| |a IHa b IHb|a IHa b IHb|s a IHa|k a IHa|m|m| |a IHa];
    intros p q; cbn [traces always].
  - intros (x & _ & _ & _ & ->). done.
  - by intros ->.
  - intros (m & [Ha Ha']%IHa & [Hb Hb']%IHb). rewrite orb_true_iff. naive_solver.
  - rewrite andb_true_iff. intros [[? ?]%IHa|[? ?]%IHb]; naive_solver.
  - intros Hrun. split; [|done]. induction Hrun as [p|p m q [[Hs _]%IHa _] _ IH]; auto.
  - intros (c & [Ha Ha']%IHa & ->). rewrite orb_true_iff, Nat.eqb_eq. setoid_rewrite elem_of_cons.
    cbn in *. naive_solver.
  - by intros [-> _].
  - by intros [-> _].
  - by intros [-> _].
  - intros [_ (m & [Ha Ha']%IHa)]. done.
Qed.

(** *** What [match.group] gives *)

Lemma substring_prefix u s : String.substring 0 (String.length u) (u +:+ s) = u.
Proof. induction u as [|c u IH]; [by destruct s|]. rewrite app_cons_string. cbn. by rewrite IH. Qed.

Lemma between_app u s : between (u +:+ s) s = u.
Proof.
  unfold between. rewrite length_app_string.
  replace (String.length u + String.length s - String.length s)%nat with (String.length u) by lia.
  apply substring_prefix.
Qed.

(** A group that is always there holds a text its part of the pattern reads, taken out of
    the text that was matched. *)
Lemma match_group_spec r n p x m (L : string → Prop) :
  match_with r done p [] = Some (x, m) →
  always n r = true →
  (∀ a, (n, a) ∈ subgroups r → accepts a L) →
  L (group_text n m) ∧ (String.length (group_text n m) <= String.length p.(rest))%nat.
Proof.
  intros (q & d & Htr & [= -> ->])%match_trace Halways HL.
  destruct (proj2 (traces_groups n r _ _ Htr) Halways) as (g0 & Hg0 & Hn0).
  unfold group_text, group. destruct (find_first _ m) as [[[k from] to]|] eqn:Hf.
  2: { pose proof (proj1 (find_first_None _ _) Hf g0 Hg0) as H0. cbn in H0.
       apply Nat.eqb_neq in H0. done. }
  apply find_first_Some in Hf as [Hin Hk%Nat.eqb_eq]. cbn in Hk. subst k.
  destruct (traces_recorded _ _ _ _ Htr Hin) as [Hnil|(a & u & m' & q' & Ha & Hu & Hrun & Hfrom & Hto)].
  { cbn in Hnil. by apply elem_of_nil in Hnil. }
  cbn in Ha, Hu, Hfrom, Hto. apply (HL a Ha) in Hrun as (v & [Hv _] & HLv). subst from to.
  rewrite Hv, between_app. cbn [default]. split; [done|].
  unfold reads_text in Hu. rewrite Hu, Hv, !length_app_string. cbn. lia.
Qed.

Lemma search_from_match r prev s start m :
  search_from r prev s = Some (start, m) →
  match_with r done start [] = Some m ∧ (String.length start.(rest) <= String.length s)%nat.
Proof.
  revert prev. induction s as [|c s IH]; intros prev; cbn [search_from].
  - destruct (match_with r done (mkPos prev "") []) eqn:E; [|done]. intros [= <- <-]. by split.
  - destruct (match_with r done (mkPos prev (String c s)) []) eqn:E; [intros [= <- <-]; by split|].
    intros [H1 H2]%IH. split; [done|cbn; lia].
Qed.

Lemma search_group_spec r n s m (L : string → Prop) :
  re_search r s = Some m →
  always n r = true →
  (∀ a, (n, a) ∈ subgroups r → accepts a L) →
  L (group_text n m) ∧ (String.length (group_text n m) <= String.length s)%nat.
Proof.
  unfold re_search. destruct (search_from r None s) as [[start [x c]]|] eqn:E; [|done]. intros [= <-] Ha HL.
  apply search_from_match in E as [E Hlen]. destruct (match_group_spec _ _ _ _ _ _ E Ha HL) as [? ?].
  split; [done|lia].
Qed.
