(* ===== verification/ProbeModels.v ===== *)
(** * Contracts of the protocol audits ([protocol_audits/models.py], [providers/tools.py])

    Commands and results of external tools, what a module asks of a service, targets,
    observations before they are stored, and the checks of [availability.py] and
    [status.py].  Timeouts are whole seconds, as every timeout of the code is. *)

From S2P Require Import Prelude PyBase PyText JobModels FindModels Ip Inventory InventoryQueries Regex.

(** ** Tools ([providers/tools.py]) *)

Inductive ToolErrorCode : Type :=
  | MISSING_BINARY | PERMISSION_DENIED | TOOL_TIMEOUT | TOOL_CANCELLED
  | NON_ZERO_EXIT | EXECUTION_ERROR | OUTPUT_ERROR.
#[export] Instance ToolErrorCode_eq_dec : EqDecision ToolErrorCode.
Proof. solve_decision. Defined.

Definition ToolErrorCode_value (c : ToolErrorCode) : string :=
  match c with
  | MISSING_BINARY => "missing_binary" | PERMISSION_DENIED => "permission_denied"
  | TOOL_TIMEOUT => "timeout" | TOOL_CANCELLED => "cancelled"
  | NON_ZERO_EXIT => "non_zero_exit" | EXECUTION_ERROR => "execution_error"
  | OUTPUT_ERROR => "output_error"
  end.

Record ToolError : Type := mkToolError {
  tool_error_code : ToolErrorCode;
  tool_error_message : string;
  tool_error_retryable : bool
}.

(** [ToolCommand], less the paths and callbacks no probe sets. *)
Record ToolCommand : Type := mkCommand {
  tool : string;
  args : list string;
  timeout_seconds : Z;
  environment : list (string * string);
  sensitive_arg_indexes : list Z
}.

(** [ToolResult]; its times and duration in microseconds. *)
Record ToolResult : Type := mkToolResult {
  result_command : list string;
  result_tool : string;
  exit_code : option Z;
  stdout : string;
  stderr : string;
  started_at : datetime;
  finished_at : datetime;
  duration : Z;
  timed_out : bool;
  result_cancelled : bool;
  success : bool;
  result_error : option ToolError
}.

(** The exceptions of the probes. *)
Inductive ProbeExc : Type :=
  | InvalidAddress (e : IpExc)
  | ProbeValueError (message : string)
  | ProbeValidation (field : string)
  | ProbeRuntimeError (message : string)
  | ProbeLookupError (message : string)
  | ProbeIntegrity (constraint : string)
  | JobExecutionError (error : JobError)
  | JobCancelled (message : string).

Abbreviation PO := (outcome ProbeExc).

(** [ToolCommand(...)]: [min_length=1], [gt=0], [le=21_600]. *)
Definition build_tool_command (c : ToolCommand) : PO ToolCommand :=
  if negb (nonempty c.(tool)) then Raise (ProbeValidation "tool")
  else if negb ((0 <? c.(timeout_seconds)) && (c.(timeout_seconds) <=? 21600)) then
    Raise (ProbeValidation "timeout_seconds")
  else Return c.

Definition argv (c : ToolCommand) : list string := c.(tool) :: c.(args).

Definition sanitized_argv (c : ToolCommand) : list string :=
  imap (fun i value => if existsb (Z.eqb (Z.of_nat i)) c.(sensitive_arg_indexes) then "<redacted>" else value)
    (argv c).

(** What the exit of a process means. *)
Definition _result_error (exit : option Z) (err : string) (timeout cancelled : bool) : option ToolError :=
  if cancelled then Some (mkToolError TOOL_CANCELLED "Tool execution was cancelled" false)
  else if timeout then Some (mkToolError TOOL_TIMEOUT "Tool execution exceeded its timeout" true)
  else if bool_decide (exit = Some 0) then None
  else if contains "permission denied" (lower err) || contains "permission" (lower err) then
    Some (mkToolError PERMISSION_DENIED "Tool reported a permission error" false)
  else Some (mkToolError NON_ZERO_EXIT
               ("Tool exited with status " +:+ match exit with Some n => str_int n | None => "None" end) false).

(** ** Modules and services ([protocol_audits/models.py]) *)

Inductive SafetyClass : Type := SAFE | GATED | NEVER_DEFAULT.
#[export] Instance SafetyClass_eq_dec : EqDecision SafetyClass.
Proof. solve_decision. Defined.

Record ToolAvailability : Type := mkAvailability {
  available_tool : string;
  available : bool;
  available_version : option string;
  binary_path : option string;
  meets_minimum : bool;
  available_message : string
}.

Record ServicePredicate : Type := mkPredicate {
  ports : list Z;
  protocols : list string;
  service_names : list string;
  products : list string;
  tunnels : list string
}.

(** [token.lower() in tokens], by a test on each *)
Definition any_token (test : string → bool) (tokens : list string) : bool :=
  existsb (fun token => test (lower token)) tokens.

Definition not_empty {A} (l : list A) : bool := match l with [] => false | _ => true end.

(** [(value or "").lower()] *)
Definition lower_or_empty (value : option string) : string := lower (default EmptyString value).

(** The checks a predicate makes, each present when its set is not empty. *)
Definition predicate_checks (p : ServicePredicate) (s : ServiceModel) : list bool :=
  (if not_empty p.(ports) then [existsb (Z.eqb s.(srv_port)) p.(ports)] else []) ++
  (if not_empty p.(service_names) then
     let name := lower_or_empty s.(srv_service_name) in
     [any_token (fun token => String.eqb token name || contains token name) p.(service_names)]
   else []) ++
  (if not_empty p.(products) then
     let parts := omap (fun o => if truthy_str o then o else None)
                    [s.(srv_product); s.(srv_extra_info); s.(srv_banner)] in
     let haystack := lower (join " " parts) in
     [any_token (fun token => contains token haystack) p.(products)]
   else []) ++
  (if not_empty p.(tunnels) then
     [any_token (String.eqb (lower_or_empty s.(srv_tunnel))) p.(tunnels)]
   else []).

Definition matches (p : ServicePredicate) (s : ServiceModel) : bool :=
  if negb (any_token (String.eqb (lower s.(srv_protocol))) p.(protocols)) then false
  else existsb id (predicate_checks p s).

Record ObservationDraft : Type := mkObservationDraft {
  draft_kind : string;
  draft_data : dict;
  draft_confidence : ConfidenceLevel;
  draft_source : string;
  draft_dedupe_key : string
}.

(** [ObservationDraft(...)] *)
Definition build_observation (d : ObservationDraft) : PO ObservationDraft :=
  if negb (field_ok 64 d.(draft_kind)) then Raise (ProbeValidation "kind")
  else if negb (field_ok 64 d.(draft_source)) then Raise (ProbeValidation "source")
  else Return d.

Record ProbeTarget : Type := mkTarget {
  target_asset : AssetRecord;
  target_service : ServiceModel;
  target_address : string;
  target_port : Z;
  target_hostname : option string;
  scheme_hint : option string
}.

(** [ProbeTarget(...)]: [ge=0, le=65_535] *)
Definition build_target (t : ProbeTarget) : PO ProbeTarget :=
  if (0 <=? t.(target_port)) && (t.(target_port) <=? 65535) then Return t
  else Raise (ProbeValidation "port").

Record MatchedWork : Type := mkWork { work_module : string; work_target : ProbeTarget }.

(** ** Settings: the time limit and the tools ([config/settings.py]) *)

Record Settings : Type := mkSettings {
  protocol_audit_timeout_seconds : Z;
  ssh_audit_binary : string;
  openssl_binary : string;
  curl_binary : string;
  dig_binary : string;
  smbclient_binary : string;
  snmpget_binary : string;
  ldapsearch_binary : string
}.

(** [min(setting, limit)] when the setting is set *)
Definition settings_timeout (settings : Settings) (module_timeout : Z) : Z :=
  if settings.(protocol_audit_timeout_seconds) =? 0 then module_timeout
  else Z.min settings.(protocol_audit_timeout_seconds) module_timeout.

(** ** Versions ([protocol_audits/availability.py]) *)

Definition _VERSION_RE : regex :=
  RSeqs [RGroup 1 (RPlus R_digit); lit "."; RGroup 2 (RPlus R_digit);
         RMaybe (RSeq (lit ".") (RGroup 3 (RPlus R_digit)))].

(** [int(text)] of digits *)
Definition int_of_digits (s : string) : PO Z :=
  match int_of_str s with
  | Some n => Return n
  | None => Raise (ProbeValueError "invalid literal for int() with base 10")
  end.

Fixpoint ints_of (l : list string) : PO (list Z) :=
  match l with [] => mret [] | s :: l => n ← int_of_digits s; ns ← ints_of l; mret (n :: ns) end.

Definition parse_version_tuple (text : string) : PO (option (list Z)) :=
  match re_search _VERSION_RE text with
  | None => mret None
  | Some m => ns ← ints_of (omap (fun n => group n m) [1; 2; 3]%nat); mret (Some ns)
  end.

(** [a >= b] on tuples *)
Fixpoint tuple_ge (a b : list Z) : bool :=
  match a, b with
  | _, [] => true
  | [], _ :: _ => false
  | x :: a, y :: b => if x =? y then tuple_ge a b else y <? x
  end.

Definition version_meets (actual minimum : option string) : PO bool :=
  match minimum, actual with
  | Some (String c m), Some (String d v) =>
      actual_tuple ← parse_version_tuple (String d v);
      minimum_tuple ← parse_version_tuple (String c m);
      mret (match actual_tuple, minimum_tuple with
            | Some a, Some b => tuple_ge a b
            | _, _ => true
            end)
  | _, _ => mret true
  end.

(** ["\n".join(part for part in (stdout, stderr) if part)] *)
Definition output_text (r : ToolResult) : string :=
  join (String newline EmptyString) (List.filter nonempty [r.(stdout); r.(stderr)]).

(** [inspect_tool] in two halves: without a binary, and with the answer of the tool. *)
Definition missing_tool (tool : string) : ToolAvailability :=
  mkAvailability tool false None None false ("Required tool is not installed: " +:+ tool).

Definition inspected_tool (tool path : string) (result : ToolResult) (minimum_version : option string)
    : PO ToolAvailability :=
  parsed ← parse_version_tuple (output_text result);
  let version := (fun ns => join "." (List.map str_int ns)) <$> parsed in
  meets ← version_meets version minimum_version;
  let message := if (meets : bool) then "available"
                 else tool +:+ " " +:+ str_or version "unknown" +:+ " is below minimum " +:+
                      default "None" minimum_version in
  mret (mkAvailability tool true version (Some path) meets message).

(** ** Status observations ([protocol_audits/status.py]) *)

Definition has_error (code : ToolErrorCode) (r : ToolResult) : bool :=
  match r.(result_error) with Some e => bool_decide (e.(tool_error_code) = code) | None => false end.

Definition py_opt_int (n : option Z) : pyval := match n with Some n => PInt n | None => PNone end.
Definition py_opt_str (s : option string) : pyval := match s with Some s => PStr s | None => PNone end.

Definition any_output (r : ToolResult) : bool := nonempty r.(stdout) || nonempty r.(stderr).

(** What a run says by itself, before its output is read. *)
Definition tool_status_observation (r : ToolResult) (source : string) (parse_on_nonzero_exit : bool)
    : option ObservationDraft :=
  let draft kind data := Some (mkObservationDraft kind data CONF_UNKNOWN source EmptyString) in
  if r.(result_cancelled) then draft "cancelled" [("tool", PStr r.(result_tool))]
  else if r.(timed_out) || has_error TOOL_TIMEOUT r then
    draft "tool_timeout" [("tool", PStr r.(result_tool)); ("exit_code", py_opt_int r.(exit_code))]
  else if has_error MISSING_BINARY r then
    draft "tool_unavailable" [("tool", PStr r.(result_tool));
      ("message", match r.(result_error) with Some e => PStr e.(tool_error_message) | None => PNone end)]
  else if r.(success) then
    if any_output r then None
    else draft "empty_output" [("tool", PStr r.(result_tool)); ("exit_code", py_opt_int r.(exit_code))]
  else if parse_on_nonzero_exit && any_output r then None
  else draft "tool_failed" [("tool", PStr r.(result_tool)); ("exit_code", py_opt_int r.(exit_code));
         ("error_code", py_opt_str ((fun e => ToolErrorCode_value e.(tool_error_code)) <$> r.(result_error)))].

Definition unavailable_observation (tool message : string) : PO ObservationDraft :=
  build_observation (mkObservationDraft "tool_unavailable"
    [("tool", PStr tool); ("message", PStr message)] CONF_UNKNOWN tool EmptyString).

Definition malformed_observation (source message : string) : ObservationDraft :=
  mkObservationDraft "malformed_output" [("message", PStr message)] CONF_UNKNOWN source EmptyString.
