(* ===== verification/ProbeTargets.v ===== *)
(** * What may be probed ([protocol_audits/targets.py])

    Addresses in canonical text, host names safe to hand to a tool, and the target of a
    probe: an address of the service's own asset inside the confirmed scope. *)

From S2P Require Import Prelude PyBase PyText JobModels FindModels Ip Inventory InventoryQueries Regex ProbeModels.

(** An exception of [ipaddress] *)
Definition ip_result {A} (m : IO A) : PO A :=
  match m with Return a => Return a | Raise e => Raise (InvalidAddress e) end.

(** ** Addresses *)

Definition canonical_host (address : string) : PO string :=
  a ← ip_result (ip_address (strip address)); mret (ip_str a).

Definition bracket_host (address : string) : PO string :=
  host ← canonical_host address;
  parsed ← ip_result (ip_address host);
  mret (if parsed.(version) =? 6 then "[" +:+ ip_str parsed +:+ "]" else ip_str parsed).

Definition connect_endpoint (address : string) (port : Z) : PO string :=
  if negb ((0 <=? port) && (port <=? 65535)) then Raise (ProbeValueError "port is out of range")
  else host ← bracket_host address; mret (host +:+ ":" +:+ str_int port).

(** ** Host names *)

Definition alnum_char : regex := RChar is_alnum.
Definition alnum_hyphen_char : regex := RChar (fun c => is_alnum c || Ascii.eqb c (chr 45)).

(** [[A-Za-z0-9](?:[A-Za-z0-9-]{0,61}[A-Za-z0-9])?] *)
Definition label_re : regex :=
  RSeq alnum_char (RMaybe (RSeq (RUpTo 61 alnum_hyphen_char) alnum_char)).

Definition _HOSTNAME_RE : regex :=
  RSeqs [RBegin false;
         RLook (RSeqs [R_dot; RUpTo 252 R_dot; REnd false]);
         label_re; RStar true (RSeq (lit ".") label_re); REnd false].

Definition unsafe_chars : string :=
  String slash (String backslash (String (chr 32) (String (chr 9) (String (chr 10) (String colon EmptyString))))).

Definition safe_hostname (value : option string) : option string :=
  match value with
  | None | Some EmptyString => None
  | Some value =>
      let candidate := rstrip_by (Ascii.eqb dot) (strip value) in
      if negb (nonempty candidate) || startswith candidate "-" then None
      else if str_all (fun c => negb (one_of unsafe_chars c)) candidate then
        match re_fullmatch _HOSTNAME_RE candidate with
        | Some _ => Some candidate
        | None => None
        end
      else None
  end.

(** ** The confirmed scope *)

Fixpoint in_targets (parsed : ip_addr) (targets : list string) : PO bool :=
  match targets with
  | [] => mret false
  | target :: targets =>
      network ← ip_result (ip_network target false);
      if (parsed.(version) =? net_version network) &&
         in_block (net_version network) network.(network_address).(ip_int) network.(prefixlen) parsed
      then mret true else in_targets parsed targets
  end.

Definition address_in_scope (address : string) (scope : ConfirmedScopeModel) : PO bool :=
  host ← canonical_host address;
  parsed ← ip_result (ip_address host);
  in_targets parsed scope.(cs_targets).

(** The addresses of an asset inside the scope, in their order. *)
Fixpoint in_scope_addresses (l : list AssetAddressModel) (scope : ConfirmedScopeModel) : PO (list string) :=
  match l with
  | [] => mret []
  | a :: l =>
      inside ← address_in_scope a.(address) scope;
      others ← in_scope_addresses l scope;
      mret (if (inside : bool) then a.(address) :: others else others)
  end.

Definition select_probe_address (asset : AssetRecord) (scope : ConfirmedScopeModel) : PO (option string) :=
  in_scope ← in_scope_addresses asset.(record_addresses) scope;
  let ipv4 := List.filter (fun item => negb (has_char colon item)) in_scope in
  let preferred := if not_empty ipv4 then ipv4 else in_scope in
  match preferred with
  | [] => mret None
  | first :: _ =>
      match find_first (fun a => a.(is_primary) && str_in a.(address) preferred) asset.(record_addresses) with
      | Some a => host ← canonical_host a.(address); mret (Some host)
      | None => host ← canonical_host first; mret (Some host)
      end
  end.

(** PTR names first, then by source and name. *)
Definition hostname_le : AssetNameModel → AssetNameModel → bool :=
  rank_then (fun n => if String.eqb (lower n.(name_type)) "ptr" then 0 else 1)
    (str_then name_source (fun a b => str_le a.(asset_name) b.(asset_name))).

Definition select_hostname (asset : AssetRecord) : option string :=
  head (omap (fun n => safe_hostname (Some n.(asset_name))) (sort_by hostname_le asset.(record_names))).

(** ** Targets *)

Definition OPEN_STATES : list string := ["open"; "open|filtered"].

Definition is_open_service (s : ServiceModel) : bool := str_in (lower s.(srv_state)) OPEN_STATES.

Definition port_in (port : Z) (l : list Z) : bool := existsb (Z.eqb port) l.

Definition _scheme_hint (s : ServiceModel) : option string :=
  let name := lower_or_empty s.(srv_service_name) in
  let tunnel := lower_or_empty s.(srv_tunnel) in
  if port_in s.(srv_port) [443; 8443; 636; 993; 995; 465; 990] ||
     str_in name ["https"; "ssl"; "tls"; "ldaps"; "imaps"; "pop3s"; "smtps"] ||
     str_in tunnel ["ssl"; "tls"]
  then Some "tls"
  else if port_in s.(srv_port) [80; 8000; 8008; 8080; 8888] || str_in name ["http"; "http-proxy"]
  then Some "http"
  else None.

Definition build_probe_target (asset : AssetRecord) (s : ServiceModel) (scope : ConfirmedScopeModel)
    : PO (option ProbeTarget) :=
  if negb (is_open_service s) then mret None
  else
    address ← select_probe_address asset scope;
    match address with
    | None => mret None
    | Some address =>
        target ← build_target (mkTarget asset s address s.(srv_port) (select_hostname asset) (_scheme_hint s));
        mret (Some target)
    end.
