(* ===== verification/ProbeParsers.v ===== *)
(** * What the tools print ([parsers/protocol/])

    Each parser turns the result of one tool into observations: a status observation when
    the run says enough by itself, otherwise what its patterns find in the output. *)

From S2P Require Import Prelude PyBase PyText JobModels FindModels Ip Regex ProbeModels.

(** ** Text *)

(** Where [str.splitlines] ends a line. *)
Definition is_line_break (c : ascii) : bool :=
  ((10 <=? code c) && (code c <=? 13)) || ((28 <=? code c) && (code c <=? 30)).

Definition carriage_return : ascii := chr 13.

(** [s.splitlines()], [cur] being the line read so far; CR LF is one break. *)
Fixpoint lines_from (cur : string) (s : string) : list string :=
  match s with
  | EmptyString => if nonempty cur then [cur] else []
  | String c s' =>
      if is_line_break c then
        cur :: match s' with
               | String d s'' => if Ascii.eqb c carriage_return && Ascii.eqb d newline
                                 then lines_from EmptyString s'' else lines_from EmptyString s'
               | EmptyString => []
               end
      else lines_from (cur +:+ String c EmptyString) s'
  end.
Definition splitlines (s : string) : list string := lines_from EmptyString s.

(** [a or b] on optional strings *)
Definition opt_or (a b : option string) : option string := if truthy_str a then a else b.

(** [s or None] *)
Definition or_none (s : string) : option string := if nonempty s then Some s else None.

(** [s.strip(chars)] *)
Definition strip_by (p : ascii → bool) (s : string) : string := rstrip_by p (lstrip_by p s).

Definition observed (kind : string) (data : dict) (confidence : ConfidenceLevel) (source : string)
    : ObservationDraft := mkObservationDraft kind data confidence source EmptyString.

(** [match.group(1).strip()] of a search *)
Definition _first (pattern : regex) (text : string) : option string :=
  (fun m => strip (group_text 1 m)) <$> re_search pattern text.

(** [match.group(1)] of a search *)
Definition raw_first (pattern : regex) (text : string) : option string :=
  group_text 1 <$> re_search pattern text.

(** [text.splitlines()[0][:256]] *)
Definition first_line (text : string) : PO string :=
  match splitlines text with
  | l :: _ => mret (str_take 256 l)
  | [] => Raise (ProbeLookupError "list index out of range")
  end.

Definition found (pattern : regex) (text : string) : bool :=
  match re_search pattern text with Some _ => true | None => false end.

(** [if status is not None: return [status]], and otherwise the body of the parser *)
Definition unless_status (r : ToolResult) (source : string) (body : PO (list ObservationDraft))
    : PO (list ObservationDraft) :=
  match tool_status_observation r source true with
  | Some status => mret [status]
  | None => body
  end.

(** ** [dig] *)

Definition quote_lit : regex := lit_char quote2.
Definition dns_record (name : string) : regex :=
  RSeqs [lit_i name; RPlus R_space; RPlus R_digit; RPlus R_space; lit_i "CH"; RPlus R_space;
         lit_i "TXT"; RPlus R_space; quote_lit;
         RGroup 1 (RStar true (RChar (fun c => negb (Ascii.eqb c quote2)))); quote_lit].

Definition _FLAGS : regex :=
  RSeqs [lit_i ";; flags:"; spaces; RGroup 1 (RPlus (RChar (fun c => negb (Ascii.eqb c (chr 59))))); lit ";"].
Definition _TXT : regex := dns_record "version.bind.".
Definition _HOSTNAME : regex := dns_record "hostname.bind.".
Definition _ID_SERVER : regex := dns_record "id.server.".
Definition letter_i : regex := RChar (fun c => is_upper (upper_char c)).
Definition dig_STATUS : regex := RSeqs [lit_i "status:"; spaces; RGroup 1 (RPlus letter_i)].
Definition dig_HEADER : regex := RSeq (RBegin true) (lit "; <<>> DiG ").

Definition parse_dig (r : ToolResult) : PO (list ObservationDraft) :=
  unless_status r "dig" (
    let text := output_text r in
    if negb (nonempty (strip text)) || (negb (found dig_HEADER text) && negb (contains "flags:" (lower text))) then
      if contains "connection timed out" (lower text) || contains "no servers could be reached" (lower text) then
        mret [observed "dns_unreachable"
                [("message", PStr "dig received no response from the in-scope resolver")] CONF_MEDIUM "dig"]
      else mret [malformed_observation "dig" "dig output was not a recognisable DNS message"]
    else
      let flags := match raw_first _FLAGS text with
                   | Some g => List.map strip (List.filter (fun item => nonempty (strip item)) (split_ws g))
                   | None => []
                   end in
      let rcode := upper <$> raw_first dig_STATUS text in
      let version := _first _TXT text in
      let hostname := opt_or (_first _HOSTNAME text) (_first _ID_SERVER text) in
      mret ((if truthy_str version || truthy_str hostname then
               [observed "dns_identity" [("version", py_opt_str version); ("hostname", py_opt_str hostname)]
                  CONF_HIGH "dig"]
             else []) ++
            [observed "dns_flags"
               [("flags", PList (List.map PStr flags)); ("recursion_available", PBool (str_in "ra" flags));
                ("recursion_desired", PBool (str_in "rd" flags)); ("authoritative", PBool (str_in "aa" flags));
                ("rcode", py_opt_str rcode)] CONF_HIGH "dig"])).

(** ** [curl] *)

Definition http_STATUS : regex :=
  RSeqs [RBegin false; lit_i "HTTP/"; RPlus R_nonspace; RPlus R_space; RGroup 1 (RTimes 3 R_digit);
         RMaybe (RSeq (RPlus R_space) (RGroup 2 (RStar true R_dot))); REnd false].

(** [A-Za-z0-9!#$%&'*+\-.^_`|~] *)
Definition token_char (c : ascii) : bool :=
  is_alnum c || existsb (Z.eqb (code c)) [33; 35; 36; 37; 38; 39; 42; 43; 45; 46; 94; 95; 96; 124; 126].
Definition http_HEADER : regex :=
  RSeqs [RBegin false; RGroup 1 (RPlus (RChar token_char)); lit ":"; spaces;
         RGroup 2 (RStar true R_dot); REnd false].
Definition _TITLE : regex :=
  RSeqs [lit_i "<title"; RStar true (RChar (fun c => negb (Ascii.eqb c (chr 62)))); lit ">";
         RGroup 1 (RStar false (RChar (fun _ => true))); lit_i "</title>"].
Definition blank_line : regex :=
  RSeqs [RMaybe (lit_char carriage_return); lit_char newline; RMaybe (lit_char carriage_return); lit_char newline].

Definition INTERESTING_HEADERS : list string :=
  ["server"; "content-type"; "content-length"; "location"; "www-authenticate";
   "strict-transport-security"; "x-powered-by"; "x-frame-options"; "content-security-policy";
   "referrer-policy"; "cache-control"].

Definition _split_headers (text : string) : string * string :=
  let '(head, body) := re_split_once blank_line text in (head, default EmptyString body).

Record HttpHead : Type := mkHead {
  status_code : option Z;
  reason : option string;
  headers : list (string * string)
}.

(** One line of the header block. *)
Definition header_line (h : HttpHead) (line : string) : PO HttpHead :=
  let stripped := strip_by (Ascii.eqb carriage_return) line in
  match re_match http_STATUS stripped with
  | Some (_, m) =>
      n ← int_of_digits (group_text 1 m);
      mret (mkHead (Some n) (or_none (strip (default EmptyString (group 2 m)))) [])
  | None =>
      match re_match http_HEADER stripped with
      | Some (_, m) =>
          let name := lower (group_text 1 m) in
          if str_in name INTERESTING_HEADERS && negb (str_in name (dict_keys h.(headers))) then
            mret (mkHead h.(status_code) h.(reason) (dict_set h.(headers) name (strip (group_text 2 m))))
          else mret h
      | None => mret h
      end
  end.

Fixpoint header_lines (h : HttpHead) (lines : list string) : PO HttpHead :=
  match lines with [] => mret h | l :: lines => h ← header_line h l; header_lines h lines end.

Definition page_title (body : string) : option string :=
  match re_search _TITLE body with
  | Some m => or_none (str_take 256 (strip (re_sub (RPlus R_space) " " (group_text 1 m))))
  | None => None
  end.

Definition parse_curl_http (r : ToolResult) : PO (list ObservationDraft) :=
  unless_status r "curl" (
    let text := r.(stdout) in
    if negb (nonempty (strip text)) then mret [malformed_observation "curl" "curl produced no HTTP output"]
    else
      let '(header_block, body) := _split_headers text in
      h ← header_lines (mkHead None None []) (splitlines header_block);
      match h.(status_code) with
      | None => mret [malformed_observation "curl" "curl output had no HTTP status line"]
      | Some n =>
          mret [observed "http_response"
            [("status_code", PInt n); ("reason", py_opt_str h.(reason)); ("title", py_opt_str (page_title body));
             ("headers", PDict (List.map (fun kv => (kv.1, PStr kv.2)) h.(headers)))] CONF_HIGH "curl"]
      end).

(** ** [ldapsearch] *)

Definition word_hyphen : regex := RChar (fun c => is_word c || Ascii.eqb c (chr 45)).
Definition _ATTR : regex :=
  RSeqs [RBegin false; RGroup 1 (RSeq (RChar (fun c => is_upper c || is_lower c)) (RStar true word_hyphen));
         spaces; lit ":"; spaces; RGroup 2 (RPlus R_dot); REnd false].
Definition _BIND_FAIL : regex :=
  RGroup 1 (RAlts [lit_i "Confidentiality required"; lit_i "Invalid credentials";
                   lit_i "inappropriateAuthentication"; lit_i "operationsError"]).

Definition INTERESTING : list string :=
  ["namingcontexts"; "defaultnamingcontext"; "dnshostname"; "ldapservicename";
   "rootdomainnamingcontext"; "supportedldapversion"; "supportedsaslmechanisms"].

(** [attributes.setdefault(name, []).append(value)] *)
Definition append_value (d : list (string * list string)) (name value : string) : list (string * list string) :=
  dict_set d name (default [] (dict_get d name) ++ [value]).

Definition attribute_line (d : list (string * list string)) (line : string) : list (string * list string) :=
  match re_match _ATTR (strip line) with
  | Some (_, m) =>
      let name := lower (group_text 1 m) in
      if str_in name INTERESTING then append_value d name (strip (group_text 2 m)) else d
  | None => d
  end.

Definition parse_ldapsearch (r : ToolResult) : PO (list ObservationDraft) :=
  unless_status r "ldapsearch" (
    let text := output_text r in
    let attributes := foldl attribute_line [] (splitlines text) in
    if not_empty attributes then
      mret [observed "ldap_rootdse"
        [("anonymous_bind", PBool true);
         ("attributes", PDict (List.map (fun kv => (kv.1, PList (List.map PStr kv.2))) attributes))]
        CONF_HIGH "ldapsearch"]
    else
      match raw_first _BIND_FAIL text with
      | Some denied =>
          mret [observed "ldap_anonymous_bind" [("anonymous_bind", PBool false); ("status", PStr denied)]
                  CONF_HIGH "ldapsearch"]
      | None =>
          if negb (nonempty (strip text)) then
            mret [malformed_observation "ldapsearch" "ldapsearch produced no output"]
          else
            line ← first_line text;
            mret [observed "ldap_anonymous_bind" [("anonymous_bind", PBool false); ("message", PStr line)]
                    CONF_MEDIUM "ldapsearch"]
      end).

(** ** [smbclient] *)

Definition _SHARE : regex :=
  RSeqs [RBegin false; spaces; RGroup 1 (RPlus R_nonspace); RPlus R_space;
         RGroup 2 (RAlts [lit_i "Disk"; lit_i "IPC"; lit_i "Printer"; lit_i "Device"]); spaces;
         RGroup 3 (RStar true R_dot); REnd false].
(** Group 0 is the match. *)
Definition _DENIED : regex :=
  RGroup 0 (RSeq (lit_i "NT_STATUS_")
    (RGroup 1 (RAlts [lit_i "ACCESS_DENIED"; lit_i "LOGON_FAILURE"; lit_i "ACCOUNT_DISABLED"; lit_i "INVALID_PARAMETER"]))).
Definition _SUCCESS : regex := RGroup 1 (RAlt (lit_i "Anonymous login successful") (lit_i "Sharename")).

Definition share_line (line : string) : option pyval :=
  match re_match _SHARE line with
  | Some (_, m) =>
      Some (PDict [("name", PStr (group_text 1 m)); ("type", PStr (lower (group_text 2 m)));
                   ("comment", PStr (strip (group_text 3 m)))])
  | None => None
  end.

Definition parse_smbclient (r : ToolResult) : PO (list ObservationDraft) :=
  unless_status r "smbclient" (
    let text := output_text r in
    match re_search _DENIED text with
    | Some m =>
        mret [observed "smb_null_session" [("accepted", PBool false); ("status", PStr (upper (group_text 0 m)))]
                CONF_HIGH "smbclient"]
    | None =>
        let shares := omap share_line (splitlines text) in
        if not_empty shares || found _SUCCESS text then
          mret [observed "smb_null_session"
            [("accepted", PBool true); ("share_count", PInt (Z.of_nat (length shares))); ("shares", PList shares)]
            CONF_HIGH "smbclient"]
        else if negb (nonempty (strip text)) then
          mret [malformed_observation "smbclient" "smbclient produced no output"]
        else
          line ← first_line text;
          mret [observed "smb_probe_result" [("message", PStr line)] CONF_MEDIUM "smbclient"]
    end).

(** ** [snmpget] *)

Definition _TIMEOUT : regex := RAlt (lit_i "Timeout: No Response") (lit_i "No Response from").
Definition _ENGINE : regex :=
  RGroup 1 (RAlts [lit_i "engineBoots"; lit_i "engineID"; lit_i "usmStatsUnknownEngineIDs";
                   lit_i "Unknown user name"; lit_i "authorizationError"]).
Definition _SYS_DESCR : regex :=
  RSeqs [lit_i "sysDescr"; RMaybe (lit ".0"); spaces; lit "="; spaces;
         RMaybe (RSeq (lit_i "STRING:") spaces); RGroup 1 (RPlus R_dot); REnd true].

Definition snmp_note : string :=
  "No SNMPv3 unauthenticated response. Community guessing and SNMP walks are outside the default profile.".

Definition parse_snmpget (r : ToolResult) : PO (list ObservationDraft) :=
  unless_status r "snmpget" (
    let text := output_text r in
    match _first _SYS_DESCR text with
    | Some sys_descr =>
        mret [observed "snmp_unauthenticated"
          [("responded", PBool true); ("sys_descr", PStr sys_descr); ("auth", PStr "none"); ("version", PStr "3")]
          CONF_HIGH "snmpget"]
    | None =>
        if found _TIMEOUT text || negb (nonempty (strip text)) then
          mret [observed "snmp_unauthenticated"
            [("responded", PBool false); ("auth", PStr "none"); ("version", PStr "3"); ("note", PStr snmp_note)]
            CONF_MEDIUM "snmpget"]
        else
          match raw_first _ENGINE text with
          | Some engine =>
              mret [observed "snmp_unauthenticated"
                [("responded", PBool true); ("auth", PStr "none"); ("version", PStr "3"); ("usm_indicator", PStr engine)]
                CONF_HIGH "snmpget"]
          | None => mret [malformed_observation "snmpget" "snmpget output was not recognised"]
          end
    end).

(** ** [openssl s_client] *)

Definition word_dot : regex := RChar (fun c => is_word c || Ascii.eqb c dot).
Definition protocol_name : list regex :=
  [RSeq (lit_i "TLS") (RPlus word_dot); RSeq (lit_i "SSLv") (RPlus word_dot)].
Definition _PROTOCOL : regex :=
  RSeqs [RAlt (RSeq (lit_i "Protocol") (RMaybe (lit_i " version"))) (lit_i "New,"); spaces;
         RMaybe (lit ":"); spaces;
         RGroup 1 (RAlts (protocol_name ++ [RSeq (lit_i "TLSv1") (RMaybe (RSeq (lit ".") R_digit))]))].
Definition _PROTOCOL_NEW : regex := RSeqs [lit_i "New,"; spaces; RGroup 1 (RAlts protocol_name)].
Definition _CIPHER : regex :=
  RSeqs [RAlts [RSeq (lit_i "Ciphersuite:") spaces; RSeq (lit_i "Cipher is") (RPlus R_space);
                RSeqs [lit_i "Cipher"; spaces; lit ":"; spaces]];
         RGroup 1 (RPlus (RChar (fun c => is_word c || Ascii.eqb c (chr 45))))].
(** [name\s*=\s*(.+)$] under [re.M] *)
Definition field_line (head : regex) (sign : string) : regex :=
  RSeqs [head; lit sign; spaces; RGroup 1 (RPlus R_dot); REnd true].
Definition _SUBJECT : regex := field_line (RSeqs [RBegin true; lit_i "subject"; spaces]) "=".
Definition _ISSUER : regex := field_line (RSeqs [RBegin true; lit_i "issuer"; spaces]) "=".
Definition _NOT_BEFORE : regex := field_line (RSeq (lit_i "notBefore") spaces) "=".
Definition _NOT_AFTER : regex := field_line (RSeq (lit_i "notAfter") spaces) "=".
Definition _VERIFY : regex :=
  RSeqs [lit_i "Verify return code:"; spaces; RGroup 1 (RPlus R_digit); spaces;
         RMaybe (RSeqs [lit "("; RGroup 2 (RPlus R_dot); lit ")"])].
Definition _CONNECTED : regex := RSeq (RBegin true) (lit "CONNECTED(").
Definition _BRIEF_PROTOCOL : regex := field_line (lit_i "Protocol version") ":".
Definition _BRIEF_CIPHER : regex := field_line (lit_i "Ciphersuite") ":".
Definition _PEER_CERT : regex := field_line (lit_i "Peer certificate") ":".

Definition parse_openssl_sclient (r : ToolResult) : PO (list ObservationDraft) :=
  unless_status r "openssl" (
    let text := output_text r in
    if negb (nonempty (strip text)) then mret [malformed_observation "openssl" "openssl produced no output"]
    else
      let protocol := match opt_or (_first _BRIEF_PROTOCOL text) (_first _PROTOCOL_NEW text) with
                      | Some p => Some p | None => raw_first _PROTOCOL text end in
      let cipher := match _first _BRIEF_CIPHER text with
                    | Some c => Some c | None => raw_first _CIPHER text end in
      let subject := opt_or (_first _SUBJECT text) (_first _PEER_CERT text) in
      let issuer := _first _ISSUER text in
      let not_before := _first _NOT_BEFORE text in
      let not_after := _first _NOT_AFTER text in
      '(verify_code, verify_text) ←
        match re_search _VERIFY text with
        | Some m => n ← int_of_digits (group_text 1 m);
                    mret (Some n, or_none (strip (default EmptyString (group 2 m))))
        | None => mret (None, None)
        end;
      if negb (found _CONNECTED text || truthy_str protocol || truthy_str cipher) then
        mret [malformed_observation "openssl" "openssl output had no handshake fields"]
      else
        let drafts :=
          (if truthy_str protocol || truthy_str cipher then
             [observed "tls_session" [("protocol", py_opt_str protocol); ("cipher", py_opt_str cipher)]
                CONF_HIGH "openssl"]
           else []) ++
          (if truthy_str subject || truthy_str issuer || truthy_str not_before || truthy_str not_after ||
              match verify_code with Some _ => true | None => false end then
             [observed "tls_certificate"
               [("subject", py_opt_str subject); ("issuer", py_opt_str issuer);
                ("not_before", py_opt_str not_before); ("not_after", py_opt_str not_after);
                ("verify_code", py_opt_int verify_code); ("verify_message", py_opt_str verify_text)]
               CONF_HIGH "openssl"]
           else []) in
        mret (if not_empty drafts then drafts
              else [malformed_observation "openssl" "openssl handshake fields were empty"])).

(** ** [ssh-audit] *)

Definition _TEXT_BANNER : regex :=
  RSeqs [RAlt (lit_i "banner") (lit_i "remote software version"); spaces; RChar (one_of ":="); spaces;
         RGroup 1 (RPlus R_dot); REnd false].
Definition _TEXT_ALGO : regex :=
  RSeqs [RBegin false; spaces; lit "(";
         RGroup 1 (RAlts [lit_i "kex"; lit_i "key"; lit_i "enc"; lit_i "mac";
                          RSeqs [lit_i "host"; RMaybe R_dot; lit_i "key"]; lit_i "cipher"]);
         lit ")"; RPlus R_space; RMaybe (RSeq (lit_i "algorithm") spaces); RChar (one_of ":="); spaces;
         RGroup 2 (RPlus R_dot); REnd false].

Definition _dedupe (values : list string) : list string := foldl append_new [] values.

(** The names in a list of strings and of objects. *)
Definition item_name (v : pyval) : option string :=
  match v with
  | PStr s => Some s
  | PDict d => match por (get d "algorithm") (get d "name") with PStr s => Some s | _ => None end
  | _ => None
  end.

Definition _algorithm_names (value : pyval) : list string :=
  match value with
  | PList l => _dedupe (omap item_name l)
  | PDict d => _dedupe (_dedupe (omap item_name d.*2))
  | _ => []
  end.

Definition _family (label : string) : string :=
  let lowered := lower label in
  if startswith lowered "kex" then "kex"
  else if contains "key" lowered then "host_key"
  else if startswith lowered "mac" then "mac"
  else "encryption".

Definition algorithms_data (algorithms : list (string * list string)) : dict :=
  List.map (fun kv => (kv.1, PList (List.map PStr kv.2))) algorithms.

Definition any_algorithm (algorithms : list (string * list string)) : bool :=
  existsb (fun kv => not_empty kv.2) algorithms.

Definition _from_json (payload : pyval) : list ObservationDraft :=
  let payload := match payload with PList (p :: _) => p | p => p end in
  match payload with
  | PDict d =>
      let '(software, raw, protocol) :=
        match get d "banner" with
        | PDict banner => (por (get banner "software") (get banner "raw"), get banner "raw", get banner "protocol")
        | PStr banner => (PStr banner, PStr banner, PNone)
        | _ => (PNone, PNone, PNone)
        end in
      let algorithms :=
        [("kex", _algorithm_names (por (get d "kex") (get d "kexalgos")));
         ("host_key", _algorithm_names (por (por (get d "key") (get d "keyalgos")) (get d "hostkey")));
         ("encryption", _algorithm_names (por (por (get d "enc") (get d "ciphers")) (get d "encalgos")));
         ("mac", _algorithm_names (por (get d "mac") (get d "macalgos")))] in
      let drafts :=
        (if truthy software || truthy raw then
           [observed "ssh_banner" [("software", software); ("raw", raw); ("protocol", protocol)] CONF_HIGH "ssh-audit"]
         else []) ++
        (if any_algorithm algorithms then
           [observed "ssh_algorithms" (algorithms_data algorithms) CONF_HIGH "ssh-audit"]
         else []) in
      if not_empty drafts then drafts
      else [malformed_observation "ssh-audit" "ssh-audit JSON had no banner or algorithms"]
  | _ => [malformed_observation "ssh-audit" "ssh-audit JSON root is not an object"]
  end.

(** [s.replace(old, new)] of one character *)
Definition replace_char (old new : ascii) : string → string :=
  str_map (fun c => if Ascii.eqb c old then new else c).

(** The banner and the algorithms read so far. *)
Definition ssh_text : Type := option string * list (string * list string).

Definition ssh_line (st : ssh_text) (line : string) : ssh_text :=
  let '(banner, algorithms) := st in
  let stripped := strip line in
  if negb (nonempty stripped) || startswith stripped "#" then st
  else
    match re_search _TEXT_BANNER stripped, banner with
    | Some m, None => (Some (strip (group_text 1 m)), algorithms)
    | _, _ =>
        match re_match _TEXT_ALGO stripped with
        | Some (_, m) =>
            let family := _family (group_text 1 m) in
            let names := List.map strip
              (List.filter (fun item => nonempty (strip item) && negb (startswith item "("))
                 (split_ws (replace_char (chr 44) (chr 32) (group_text 2 m)))) in
            (banner, dict_set algorithms family (default [] (dict_get algorithms family) ++ names))
        | None => st
        end
    end.

Definition _from_text (text : string) : list ObservationDraft :=
  let '(banner, algorithms) :=
    foldl ssh_line (None, [("kex", []); ("host_key", []); ("encryption", []); ("mac", [])]) (splitlines text) in
  let drafts :=
    match banner with
    | Some (String c b) =>
        [observed "ssh_banner" [("software", PStr (String c b)); ("raw", PStr (String c b))] CONF_HIGH "ssh-audit"]
    | _ => []
    end ++
    (if any_algorithm algorithms then
       [observed "ssh_algorithms" (algorithms_data (List.map (fun kv => (kv.1, _dedupe kv.2)) algorithms))
          CONF_HIGH "ssh-audit"]
     else []) in
  if not_empty drafts then drafts
  else [malformed_observation "ssh-audit" "ssh-audit text had no banner or algorithms"].

(** [json_loads] is [json.loads], [None] when it raises [JSONDecodeError]. *)
Definition parse_ssh_audit (json_loads : string → option pyval) (r : ToolResult)
    : PO (list ObservationDraft) :=
  unless_status r "ssh-audit" (
    let text := str_or (Some (strip r.(stdout))) (strip r.(stderr)) in
    if startswith text "{" || startswith text "[" then
      match json_loads r.(stdout) with
      | None => mret [malformed_observation "ssh-audit" "ssh-audit JSON is invalid"]
      | Some payload => mret (_from_json payload)
      end
    else mret (_from_text text)).
