(* ===== verification/ProbeModules.v ===== *)
(** * Protocol-audit modules, their registry and the work they match

    The seven default modules and the three gated ones ([protocol_audits/modules/]), each
    with its predicates, the commands it builds and how it reads their results; the
    registry ([registry.py]) and the selection of work ([matching.py]). *)

From S2P Require Import Prelude PyBase PyText JobModels FindModels Ip Inventory InventoryQueries Regex ProbeModels ProbeTargets ProbeParsers.

(** [ProtocolModule]: the attributes of a class and the methods it defines.  A module whose
    [fixed_availability] is set answers with it; the others look for their tool. *)
Record ProtocolModule : Type := mkModule {
  module_name : string;
  module_protocol : string;
  safety : SafetyClass;
  required_tool : string;
  min_version : option string;
  module_timeout : Z;
  version_args : list string;
  predicates : list ServicePredicate;
  tool_name : Settings → string;
  fixed_availability : option ToolAvailability;
  build_commands : ProbeTarget → Settings → PO (list ToolCommand);
  parse_results : list ToolResult → ProbeTarget → PO (list ObservationDraft)
}.

Definition module_matches (m : ProtocolModule) (s : ServiceModel) : bool :=
  existsb (fun p => matches p s) m.(predicates).

Definition command_timeout (settings : Settings) (module_timeout : Z) : Z :=
  settings_timeout settings module_timeout.

(** The observations of every result, in order. *)
Fixpoint parse_each (parse : ToolResult → PO (list ObservationDraft)) (results : list ToolResult)
    : PO (list ObservationDraft) :=
  match results with
  | [] => mret []
  | r :: results => ds ← parse r; rest ← parse_each parse results; mret (ds ++ rest)
  end.

(** [build_command]: the only command of a module. *)
Definition build_command (m : ProtocolModule) (target : ProbeTarget) (settings : Settings) : PO ToolCommand :=
  commands ← m.(build_commands) target settings;
  match commands with
  | [c] => mret c
  | _ => Raise (ProbeRuntimeError (m.(module_name) +:+ " must override build_commands for multi-command probes"))
  end.

(** [command_metadata] *)
Definition command_metadata (m : ProtocolModule) (commands : list ToolCommand) : dict :=
  [("tool", PStr m.(required_tool)); ("command_count", PInt (Z.of_nat (length commands)));
   ("arg_counts", PList (List.map (fun c => PInt (Z.of_nat (length (argv c)))) commands));
   ("timeout_seconds", PList (List.map (fun c => PInt c.(timeout_seconds)) commands))].

(** A command with the environment and defaults every module uses. *)
Definition tool_command (tool : string) (args : list string) (timeout : Z) : PO ToolCommand :=
  build_tool_command (mkCommand tool args timeout [("LC_ALL", "C")] []).

Definition one_command (tool : string) (args : list string) (timeout : Z) : PO (list ToolCommand) :=
  c ← tool_command tool args timeout; mret [c].

(** ** [SshModule] *)

Definition ssh_predicates : list ServicePredicate :=
  [mkPredicate [22] ["tcp"] ["ssh"] ["openssh"; "dropbear"] []].

Definition ssh_commands (target : ProbeTarget) (settings : Settings) : PO (list ToolCommand) :=
  host ← canonical_host target.(target_address);
  one_command settings.(ssh_audit_binary) ["-n"; "-p"; str_int target.(target_port); host]
    (command_timeout settings 20).

Definition SshModule (json_loads : string → option pyval) : ProtocolModule :=
  mkModule "ssh" "ssh" SAFE "ssh-audit" (Some "2.0") 20 ["--version"] ssh_predicates ssh_audit_binary None
    ssh_commands (fun results _ => parse_each (parse_ssh_audit json_loads) results).

(** ** [TlsModule] *)

Definition tls_predicates : list ServicePredicate :=
  [mkPredicate [443; 636; 993; 995; 465; 990; 8443] ["tcp"]
     ["https"; "ssl"; "tls"; "imaps"; "pop3s"; "smtps"; "ldaps"] [] ["ssl"; "tls"]].

Definition canonical_servername (address : string) : PO string := canonical_host address.

Definition tls_commands (target : ProbeTarget) (settings : Settings) : PO (list ToolCommand) :=
  endpoint ← connect_endpoint target.(target_address) target.(target_port);
  server ← match safe_hostname target.(target_hostname) with
           | Some h => mret h
           | None => canonical_servername target.(target_address)
           end;
  one_command settings.(openssl_binary) ["s_client"; "-connect"; endpoint; "-servername"; server]
    (command_timeout settings 20).

Definition TlsModule : ProtocolModule :=
  mkModule "tls" "tls" SAFE "openssl" None 20 ["version"] tls_predicates openssl_binary None
    tls_commands (fun results _ => parse_each parse_openssl_sclient results).

(** ** [HttpModule] *)

Definition http_predicates : list ServicePredicate :=
  [mkPredicate [80; 81; 8000; 8008; 8080; 8081; 8888; 3000; 443; 8443] ["tcp"]
     ["http"; "http-proxy"; "https"; "http-alt"] [] []].

Definition http_uses_tls (t : ProbeTarget) : bool :=
  bool_decide (t.(scheme_hint) = Some "tls") ||
  port_in t.(target_port) [443; 8443] ||
  String.eqb (lower_or_empty t.(target_service).(srv_service_name)) "https" ||
  str_in (lower_or_empty t.(target_service).(srv_tunnel)) ["ssl"; "tls"].

Definition http_commands (target : ProbeTarget) (settings : Settings) : PO (list ToolCommand) :=
  let secure := http_uses_tls target in
  host ← bracket_host target.(target_address);
  let url := (if secure then "https" else "http") +:+ "://" +:+ host +:+ ":" +:+
             str_int target.(target_port) +:+ "/" in
  one_command settings.(curl_binary)
    (["--silent"; "--show-error"; "--include"; "--max-time"; str_int (command_timeout settings 15);
      "--max-redirs"; "0"; "--max-filesize"; "65536"; "--path-as-is"; "--user-agent"; "WireScope/0.1"] ++
     (if secure then ["--insecure"] else []) ++ [url])
    (command_timeout settings 15 + 2).

Definition HttpModule : ProtocolModule :=
  mkModule "http" "http" SAFE "curl" None 15 ["--version"] http_predicates curl_binary None
    http_commands (fun results _ => parse_each parse_curl_http results).

(** ** [DnsModule] *)

Definition dns_predicates : list ServicePredicate :=
  [mkPredicate [53] ["udp"] ["domain"; "dns"] [] []; mkPredicate [53] ["tcp"] ["domain"; "dns"] [] []].

(** [max(1, int(timeout / 2))]; [int] rounds towards zero. *)
Definition dig_time (settings : Settings) : Z := Z.max 1 (Z.quot (command_timeout settings 12) 2).

Definition dns_common (host : string) (target : ProbeTarget) (settings : Settings) : list string :=
  ["@" +:+ host; "+time=" +:+ str_int (dig_time settings);
   "+tries=1"; "+norecurse"; "+noall"; "+answer"; "+comments"] ++
  (if String.eqb (lower target.(target_service).(srv_protocol)) "tcp" then ["+tcp"] else []).

Definition dns_commands (target : ProbeTarget) (settings : Settings) : PO (list ToolCommand) :=
  host ← canonical_host target.(target_address);
  let common := dns_common host target settings in
  let command name := tool_command settings.(dig_binary) (common ++ [name; "CH"; "TXT"]) (command_timeout settings 12) in
  a ← command "version.bind"; b ← command "id.server"; mret [a; b].

(** [existing.data = {**existing.data, **{key: value ... if value}}] on the first identity. *)
Fixpoint merge_identity (data : dict) (combined : list ObservationDraft) : option (list ObservationDraft) :=
  match combined with
  | [] => None
  | d :: rest =>
      if String.eqb d.(draft_kind) "dns_identity" then
        Some (mkObservationDraft d.(draft_kind)
                (dict_update d.(draft_data) (List.filter (fun kv => truthy kv.2) data))
                d.(draft_confidence) d.(draft_source) d.(draft_dedupe_key) :: rest)
      else (fun r => d :: r) <$> merge_identity data rest
  end.

Definition dns_combine (st : list ObservationDraft * list string) (d : ObservationDraft)
    : list ObservationDraft * list string :=
  let '(combined, seen) := st in
  let key := d.(draft_kind) +:+ ":" +:+ d.(draft_dedupe_key) in
  let identity := String.eqb d.(draft_kind) "dns_identity" in
  if str_in key seen && negb identity then st
  else
    match (if identity then merge_identity d.(draft_data) combined else None) with
    | Some combined => (combined, seen)
    | None => (combined ++ [d], append_new seen key)
    end.

Definition dns_results (results : list ToolResult) : PO (list ObservationDraft) :=
  drafts ← parse_each parse_dig results; mret (foldl dns_combine ([], []) drafts).1.

Definition DnsModule : ProtocolModule :=
  mkModule "dns" "dns" SAFE "dig" None 12 ["-v"] dns_predicates dig_binary None
    dns_commands (fun results _ => dns_results results).

(** ** [SmbModule] *)

Definition smb_predicates : list ServicePredicate :=
  [mkPredicate [139; 445] ["tcp"] ["microsoft-ds"; "netbios-ssn"; "smb"] [] []].

Definition smb_commands (target : ProbeTarget) (settings : Settings) : PO (list ToolCommand) :=
  host ← canonical_host target.(target_address);
  bracketed ← bracket_host host;
  one_command settings.(smbclient_binary)
    ["-N"; "-L"; "//" +:+ bracketed; "-p"; str_int target.(target_port); "-m"; "SMB3"]
    (command_timeout settings 15).

Definition SmbModule : ProtocolModule :=
  mkModule "smb" "smb" SAFE "smbclient" None 15 ["-V"] smb_predicates smbclient_binary None
    smb_commands (fun results _ => parse_each parse_smbclient results).

(** ** [SnmpModule] *)

Definition SNMP_USER : string := "wirescope-unauth".
Definition SYS_DESCR_OID : string := "1.3.6.1.2.1.1.1.0".

Definition snmp_predicates : list ServicePredicate := [mkPredicate [161] ["udp"] ["snmp"] [] []].

Definition snmp_commands (target : ProbeTarget) (settings : Settings) : PO (list ToolCommand) :=
  host ← canonical_host target.(target_address);
  one_command settings.(snmpget_binary)
    ["-v3"; "-l"; "noAuthNoPriv"; "-u"; SNMP_USER; "-t"; "2"; "-r"; "0"; host; SYS_DESCR_OID]
    (command_timeout settings 8).

Definition SnmpModule : ProtocolModule :=
  mkModule "snmp" "snmp" SAFE "snmpget" None 8 ["-V"] snmp_predicates snmpget_binary None
    snmp_commands (fun results _ => parse_each parse_snmpget results).

(** ** [LdapModule] *)

Definition ldap_predicates : list ServicePredicate :=
  [mkPredicate [389] ["tcp"] ["ldap"] [] []; mkPredicate [636] ["tcp"] ["ldaps"; "ldapssl"] [] []].

Definition ldap_uses_tls (t : ProbeTarget) : bool :=
  (t.(target_port) =? 636) ||
  str_in (lower_or_empty t.(target_service).(srv_service_name)) ["ldaps"; "ldapssl"] ||
  str_in (lower_or_empty t.(target_service).(srv_tunnel)) ["ssl"; "tls"].

Definition ldap_commands (target : ProbeTarget) (settings : Settings) : PO (list ToolCommand) :=
  let secure := ldap_uses_tls target in
  host ← bracket_host target.(target_address);
  let uri := (if secure then "ldaps" else "ldap") +:+ "://" +:+ host +:+ ":" +:+ str_int target.(target_port) in
  one_command settings.(ldapsearch_binary)
    (["-x"; "-LLL"; "-H"; uri; "-s"; "base"; "-b"; ""; "-l"; "8"; "namingContexts"; "defaultNamingContext";
      "dnsHostName"; "ldapServiceName"; "supportedLDAPVersion"] ++
     (if secure then ["-o"; "tls_reqcert=allow"] else []))
    (command_timeout settings 12).

Definition LdapModule : ProtocolModule :=
  mkModule "ldap" "ldap" SAFE "ldapsearch" None 12 ["-VV"] ldap_predicates ldapsearch_binary None
    ldap_commands (fun results _ => parse_each parse_ldapsearch results).

(** ** [GatedModule]: named, never dispatched *)

Definition GatedModule (name protocol required_tool : string) : ProtocolModule :=
  mkModule name protocol NEVER_DEFAULT required_tool None 1 ["--version"] [] (fun _ => required_tool)
    (Some (mkAvailability required_tool false None None false
             (name +:+ " is gated off in Milestone 4 and is not a default protocol-audit module")))
    (fun _ _ => Raise (ProbeRuntimeError (name +:+ " is gated off and cannot build commands")))
    (fun results _ => match results with
                      | [] => mret []
                      | _ :: _ => Raise (ProbeRuntimeError (name +:+ " is gated off and cannot parse output"))
                      end).

Definition TestsslModule : ProtocolModule := GatedModule "testssl" "tls" "testssl.sh".
Definition NiktoModule : ProtocolModule := GatedModule "nikto" "http" "nikto".
Definition NucleiModule : ProtocolModule := GatedModule "nuclei" "http" "nuclei".

(** ** [ModuleRegistry] *)

Definition GATED_MODULE_NAMES : list string := ["testssl"; "nikto"; "nuclei"].

Record ModuleRegistry : Type := mkRegistry {
  _modules : list (string * ProtocolModule);
  _gated : list (string * ProtocolModule)
}.

Definition empty_registry : ModuleRegistry := mkRegistry [] [].

Definition registered (r : ModuleRegistry) (name : string) : bool :=
  str_in name (dict_keys r.(_modules)) || str_in name (dict_keys r.(_gated)).

Definition register_module (r : ModuleRegistry) (m : ProtocolModule) : PO ModuleRegistry :=
  if registered r m.(module_name) then
    Raise (ProbeValueError ("Module already registered: " +:+ m.(module_name)))
  else if bool_decide (m.(safety) = NEVER_DEFAULT) then
    mret (mkRegistry r.(_modules) (dict_set r.(_gated) m.(module_name) m))
  else mret (mkRegistry (dict_set r.(_modules) m.(module_name) m) r.(_gated)).

Definition get_module (r : ModuleRegistry) (name : string) : PO ProtocolModule :=
  match dict_get r.(_modules) name, dict_get r.(_gated) name with
  | Some m, _ => mret m
  | None, Some m => mret m
  | None, None => Raise (ProbeLookupError ("Unknown protocol module: " +:+ name))
  end.

Definition default_names (r : ModuleRegistry) : list string := sort_by str_le (dict_keys r.(_modules)).

Definition gated_names (r : ModuleRegistry) : list string := sort_by str_le (dict_keys r.(_gated)).

Definition default_modules (r : ModuleRegistry) : list ProtocolModule :=
  omap (dict_get r.(_modules)) (default_names r).

Definition is_gated (r : ModuleRegistry) (name : string) : bool :=
  str_in name (dict_keys r.(_gated)) || str_in name GATED_MODULE_NAMES.

Definition known_names (r : ModuleRegistry) : gset string :=
  list_to_set (dict_keys r.(_modules)) ∪ list_to_set (dict_keys r.(_gated)) ∪ list_to_set GATED_MODULE_NAMES.

Fixpoint register_all (r : ModuleRegistry) (l : list ProtocolModule) : PO ModuleRegistry :=
  match l with [] => mret r | m :: l => r ← register_module r m; register_all r l end.

Definition default_registry (json_loads : string → option pyval) : PO ModuleRegistry :=
  register_all empty_registry
    [SshModule json_loads; TlsModule; HttpModule; DnsModule; SmbModule; SnmpModule; LdapModule;
     TestsslModule; NiktoModule; NucleiModule].

(** ** [match_work] *)

(** [{asset.id: asset for asset in assets}.get(id)]: the last of that id. *)
Definition asset_by_id (assets : list AssetRecord) (id : string) : option AssetRecord :=
  find_first (fun a => String.eqb a.(record_asset).(asset_id) id) (rev assets).

Definition selected_modules (r : ModuleRegistry) (allowed : option (list string)) : list ProtocolModule :=
  List.filter (fun m => match allowed with None => true | Some l => str_in m.(module_name) l end) (default_modules r).

Definition never_default (m : ProtocolModule) : bool := bool_decide (m.(safety) = NEVER_DEFAULT).

(** The work on one service. *)
Definition service_work (selected : list ProtocolModule) (assets : list AssetRecord)
    (scope : ConfirmedScopeModel) (s : ServiceModel) : PO (list MatchedWork) :=
  if negb (is_open_service s) then mret []
  else
    match asset_by_id assets s.(srv_asset_id) with
    | None => mret []
    | Some asset =>
        target ← build_probe_target asset s scope;
        match target with
        | None => mret []
        | Some target =>
            mret (List.map (fun m => mkWork m.(module_name) target)
                    (List.filter (fun m => negb (never_default m) && module_matches m s) selected))
        end
    end.

Fixpoint services_work (selected : list ProtocolModule) (assets : list AssetRecord)
    (scope : ConfirmedScopeModel) (services : list ServiceModel) : PO (list MatchedWork) :=
  match services with
  | [] => mret []
  | s :: services =>
      w ← service_work selected assets scope s;
      ws ← services_work selected assets scope services;
      mret (w ++ ws)
  end.

Definition match_work (r : ModuleRegistry) (assets : list AssetRecord) (services : list ServiceModel)
    (scope : ConfirmedScopeModel) (allowed : option (list string)) : PO (list MatchedWork) :=
  services_work (selected_modules r allowed) assets scope services.

Definition matching_modules (r : ModuleRegistry) (s : ServiceModel) : list ProtocolModule :=
  List.filter (fun m => negb (never_default m) && module_matches m s) (default_modules r).
