(* ===== verification/Evidence.v ===== *)
(** * Evidence storage ([storage/evidence.py])

    Artifacts as files under the evidence root with their rows in the database.  Files
    are named by their path below the root.  Every file-system call and every commit may
    fail, as the class [FileSystem] says; a failed write leaves part of its bytes.  No
    symbolic links lie below the root. *)

From S2P Require Import Prelude PyBase PyText JobModels JobStore Sha256 Regex.

(** ** The file system and the tables *)

(** The n-th call: the message of the [OSError] it raises, and how many bytes a failing
    write leaves. *)
Class FileSystem : Type := { io_fault : nat → option (string * nat) }.

Record EvFile : Type := mkFile { content : bytes; mtime : datetime }.

Record EvWorld : Type := mkEvWorld {
  known_audits : gset string;
  known_jobs : gset string;
  artifacts : gmap string ArtifactModel;
  files : gmap string EvFile;
  io_calls : nat;
  ev_clock_reads : nat;
  ev_uuids_drawn : nat
}.
#[export] Instance eta_EvWorld : Eta EvWorld := fun w =>
  mkEvWorld w.(known_audits) w.(known_jobs) w.(artifacts) w.(files) w.(io_calls)
    w.(ev_clock_reads) w.(ev_uuids_drawn).

Inductive EvExc : Type :=
  | StorageError (error : JobError)
  | EvOSError (message : string)
  | EvIntegrityError (message : string)
  | EvValueError (message : string).

Abbreviation EM := (prog EvWorld EvExc).

(** [str(exc)] *)
Definition exc_text (e : EvExc) : string :=
  match e with
  | StorageError err => err.(err_message)
  | EvOSError m | EvIntegrityError m | EvValueError m => m
  end.

Definition _storage_error (code message : string) : EvExc :=
  StorageError (mkJobError code STORAGE message "evidence_store" false []).

Section evidence.
Context `{Runtime, FileSystem}.

Definition ev_now : EM datetime := fun w =>
  (Return (clock w.(ev_clock_reads)), w <| ev_clock_reads ::= S |>).
Definition ev_uuid : EM string := fun w =>
  (Return (uuid4 w.(ev_uuids_drawn)), w <| ev_uuids_drawn ::= S |>).

(** One call of the operating system: it fails and does [on_fault] of its work, or not. *)
Definition io_call (on_fault : nat → EvWorld → EvWorld) (work : EvWorld → EvWorld) : EM unit := fun w =>
  match io_fault w.(io_calls) with
  | Some (message, n) => (Raise (EvOSError message), on_fault n (w <| io_calls ::= S |>))
  | None => (Return tt, work (w <| io_calls ::= S |>))
  end.
Definition io_plain (work : EvWorld → EvWorld) : EM unit := io_call (fun _ w => w) work.
Definition io_nothing : EM unit := io_plain id.

(** ** Files *)

(** [path.open("xb")] *)
Definition create_file (path : string) : EM unit :=
  now ← ev_now;
  existing ← reads (fun w => w.(files) !! path);
  match existing with
  | Some _ => raise (EvOSError ("[Errno 17] File exists: " +:+ path))
  | None => io_plain (fun w => w <| files ::= insert path (mkFile [] now) |>)
  end.

Definition append_bytes (path : string) (b : bytes) (w : EvWorld) : EvWorld :=
  w <| files ::= alter (fun f => mkFile (f.(content) ++ b) f.(mtime)) path |>.

Definition write_file (path : string) (b : bytes) : EM unit :=
  io_call (fun n => append_bytes path (take n b)) (append_bytes path b).

(** [os.replace(source, target)] *)
Definition replace_file (source target : string) : EM unit :=
  found ← reads (fun w => w.(files) !! source);
  match found with
  | None => raise (EvOSError ("[Errno 2] No such file or directory: " +:+ source))
  | Some f => io_plain (fun w => w <| files ::= (fun m => <[target := f]> (delete source m)) |>)
  end.

(** [path.unlink(missing_ok=True)] *)
Definition unlink_file (path : string) : EM unit :=
  io_plain (fun w => w <| files ::= delete path |>).

(** [path.stat().st_mtime] *)
Definition stat_mtime (path : string) : EM datetime :=
  _ ← io_nothing;
  found ← reads (fun w => w.(files) !! path);
  match found with
  | Some f => mret f.(mtime)
  | None => raise (EvOSError ("[Errno 2] No such file or directory: " +:+ path))
  end.

(** [path.read_bytes()] *)
Definition read_file (path : string) : EM bytes :=
  _ ← io_nothing;
  found ← reads (fun w => w.(files) !! path);
  match found with
  | Some f => mret f.(content)
  | None => raise (EvOSError ("[Errno 2] No such file or directory: " +:+ path))
  end.

(** ** Identifiers and paths *)

(** [s.replace(p, "")] *)
Fixpoint remove_all (p : string) (skip : nat) (s : string) : string :=
  match s with
  | EmptyString => EmptyString
  | String c s' =>
      match skip with
      | S skip => remove_all p skip s'
      | O => if startswith s p then remove_all p (String.length p - 1) s'
             else String c (remove_all p 0 s')
      end
  end.

(** Hexadecimal digits, single underscores allowed between them. *)
Fixpoint hex_digits_from (acc : Z) (s : string) : option Z :=
  match s with
  | EmptyString => Some acc
  | String c s' =>
      match hex_nibble c with
      | Some d => hex_digits_from (16 * acc + d) s'
      | None =>
          if Ascii.eqb c (chr 95) then
            match s' with
            | String c' s'' => match hex_nibble c' with
                               | Some d => hex_digits_from (16 * acc + d) s''
                               | None => None
                               end
            | EmptyString => None
            end
          else None
      end
  end.

Definition unsigned_hex (s : string) : option Z :=
  let digits := match remove_prefix "0x" (lower s) with
                | Some (String c t) => if Ascii.eqb c (chr 95) then t else String c t
                | _ => s
                end in
  match digits with
  | String c _ => match hex_nibble c with Some _ => hex_digits_from 0 digits | None => None end
  | EmptyString => None
  end.

(** [int(s, 16)] *)
Definition int_of_hex (s : string) : option Z :=
  match strip s with
  | String c s' =>
      if Ascii.eqb c (chr 43) then unsigned_hex s'
      else if Ascii.eqb c (chr 45) then Z.opp <$> unsigned_hex s'
      else unsigned_hex (String c s')
  | EmptyString => None
  end.

(** [uuid.UUID(value).int]; [None] is [ValueError]. *)
Definition parse_uuid (value : string) : option Z :=
  let bare := remove_all "uuid:" 0 (remove_all "urn:" 0 value) in
  let h := drop_char (chr 45) (rstrip_by (one_of "{}") (lstrip_by (one_of "{}") bare)) in
  if negb (str_len h =? 32) then None
  else match int_of_hex h with
       | Some n => if (0 <=? n) && (n <? 2 ^ 128) then Some n else None
       | None => None
       end.

(** [str(uuid)] *)
Definition uuid_str (n : Z) : string :=
  let h := be_bytes 16 n in
  join "-" [hex (take 4 h); hex (take 2 (drop 4 h)); hex (take 2 (drop 6 h));
            hex (take 2 (drop 8 h)); hex (drop 10 h)].

Definition _validate_identifier (value : string) : EM unit :=
  match parse_uuid value with
  | None => raise (_storage_error "invalid_artifact_identifier" "Artifact identifiers must be UUIDs")
  | Some n =>
      if String.eqb (uuid_str n) value then mret tt
      else raise (_storage_error "invalid_artifact_identifier"
                    "Artifact identifiers must use canonical UUID format")
  end.

Definition slash : ascii := chr 47.
Definition path_of (audit_id : string) (job_id : option string) (artifact_id extension : string) : string :=
  join "/" [audit_id; default "audit" job_id; artifact_id +:+ extension].

Definition _artifact_path (audit_id : string) (job_id : option string) (artifact_id extension : string)
    : EM string :=
  _ ← _validate_identifier audit_id;
  _ ← match job_id with Some j => _validate_identifier j | None => mret tt end;
  _ ← _validate_identifier artifact_id;
  if negb (startswith extension ".") || has_char slash extension then
    raise (_storage_error "invalid_artifact_extension" "Artifact extension is invalid")
  else
    _ ← io_nothing;
    mret (path_of audit_id job_id artifact_id extension).

(** The components of an absolute path: no empty one, no dot, and what [..] leaves. *)
Definition lexical_step (acc : list string) (part : string) : list string :=
  if negb (nonempty part) || String.eqb part "." then acc
  else if String.eqb part ".." then removelast acc
  else acc ++ [part].

(** [(root / relative_path).resolve()] *)
Definition resolve_below (root : list string) (relative : string) : list string :=
  foldl lexical_step (if startswith relative "/" then [] else root) (split_on slash relative).

(** The path below the root when [is_relative_to(root)]. *)
Definition relative_to (root path : list string) : option string :=
  if bool_decide (take (length root) path = root) then Some (join "/" (drop (length root) path)) else None.

Definition path_for (root : list string) (a : ArtifactModel) : EM string :=
  match relative_to root (resolve_below root a.(artifact_relative_path)) with
  | Some path => mret path
  | None => raise (_storage_error "unsafe_artifact_path" "Artifact path escaped the controlled storage root")
  end.

(** ** Storing *)

(** The row and its constraints, committed as one transaction. *)
Definition add_artifact (a : ArtifactModel) : EM unit :=
  _ ← io_nothing;
  w ← reads id;
  if bool_decide (is_Some (w.(artifacts) !! a.(artifact_id))) then
    raise (EvIntegrityError "UNIQUE constraint failed: artifacts.id")
  else if negb (bool_decide (a.(artifact_audit_id) ∈ w.(known_audits))) ||
          negb (match a.(artifact_job_id) with Some j => bool_decide (j ∈ w.(known_jobs)) | None => true end) then
    raise (EvIntegrityError "FOREIGN KEY constraint failed")
  else if existsb (fun b => String.eqb b.(artifact_relative_path) a.(artifact_relative_path))
            (map_to_list w.(artifacts)).*2 then
    raise (EvIntegrityError "UNIQUE constraint failed: artifacts.relative_path")
  else modify (fun w => w <| artifacts ::= insert a.(artifact_id) a |>).

(** What describes an artifact besides its bytes. *)
Record ArtifactMeta : Type := mkMeta {
  meta_audit_id : string;
  meta_job_id : option string;
  meta_type : string;
  meta_content_type : string;
  meta_extension : string;
  meta_retention : RetentionClass;
  meta_schema_name : option string;
  meta_schema_version : option Z
}.

Definition _register (m : ArtifactMeta) (artifact_id relative_path : string) (size : Z) (sha : string)
    : EM ArtifactModel :=
  now ← ev_now;
  let a := mkArtifact artifact_id m.(meta_audit_id) m.(meta_job_id) m.(meta_type) relative_path
             m.(meta_content_type) size sha now m.(meta_retention) m.(meta_schema_name) m.(meta_schema_version) in
  _ ← add_artifact a; mret a.

(** [except Exception]: remove what was written, re-raise storage errors and wrap others. *)
Definition undo_write {A} (code prefix : string) (paths : list string) (e : EvExc) : EM A :=
  _ ← for_each unlink_file paths;
  match e with
  | StorageError _ => raise e
  | _ => raise (_storage_error code (prefix +:+ exc_text e))
  end.

Definition temporary_path (final unique : string) : string := final +:+ ".tmp-" +:+ unique.

(** Both ways of storing: [fill temp] writes the temporary file and gives its size and digest;
    the file is moved in place and registered. *)
Definition write_artifact (m : ArtifactMeta) (fill : string → EM (Z * string)) (artifact_id path temp : string)
    : EM ArtifactModel :=
  written ← fill temp;
  _ ← replace_file temp path;
  _ ← io_nothing; _ ← io_nothing; _ ← io_nothing;
  _register m artifact_id path written.1 written.2.

Definition put_file (m : ArtifactMeta) (code prefix : string) (fill : string → EM (Z * string)) : EM ArtifactModel :=
  artifact_id ← ev_uuid;
  path ← try_except
    (_artifact_path m.(meta_audit_id) m.(meta_job_id) artifact_id m.(meta_extension))
    (undo_write code prefix []);
  unique ← ev_uuid;
  let temp := temporary_path path unique in
  try_except (write_artifact m fill artifact_id path temp) (undo_write code prefix [temp; path]).

(** [hashlib.sha256(payload).hexdigest()] *)
Definition hexdigest (b : bytes) : string := hex (sha256 b).

Definition fill_bytes (payload : bytes) (temp : string) : EM (Z * string) :=
  _ ← create_file temp;
  _ ← io_nothing;
  _ ← write_file temp payload;
  _ ← io_nothing; _ ← io_nothing; _ ← io_nothing;
  mret (Z.of_nat (length payload), hexdigest payload).

Definition put_bytes (m : ArtifactMeta) (payload : bytes) : EM ArtifactModel :=
  put_file m "artifact_write_failed" "Could not persist artifact: " (fill_bytes payload).

Definition put_json (audit_id : string) (job_id : option string) (artifact_type : string) (document : dict)
    (retention : RetentionClass) (schema_name : string) (schema_version : Z) : EM ArtifactModel :=
  put_bytes (mkMeta audit_id job_id artifact_type "application/json" ".json" retention
               (Some schema_name) (Some schema_version))
    (encode (json_dumps (PDict document))).

Definition CHUNK : Z := 1048576.

(** [while chunk := input_file.read(1024 * 1024)] *)
Fixpoint copy_chunks (temp : string) (pieces : list bytes) (done : bytes) : EM bytes :=
  match pieces with
  | [] => _ ← io_nothing; mret done
  | piece :: pieces =>
      _ ← io_nothing;
      _ ← write_file temp piece;
      copy_chunks temp pieces (done ++ piece)
  end.

(** [source]: what opening the source gives to read, if it can be opened. *)
Definition fill_from (source : option bytes) (temp : string) : EM (Z * string) :=
  _ ← io_nothing;
  match source with
  | None => raise (EvOSError "[Errno 2] No such file or directory")
  | Some data =>
      _ ← create_file temp;
      _ ← io_nothing;
      copied ← copy_chunks temp (chunks (Z.to_nat CHUNK) (length data) data) [];
      _ ← io_nothing; _ ← io_nothing; _ ← io_nothing; _ ← io_nothing;
      mret (Z.of_nat (length copied), hexdigest copied)
  end.

Definition import_file (audit_id : string) (job_id : option string) (artifact_type : string)
    (source : option bytes) (content_type extension : string) (retention : RetentionClass) : EM ArtifactModel :=
  put_file (mkMeta audit_id job_id artifact_type content_type extension retention None None)
    "artifact_import_failed" "Could not import artifact: " (fill_from source).

(** ** Reading *)

Definition read_bytes (root : list string) (a : ArtifactModel) : EM bytes :=
  path ← path_for root a;
  try_except
    (payload ← read_file path;
     if String.eqb (hexdigest payload) a.(artifact_sha256) then mret payload
     else raise (EvValueError "Artifact checksum mismatch"))
    (fun e => raise (_storage_error "artifact_read_failed" ("Could not read artifact: " +:+ exc_text e))).

(** [json_loads]: [json.loads], which raises a message. *)
Definition read_json (json_loads : bytes → string + pyval) (root : list string) (a : ArtifactModel) : EM dict :=
  payload ← read_bytes root a;
  let failed message := raise (_storage_error "artifact_read_failed" ("Could not read artifact: " +:+ message)) in
  match json_loads payload with
  | inr (PDict d) => mret d
  | inr _ => failed "Artifact root must be an object"
  | inl message => failed message
  end.

(** ** Cleaning up *)

(** [path.name] *)
Definition file_name (path : string) : string := List.last (split_on slash path) EmptyString.
Definition temporary_name (path : string) : bool := contains ".tmp-" (file_name path).

Definition all_files : EM (list string) := reads (fun w => scan (map_to_list w.(files)).*1).

(** Unlinks the files older than [cutoff] among [paths], and counts them. *)
Fixpoint remove_older (cutoff : datetime) (eligible : string → bool) (paths : list string) : EM Z :=
  match paths with
  | [] => mret 0
  | p :: paths =>
      modified ← stat_mtime p;
      if eligible p && (modified <? cutoff) then
        _ ← unlink_file p; n ← remove_older cutoff eligible paths; mret (1 + n)
      else remove_older cutoff eligible paths
  end.

Definition seconds (n : Z) : Z := n * 1000000.

Definition cleanup_stale_temporary_files (max_age : Z) (older_than_seconds : option Z) : EM Z :=
  now ← ev_now;
  paths ← all_files;
  remove_older (now - seconds (default max_age older_than_seconds)) (fun _ => true)
    (List.filter temporary_name paths).

Definition cleanup_orphan_files (max_age : Z) (older_than_seconds : option Z) : EM Z :=
  now ← ev_now;
  known ← reads (fun w => artifact_relative_path <$> (map_to_list w.(artifacts)).*2);
  paths ← all_files;
  remove_older (now - seconds (default max_age older_than_seconds)) (fun p => negb (str_in p known))
    (List.filter (fun p => negb (temporary_name p)) paths).

(** ** Deleting an audit ([backend/audit_deletion.py]) *)

(** What the transaction that deletes an audit cascades to here: its jobs and artifacts. *)
Definition audit_removed (audit_id : string) (jobs : gset string) : EM unit :=
  modify (fun w => w <| known_audits ::= (fun s => s ∖ {[audit_id]}) |> <| known_jobs ::= (fun s => s ∖ jobs) |>
    <| artifacts ::= filter (fun kv => String.eqb kv.2.(artifact_audit_id) audit_id = false) |>).

Record FileCleanup : Type := mkCleanup {
  deleted_files : Z;
  evidence_directory_removed : bool;
  file_cleanup_pending : bool
}.

Definition _audit_directory (root : list string) (audit_id : string) : EM string :=
  match relative_to root (resolve_below root audit_id) with
  | Some d => mret d
  | None => raise (EvValueError "Audit evidence path escaped the controlled root")
  end.

Definition inside (directory path : string) : bool :=
  negb (nonempty directory) || startswith path (directory +:+ "/").

(** [shutil.rmtree(directory)], which stops at the first file it cannot remove. *)
Definition remove_tree (directory : string) : EM unit :=
  paths ← all_files;
  _ ← for_each unlink_file (List.filter (inside directory) paths); io_nothing.

(** The files of the audit, after its rows; a failure is left to later cleaning. *)
Definition delete_files (root : list string) (audit_id : string) : EM FileCleanup :=
  directory ← _audit_directory root audit_id;
  let ignoring {A} (m : EM A) (otherwise : A) : EM A :=
    try_except m (fun e => match e with EvOSError _ => mret otherwise | _ => raise e end) in
  counted ← ignoring (_ ← io_nothing;
                      paths ← all_files;
                      mret (Some (Z.of_nat (length (List.filter (inside directory) paths))))) None;
  match counted with
  | None => mret (mkCleanup 0 false true)
  | Some n => ignoring (_ ← remove_tree directory; _ ← io_nothing; mret (mkCleanup n true false))
                (mkCleanup n false true)
  end.
End evidence.
