(* ===== verification/EvidenceProofs.v ===== *)
(** * Lemmas on evidence storage

    What each call leaves alone, the shape of artifact paths, and the rule of a write. *)

From S2P Require Import Prelude PyBase PyText JobModels JobStore Sha256 Regex RegexProofs Evidence.

(** ** Identifiers and paths *)

(** A character of a UUID. *)
Definition uuid_char (c : ascii) : bool :=
  is_digit c || ((97 <=? code c) && (code c <=? 102)) || Ascii.eqb c (chr 45).

Definition canonical_uuid (s : string) : Prop := String.length s = 36%nat ∧ str_all uuid_char s = true.

Lemma hex2_shape n : 0 ≤ n < 256 → String.length (hex2 n) = 2%nat ∧ str_all uuid_char (hex2 n) = true.
Proof.
  intros Hn. assert ((String.length (hex2 n) =? 2)%nat && str_all uuid_char (hex2 n) = true) as H.
  { exact (by_cases (fun n => (String.length (hex2 n) =? 2)%nat && str_all uuid_char (hex2 n)) 0 256
      ltac:(vm_compute; reflexivity) n ltac:(lia)). }
  apply andb_true_iff in H as [H%Nat.eqb_eq ?]. done.
Qed.

Lemma hex_shape b : (∀ x, x ∈ b → 0 ≤ x < 256) →
  String.length (hex b) = (2 * length b)%nat ∧ str_all uuid_char (hex b) = true.
Proof.
  unfold hex. induction b as [|x b IH]; intros Hb; [done|]. cbn [List.map concat].
  destruct (hex2_shape x) as [H1 H2]; [apply Hb; constructor|].
  destruct IH as [H3 H4]; [intros y Hy; apply Hb; by constructor|].
  rewrite length_app_string, str_all_app, H1, H2, H3, H4. cbn. split; [lia|done].
Qed.

Lemma uuid_str_canonical n : canonical_uuid (uuid_str n).
Proof.
  unfold uuid_str. set (h := be_bytes 16 n).
  assert (length h = 16%nat) as Hl by apply length_be_bytes.
  assert (∀ x, x ∈ h → 0 ≤ x < 256) as Hr by (intros x; apply be_bytes_range). clearbody h.
  assert (∀ l : list Z, l ⊆ h → String.length (hex l) = (2 * length l)%nat ∧ str_all uuid_char (hex l) = true)
    as Hh by (intros l Hsub; apply hex_shape; intros x Hx; apply Hr, Hsub, Hx).
  assert (∀ i j, take i (drop j h) ⊆ h) as Hsub.
  { intros i j x (k & Hk & _)%elem_of_take. rewrite lookup_drop in Hk. by apply list_elem_of_lookup_2 in Hk. }
  destruct (Hh (take 4 h) (Hsub 4%nat 0%nat)) as [L1 C1]. destruct (Hh _ (Hsub 2%nat 4%nat)) as [L2 C2].
  destruct (Hh _ (Hsub 2%nat 6%nat)) as [L3 C3]. destruct (Hh _ (Hsub 2%nat 8%nat)) as [L4 C4].
  destruct (Hh (drop 10 h)) as [L5 C5].
  { intros x Hx. apply list_elem_of_lookup in Hx as [k Hk]. rewrite lookup_drop in Hk.
    by apply list_elem_of_lookup_2 in Hk. }
  unfold canonical_uuid. cbn [join].
  rewrite !length_app_string, !str_all_app, C1, C2, C3, C4, C5, L1, L2, L3, L4, L5,
    !length_take, !length_drop, Hl. done.
Qed.

Section proofs.
Context `{!Runtime, !RuntimeOk, !FileSystem}.
Implicit Types (w : EvWorld) (p path temp : string) (a : ArtifactModel).

Lemma validate_spec value w :
  (_validate_identifier value w = (Return tt, w) ∧ canonical_uuid value) ∨
  (∃ e, _validate_identifier value w = (Raise (StorageError e), w)).
Proof.
  unfold _validate_identifier. destruct (parse_uuid value) as [n|]; [|right; by eexists].
  destruct (String.eqb_spec (uuid_str n) value) as [<-|]; [|right; by eexists].
  left. split; [done|]. apply uuid_str_canonical.
Qed.

(** ** What a program leaves alone *)

(** Nothing but clock, ids, calls and the files in [P] changes. *)
Record evolves (P : string → Prop) w w' : Prop := {
  ev_audits : w'.(known_audits) = w.(known_audits);
  ev_jobs : w'.(known_jobs) = w.(known_jobs);
  ev_artifacts : w'.(artifacts) = w.(artifacts);
  ev_uuids : (w.(ev_uuids_drawn) <= w'.(ev_uuids_drawn))%nat;
  ev_files p : ¬ P p → w'.(files) !! p = w.(files) !! p
}.

Lemma evolves_refl P w : evolves P w w.
Proof. by split. Qed.
Lemma evolves_trans P w1 w2 w3 : evolves P w1 w2 → evolves P w2 w3 → evolves P w1 w3.
Proof. intros [] []. split; [congruence..|lia|]. intros p Hp. by rewrite ev_files1, ev_files0. Qed.
Lemma evolves_weaken (P Q : string → Prop) w w' : (∀ p, P p → Q p) → evolves P w w' → evolves Q w w'.
Proof. intros HPQ []. split; auto. Qed.

Definition keeps {A} (P : string → Prop) (m : EM A) : Prop := ∀ w, evolves P w (m w).2.

Lemma keeps_ret {A} P (x : A) : keeps P (mret x).
Proof. intros w. apply evolves_refl. Qed.
Lemma keeps_raise {A} P e : keeps P (@raise EvWorld EvExc A e).
Proof. intros w. apply evolves_refl. Qed.
Lemma keeps_reads {A} P (f : EvWorld → A) : keeps P (reads f).
Proof. intros w. apply evolves_refl. Qed.

Lemma keeps_bind {A B} P (m : EM A) (k : A → EM B) :
  keeps P m → (∀ x, keeps P (k x)) → keeps P (m ≫= k).
Proof.
  intros Hm Hk w. unfold mbind, prog_bind. specialize (Hm w). destruct (m w) as [[x|e] w']; [|done].
  eapply evolves_trans; [exact Hm|apply Hk].
Qed.

Lemma keeps_try {A} P (m : EM A) (h : EvExc → EM A) :
  keeps P m → (∀ e, keeps P (h e)) → keeps P (try_except m h).
Proof.
  intros Hm Hh w. unfold try_except. specialize (Hm w). destruct (m w) as [[x|e] w']; [done|].
  eapply evolves_trans; [exact Hm|apply Hh].
Qed.

Lemma keeps_weaken {A} (P Q : string → Prop) (m : EM A) : (∀ p, P p → Q p) → keeps P m → keeps Q m.
Proof. intros HPQ Hm w. by eapply evolves_weaken. Qed.

Lemma keeps_now P : keeps P ev_now.
Proof. intros w. by split. Qed.
Lemma keeps_uuid P : keeps P ev_uuid.
Proof. intros w. split; cbn; auto. Qed.

Lemma keeps_io P on_fault work :
  (∀ w, evolves P w (work w)) → (∀ n w, evolves P w (on_fault n w)) → keeps P (io_call on_fault work).
Proof.
  intros Hw Hf w. unfold io_call. destruct (io_fault _) as [[message n]|]; cbn.
  - eapply evolves_trans; [|apply Hf]. by split.
  - eapply evolves_trans; [|apply Hw]. by split.
Qed.

Lemma keeps_plain P work : (∀ w, evolves P w (work w)) → keeps P (io_plain work).
Proof. intros Hw. apply keeps_io; [done|]. intros. apply evolves_refl. Qed.
Lemma keeps_nothing P : keeps P io_nothing.
Proof. apply keeps_plain. intros w. apply evolves_refl. Qed.

Lemma evolves_files (P : string → Prop) w f :
  (∀ p, ¬ P p → f w.(files) !! p = w.(files) !! p) → evolves P w (w <| files ::= f |>).
Proof. intros Hf. by split. Qed.

Lemma keeps_validate P value : keeps P (_validate_identifier value).
Proof.
  intros w. destruct (validate_spec value w) as [[-> _]|[e ->]]; apply evolves_refl.
Qed.
End proofs.

Create HintDb keeps.
#[export] Hint Resolve keeps_ret keeps_raise keeps_reads keeps_bind keeps_try keeps_now keeps_uuid
  keeps_nothing keeps_validate : keeps.

(** One step of a program that leaves files alone. *)
Ltac keeps_step :=
  lazymatch goal with
  | |- keeps _ (_ ≫= _) => apply keeps_bind; [|intros ?]
  | |- keeps _ (try_except _ _) => apply keeps_try; [|intros ?]
  | |- keeps _ (match ?x with _ => _ end) => destruct x
  | |- keeps _ (let _ := _ in _) => cbv zeta
  | |- keeps _ _ => solve [auto with keeps]
  end.
Ltac keeps_prog := repeat keeps_step.

Section writes.
Context `{!Runtime, !RuntimeOk, !FileSystem}.
Implicit Types (w : EvWorld) (p path temp : string) (P : string → Prop).

Lemma keeps_create P path : P path → keeps P (create_file path).
Proof.
  intros HP. unfold create_file. keeps_prog. apply keeps_plain. intros w. apply evolves_files.
  intros p Hp. apply lookup_insert_ne. by intros ->.
Qed.
Lemma keeps_write P path b : P path → keeps P (write_file path b).
Proof.
  intros HP. assert (∀ b w, evolves P w (append_bytes path b w)) as Ha.
  { intros b' w. apply evolves_files. intros p Hp. apply lookup_alter_ne. by intros ->. }
  apply keeps_io; auto.
Qed.
Lemma keeps_replace P source target : P source → P target → keeps P (replace_file source target).
Proof.
  intros Hs Ht. unfold replace_file. keeps_prog. apply keeps_plain. intros w. apply evolves_files.
  intros p Hp. rewrite lookup_insert_ne by (by intros ->). apply lookup_delete_ne. by intros ->.
Qed.
Lemma keeps_unlink P path : P path → keeps P (unlink_file path).
Proof.
  intros HP. apply keeps_plain. intros w. apply evolves_files. intros p Hp.
  apply lookup_delete_ne. by intros ->.
Qed.
Lemma keeps_stat P path : keeps P (stat_mtime path).
Proof. unfold stat_mtime. keeps_prog. Qed.
Lemma keeps_read P path : keeps P (read_file path).
Proof. unfold read_file. keeps_prog. Qed.

Lemma keeps_for_each {A B} P (body : A → EM B) l : (∀ x, x ∈ l → keeps P (body x)) → keeps P (for_each body l).
Proof.
  induction l as [|x l IH]; intros Hl; cbn [for_each]; [apply keeps_ret|].
  apply keeps_bind; [apply Hl; constructor|]. intros y. apply keeps_bind; [|intros ys; apply keeps_ret].
  apply IH. intros z Hz. apply Hl. by constructor.
Qed.

Lemma keeps_path P audit job id ext : keeps P (_artifact_path audit job id ext).
Proof. unfold _artifact_path. keeps_prog. Qed.

Lemma keeps_undo {A} P code prefix paths e :
  (∀ p, p ∈ paths → P p) → keeps P (@undo_write _ A code prefix paths e).
Proof.
  intros HP. unfold undo_write. apply keeps_bind.
  - apply keeps_for_each. intros p Hp. by apply keeps_unlink, HP.
  - intros _. keeps_prog.
Qed.

Lemma keeps_copy P temp pieces done : P temp → keeps P (copy_chunks temp pieces done).
Proof.
  intros HP. revert done. induction pieces as [|b pieces IH]; intros done; cbn [copy_chunks]; keeps_prog.
  by apply keeps_write.
Qed.

Lemma keeps_fill_bytes P payload temp : P temp → keeps P (fill_bytes payload temp).
Proof. intros HP. unfold fill_bytes. keeps_prog; [by apply keeps_create|by apply keeps_write]. Qed.
Lemma keeps_fill_from P source temp : P temp → keeps P (fill_from source temp).
Proof. intros HP. unfold fill_from. keeps_prog; [by apply keeps_create|by apply keeps_copy]. Qed.

Lemma keeps_remove_older P cutoff eligible paths :
  (∀ p, p ∈ paths → eligible p = true → P p) → keeps P (remove_older cutoff eligible paths).
Proof.
  induction paths as [|p paths IH]; intros HP; cbn [remove_older]; [apply keeps_ret|].
  apply keeps_bind; [apply keeps_stat|]. intros t.
  assert (keeps P (remove_older cutoff eligible paths)) as Hrest.
  { apply IH. intros q Hq. apply HP. by constructor. }
  destruct (eligible p && (t <? cutoff)) eqn:He; [|done]. apply andb_true_iff in He as [He _].
  apply keeps_bind; [apply keeps_unlink, HP; [constructor|done]|]. intros _.
  apply keeps_bind; [done|]. intros n. apply keeps_ret.
Qed.
End writes.

(** ** The invariant of evidence storage, and the rule of storing an artifact

    Every row names a file that is there, of its size and digest, whatever fails. *)

(** Ids are text over the characters of UUIDs. *)
Class PlainIds `{Runtime} : Prop := uuid4_chars : ∀ n, str_all uuid_char (uuid4 n) = true.

Definition extension_ok (ext : string) : Prop :=
  startswith ext "." = true ∧ without slash ext = true ∧ contains ".tmp-" ext = false.

(** *** Names *)

Lemma uuid_char_plain s : str_all uuid_char s = true → without slash s = true.
Proof.
  apply str_all_mono. intros c. unfold uuid_char. destruct (Ascii.eqb_spec c slash) as [->|]; done.
Qed.

Lemma remove_prefix_app p s : remove_prefix p (p +:+ s) = Some s.
Proof.
  induction p as [|c p IH]; [done|]. rewrite app_cons_string. cbn. by rewrite Ascii.eqb_refl.
Qed.

Lemma remove_prefix_Some p s t : remove_prefix p s = Some t → s = p +:+ t.
Proof.
  revert s. induction p as [|c p IH]; intros s; cbn; [by intros [= ->]|].
  destruct s as [|d s]; [done|]. destruct (Ascii.eqb_spec c d) as [->|]; [|done].
  intros H. rewrite app_cons_string. by rewrite <- (IH s H).
Qed.

Lemma startswith_spec s p : startswith s p = true ↔ ∃ t, s = p +:+ t.
Proof.
  unfold startswith. destruct (remove_prefix p s) as [t|] eqn:Hp.
  - split; [|done]. intros _. exists t. by apply remove_prefix_Some.
  - split; [done|]. intros [t ->]. by rewrite remove_prefix_app in Hp.
Qed.

Lemma app_inv_head_string (u v s t : string) :
  u +:+ s = v +:+ t → String.length u = String.length v → u = v ∧ s = t.
Proof.
  revert v. induction u as [|c u IH]; intros [|d v] H Hl; try done.
  rewrite !app_cons_string in H. injection H as -> H. destruct (IH v H) as [-> ->]; [by injection Hl|done].
Qed.

(** Two canonical ids at the head of one name are the same. *)
Lemma canonical_head id id' s :
  canonical_uuid id → canonical_uuid id' → startswith (id +:+ s) id' = true → id = id'.
Proof.
  intros [Hl _] [Hl' _] [t Ht]%startswith_spec. by apply app_inv_head_string in Ht as [-> _]; [|congruence].
Qed.

Lemma file_name_path audit job name :
  canonical_uuid audit → (∀ j, job = Some j → canonical_uuid j) → without slash name = true →
  file_name (join "/" [audit; default "audit" job; name]) = name.
Proof.
  intros [_ Ha] Hj Hn. unfold file_name.
  change "/" with (String slash EmptyString). rewrite split_on_join; [done|by apply uuid_char_plain|].
  cbn [forallb]. rewrite Hn. destruct job as [j|]; [|done]. cbn [default].
  unfold default, id. by rewrite (uuid_char_plain j (proj2 (Hj j eq_refl))).
Qed.

Lemma contains_tmp_canonical id ext :
  canonical_uuid id → contains ".tmp-" ext = false → contains ".tmp-" (id +:+ ext) = false.
Proof.
  intros [_ Hc] He. clear -Hc He. induction id as [|c id IH]; [done|].
  cbn in Hc. apply andb_true_iff in Hc as [Hc Hid]. rewrite app_cons_string. cbn [contains].
  rewrite IH by done. rewrite orb_false_r. unfold startswith. cbn [remove_prefix].
  destruct (Ascii.eqb_spec "." c) as [<-|]; done.
Qed.

Section invariant.
Context `{!Runtime, !RuntimeOk, !FileSystem, !PlainIds}.
Implicit Types (w : EvWorld) (p path temp id : string) (a : ArtifactModel).

Record evidence_ok w : Prop := {
  rows_keyed id a : w.(artifacts) !! id = Some a → a.(artifact_id) = id;
  rows_drawn id : is_Some (w.(artifacts) !! id) → ∃ n, (n < w.(ev_uuids_drawn))%nat ∧ id = uuid4 n;
  rows_named id a : w.(artifacts) !! id = Some a →
    ∃ job ext, a.(artifact_relative_path) = path_of a.(artifact_audit_id) job id ext ∧
      canonical_uuid a.(artifact_audit_id) ∧ (∀ j, job = Some j → canonical_uuid j) ∧
      canonical_uuid id ∧ extension_ok ext;
  rows_stored id a : w.(artifacts) !! id = Some a →
    ∃ f, w.(files) !! a.(artifact_relative_path) = Some f ∧
      a.(artifact_size) = Z.of_nat (length f.(content)) ∧ a.(artifact_sha256) = hexdigest f.(content);
  files_fresh p n : is_Some (w.(files) !! p) → (w.(ev_uuids_drawn) <= n)%nat → canonical_uuid (uuid4 n) →
    startswith (file_name p) (uuid4 n) = false
}.

(** The name of a registered file. *)
Lemma row_name w id a : evidence_ok w → w.(artifacts) !! id = Some a →
  ∃ ext, file_name a.(artifact_relative_path) = id +:+ ext ∧ canonical_uuid id ∧ extension_ok ext.
Proof.
  intros Hok Ha. destruct (rows_named _ Hok _ _ Ha) as (job & ext & -> & Haud & Hj & Hid & Hext).
  exists ext. split; [|done]. unfold path_of. apply file_name_path; [done|done|].
  destruct Hext as (_ & Hs & _). rewrite without_app, Hs, andb_true_r. by apply uuid_char_plain, (proj2 Hid).
Qed.

Lemma row_not_temporary w id a : evidence_ok w → w.(artifacts) !! id = Some a →
  temporary_name a.(artifact_relative_path) = false.
Proof.
  intros Hok Ha. destruct (row_name _ _ _ Hok Ha) as (ext & Hn & Hid & (_ & _ & Ht)).
  unfold temporary_name. rewrite Hn. by apply contains_tmp_canonical.
Qed.

(** Files that no row names may change, as long as new ones carry drawn ids. *)
Lemma ok_evolves P w w' :
  evidence_ok w → evolves P w w' →
  (∀ id a, w.(artifacts) !! id = Some a → ¬ P a.(artifact_relative_path)) →
  (∀ p n, P p → is_Some (w'.(files) !! p) → (w'.(ev_uuids_drawn) <= n)%nat → canonical_uuid (uuid4 n) →
     startswith (file_name p) (uuid4 n) = false) →
  (∀ p, P p ∨ ¬ P p) → evidence_ok w'.
Proof.
  intros Hok [_ _ Ha Hu Hf] Hrows Hnew Hdec. split.
  - intros id a. rewrite Ha. apply (rows_keyed _ Hok).
  - intros id. rewrite Ha. intros (n & Hn & ->)%(rows_drawn _ Hok). exists n. split; [lia|done].
  - intros id a. rewrite Ha. apply (rows_named _ Hok).
  - intros id a. rewrite Ha. intros Hid. rewrite Hf by (by eapply Hrows). by apply (rows_stored _ Hok id).
  - intros p n Hp Hn Hc. destruct (Hdec p) as [HP|HP]; [by apply Hnew|].
    rewrite Hf in Hp by done. apply (files_fresh _ Hok); [done|lia|done].
Qed.

Lemma ok_quiet w w' : evidence_ok w → evolves (fun _ => False) w w' → evidence_ok w'.
Proof. intros Hok He. eapply ok_evolves; [done|exact He|by intros ?? _ []|by intros ?? []|intros ?; right; by intros []]. Qed.

(** Files may disappear when no row names them. *)
Lemma ok_deleted P w w' :
  evidence_ok w → evolves P w w' → (∀ id a, w.(artifacts) !! id = Some a → ¬ P a.(artifact_relative_path)) →
  (∀ p, is_Some (w'.(files) !! p) → is_Some (w.(files) !! p)) → (∀ p, P p ∨ ¬ P p) → evidence_ok w'.
Proof.
  intros Hok He Hrows Hsub Hdec. eapply ok_evolves; [done|exact He|done| |done].
  intros p n _ Hp Hn. apply (files_fresh _ Hok); [by apply Hsub|]. destruct He. lia.
Qed.

(** *** Storing *)

(** [fill] stores [payload] when it returns, and touches the temporary file only. *)
Record fills (fill : string → EM (Z * string)) (payload : bytes) : Prop := {
  fill_keeps P temp : P temp → keeps P (fill temp);
  fill_result temp w : match fill temp w with
    | (Return (n, d), w') => (∃ t, w'.(files) !! temp = Some (mkFile payload t)) ∧
        n = Z.of_nat (length payload) ∧ d = hexdigest payload
    | (Raise _, _) => True
    end
}.

Lemma artifact_path_spec audit job id ext w :
  match _artifact_path audit job id ext w with
  | (Return p, w') => evolves (fun _ => False) w w' ∧ p = path_of audit job id ext ∧ canonical_uuid audit ∧
      (∀ j, job = Some j → canonical_uuid j) ∧ canonical_uuid id ∧ startswith ext "." = true ∧
      without slash ext = true
  | (Raise _, w') => evolves (fun _ => False) w w'
  end.
Proof.
  pose proof (keeps_path (fun _ => False) audit job id ext w) as Hk.
  destruct (_artifact_path audit job id ext w) as [[p|e] w'] eqn:Hp; [|done]. split; [done|].
  unfold _artifact_path in Hp. apply bind_return_inv in Hp as ([] & w1 & Hs1 & Hp).
  destruct (validate_spec audit w) as [[Hs1' Ha]|[? Hs1']]; rewrite Hs1' in Hs1; [|done].
  apply bind_return_inv in Hp as ([] & w2 & Hs2 & Hp).
  assert (∀ j, job = Some j → canonical_uuid j) as Hj.
  { intros j ->. by destruct (validate_spec j w1) as [[_ ?]|[? Hs2']]; [|rewrite Hs2' in Hs2]. }
  apply bind_return_inv in Hp as ([] & w3 & Hs3 & Hp).
  destruct (validate_spec id w2) as [[_ Hid]|[? Hs3']]; [|by rewrite Hs3' in Hs3].
  rewrite has_char_without in Hp.
  destruct (startswith ext "."); [|done]. destruct (without slash ext); [|done]. cbn in Hp.
  apply bind_return_inv in Hp as ([] & w4 & _ & Hp). by injection Hp as <- _.
Qed.

(** A clean-up that returns an error of the store has removed both files. *)
Lemma undo_spec {A} code prefix temp path e w :
  match @undo_write _ A code prefix [temp; path] e w with
  | (Return _, _) => False
  | (Raise (StorageError _), w') => w'.(files) = delete path (delete temp w.(files))
  | (Raise (EvOSError _), _) => True
  | (Raise _, _) => False
  end.
Proof.
  unfold undo_write, unlink_file, io_plain, io_call. cbn [for_each].
  unfold mbind, prog_bind. cbn. destruct (io_fault _) as [[m n]|]; [done|]. cbn.
  destruct (io_fault _) as [[m n]|]; [done|]. cbn. by destruct e.
Qed.

Definition add_artifact_allowed w a : Prop :=
  w.(artifacts) !! a.(artifact_id) = None ∧ a.(artifact_audit_id) ∈ w.(known_audits).

Lemma add_artifact_spec a w :
  match add_artifact a w with
  | (Return _, w') => add_artifact_allowed w a ∧ w'.(artifacts) = <[a.(artifact_id) := a]> w.(artifacts) ∧
      w'.(files) = w.(files) ∧ w'.(ev_uuids_drawn) = w.(ev_uuids_drawn) ∧
      w'.(known_audits) = w.(known_audits) ∧ w'.(known_jobs) = w.(known_jobs)
  | (Raise _, w') => evolves (fun _ => False) w w'
  end.
Proof.
  pose proof (keeps_nothing (fun _ => False) w) as Hk. revert Hk.
  unfold add_artifact, mbind, prog_bind, reads, io_nothing, io_plain, io_call.
  destruct (io_fault _) as [[m n]|]; [done|]. intros Hk. cbn.
  case_bool_decide as Hid; [done|]. cbn.
  case_bool_decide as Hau; [|done]. cbn. destruct (negb _); [done|]. cbn.
  destruct (existsb _ _); [done|]. cbn. split_and!; try done.
  split; [by apply eq_None_not_Some|done].
Qed.

Lemma replace_spec source target f w :
  w.(files) !! source = Some f → source ≠ target →
  match replace_file source target w with
  | (Return _, w') => w'.(files) !! target = Some f ∧ w'.(files) !! source = None
  | (Raise _, _) => True
  end.
Proof.
  intros Hf Hne. unfold replace_file, mbind, prog_bind, reads. rewrite Hf.
  unfold io_plain, io_call. destruct (io_fault _) as [[m n]|]; [done|]. cbn.
  by rewrite lookup_insert_eq, lookup_insert_ne, lookup_delete_eq.
Qed.

Lemma temporary_path_ne path unique : path ≠ temporary_path path unique.
Proof.
  unfold temporary_path. intros Hp. apply (f_equal String.length) in Hp.
  rewrite !length_app_string in Hp. cbn in Hp. lia.
Qed.

(** What the body of a write does once the path is known. *)
Definition stored_at w w' (m : ArtifactMeta) (id path : string) (payload : bytes) a : Prop :=
  a.(artifact_id) = id ∧ a.(artifact_relative_path) = path ∧ a.(artifact_audit_id) = m.(meta_audit_id) ∧
  a.(artifact_job_id) = m.(meta_job_id) ∧ a.(artifact_type) = m.(meta_type) ∧
  a.(artifact_content_type) = m.(meta_content_type) ∧ a.(artifact_retention_class) = m.(meta_retention) ∧
  a.(artifact_size) = Z.of_nat (length payload) ∧ a.(artifact_sha256) = hexdigest payload ∧
  w.(artifacts) !! id = None ∧ w'.(artifacts) = <[id := a]> w.(artifacts) ∧
  ∃ t, w'.(files) !! path = Some (mkFile payload t).

(** Everything but the rows and the files of [P] is as it was. *)
Record frames (P : string → Prop) w w' : Prop := {
  fr_audits : w'.(known_audits) = w.(known_audits);
  fr_jobs : w'.(known_jobs) = w.(known_jobs);
  fr_uuids : (w.(ev_uuids_drawn) <= w'.(ev_uuids_drawn))%nat;
  fr_files p : ¬ P p → w'.(files) !! p = w.(files) !! p
}.

Lemma evolves_frames P w w' : evolves P w w' → frames P w w'.
Proof. by intros []. Qed.
Lemma frames_trans P w1 w2 w3 : evolves P w1 w2 → frames P w2 w3 → frames P w1 w3.
Proof.
  intros [A1 A2 A3 A4 A5] [B1 B2 B3 B4]. split; [congruence|congruence|lia|].
  intros p Hp. by rewrite B4, A5.
Qed.

Lemma write_body_spec m fill payload id path unique w :
  fills fill payload → let temp := temporary_path path unique in
  match write_artifact m fill id path temp w with
  | (Return a, w') => stored_at w w' m id path payload a ∧ w'.(files) !! temp = None ∧
      frames (fun p => p = temp ∨ p = path) w w'
  | (Raise _, w') => evolves (fun p => p = temp ∨ p = path) w w'
  end.
Proof.
  intros [Hkeep Hres] temp. unfold write_artifact. set (P := fun p => p = temp ∨ p = path).
  assert (keeps P (fill temp)) as Hkf by (apply Hkeep; by left). specialize (Hres temp w). specialize (Hkf w).
  unfold mbind at 1, prog_bind at 1. destruct (fill temp w) as [[[n d]|e] w1]; [|done].
  destruct Hres as ([t Hf] & -> & ->). cbn in Hkf.
  pose proof (replace_spec temp path _ w1 Hf (not_eq_sym (temporary_path_ne path unique))) as Hr.
  assert (keeps P (replace_file temp path)) as Hkr by (apply keeps_replace; [by left|by right]).
  specialize (Hkr w1). unfold mbind at 1, prog_bind at 1.
  destruct (replace_file temp path w1) as [[[]|e] w2]; cbn in Hkr; [|by eapply evolves_trans].
  destruct Hr as [Hf2 Ha2]. assert (evolves P w w2) as He2 by (by eapply evolves_trans).
  assert (∀ w, evolves (fun _ => False) w (io_nothing w).2) as Hkn by (intros; apply keeps_nothing).
  do 3 (unfold mbind at 1, prog_bind at 1;
    match goal with |- context [io_nothing ?x] =>
      pose proof (Hkn x) as Hk; destruct (io_nothing x) as [[[]|e] ?w]; cbn in Hk;
      [|by eapply evolves_trans; [eassumption|eapply evolves_weaken; [|exact Hk]]];
      match type of Hk with evolves _ ?a ?b =>
        assert (evolves P w b) by (eapply evolves_trans; [eassumption|by eapply evolves_weaken; [|exact Hk]]);
        assert (b.(files) !! path = a.(files) !! path) as ?Hsame by (apply (ev_files _ _ _ Hk); tauto);
        assert (b.(files) !! temp = a.(files) !! temp) as ?Hsame by (apply (ev_files _ _ _ Hk); tauto)
      end; clear Hk
    end).
  unfold _register, ev_now, mbind, prog_bind. cbn [fst snd].
  set (a := mkArtifact _ _ _ _ _ _ _ _ _ _ _ _).
  match goal with |- context [add_artifact a ?x] =>
    pose proof (add_artifact_spec a x) as Hadd; destruct (add_artifact a x) as [[[]|e] w6]; cbn in Hadd end.
  - destruct Hadd as ([Hnew Hau] & Hins & Hfs & Hu & Hka & Hkj). cbn in *.
    match goal with H : evolves P w ?x |- _ => assert (evolves P w x) as Hl by done; clear H end.
    destruct Hl as [E1 E2 E3 E4 E5]. split; [|split].
    + unfold stored_at. rewrite Hins, Hfs, E3. rewrite E3 in Hnew. cbn. split_and!; try done.
      exists t. congruence.
    + rewrite Hfs. congruence.
    + split; [congruence..|lia|]. intros p Hp. rewrite Hfs. by apply E5.
  - eapply evolves_trans; [eassumption|]. eapply evolves_trans; [|by eapply evolves_weaken; [|exact Hadd]].
    by split.
Qed.

(** *** The whole write *)

Lemma temporary_path_of audit job id ext unique :
  temporary_path (path_of audit job id ext) unique = path_of audit job id (ext +:+ ".tmp-" +:+ unique).
Proof. unfold temporary_path, path_of. cbn [join]. by rewrite !app_assoc_string. Qed.

Lemma path_name audit job id ext :
  canonical_uuid audit → (∀ j, job = Some j → canonical_uuid j) → canonical_uuid id → without slash ext = true →
  file_name (path_of audit job id ext) = id +:+ ext.
Proof.
  intros Ha Hj Hid He. apply file_name_path; [done|done|]. rewrite without_app, He, andb_true_r.
  by apply uuid_char_plain, (proj2 Hid).
Qed.

(** A file named after the next id: no row has it, and it is not there yet. *)
Definition next_name w p : Prop :=
  canonical_uuid (uuid4 w.(ev_uuids_drawn)) ∧ ∃ s, file_name p = uuid4 w.(ev_uuids_drawn) +:+ s.

Lemma next_name_fresh w p : evidence_ok w → next_name w p → w.(files) !! p = None.
Proof.
  intros Hok [Hc [s Hs]]. destruct (w.(files) !! p) as [f|] eqn:Hp; [|done].
  pose proof (files_fresh _ Hok p w.(ev_uuids_drawn) ltac:(by eexists) ltac:(lia) Hc) as Hno.
  rewrite Hs in Hno. assert (startswith (uuid4 w.(ev_uuids_drawn) +:+ s) (uuid4 w.(ev_uuids_drawn)) = true) as Hy.
  { apply startswith_spec. by eexists. }
  congruence.
Qed.

Lemma next_name_row w p id a : evidence_ok w → next_name w p → w.(artifacts) !! id = Some a →
  a.(artifact_relative_path) ≠ p.
Proof.
  intros Hok Hn Ha <-. destruct (rows_stored _ Hok _ _ Ha) as (f & Hf & _).
  by rewrite (next_name_fresh _ _ Hok Hn) in Hf.
Qed.

Lemma next_name_later w p k :
  next_name w p → (w.(ev_uuids_drawn) < k)%nat → canonical_uuid (uuid4 k) → startswith (file_name p) (uuid4 k) = false.
Proof.
  intros [Hc [s Hs]] Hk Hck. destruct (startswith _ _) eqn:Hst; [|done]. rewrite Hs in Hst.
  apply canonical_head in Hst; [|done|done]. apply (inj uuid4) in Hst. lia.
Qed.

Lemma later_ok w w' p :
  evidence_ok w → next_name w p → (w.(ev_uuids_drawn) < w'.(ev_uuids_drawn))%nat →
  ∀ n, (w'.(ev_uuids_drawn) <= n)%nat → canonical_uuid (uuid4 n) → startswith (file_name p) (uuid4 n) = false.
Proof. intros Hok Hp Hlt n Hn Hc. apply (next_name_later w); [done|lia|done]. Qed.

(** What a write does on every branch: the row and its file, or nothing at all; when even
    the clean-up fails, leftovers under names no row has. *)
Definition put_result w (m : ArtifactMeta) (payload : bytes) (r : outcome EvExc ArtifactModel * EvWorld) : Prop :=
  let '(o, w') := r in
  evidence_ok w' ∧ w'.(known_audits) = w.(known_audits) ∧ w'.(known_jobs) = w.(known_jobs) ∧
  match o with
  | Return a =>
      let path := path_of m.(meta_audit_id) m.(meta_job_id) (uuid4 w.(ev_uuids_drawn)) m.(meta_extension) in
      stored_at w w' m (uuid4 w.(ev_uuids_drawn)) path payload a ∧
      m.(meta_audit_id) ∈ w.(known_audits) ∧ w.(files) !! path = None ∧ ∀ p, p ≠ path → w'.(files) !! p = w.(files) !! p
  | Raise (StorageError _) => w'.(artifacts) = w.(artifacts) ∧ ∀ p, w'.(files) !! p = w.(files) !! p
  | Raise (EvOSError _) => w'.(artifacts) = w.(artifacts) ∧
      ∀ p, w'.(files) !! p = w.(files) !! p ∨ next_name w p
  | Raise _ => False
  end.

Lemma write_returns_known fill m id path unique w a w' :
  (∀ temp P, P temp → keeps P (fill temp)) →
  write_artifact m fill id path (temporary_path path unique) w = (Return a, w') → m.(meta_audit_id) ∈ w.(known_audits).
Proof.
  intros Hfill Hb. unfold write_artifact in Hb. set (P := fun p => p = temporary_path path unique ∨ p = path).
  apply bind_return_inv in Hb as (wr & w1 & Hf & Hb). pose proof (Hfill (temporary_path path unique) P (or_introl eq_refl) w) as K1.
  rewrite Hf in K1. apply bind_return_inv in Hb as ([] & w2 & Hr & Hb).
  pose proof (keeps_replace P (temporary_path path unique) path (or_introl eq_refl) (or_intror eq_refl) w1) as K2. rewrite Hr in K2.
  apply bind_return_inv in Hb as ([] & w3 & H3 & Hb). pose proof (keeps_nothing P w2) as K3. rewrite H3 in K3.
  apply bind_return_inv in Hb as ([] & w4 & H4 & Hb). pose proof (keeps_nothing P w3) as K4. rewrite H4 in K4.
  apply bind_return_inv in Hb as ([] & w5 & H5 & Hb). pose proof (keeps_nothing P w4) as K5. rewrite H5 in K5.
  unfold _register in Hb. apply bind_return_inv in Hb as (now & w6 & H6 & Hb). pose proof (keeps_now P w5) as K6. rewrite H6 in K6.
  apply bind_return_inv in Hb as ([] & w7 & Hadd & _).
  pose proof (add_artifact_spec (mkArtifact id m.(meta_audit_id) m.(meta_job_id) m.(meta_type) path
             m.(meta_content_type) wr.1 wr.2 now m.(meta_retention) m.(meta_schema_name) m.(meta_schema_version)) w6) as HA.
  rewrite Hadd in HA. destruct HA as [[_ Hin] _]. cbn in *.
  destruct K1, K2, K3, K4, K5, K6. congruence.
Qed.

(** The world after a write that went through. *)
Lemma stored_ok w w2 w3 m id path temp payload a :
  evidence_ok w → id = uuid4 w.(ev_uuids_drawn) →
  path = path_of m.(meta_audit_id) m.(meta_job_id) id m.(meta_extension) →
  canonical_uuid m.(meta_audit_id) → (∀ j, m.(meta_job_id) = Some j → canonical_uuid j) → canonical_uuid id →
  extension_ok m.(meta_extension) → evolves (fun _ => False) w w2 →
  (w.(ev_uuids_drawn) < w2.(ev_uuids_drawn))%nat → (∀ p, p = temp ∨ p = path → next_name w p) →
  stored_at w2 w3 m id path payload a → w3.(files) !! temp = None → frames (fun p => p = temp ∨ p = path) w2 w3 →
  m.(meta_audit_id) ∈ w2.(known_audits) → put_result w m payload (Return a, w3).
Proof.
  intros Hok Hid Hpath Haud Hjob Hcan Hext [G1 G2 G3 G4 G5] Hlt HP Hst Htemp [F1 F2 F3 F4] Hin.
  assert (∀ p, p ≠ temp → p ≠ path → w3.(files) !! p = w.(files) !! p) as Hsame.
  { intros p Hp1 Hp2. rewrite F4 by tauto. apply G5. tauto. }
  destruct Hst as (S1 & S2 & S3 & S4 & S5 & S6 & S7 & S8 & S9 & S10 & S11 & t & S12).
  rewrite G3 in S10, S11. unfold put_result. rewrite <- Hid, <- Hpath. split; [split|split_and!].
  - intros id' b. rewrite S11. intros [[<- <-]|[_ Hb]]%lookup_insert_Some; [done|by apply (rows_keyed _ Hok)].
  - intros id' [b Hb]. rewrite S11 in Hb. apply lookup_insert_Some in Hb as [[<- _]|[_ Hb]].
    + exists w.(ev_uuids_drawn). split; [lia|done].
    + destruct (rows_drawn _ Hok id') as (n & Hn & ->); [by eexists|]. exists n. split; [lia|done].
  - intros id' b. rewrite S11. intros [[<- <-]|[_ Hb]]%lookup_insert_Some; [|by apply (rows_named _ Hok)].
    exists m.(meta_job_id), m.(meta_extension). rewrite S2, S3. done.
  - intros id' b. rewrite S11. intros [[<- <-]|[_ Hb]]%lookup_insert_Some.
    + rewrite S2, S12. eexists; split_and!; done.
    + destruct (rows_stored _ Hok _ _ Hb) as (f & Hf & Hfs). exists f. split; [|done]. rewrite Hsame; [done| |].
      all: intros Hp; refine (next_name_row w _ id' b Hok (HP _ _) Hb Hp); tauto.
  - intros p n Hp Hn Hc. destruct (decide (p = path)) as [->|Hne].
    { apply (next_name_later w); [by apply HP; right|lia|done]. }
    destruct (decide (p = temp)) as [->|Hne']; [by rewrite Htemp in Hp; destruct Hp|].
    rewrite Hsame in Hp by done. apply (files_fresh _ Hok); [done|lia|done].
  - congruence.
  - congruence.
  - unfold stored_at. rewrite S10, S11. split_and!; try done. by exists t.
  - by rewrite <- G1.
  - apply next_name_fresh; [done|]. apply HP. by right.
  - intros p Hp. destruct (decide (p = temp)) as [->|]; [|by apply Hsame].
    rewrite Htemp. symmetry. apply (next_name_fresh w); [done|]. apply HP. by left.
Qed.

Lemma put_file_spec m code prefix fill payload w :
  evidence_ok w → fills fill payload → contains ".tmp-" m.(meta_extension) = false →
  put_result w m payload (put_file m code prefix fill w).
Proof.
  intros Hok Hfill Hext. unfold put_file. unfold mbind at 1, prog_bind at 1. cbn [ev_uuid].
  set (id := uuid4 w.(ev_uuids_drawn)). set (w0 := w <| ev_uuids_drawn ::= S |>).
  assert (evolves (fun _ => False) w w0) as E0 by (split; cbn; auto).
  unfold mbind at 1, prog_bind at 1, try_except at 1.
  pose proof (artifact_path_spec m.(meta_audit_id) m.(meta_job_id) id m.(meta_extension) w0) as Hp.
  destruct (_artifact_path _ _ _ _ w0) as [[path|e] w1].
  2: { pose proof (keeps_undo (A := string) (fun _ => False) code prefix [] e ltac:(by intros ? ?%elem_of_nil) w1) as E2.
    assert (evolves (fun _ => False) w (undo_write (A := string) code prefix [] e w1).2) as E3.
    { eapply evolves_trans; [exact E0|]. by eapply evolves_trans. }
    unfold undo_write, mbind, prog_bind in *. cbn [for_each] in *. cbn in *.
    pose proof (ok_quiet _ _ Hok E3) as Hok'. destruct E3 as [F1 F2 F3 _ F5]. cbn.
    destruct e as [err|msg|msg|msg]; cbn in *; split_and!; auto. }
  destruct Hp as (E1 & -> & Haud & Hjob & Hid & Hdot & Hslash).
  set (path := path_of _ _ id _). assert (evolves (fun _ => False) w w1) as E2 by (by eapply evolves_trans).
  unfold mbind at 1, prog_bind at 1. cbn [ev_uuid]. set (unique := uuid4 w1.(ev_uuids_drawn)).
  set (w2 := w1 <| ev_uuids_drawn ::= S |>). set (temp := temporary_path path unique).
  assert (evolves (fun _ => False) w w2) as E3 by (eapply evolves_trans; [exact E2|split; cbn; auto]).
  assert ((w.(ev_uuids_drawn) < w2.(ev_uuids_drawn))%nat) as Hlt by (destruct E1; cbn in *; lia).
  assert (next_name w path) as Hnp.
  { split; [done|]. exists m.(meta_extension). by apply path_name. }
  assert (next_name w temp) as Hnt.
  { split; [done|]. exists (m.(meta_extension) +:+ ".tmp-" +:+ unique). unfold temp, path. rewrite temporary_path_of.
    apply path_name; [done|done|done|]. rewrite !without_app, Hslash. cbn. apply uuid_char_plain, uuid4_chars. }
  set (P := fun p => p = temp ∨ p = path).
  assert (∀ p, P p → next_name w p) as HP by (intros p; unfold P; by intros [->| ->]).
  assert (∀ p, P p ∨ ¬ P p) as Hdec.
  { intros p. unfold P. destruct (decide (p = temp)); [tauto|]. destruct (decide (p = path)); tauto. }
  assert (∀ w3, frames P w2 w3 → w3.(artifacts) = w.(artifacts) →
    evidence_ok w3 ∧ w3.(known_audits) = w.(known_audits) ∧ w3.(known_jobs) = w.(known_jobs)) as Hframe.
  { intros w3 [F1 F2 F3 F4] Ha. destruct E3 as [G1 G2 G3 G4 G5].
    split; [|split; congruence]. eapply (ok_evolves P w); [done| | | |done].
    - split; [congruence..|lia|]. intros p Hnot. rewrite F4 by done. apply G5. tauto.
    - intros id' a Ha' HPa. by apply (next_name_row _ _ _ _ Hok (HP _ HPa) Ha').
    - intros p n HPp _. apply (later_ok w); [done|by apply HP|lia]. }
  pose proof (write_body_spec m fill payload id path unique w2 Hfill) as Hb.
  pose proof (write_returns_known fill m id path unique w2) as Hknown. fold temp in Hb, Hknown. cbn zeta in Hb.
  unfold try_except. destruct (write_artifact m fill id path temp w2) as [[a|e] w3].
  - destruct Hb as (Hst & Htemp & HF). apply (stored_ok w w2 w3 m id path temp payload a); try done.
    apply (Hknown a w3); [intros t Q; apply (fill_keeps _ _ Hfill)|done].
  - pose proof (undo_spec (A := ArtifactModel) code prefix temp path e w3) as Hu.
    pose proof (keeps_undo (A := ArtifactModel) P code prefix [temp; path] e
      ltac:(intros p [->|[->|[]%elem_of_nil]%elem_of_cons]%elem_of_cons; unfold P; tauto) w3) as Hk.
    assert (evolves P w2 (undo_write (A := ArtifactModel) code prefix [temp; path] e w3).2) as He by (by eapply evolves_trans).
    destruct (undo_write (A := ArtifactModel) code prefix [temp; path] e w3) as [[a|e'] w4]; [done|]. cbn in He.
    assert (w4.(artifacts) = w.(artifacts)) as Ha by (destruct He, E3; congruence).
    destruct (Hframe w4 (evolves_frames _ _ _ He) Ha) as (Hok4 & Hka & Hkj). unfold put_result.
    destruct e' as [err|msg|msg|msg]; [| |done|done]; split_and!; try done.
    + intros p. destruct (Hdec p) as [HPp|HPp].
      * rewrite (next_name_fresh _ _ Hok (HP _ HPp)), Hu. unfold P in HPp.
        destruct (decide (p = path)) as [->|]; [by rewrite lookup_delete_eq|].
        rewrite lookup_delete_ne by done. destruct HPp as [->|]; [by rewrite lookup_delete_eq|done].
      * rewrite (ev_files _ _ _ He) by done. apply (ev_files _ _ _ E3). tauto.
    + intros p. destruct (Hdec p) as [HPp|HPp]; [right; by apply HP|left].
      rewrite (ev_files _ _ _ He) by done. apply (ev_files _ _ _ E3). tauto.
Qed.

(** *** The two ways to fill a file *)

Lemma io_nothing_inv w w' : io_nothing w = (Return tt, w') → w'.(files) = w.(files).
Proof. unfold io_nothing, io_plain, io_call. destruct (io_fault _) as [[m n]|]; [done|]. by intros [= <-]. Qed.

Lemma create_file_inv path w w' : create_file path w = (Return tt, w') → ∃ t, w'.(files) !! path = Some (mkFile [] t).
Proof.
  unfold create_file, mbind, prog_bind, ev_now, reads. cbn. destruct (w.(files) !! path); [done|].
  unfold io_plain, io_call. destruct (io_fault _) as [[m n]|]; [done|]. intros [= <-]. cbn.
  rewrite lookup_insert_eq. by eexists.
Qed.

Lemma write_file_inv path b w w' c t : w.(files) !! path = Some (mkFile c t) →
  write_file path b w = (Return tt, w') → w'.(files) !! path = Some (mkFile (c ++ b) t).
Proof.
  intros Hf. unfold write_file, io_call. destruct (io_fault _) as [[m n]|]; [done|]. intros [= <-]. cbn.
  by rewrite lookup_alter_eq, Hf.
Qed.

Lemma fill_bytes_fills payload : fills (fill_bytes payload) payload.
Proof.
  split; [intros; by apply keeps_fill_bytes|]. intros temp w.
  destruct (fill_bytes payload temp w) as [[[n d]|e] w'] eqn:Hr; [|done]. unfold fill_bytes in Hr.
  apply bind_return_inv in Hr as ([] & w1 & [t H1']%create_file_inv & Hr).
  apply bind_return_inv in Hr as ([] & w2 & H2'%io_nothing_inv & Hr). rewrite <- H2' in H1'.
  apply bind_return_inv in Hr as ([] & w3 & H3'%(write_file_inv _ _ _ _ _ _ H1') & Hr).
  apply bind_return_inv in Hr as ([] & w4 & H4'%io_nothing_inv & Hr).
  apply bind_return_inv in Hr as ([] & w5 & H5'%io_nothing_inv & Hr).
  apply bind_return_inv in Hr as ([] & w6 & H6'%io_nothing_inv & Hr). injection Hr as <- <- <-.
  split; [|done]. exists t. by rewrite H6', H5', H4'.
Qed.

Lemma copy_chunks_inv temp pieces done w w' copied t :
  w.(files) !! temp = Some (mkFile done t) → copy_chunks temp pieces done w = (Return copied, w') →
  copied = done ++ mjoin pieces ∧ w'.(files) !! temp = Some (mkFile copied t).
Proof.
  revert done w. induction pieces as [|b pieces IH]; intros done w Hf Hr; cbn [copy_chunks] in Hr.
  - apply bind_return_inv in Hr as ([] & w1 & H1'%io_nothing_inv & Hr). injection Hr as <- <-.
    split; [symmetry; apply app_nil_r|by rewrite H1'].
  - apply bind_return_inv in Hr as ([] & w1 & H1'%io_nothing_inv & Hr). rewrite <- H1' in Hf.
    apply bind_return_inv in Hr as ([] & w2 & H2'%(write_file_inv _ _ _ _ _ _ Hf) & Hr).
    destruct (IH _ _ H2' Hr) as [-> ?]. cbn. by rewrite <- (assoc_L (++)) in *.
Qed.

Lemma chunks_join {A} k n (l : list A) : (0 < k)%nat → (length l <= n)%nat → mjoin (chunks k n l) = l.
Proof.
  intros Hk. revert l. induction n as [|n IH]; intros l Hl;
    [destruct l; [done|cbn in Hl; lia]|].
  destruct l as [|x l]; [done|]. change (mjoin (chunks k (S n) (x :: l))) with
    (take k (x :: l) ++ mjoin (chunks k n (drop k (x :: l)))).
  rewrite IH; [apply take_drop|]. rewrite length_drop. cbn in *. lia.
Qed.

Lemma fill_from_fills data : fills (fill_from (Some data)) data.
Proof.
  split; [intros; by apply keeps_fill_from|]. intros temp w.
  destruct (fill_from (Some data) temp w) as [[[n d]|e] w'] eqn:Hr; [|done]. unfold fill_from in Hr.
  apply bind_return_inv in Hr as ([] & w1 & _ & Hr).
  apply bind_return_inv in Hr as ([] & w2 & [t H1']%create_file_inv & Hr).
  apply bind_return_inv in Hr as ([] & w3 & H3'%io_nothing_inv & Hr). rewrite <- H3' in H1'.
  apply bind_return_inv in Hr as (copied & w4 & Hc & Hr).
  apply (copy_chunks_inv _ _ _ _ _ _ _ H1') in Hc as [-> Hf].
  assert (mjoin (chunks (Z.to_nat CHUNK) (length data) data) = data) as Hj
    by (apply chunks_join; [unfold CHUNK; lia|done]).
  rewrite Hj in Hf, Hr. cbn [app] in Hf, Hr.
  apply bind_return_inv in Hr as ([] & w5 & H5'%io_nothing_inv & Hr).
  apply bind_return_inv in Hr as ([] & w6 & H6'%io_nothing_inv & Hr).
  apply bind_return_inv in Hr as ([] & w7 & H7'%io_nothing_inv & Hr).
  apply bind_return_inv in Hr as ([] & w8 & H8'%io_nothing_inv & Hr). injection Hr as <- <- <-.
  split; [|done]. exists t. by rewrite H8', H7', H6', H5'.
Qed.

Lemma fill_from_missing payload : fills (fill_from None) payload.
Proof.
  split; [intros; by apply keeps_fill_from|]. intros temp w.
  destruct (fill_from None temp w) as [[[n d]|e] w'] eqn:Hr; [|done]. unfold fill_from in Hr.
  by apply bind_return_inv in Hr as ([] & w1 & _ & Hr).
Qed.

Lemma import_fills source : fills (fill_from source) (default [] source).
Proof. destruct source; [apply fill_from_fills|apply fill_from_missing]. Qed.
End invariant.
