(* ===== verification/EvidenceTheorems.v ===== *)
(** * What evidence storage guarantees

    Whatever fails, a registered artifact has its file; what was stored is what is read;
    cleaning up never touches a registered file. *)

From S2P Require Import Prelude PyBase PyText JobModels JobStore JobSystem Sha256 Regex RegexProofs Evidence EvidenceProofs.

(** ** Filters *)

Lemma list_filter_filter {A} (p q : A → bool) l :
  List.filter q (List.filter p l) = List.filter (fun x => p x && q x) l.
Proof. induction l as [|x l IH]; [done|]. cbn. destruct (p x); cbn; [|done]. by destruct (q x); rewrite IH. Qed.

Lemma list_filter_ext {A} (p q : A → bool) l : (∀ x, x ∈ l → p x = q x) → List.filter p l = List.filter q l.
Proof.
  induction l as [|x l IH]; intros Hpq; [done|]. cbn. rewrite Hpq by constructor.
  rewrite IH; [done|]. intros y Hy. apply Hpq. by constructor.
Qed.

Lemma list_filter_perm {A} (p : A → bool) l l' : l ≡ₚ l' → List.filter p l ≡ₚ List.filter p l'.
Proof.
  induction 1 as [|x l l' _ IH|x y l|l1 l2 l3 _ IH1 _ IH2]; cbn; [done| | |by etrans].
  - destruct (p x); [by constructor|done].
  - destruct (p x), (p y); try done. constructor.
Qed.

(** ** Requests *)

Inductive EvRequest : Type :=
  | PutBytes (m : ArtifactMeta) (payload : bytes)
  | PutJson (audit_id : string) (job_id : option string) (artifact_type : string) (document : dict)
      (retention : RetentionClass) (schema_name : string) (schema_version : Z)
  | ImportFile (audit_id : string) (job_id : option string) (artifact_type : string) (source : option bytes)
      (content_type extension : string) (retention : RetentionClass)
  | CleanTemporary (max_age : Z) (older : option Z)
  | CleanOrphans (max_age : Z) (older : option Z)
  | ReadArtifact (root : list string) (a : ArtifactModel)
  | DeleteAudit (root : list string) (audit_id : string) (jobs : gset string).

(** Extensions are none of temporary files, and an audit to delete has a canonical id. *)
Definition request_ok (r : EvRequest) : Prop :=
  match r with
  | PutBytes m _ => contains ".tmp-" m.(meta_extension) = false
  | ImportFile _ _ _ _ _ ext _ => contains ".tmp-" ext = false
  | DeleteAudit _ audit_id _ => canonical_uuid audit_id
  | _ => True
  end.

Definition spares (audit_id : string) (r : EvRequest) : Prop :=
  match r with DeleteAudit _ id _ => id ≠ audit_id | _ => True end.

Section theorems.
Context `{!Runtime, !RuntimeOk, !FileSystem, !PlainIds}.
Implicit Types (w : EvWorld) (p path id : string) (a : ArtifactModel) (r : EvRequest).

Definition serve_one r w : EvWorld :=
  match r with
  | PutBytes m payload => (put_bytes m payload w).2
  | PutJson audit job ty doc ret name ver => (put_json audit job ty doc ret name ver w).2
  | ImportFile audit job ty source ct ext ret => (import_file audit job ty source ct ext ret w).2
  | CleanTemporary age older => (cleanup_stale_temporary_files age older w).2
  | CleanOrphans age older => (cleanup_orphan_files age older w).2
  | ReadArtifact root a => (read_bytes root a w).2
  | DeleteAudit root audit jobs => ((_ ← audit_removed audit jobs; delete_files root audit) w).2
  end.

Definition serve (rs : list EvRequest) w : EvWorld := foldl (fun w r => serve_one r w) w rs.

(** ** What one request does to the rows and their files *)

(** Rows of other audits stay, with their files. *)
Definition rows_stay (audit : option string) w w' : Prop :=
  ∀ id a, w.(artifacts) !! id = Some a → Some a.(artifact_audit_id) ≠ audit →
    w'.(artifacts) !! id = Some a ∧ w'.(files) !! a.(artifact_relative_path) = w.(files) !! a.(artifact_relative_path).

Lemma put_result_stay w m payload o w' : evidence_ok w → put_result w m payload (o, w') →
  evidence_ok w' ∧ rows_stay None w w'.
Proof.
  intros Hok (Hok' & _ & _ & H'). split; [done|]. intros id a Ha _.
  destruct o as [b|[err|msg|msg|msg]]; [| | |done|done].
  - destruct H' as (Hst & _ & Hfresh & Hf).
    destruct Hst as (_ & _ & _ & _ & _ & _ & _ & _ & _ & Hnew & Hins & _).
    destruct (rows_stored _ Hok _ _ Ha) as (f & Hfile & _).
    split; [rewrite Hins, lookup_insert_ne; [done|congruence]|]. apply Hf. congruence.
  - destruct H' as [Hart Hf]. rewrite Hart. by rewrite Hf.
  - destruct H' as [Hart Hf]. rewrite Hart. split; [done|].
    destruct (Hf a.(artifact_relative_path)) as [|Hn]; [done|]. by destruct (next_name_row _ _ _ _ Hok Hn Ha).
Qed.

Lemma evolves_stay P w w' : evidence_ok w → evolves P w w' →
  (∀ id a, w.(artifacts) !! id = Some a → ¬ P a.(artifact_relative_path)) → rows_stay None w w'.
Proof.
  intros Hok [_ _ Ha _ Hf] HP id a Hid _. rewrite Ha. split; [done|]. apply Hf. by eapply HP.
Qed.

(** ** Cleaning up *)

Lemma elem_of_all_files w paths w' p : all_files w = (Return paths, w') → p ∈ paths ↔ is_Some (w.(files) !! p).
Proof.
  intros [= <- _]. rewrite scan_perm, list_elem_of_fmap. split.
  - intros ([q f] & -> & Hq%elem_of_map_to_list). by eexists.
  - intros [f Hf]. exists (p, f). split; [done|]. by apply elem_of_map_to_list.
Qed.

Lemma unlink_sub path w : ∀ p, is_Some ((unlink_file path w).2.(files) !! p) → is_Some (w.(files) !! p).
Proof.
  intros p. unfold unlink_file, io_plain, io_call. destruct (io_fault _) as [[m n]|]; [done|]. cbn.
  by intros [f [_ Hf]%lookup_delete_Some].
Qed.

Lemma stat_files path w : (stat_mtime path w).2.(files) = w.(files).
Proof.
  unfold stat_mtime, mbind, prog_bind, io_nothing, io_plain, io_call, reads.
  destruct (io_fault _) as [[m n]|]; [done|]. cbn. by destruct (w.(files) !! path).
Qed.

Lemma remove_older_sub cutoff eligible paths w :
  ∀ p, is_Some ((remove_older cutoff eligible paths w).2.(files) !! p) → is_Some (w.(files) !! p).
Proof.
  revert w. induction paths as [|q paths IH]; intros w p; cbn [remove_older]; [done|].
  unfold mbind at 1, prog_bind at 1. pose proof (stat_files q w) as Hs.
  destruct (stat_mtime q w) as [[t|e] w1]; cbn [snd] in Hs |- *; [|by rewrite Hs]. rewrite <- Hs.
  destruct (eligible q && (t <? cutoff)); [|apply IH].
  unfold mbind at 1, prog_bind at 1. pose proof (unlink_sub q w1 p) as Hu.
  destruct (unlink_file q w1) as [[[]|e] w2]; [|done].
  unfold mbind at 1, prog_bind at 1. pose proof (IH w2 p) as Hr.
  destruct (remove_older cutoff eligible paths w2) as [[n|e] w3]; intros Hp; auto.
Qed.

(** A clean-up whose files no row names. *)
Lemma remove_older_ok cutoff eligible paths w :
  evidence_ok w → (∀ id a, w.(artifacts) !! id = Some a → a.(artifact_relative_path) ∈ paths →
                     eligible a.(artifact_relative_path) = false) →
  evidence_ok (remove_older cutoff eligible paths w).2 ∧ rows_stay None w (remove_older cutoff eligible paths w).2.
Proof.
  intros Hok Hrows. set (P := fun p => p ∈ paths ∧ eligible p = true).
  assert (evolves P w (remove_older cutoff eligible paths w).2) as He by (by apply keeps_remove_older).
  assert (∀ id a, w.(artifacts) !! id = Some a → ¬ P a.(artifact_relative_path)) as HP.
  { intros id a Ha [Hin Hel]. rewrite (Hrows id a) in Hel; done. }
  split; [|by eapply evolves_stay]. eapply ok_deleted; [done|exact He|done|apply remove_older_sub|].
  intros p. unfold P. destruct (decide (p ∈ paths)), (eligible p); naive_solver.
Qed.

(** ** Deleting an audit *)

Lemma uuid_no_special s c : canonical_uuid s → uuid_char c = false → without c s = true.
Proof.
  intros [_ Hs] Hc. revert Hs. apply str_all_mono. intros d Hd.
  destruct (Ascii.eqb_spec d c) as [->|]; [congruence|done].
Qed.

Lemma canonical_part id : canonical_uuid id →
  nonempty id = true ∧ String.eqb id "." = false ∧ String.eqb id ".." = false ∧ startswith id "/" = false.
Proof.
  intros [Hl Hc]. split_and!.
  - destruct id; [discriminate Hl|done].
  - by destruct (String.eqb_spec id ".") as [->|].
  - by destruct (String.eqb_spec id "..") as [->|].
  - destruct (startswith id "/") eqn:Hst; [|done]. apply startswith_spec in Hst as [t ->].
    rewrite str_all_app in Hc. by apply andb_true_iff in Hc as [? _].
Qed.

Lemma relative_below root parts :
  relative_to root (root ++ parts) = Some (join "/" parts).
Proof. unfold relative_to. by rewrite take_app_length, bool_decide_eq_true_2, drop_app_length. Qed.

Lemma audit_directory_spec root audit w : canonical_uuid audit →
  _audit_directory root audit w = (Return audit, w).
Proof.
  intros Hc. destruct (canonical_part _ Hc) as (Hne & Hd1 & Hd2 & Hs).
  unfold _audit_directory, resolve_below. rewrite Hs.
  rewrite split_on_last by (apply uuid_no_special; done). cbn [foldl]. unfold lexical_step.
  rewrite Hne, Hd1, Hd2. cbn. by rewrite relative_below.
Qed.

Lemma inside_row w id a audit : evidence_ok w → w.(artifacts) !! id = Some a → canonical_uuid audit →
  inside audit a.(artifact_relative_path) = true → a.(artifact_audit_id) = audit.
Proof.
  intros Hok Ha Hc. destruct (rows_named _ Hok _ _ Ha) as (job & ext & -> & Haud & _).
  unfold inside. destruct (canonical_part _ Hc) as (-> & _). cbn [negb orb].
  intros [t Ht]%startswith_spec. unfold path_of in Ht. cbn [join] in Ht. rewrite app_assoc_string in Ht.
  apply app_inv_head_string in Ht as [? _]; [done|]. by rewrite (proj1 Hc), (proj1 Haud).
Qed.

Lemma for_each_unlink_sub paths w p :
  is_Some ((for_each unlink_file paths w).2.(files) !! p) → is_Some (w.(files) !! p).
Proof.
  revert w. induction paths as [|q paths IH]; intros w; cbn [for_each]; [done|].
  unfold mbind at 1, prog_bind at 1. pose proof (unlink_sub q w p) as Hu.
  destruct (unlink_file q w) as [[[]|e] w1]; [|done]. unfold mbind at 1, prog_bind at 1.
  pose proof (IH w1) as Hr. destruct (for_each unlink_file paths w1) as [[l|e] w2]; intros Hp; auto.
Qed.

Lemma io_nothing_files w : (io_nothing w).2.(files) = w.(files).
Proof. unfold io_nothing, io_plain, io_call. by destruct (io_fault _) as [[m n]|]. Qed.

(** [delete_files] only unlinks files under the directory. *)
Lemma delete_files_evolves root audit w : canonical_uuid audit →
  evolves (fun p => inside audit p = true) w (delete_files root audit w).2 ∧
  ∀ p, is_Some ((delete_files root audit w).2.(files) !! p) → is_Some (w.(files) !! p).
Proof.
  intros Hc. set (P := fun p => inside audit p = true).
  assert (∀ w, evolves P w (remove_tree audit w).2) as Ht.
  { intros w0. unfold remove_tree. apply (keeps_bind P all_files); [apply keeps_reads|]. intros paths.
    apply keeps_bind; [|intros; apply keeps_nothing]. apply keeps_for_each.
    intros p Hp. apply keeps_unlink. apply list_elem_of_In, filter_In in Hp as [_ Hp]. exact Hp. }
  assert (∀ w p, is_Some ((remove_tree audit w).2.(files) !! p) → is_Some (w.(files) !! p)) as Hs.
  { intros w0 p. unfold remove_tree, all_files, reads. unfold mbind at 1, prog_bind at 1.
    set (l := List.filter _ _). unfold mbind, prog_bind. pose proof (for_each_unlink_sub l w0 p) as Hf.
    destruct (for_each unlink_file l w0) as [[ys|e] w1]; [|done]. by rewrite io_nothing_files. }
  unfold delete_files, mbind, prog_bind. rewrite audit_directory_spec by done. unfold try_except.
  pose proof (keeps_nothing P w) as K1. pose proof (io_nothing_files w) as F1.
  destruct (io_nothing w) as [[[]|e] w1]; cbn [snd] in K1, F1.
  2: { destruct e; (split; [done|intros p; cbn; by rewrite F1]). }
  unfold all_files, reads. cbn -[remove_tree io_nothing inside]. specialize (Ht w1). specialize (Hs w1). rewrite F1 in Hs.
  destruct (remove_tree audit w1) as [[[]|e] w2]; cbn [snd] in Ht, Hs.
  - pose proof (keeps_nothing P w2) as K3. pose proof (io_nothing_files w2) as F3.
    destruct (io_nothing w2) as [[[]|e] w3]; cbn [snd] in K3, F3; [|destruct e]; cbn;
      (split; [exact (evolves_trans _ _ _ _ K1 (evolves_trans _ _ _ _ Ht K3))|intros p; rewrite F3; apply Hs]).
  - destruct e; cbn; (split; [exact (evolves_trans _ _ _ _ K1 Ht)|exact Hs]).
Qed.

Definition deleted_audit r : option string := match r with DeleteAudit _ id _ => Some id | _ => None end.

Lemma audit_removed_ok audit jobs w : evidence_ok w →
  evidence_ok (audit_removed audit jobs w).2 ∧ rows_stay (Some audit) w (audit_removed audit jobs w).2 ∧
  ∀ id a, (audit_removed audit jobs w).2.(artifacts) !! id = Some a → a.(artifact_audit_id) ≠ audit.
Proof.
  intros Hok. unfold audit_removed, modify. cbn [snd].
  assert (∀ id a, filter (fun kv : string * ArtifactModel => String.eqb kv.2.(artifact_audit_id) audit = false)
    w.(artifacts) !! id = Some a ↔ w.(artifacts) !! id = Some a ∧ a.(artifact_audit_id) ≠ audit) as Hf.
  { intros id a. by rewrite map_lookup_filter_Some, String.eqb_neq. }
  split_and!.
  - split; cbn.
    + intros id a [Ha _]%Hf. by apply (rows_keyed _ Hok).
    + intros id [a [Ha _]%Hf]. apply (rows_drawn _ Hok). by eexists.
    + intros id a [Ha _]%Hf. by apply (rows_named _ Hok).
    + intros id a [Ha _]%Hf. by apply (rows_stored _ Hok id).
    + apply (files_fresh _ Hok).
  - intros id a Ha Hne. cbn. rewrite Hf. split; [|done]. split; [done|]. congruence.
  - cbn. intros id a [_ Hne]%Hf. done.
Qed.

Lemma serve_one_ok r w : evidence_ok w → request_ok r →
  evidence_ok (serve_one r w) ∧ rows_stay (deleted_audit r) w (serve_one r w).
Proof.
  intros Hok Hr. destruct r as [m b|audit job ty doc ret name ver|audit job ty source ct ext ret|age older|age older|root a|root audit jobs];
    cbn [serve_one deleted_audit]; cbn in Hr.
  - pose proof (put_file_spec m "artifact_write_failed" "Could not persist artifact: " _ _ w Hok (fill_bytes_fills b) Hr) as Hp.
    fold (put_bytes m b) in Hp. destruct (put_bytes m b w) as [o w']. by eapply put_result_stay.
  - unfold put_json, put_bytes. set (b := encode _). set (m := mkMeta _ _ _ _ _ _ _ _).
    pose proof (put_file_spec m "artifact_write_failed" "Could not persist artifact: " _ _ w Hok (fill_bytes_fills b) eq_refl) as Hp.
    destruct (put_file m _ _ _ w) as [o w']. by eapply put_result_stay.
  - unfold import_file. set (m := mkMeta _ _ _ _ _ _ _ _).
    pose proof (put_file_spec m "artifact_import_failed" "Could not import artifact: " _ _ w Hok (import_fills source) Hr) as Hp.
    destruct (put_file m _ _ _ w) as [o w']. by eapply put_result_stay.
  - unfold cleanup_stale_temporary_files, ev_now, all_files, reads, mbind, prog_bind. cbn -[remove_older].
    lazymatch goal with |- evidence_ok (remove_older ?c ?e ?p ?x).2 ∧ _ =>
      destruct (remove_older_ok c e p x) as [G1 G2]; [| |split; [exact G1|exact G2]] end.
    + by eapply ok_quiet; [exact Hok|split; cbn; auto].
    + intros id a Ha [_ Ht]%list_elem_of_In%filter_In. by rewrite (row_not_temporary _ id a Hok Ha) in Ht.
  - unfold cleanup_orphan_files, ev_now, all_files, reads, mbind, prog_bind. cbn -[remove_older].
    lazymatch goal with |- evidence_ok (remove_older ?c ?e ?p ?x).2 ∧ _ =>
      destruct (remove_older_ok c e p x) as [G1 G2]; [| |split; [exact G1|exact G2]] end.
    + by eapply ok_quiet; [exact Hok|split; cbn; auto].
    + intros id a Ha _. apply negb_false_iff, str_in_spec, list_elem_of_fmap. exists a. split; [done|].
      apply list_elem_of_fmap. exists (id, a). split; [done|]. by apply elem_of_map_to_list.
  - assert (keeps (fun _ => False) (read_bytes root a)) as Hk.
    { unfold read_bytes, path_for. keeps_prog. apply keeps_read. }
    split; [by eapply ok_quiet|]. by eapply evolves_stay; [done|apply Hk|auto].
  - destruct (audit_removed_ok audit jobs w Hok) as (Hok1 & Hs1 & Hne).
    change ((_ ← audit_removed audit jobs; delete_files root audit) w) with
      (delete_files root audit (audit_removed audit jobs w).2).
    set (w1 := (audit_removed audit jobs w).2) in *. destruct (delete_files_evolves root audit w1 Hr) as [He Hsub].
    assert (∀ id a, w1.(artifacts) !! id = Some a → inside audit a.(artifact_relative_path) ≠ true) as HP.
    { intros id a Ha Hin. apply (Hne id a Ha). by eapply inside_row. }
    split.
    + eapply ok_deleted; [done|exact He|done|done|]. intros p. cbn. destruct (inside audit p); [by left|by right].
    + intros id a Ha Hau. destruct (Hs1 id a Ha Hau) as [Ha1 Hf1].
      destruct (evolves_stay _ _ _ Hok1 He HP id a Ha1 ltac:(done)) as [Ha2 Hf2]. split; [done|congruence].
Qed.

Definition empty_evidence (audits jobs : gset string) : EvWorld := mkEvWorld audits jobs ∅ ∅ 0 0 0.

Lemma empty_ok audits jobs : evidence_ok (empty_evidence audits jobs).
Proof.
  assert (∀ id, (empty_evidence audits jobs).(artifacts) !! id = None) as Ha by (intros; apply lookup_empty).
  assert (∀ p, (empty_evidence audits jobs).(files) !! p = None) as Hf by (intros; apply lookup_empty).
  split; try (intros id a H'; by rewrite Ha in H').
  - intros id [a H']. by rewrite Ha in H'.
  - intros p n [f H']. by rewrite Hf in H'.
Qed.

Lemma serve_evidence_ok rs w : evidence_ok w → Forall request_ok rs → evidence_ok (serve rs w).
Proof.
  unfold serve. intros Hok Hrs. revert w Hok. induction Hrs as [|r rs Hr Hrs IH]; intros w Hok; cbn; [done|].
  apply IH. by apply serve_one_ok.
Qed.

Lemma serve_stay rs w id a : evidence_ok w → Forall request_ok rs → w.(artifacts) !! id = Some a →
  Forall (spares a.(artifact_audit_id)) rs →
  (serve rs w).(artifacts) !! id = Some a ∧
  (serve rs w).(files) !! a.(artifact_relative_path) = w.(files) !! a.(artifact_relative_path).
Proof.
  unfold serve. intros Hok Hrs. revert w Hok. induction Hrs as [|r rs Hr Hrs IH]; intros w Hok Ha Hsp; cbn; [done|].
  apply Forall_cons in Hsp as [Hs Hsp]. destruct (serve_one_ok r w Hok Hr) as [Hok' Hst].
  destruct (Hst id a Ha) as [Ha' Hf'].
  { destruct r; cbn in *; try done. congruence. }
  destruct (IH _ Hok' Ha' Hsp) as [? Hf2]. split; [done|congruence].
Qed.

(** ** Without faults, a well-formed write goes through *)

Definition valid_id (s : string) : bool :=
  match parse_uuid s with Some n => String.eqb (uuid_str n) s | None => false end.

Lemma valid_id_spec s w : valid_id s = true → _validate_identifier s w = (Return tt, w).
Proof. unfold valid_id, _validate_identifier. destruct (parse_uuid s); [|done]. by intros ->. Qed.

Lemma bind_step {A B} (m : EM A) (k : A → EM B) w x w1 : m w = (Return x, w1) → (m ≫= k) w = k x w1.
Proof. intros Hm. unfold mbind, prog_bind. by rewrite Hm. Qed.

Section no_faults.
Context (no_fault : ∀ n, io_fault n = None).

Lemma io_call_step f g w : io_call f g w = (Return tt, g (w <| io_calls ::= S |>)).
Proof. unfold io_call. by rewrite no_fault. Qed.

Lemma io_nothing_step w : io_nothing w = (Return tt, w <| io_calls ::= S |>).
Proof. apply io_call_step. Qed.

Lemma artifact_path_step audit job id ext w :
  valid_id audit = true → (∀ j, job = Some j → valid_id j = true) → valid_id id = true →
  startswith ext "." = true → without slash ext = true →
  _artifact_path audit job id ext w = (Return (path_of audit job id ext), w <| io_calls ::= S |>).
Proof.
  intros Ha Hj Hi Hd Hs. unfold _artifact_path. rewrite (bind_step _ _ _ tt w) by (by apply valid_id_spec).
  rewrite (bind_step _ _ _ tt w). 2: { destruct job as [j|]; [by apply valid_id_spec, Hj|done]. }
  rewrite (bind_step _ _ _ tt w) by (by apply valid_id_spec).
  rewrite has_char_without, Hd, Hs. cbn -[io_nothing]. by rewrite (bind_step _ _ _ _ _ (io_nothing_step w)).
Qed.

Lemma create_file_step path w : w.(files) !! path = None →
  ∃ w', create_file path w = (Return tt, w') ∧ evolves (fun p => p = path) w w'.
Proof.
  intros Hp. pose proof (keeps_create (fun p => p = path) path eq_refl w) as Hk. revert Hk.
  unfold create_file, mbind, prog_bind, ev_now, reads. cbn. rewrite Hp. unfold io_plain.
  rewrite io_call_step. eauto.
Qed.

Lemma fill_bytes_step payload temp w : w.(files) !! temp = None →
  ∃ x w', fill_bytes payload temp w = (Return x, w').
Proof.
  intros Hp. unfold fill_bytes. destruct (create_file_step temp w Hp) as (w1 & Hc & _).
  rewrite (bind_step _ _ _ _ _ Hc), (bind_step _ _ _ _ _ (io_nothing_step _)). unfold write_file.
  rewrite (bind_step _ _ _ _ _ (io_call_step _ _ _)), !(bind_step _ _ _ _ _ (io_nothing_step _)). eauto.
Qed.

Lemma add_artifact_step a w :
  w.(artifacts) !! a.(artifact_id) = None → a.(artifact_audit_id) ∈ w.(known_audits) →
  (∀ j, a.(artifact_job_id) = Some j → j ∈ w.(known_jobs)) →
  (∀ id b, w.(artifacts) !! id = Some b → b.(artifact_relative_path) ≠ a.(artifact_relative_path)) →
  ∃ w', add_artifact a w = (Return tt, w').
Proof.
  intros Hid Hau Hj Hp. unfold add_artifact. rewrite (bind_step _ _ _ _ _ (io_nothing_step _)).
  unfold reads. unfold mbind, prog_bind. cbn -[existsb].
  rewrite bool_decide_eq_false_2 by (rewrite Hid; by intros [? ?]). rewrite bool_decide_eq_true_2 by done. cbn -[existsb].
  assert (match a.(artifact_job_id) with Some j => bool_decide (j ∈ w.(known_jobs)) | None => true end = true) as ->.
  { destruct a.(artifact_job_id) as [j|]; [|done]. by apply bool_decide_eq_true_2, Hj. }
  cbn -[existsb]. destruct (existsb _ _) eqn:He; [|unfold modify; eauto].
  apply existsb_elem_of in He as (b & Hb & Heq%String.eqb_eq). apply list_elem_of_fmap in Hb as ([id b'] & -> & Hb).
  apply elem_of_map_to_list in Hb. by destruct (Hp id b').
Qed.

(** The write of [put_bytes], whose names are fresh. *)
Lemma write_artifact_step m payload id path unique w :
  w.(files) !! temporary_path path unique = None → w.(artifacts) !! id = None →
  m.(meta_audit_id) ∈ w.(known_audits) → (∀ j, m.(meta_job_id) = Some j → j ∈ w.(known_jobs)) →
  (∀ id b, w.(artifacts) !! id = Some b → b.(artifact_relative_path) ≠ path) →
  ∃ a w', write_artifact m (fill_bytes payload) id path (temporary_path path unique) w = (Return a, w').
Proof.
  intros Ht Hid Hau Hj Hp. unfold write_artifact. set (temp := temporary_path path unique) in *.
  destruct (fill_bytes_step payload temp w Ht) as (x & w1 & Hf). rewrite (bind_step _ _ _ _ _ Hf).
  pose proof (keeps_fill_bytes (fun p => p = temp) payload temp eq_refl w) as Hk.
  pose proof (fill_result _ _ (fill_bytes_fills payload) temp w) as Hres. rewrite Hf in Hk, Hres. destruct x as [n d].
  destruct Hres as ([t Hfile] & _). unfold replace_file.
  rewrite (bind_step _ _ _ tt (w1 <| io_calls ::= S |> <| files ::= (fun m => <[path := mkFile payload t]> (delete temp m)) |>)).
  2: { unfold mbind, prog_bind, reads. rewrite Hfile. unfold io_plain. by rewrite io_call_step. }
  rewrite !(bind_step _ _ _ _ _ (io_nothing_step _)). unfold _register, ev_now.
  unfold mbind at 1, prog_bind at 1. cbn [fst snd].
  match goal with |- ∃ a w', (add_artifact ?row ≫= _) ?x = _ =>
    destruct (add_artifact_step row x) as [w' Hadd] end.
  1-4: cbn; destruct Hk as [K1 K2 K3 _ _]; cbn in K1, K2, K3; rewrite ?K1, ?K2, ?K3; done.
  rewrite (bind_step _ _ _ _ _ Hadd). do 2 eexists. done.
Qed.
End no_faults.

(** ** Cleaning up, exactly *)

Lemma stat_step q w f : (∀ n, io_fault n = None) → w.(files) !! q = Some f →
  stat_mtime q w = (Return f.(mtime), w <| io_calls ::= S |>).
Proof.
  intros Hno Hf. unfold stat_mtime. rewrite (bind_step _ _ _ _ _ (io_nothing_step Hno w)).
  unfold reads, mbind, prog_bind. cbn. by rewrite Hf.
Qed.

Definition too_old (cutoff : datetime) (eligible : string → bool) w p : bool :=
  eligible p && match w.(files) !! p with Some f => f.(mtime) <? cutoff | None => false end.

Lemma remove_older_exact cutoff eligible paths w :
  (∀ n, io_fault n = None) → NoDup paths → (∀ p, p ∈ paths → is_Some (w.(files) !! p)) →
  ∃ w', remove_older cutoff eligible paths w =
          (Return (Z.of_nat (length (List.filter (too_old cutoff eligible w) paths))), w') ∧
        ∀ p, w'.(files) !! p = if str_in p paths && too_old cutoff eligible w p then None else w.(files) !! p.
Proof.
  intros Hno. revert w. induction paths as [|q paths IH]; intros w Hnd Hin; [by exists w|].
  apply NoDup_cons in Hnd as [Hq Hnd]. destruct (Hin q) as [f Hf]; [constructor|]. cbn [remove_older].
  rewrite (bind_step _ _ _ _ _ (stat_step q w f Hno Hf)).
  assert (too_old cutoff eligible w q = eligible q && (f.(mtime) <? cutoff)) as Hold by (unfold too_old; by rewrite Hf).
  assert (∀ w1 : EvWorld, (∀ p, p ≠ q → w1.(files) !! p = w.(files) !! p) →
    ∃ w', remove_older cutoff eligible paths w1 =
          (Return (Z.of_nat (length (List.filter (too_old cutoff eligible w) paths))), w') ∧
        ∀ p, w'.(files) !! p = if str_in p paths && too_old cutoff eligible w p then None else w1.(files) !! p) as Hrest.
  { intros w1 Hsame. assert (∀ p, p ∈ paths → too_old cutoff eligible w1 p = too_old cutoff eligible w p) as Ht.
    { intros p Hp. unfold too_old. rewrite Hsame; [done|]. by intros ->. }
    destruct (IH w1 Hnd) as (w' & Hr & Hw').
    { intros p Hp. rewrite Hsame by (by intros ->). apply Hin. by constructor. }
    exists w'. split.
    - rewrite Hr. do 4 f_equal. clear -Ht. induction paths as [|p paths IH]; [done|]. cbn.
      rewrite Ht by constructor. rewrite IH; [done|]. intros p' Hp'. apply Ht. by constructor.
    - intros p. rewrite Hw'. destruct (str_in p paths) eqn:Hp; [|done]. apply str_in_spec in Hp. by rewrite Ht. }
  cbn [List.filter]. rewrite Hold. destruct (eligible q && (f.(mtime) <? cutoff)) eqn:He.
  - unfold unlink_file, io_plain. rewrite (bind_step _ _ _ _ _ (io_call_step Hno _ _ _)).
    destruct (Hrest (w <| io_calls ::= S |> <| io_calls ::= S |> <| files ::= delete q |>)) as (w' & Hr & Hw').
    { intros p Hp. cbn. by rewrite lookup_delete_ne. }
    exists w'. split; [unfold mbind, prog_bind; rewrite Hr; cbn [length];
      by rewrite Nat2Z.inj_succ, <- Z.add_1_l|].
    intros p. rewrite Hw'. cbn [str_in existsb]. fold (str_in p paths).
    destruct (String.eqb_spec p q) as [->|Hne]; cbn [orb andb].
    + rewrite Hold, andb_true_r. cbn. rewrite lookup_delete_eq. by destruct (str_in q paths).
    + cbn. by rewrite lookup_delete_ne.
  - destruct (Hrest (w <| io_calls ::= S |>)) as (w' & Hr & Hw'); [done|]. exists w'. split; [exact Hr|].
    intros p. rewrite Hw'. cbn [str_in existsb]. fold (str_in p paths).
    destruct (String.eqb_spec p q) as [->|Hne]; [|done]. cbn [orb]. by rewrite Hold, andb_false_r.
Qed.

(** The path of a registered artifact is the one it was stored under. *)
Lemma path_for_row root w id a : evidence_ok w → w.(artifacts) !! id = Some a →
  path_for root a w = (Return a.(artifact_relative_path), w).
Proof.
  intros Hok Ha. destruct (rows_named _ Hok _ _ Ha) as (job & ext & Hp & Hcau & Hcj & Hcid & (_ & Hslash & _)).
  assert (∀ c, uuid_char c = false → ∀ s, canonical_uuid s → without c s = true) as Hno.
  { intros c Hc s Hs. by apply uuid_no_special. }
  assert (without slash (id +:+ ext) = true) as Hname by (rewrite without_app, Hslash, Hno; done).
  assert (∀ s, (2 < String.length s)%nat → nonempty s = true ∧ String.eqb s "." = false ∧ String.eqb s ".." = false) as Hlong.
  { intros s Hs. destruct s as [|c1 [|c2 [|c3 s]]]; cbn in Hs; try lia. split_and!; [done|..];
      apply String.eqb_neq; discriminate. }
  destruct (canonical_part _ Hcau) as (A1 & A2 & A3 & A4).
  destruct (Hlong (id +:+ ext)) as (B1 & B2 & B3). { rewrite length_app_string, (proj1 Hcid). lia. }
  set (mid := default "audit" job).
  assert (nonempty mid = true ∧ String.eqb mid "." = false ∧ String.eqb mid ".." = false ∧ without slash mid = true) as (C1 & C2 & C3 & C4).
  { unfold mid. destruct job as [j|]; [|done]. destruct (canonical_part _ (Hcj j eq_refl)) as (? & ? & ? & _).
    split_and!; try done. by apply Hno, Hcj. }
  unfold path_for, resolve_below. rewrite Hp. unfold path_of. fold mid.
  assert (startswith (join "/" [a.(artifact_audit_id); mid; id +:+ ext]) "/" = false) as ->.
  { apply not_true_iff_false. intros Hst. cbn [join] in Hst. clear -A1 A4 Hst.
    revert A1 A4 Hst. destruct (artifact_audit_id a) as [|c s]; [done|]. rewrite app_cons_string.
    unfold startswith. cbn [remove_prefix]. by destruct (Ascii.eqb _ _). }
  change "/" with (String slash EmptyString) at 1.
  rewrite split_on_join; [|by apply Hno|cbn [forallb]; by rewrite C4, Hname].
  cbn [foldl]. unfold lexical_step. rewrite A1, A2, A3, B1, B2, B3, C1, C2, C3. cbn [negb orb].
  rewrite <- !(assoc_L (++)). cbn [app]. by rewrite relative_below.
Qed.

(** ** The guarantees *)

(** C32: Whatever requests the evidence store serves, and whichever file-system calls and
    commits fail on the way, every artifact row stands under its own id, its path is
    the audit, the job and the id, all canonical UUIDs, below the root, and its file is
    there with the size and digest the row records. *)
Theorem registered_artifacts_intact audits jobs rs id a :
  Forall request_ok rs → (serve rs (empty_evidence audits jobs)).(artifacts) !! id = Some a →
  a.(artifact_id) = id ∧
  (∃ job ext, a.(artifact_relative_path) = path_of a.(artifact_audit_id) job id ext ∧
     canonical_uuid a.(artifact_audit_id) ∧ (∀ j, job = Some j → canonical_uuid j) ∧ canonical_uuid id) ∧
  ∃ f, (serve rs (empty_evidence audits jobs)).(files) !! a.(artifact_relative_path) = Some f ∧
    a.(artifact_size) = Z.of_nat (length f.(content)) ∧ a.(artifact_sha256) = hexdigest f.(content).
Proof.
  intros Hrs Ha. pose proof (serve_evidence_ok rs _ (empty_ok audits jobs) Hrs) as Hok.
  split; [by apply (rows_keyed _ Hok)|]. split; [|by apply (rows_stored _ Hok id)].
  destruct (rows_named _ Hok _ _ Ha) as (job & ext & H1' & H2' & H3' & H4' & _). by exists job, ext.
Qed.

(** C33: Storing an artifact either returns its row, adds it to the table and leaves exactly
    one new file with the payload, or fails with a storage error and leaves rows and files
    as they were; only when removing the temporary files fails as well may files remain,
    under the new artifact's name.  When nothing fails and the ids are canonical and known,
    it returns. *)
Theorem put_bytes_correct m payload w :
  evidence_ok w → contains ".tmp-" m.(meta_extension) = false →
  put_result w m payload (put_bytes m payload w) ∧
  ((∀ n, io_fault n = None) → valid_id m.(meta_audit_id) = true → m.(meta_audit_id) ∈ w.(known_audits) →
   (∀ j, m.(meta_job_id) = Some j → valid_id j = true ∧ j ∈ w.(known_jobs)) →
   valid_id (uuid4 w.(ev_uuids_drawn)) = true → startswith m.(meta_extension) "." = true →
   without slash m.(meta_extension) = true → ∃ a w', put_bytes m payload w = (Return a, w')).
Proof.
  intros Hok Hext. split.
  { apply (put_file_spec m _ _ _ _ w Hok (fill_bytes_fills payload) Hext). }
  intros Hno Hau Hka Hj Hid Hdot Hslash. unfold put_bytes, put_file.
  unfold mbind at 1, prog_bind at 1. cbn [ev_uuid]. set (id := uuid4 w.(ev_uuids_drawn)) in *.
  set (w0 := w <| ev_uuids_drawn ::= S |>).
  assert (∀ s, valid_id s = true → canonical_uuid s) as Hcan.
  { intros s Hs. unfold valid_id in Hs. destruct (parse_uuid s); [|done].
    apply String.eqb_eq in Hs as <-. apply uuid_str_canonical. }
  rewrite (bind_step _ _ w0 (path_of m.(meta_audit_id) m.(meta_job_id) id m.(meta_extension)) (w0 <| io_calls ::= S |>)).
  2: { unfold try_except. rewrite artifact_path_step; [done|done|done| |done|done|done]. intros j Hjj. by apply Hj. }
  set (path := path_of _ _ _ _). unfold mbind at 1, prog_bind at 1. cbn [ev_uuid]. set (w1 := w0 <| io_calls ::= S |>).
  set (unique := uuid4 w1.(ev_uuids_drawn)).
  assert (∀ s, without slash s = true → next_name w (path_of m.(meta_audit_id) m.(meta_job_id) id s)) as Hnext.
  { intros s Hs. split; [by apply Hcan|]. exists s. apply path_name; [by apply Hcan| |by apply Hcan|done].
    intros j Hjj. by apply Hcan, Hj. }
  destruct (write_artifact_step Hno m payload id path unique (w1 <| ev_uuids_drawn ::= S |>)) as (a & w' & Hw).
  - unfold path. rewrite temporary_path_of. apply (next_name_fresh w); [done|]. apply Hnext.
    rewrite !without_app, Hslash. cbn. apply uuid_char_plain, uuid4_chars.
  - destruct (w.(artifacts) !! id) as [b|] eqn:Hb; [|done]. destruct (rows_drawn _ Hok id) as (n & Hn & Heq); [by eexists|].
    apply (inj uuid4) in Heq. lia.
  - done.
  - intros j Hjj. by apply Hj.
  - intros id' b Hb. apply (next_name_row w _ id'); [done|by apply Hnext|done].
  - unfold try_except. fold unique path. rewrite Hw. eauto.
Qed.

(** C34: What was stored is what is read: after an artifact was written, whatever other
    requests are served, cleaning up included, and whatever fails meanwhile, reading it
    gives the payload, unless its audit was deleted; it can only fail when the read itself
    does. *)
Theorem stored_artifact_read_back root m payload w a w1 rs :
  evidence_ok w → contains ".tmp-" m.(meta_extension) = false →
  put_bytes m payload w = (Return a, w1) → Forall request_ok rs → Forall (spares m.(meta_audit_id)) rs →
  match read_bytes root a (serve rs w1) with
  | (Return b, _) => b = payload
  | (Raise _, _) => ∃ fault, io_fault (serve rs w1).(io_calls) = Some fault
  end.
Proof.
  intros Hok Hext Hput Hrs Hsp.
  pose proof (put_file_spec m "artifact_write_failed" "Could not persist artifact: " _ _ w Hok (fill_bytes_fills payload) Hext) as Hres.
  fold (put_bytes m payload) in Hres. rewrite Hput in Hres. destruct Hres as (Hok1 & _ & _ & Hst & _).
  destruct Hst as (Hid & Hpath & Hau & _ & _ & _ & _ & _ & Hsha & _ & Hins & t & Hfile).
  assert (w1.(artifacts) !! uuid4 w.(ev_uuids_drawn) = Some a) as Ha by (by rewrite Hins, lookup_insert_eq).
  destruct (serve_stay rs w1 _ a Hok1 Hrs Ha) as [Ha2 Hf2]; [by rewrite Hau|]. rewrite Hpath, Hfile in Hf2.
  pose proof (serve_evidence_ok rs w1 Hok1 Hrs) as Hok2. set (w2 := serve rs w1) in *.
  destruct (rows_named _ Hok2 _ _ Ha2) as (job & ext & Hp & Hcau & Hcj & Hcid & Hce).
  unfold read_bytes. rewrite (bind_step _ _ _ _ _ (path_for_row root w2 _ a Hok2 Ha2)).
  unfold try_except, read_file, mbind, prog_bind, io_nothing, io_plain, io_call, reads.
  destruct (io_fault w2.(io_calls)) as [[msg n]|]; cbn; [by eexists|]. rewrite Hpath, Hf2. cbn.
  by rewrite Hsha, String.eqb_refl.
Qed.

(** An orphan: no artifact names it, it is no temporary file, and it is old enough. *)
Definition orphan w (cutoff : datetime) p : bool :=
  negb (temporary_name p) &&
  negb (str_in p (artifact_relative_path <$> (map_to_list w.(artifacts)).*2)) &&
  match w.(files) !! p with Some f => f.(mtime) <? cutoff | None => false end.

(** Cleaning up orphan files never touches a registered artifact or its file, whatever
    fails; when nothing fails it removes exactly the orphans older than the limit and
    reports how many there were. *)
Theorem cleanup_orphans_correct age older w :
  evidence_ok w →
  (∀ id a, w.(artifacts) !! id = Some a → let w' := (cleanup_orphan_files age older w).2 in
     w'.(artifacts) !! id = Some a ∧ w'.(files) !! a.(artifact_relative_path) = w.(files) !! a.(artifact_relative_path)) ∧
  ((∀ n, io_fault n = None) →
   let cutoff := clock w.(ev_clock_reads) - seconds (default age older) in
   ∃ w', cleanup_orphan_files age older w =
           (Return (Z.of_nat (length (List.filter (orphan w cutoff) (map_to_list w.(files)).*1))), w') ∧
         ∀ p, w'.(files) !! p = if orphan w cutoff p then None else w.(files) !! p).
Proof.
  intros Hok. split.
  { intros id a Ha. destruct (serve_one_ok (CleanOrphans age older) w Hok I) as [_ Hst]. by apply Hst. }
  intros Hno cutoff. unfold cleanup_orphan_files, ev_now, all_files, reads, mbind, prog_bind. cbn -[remove_older].
  set (known := artifact_relative_path <$> (map_to_list w.(artifacts)).*2).
  set (paths := List.filter _ _). set (w0 := w <| ev_clock_reads ::= S |>).
  assert (∀ p, p ∈ paths ↔ temporary_name p = false ∧ is_Some (w.(files) !! p)) as Hpaths.
  { intros p. unfold paths. rewrite list_elem_of_In, filter_In, <- list_elem_of_In, negb_true_iff.
    rewrite (elem_of_all_files w _ w) by reflexivity. tauto. }
  assert (NoDup paths) as Hnd.
  { unfold paths. apply NoDup_ListNoDup, List.NoDup_filter, NoDup_ListNoDup. rewrite scan_perm. apply NoDup_fst_map_to_list. }
  destruct (remove_older_exact cutoff (fun p => negb (str_in p known)) paths w0 Hno Hnd) as (w' & Hr & Hw').
  { intros p [_ Hp]%Hpaths. exact Hp. }
  assert (∀ p, str_in p paths && too_old cutoff (fun p => negb (str_in p known)) w0 p = orphan w cutoff p) as Heq.
  { intros p. unfold too_old, orphan. fold known. change (w0.(files)) with (w.(files)).
    destruct (str_in p paths) eqn:Hp.
    - apply str_in_spec, Hpaths in Hp as [-> _]. done.
    - apply str_in_false in Hp. rewrite Hpaths in Hp. destruct (temporary_name p); [done|].
      destruct (w.(files) !! p); [|by rewrite !andb_false_r]. destruct Hp. split; [done|by eexists]. }
  exists w'. split; [|intros p; rewrite Hw'; by rewrite Heq]. refine (eq_trans Hr _). do 3 f_equal.
  assert (length (List.filter (orphan w cutoff) (map_to_list w.(files)).*1) =
    length (List.filter (orphan w cutoff) (scan (map_to_list w.(files)).*1))) as ->.
  { apply Permutation_length, list_filter_perm. by rewrite scan_perm. }
  unfold paths. rewrite list_filter_filter. f_equal. apply list_filter_ext. intros p Hp.
  rewrite <- Heq. unfold paths.
  destruct (str_in p _) eqn:Hin; cbn [andb].
  - apply str_in_spec, Hpaths in Hin as [-> _]. done.
  - apply str_in_false in Hin. rewrite list_elem_of_In, filter_In, <- list_elem_of_In in Hin.
    destruct (negb (temporary_name p)) eqn:Ht; [|done]. by destruct Hin.
Qed.
End theorems.

(** ** Worked instances: canonical ids, and a file system that never fails *)

Definition sample_id (n : nat) : string :=
  "00000000-0000-4000-8000-0000000000" +:+ hex2 (Z.of_nat n).

Definition sample_runtime : Runtime :=
  {| clock := fun n => 1000000 * Z.of_nat n; uuid4 n := if (n <? 256)%nat then sample_id n else unary n;
     scan := fun _ l => l |}.

Lemma unary_chars n : str_all is_digit (unary n) = true ∧ String.length (unary n) = n.
Proof. induction n as [|n [IH1 IH2]]; [done|]. cbn. by rewrite IH1, IH2. Qed.

Lemma sample_id_inj n m : (n < 256)%nat → (m < 256)%nat → sample_id n = sample_id m → n = m.
Proof.
  intros Hn Hm H. unfold sample_id in H. apply app_inv_head_string in H as [_ H]; [|done].
  assert (∀ k, 0 ≤ k < 256 → hex_digits_from 0 (hex2 k) = Some k) as Hk.
  { intros k Hk. apply reads_as_spec. exact (by_cases (fun k => reads_as (hex_digits_from 0 (hex2 k)) k) 0 256
      ltac:(vm_compute; reflexivity) k ltac:(lia)). }
  apply Nat2Z.inj. apply (inj Some). rewrite <- !Hk by lia. by rewrite H.
Qed.

Lemma sample_runtime_ok : @RuntimeOk sample_runtime.
Proof.
  split; [|done]. intros n m. cbn [uuid4 sample_runtime].
  destruct (Nat.ltb_spec n 256), (Nat.ltb_spec m 256); intros Hnm.
  - by apply sample_id_inj.
  - apply (f_equal (str_all is_digit)) in Hnm. by rewrite (proj1 (unary_chars m)) in Hnm.
  - apply (f_equal (str_all is_digit)) in Hnm. by rewrite (proj1 (unary_chars n)) in Hnm.
  - apply (f_equal String.length) in Hnm. by rewrite !(proj2 (unary_chars _)) in Hnm.
Qed.

Lemma sample_plain_ids : @PlainIds sample_runtime.
Proof.
  intros n. cbn [uuid4 sample_runtime]. destruct (Nat.ltb_spec n 256).
  - unfold sample_id. rewrite str_all_app. rewrite (proj2 (hex2_shape (Z.of_nat n) ltac:(lia))). done.
  - eapply str_all_mono; [|apply unary_chars]. intros c. unfold uuid_char. by intros ->.
Qed.

Definition reliable : FileSystem := {| io_fault := fun _ => None |}.
(** Every call after the [k]-th fails. *)
Definition failing_from (k : nat) : FileSystem :=
  {| io_fault := fun n => if (n <? k)%nat then None else Some ("[Errno 5] Input/output error", 0%nat) |}.

Definition sample_audit : string := "00000000-0000-4000-8000-0000000000a0".
Definition sample_meta : ArtifactMeta :=
  mkMeta sample_audit None "scan" "application/json" ".json" RETENTION_AUDIT None None.
Definition sample_store : EvWorld := empty_evidence {[sample_audit]} ∅.
Definition sample_requests : list EvRequest :=
  [PutBytes sample_meta [1; 2; 3]; CleanOrphans 0 None; CleanTemporary 0 None].

Lemma sample_requests_ok : Forall request_ok sample_requests.
Proof. by repeat constructor. Qed.
Definition cleaning : list EvRequest := [CleanOrphans 0 None].
Lemma cleaning_ok : Forall request_ok cleaning.
Proof. by repeat constructor. Qed.
Lemma cleaning_spares : Forall (spares sample_audit) cleaning.
Proof. by repeat constructor. Qed.

Definition first_artifact : string := sample_id 0.

Example sample_rows :
  artifact_size <$> (@serve sample_runtime reliable sample_requests sample_store).(artifacts) !! first_artifact = Some 3.
Proof. vm_compute. reflexivity. Qed.

Lemma registered_artifacts_intact_witness : ∃ a,
  (@serve sample_runtime reliable sample_requests sample_store).(artifacts) !! first_artifact = Some a ∧
  a.(artifact_id) = first_artifact.
Proof.
  destruct ((@serve sample_runtime reliable sample_requests sample_store).(artifacts) !! first_artifact) as [a|] eqn:Ha.
  - exists a. split; [exact eq_refl|].
    exact (proj1 (@registered_artifacts_intact sample_runtime sample_runtime_ok reliable sample_plain_ids
      {[sample_audit]} ∅ sample_requests first_artifact a
      sample_requests_ok Ha)).
  - exfalso. pose proof sample_rows as Hs. rewrite Ha in Hs. discriminate Hs.
Defined.

Lemma sample_audit_known : sample_meta.(meta_audit_id) ∈ sample_store.(known_audits).
Proof. change (sample_audit ∈ ({[sample_audit]} : gset string)). set_solver. Qed.

Lemma put_bytes_correct_witness :
  ∃ a w', @put_bytes sample_runtime reliable sample_meta [1; 2; 3] sample_store = (Return a, w').
Proof.
  refine (proj2 (@put_bytes_correct sample_runtime sample_runtime_ok reliable sample_plain_ids sample_meta [1; 2; 3]
    sample_store (@empty_ok sample_runtime _ _) eq_refl) (fun _ => eq_refl) eq_refl _ _ eq_refl eq_refl eq_refl).
  - exact sample_audit_known.
  - intros j Hj. discriminate Hj.
Defined.

Lemma stored_artifact_read_back_witness : ∃ a w1,
  @put_bytes sample_runtime reliable sample_meta [1; 2; 3] sample_store = (Return a, w1) ∧
  match @read_bytes reliable ["srv"; "evidence"] a (@serve sample_runtime reliable cleaning w1) with
  | (Return b, _) => b = [1; 2; 3]
  | (Raise _, _) => ∃ fault, @io_fault reliable 0 = Some fault
  end.
Proof.
  destruct (@put_bytes sample_runtime reliable sample_meta [1; 2; 3] sample_store) as [[a|e] w1] eqn:Hput.
  - exists a, w1. split; [reflexivity|].
    exact (@stored_artifact_read_back sample_runtime sample_runtime_ok reliable sample_plain_ids ["srv"; "evidence"]
      sample_meta [1; 2; 3] sample_store a w1 cleaning (@empty_ok sample_runtime _ _) eq_refl Hput
      cleaning_ok cleaning_spares).
  - exfalso. revert Hput. vm_compute. discriminate.
Defined.

Lemma cleanup_orphans_correct_witness :
  ∃ w', @cleanup_orphan_files sample_runtime reliable 0 None sample_store = (Return 0, w').
Proof.
  destruct (proj2 (@cleanup_orphans_correct sample_runtime sample_runtime_ok reliable sample_plain_ids 0 None
    sample_store (@empty_ok sample_runtime _ _)) (fun _ => eq_refl)) as (w' & Hr & _).
  exists w'. exact Hr.
Defined.

(** A failing disk leaves no row: the write is undone as far as it can be. *)
Example failing_put_leaves_nothing :
  let w' := (@put_bytes sample_runtime (failing_from 4) sample_meta [1; 2; 3] sample_store).2 in
  (map_to_list w'.(artifacts)) = [] ∧ (map_to_list w'.(files)).*1 ≠ [].
Proof. vm_compute. split; [reflexivity|discriminate]. Qed.

(** When removing the files of a deleted audit fails at the first one, the result still
    counts them as deleted. *)
Example deletion_counts_files_left :
  let w := (@put_bytes sample_runtime reliable sample_meta [1] sample_store).2 in
  match @delete_files sample_runtime (failing_from (S w.(io_calls))) ["srv"] sample_audit w with
  | (Return c, w') => c = mkCleanup 1 false true ∧ size w'.(files) = 1%nat
  | (Raise _, _) => False
  end.
Proof. vm_compute. done. Qed.
