(* ===== verification/ProbeStore.v ===== *)
(** * Persistence of protocol observations ([protocol_audits/store.py])

    The rows of [protocol_observations], unique by audit, asset, service, module, kind and
    dedupe key, and the operations of [ProtocolObservationStore].  A transaction is one
    atomic step. *)

From S2P Require Import Prelude PyBase PyText JobModels JobStore Ip FindModels FindStore Inventory InventoryQueries Regex ProbeModels.

Definition MAX_OBSERVATION_DATA_BYTES : Z := 12288.

(** [bound_observation_data]; its [_truncate] is, line for line, the one of the findings store. *)
Definition bound_observation_data (data : dict) : dict :=
  let bounded := _truncate (PDict data) in
  let encoded := byte_len (json_dumps bounded) in
  if encoded <=? MAX_OBSERVATION_DATA_BYTES
  then match bounded with PDict d => d | _ => [] end
  else [("truncated", PBool true);
        ("keys", PList (map PStr (take MAX_LIST_ITEMS (sort_by str_le (dict_keys data)))));
        ("original_bytes", PInt encoded)].

(** [ProtocolObservationModel]: the record's columns, and the dedupe key. *)
Record ProtocolObservationModel : Type := mkObservationRow {
  row_record : ProtocolObservationRecord;
  row_dedupe_key : string
}.

Definition observation_id (r : ProtocolObservationModel) : string := r.(row_record).(obs_id).

(** [uq_protocol_observations_identity] *)
Definition ObservationKey : Type := string * string * string * string * string * string.
Definition observation_key (r : ProtocolObservationModel) : ObservationKey :=
  (r.(row_record).(obs_audit_id), r.(row_record).(obs_asset_id), r.(row_record).(obs_service_id),
   r.(row_record).(obs_module), r.(row_record).(obs_kind), r.(row_dedupe_key)).

Record ObsWorld : Type := mkObsWorld {
  protocol_observations : gmap string ProtocolObservationModel;
  obs_audits : gset string;
  obs_assets : gset string;
  obs_services : gset string;
  obs_clock_reads : nat;
  obs_uuids_drawn : nat
}.
#[export] Instance eta_ObsWorld : Eta ObsWorld := fun w =>
  mkObsWorld w.(protocol_observations) w.(obs_audits) w.(obs_assets) w.(obs_services)
    w.(obs_clock_reads) w.(obs_uuids_drawn).

Abbreviation OM := (prog ObsWorld ProbeExc).

Definition obs_transaction {A} (body : OM A) : OM A := fun w =>
  match body w with
  | (Return a, w') => (Return a, w')
  | (Raise e, w') => (Raise e, w <| obs_clock_reads := w'.(obs_clock_reads) |>
                                 <| obs_uuids_drawn := w'.(obs_uuids_drawn) |>)
  end.

Section store.
Context `{Runtime}.

Definition obs_now : OM datetime := fun w =>
  (Return (clock w.(obs_clock_reads)), w <| obs_clock_reads ::= S |>).
Definition obs_uuid : OM string := fun w =>
  (Return (uuid4 w.(obs_uuids_drawn)), w <| obs_uuids_drawn ::= S |>).

Definition find_observation (k : ObservationKey) : OM (option ProtocolObservationModel) :=
  reads (fun w => find_first (fun r => bool_decide (observation_key r = k)) (map_to_list w.(protocol_observations)).*2).

(** The flush of a new row. *)
Definition insert_observation_row (r : ProtocolObservationModel) : OM unit := fun w =>
  if bool_decide (is_Some (w.(protocol_observations) !! observation_id r)) then
    (Raise (ProbeIntegrity "UNIQUE constraint failed: protocol_observations.id"), w)
  else if negb (bool_decide (r.(row_record).(obs_audit_id) ∈ w.(obs_audits)) &&
                bool_decide (r.(row_record).(obs_asset_id) ∈ w.(obs_assets)) &&
                bool_decide (r.(row_record).(obs_service_id) ∈ w.(obs_services))) then
    (Raise (ProbeIntegrity "FOREIGN KEY constraint failed"), w)
  else (Return tt, w <| protocol_observations ::= insert (observation_id r) r |>).

(** What a run of a module says it is about. *)
Record ObservedBy : Type := mkObservedBy {
  by_audit : string;
  by_asset_id : string;
  by_service_id : string;
  by_protocol : string;
  by_module : string
}.

Definition draft_key (b : ObservedBy) (d : ObservationDraft) : ObservationKey :=
  (b.(by_audit), b.(by_asset_id), b.(by_service_id), b.(by_module), d.(draft_kind), d.(draft_dedupe_key)).

Definition new_observation (b : ObservedBy) (d : ObservationDraft) (evidence : option string)
    (id : string) (now : datetime) : ProtocolObservationModel :=
  mkObservationRow
    (mkObservation id b.(by_audit) b.(by_asset_id) b.(by_service_id) b.(by_protocol) b.(by_module)
       d.(draft_kind) (bound_observation_data d.(draft_data)) d.(draft_confidence) d.(draft_source) evidence now now)
    d.(draft_dedupe_key).

(** The columns a repeated observation writes; id, identity and first-seen time stay. *)
Definition observed_again (b : ObservedBy) (d : ObservationDraft) (evidence : option string) (now : datetime)
    (r : ProtocolObservationModel) : ProtocolObservationModel :=
  let o := r.(row_record) in
  mkObservationRow
    (mkObservation o.(obs_id) o.(obs_audit_id) o.(obs_asset_id) o.(obs_service_id) b.(by_protocol) o.(obs_module)
       o.(obs_kind) (bound_observation_data d.(draft_data)) d.(draft_confidence) d.(draft_source) evidence
       o.(obs_first_seen) now)
    r.(row_dedupe_key).

Definition upsert_observation (b : ObservedBy) (evidence : option string) (d : ObservationDraft)
    : OM ProtocolObservationRecord :=
  existing ← find_observation (draft_key b d);
  now ← obs_now;
  match existing with
  | None =>
      id ← obs_uuid;
      let r := new_observation b d evidence id now in
      _ ← insert_observation_row r; mret r.(row_record)
  | Some r =>
      let r := observed_again b d evidence now r in
      _ ← modify (fun w => w <| protocol_observations ::= insert (observation_id r) r |>);
      mret r.(row_record)
  end.

Definition upsert_many (b : ObservedBy) (drafts : list ObservationDraft) (evidence : option string)
    : OM (list ProtocolObservationRecord) :=
  obs_transaction (for_each (upsert_observation b evidence) drafts).

(** ** Reading *)

Record ObservationFilter : Type := mkObservationFilter {
  on_asset : option string;
  on_protocol : option string;
  on_module : option string;
  on_kind : option string;
  on_service : option string
}.

Definition observation_matches (audit_id : string) (q : ObservationFilter) (r : ProtocolObservationModel) : bool :=
  let o := r.(row_record) in
  String.eqb o.(obs_audit_id) audit_id &&
  when q.(on_asset) (String.eqb o.(obs_asset_id)) &&
  when q.(on_protocol) (fun p => String.eqb o.(obs_protocol) (lower p)) &&
  when q.(on_module) (fun m => String.eqb o.(obs_module) (lower m)) &&
  when q.(on_kind) (String.eqb o.(obs_kind)) &&
  when q.(on_service) (String.eqb o.(obs_service_id)).

(** [ORDER BY module, kind, id] *)
Definition observation_le : ProtocolObservationModel → ProtocolObservationModel → bool :=
  str_then (fun r => r.(row_record).(obs_module))
    (str_then (fun r => r.(row_record).(obs_kind)) (fun a b => str_le (observation_id a) (observation_id b))).

Definition observation_rows (w : ObsWorld) (p : ProtocolObservationModel → bool) : list ProtocolObservationModel :=
  List.filter p (map_to_list w.(protocol_observations)).*2.

Definition list_observations (audit_id : string) (limit offset : Z) (q : ObservationFilter)
    : OM (Page ProtocolObservationRecord) :=
  reads (fun w =>
    let rows := observation_rows w (observation_matches audit_id q) in
    mkPage (map row_record (sql_page limit offset (sort_by observation_le rows))) limit offset
      (Z.of_nat (length rows))).

Definition of_audit (audit_id : string) (r : ProtocolObservationModel) : bool :=
  String.eqb r.(row_record).(obs_audit_id) audit_id.

Definition all_for_audit (audit_id : string) : OM (list ProtocolObservationRecord) :=
  reads (fun w => map row_record (sort_by observation_le (observation_rows w (of_audit audit_id)))).

Definition count_observations (audit_id : string) : OM Z :=
  reads (fun w => Z.of_nat (length (observation_rows w (of_audit audit_id)))).
End store.
