(* ===== verification/NmapProgress.v ===== *)
(** * The progress Nmap prints ([providers/nmap_progress.py], [jobs/handlers/active.py])

    The parser of the streamed output, and the callback that turns its snapshots into the
    progress of a job.  Percentages are the binary64 numbers of Python's [float]; the
    streams are read one piece after the other, in the order of the list of pieces. *)

From Stdlib Require Import SpecFloat.
From S2P Require Import Prelude PyBase PyText Regex JobModels Ip.

(** ** [float] *)

Abbreviation float := spec_float.
Definition f_prec : Z := 53.
Definition f_emax : Z := 1024.

Definition float_of_int (n : Z) : float := binary_normalize f_prec f_emax n 0 false.
Definition float_mul : float → float → float := SFmul f_prec f_emax.
Definition float_div : float → float → float := SFdiv f_prec f_emax.

(** [float(s)] of digits with an optional fraction: the quotient of integers, rounded once. *)
Definition float_of_decimal (s : string) : float :=
  let '(whole, fraction) := split_once "."%char s in
  let fraction := default EmptyString fraction in
  match digits_value (whole +:+ fraction), 10 ^ Z.of_nat (String.length fraction) with
  | Zpos n, Zpos d => float_div (S754_finite false n 0) (S754_finite false d 0)
  | _, _ => S754_zero false
  end.

(** [int(f)], towards zero. *)
Definition float_trunc (f : float) : Z :=
  match f with
  | S754_finite s m e =>
      let n := if 0 <=? e then Zpos m * 2 ^ e else Zpos m / 2 ^ (- e) in
      if s then - n else n
  | _ => 0
  end.

(** [f"{f:.1f}"] of a number that is not negative: tenths, ties to even. *)
Definition float_tenths (f : float) : Z :=
  match f with
  | S754_finite _ m e =>
      if 0 <=? e then 10 * Zpos m * 2 ^ e
      else
        let '(q, r) := Z.div_eucl (10 * Zpos m) (2 ^ (- e)) in
        match Z.compare (2 * r) (2 ^ (- e)) with
        | Lt => q
        | Gt => q + 1
        | Eq => if Z.even q then q else q + 1
        end
  | _ => 0
  end.
Definition float_str1 (f : float) : string :=
  str_int (float_tenths f / 10) +:+ "." +:+ str_int (float_tenths f mod 10).

Definition float_eqb : option float → option float → bool := fun a b =>
  match a, b with
  | Some x, Some y => SFeqb x y
  | None, None => true
  | _, _ => false
  end.

Example tenths_half : float_str1 (float_of_decimal "12.25") = "12.2".
Proof. vm_compute. reflexivity. Qed.
Example tenths_up : float_str1 (float_of_decimal "99.96") = "100.0".
Proof. vm_compute. reflexivity. Qed.

(** ** The parser *)

Definition _OPEN_RE : regex :=
  RSeqs [lit_i "Discovered open port"; RPlus R_space; RGroup 1 (RPlus R_digit); lit "/";
         RAlt (lit_i "tcp") (lit_i "udp"); RPlus R_space; lit_i "on"; RPlus R_space; RGroup 2 (RPlus R_nonspace)].
Definition _PERCENT_RE : regex :=
  RSeqs [lit_i "About"; RPlus R_space;
         RGroup 1 (RSeq (RPlus R_digit) (RMaybe (RSeq (lit ".") (RPlus R_digit)))); lit "%"; RPlus R_space; lit_i "done"].
Definition _HOSTS_RE : regex :=
  RSeqs [RGroup 1 (RPlus R_digit); RPlus R_space; lit_i "host"; RMaybe (lit_i "s"); RPlus R_space; lit_i "completed";
         RPlus R_space; lit "("; RGroup 2 (RPlus R_digit); RPlus R_space; lit_i "up"; lit ")"].
Definition _REMAINING_RE : regex :=
  RSeqs [lit "("; RGroup 1 (RPlus (RChar (fun c => negb (one_of "()" c)))); RPlus R_space; lit_i "remaining"; lit ")"].
Definition phase_char (c : ascii) : bool :=
  negb (Ascii.eqb c (chr 13) || Ascii.eqb c newline || Ascii.eqb c ":"%char).
Definition _PHASE_RE : regex :=
  RSeqs [RGroup 1 (RSeq (RChar phase_char) (RStar false (RChar phase_char))); RPlus R_space; lit_i "Timing:";
         RPlus R_space; lit_i "About"].

Record NmapProgressSnapshot : Type := mkSnapshot {
  snap_percent : option float;
  snap_phase : option string;
  snap_completed : option Z;
  snap_up : option Z;
  snap_open_ports : Z;
  snap_last_port : option Z;
  snap_last_host : option string;
  snap_remaining : option string
}.

(** [NmapProgressParser]: what is left of each stream's last line, and what was read. *)
Record NmapProgressParser : Type := mkParser {
  buffer_stdout : string;
  buffer_stderr : string;
  seen_percent : option float;
  seen_phase : option string;
  seen_completed : option Z;
  seen_up : option Z;
  seen_remaining : option string;
  seen_open : gset (string * Z);
  last_open_port : option Z;
  last_open_host : option string
}.
#[export] Instance eta_NmapProgressParser : Eta NmapProgressParser := fun p =>
  mkParser p.(buffer_stdout) p.(buffer_stderr) p.(seen_percent) p.(seen_phase) p.(seen_completed) p.(seen_up)
    p.(seen_remaining) p.(seen_open) p.(last_open_port) p.(last_open_host).

Definition new_parser : NmapProgressParser := mkParser "" "" None None None None None ∅ None None.

Abbreviation PM := (prog NmapProgressParser PyExc).

Definition progress_int (s : string) : PM Z :=
  match int_of_str s with
  | Some n => mret n
  | None => raise (PyValueError "Exceeds the limit for integer string conversion")
  end.

Definition snapshot (p : NmapProgressParser) : NmapProgressSnapshot :=
  mkSnapshot p.(seen_percent) p.(seen_phase) p.(seen_completed) p.(seen_up) (Z.of_nat (size p.(seen_open)))
    p.(last_open_port) p.(last_open_host) p.(seen_remaining).

(** Each part of a line: whether it changed anything. *)
Definition on_match (r : regex) (line : string) (k : captures → PM bool) : PM bool :=
  match re_search r line with Some m => k m | None => mret false end.

Definition opened_part (line : string) : PM bool :=
  on_match _OPEN_RE line (fun m =>
    port ← progress_int (group_text 1 m);
    let host := group_text 2 m in
    known ← reads (fun p => bool_decide ((host, port) ∈ p.(seen_open)));
    _ ← modify (fun p => p <| seen_open ::= (fun s => {[(host, port)]} ∪ s) |>
                           <| last_open_host := Some host |> <| last_open_port := Some port |>);
    mret (negb known)).

(** [min(100.0, max(0.0, value))] *)
Definition clamp_percent (value : float) : float :=
  let positive := if SFltb (S754_zero false) value then value else S754_zero false in
  if SFltb positive (float_of_int 100) then positive else float_of_int 100.

Definition percent_part (line : string) : PM bool :=
  on_match _PERCENT_RE line (fun m =>
    let value := clamp_percent (float_of_decimal (group_text 1 m)) in
    old ← reads seen_percent;
    if float_eqb (Some value) old then mret false
    else _ ← modify (fun p => p <| seen_percent := Some value |>); mret true).

Definition hosts_part (line : string) : PM bool :=
  on_match _HOSTS_RE line (fun m =>
    completed ← progress_int (group_text 1 m);
    up ← progress_int (group_text 2 m);
    same ← reads (fun p => bool_decide (p.(seen_completed) = Some completed ∧ p.(seen_up) = Some up));
    if (same : bool) then mret false
    else _ ← modify (fun p => p <| seen_completed := Some completed |> <| seen_up := Some up |>); mret true).

Definition remaining_part (line : string) : PM bool :=
  on_match _REMAINING_RE line (fun m =>
    let value := strip (group_text 1 m) in
    same ← reads (fun p => bool_decide (p.(seen_remaining) = Some value));
    if (same : bool) then mret false
    else _ ← modify (fun p => p <| seen_remaining := Some value |>); mret true).

Definition phase_part (line : string) : PM bool :=
  on_match _PHASE_RE line (fun m =>
    let value := strip (group_text 1 m) in
    same ← reads (fun p => bool_decide (p.(seen_phase) = Some value));
    if (same : bool) then mret false
    else _ ← modify (fun p => p <| seen_phase := Some value |>); mret true).

Definition _parse_line (line : string) : PM (list NmapProgressSnapshot) :=
  if negb (nonempty line) then mret []
  else
    a ← opened_part line; b ← percent_part line; c ← hosts_part line; d ← remaining_part line; e ← phase_part line;
    p ← reads id;
    mret (if a || b || c || d || e then [snapshot p] else []).

Definition buffer_of (stderr : bool) (p : NmapProgressParser) : string :=
  if stderr then p.(buffer_stderr) else p.(buffer_stdout).
Definition set_buffer (stderr : bool) (text : string) (p : NmapProgressParser) : NmapProgressParser :=
  if stderr then p <| buffer_stderr := text |> else p <| buffer_stdout := text |>.

(** [chunk.replace("\r", "\n")] *)
Definition unix_lines : string → string := str_map (fun c => if Ascii.eqb c (chr 13) then newline else c).

Definition feed (stream chunk : string) : PM (list NmapProgressSnapshot) :=
  if negb (nonempty chunk) then mret []
  else
    let stderr := String.eqb stream "stderr" in
    buffer ← reads (buffer_of stderr);
    let lines := split_on newline (buffer +:+ unix_lines chunk) in
    _ ← modify (set_buffer stderr (List.last lines EmptyString));
    found ← for_each (fun line => _parse_line (strip line)) (removelast lines);
    mret (List.concat found).

Definition flush : PM (list NmapProgressSnapshot) :=
  found ← for_each (fun stderr =>
    line ← reads (fun p => strip (buffer_of stderr p));
    _ ← modify (set_buffer stderr EmptyString);
    _parse_line line) [false; true];
  mret (List.concat found).

(** ** The progress of the job ([_nmap_live_callback]) *)

Record LiveCallback : Type := mkLive {
  live_stage : string;
  start_percentage : Z;
  end_percentage : Z;
  total_hosts : Z;
  port_label : option string
}.

(** [state], its times in nanoseconds. *)
Record LiveState : Type := mkLiveState {
  last_emit : Z;
  last_open : Z;
  last_percent : option float;
  last_overall : Z
}.

Definition live_start (c : LiveCallback) : LiveState := mkLiveState 0 (-1) None c.(start_percentage).

Definition nanoseconds (s : Z) : Z := s * 1000000000.

(** [start + int(span * percent / 100.0)] *)
Definition mapped_percentage (c : LiveCallback) (percent : float) : Z :=
  c.(start_percentage) +
  float_trunc (float_div (float_mul (float_of_int (Z.max 0 (c.(end_percentage) - c.(start_percentage)))) percent)
                 (float_of_int 100)).

Definition live_overall (c : LiveCallback) (st : LiveState) (s : NmapProgressSnapshot) : Z :=
  match s.(snap_percent) with
  | Some percent => Z.max st.(last_overall) (Z.min c.(end_percentage) (mapped_percentage c percent))
  | None => st.(last_overall)
  end.

Definition live_message (c : LiveCallback) (s : NmapProgressSnapshot) : string :=
  join " · "
    ("Nmap live" ::
     match s.(snap_percent) with Some p => [float_str1 p +:+ "%"] | None => [] end ++
     match s.(snap_completed) with
     | Some n => ["хостов " +:+ str_int n +:+
                  (if 0 <? c.(total_hosts) then
                     "/" +:+ str_int c.(total_hosts)
                   else EmptyString) +:+
                  match s.(snap_up) with Some up => " (" +:+ str_int up +:+ " up)" | None => EmptyString end]
     | None => []
     end ++
     match c.(port_label) with Some label => [label +:+ ": " +:+ str_int s.(snap_open_ports)] | None => [] end ++
     match s.(snap_last_port), s.(snap_last_host) with
     | Some port, Some (String h t) => ["последний " +:+ str_int port +:+ " @ " +:+ String h t]
     | _, _ => []
     end ++
     match s.(snap_remaining) with Some (String h t) => ["осталось ~" +:+ String h t] | _ => [] end).

(** One snapshot: nothing, or the new state and what is reported. *)
Definition live_step (c : LiveCallback) (now : Z) (s : NmapProgressSnapshot) (st : LiveState)
    : option (LiveState * JobProgress) :=
  let percent_changed :=
    match s.(snap_percent) with Some _ => negb (float_eqb s.(snap_percent) st.(last_percent)) | None => false end in
  let open_changed := negb (s.(snap_open_ports) =? st.(last_open)) in
  let since := now - st.(last_emit) in
  if negb (st.(last_emit) =? 0) && (since <? nanoseconds 4) && negb open_changed then None
  else if negb percent_changed && negb open_changed && (since <? nanoseconds 8) then None
  else
    let overall := live_overall c st s in
    Some (mkLiveState now s.(snap_open_ports) s.(snap_percent) overall,
          mkJobProgress overall c.(live_stage) (live_message c s)).
