(* ===== verification/NmapTheorems.v ===== *)
(** * What holds of the parsed Nmap documents and of Nmap's streamed progress *)

From S2P Require Import Prelude PyBase PyText JobModels Ip Nmap Regex NmapProgress.

(** The seconds a start time may name: the years 1 to 9999. *)
Definition start_ok (root : element) : Prop :=
  match _optional_int (attr root "start") with
  | None => True
  | Some n => -62135596800 ≤ n ≤ 253402300799
  end.

Lemma unix_time_spec value :
  match _unix_time value with
  | Return t => t = (n ← _optional_int value; Some (n * 1000000)) ∧
                match _optional_int value with None => True | Some n => -62135596800 ≤ n ≤ 253402300799 end
  | Raise e => (∀ code, e ≠ NmapParseError code) ∧
               ∃ n, _optional_int value = Some n ∧ (n < -62135596800 ∨ 253402300799 < n)
  end.
Proof.
  unfold _unix_time. destruct (_optional_int value) as [n|]; [|done]. unfold fromtimestamp.
  change (2 ^ 63) with 9223372036854775808.
  repeat match goal with
  | |- context [?a <=? ?b] => destruct (Z.leb_spec a b); cbn [andb negb]
  | |- context [?a <? ?b] => destruct (Z.ltb_spec a b); cbn [andb negb]
  end; rewrite ?bind_Return, ?bind_Raise;
    first [split; [done|lia] | split; [by intros|exists n; split; [done|lia]]].
Qed.

(** Parsing gives a document exactly for a tree whose root is nmaprun, that has the
    finished mark Nmap writes last and a start time a date can hold; the document has the
    hosts of the tree in order, each with the ports whose number is a number.  Otherwise
    the error names the first of these that fails; only a start time out of range ends in
    an error other than NmapParseError. *)
Theorem parse_nmap_xml_correct parsed :
  match parse_nmap_xml parsed with
  | Return d =>
      ∃ root stats, parsed = Some root ∧ el_tag root = "nmaprun" ∧ find "runstats" root = Some stats ∧
        find "finished" stats ≠ None ∧ start_ok root ∧ d.(finished) = true ∧
        d.(hosts) = List.map _parse_host (findall "host" root) ∧
        (∀ e p, e ∈ findall "host" root → p ∈ (_parse_host e).(ports) ↔
           ∃ ps pe n, ps ∈ findall "ports" e ∧ pe ∈ findall "port" ps ∧ int_of_str (attr_or pe "portid" "") = Some n ∧
             _parse_port pe = Some p ∧ p.(np_port) = n)
  | Raise (NmapParseError MALFORMED_XML) => parsed = None
  | Raise (NmapParseError UNSUPPORTED_OUTPUT) => ∃ root, parsed = Some root ∧ el_tag root ≠ "nmaprun"
  | Raise (NmapParseError INCOMPLETE_OUTPUT) =>
      ∃ root, parsed = Some root ∧ el_tag root = "nmaprun" ∧ (s ← find "runstats" root; find "finished" s) = None
  | Raise _ => ∃ root, parsed = Some root ∧ el_tag root = "nmaprun" ∧ ¬ start_ok root
  end.
Proof.
  unfold parse_nmap_xml. destruct parsed as [root|]; [|done].
  destruct (String.eqb_spec (el_tag root) "nmaprun") as [Htag|Htag]; cbn [negb]; [|by exists root].
  destruct (find "runstats" root) as [stats|] eqn:Hs; cbn [mbind option_bind]; [|exists root; by rewrite Hs].
  destruct (find "finished" stats) as [f|] eqn:Hf; [|exists root; rewrite Hs; cbn; by split_and!].
  pose proof (unix_time_spec (attr root "start")) as Ht. destruct (_unix_time _) as [t|e].
  - destruct Ht as [_ Hstart]. rewrite bind_Return. exists root, stats. split_and!; try done; [congruence|].
    intros e p He. cbn [ports _parse_host]. rewrite list_elem_of_In, in_flat_map.
    assert (∀ pe, _parse_port pe = (n ← int_of_str (attr_or pe "portid" ""); _parse_port pe)) as Hpp.
    { intros pe. unfold _parse_port. by destruct (int_of_str _). }
    split.
    + intros (pe & Hpe & Hp). apply in_flat_map in Hpe as (ps & Hps & Hpe). destruct (_parse_port pe) as [q|] eqn:Hq; [|done].
      destruct Hp as [->|[]]. unfold _parse_port in Hq. destruct (int_of_str _) as [n|] eqn:Hn; [|done].
      exists ps, pe, n. rewrite !list_elem_of_In. split_and!; [done|done|done| |by injection Hq as <-].
      unfold _parse_port. by rewrite Hn.
    + intros (ps & pe & n & Hps & Hpe & Hn & Hq & _). exists pe. split.
      * apply in_flat_map. exists ps. by rewrite <- !list_elem_of_In.
      * rewrite Hq. by left.
  - destruct Ht as (Hcode & n & Hn & Hr). rewrite bind_Raise. destruct e as [c| | |]; [by destruct (Hcode c)|..];
      (exists root; split_and!; [done|done|]; unfold start_ok; rewrite Hn; lia).
Qed.

(** The live targets are the IPv4 and IPv6 addresses of the hosts that are up, each
    once. *)
Theorem live_targets_correct document :
  NoDup (live_targets document) ∧
  ∀ x, x ∈ live_targets document ↔
    x ≠ "" ∧ ∃ h, h ∈ document.(hosts) ∧ h.(status) = "up" ∧ (host_ipv4 h = Some x ∨ host_ipv6 h = Some x).
Proof.
  unfold live_targets.
  set (add := fun targets (a : option string) => match a with Some (String c s) => append_new targets (String c s) | _ => targets end).
  set (of_host := fun targets h => if negb (String.eqb h.(status) "up") then targets else foldl add targets [host_ipv4 h; host_ipv6 h]).
  assert (∀ targets a, NoDup targets → NoDup (add targets a) ∧ ∀ x, x ∈ add targets a ↔ x ∈ targets ∨ (x ≠ "" ∧ a = Some x)) as Hadd.
  { intros targets [[|c s]|] Hnd; cbn [add]; [split; [done|naive_solver]| |split; [done|naive_solver]].
    split; [by apply append_new_NoDup|]. intros x. rewrite append_new_elem. naive_solver. }
  assert (∀ l targets, NoDup targets → NoDup (foldl of_host targets l) ∧
    ∀ x, x ∈ foldl of_host targets l ↔ x ∈ targets ∨ (x ≠ "" ∧ ∃ h, h ∈ l ∧ h.(status) = "up" ∧ (host_ipv4 h = Some x ∨ host_ipv6 h = Some x))) as Hgo.
  { induction l as [|h l IH]; intros targets Hnd; cbn [foldl].
    - split; [done|]. intros x. split; [by left|]. intros [?|(_ & h & ?%elem_of_nil & _)]; done.
    - unfold of_host at 2 4. destruct (String.eqb_spec h.(status) "up") as [Hup|Hup]; cbn [negb foldl].
      + destruct (Hadd targets (host_ipv4 h) Hnd) as [N1 E1], (Hadd (add targets (host_ipv4 h)) (host_ipv6 h) N1) as [N2 E2].
        destruct (IH _ N2) as [N3 E3]. split; [done|]. intros x. rewrite E3, E2, E1. setoid_rewrite elem_of_cons. naive_solver.
      + destruct (IH targets Hnd) as [N3 E3]. split; [done|]. intros x. rewrite E3. setoid_rewrite elem_of_cons. naive_solver. }
  destruct (Hgo document.(hosts) []) as [Hnd E]; [constructor|]. split; [done|].
  intros x. rewrite E, elem_of_nil. naive_solver.
Qed.

(** ** Output in pieces *)

Lemma split_on_nonempty x s : split_on x s ≠ [].
Proof. destruct s as [|c s]; cbn; [done|]. destruct (Ascii.eqb c x); [done|]. by destruct (split_on x s). Qed.

Lemma split_on_app x a b :
  split_on x (a +:+ b) = removelast (split_on x a) ++ split_on x (List.last (split_on x a) EmptyString +:+ b).
Proof.
  induction a as [|c a IH]; [done|]. rewrite app_cons_string. cbn [split_on]. destruct (Ascii.eqb c x) eqn:Hc.
  - rewrite IH. destruct (split_on x a) as [|w ws] eqn:E; [by destruct (split_on_nonempty x a)|]. done.
  - destruct (split_on x a) as [|w ws] eqn:E; [by destruct (split_on_nonempty x a)|]. rewrite IH.
    destruct ws as [|v ws]; cbn [removelast List.last app]; [|done].
    rewrite app_cons_string. cbn [split_on]. rewrite Hc. by destruct (split_on x (w +:+ b)).
Qed.

Lemma last_app_split l x s d : List.last (l ++ split_on x s) d = List.last (split_on x s) d.
Proof.
  induction l as [|y l IH]; [done|]. cbn [app List.last]. rewrite IH. destruct (l ++ split_on x s) eqn:E; [|done].
  apply app_eq_nil in E as [_ E]. by apply split_on_nonempty in E.
Qed.

(** A program that neither reads nor writes the buffers. *)
Definition apart_from_buffers {A} (m : PM A) : Prop :=
  ∀ stderr text p, m (set_buffer stderr text p) = ((m p).1, set_buffer stderr text (m p).2).

Lemma apart_ret {A} (a : A) : apart_from_buffers (mret a).
Proof. done. Qed.
Lemma apart_bind {A B} (m : PM A) (k : A → PM B) : apart_from_buffers m → (∀ a, apart_from_buffers (k a)) → apart_from_buffers (m ≫= k).
Proof.
  intros Hm Hk stderr text p. unfold mbind, prog_bind. rewrite Hm. destruct (m p) as [[a|e] p']; cbn; [apply Hk|done].
Qed.
Lemma apart_reads {A} (f : NmapProgressParser → A) : (∀ stderr text p, f (set_buffer stderr text p) = f p) → apart_from_buffers (reads f).
Proof. intros Hf stderr text p. unfold reads. cbn. by rewrite Hf. Qed.
Lemma apart_modify f : (∀ stderr text p, f (set_buffer stderr text p) = set_buffer stderr text (f p)) → apart_from_buffers (modify f : PM unit).
Proof. intros Hf stderr text p. unfold modify. cbn. by rewrite Hf. Qed.
Lemma apart_int s : apart_from_buffers (progress_int s).
Proof. intros stderr text p. unfold progress_int. by destruct (int_of_str s). Qed.
Lemma apart_if {A} (b : bool) (m m' : PM A) : apart_from_buffers m → apart_from_buffers m' → apart_from_buffers (if b then m else m').
Proof. by destruct b. Qed.
Lemma apart_match r line k : (∀ m, apart_from_buffers (k m)) → apart_from_buffers (on_match r line k).
Proof. intros Hk. unfold on_match. by destruct (re_search r line). Qed.

Create HintDb apart.
#[local] Hint Resolve apart_ret apart_bind apart_int apart_if apart_match : apart.
#[local] Hint Extern 2 (apart_from_buffers (reads _)) => apply apart_reads; by intros [] : apart.
#[local] Hint Extern 2 (apart_from_buffers (modify _)) => apply apart_modify; by intros [] : apart.

Lemma apart_line line : apart_from_buffers (_parse_line line).
Proof.
  unfold _parse_line. apply apart_if; [apply apart_ret|].
  do 5 (apply apart_bind; [unfold opened_part, percent_part, hosts_part, remaining_part, phase_part; cbv zeta; eauto 20 with apart|intros ?]).
  intros [] text p; by destruct (_ || _).
Qed.

Lemma apart_lines lines : apart_from_buffers (for_each (fun line => _parse_line (strip line)) lines).
Proof.
  induction lines as [|line lines IH]; cbn [for_each]; [apply apart_ret|]. apply apart_bind; [apply apart_line|intros x].
  apply apart_bind; [exact IH|]. intros; apply apart_ret.
Qed.

Lemma for_each_app {W E A B} (body : A → prog W E B) l1 l2 w :
  for_each body (l1 ++ l2) w = (a ← for_each body l1; b ← for_each body l2; mret (a ++ b)) w.
Proof.
  revert w. induction l1 as [|x l1 IH]; intros w; cbn [for_each app].
  - unfold mbind, prog_bind, mret, prog_ret. by destruct (for_each body l2 w) as [[?|?] ?].
  - unfold mbind, prog_bind, mret, prog_ret in *. destruct (body x w) as [[y|e] w1]; [|done]. rewrite IH.
    destruct (for_each body l1 w1) as [[ys|e] w2]; [|done]. by destruct (for_each body l2 w2) as [[zs|e] w3].
Qed.

Lemma set_buffer_twice stderr r r' p : set_buffer stderr r (set_buffer stderr r' p) = set_buffer stderr r p.
Proof. by destruct stderr. Qed.
Lemma buffer_of_set stderr r p : buffer_of stderr (set_buffer stderr r p) = r.
Proof. by destruct stderr. Qed.

(** The lines a piece completes, and what is left of it. *)
Lemma feed_lines stream chunk p :
  nonempty chunk = true →
  let stderr := String.eqb stream "stderr" in
  let lines := split_on newline (buffer_of stderr p +:+ unix_lines chunk) in
  let '(r, p') := for_each (fun line => _parse_line (strip line)) (removelast lines) p in
  feed stream chunk p = (match r with Return found => Return (List.concat found) | Raise e => Raise e end,
                         set_buffer stderr (List.last lines EmptyString) p').
Proof.
  intros Hc. cbv zeta. unfold feed. rewrite Hc. cbn [negb]. cbv zeta. unfold mbind at 1, prog_bind at 1, reads.
  unfold mbind at 1, prog_bind at 1, modify. cbv beta iota. set (lines := split_on _ _).
  unfold mbind, prog_bind. rewrite (apart_lines (removelast lines)). destruct (for_each _ _ p) as [[found|e] p']; done.
Qed.

Lemma unix_lines_app a b : unix_lines (a +:+ b) = unix_lines a +:+ unix_lines b.
Proof. unfold unix_lines. induction a as [|c a IH]; [done|]. rewrite app_cons_string. cbn [str_map]. by rewrite IH. Qed.

Lemma removelast_app_split l x s : removelast (l ++ split_on x s) = l ++ removelast (split_on x s).
Proof. apply removelast_app. apply split_on_nonempty. Qed.

Lemma feed_two stream a b p :
  match (f ← feed stream a; g ← feed stream b; mret (f ++ g)) p with
  | (Return l, p') => feed stream (a +:+ b) p = (Return l, p')
  | (Raise e, _) => (feed stream (a +:+ b) p).1 = Raise e
  end.
Proof.
  destruct (nonempty a) eqn:Ha.
  2: { destruct a; [|done]. change (feed stream "") with (mret [] : PM (list NmapProgressSnapshot)). change ("" +:+ b) with b.
       unfold mbind, prog_bind. cbn. by destruct (feed stream b p) as [[?|?] ?]. }
  destruct (nonempty b) eqn:Hb.
  2: { destruct b; [|done]. rewrite app_nil_string. change (feed stream "") with (mret [] : PM (list NmapProgressSnapshot)).
       unfold mbind, prog_bind. destruct (feed stream a p) as [[l|?] ?]; cbn; by rewrite ?app_nil_r. }
  assert (nonempty (a +:+ b) = true) as Hab by by destruct a.
  pose proof (feed_lines stream a p Ha) as Fa. pose proof (feed_lines stream (a +:+ b) p Hab) as Fab. cbv zeta in Fa, Fab.
  set (stderr := String.eqb stream "stderr") in *. set (body := fun line => _parse_line (strip line)) in *.
  rewrite unix_lines_app, <- app_assoc_string, split_on_app in Fab. set (lines := split_on newline (buffer_of stderr p +:+ unix_lines a)) in *.
  rewrite removelast_app_split, for_each_app in Fab. unfold mbind, prog_bind in Fab |- *.
  destruct (for_each body (removelast lines) p) as [[found|e] p1]; rewrite Fa.
  2: { by rewrite Fab. }
  set (r1 := List.last lines "") in *. pose proof (feed_lines stream b (set_buffer stderr r1 p1) Hb) as Fb. cbv zeta in Fb.
  change (String.eqb stream "stderr") with stderr in Fb. rewrite buffer_of_set in Fb. fold body in Fb.
  unfold body in Fb. rewrite (apart_lines _ stderr r1 p1) in Fb. fold body in Fb. unfold mret, prog_ret in *.
  destruct (for_each body _ p1) as [[more|e] p2]; cbn [fst snd] in Fb; rewrite Fb; cbv beta iota; rewrite Fab; [|done].
  rewrite set_buffer_twice, concat_app. f_equal. f_equal. by apply last_app_split.
Qed.

(** C30: However Nmap's output is cut into pieces as it is read, the snapshots taken of it are
    those of the whole, and so is what the parser remembers; it fails on the pieces exactly
    when it fails on the whole, with the same error. *)
Theorem feed_in_pieces stream pieces p :
  match for_each (feed stream) pieces p with
  | (Return found, p') => feed stream (join EmptyString pieces) p = (Return (List.concat found), p')
  | (Raise e, _) => (feed stream (join EmptyString pieces) p).1 = Raise e
  end.
Proof.
  revert p. induction pieces as [|a pieces IH]; intros p; [done|].
  assert (join "" (a :: pieces) = a +:+ join "" pieces) as -> by (destruct pieces; [by rewrite app_nil_string|done]).
  cbn [for_each]. pose proof (feed_two stream a (join "" pieces) p) as H2. unfold mbind, prog_bind in *.
  destruct (feed stream a p) as [[f|e] p1]; [|exact H2]. specialize (IH p1).
  destruct (for_each (feed stream) pieces p1) as [[found|e] p2].
  - rewrite IH in H2. exact H2.
  - destruct (feed stream (join "" pieces) p1) as [[g|e'] p3]; cbn in IH; [done|]. injection IH as ->. exact H2.
Qed.
