(* ===== verification/ProbeRun.v ===== *)
(** * Running protocol audits ([protocol_audits/execute.py], [jobs/handlers/protocol.py])

    One module against one target: look for its tool, run its commands, keep their output
    as evidence and store what the parser saw; and the job that does so for every match
    between services and modules.  The tools and the search path are the host's. *)

From S2P Require Import Prelude PyBase PyText JobModels JobStore Sha256 Ip ScopeEngine FindModels FindDates InventoryBase Inventory InventoryIngest InventoryQueries Regex ProbeModels ProbeTargets ProbeParsers ProbeModules Evidence ProbeStore.

(** ** The host and the database *)

(** What a tool answers depends on the host: the n-th run of a command; [shutil.which]; and
    whether the cancellation token is set at its n-th reading. *)
Class ToolHost : Type := {
  tool_answer : nat → ToolCommand → ToolResult;
  which : string → option string;
  token_set : nat → bool
}.

(** One database and its evidence, the tool runs so far and the progress reported. *)
Record Site : Type := mkSite {
  site_inventory : InvWorld;
  site_observations : gmap string ProtocolObservationModel;
  site_files : gmap string EvFile;
  site_io_calls : nat;
  site_runs : list ToolCommand;
  site_token_reads : nat;
  site_progress : list JobProgress
}.
#[export] Instance eta_Site : Eta Site := fun s =>
  mkSite s.(site_inventory) s.(site_observations) s.(site_files) s.(site_io_calls) s.(site_runs)
    s.(site_token_reads) s.(site_progress).

Inductive SiteExc : Type :=
  | FromInventory (e : InvExc)
  | FromEvidence (e : EvExc)
  | FromProbe (e : ProbeExc).

Abbreviation SM := (prog Site SiteExc).

(** The tables of a component inside the site, and the site after it ran. *)
Definition obs_view (s : Site) : ObsWorld :=
  let i := s.(site_inventory) in
  mkObsWorld s.(site_observations) i.(audit_ids) (dom i.(assets)) (dom i.(services))
    i.(inv_clock_reads) i.(inv_uuids_drawn).
Definition obs_put (s : Site) (w : ObsWorld) : Site :=
  s <| site_observations := w.(protocol_observations) |>
    <| site_inventory ::= (fun i => i <| inv_clock_reads := w.(obs_clock_reads) |>
                                      <| inv_uuids_drawn := w.(obs_uuids_drawn) |>) |>.

Definition ev_view (s : Site) : EvWorld :=
  let i := s.(site_inventory) in
  mkEvWorld i.(audit_ids) i.(job_ids) i.(audit_artifacts) s.(site_files) s.(site_io_calls)
    i.(inv_clock_reads) i.(inv_uuids_drawn).
Definition ev_put (s : Site) (w : EvWorld) : Site :=
  s <| site_files := w.(files) |> <| site_io_calls := w.(io_calls) |>
    <| site_inventory ::= (fun i => i <| audit_artifacts := w.(artifacts) |>
                                      <| inv_clock_reads := w.(ev_clock_reads) |>
                                      <| inv_uuids_drawn := w.(ev_uuids_drawn) |>) |>.

Definition inv_put (s : Site) (i : InvWorld) : Site := s <| site_inventory := i |>.

(** Running a component's program on its part of the site. *)
Definition on_part {W E A} (view : Site → W) (put : Site → W → Site) (exc : E → SiteExc) (m : prog W E A) : SM A :=
  fun s => let '(r, w) := m (view s) in
           (match r with Return a => Return a | Raise e => Raise (exc e) end, put s w).

Definition on_obs {A} : OM A → SM A := on_part obs_view obs_put FromProbe.
Definition on_evidence {A} : EM A → SM A := on_part ev_view ev_put FromEvidence.
Definition on_inventory {A} : IM A → SM A := on_part site_inventory inv_put FromInventory.

(** Pure code that may raise. *)
Definition pure {A} (m : PO A) : SM A :=
  match m with Return a => mret a | Raise e => raise (FromProbe e) end.

(** ** The result of a module *)

Record ModuleRun : Type := mkRun {
  run_module_name : string;
  run_protocol : string;
  run_tool : string;
  run_available : bool;
  run_skipped : bool;
  run_skip_reason : option string;
  run_observations : Z;
  run_exit_code : option Z;
  run_timed_out : bool;
  run_duration : Z;
  run_evidence : option string;
  run_metadata : dict
}.

(** [run.model_dump(mode="json")] *)
Definition run_dump (r : ModuleRun) : dict :=
  [("module", PStr r.(run_module_name)); ("protocol", PStr r.(run_protocol)); ("tool", PStr r.(run_tool));
   ("available", PBool r.(run_available)); ("skipped", PBool r.(run_skipped));
   ("skip_reason", py_opt_str r.(run_skip_reason)); ("observation_count", PInt r.(run_observations));
   ("exit_code", py_opt_int r.(run_exit_code)); ("timed_out", PBool r.(run_timed_out)); ("cancelled", PBool false);
   ("duration_seconds", PInt r.(run_duration)); ("evidence_artifact_id", py_opt_str r.(run_evidence));
   ("command_metadata", PDict r.(run_metadata))].

Definition MAX_EVIDENCE_TEXT_BYTES : Z := 262144.

(** [bytes[:n].decode("utf-8", errors="replace")]: whole characters, and one replacement
    character for a character cut in two. *)
Fixpoint clip_chars (n : Z) (l : list string) : string :=
  match l with
  | [] => EmptyString
  | c :: l => if byte_len c <=? n then c +:+ clip_chars (n - byte_len c) l
              else if n =? 0 then EmptyString
              else String (chr 239) (String (chr 191) (String (chr 189) EmptyString))
  end.

Definition _bound_text (value : string) : string :=
  if byte_len value <=? MAX_EVIDENCE_TEXT_BYTES then value
  else clip_chars MAX_EVIDENCE_TEXT_BYTES (chars value) +:+ String newline "[truncated]".

Definition _without_cancelled (drafts : list ObservationDraft) : list ObservationDraft :=
  List.filter (fun d => negb (String.eqb d.(draft_kind) "cancelled")) drafts.

Definition result_document (r : ToolResult) : pyval :=
  PDict [("exit_code", py_opt_int r.(exit_code)); ("timed_out", PBool r.(timed_out));
         ("success", PBool r.(success)); ("started_at", PStr (isoformat r.(started_at)));
         ("finished_at", PStr (isoformat r.(finished_at))); ("duration_seconds", PInt r.(duration));
         ("stdout", PStr (_bound_text r.(stdout))); ("stderr", PStr (_bound_text r.(stderr)));
         ("error_code", py_opt_str ((fun e => ToolErrorCode_value e.(tool_error_code)) <$> r.(result_error)))].

Definition evidence_document (settings : Settings) (m : ProtocolModule) (t : ProbeTarget)
    (commands : list ToolCommand) (results : list ToolResult) (version : option string) : dict :=
  [("schema", PStr "protocol-tool-output"); ("schema_version", PInt 1); ("module", PStr m.(module_name));
   ("tool", PStr (m.(tool_name) settings)); ("tool_version", py_opt_str version);
   ("asset_id", PStr t.(target_asset).(record_asset).(asset_id)); ("service_id", PStr t.(target_service).(srv_id));
   ("address", PStr t.(target_address)); ("port", PInt t.(target_port));
   ("command_metadata", PDict (command_metadata m commands)); ("results", PList (List.map result_document results))].

Section running.
Context `{Runtime, FileSystem, ToolHost}.
Context (settings : Settings).

(** [cancellation_token.cancelled] *)
Definition token_cancelled : SM bool := fun s =>
  (Return (token_set s.(site_token_reads)), s <| site_token_reads ::= S |>).

Definition ensure_not_cancelled : SM unit :=
  set ← token_cancelled;
  if (set : bool) then raise (FromProbe (JobCancelled "Protocol audit was cancelled")) else mret tt.

(** [runner.run(command, ...)] *)
Definition run_tool_command (c : ToolCommand) : SM ToolResult := fun s =>
  (Return (tool_answer (length s.(site_runs)) c), s <| site_runs ::= (fun l => l ++ [c]) |>).

(** [inspect_tool], and a gated module's own answer. *)
Definition availability (m : ProtocolModule) : SM ToolAvailability :=
  match m.(fixed_availability) with
  | Some a => mret a
  | None =>
      let tool := m.(tool_name) settings in
      match which tool with
      | None => mret (missing_tool tool)
      | Some path =>
          command ← pure (build_tool_command (mkCommand tool m.(version_args) 5 [] []));
          result ← run_tool_command command;
          pure (inspected_tool tool path result m.(min_version))
      end
  end.

(** The commands of a module, one after the other. *)
Definition run_command (c : ToolCommand) : SM ToolResult :=
  _ ← ensure_not_cancelled;
  result ← run_tool_command c;
  if result.(result_cancelled) then raise (FromProbe (JobCancelled "Protocol audit was cancelled"))
  else mret result.

Definition observed_by (audit_id : string) (m : ProtocolModule) (t : ProbeTarget) : ObservedBy :=
  mkObservedBy audit_id t.(target_asset).(record_asset).(asset_id) t.(target_service).(srv_id)
    m.(module_protocol) m.(module_name).

Definition _store_evidence (audit_id job_id : string) (m : ProtocolModule) (t : ProbeTarget)
    (commands : list ToolCommand) (results : list ToolResult) (version : option string) : SM string :=
  artifact ← on_evidence (put_json audit_id (Some job_id) "protocol_tool_output"
    (evidence_document settings m t commands results version) RETENTION_AUDIT "protocol-tool-output" 1);
  mret artifact.(artifact_id).

(** [ProtocolModuleRunner.run] *)
Definition run_module (m : ProtocolModule) (t : ProbeTarget) (audit_id job_id : string) : SM ModuleRun :=
  _ ← ensure_not_cancelled;
  a ← availability m;
  if negb a.(available) || negb a.(meets_minimum) then
    draft ← pure (unavailable_observation a.(available_tool) a.(available_message));
    persisted ← on_obs (upsert_many (observed_by audit_id m t) [draft] None);
    mret (mkRun m.(module_name) m.(module_protocol) a.(available_tool) false true
            (Some a.(available_message)) (Z.of_nat (length persisted)) None false 0 None [])
  else
    commands ← pure (m.(build_commands) t settings);
    results ← for_each run_command commands;
    drafts ← pure (m.(parse_results) results t);
    artifact ← _store_evidence audit_id job_id m t commands results a.(available_version);
    persisted ← on_obs (upsert_many (observed_by audit_id m t) (_without_cancelled drafts) (Some artifact));
    mret (mkRun m.(module_name) m.(module_protocol) a.(available_tool) true false None
            (Z.of_nat (length persisted)) (last results ≫= exit_code) (existsb timed_out results)
            (foldr Z.add 0 (List.map duration results)) (Some artifact) (command_metadata m commands)).

(** ** The job ([ProtocolAuditHandler]) *)

Definition _validation_error (code message : string) (details : dict) : SiteExc :=
  FromProbe (JobExecutionError (mkJobError code VALIDATION message "protocol_audit" false details)).

(** [context.report_progress(JobProgress(...))] *)
Definition _progress (p : Z) (stage message : string) : SM unit :=
  let progress := mkJobProgress p stage message in
  if JobProgress_valid progress then modify (fun s => s <| site_progress ::= (fun l => l ++ [progress]) |>)
  else raise (FromProbe (ProbeValidation "progress")).

(** [sorted(frozenset(...))] *)
Definition sorted_set (l : list string) : list string := sort_by str_le (foldl append_new [] l).

(** [_parameters]: the profile, which has one value, and the modules asked for. *)
Definition _parameters (registry : ModuleRegistry) (parameters : dict) : SM (option (list string)) :=
  let profile := match dict_get parameters "profile" with Some v => py_str v | None => "default" end in
  if negb (String.eqb profile "default") then
    raise (_validation_error "invalid_profile" "Protocol audit profile is invalid" [])
  else
    match get parameters "modules" with
    | PNone => mret None
    | PList (m :: ms) =>
        let allowed := foldl append_new [] (List.map py_str (m :: ms)) in
        let unknown := sort_by str_le (List.filter (fun n => negb (str_in n (default_names registry))) allowed) in
        let gated := List.filter (is_gated registry) (sort_by str_le allowed) in
        if not_empty gated then
          raise (_validation_error "module_gated" "Requested protocol modules are gated off"
                   [("modules", PList (List.map PStr gated))])
        else if not_empty unknown then
          raise (_validation_error "unknown_module" "Requested protocol modules are not available"
                   [("modules", PList (List.map PStr unknown))])
        else mret (Some allowed)
    | _ => raise (_validation_error "invalid_modules" "modules must be a non-empty list of module names" [])
    end.

(** One match: progress, then the module. *)
Definition run_work (registry : ModuleRegistry) (audit_id job_id : string) (total : Z) (iw : Z * MatchedWork)
    : SM dict :=
  let '(index, w) := iw in
  _ ← ensure_not_cancelled;
  m ← pure (get_module registry w.(work_module));
  _ ← _progress (Z.min (15 + 75 * index / total) 90) ("auditing_" +:+ m.(module_name))
        ("Auditing " +:+ m.(module_name) +:+ " on " +:+ w.(work_target).(target_address) +:+ ":" +:+
         str_int w.(work_target).(target_port));
  run ← run_module m w.(work_target) audit_id job_id;
  mret (run_dump run).

Context (vendors : OuiResolver) (read_json : option (ArtifactModel → outcome InvExc pyval)).

Definition any_asset : AssetFilter := mkAssetFilter None None None None None None.
Definition any_service : ServiceFilter := mkServiceFilter None None None None None None.

(** The scope, the assets and the services a job starts from. *)
Definition load_inventory (audit_id : string) : SM (ConfirmedScopeModel * list AssetRecord * list ServiceModel) :=
  scope ← on_inventory (latest_scope audit_id);
  match scope with
  | None => raise (_validation_error "scope_not_confirmed" "Protocol audits require a confirmed authorized scope" [])
  | Some scope =>
      assets ← on_inventory (list_assets vendors read_json audit_id 10000 0 any_asset false);
      services ← on_inventory (list_services vendors read_json audit_id 10000 0 any_service);
      match items services with
      | [] => raise (_validation_error "inventory_empty" "Protocol audits require persisted inventory services" [])
      | _ => mret (scope, items assets, items services)
      end
  end.

Definition run_unavailable (run : dict) : bool := truthy (get run "skipped") && negb (truthy (get run "available")).

Definition summary_of (registry : ModuleRegistry) (allowed : option (list string)) (work : list MatchedWork)
    (runs : list dict) (observation_count : Z) : dict :=
  let used := sorted_set (List.map work_module work) in
  let modules := match used with
                 | [] => match allowed with Some (a :: l) => a :: l | _ => default_names registry end
                 | _ => used
                 end in
  [("schema", PStr "protocol-audit-summary"); ("schema_version", PInt 1); ("profile", PStr "default");
   ("modules", PList (List.map PStr modules)); ("matched_services", PInt (Z.of_nat (length work)));
   ("module_runs", PInt (Z.of_nat (length runs))); ("observations", PInt observation_count);
   ("unavailable_tools", PList (List.map (fun r => get r "tool") (List.filter run_unavailable runs)))].

(** [execute]: the reference of the result and its summary. *)
Definition execute_audit (registry : ModuleRegistry) (audit_id job_id : string) (parameters : dict)
    : SM (string * dict) :=
  _ ← ensure_not_cancelled;
  _ ← _progress 5 "loading_inventory" "Loading inventory";
  allowed ← _parameters registry parameters;
  '(scope, assets, services) ← load_inventory audit_id;
  _ ← ensure_not_cancelled;
  _ ← _progress 12 "matching_services" "Matching services";
  work ← pure (match_work registry assets services scope allowed);
  let total := Z.max (Z.of_nat (length work)) 1 in
  runs ← for_each (run_work registry audit_id job_id total) (zip (seqZ 0 (Z.of_nat (length work))) work);
  _ ← ensure_not_cancelled;
  _ ← _progress 94 "summarizing" "Summarizing protocol observations";
  observation_count ← on_obs (count_observations audit_id);
  let summary := summary_of registry allowed work runs observation_count in
  let document :=
    [("schema", PStr "protocol-audit-result"); ("schema_version", PInt 1); ("audit_id", PStr audit_id);
     ("job_id", PStr job_id); ("profile", PStr "default"); ("confirmed_scope_id", PStr scope.(cs_id));
     ("interface", PStr scope.(cs_interface)); ("runs", PList (List.map PDict runs)); ("summary", PDict summary)] in
  artifact ← on_evidence (put_json audit_id (Some job_id) "protocol_audit_result" document RETENTION_AUDIT
    "protocol-audit-result" 1);
  mret (artifact.(artifact_id), summary ++ [("result_reference", PStr artifact.(artifact_id))]).
End running.
