(* ===== verification/Routes.v ===== *)
(** * Interfaces and routes ([engine/interfaces.py], [engine/routes.py])

    What the host knows of its network interfaces, which of them may be used, and how it
    reaches the targets of a scope.  Both ask the tool [ip] and read its JSON. *)

From S2P Require Import Prelude PyBase PyText JobModels JobStore Sha256 Ip ScopeEngine Nmap FindModels InventoryBase Inventory InventoryIngest InventoryQueries Regex ProbeModels ProbeTargets Evidence ProbeStore NmapProgress ProbeRun.

(** ** What active discovery works on *)

(** The host, besides what [ToolHost] says of it: the files of the runtime directory after
    the n-th scan and the output it streams, as (stream, text) in the order it is read;
    [time.monotonic] in nanoseconds; the files of [/sys] and [/proc] that are read. *)
Class ScanHost : Type := {
  scan_files : nat → ToolCommand → gmap string string → gmap string string;
  scan_output : nat → ToolCommand → list (string * string);
  monotonic : nat → Z;
  speed_file : string → option string;
  effective_uid : Z;
  proc_status : option string
}.

(** A scan that was run, and the files of the runtime directory before and after it. *)
Record Scan : Type := mkScan {
  scan_command : ToolCommand;
  files_before : gmap string string;
  files_after : gmap string string
}.

(** The database and evidence, the runtime directory, what the provider remembers of the
    version of its tool ([None]: not looked for yet), and the parser and callback that
    follow the scan that is running. *)
Record ActiveWorld : Type := mkActiveWorld {
  act_site : Site;
  runtime_files : gmap string string;
  scans : list Scan;
  monotonic_reads : nat;
  version_cache : option (option string);
  parser_state : NmapProgressParser;
  live_state : LiveState
}.
#[export] Instance eta_ActiveWorld : Eta ActiveWorld := fun w =>
  mkActiveWorld w.(act_site) w.(runtime_files) w.(scans) w.(monotonic_reads) w.(version_cache)
    w.(parser_state) w.(live_state).

Inductive InterfaceValidationCode : Type :=
  | DISCOVERY_FAILED | INVALID_DISCOVERY_DATA | UNKNOWN_INTERFACE | LOOPBACK_DENIED | NOT_ALLOWED | LINK_NOT_UP.
#[export] Instance InterfaceValidationCode_eq_dec : EqDecision InterfaceValidationCode.
Proof. solve_decision. Defined.

Inductive RouteValidationCode : Type :=
  | ADDRESS_FAMILY_UNAVAILABLE | ROUTE_LOOKUP_FAILED | ROUTE_DATA_INVALID | INTERFACE_MISMATCH
  | SOURCE_ADDRESS_MISSING | SOURCE_FAMILY_MISMATCH.
#[export] Instance RouteValidationCode_eq_dec : EqDecision RouteValidationCode.
Proof. solve_decision. Defined.

Definition RouteValidationCode_value (c : RouteValidationCode) : string :=
  match c with
  | ADDRESS_FAMILY_UNAVAILABLE => "address_family_unavailable"
  | ROUTE_LOOKUP_FAILED => "route_lookup_failed"
  | ROUTE_DATA_INVALID => "route_data_invalid"
  | INTERFACE_MISMATCH => "route_interface_mismatch"
  | SOURCE_ADDRESS_MISSING => "source_address_missing"
  | SOURCE_FAMILY_MISMATCH => "source_family_mismatch"
  end.

(** The exceptions of active discovery; those of the other components, of Python itself and
    of [ipaddress] among them. *)
Inductive ActiveExc : Type :=
  | FromSite (e : SiteExc)
  | InterfaceValidationError (code : InterfaceValidationCode) (message : string)
  | RouteValidationError (code : RouteValidationCode) (message : string) (details : dict)
  | ProfileConfigError (message : string)
  | ActiveParseError (e : NmapExc)
  | ActivePyExc (e : PyExc)
  | ActiveIpExc (e : IpExc).

Abbreviation AM := (prog ActiveWorld ActiveExc).

Definition on_site {A} (m : SM A) : AM A := fun w =>
  let '(r, s) := m w.(act_site) in
  (match r with Return a => Return a | Raise e => Raise (FromSite e) end, w <| act_site := s |>).

(** Pure code of Python and of [ipaddress]. *)
Definition py_pure {A} (o : outcome PyExc A) : AM A :=
  match o with Return a => mret a | Raise e => raise (ActivePyExc e) end.
Definition ip_pure {A} (o : IO A) : AM A :=
  match o with Return a => mret a | Raise e => raise (ActiveIpExc e) end.

(** [v.get(key)] on a value that may not be a dictionary *)
Definition py_get (v : pyval) (key : string) : outcome PyExc pyval :=
  match v with
  | PDict d => Return (get d key)
  | _ => Raise (PyAttributeError "object has no attribute 'get'")
  end.

(** [text in v] *)
Definition py_in (text : string) (v : pyval) : outcome PyExc bool :=
  match v with
  | PDict d => Return (str_in text (dict_keys d))
  | PList l => Return (existsb (fun x => match x with PStr s => String.eqb s text | _ => false end) l)
  | PStr s => Return (contains text s)
  | _ => Raise (PyTypeError "argument is not iterable")
  end.

(** pydantic: [str | None] and [int | None]. *)
Definition opt_str_field (field : string) (v : pyval) : outcome PyExc (option string) :=
  match v with
  | PNone => Return None
  | PStr s => Return (Some s)
  | _ => Raise (ValidationError field)
  end.
Definition opt_int_field (field : string) (v : pyval) : outcome PyExc (option Z) :=
  match v with
  | PNone => Return None
  | PInt n => Return (Some n)
  | PBool b => Return (Some (if b then 1 else 0))
  | PStr s => match int_of_str s with Some n => Return (Some n) | None => Raise (ValidationError field) end
  | _ => Raise (ValidationError field)
  end.

(** ** Interfaces *)

Record InterfaceInfo : Type := mkInterface {
  iface_name : string;
  iface_state : option string;
  iface_mac : option string;
  mtu : option Z;
  speed_mbps : option Z;
  iface_ipv4 : list string;
  iface_ipv6 : list string;
  iface_loopback : bool;
  iface_allowed : bool;
  selectable : bool;
  denial_reason : option InterfaceValidationCode;
  role_hint : option string;
  addressing : string;
  has_default_route : bool
}.

(** The settings that say which interfaces may be used. *)
Record InterfaceSettings : Type := mkInterfaceSettings {
  allowed_interfaces : list string;
  allow_loopback : bool;
  require_interface_up : bool
}.

(** The addresses of an interface as [local/prefixlen], by family, and whether one is
    dynamic. *)
Fixpoint interface_addresses (infos : list pyval) : outcome PyExc (list string * list string * bool) :=
  match infos with
  | [] => mret ([], [], false)
  | info :: rest =>
      local ← py_get info "local";
      prefix ← py_get info "prefixlen";
      '(v4, v6, dhcp) ← interface_addresses rest;
      if is_none local || is_none prefix then mret (v4, v6, dhcp)
      else
        let value := py_str local +:+ "/" +:+ py_str prefix in
        fam ← py_get info "family";
        dynamic ← py_get info "dynamic";
        match fam with
        | PStr "inet" => mret (value :: v4, v6, is_true dynamic || dhcp)
        | PStr "inet6" => mret (v4, value :: v6, dhcp)
        | _ => mret (v4, v6, dhcp)
        end
  end.

(** The metric of a route, 10^9 when it has none that is a number. *)
Definition metric_value (metric : pyval) : Z :=
  match metric with PNone => 1000000000 | v => match py_int v with Return n => n | Raise _ => 1000000000 end end.

(** The default routes among the rows, as (metric, device). *)
Fixpoint default_routes (rows : list pyval) : outcome PyExc (list (Z * string)) :=
  match rows with
  | [] => mret []
  | PDict item :: rest =>
      is_default ← match get item "dst" with
                   | PNone => mret true
                   | PStr s => mret (str_in s [""; "default"; "unspecified"; "0.0.0.0/0"])
                   | PList _ | PDict _ => Raise (PyTypeError "unhashable type")
                   | _ => mret false
                   end;
      ranked ← default_routes rest;
      let name := py_str (por (get item "dev") (PStr "")) in
      mret (if (is_default : bool) && nonempty name then (metric_value (get item "metric"), name) :: ranked
            else ranked)
  | _ :: rest => default_routes rest
  end.

(** [a <= b] on (metric, device) *)
Definition ranked_le : Z * string → Z * string → bool := rank_then fst (fun a b => str_le a.2 b.2).

Section interfaces.
Context `{Runtime, FileSystem, ToolHost, ScanHost}.
Context (settings : InterfaceSettings) (json_loads : string → string + pyval).

(** The tool [ip], for at most five seconds. *)
Definition run_ip (arguments : list string) : AM ToolResult :=
  on_site (run_tool_command (mkCommand "ip" arguments 5 [] [])).

Definition default_route_rows (payload : pyval) : outcome PyExc (list string * option string) :=
  match payload with
  | PList (first :: rest) =>
      with_ifname ← py_in "ifname" first;
      with_dst ← (if (with_ifname : bool) then py_in "dst" first else mret true);
      if (with_ifname : bool) && negb with_dst then mret ([], None)
      else
        ranked ← default_routes (first :: rest);
        mret (List.map snd ranked, snd <$> head (sort_by ranked_le ranked))
  | _ => mret ([], None)
  end.

Definition _default_route_info : AM (list string * option string) :=
  result ← run_ip ["-j"; "route"];
  if negb result.(success) then mret ([], None)
  else match json_loads result.(stdout) with
       | inl _ => mret ([], None)
       | inr payload => py_pure (default_route_rows payload)
       end.

Definition _interface_speed (name : string) : outcome PyExc (option Z) :=
  match speed_file name with
  | None => mret None
  | Some text =>
      let speed := strip text in
      if decimal speed then match int_of_str speed with
                            | Some n => mret (Some n)
                            | None => Raise (PyValueError "Exceeds the limit for integer string conversion")
                            end
      else mret None
  end.

(** Why the interface may not be used. *)
Definition denial (name : string) (is_loopback : bool) (state : pyval) : option InterfaceValidationCode :=
  if is_loopback && negb settings.(allow_loopback) then Some LOOPBACK_DENIED
  else if not_empty settings.(allowed_interfaces) && negb (str_in name settings.(allowed_interfaces)) then Some NOT_ALLOWED
  else if settings.(require_interface_up) && negb (String.eqb (upper (py_str state)) "UP") then Some LINK_NOT_UP
  else None.

Definition _normalize_interface (default_devs : list string) (primary_default : option string) (item : dict)
    : outcome PyExc InterfaceInfo :=
  let name := py_str (get item "ifname") in
  flags ← py_list (default (PList []) (dict_get item "flags"));
  let loopback := String.eqb name "lo" || str_in "LOOPBACK" (List.map (fun f => upper (py_str f)) flags) ||
                  match get item "link_type" with PStr s => String.eqb s "loopback" | _ => false end in
  let state := get item "operstate" in
  let reason := denial name loopback state in
  infos ← py_list (default (PList []) (dict_get item "addr_info"));
  '(v4, v6, dhcp) ← interface_addresses infos;
  speed ← _interface_speed name;
  state' ← opt_str_field "state" state;
  mac ← opt_str_field "mac" (get item "address");
  mtu ← opt_int_field "mtu" (get item "mtu");
  mret (mkInterface name state' mac mtu speed v4 v6 loopback (bool_decide (reason = None))
          (bool_decide (reason = None ∨ reason = Some LINK_NOT_UP)) reason
          (if loopback then None
           else if bool_decide (primary_default = Some name) then Some "management"
           else if not_empty v4 then None else Some "capture")
          (if not_empty v4 then (if (dhcp : bool) then "dhcp" else "static") else "none")
          (str_in name default_devs)).

Fixpoint normalize_all (devs : list string) (primary : option string) (payload : list pyval)
    : outcome PyExc (list InterfaceInfo) :=
  match payload with
  | [] => mret []
  | PDict item :: rest =>
      if truthy (get item "ifname") then
        info ← _normalize_interface devs primary item; infos ← normalize_all devs primary rest; mret (info :: infos)
      else normalize_all devs primary rest
  | _ :: rest => normalize_all devs primary rest
  end.

Definition discover : AM (list InterfaceInfo) :=
  result ← run_ip ["-j"; "addr"];
  if negb result.(success) then
    raise (InterfaceValidationError DISCOVERY_FAILED
             (match result.(result_error) with
              | Some e => e.(tool_error_message)
              | None => "Interface discovery failed"
              end))
  else match json_loads result.(stdout) with
       | inl message => raise (InterfaceValidationError INVALID_DISCOVERY_DATA
                                 ("iproute2 returned invalid interface JSON: " +:+ message))
       | inr (PList payload) =>
           '(devs, primary) ← _default_route_info;
           py_pure (normalize_all devs primary payload)
       | inr _ => raise (InterfaceValidationError INVALID_DISCOVERY_DATA "iproute2 interface JSON must be a list")
       end.

Definition denial_message (reason : InterfaceValidationCode) : string :=
  match reason with
  | LOOPBACK_DENIED => "Loopback interfaces are disabled by policy"
  | NOT_ALLOWED => "Interface is not in the configured allowlist"
  | _ => "Interface link state is not UP"
  end.

(** [InterfaceService.validate] *)
Definition validate_interface (name : string) : AM InterfaceInfo :=
  interfaces ← discover;
  match find_first (fun i => String.eqb i.(iface_name) name) interfaces with
  | None => raise (InterfaceValidationError UNKNOWN_INTERFACE ("Unknown network interface: " +:+ name))
  | Some i =>
      match i.(denial_reason) with
      | Some reason => raise (InterfaceValidationError reason (denial_message reason))
      | None => mret i
      end
  end.
End interfaces.

(** ** Routes *)

Record TargetRoute : Type := mkRoute {
  route_target : string;
  representative_address : string;
  route_family : Z;
  route_interface : string;
  source_address : string;
  gateway : option string;
  directly_connected : bool
}.

(** [route.model_dump(mode="json")] *)
Definition route_dump (r : TargetRoute) : dict :=
  [("target", PStr r.(route_target)); ("representative_address", PStr r.(representative_address));
   ("family", PInt r.(route_family)); ("interface", PStr r.(route_interface));
   ("source_address", PStr r.(source_address)); ("gateway", py_opt_str r.(gateway));
   ("directly_connected", PBool r.(directly_connected))].

Record ResolvedScope : Type := mkResolved {
  resolved_interface : string;
  interface_state : option string;
  vlan_subinterface : bool;
  routes : list TargetRoute
}.

(** [IPv4Interface(s).ip], [IPv6Interface(s).ip]: without its zone. *)
Definition interface_ip (ver : Z) (s : string) : IO ip_addr :=
  '(addr, mask) ← _split_addr_prefix s;
  a ← address_of_version ver addr;
  _ ← network_of_parts ver addr mask false;
  mret (mkIp ver a.(ip_int) None).

(** [ip_interface(s).ip] *)
Definition ip_interface_ip (s : string) : IO ip_addr := first_version (interface_ip 4 s) (interface_ip 6 s).

(** The addresses assigned to an interface; those that are no addresses are passed over. *)
Definition assigned_to (values : list string) : list ip_addr :=
  flat_map (fun v => match ip_interface_ip v with Return a => [a] | Raise _ => [] end) values.

(** The first and the last of [network.hosts()], which yields every address between them. *)
Definition hosts_range (n : ip_net) : Z * Z :=
  let net := n.(network_address).(ip_int) in
  let broadcast := (broadcast_address n).(ip_int) in
  if n.(prefixlen) =? net_max n then (net, net)
  else if n.(prefixlen) =? net_max n - 1 then (net, broadcast)
  else if net_version n =? 4 then (net + 1, broadcast - 1)
  else (net + 1, broadcast).

(** [next(c for c in hosts if c not in assigned)] from [candidate] on, in at most [fuel]
    turns; each turn but the last passes an address that is assigned. *)
Fixpoint first_unassigned (assigned : list ip_addr) (ver : Z) (fuel : nat) (candidate last : Z) : option Z :=
  match fuel with
  | O => None
  | S fuel =>
      if last <? candidate then None
      else if bool_decide (mkIp ver candidate None ∈ assigned) then first_unassigned assigned ver fuel (candidate + 1) last
      else Some candidate
  end.

Definition _representative_address (n : ip_net) (i : InterfaceInfo) : string :=
  if n.(prefixlen) =? net_max n then ip_str n.(network_address)
  else
    let ver := net_version n in
    let assigned := assigned_to (if ver =? 4 then i.(iface_ipv4) else i.(iface_ipv6)) in
    let '(first, last) := hosts_range n in
    match first_unassigned assigned ver (S (length assigned)) first last with
    | Some candidate => ip_str (mkIp ver candidate None)
    | None => if first <=? last then ip_str (mkIp ver first None) else ip_str n.(network_address)
    end.

(** [a in network] *)
Definition address_in (a : ip_addr) (n : ip_net) : bool :=
  in_block (net_version n) n.(network_address).(ip_int) n.(prefixlen) a.

(** [any(parsed in ip_interface(value).network for value in values)] *)
Fixpoint in_any_network (a : ip_addr) (values : list string) : IO bool :=
  match values with
  | [] => mret false
  | v :: values =>
      n ← ip_interface_network v;
      if address_in a n then mret true else in_any_network a values
  end.

Definition _belongs_to_interface_network (address : string) (i : InterfaceInfo) : IO bool :=
  parsed ← ip_address address;
  in_any_network parsed (if parsed.(version) =? 4 then i.(iface_ipv4) else i.(iface_ipv6)).

Definition _is_local_route (route : dict) : bool :=
  let flags := match por (get route "flags") (PList []) with PList l => l | _ => [] end in
  match get route "type" with PStr s => String.eqb s "local" | _ => false end ||
  str_in "local" (List.map (fun f => lower (py_str f)) flags) ||
  String.eqb (py_str (por (get route "dev") (PStr ""))) "lo".

(** [payload[0]] of a payload that has one, before [.get] is called on it. *)
Definition first_row (payload : pyval) : option pyval :=
  match payload with
  | PList l => head l
  | PStr s => PStr <$> head (chars s)
  | _ => None
  end.

(** The version of [ip_address(source)], which also takes integers. *)
Definition source_version (source : pyval) : option Z :=
  let of_int n := if (0 <=? n) && (n <? 2 ^ 32) then Some 4
                  else if (0 <=? n) && (n <? 2 ^ 128) then Some 6 else None in
  match source with
  | PStr s => match ip_address s with Return a => Some a.(version) | Raise _ => None end
  | PInt n => of_int n
  | PBool b => of_int (if b then 1 else 0)
  | _ => None
  end.

Definition str_field (field : string) (v : pyval) : outcome PyExc string :=
  match v with PStr s => Return s | _ => Raise (ValidationError field) end.

Section resolver.
Context `{Runtime, FileSystem, ToolHost, ScanHost}.
Context (settings : InterfaceSettings) (json_loads : string → string + pyval).

(** The route the tool found, when it may be used. *)
Definition accept_route (i : InterfaceInfo) (t : ScopeTarget) (representative : string) (route : dict)
    : AM TargetRoute :=
  let dev := get route "dev" in
  let source := por (get route "prefsrc") (get route "src") in
  '(dev, source) ← (if _is_local_route route then
                      belongs ← ip_pure (_belongs_to_interface_network representative i);
                      mret (if (belongs : bool) then (PStr i.(iface_name), por source (PStr representative))
                            else (dev, source))
                    else mret (dev, source));
  if negb (match dev with PStr d => String.eqb d i.(iface_name) | _ => false end) then
    raise (RouteValidationError INTERFACE_MISMATCH
             ("Route to " +:+ t.(target_value) +:+ " uses " +:+ py_str (por dev (PStr "none")) +:+
              ", not selected interface " +:+ i.(iface_name))
             [("target", PStr t.(target_value)); ("selected_interface", PStr i.(iface_name)); ("route_interface", dev)])
  else if negb (truthy source) then
    raise (RouteValidationError SOURCE_ADDRESS_MISSING
             ("Route to " +:+ t.(target_value) +:+ " has no source address") [])
  else
    match source_version source with
    | None => raise (RouteValidationError ROUTE_DATA_INVALID
                       ("Route source address is invalid: " +:+ py_str source) [])
    | Some family =>
        if negb (family =? t.(target_family)) then
          raise (RouteValidationError SOURCE_FAMILY_MISMATCH
                   ("Route source family does not match " +:+ t.(target_value)) [])
        else
          let gateway := get route "gateway" in
          connected ← (if is_none gateway then ip_pure (_belongs_to_interface_network representative i)
                       else mret false);
          source ← py_pure (str_field "source_address" source);
          gateway ← py_pure (opt_str_field "gateway" gateway);
          mret (mkRoute t.(target_value) representative t.(target_family) i.(iface_name) source gateway connected)
    end.

Definition target_network (t : ScopeTarget) : IO ip_net :=
  ip_network (if has_char slash t.(target_value) then t.(target_value)
              else t.(target_value) +:+ "/" +:+ str_int (if t.(target_family) =? 4 then 32 else 128)) true.

Definition _resolve_target (i : InterfaceInfo) (t : ScopeTarget) : AM TargetRoute :=
  network ← ip_pure (target_network t);
  let representative := _representative_address network i in
  result ← run_ip ["-j"; "-" +:+ str_int t.(target_family); "route"; "get"; representative];
  if negb result.(success) then
    raise (RouteValidationError ROUTE_LOOKUP_FAILED ("No usable route to " +:+ t.(target_value))
             [("target", PStr t.(target_value))])
  else
    let invalid := RouteValidationError ROUTE_DATA_INVALID
                     ("Route lookup returned invalid data for " +:+ t.(target_value)) [] in
    match json_loads result.(stdout) with
    | inl _ => raise invalid
    | inr payload =>
        match first_row payload with
        | None => raise invalid
        | Some (PDict route) => accept_route i t representative route
        | Some _ => raise (ActivePyExc (PyAttributeError "object has no attribute 'get'"))
        end
    end.

(** The routes of the targets in the usable families, and the refusals among them. *)
Fixpoint resolve_targets (i : InterfaceInfo) (usable : list Z) (targets : list ScopeTarget)
    : AM (list TargetRoute * list ActiveExc) :=
  match targets with
  | [] => mret ([], [])
  | t :: targets =>
      if negb (existsb (Z.eqb t.(target_family)) usable) then resolve_targets i usable targets
      else
        found ← try_except (route ← _resolve_target i t; mret (inl route))
                  (fun e => match e with RouteValidationError _ _ _ => mret (inr e) | _ => raise e end);
        '(found_routes, errors) ← resolve_targets i usable targets;
        mret (match found with
              | inl route => (route :: found_routes, errors)
              | inr e => (found_routes, e :: errors)
              end)
  end.

Definition family_unavailable (i : InterfaceInfo) (family : Z) : ActiveExc :=
  RouteValidationError ADDRESS_FAMILY_UNAVAILABLE
    ("Interface " +:+ i.(iface_name) +:+ " has no IPv" +:+ str_int family +:+ " source address")
    [("interface", PStr i.(iface_name)); ("family", PInt family)].

(** [RouteResolver.resolve] *)
Definition resolve (name : string) (scope : ValidatedScope) : AM ResolvedScope :=
  i ← validate_interface settings json_loads name;
  let has_addresses family := not_empty (if family =? 4 then i.(iface_ipv4) else i.(iface_ipv6)) in
  let usable := List.filter has_addresses scope.(address_families) in
  let missing := List.filter (fun f => negb (has_addresses f)) scope.(address_families) in
  match usable with
  | [] => raise (family_unavailable i (default 4 (head missing)))
  | _ =>
      '(found, errors) ← resolve_targets i usable scope.(scope_targets);
      match found, errors with
      | [], e :: _ => raise e
      | [], [] =>
          match missing, scope.(address_families) with
          | family :: _, _ | [], family :: _ => raise (family_unavailable i family)
          | [], [] => raise (ActivePyExc (PyLookupError "list index out of range"))
          end
      | _, _ => mret (mkResolved i.(iface_name) i.(iface_state) (has_char "."%char i.(iface_name)) found)
      end
  end.
End resolver.
