(* ===== verification/RouteTrace.v ===== *)
(** * Route tracing ([providers/route_trace.py])

    At most four traces, each to a live host of a target that is reached through a router;
    what [traceroute] and [tracepath] print is read line by line. *)

From S2P Require Import Prelude PyBase PyText JobModels JobStore Sha256 Ip ScopeEngine Nmap FindModels InventoryBase Inventory InventoryIngest InventoryQueries Regex ProbeModels ProbeTargets ProbeParsers Evidence ProbeStore NmapProgress ProbeRun Routes.

Definition _MAX_HOPS : Z := 16.
Definition _MAX_TARGETS : nat := 4.

Record RouteTraceTarget : Type := mkTraceTarget {
  trace_address : string;
  scope_target_text : string;
  trace_source : option string;
  trace_gateway : option string
}.

Definition trace_target_dump (t : RouteTraceTarget) : dict :=
  [("address", PStr t.(trace_address)); ("scope_target", PStr t.(scope_target_text));
   ("source_address", py_opt_str t.(trace_source)); ("gateway", py_opt_str t.(trace_gateway))].

(** ** Targets *)

(** The addresses among the texts. *)
Definition live_addresses_of (texts : list string) : list ip_addr :=
  flat_map (fun t => match ip_address t with Return a => [a] | Raise _ => [] end) texts.

(** [str(v or "") or None] *)
Definition text_or_none (v : pyval) : option string :=
  match py_str (por v (PStr "")) with EmptyString => None | s => Some s end.

(** [int(v or 4)] of a route's family; the routes come from [route_dump], where it is a
    number. *)
Definition route_family_of (route : dict) : Z :=
  match get route "family" with PInt n => if n =? 0 then 4 else n | _ => 4 end.

(** The network of a route, and the first live address in it. *)
Definition route_match (live : list ip_addr) (route : dict) : option (string * ip_addr) :=
  if truthy (get route "directly_connected") then None
  else
    match text_or_none (get route "target") with
    | None => None
    | Some raw =>
        match ip_network (if has_char slash raw then raw
                          else raw +:+ "/" +:+ str_int (if route_family_of route =? 4 then 32 else 128)) false with
        | Raise _ => None
        | Return n => a ← find_first (fun a => address_in a n) live; Some (raw, a)
        end
    end.

(** One route of the loop; it stops after four targets. *)
Fixpoint select_routes (live : list ip_addr) (seen : list string) (left : nat) (routes : list dict) : list RouteTraceTarget :=
  match left, routes with
  | O, _ | _, [] => []
  | S more, route :: routes =>
      match route_match live route with
      | None => select_routes live seen left routes
      | Some (raw, a) =>
          if str_in (ip_str a) seen then select_routes live seen left routes
          else mkTraceTarget (ip_str a) raw (text_or_none (get route "source_address")) (text_or_none (get route "gateway"))
                 :: select_routes live (ip_str a :: seen) more routes
      end
  end.

Definition representative_routed_targets (live : list string) (routes : list dict) : list RouteTraceTarget :=
  select_routes (live_addresses_of live) [] _MAX_TARGETS routes.

(** ** What the tools print *)

(** The number a round-trip time is read as, as a JSON value. *)
Section hops.
Context (json_float : string → pyval).

Definition silent_hop (ttl : Z) : dict :=
  [("ttl", PInt ttl); ("address", PNone); ("rtt_ms", PNone); ("responded", PBool false)].

Definition is_hex_or_colon (c : ascii) : bool := is_hex_char c || Ascii.eqb c ":"%char.

(** [((?:\d{1,3}\.){3}\d{1,3}|[0-9A-Fa-f:]{2,})] *)
Definition octet_digits : regex := RSeq R_digit (RUpTo 2 R_digit).
Definition _ADDRESS_RE : regex :=
  RGroup 1 (RAlt (RSeq (RTimes 3 (RSeq octet_digits (lit "."))) octet_digits)
                 (RSeqs [RChar is_hex_or_colon; RChar is_hex_or_colon; RStar true (RChar is_hex_or_colon)])).
Definition _RTT_RE : regex :=
  RSeqs [RGroup 1 (RSeq (RPlus R_digit) (RMaybe (RSeq (lit ".") (RPlus R_digit)))); spaces; lit "ms"].

Definition answered_hop (ttl : Z) (rest : string) : dict :=
  let address := re_search _ADDRESS_RE rest ≫= group 1 in
  let rtt := re_search _RTT_RE rest ≫= group 1 in
  [("ttl", PInt ttl); ("address", py_opt_str address);
   ("rtt_ms", match rtt with Some t => json_float t | None => PNone end);
   ("responded", PBool (truthy_str address))].

Definition _TRACEROUTE_LINE : regex :=
  RSeqs [RBegin false; RGroup 1 (RPlus R_digit); RPlus R_space; RGroup 2 (RPlus R_dot); REnd false].
Definition _TRACEPATH_LINE : regex :=
  RSeqs [RBegin false; RGroup 1 (RPlus R_digit); RMaybe (lit "?"); lit ":"; RPlus R_space; RGroup 2 (RPlus R_dot); REnd false].

(** [\bms\b] *)
Definition is_word_at (o : option ascii) : bool := match o with Some c => is_word c | None => false end.
Fixpoint has_word_ms (prev : option ascii) (s : string) : bool :=
  match s with
  | EmptyString => false
  | String c s' =>
      (negb (is_word_at prev) && match remove_prefix "ms" s with
                                 | Some EmptyString => true
                                 | Some (String d _) => negb (is_word d)
                                 | None => false
                                 end) || has_word_ms (Some c) s'
  end.

(** A line of either tool: its number and what follows, as a hop or nothing. *)
Definition read_hop (line : regex) (skip silent : string → bool) (raw : string) : outcome PyExc (list dict) :=
  match re_match line (strip raw) with
  | None => mret []
  | Some (_, m) =>
      match int_of_str (group_text 1 m) with
      | None => Raise (PyValueError "Exceeds the limit for integer string conversion")
      | Some ttl =>
          let rest := strip (group_text 2 m) in
          mret (if skip rest then [] else if silent rest then [silent_hop ttl] else [answered_hop ttl rest])
      end
  end.

Fixpoint read_hops (line : regex) (skip silent : string → bool) (lines : list string) : outcome PyExc (list dict) :=
  match lines with
  | [] => mret []
  | raw :: lines => h ← read_hop line skip silent raw; hs ← read_hops line skip silent lines; mret (h ++ hs)
  end.

Definition hop_ttl (hop : dict) : Z := match get hop "ttl" with PInt n => n | _ => 0 end.

(** By ttl: the first hop, replaced by a later one that answered if it did not. *)
Fixpoint put_hop (hop : dict) (hops : list dict) : list dict :=
  match hops with
  | [] => [hop]
  | h :: hops =>
      if hop_ttl h =? hop_ttl hop then
        (if negb (truthy (get h "responded")) && truthy (get hop "responded") then hop else h) :: hops
      else h :: put_hop hop hops
  end.
Definition _dedupe_hops (hops : list dict) : list dict :=
  sort_by (fun a b => hop_ttl a <=? hop_ttl b) (foldl (fun acc h => put_hop h acc) [] hops).

Definition _parse_traceroute (text : string) : outcome PyExc (list dict) :=
  _dedupe_hops <$> read_hops _TRACEROUTE_LINE (fun _ => false)
    (fun rest => negb (nonempty rest) || startswith rest "*") (splitlines text).

Definition _parse_tracepath (text : string) : outcome PyExc (list dict) :=
  _dedupe_hops <$> read_hops _TRACEPATH_LINE
    (fun rest => contains "LOCALHOST" rest || (contains "pmtu" (lower rest) && negb (has_word_ms None rest)))
    (fun rest => startswith rest "no reply" || startswith rest "*") (splitlines text).

(** ** Tracing *)

Context `{Runtime, FileSystem, ToolHost, ScanHost}.

Definition available_tool : option string :=
  match which "traceroute", which "tracepath" with
  | Some _, _ => Some "traceroute"
  | None, Some _ => Some "tracepath"
  | None, None => None
  end.

Definition trace_command (tool target interface : string) (ver : Z) : ToolCommand :=
  let family_arg := if ver =? 4 then "-4" else "-6" in
  mkCommand tool
    (if String.eqb tool "traceroute" then
       ["-n"; "-m"; str_int _MAX_HOPS; "-q"; "1"; "-w"; "1"; "-i"; interface; family_arg; target]
     else ["-n"; "-m"; str_int _MAX_HOPS; family_arg; target]) 22 [] [].

Definition trace_row (t : RouteTraceTarget) (more : dict) : dict :=
  [("target", PStr t.(trace_address)); ("scope_target", PStr t.(scope_target_text));
   ("source_address", py_opt_str t.(trace_source)); ("gateway", py_opt_str t.(trace_gateway))] ++ more.

(** One trace; [None] when cancellation ends the loop. *)
Definition trace_one (tool interface : string) (t : RouteTraceTarget) : AM (option dict) :=
  cancelled ← on_site token_cancelled;
  if (cancelled : bool) then mret None
  else
    a ← ip_pure (ip_address t.(trace_address));
    result ← on_site (run_tool_command (trace_command tool t.(trace_address) interface a.(version)));
    if result.(result_cancelled) then mret None
    else if negb result.(success) then
      mret (Some (trace_row t
        [("status", PStr "failed"); ("reached_target", PBool false); ("hops", PList []);
         ("error", PStr (match result.(result_error) with
                         | Some e => e.(tool_error_message)
                         | None => "route trace failed"
                         end))]))
    else
      hops ← py_pure (if String.eqb tool "traceroute" then _parse_traceroute result.(stdout)
                      else _parse_tracepath result.(stdout));
      let reached := existsb (fun h => match get h "address" with PStr s => String.eqb s t.(trace_address) | _ => false end)
                       hops in
      mret (Some (trace_row t
        [("status", PStr "completed"); ("reached_target", PBool reached); ("hops", PList (List.map PDict hops))])).

Fixpoint trace_all (tool interface : string) (targets : list RouteTraceTarget) : AM (list dict) :=
  match targets with
  | [] => mret []
  | t :: targets =>
      trace ← trace_one tool interface t;
      match trace with
      | None => mret []
      | Some d => ds ← trace_all tool interface targets; mret (d :: ds)
      end
  end.

Definition trace_document (status : string) (tool : option string) (interface : string)
    (selected : list RouteTraceTarget) (traces : list dict) (warnings : list string) : dict :=
  [("schema", PStr "route-trace-result"); ("schema_version", PInt 1); ("status", PStr status);
   ("tool", py_opt_str tool); ("interface", PStr interface); ("max_hops", PInt _MAX_HOPS);
   ("target_limit", PInt (Z.of_nat _MAX_TARGETS));
   ("targets", PList (List.map (fun t => PDict (trace_target_dump t)) selected));
   ("traces", PList (List.map PDict traces)); ("warnings", PList (List.map PStr warnings))].

Definition trace_many (targets : list RouteTraceTarget) (interface : string) : AM dict :=
  let selected := take _MAX_TARGETS targets in
  match available_tool with
  | None =>
      mret (trace_document "tool_unavailable" None interface selected []
              ["Neither traceroute nor tracepath is installed; routed topology tracing was skipped."])
  | Some tool =>
      traces ← trace_all tool interface selected;
      let warnings := if (_MAX_TARGETS <? length targets)%nat then
                        ["Route tracing was bounded to 4 representative routed targets."] else [] in
      mret (trace_document (if not_empty traces then "completed" else "no_targets") (Some tool) interface selected
              traces warnings)
  end.
End hops.
