(* ===== verification/NmapPlans.v ===== *)
(** * Scan profiles and Nmap's command lines ([engine/active_profiles.py], [engine/capabilities.py], [providers/nmap.py])

    The profiles, with the limits pydantic puts on them; what the process may do; and the
    plans of the scans, as arguments and the metadata that goes with them. *)

From S2P Require Import Prelude PyBase PyText JobModels JobStore Sha256 Ip ScopeEngine Nmap FindModels InventoryBase Inventory InventoryIngest InventoryQueries Regex ProbeModels ProbeTargets ProbeParsers Evidence ProbeStore ProbeRun Routes.

(** ** Profiles *)

(** [_ProfileDocument], and [ActiveScanProfile] with its name and time limit. *)
Record ProfileDocument : Type := mkProfileDocument {
  timing : string;
  tcp_top_ports : option Z;
  tcp_ports : option string;
  udp_ports : list Z;
  service_detection : bool;
  version_intensity : option Z;
  os_detection : bool;
  run_tcp_scan : bool;
  run_udp_scan : bool
}.

Record ActiveScanProfile : Type := mkScanProfile {
  profile_name : ActiveProfile;
  profile_document : ProfileDocument;
  profile_timeout : Z
}.

(** [_validate_ports] and the constraints of the fields. *)
Definition ports_valid (d : ProfileDocument) : bool :=
  (length d.(udp_ports) <=? 256)%nat && forallb (fun p => (1 <=? p) && (p <=? 65535)) d.(udp_ports) &&
  match d.(tcp_ports) with None => true | Some s => String.eqb s "1-65535" end.

(** [^T[0-4]$] *)
Definition timing_valid (s : string) : bool :=
  match remove_prefix "T" s with
  | Some (String c EmptyString) => (48 <=? code c) && (code c <=? 52)
  | _ => false
  end.

Definition opt_within (low high : Z) (o : option Z) : bool :=
  match o with None => true | Some n => (low <=? n) && (n <=? high) end.

Definition document_valid (d : ProfileDocument) : bool :=
  timing_valid d.(timing) && opt_within 1 65535 d.(tcp_top_ports) &&
  match d.(tcp_ports) with None => true | Some s => str_len s <=? 64 end &&
  opt_within 0 9 d.(version_intensity) && ports_valid d.

(** pydantic's lax reading of [bool] and [int]. *)
Definition bool_field (v : pyval) : option bool :=
  match v with
  | PBool b => Some b
  | PInt 0 => Some false
  | PInt 1 => Some true
  | PStr s => let s := lower s in
              if str_in s ["0"; "off"; "f"; "false"; "n"; "no"] then Some false
              else if str_in s ["1"; "on"; "t"; "true"; "y"; "yes"] then Some true else None
  | _ => None
  end.
Definition int_field (v : pyval) : option Z :=
  match v with
  | PInt n => Some n
  | PBool b => Some (if b then 1 else 0)
  | PStr s => int_of_str s
  | _ => None
  end.
Definition opt_field {A} (read : pyval → option A) (v : pyval) : option (option A) :=
  match v with PNone => Some None | _ => Some <$> read v end.
Definition text_field (v : pyval) : option string := match v with PStr s => Some s | _ => None end.
Definition ints_field (v : pyval) : option (list Z) := match v with PList l => mapM int_field l | _ => None end.

Definition profile_fields : list string :=
  ["timing"; "tcp_top_ports"; "tcp_ports"; "udp_ports"; "service_detection"; "version_intensity"; "os_detection";
   "run_tcp_scan"; "run_udp_scan"].

(** The value of a field that has a default. *)
Definition field_or {A} (d : dict) (key : string) (read : pyval → option A) (def : A) : option A :=
  match dict_get d key with Some v => read v | None => Some def end.

(** [_ProfileDocument.model_validate(v)]: no other fields, every field of its type. *)
Definition model_validate (v : pyval) : option ProfileDocument :=
  match v with
  | PDict d =>
      if negb (forallb (fun k => str_in k profile_fields) (dict_keys d)) then None
      else
        timing ← dict_get d "timing" ≫= text_field;
        top ← field_or d "tcp_top_ports" (opt_field int_field) None;
        tcp ← field_or d "tcp_ports" (opt_field text_field) None;
        udp ← field_or d "udp_ports" ints_field [];
        service ← field_or d "service_detection" bool_field false;
        intensity ← field_or d "version_intensity" (opt_field int_field) None;
        os ← field_or d "os_detection" bool_field false;
        run_tcp ← field_or d "run_tcp_scan" bool_field true;
        run_udp ← field_or d "run_udp_scan" bool_field false;
        let doc := mkProfileDocument timing top tcp udp service intensity os run_tcp run_udp in
        if document_valid doc then Some doc else None
  | _ => None
  end.

(** [document.model_dump(mode="json")] *)
Definition document_dump (d : ProfileDocument) : dict :=
  [("timing", PStr d.(timing)); ("tcp_top_ports", py_opt_int d.(tcp_top_ports));
   ("tcp_ports", py_opt_str d.(tcp_ports)); ("udp_ports", PList (List.map PInt d.(udp_ports)));
   ("service_detection", PBool d.(service_detection)); ("version_intensity", py_opt_int d.(version_intensity));
   ("os_detection", PBool d.(os_detection)); ("run_tcp_scan", PBool d.(run_tcp_scan));
   ("run_udp_scan", PBool d.(run_udp_scan))].

Definition _DEFAULTS : dict :=
  [("discovery", PDict (document_dump (mkProfileDocument "T3" (Some 100) None [] false None false false false)));
   ("standard", PDict (document_dump (mkProfileDocument "T3" (Some 1000) None
      [53; 67; 68; 69; 111; 123; 137; 161; 162; 500; 623; 1900; 4500; 5353; 5355] true (Some 5) true true true)));
   ("deep", PDict (document_dump (mkProfileDocument "T3" None (Some "1-65535")
      [7; 9; 19; 37; 49; 53; 67; 68; 69; 88; 111; 123; 135; 137; 138; 139; 161; 162; 177; 389; 427; 443; 445; 500; 514;
       520; 623; 631; 1434; 1645; 1646; 1701; 1812; 1813; 1900; 2049; 3478; 4500; 5060; 5353; 5355; 5683; 10000; 17185;
       20031] true (Some 7) true true true)))].

(** The time limits of the profiles, and the name of the program. *)
Record NmapSettings : Type := mkNmapSettings {
  nmap_binary : string;
  nmap_discovery_timeout_seconds : Z;
  nmap_standard_timeout_seconds : Z;
  nmap_deep_timeout_seconds : Z
}.

Definition timeout_by_profile (settings : NmapSettings) (p : ActiveProfile) : Z :=
  match p with
  | DISCOVERY => settings.(nmap_discovery_timeout_seconds)
  | STANDARD => settings.(nmap_standard_timeout_seconds)
  | DEEP => settings.(nmap_deep_timeout_seconds)
  end.

Section profiles.
(** The profile file: [None] when there is none, else its JSON, or why it cannot be read.
    The messages leave out the text of the exception that caused them. *)
Context (profile_file : option (option pyval)) (settings : NmapSettings).

Fixpoint validate_documents (raw : dict) : option (list (string * ProfileDocument)) :=
  match raw with
  | [] => Some []
  | (name, v) :: raw => d ← model_validate v; ds ← validate_documents raw; Some ((name, d) :: ds)
  end.

Definition _load_documents : outcome ActiveExc (list (string * ProfileDocument)) :=
  let from_raw raw :=
    if bool_decide ((list_to_set (dict_keys raw) : gset string) = list_to_set ["discovery"; "standard"; "deep"]) then
      match validate_documents raw with
      | Some documents => Return documents
      | None => Raise (ProfileConfigError "Invalid active scan profile configuration")
      end
    else Raise (ProfileConfigError "Active scan profiles must define exactly: deep, discovery, standard") in
  match profile_file with
  | None => from_raw _DEFAULTS
  | Some None => Raise (ProfileConfigError "Cannot read active scan profiles")
  | Some (Some (PDict raw)) => from_raw raw
  | Some (Some _) => Raise (ProfileConfigError "Active scan profile file must contain a JSON object")
  end.

Definition profile_for (p : ActiveProfile) : outcome ActiveExc ActiveScanProfile :=
  documents ← _load_documents;
  match dict_get documents (ActiveProfile_value p) with
  | None => Raise (ActivePyExc (PyLookupError (ActiveProfile_value p)))
  | Some d =>
      let timeout := timeout_by_profile settings p in
      if document_valid d && (0 <? timeout) then Return (mkScanProfile p d timeout)
      else Raise (ProfileConfigError ("Invalid " +:+ ActiveProfile_value p +:+ " scan profile"))
  end.

Definition profile_catalog : outcome ActiveExc (list (string * dict)) :=
  documents ← _load_documents;
  let timeout_by_name name := timeout_by_profile settings
    (if String.eqb name "discovery" then DISCOVERY else if String.eqb name "standard" then STANDARD else DEEP) in
  mret (List.map (fun '(name, d) => (name, document_dump d ++ [("timeout_seconds", PInt (timeout_by_name name))])) documents).
End profiles.

(** ** What the process may do *)

Definition CAP_NET_RAW : Z := 13.

(** The [CapEff:] line decides; a value that is no hexadecimal number is [ValueError]. *)
Fixpoint cap_eff (lines : list string) : outcome PyExc bool :=
  match lines with
  | [] => mret false
  | line :: lines =>
      match remove_prefix "CapEff:" line with
      | None => cap_eff lines
      | Some value => match int_of_hex (strip value) with
                      | Some n => mret (Z.testbit n CAP_NET_RAW)
                      | None => Raise (PyValueError "invalid literal for int() with base 16")
                      end
      end
  end.

Definition process_has_net_raw `{ScanHost} : outcome PyExc bool :=
  if effective_uid =? 0 then mret true
  else match proc_status with None => mret false | Some status => cap_eff (splitlines status) end.

Record NmapCapabilities : Type := mkCapabilities { cap_version : option string; cap_privileged : bool }.

Record NmapCommandPlan : Type := mkPlan {
  plan_args : list string;
  xml_path : string;
  target_file : string;
  scan_kind : string;
  tcp_method : string;
  host_discovery_method : string;
  plan_tcp_ports : option string;
  plan_udp_ports : option string;
  plan_service_detection : bool;
  plan_version_intensity : option Z;
  plan_os_detection : bool;
  plan_timing : string;
  plan_privileged : bool;
  skip_host_discovery : bool;
  fallbacks : list string;
  route_trace_routes : list dict
}.

(** ** Plans *)

Definition timing_arg (timing : string) : string := "-T" +:+ default timing (remove_prefix "T" timing).

(** [6 in families and 4 not in families] *)
Definition ipv6_only (scope : ValidatedScope) : bool :=
  existsb (Z.eqb 6) scope.(address_families) && negb (existsb (Z.eqb 4) scope.(address_families)).

Definition _all_directly_connected_ipv4 (resolved : ResolvedScope) (scope : ValidatedScope) : bool :=
  bool_decide (scope.(address_families) = [4]) && forallb directly_connected resolved.(routes).

Definition _all_routes_direct (resolved : ResolvedScope) : bool :=
  not_empty resolved.(routes) && forallb directly_connected resolved.(routes).

Definition _ports (ports : list Z) : string := join "," (List.map str_int ports).

(** The end of every command line: interface, output and targets. *)
Definition io_args (interface xml targets : string) : list string :=
  ["-e"; interface; "-oX"; xml; "-iL"; targets].

Definition verbose_args : list string := ["-v"; "--stats-every"; "5s"].

Definition family_args (scope : ValidatedScope) : list string := if ipv6_only scope then ["-6"] else [].

(** Arguments, method and fallbacks of a TCP scan, by what the process may do. *)
Definition tcp_args (privileged : bool) : list string := if privileged then ["-sS"] else ["--unprivileged"; "-sT"].
Definition tcp_method_of (privileged : bool) : string := if privileged then "syn" else "connect".
Definition tcp_fallbacks (privileged : bool) : list string := if privileged then [] else ["syn-to-connect"].

Definition version_args (d : ProfileDocument) : list string :=
  "-sV" :: match d.(version_intensity) with Some n => ["--version-intensity"; str_int n] | None => [] end.
Definition os_args (os : bool) : list string := if os then ["-O"; "--osscan-limit"] else [].
Definition os_fallbacks (d : ProfileDocument) (privileged : bool) : list string :=
  if d.(os_detection) && negb privileged then ["os-detection-skipped-unprivileged"] else [].

(** The timing and retries of the passes of a deep scan. *)
Definition local_timing (resolved : ResolvedScope) (p : ActiveScanProfile) : string :=
  if _all_routes_direct resolved then "T4" else p.(profile_document).(timing).
Definition local_retries (resolved : ResolvedScope) : string := if _all_routes_direct resolved then "1" else "2".

Section plans.
Context (scope : ValidatedScope) (resolved : ResolvedScope) (profile : ActiveScanProfile).
Context (xml targets : string) (privileged : bool).

(** Arguments and method of host discovery. *)
Definition host_probes : list string * string :=
  let '(probes, method) :=
    if ipv6_only scope then (["-PR"], "ipv6-neighbor-discovery")
    else if _all_directly_connected_ipv4 resolved scope then (["-PR"], "arp")
    else if existsb directly_connected resolved.(routes) then
      (["-PE"; "-PP"; "-PS22,80,443"; "-PR"], "arp-icmp-tcp")
    else (["-PE"; "-PP"; "-PS22,80,443"], "icmp-and-tcp-probes") in
  if privileged then
    (probes, if existsb (Z.eqb 6) scope.(address_families) && negb (ipv6_only scope) then method +:+ "+ipv6-nd" else method)
  else (["--unprivileged"; "-PS22,80,443"], if ipv6_only scope then "ipv6-tcp-probes" else "tcp-connect-probes").

Definition host_discovery_plan : NmapCommandPlan :=
  let d := profile.(profile_document) in
  let '(probes, method) := host_probes in
  mkPlan (["-n"; timing_arg d.(timing); "-sn"] ++ verbose_args ++ family_args scope ++ probes ++
          io_args resolved.(resolved_interface) xml targets)
    xml targets "host_discovery" "none" method None None false None false d.(timing) privileged false
    (if privileged then [] else ["unprivileged-host-discovery"])
    (match profile.(profile_name) with
     | DISCOVERY => []
     | _ => List.map route_dump (List.filter (fun r => negb r.(directly_connected)) resolved.(routes))
     end).

Definition tcp_scan_plan : NmapCommandPlan :=
  let d := profile.(profile_document) in
  let '(port_args, ports) :=
    match d.(tcp_ports), d.(tcp_top_ports) with
    | Some (String c s), _ => (["-p"; String c s], Some (String c s))
    | _, Some n => if n =? 0 then ([], None) else (["--top-ports"; str_int n], Some ("top-" +:+ str_int n))
    | _, None => ([], None)
    end in
  let os := d.(os_detection) && privileged in
  mkPlan (["-n"; timing_arg d.(timing); "-Pn"] ++ verbose_args ++ family_args scope ++ tcp_args privileged ++ port_args ++
          (if d.(service_detection) then version_args d else []) ++ os_args os ++ ["--max-retries"; "2"] ++
          io_args resolved.(resolved_interface) xml targets)
    xml targets "tcp_scan" (tcp_method_of privileged) "none" ports None d.(service_detection) d.(version_intensity) os
    d.(timing) privileged true (tcp_fallbacks privileged ++ os_fallbacks d privileged) [].

Definition tcp_sweep_plan : NmapCommandPlan :=
  let d := profile.(profile_document) in
  let timing := local_timing resolved profile in
  let ports := match d.(tcp_ports) with Some (String c s) => String c s | _ => "1-65535" end in
  mkPlan (["-n"; timing_arg timing; "-Pn"] ++ verbose_args ++ family_args scope ++ tcp_args privileged ++
          ["-p"; ports; "--open"; "--max-retries"; local_retries resolved] ++
          io_args resolved.(resolved_interface) xml targets)
    xml targets "tcp_sweep" (tcp_method_of privileged) "none" (Some ports) None false None false timing privileged true
    (tcp_fallbacks privileged) [].

(** [sorted(set(ports))] *)
Definition sorted_ports (ports : list Z) : list Z := sort_by Z.leb (remove_dups ports).

(** [None] when there are no ports. *)
Definition tcp_fingerprint_plan (ports : list Z) : option NmapCommandPlan :=
  match ports with
  | [] => None
  | _ =>
      let d := profile.(profile_document) in
      let timing := local_timing resolved profile in
      let port_text := _ports (sorted_ports ports) in
      let os := d.(os_detection) && privileged in
      Some (mkPlan (["-n"; timing_arg timing; "-Pn"] ++ verbose_args ++ family_args scope ++ tcp_args privileged ++
              ["-p"; port_text; "--open"] ++ (if d.(service_detection) then version_args d else []) ++ os_args os ++
              ["--max-retries"; local_retries resolved] ++ io_args resolved.(resolved_interface) xml targets)
        xml targets "tcp_fingerprint" (tcp_method_of privileged) "none" (Some port_text) None d.(service_detection)
        d.(version_intensity) os timing privileged true (tcp_fallbacks privileged ++ os_fallbacks d privileged) [])
  end.

Definition is_deep : bool := bool_decide (profile.(profile_name) = DEEP).

(** [None] when the profile scans no UDP; without the privilege a plan that runs nothing. *)
Definition udp_scan_plan : option NmapCommandPlan :=
  let d := profile.(profile_document) in
  if negb d.(run_udp_scan) || negb (not_empty d.(udp_ports)) then None
  else if negb privileged then
    Some (mkPlan [] xml targets "udp_scan_skipped" "none" "none" None (Some (_ports d.(udp_ports))) false None false
            d.(timing) false true ["udp-skipped-unprivileged"] [])
  else
    let timing := if is_deep && _all_routes_direct resolved then "T4" else d.(timing) in
    let service := d.(service_detection) && is_deep in
    Some (mkPlan (["-n"; timing_arg timing; "-Pn"; "-sU"] ++ verbose_args ++ family_args scope ++
            (if service then version_args d else []) ++ ["-p"; _ports d.(udp_ports); "--max-retries"; "1"] ++
            io_args resolved.(resolved_interface) xml targets)
      xml targets "udp_scan" "none" "none" None (Some (_ports d.(udp_ports))) service
      (if is_deep then d.(version_intensity) else None) false timing true true [] []).
End plans.

(** ** What a report says is open *)

Definition is_open_tcp (p : NmapPort) : bool :=
  String.eqb p.(np_protocol) "tcp" && String.eqb p.(np_state) "open".

Definition is_up (h : NmapHost) : bool := String.eqb h.(status) "up".

Definition open_tcp_ports (document : option NmapScanDocument) : list Z :=
  match document with
  | None => []
  | Some d => sorted_ports (flat_map (fun h => if is_up h then List.map np_port (List.filter is_open_tcp h.(Nmap.ports)) else [])
                             d.(hosts))
  end.

(** The addresses of a host that are not empty. *)
Definition host_targets (h : NmapHost) : list string :=
  flat_map (fun a => match a with Some (String c s) => [String c s] | _ => [] end) [host_ipv4 h; host_ipv6 h].

Definition targets_with_open_tcp (document : option NmapScanDocument) : list string :=
  match document with
  | None => []
  | Some d => foldl append_new [] (flat_map (fun h => if is_up h && existsb is_open_tcp h.(Nmap.ports) then host_targets h else [])
                                     d.(hosts))
  end.

(** ** The provider's version and capabilities *)

(** The third word of the first line that begins so, ignoring case, and has one. *)
Fixpoint version_of_lines (lines : list string) : option string :=
  match lines with
  | [] => None
  | line :: lines =>
      if startswith (lower line) "nmap version" then
        match split_ws line with
        | _ :: _ :: v :: _ => Some v
        | _ => version_of_lines lines
        end
      else version_of_lines lines
  end.

Section provider.
Context `{Runtime, FileSystem, ToolHost, ScanHost}.
Context (settings : NmapSettings).

Definition _version : AM (option string) :=
  cached ← reads version_cache;
  match cached with
  | Some v => mret v
  | None =>
      version ← (match which settings.(nmap_binary) with
                 | None => mret None
                 | Some _ =>
                     command ← on_site (pure (build_tool_command (mkCommand settings.(nmap_binary) ["--version"] 5 [] [])));
                     result ← on_site (run_tool_command command);
                     mret (if result.(success) then version_of_lines (splitlines result.(stdout)) else None)
                 end);
      _ ← modify (fun w => w <| version_cache := Some version |>);
      mret version
  end.

Definition capabilities : AM NmapCapabilities :=
  privileged ← py_pure process_has_net_raw;
  version ← _version;
  mret (mkCapabilities version privileged).

(** Each plan asks for the capabilities first. *)
Definition with_capabilities {A} (plan : bool → A) : AM A :=
  c ← capabilities; mret (plan c.(cap_privileged)).
End provider.
