(* ===== verification/ActiveRun.v ===== *)
(** * Active discovery ([providers/nmap.py], [jobs/handlers/active.py])

    Running a plan: the scan, the progress it streams, its report and the evidence kept of
    it; and the job that discovers hosts in a confirmed scope, scans those that are up and
    takes in what was found. *)

From S2P Require Import Prelude PyBase PyText JobModels JobStore Sha256 Ip ScopeEngine Nmap FindModels FindDates InventoryBase Inventory InventoryIngest InventoryQueries Regex ProbeModels ProbeTargets ProbeParsers Evidence ProbeStore NmapProgress ProbeRun Routes RouteTrace NmapPlans.

(** [NmapRun] *)
Record NmapRun : Type := mkNmapRun {
  nmap_plan : NmapCommandPlan;
  nmap_result : ToolResult;
  nmap_document : option NmapScanDocument;
  xml_artifact_id : option string;
  xml_sha256 : option string
}.

(** The settings the job reads. *)
Record DiscoverySettings : Type := mkDiscoverySettings {
  scope_settings : ActiveSettings;
  interface_settings : InterfaceSettings;
  nmap_settings : NmapSettings;
  nmap_runtime_dir : string
}.

Definition NmapParseCode_value (c : NmapParseCode) : string :=
  match c with
  | MALFORMED_XML => "malformed_xml"
  | UNSUPPORTED_OUTPUT => "unsupported_output"
  | INCOMPLETE_OUTPUT => "incomplete_output"
  end.

Definition job_error (e : JobError) : ActiveExc := FromSite (FromProbe (JobExecutionError e)).
Definition job_cancelled : ActiveExc := FromSite (FromProbe (JobCancelled "Active discovery was cancelled")).

Definition error_category (c : ToolErrorCode) : ErrorCategory :=
  match c with
  | MISSING_BINARY => TOOL_MISSING
  | PERMISSION_DENIED => PERMISSION
  | TOOL_TIMEOUT => TIMEOUT
  | TOOL_CANCELLED => CATEGORY_CANCELLED
  | _ => INTERNAL
  end.

Definition _tool_error (r : ToolResult) : ActiveExc :=
  let details := [("exit_code", py_opt_int r.(exit_code))] in
  match r.(result_error) with
  | Some e => job_error (mkJobError (ToolErrorCode_value e.(tool_error_code)) (error_category e.(tool_error_code))
                           e.(tool_error_message) "nmap_provider" e.(tool_error_retryable) details)
  | None => job_error (mkJobError "non_zero_exit" INTERNAL "Nmap scan failed" "nmap_provider" false details)
  end.

Definition parse_error (code : NmapParseCode) (message : string) : ActiveExc :=
  job_error (mkJobError (NmapParseCode_value code) PARSE message "nmap_parser" false []).

Section active.
Context `{Runtime, FileSystem, ToolHost, ScanHost}.
Context (settings : DiscoverySettings) (vendors : OuiResolver).
Context (read_json : option (ArtifactModel → outcome InvExc pyval)).
(** [json.loads] and [ElementTree.fromstring], with the message of what they raise; the
    number of a decimal as a JSON value. *)
Context (json_loads : string → string + pyval) (parse_xml : string → string + element) (json_float : string → pyval).
Context (profile_file : option (option pyval)) (set_order : list ip_net → list ip_net).
Context (audit_id job_id : string).

(** ** Files of the runtime directory *)

(** One call of the operating system. *)
Definition io_step : AM unit := on_site (on_evidence io_nothing).
Definition put_runtime_file (path content : string) : AM unit :=
  modify (fun w => w <| runtime_files ::= insert path content |>).
Definition unlink_runtime_file (path : string) : AM unit :=
  _ ← io_step; modify (fun w => w <| runtime_files ::= delete path |>).

(** ["\n".join(targets) + "\n"] *)
Definition target_text (targets : list string) : string :=
  join (String newline EmptyString) targets +:+ String newline EmptyString.

Definition write_target_file (targets : list string) (directory : string) : AM string :=
  _ ← io_step;
  unique ← on_site (on_evidence ev_uuid);
  let path := directory +:+ "/targets-" +:+ unique +:+ ".txt" in
  _ ← io_step;
  _ ← put_runtime_file path EmptyString;
  _ ← io_step;
  _ ← put_runtime_file path (target_text targets);
  _ ← io_step;
  mret path.

(** ** Running a scan *)

Definition run_scan (c : ToolCommand) : AM ToolResult := fun w =>
  let before := w.(runtime_files) in
  let after := scan_files (length w.(scans)) c before in
  let '(r, w') := on_site (run_tool_command c) w in
  (r, w' <| runtime_files := after |> <| scans ::= (fun l => l ++ [mkScan c before after]) |>).

Definition on_parser {A} (m : PM A) : AM A := fun w =>
  let '(r, p) := m w.(parser_state) in
  (match r with Return a => Return a | Raise e => Raise (ActivePyExc e) end, w <| parser_state := p |>).

Definition read_monotonic : AM Z := fun w =>
  (Return (monotonic w.(monotonic_reads)), w <| monotonic_reads ::= S |>).

(** The callback of a snapshot; its state is set before it reports. *)
Definition report (callback : LiveCallback) (s : NmapProgressSnapshot) : AM unit :=
  cancelled ← on_site token_cancelled;
  if (cancelled : bool) then mret tt
  else
    now ← read_monotonic;
    st ← reads live_state;
    match live_step callback now s st with
    | None => mret tt
    | Some (st', p) =>
        _ ← modify (fun w => w <| live_state := st' |>);
        on_site (_progress p.(percentage) p.(prog_stage) p.(prog_message))
    end.

(** A piece of output; what its callback raises is dropped. *)
Definition stream_chunk (callback : LiveCallback) (piece : string * string) : AM unit :=
  try_except (snapshots ← on_parser (feed piece.1 piece.2); _ ← for_each (report callback) snapshots; mret tt)
    (fun _ => mret tt).

(** The scan with its callbacks, and what the parser has left at its end. *)
Definition run_streaming (callback : LiveCallback) (c : ToolCommand) : AM ToolResult :=
  _ ← modify (fun w => w <| parser_state := new_parser |> <| live_state := live_start callback |>);
  n ← reads (fun w => length w.(scans));
  result ← run_scan c;
  _ ← for_each (stream_chunk callback) (scan_output n c);
  snapshots ← on_parser flush;
  _ ← for_each (report callback) snapshots;
  mret result.

(** [parse_nmap_xml(xml_path)] as [run_plan] calls it. *)
Definition read_report (path text : string) : AM NmapScanDocument :=
  readable ← try_except (_ ← io_step; mret None)
    (fun e => match e with
              | FromSite (FromEvidence (EvOSError message)) => mret (Some message)
              | e => raise e
              end);
  let fail code message := _ ← unlink_runtime_file path; raise (parse_error code message) in
  match readable with
  | Some message => fail INCOMPLETE_OUTPUT ("Could not read Nmap XML: " +:+ message)
  | None =>
      match parse_xml text with
      | inl message => fail MALFORMED_XML ("Nmap XML is malformed: " +:+ message)
      | inr root =>
          match parse_nmap_xml (Some root) with
          | Return d => mret d
          | Raise (NmapParseError UNSUPPORTED_OUTPUT) =>
              fail UNSUPPORTED_OUTPUT ("Unsupported Nmap XML root element: " +:+ el_tag root)
          | Raise (NmapParseError code) => fail code "Nmap XML is missing runstats/finished"
          | Raise e => raise (ActiveParseError e)
          end
      end
  end.

Definition _persist_route_trace_if_needed (plan : NmapCommandPlan) (document : NmapScanDocument) : AM unit :=
  match plan.(route_trace_routes) with
  | [] => mret tt
  | first :: _ as routes =>
      if negb (String.eqb plan.(scan_kind) "host_discovery") then mret tt
      else
        match representative_routed_targets (live_targets document) routes with
        | [] => mret tt
        | targets =>
            result ← trace_many json_float targets (py_str (por (get first "interface") (PStr "")));
            _ ← on_site (on_evidence (put_json audit_id (Some job_id) "route_trace_result" result RETENTION_AUDIT
                                        "route-trace-result" 1));
            mret tt
        end
  end.

(** The report a scan left, its evidence and the traces that follow it. *)
Definition take_report (plan : NmapCommandPlan) (result : ToolResult) : AM NmapRun :=
  found ← reads (fun w => w.(runtime_files) !! plan.(xml_path));
  match found with
  | None => mret (mkNmapRun plan result None None None)
  | Some text =>
      document ← read_report plan.(xml_path) text;
      artifact ← on_site (on_evidence (import_file audit_id (Some job_id) "nmap_xml" (Some (encode text))
                                         "application/xml" ".xml" RETENTION_AUDIT));
      _ ← _persist_route_trace_if_needed plan document;
      _ ← unlink_runtime_file plan.(xml_path);
      mret (mkNmapRun plan result (Some document) (Some artifact.(artifact_id)) (Some artifact.(artifact_sha256)))
  end.

Definition nmap_environment : list (string * string) := [("LC_ALL", "C")].

(** [run_plan]; a plan without arguments runs nothing. *)
Definition run_plan (plan : NmapCommandPlan) (timeout : Z) (callback : LiveCallback) : AM NmapRun :=
  let binary := settings.(nmap_settings).(nmap_binary) in
  match plan.(plan_args) with
  | [] =>
      now ← on_site (on_evidence ev_now);
      mret (mkNmapRun plan (mkToolResult [binary] binary (Some 0) "" "" now now 0 false false true None) None None None)
  | arguments =>
      _ ← io_step;
      command ← on_site (pure (build_tool_command (mkCommand binary arguments timeout nmap_environment [])));
      result ← run_streaming callback command;
      if result.(result_cancelled) then
        _ ← unlink_runtime_file plan.(xml_path); raise job_cancelled
      else if negb result.(success) then
        _ ← unlink_runtime_file plan.(xml_path); raise (_tool_error result)
      else take_report plan result
  end.

(** ** The job *)

Definition ensure_active : AM unit :=
  cancelled ← on_site token_cancelled;
  if (cancelled : bool) then raise job_cancelled else mret tt.

Definition progress (p : Z) (stage message : string) : AM unit := on_site (_progress p stage message).

Definition _execute_plan (plan : NmapCommandPlan) (timeout : Z) (callback : LiveCallback) : AM NmapRun :=
  _ ← ensure_active; run_plan plan timeout callback.

Definition validation_error (component code message : string) (details : dict) : ActiveExc :=
  job_error (mkJobError code VALIDATION message component false details).

(** The counts are keyed by the number of the family, the limits by its name. *)
Definition per_family (v4 v6 : string) (p : PerFamily) : pyval := PDict [(v4, PInt p.(ipv4)); (v6, PInt p.(ipv6))].
Definition limit_details (o : option LimitDetails) : dict :=
  match o with
  | None => []
  | Some d => [("address_count", PInt d.(detail_address_count)); ("family_counts", per_family "4" "6" d.(family_counts));
               ("limits", per_family "ipv4" "ipv6" d.(detail_limits)); ("profile", PStr d.(detail_profile))]
  end.

(** [ActiveProfile(text)] *)
Definition profile_of (text : string) : option ActiveProfile :=
  find_first (fun p => String.eqb (ActiveProfile_value p) text) [DISCOVERY; STANDARD; DEEP].

Definition _load_scope (parameters : dict) : AM (ActiveProfile * ValidatedScope * ConfirmedScopeModel) :=
  let refuse := validation_error "scope_validator" in
  match profile_of (py_str (default (PStr "standard") (dict_get parameters "profile"))) with
  | None => raise (refuse "invalid_profile" "Active discovery profile is invalid" [])
  | Some profile =>
      match get parameters "scope" with
      | PList (t :: targets) =>
          match validate settings.(scope_settings) set_order (List.map py_str (t :: targets)) profile with
          | Raise e => raise (refuse (ScopeValidationCode_value e.(scope_code)) e.(scope_message)
                                (limit_details e.(scope_details)))
          | Return scope =>
              let id := get parameters "confirmed_scope_id" in
              confirmed ← (if truthy id then on_site (on_inventory (get_scope (py_str id))) else mret None);
              match confirmed with
              | None => raise (refuse "scope_not_confirmed" "Active discovery requires a confirmed authorized scope" [])
              | Some confirmed =>
                  if bool_decide (confirmed.(cs_targets) = scope.(canonical_targets)) &&
                     bool_decide (confirmed.(cs_profile) = profile) &&
                     String.eqb confirmed.(cs_interface) (py_str (por (get parameters "interface") (PStr ""))) then
                    mret (profile, scope, confirmed)
                  else raise (refuse "scope_snapshot_mismatch"
                                "Job parameters do not match the confirmed scope snapshot" [])
              end
          end
      | _ => raise (refuse "empty_scope" "Active discovery requires a confirmed scope" [])
      end
  end.

(** [_arg_value] *)
Fixpoint _arg_value (args : list string) (flag : string) : option string :=
  match args with
  | [] => None
  | a :: args => if String.eqb a flag then head args else _arg_value args flag
  end.

Definition _run_metadata (run : NmapRun) : AM dict :=
  c ← capabilities settings.(nmap_settings);
  let plan := run.(nmap_plan) in
  mret [("tool", PStr settings.(nmap_settings).(nmap_binary)); ("tool_version", py_opt_str c.(cap_version));
        ("scan_kind", PStr plan.(scan_kind)); ("scan_method", PStr plan.(tcp_method));
        ("host_discovery_method", PStr plan.(host_discovery_method)); ("profile_timing", PStr plan.(plan_timing));
        ("interface", py_opt_str (_arg_value plan.(plan_args) "-e"));
        ("started_at", PStr (isoformat run.(nmap_result).(started_at)));
        ("finished_at", PStr (isoformat run.(nmap_result).(finished_at)));
        ("exit_code", py_opt_int run.(nmap_result).(exit_code)); ("artifact_id", py_opt_str run.(xml_artifact_id));
        ("sha256", py_opt_str run.(xml_sha256)); ("tcp_ports", py_opt_str plan.(plan_tcp_ports));
        ("udp_ports", py_opt_str plan.(plan_udp_ports)); ("service_detection", PBool plan.(plan_service_detection));
        ("os_detection", PBool plan.(plan_os_detection)); ("fallbacks", strings plan.(fallbacks));
        ("command_metadata", PDict [("arg_count", PInt (Z.of_nat (length plan.(plan_args))));
                                    ("skip_host_discovery", PBool plan.(skip_host_discovery));
                                    ("privileged", PBool plan.(plan_privileged))])].

(** The lists a job builds up: the metadata of its runs, and its fallbacks. *)
Record Ledger : Type := mkLedger { ledger_runs : list dict; ledger_fallbacks : list string }.
Definition add_run (run : dict) (fallbacks : list string) (l : Ledger) : Ledger :=
  mkLedger (l.(ledger_runs) ++ [run]) (l.(ledger_fallbacks) ++ fallbacks).

Definition ingest_run (run : NmapRun) (persist_singletons : bool) : AM Z :=
  match run.(nmap_document) with
  | None => mret 0
  | Some d => on_site (on_inventory (ingest_nmap_document vendors audit_id (Some job_id) d "nmap" run.(xml_artifact_id)
                                       persist_singletons))
  end.

(** A scan after host discovery: run, noted, taken in. *)
Definition scan_and_ingest (plan : NmapCommandPlan) (timeout : Z) (callback : LiveCallback) (l : Ledger)
    : AM (NmapRun * Ledger) :=
  run ← _execute_plan plan timeout callback;
  metadata ← _run_metadata run;
  _ ← ingest_run run false;
  mret (run, add_run metadata run.(nmap_plan).(fallbacks) l).

Section scope.
Context (scope : ValidatedScope) (resolved : ResolvedScope) (profile : ActiveScanProfile) (runtime_dir : string).

Definition total (targets : list string) : Z := Z.of_nat (length targets).
Definition plan_of {A} (plan : bool → A) : AM A := with_capabilities settings.(nmap_settings) plan.
Definition xml_file (name : string) : string := runtime_dir +:+ "/" +:+ name.

Definition _run_single_tcp (targets : list string) (l : Ledger) : AM (NmapCommandPlan * Ledger) :=
  _ ← progress 35 "scanning_tcp" "Scanning TCP services";
  file ← write_target_file targets runtime_dir;
  plan ← plan_of (tcp_scan_plan scope resolved profile (xml_file "tcp-scan.xml") file);
  '(_, l) ← scan_and_ingest plan profile.(profile_timeout)
    (mkLive "scanning_tcp" 35 69 (total targets) (Some "open TCP")) l;
  _ ← progress 70 "fingerprinting_services" "Fingerprinting services";
  mret (plan, l).

Definition _run_deep_tcp (targets : list string) (l : Ledger)
    : AM (NmapCommandPlan * option NmapCommandPlan * list Z * Ledger) :=
  _ ← progress 35 "scanning_tcp" "Deep TCP full-range sweep";
  file ← write_target_file targets runtime_dir;
  sweep ← plan_of (tcp_sweep_plan scope resolved profile (xml_file "tcp-sweep.xml") file);
  '(run, l) ← scan_and_ingest sweep profile.(profile_timeout)
    (mkLive "scanning_tcp" 35 60 (total targets) (Some "open TCP")) l;
  let open := open_tcp_ports run.(nmap_document) in
  let fingerprint_targets := targets_with_open_tcp run.(nmap_document) in
  _ ← progress 61 "tcp_ports_discovered" (str_int (Z.of_nat (length open)) +:+ " unique open TCP ports discovered");
  if negb (not_empty open) || negb (not_empty fingerprint_targets) then
    _ ← progress 79 "fingerprinting_services" "No open TCP ports require fingerprinting";
    mret (sweep, None, open, l)
  else
    _ ← ensure_active;
    _ ← progress 62 "fingerprinting_services"
          ("Fingerprinting " +:+ str_int (Z.of_nat (length open)) +:+ " open TCP ports");
    file ← write_target_file fingerprint_targets runtime_dir;
    plan ← plan_of (fun privileged => tcp_fingerprint_plan scope resolved profile (xml_file "tcp-fingerprint.xml") file
                                        privileged open);
    match plan with
    | None => mret (sweep, None, open, l)
    | Some plan =>
        '(_, l) ← scan_and_ingest plan profile.(profile_timeout)
          (mkLive "fingerprinting_services" 62 79 (total fingerprint_targets) (Some "open TCP")) l;
        mret (sweep, Some plan, open, l)
    end.

Definition _run_udp (targets : list string) (l : Ledger) : AM (option NmapCommandPlan * Ledger) :=
  _ ← ensure_active;
  _ ← progress 82 "udp_discovery" "Selected UDP discovery";
  file ← write_target_file targets runtime_dir;
  plan ← plan_of (udp_scan_plan scope resolved profile (xml_file "udp-scan.xml") file);
  match plan with
  | None => mret (None, l)
  | Some plan =>
      match plan.(plan_args) with
      | [] => mret (Some plan, add_run [("scan_kind", PStr plan.(scan_kind)); ("fallbacks", strings plan.(fallbacks));
                                        ("udp_ports", py_opt_str plan.(plan_udp_ports))] plan.(fallbacks) l)
      | _ =>
          '(_, l) ← scan_and_ingest plan profile.(profile_timeout)
            (mkLive "udp_discovery" 82 89 (total targets) (Some "open UDP")) l;
          mret (Some plan, l)
      end
  end.

(** The TCP part of a job, by its profile. *)
Definition run_tcp (targets : list string) (l : Ledger)
    : AM (option NmapCommandPlan * option NmapCommandPlan * list Z * Ledger) :=
  if negb profile.(profile_document).(run_tcp_scan) || negb (not_empty targets) then mret (None, None, [], l)
  else
    _ ← ensure_active;
    match profile.(profile_name) with
    | DEEP => '(sweep, fingerprint, open, l) ← _run_deep_tcp targets l; mret (Some sweep, fingerprint, open, l)
    | _ => '(plan, l) ← _run_single_tcp targets l; mret (Some plan, None, [], l)
    end.

Definition run_udp (targets : list string) (l : Ledger) : AM (option NmapCommandPlan * Ledger) :=
  if negb profile.(profile_document).(run_udp_scan) || negb (not_empty targets) then mret (None, l)
  else _run_udp targets l.

(** Host discovery over the whole scope. *)
Definition discover_hosts : AM (NmapRun * dict * Z) :=
  _ ← ensure_active;
  _ ← progress 15 "discovering_hosts" "Discovering hosts";
  file ← write_target_file scope.(canonical_targets) runtime_dir;
  plan ← plan_of (host_discovery_plan scope resolved profile (xml_file "host-discovery.xml") file);
  run ← _execute_plan plan profile.(profile_timeout)
    (mkLive "discovering_hosts" 15 29 scope.(address_count) None);
  metadata ← _run_metadata run;
  discovered ← ingest_run run (scope.(address_count) =? 1);
  mret (run, metadata, discovered).
End scope.

(** ** The result *)

Definition summary_dump (s : InventorySummary) : dict :=
  [("assets", PInt s.(asset_count)); ("services", PInt s.(service_count)); ("tcp_services", PInt s.(tcp_services));
   ("udp_services", PInt s.(udp_services)); ("ipv4_addresses", PInt s.(ipv4_addresses));
   ("ipv6_addresses", PInt s.(ipv6_addresses));
   ("device_classes", PDict (List.map (fun kv => (DeviceClassHint_value kv.1, PInt kv.2)) (map_to_list s.(device_classes))))].

Definition scan_methods (resolved : ResolvedScope) (profile : ActiveScanProfile) (host_plan : NmapCommandPlan)
    (tcp fingerprint udp : option NmapCommandPlan) (open : list Z) (fallbacks : list string) (privileged : bool) : dict :=
  let d := profile.(profile_document) in
  [("tcp_scan_method", PStr (match tcp with Some p => p.(tcp_method) | None => "none" end));
   ("host_discovery_method", PStr host_plan.(host_discovery_method));
   ("tcp_ports_requested", py_opt_str (tcp ≫= plan_tcp_ports));
   ("tcp_strategy", PStr (if is_deep profile && bool_decide (is_Some tcp) then "full-sweep-then-fingerprint"
                          else "single-pass"));
   ("tcp_open_ports_discovered", PInt (Z.of_nat (length open)));
   ("tcp_fingerprint_ports", py_opt_str (fingerprint ≫= plan_tcp_ports));
   ("effective_tcp_timing", py_opt_str (plan_timing <$> tcp));
   ("udp_ports_requested", py_opt_str (udp ≫= plan_udp_ports));
   ("service_detection", PBool d.(service_detection)); ("version_intensity", py_opt_int d.(version_intensity));
   ("os_detection_enabled", PBool (match tcp, fingerprint with
                                   | Some _, Some f => f.(plan_os_detection)
                                   | Some t, None => t.(plan_os_detection)
                                   | None, _ => false
                                   end));
   ("timing_profile", PStr d.(timing)); ("fallbacks", strings (sorted_set fallbacks)); ("privileged", PBool privileged);
   ("directly_connected", PBool (existsb directly_connected resolved.(routes)))].

(** What a job's route lookup refuses is a validation error. *)
Definition resolve_route (interface : string) (scope : ValidatedScope) : AM ResolvedScope :=
  try_except (resolve settings.(interface_settings) json_loads interface scope)
    (fun e => match e with
              | RouteValidationError code message details =>
                  raise (validation_error "route_resolver" (RouteValidationCode_value code) message details)
              | e => raise e
              end).

(** What follows the scans: the passive observations, the classes, and the result. *)
Definition finish_discovery (profile : ActiveScanProfile) (scope : ValidatedScope) (confirmed : ConfirmedScopeModel)
    (version : option string) (methods : dict) (runs : list dict) : AM (string * dict) :=
  _ ← ensure_active;
  _ ← progress 90 "correlating_observations" "Correlating observations";
  _ ← on_site (on_inventory (ingest_passive_from_audit vendors read_json audit_id (Some job_id)));
  _ ← on_site (on_inventory (refresh_classifications audit_id));
  _ ← progress 96 "persisting_inventory" "Persisting inventory";
  summary ← on_site (on_inventory (summary vendors read_json audit_id));
  let name := ActiveProfile_value profile.(profile_name) in
  let document :=
    [("schema", PStr "active-discovery-result"); ("schema_version", PInt 1); ("audit_id", PStr audit_id);
     ("job_id", PStr job_id); ("confirmed_scope_id", PStr confirmed.(cs_id)); ("profile", PStr name);
     ("interface", PStr confirmed.(cs_interface)); ("scope", strings scope.(canonical_targets));
     ("scan_methods", PDict methods); ("nmap_version", py_opt_str version); ("runs", PList (List.map PDict runs));
     ("summary", PDict (summary_dump summary))] in
  artifact ← on_site (on_evidence (put_json audit_id (Some job_id) "active_discovery_result" document RETENTION_AUDIT
                                     "active-discovery-result" 1));
  mret (artifact.(artifact_id),
        [("schema", PStr "active-discovery-summary"); ("schema_version", PInt 1);
         ("result_reference", PStr artifact.(artifact_id)); ("interface", PStr confirmed.(cs_interface));
         ("profile", PStr name); ("scan_methods", PDict methods)] ++ summary_dump summary).

(** [_run] *)
Definition _run (parameters : dict) (runtime_dir : string) : AM (string * dict) :=
  _ ← ensure_active;
  _ ← progress 5 "validating_scope" "Validating scope";
  '(name, scope, confirmed) ← _load_scope parameters;
  profile ← (match profile_for profile_file settings.(nmap_settings) name with
             | Return p => mret p
             | Raise e => raise e
             end);
  _ ← progress 10 "resolving_route" ("Resolving route via " +:+ confirmed.(cs_interface));
  resolved ← resolve_route confirmed.(cs_interface) scope;
  _ ← on_site (on_inventory (activate_scope confirmed.(cs_id)));
  '(host_run, metadata, discovered) ← discover_hosts scope resolved profile runtime_dir;
  _ ← progress 30 "hosts_discovered" (str_int discovered +:+ " hosts discovered");
  let targets := match host_run.(nmap_document) with Some d => live_targets d | None => [] end in
  c ← capabilities settings.(nmap_settings);
  let l := mkLedger [metadata] host_run.(nmap_plan).(fallbacks) in
  '(tcp, fingerprint, open, l) ← run_tcp scope resolved profile runtime_dir targets l;
  '(udp, l) ← run_udp scope resolved profile runtime_dir targets l;
  finish_discovery profile scope confirmed c.(cap_version)
    (scan_methods resolved profile host_run.(nmap_plan) tcp fingerprint udp open l.(ledger_fallbacks) c.(cap_privileged))
    l.(ledger_runs).

(** [shutil.rmtree(runtime_dir, ignore_errors=True)]: a call for each file, whose failure
    leaves that file. *)
Definition remove_runtime_dir (directory : string) : AM unit := fun w =>
  let paths := List.filter (fun p => startswith p (directory +:+ "/")) (map_to_list w.(runtime_files)).*1 in
  (for_each (fun p => try_except (unlink_runtime_file p) (fun _ => mret tt)) paths;; mret tt) w.

(** [execute]: the runtime directory is removed however the job ends. *)
Definition execute_discovery (parameters : dict) : AM (string * dict) :=
  let directory := settings.(nmap_runtime_dir) +:+ "/" +:+ job_id in
  _ ← io_step;
  (fun w =>
     let '(r, w') := _run parameters directory (w <| version_cache := None |>) in
     let '(_, w'') := remove_runtime_dir directory w' in (r, w'')) : AM (string * dict).
End active.
