(* ===== verification/ProbeTargetsProofs.v ===== *)
(** * Host names, addresses and targets of probes: lemmas

    What the pattern of host names accepts, stated on the text; the canonical text of an
    address; and what a built target is. *)

From S2P Require Import Prelude PyBase PyText JobModels Ip IpProofs ScopeProofs FindModels Inventory InventoryQueries InventoryNormalize Regex RegexProofs ProbeModels ProbeTargets ProbeParsers ProbeModules.

(** ** The grammar of host names *)

Definition alnum_hyphen (c : ascii) : bool := is_alnum c || Ascii.eqb c (chr 45).

(** A label: 1 to 63 letters, digits and hyphens, no hyphen at either end. *)
Definition label_ok (l : string) : bool :=
  match l with
  | EmptyString => false
  | String c _ =>
      is_alnum c && match last_char l with Some d => is_alnum d | None => false end &&
      str_all alnum_hyphen l && (String.length l <=? 63)%nat
  end.

(** Labels between dots, 253 characters at most. *)
Definition hostname_ok (h : string) : bool :=
  forallb label_ok (split_on dot h) && (String.length h <=? 253)%nat.

Lemma last_char_snoc v d : last_char (v +:+ String d "") = Some d.
Proof. induction v as [|c v IH]; [done|]. by rewrite app_cons_string, last_char_cons, IH. Qed.

Lemma snoc_last w d : last_char w = Some d → ∃ v, w = v +:+ String d "".
Proof.
  induction w as [|c w IH]; [done|]. destruct w as [|x w]; [intros [= ->]; by exists ""|].
  intros Hd. destruct (IH Hd) as (v & Hv). exists (String c v). by rewrite Hv.
Qed.

Lemma alnum_is_alnum_hyphen c : is_alnum c = true → alnum_hyphen c = true.
Proof. unfold alnum_hyphen. by intros ->. Qed.

Lemma accepts_label : accepts label_re (fun u => label_ok u = true).
Proof.
  eapply accepts_ext; [apply accepts_seq; [apply accepts_char|apply accepts_alt; [apply accepts_seq;
    [apply accepts_class_upto|apply accepts_char]|apply accepts_empty]]|].
  intros u. cbn beta. split.
  - intros (v & w & -> & (c & -> & Hc) & [(x & y & -> & [Hx Hl] & d & -> & Hd)| ->]).
    + change (String c "" +:+ (x +:+ String d "")) with (String c x +:+ String d "").
      unfold label_ok. rewrite last_char_snoc, Hd, str_all_app, length_app_string.
      rewrite app_cons_string. cbv iota. rewrite Hc, str_all_cons. unfold alnum_hyphen at 1. rewrite Hc. cbn [orb].
      rewrite (str_all_mono _ alnum_hyphen _ (fun _ h => h) Hx). cbn [str_all String.length].
      rewrite (alnum_is_alnum_hyphen d Hd). cbn [andb]. apply Nat.leb_le. lia.
    + rewrite app_nil_string. unfold label_ok. change (last_char (String c "")) with (Some c).
      cbv iota. rewrite Hc. cbn [str_all]. by rewrite (alnum_is_alnum_hyphen c Hc).
  - intros Hu. destruct u as [|c w]; [done|]. unfold label_ok in Hu.
    rewrite str_all_cons, !andb_true_iff, Nat.leb_le in Hu. destruct Hu as [[[Hc Hd] [_ Hw]] Hl].
    exists (String c ""), w. split; [done|]. split; [eauto|].
    destruct w as [|x w]; [by right|]. left.
    change (last_char (String c (String x w))) with (last_char (String x w)) in Hd.
    destruct (last_char (String x w)) as [d|] eqn:Hlast; [|done].
    apply snoc_last in Hlast as (v & Hv). rewrite Hv in Hw, Hl |- *.
    rewrite str_all_app in Hw. apply andb_true_iff in Hw as [Hv' _]. cbn in Hl. rewrite length_app_string in Hl.
    cbn in Hl. exists v, (String d ""). split; [done|]. split; [split; [exact Hv'|lia]|eauto].
Qed.

Lemma label_without_dot l : label_ok l = true → without dot l = true.
Proof.
  destruct l as [|c l]; [done|]. unfold label_ok. rewrite !andb_true_iff. intros [[_ Hl] _].
  revert Hl. apply str_all_mono. intros x. unfold alnum_hyphen.
  rewrite orb_true_iff. intros [Hx|Hx%Ascii.eqb_eq]; [|by subst].
  destruct (Ascii.eqb_spec x dot) as [->|]; done.
Qed.

Lemma accepts_labels :
  accepts (RSeq label_re (RStar true (RSeq (lit ".") label_re)))
    (fun u => forallb label_ok (split_on dot u) = true).
Proof.
  eapply accepts_ext; [apply accepts_seq; [apply accepts_label|apply accepts_star, accepts_seq;
    [apply accepts_lit_char|apply accepts_label]]|].
  intros u. cbn beta. split.
  - intros (l & w & -> & Hl & us & -> & Hus). revert l Hl.
    induction Hus as [|v us [(d & m & -> & -> & Hm) _] _ IH]; intros l Hl.
    + cbn [concat]. rewrite app_nil_string, split_on_last by by apply label_without_dot.
      cbn. by rewrite Hl.
    + cbn [concat]. change (concat ((String "." "" +:+ m) :: us)) with ("." +:+ m +:+ concat us).
      change (l +:+ (("." +:+ m) +:+ concat us)) with (l +:+ String dot (m +:+ concat us)).
      rewrite split_on_word by by apply label_without_dot. cbn [forallb]. by rewrite Hl, IH.
  - generalize (eq_refl (String.length u)). generalize (String.length u) at 2. intros n Hn.
    revert u Hn. induction n as [n IH] using lt_wf_ind. intros u Hn Hu.
    pose proof (split_once_spec dot u) as Hs. destruct (split_once dot u) as [a [b|]].
    + destruct Hs as [-> Ha]. rewrite split_on_word in Hu by done. cbn in Hu.
      apply andb_true_iff in Hu as [Hla Hb]. rewrite length_app_string in Hn. cbn in Hn.
      destruct (IH (String.length b) ltac:(lia) b eq_refl Hb) as (l & w & -> & Hl & us & -> & Hus).
      exists a, (String dot (l +:+ concat us)). split; [done|]. split; [done|].
      exists (("." +:+ l) :: us). split; [done|]. constructor; [|done]. split; [|done]. by exists ".", l.
    + destruct Hs as [-> Ha]. rewrite split_on_last in Hu by done. cbn in Hu. rewrite andb_true_r in Hu.
      exists u, "". rewrite app_nil_string. split; [done|]. split; [done|]. by exists [].
Qed.

(** ** [safe_hostname] *)

Lemma runs_hostname s :
  without newline s = true →
  (is_Some (re_fullmatch _HOSTNAME_RE s) ↔ hostname_ok s = true).
Proof.
  intros Hnl. rewrite fullmatch_spec. unfold hostname_ok. rewrite andb_true_iff, Nat.leb_le. split.
  - intros (q & (m1 & [<- _] & m2 & [<- (m & m' & Hdot & m'' & Hup & [<- Hend])] & Hlab) & Hq).
    assert (runs (RSeq label_re (RStar true (RSeq (lit ".") label_re))) (mkPos None s) q) as Hl.
    { destruct Hlab as (x & Hx & y & Hy & [<- _]). by exists x. }
    apply accepts_labels in Hl as (u & [Hu _] & Hok). cbn in Hu. rewrite Hq, app_nil_string in Hu. subst u.
    split; [done|].
    apply accepts_char in Hdot as (u & [Hs _] & c & -> & _).
    apply accepts_class_upto in Hup as (v & [Hv _] & _ & Hlen). cbn in Hs.
    rewrite Hs, Hv, !length_app_string.
    enough (rest m'' = "") as -> by (cbn; lia).
    unfold at_end in Hend. destruct (rest m'') as [|e r] eqn:Hr; [done|].
    apply andb_true_iff in Hend as [He%Ascii.eqb_eq _]. subst e.
    rewrite Hs, Hv in Hnl. rewrite !without_app in Hnl. cbn in Hnl. rewrite !andb_false_r in Hnl. done.
  - intros [Hok Hlen]. exists (mkPos (last_of None s) ""). split; [|done].
    exists (mkPos None s). split; [done|]. exists (mkPos None s). split.
    + split; [done|]. exists (mkPos (last_of None s) "").
      destruct s as [|c s]; [done|]. exists (mkPos (Some c) s). cbn in Hnl. apply andb_true_iff in Hnl as [Hc Hnl].
      split; [by exists c|]. exists (mkPos (last_of (Some c) s) ""). split; [|by rewrite last_of_cons].
      apply accepts_class_upto. exists s. cbn in Hlen. split; [by apply moves_all|]. split; [exact Hnl|lia].
    + destruct (proj2 (accepts_labels (mkPos None s) (mkPos (last_of None s) ""))) as (x & Hx & Hy).
      { exists s. by rewrite moves_all. }
      exists x. split; [done|]. exists (mkPos (last_of None s) ""). by split.
Qed.

Lemma hostname_chars h : hostname_ok h = true → str_all (fun c => negb (one_of unsafe_chars c)) h = true.
Proof.
  unfold hostname_ok. rewrite andb_true_iff, forallb_elem_of. intros [Hl _].
  apply (str_all_split _ dot); [done|]. intros w Hw%Hl. destruct w as [|c w]; [done|].
  unfold label_ok in Hw. rewrite !andb_true_iff in Hw. destruct Hw as [[_ Hw] _]. revert Hw.
  apply str_all_mono. clear. intros x. destruct x as [[] [] [] [] [] [] [] []]; vm_compute; done.
Qed.

Lemma hostname_no_hyphen h : hostname_ok h = true → startswith h "-" = false ∧ nonempty h = true.
Proof.
  unfold hostname_ok. rewrite andb_true_iff. intros [Hl _]. destruct h as [|c h]; [done|]. split; [|done].
  unfold startswith. cbn [remove_prefix]. destruct (Ascii.eqb_spec "-"%char c) as [<-|]; [|done].
  exfalso. cbn in Hl. by destruct (split_on "."%char h).
Qed.

Lemma safe_without_newline s : str_all (fun c => negb (one_of unsafe_chars c)) s = true → without newline s = true.
Proof. apply str_all_mono. intros c. by destruct (Ascii.eqb_spec c newline) as [->|]. Qed.

(** The host name that is tried: without blanks around it and dots after it. *)
Definition candidate_name (value : string) : string := rstrip_by (Ascii.eqb dot) (strip value).

#[local] Opaque re_fullmatch _HOSTNAME_RE.

Lemma safe_hostname_eq value :
  safe_hostname (Some value) = if hostname_ok (candidate_name value) then Some (candidate_name value) else None.
Proof.
  unfold safe_hostname. destruct value as [|c v]; [done|]. fold (candidate_name (String c v)).
  generalize (candidate_name (String c v)). intros h. destruct (hostname_ok h) eqn:Hok.
  - destruct (hostname_no_hyphen h Hok) as [-> ->]. pose proof (hostname_chars h Hok) as Hc. rewrite Hc. cbn.
    destruct (proj2 (runs_hostname h (safe_without_newline h Hc)) Hok) as [x ->]. done.
  - destruct (_ || _); [done|]. destruct (str_all _ h) eqn:Hc; [|done].
    destruct (re_fullmatch _ h) as [m|] eqn:Hm; [|done]. exfalso.
    rewrite (proj1 (runs_hostname h (safe_without_newline h Hc))) in Hok by by rewrite Hm. done.
Qed.

(** ** Addresses *)

(** Everything a successful computation went through. *)
Ltac unbind :=
  repeat match goal with
  | H : (_ ≫= _) = Return _ |- _ => apply outcome_bind_inv in H as (? & ? & H)
  | H : mret _ = Return _ |- _ => injection H as H
  | H : Return _ = Return _ |- _ => injection H as H
  end.

Lemma ip_result_inv {A} (m : IO A) a : ip_result m = Return a → m = Return a.
Proof. destruct m; cbn; congruence. Qed.

Lemma canonical_host_inv text h :
  canonical_host text = Return h → ∃ a, ip_address (strip text) = Return a ∧ ip_ok a ∧ h = ip_str a.
Proof.
  unfold canonical_host. intros H. unbind. subst h. apply ip_result_inv in H0.
  exists x. split; [done|]. split; [by eapply ip_address_ok|done].
Qed.

(** The text of an address a probe uses: an address, in the text [str] gives it. *)
Definition canonical (h : string) : Prop := ∃ a, ip_ok a ∧ h = ip_str a ∧ strip h = h.

Lemma canonical_host_canonical text h : canonical_host text = Return h → canonical h.
Proof. intros (a & Ha & Hok & ->)%canonical_host_inv. exists a. by rewrite (strip_ip_str _ _ Ha). Qed.

Lemma canonical_host_id h : canonical h → canonical_host h = Return h.
Proof. intros (a & Hok & -> & Hs). unfold canonical_host. by rewrite Hs, parse_ip_str. Qed.

Lemma bracket_host_eq a : ip_ok a → strip (ip_str a) = ip_str a →
  bracket_host (ip_str a) = Return (if a.(version) =? 6 then "[" +:+ ip_str a +:+ "]" else ip_str a).
Proof.
  intros Hok Hs. unfold bracket_host. rewrite (canonical_host_id (ip_str a)) by by exists a.
  rewrite bind_Return, parse_ip_str by done. done.
Qed.

(** ** The confirmed scope *)

(** The address lies in one of the confirmed networks. *)
Definition in_scope (sc : ConfirmedScopeModel) (a : ip_addr) : Prop :=
  ∃ t n, t ∈ sc.(cs_targets) ∧ ip_network t false = Return n ∧ in_network n a.(version) a.(ip_int).

Lemma in_block_network n a :
  net_ok n → ip_ok a → a.(version) = net_version n →
  in_block (net_version n) n.(network_address).(ip_int) n.(prefixlen) a = true ↔ in_network n a.(version) a.(ip_int).
Proof.
  intros Hn Ha Hv. unfold in_block, in_network. rewrite broadcast_block by done.
  rewrite Hv, Z.eqb_refl. cbn [andb]. rewrite Z.eqb_eq.
  pose proof (ip_ok_range a Ha) as Hr. rewrite Hv in Hr.
  rewrite land_netmask by (done || apply net_prefix_ok, Hn). fold (net_max n) (block_size n).
  pose proof (block_size_pos n Hn) as Hb. pose proof (net_aligned _ Hn) as Hal.
  pose proof (Z.mod_pos_bound a.(ip_int) _ Hb) as Hm. split; [intros E; split; [done|lia]|].
  intros [_ [H1 H2]]. apply Z.div_exact in Hal; [|lia].
  set (b := block_size n) in *. set (x := n.(network_address).(ip_int)) in *.
  assert (a.(ip_int) mod b = a.(ip_int) - x) as ->; [|lia].
  symmetry. apply (Z.mod_unique_pos _ _ (x / b)); lia.
Qed.

Lemma in_targets_spec a targets b :
  ip_ok a → in_targets a targets = Return b →
  b = true → ∃ t n, t ∈ targets ∧ ip_network t false = Return n ∧ in_network n a.(version) a.(ip_int).
Proof.
  intros Ha. induction targets as [|t targets IH]; cbn; [by intros [= <-]|].
  intros H Hb. apply outcome_bind_inv in H as (n & Hn%ip_result_inv & H).
  destruct (_ && _) eqn:E.
  - apply andb_true_iff in E as [Hv%Z.eqb_eq Hi]. exists t, n. split; [constructor|]. split; [done|].
    apply in_block_network; [by eapply ip_network_ok|done..].
  - destruct (IH H Hb) as (t' & n' & ? & ?). exists t', n'. split; [by constructor|done].
Qed.

(** The other way: an address in a confirmed network is found, unless an earlier target is
    not a network. *)
Lemma in_targets_complete a targets b :
  ip_ok a → in_targets a targets = Return b →
  b = false → ∀ t n, t ∈ targets → ip_network t false = Return n → ¬ in_network n a.(version) a.(ip_int).
Proof.
  intros Ha. induction targets as [|t targets IH]; cbn; [intros _ _ t n Ht; by apply elem_of_nil in Ht|].
  intros H Hb. apply outcome_bind_inv in H as (n & Hn%ip_result_inv & H).
  destruct (_ && _) eqn:E; [by injection H; intros; subst|].
  intros t' n' [->|Ht]%elem_of_cons Hn'; [|by eapply IH].
  rewrite Hn in Hn'. injection Hn' as <-. intros Hin. pose proof (proj1 Hin) as Hv.
  rewrite <- (in_block_network n a) in Hin by (done || by eapply ip_network_ok).
  rewrite Hin, Hv, Z.eqb_refl in E. done.
Qed.

(** The address of a row. *)
Definition reads_address (text : string) (a : ip_addr) : Prop := ip_address (strip text) = Return a.

Lemma address_in_scope_spec text sc b :
  address_in_scope text sc = Return b → ∃ a, reads_address text a ∧ (b = true ↔ in_scope sc a).
Proof.
  unfold address_in_scope. intros H.
  apply outcome_bind_inv in H as (h & Hh & H). apply canonical_host_inv in Hh as (a & Ha & Hok & ->).
  rewrite parse_ip_str in H by done. cbn [ip_result] in H. rewrite bind_Return in H.
  exists a. split; [done|]. split; [by apply in_targets_spec|].
  destruct b; [done|]. intros (t & n & Ht & Hn & Hin). exfalso.
  by eapply in_targets_complete in Hin.
Qed.

Lemma in_scope_addresses_spec rows sc l :
  in_scope_addresses rows sc = Return l →
  ∀ x, x ∈ l ↔ ∃ row a, row ∈ rows ∧ row.(address) = x ∧ reads_address x a ∧ in_scope sc a.
Proof.
  revert l. induction rows as [|row rows IH]; intros l; cbn.
  { intros [= <-] x. rewrite elem_of_nil. split; [done|]. intros (r & a & Hr & _). by apply elem_of_nil in Hr. }
  intros H x. apply outcome_bind_inv in H as (b & Hb & H). apply outcome_bind_inv in H as (l' & Hl & [= <-]).
  apply address_in_scope_spec in Hb as (a & Ha & Hb). specialize (IH l' Hl x).
  assert (x ∈ l' ∨ (b = true ∧ x = row.(address)) ↔ x ∈ (if b then row.(address) :: l' else l')) as <-.
  { destruct b; rewrite ?elem_of_cons; naive_solver. }
  rewrite IH. split.
  - intros [(r & a' & Hr & ?)|[Hbt ->]]; [exists r, a'; split; [by constructor|done]|].
    exists row, a. split; [constructor|]. split; [done|]. split; [done|]. by apply Hb.
  - intros (r & a' & [->|Hr]%elem_of_cons & <- & Ha' & Hin); [right|left; by exists r, a'].
    split; [|done]. apply Hb. unfold reads_address in *. congruence.
Qed.

(** The address a probe goes to is the canonical text of an in-scope address of the asset. *)
Definition probe_address (asset : AssetRecord) (sc : ConfirmedScopeModel) (h : string) : Prop :=
  ∃ row a, row ∈ asset.(record_addresses) ∧ reads_address row.(address) a ∧ ip_ok a ∧ in_scope sc a ∧
           h = ip_str a ∧ strip h = h.

Lemma select_probe_address_spec asset sc o :
  select_probe_address asset sc = Return o →
  match o with
  | Some h => probe_address asset sc h
  | None => ∀ row a, row ∈ asset.(record_addresses) → reads_address row.(address) a → ¬ in_scope sc a
  end.
Proof.
  unfold select_probe_address. intros H. apply outcome_bind_inv in H as (l & Hl & H).
  pose proof (in_scope_addresses_spec _ _ _ Hl) as Hspec.
  set (ipv4 := List.filter (fun item => negb (has_char colon item)) l) in *.
  assert (∀ x h, x ∈ l → canonical_host x = Return h → probe_address asset sc h) as Hgo.
  { intros x h Hx (a & Ha & Hok & ->)%canonical_host_inv.
    apply Hspec in Hx as (row & a' & Hrow & <- & Ha' & Hin). unfold reads_address in *.
    rewrite Ha in Ha'. injection Ha' as <-. exists row, a. by rewrite (strip_ip_str _ _ Ha). }
  assert (∀ x, x ∈ (if not_empty ipv4 then ipv4 else l) → x ∈ l) as Hsub.
  { intros x. destruct (not_empty ipv4); [|done]. intros [? ?]%elem_of_lfilter. done. }
  destruct (if not_empty ipv4 then ipv4 else l) as [|first others] eqn:Hp.
  - injection H as <-. intros row a Hrow Ha Hin.
    assert (row.(address) ∈ l) as Hx by (apply Hspec; eauto 6).
    destruct ipv4; cbn in Hp; [subst l; by apply elem_of_nil in Hx|done].
  - destruct (find_first _ _) as [a|] eqn:Hf.
    + apply find_first_Some in Hf as (_ & [_ Hin%str_in_spec]%andb_true_iff). unbind. subst o.
      eapply Hgo; [|done]. apply Hsub, Hin.
    + unbind. subst o. eapply Hgo; [|done]. apply Hsub. constructor.
Qed.

(** ** Targets *)

(** What a target is: an open service at an in-scope address of its asset, on its port,
    with a host name that is one or none. *)
Record target_of (asset : AssetRecord) (s : ServiceModel) (sc : ConfirmedScopeModel) (t : ProbeTarget) : Prop := {
  target_of_asset : t.(target_asset) = asset;
  target_of_service : t.(target_service) = s;
  target_of_open : is_open_service s = true;
  target_of_address : probe_address asset sc t.(target_address);
  target_of_port : t.(target_port) = s.(srv_port) ∧ 0 ≤ s.(srv_port) ≤ 65535;
  target_of_hostname : match t.(target_hostname) with
                       | Some h => hostname_ok h = true ∧
                                   ∃ n, n ∈ asset.(record_names) ∧ h = candidate_name n.(asset_name)
                       | None => True
                       end
}.

Lemma select_hostname_spec asset h :
  select_hostname asset = Some h →
  hostname_ok h = true ∧ ∃ n, n ∈ asset.(record_names) ∧ h = candidate_name n.(asset_name).
Proof.
  unfold select_hostname. intros H. apply head_Some_elem_of, list_elem_of_omap in H as (n & Hn & H).
  apply elem_of_sort_by in Hn. rewrite safe_hostname_eq in H.
  destruct (hostname_ok _) eqn:E; [|done]. injection H as <-. eauto.
Qed.

Lemma build_probe_target_spec asset s sc o :
  build_probe_target asset s sc = Return o →
  match o with
  | Some t => target_of asset s sc t
  | None => is_open_service s = true →
            ∀ row a, row ∈ asset.(record_addresses) → reads_address row.(address) a → ¬ in_scope sc a
  end.
Proof.
  unfold build_probe_target. destruct (is_open_service s) eqn:Hopen; cbn [negb]; [|by intros [= <-]].
  intros H. apply outcome_bind_inv in H as (ao & Ha & H). apply select_probe_address_spec in Ha.
  destruct ao as [h|]; [|by injection H as <-].
  apply outcome_bind_inv in H as (t & Ht & [= <-]). unfold build_target in Ht. cbn in Ht.
  destruct ((0 <=? _) && _) eqn:Hport; [|done]. injection Ht as <-.
  apply andb_true_iff in Hport as [?%Z.leb_le ?%Z.leb_le].
  constructor; cbn; try done. destruct (select_hostname asset) eqn:E; [by apply select_hostname_spec|done].
Qed.

(** ** Modules, their registry and the work they match: lemmas *)

(** *** Texts that are no options *)

(** The text begins with something other than a hyphen. *)
Definition no_option (a : string) : Prop := startswith a "-" = false.

Lemma hyphen_first c s : no_option (String c s) ↔ c ≠ "-"%char.
Proof. unfold no_option, startswith. cbn [remove_prefix]. destruct (Ascii.eqb_spec "-"%char c); naive_solver. Qed.

Lemma no_option_app a b : nonempty a = true → no_option a → no_option (a +:+ b).
Proof. destruct a as [|c a]; [done|]. intros _. rewrite app_cons_string, !hyphen_first. done. Qed.

Lemma no_option_all (p : ascii → bool) s : str_all p s = true → p "-"%char = false → no_option s.
Proof.
  destruct s as [|c s]; [done|]. rewrite hyphen_first. cbn. intros [Hc _]%andb_true_iff Hp ->. congruence.
Qed.

Lemma pretty_N_go_digits x s : str_all is_digit s = true → str_all is_digit (pretty_N_go x s) = true.
Proof.
  revert s. induction x as [x IH] using (well_founded_induction N.lt_wf_0). intros s Hs.
  destruct (decide (x = 0)%N) as [->|Hx]; [by rewrite pretty_N_go_0|].
  rewrite pretty_N_go_step by lia. apply IH; [apply N.div_lt; lia|]. cbn [str_all]. rewrite Hs, andb_true_r.
  pose proof (N.mod_lt x 10 ltac:(lia)) as Hm. unfold pretty_N_char. repeat case_match; done.
Qed.

Lemma str_int_digits n : 0 ≤ n → str_all is_digit (str_int n) = true.
Proof.
  intros Hn. destruct n as [|p|p]; [done| |lia]. unfold str_int.
  change (pretty (Z.pos p)) with (pretty (N.pos p)). unfold pretty, pretty_N. case_decide; [done|].
  by apply pretty_N_go_digits.
Qed.

Lemma str_int_no_option n : 0 ≤ n → no_option (str_int n).
Proof. intros Hn. by apply (no_option_all is_digit); [apply str_int_digits|]. Qed.

(** An address in canonical text is not empty and no option. *)
Lemma canonical_no_option h : canonical h → nonempty h = true ∧ no_option h.
Proof.
  intros (a & Hok & -> & _). assert (nonempty (ip_str a) = true) as Hne.
  { pose proof (parse_ip_str a Hok) as H. by destruct (ip_str a). }
  split; [done|]. destruct a.(scope_id) as [z|] eqn:Hz.
  - destruct Hok as [(_ & _ & E)|(Hv & Hr & Hzone)]; [congruence|]. rewrite ip_str_zone by done.
    apply no_option_app; [|by apply (no_option_all addr_char); [apply ipv6_chars|]].
    pose proof (ipv6_has_colon a.(ip_int)). by destruct (ipv6_to_string a.(ip_int)).
  - by apply (no_option_all addr_char); [apply plain_str_chars|].
Qed.

Lemma bracket_no_option h b : canonical h → bracket_host h = Return b → nonempty b = true ∧ no_option b.
Proof.
  intros Hc H. pose proof Hc as (a & Hok & -> & Hs). rewrite bracket_host_eq in H by done. injection H as <-.
  destruct (_ =? 6); [done|by apply canonical_no_option].
Qed.

Lemma hostname_no_option h : hostname_ok h = true → no_option h.
Proof. by intros []%hostname_no_hyphen. Qed.

(** *** The commands of the modules *)

(** What a module is handed: an address in canonical text, a port, a host name or none. *)
Definition target_ok (t : ProbeTarget) : Prop :=
  canonical t.(target_address) ∧ 0 ≤ t.(target_port) ≤ 65535 ∧
  match t.(target_hostname) with Some h => hostname_ok h = true | None => True end.

Lemma target_of_ok asset s sc t : target_of asset s sc t → target_ok t.
Proof.
  intros [_ _ _ (row & a & _ & _ & Hok & _ & Ha & Hs) [Hpt Hp] Hh]. split; [by exists a; rewrite <- Ha|].
  split; [by rewrite Hpt|]. destruct t.(target_hostname); [by destruct Hh|done].
Qed.

(** Every option the modules write. *)
Definition PROBE_OPTIONS : list string :=
  ["-n"; "-p"; "-connect"; "-servername"; "--silent"; "--show-error"; "--include"; "--max-time";
   "--max-redirs"; "--max-filesize"; "--path-as-is"; "--user-agent"; "--insecure"; "-N"; "-L"; "-m";
   "-v3"; "-l"; "-u"; "-t"; "-r"; "-x"; "-LLL"; "-H"; "-s"; "-b"; "-o"].

Definition arg_ok (a : string) : Prop := a ∈ PROBE_OPTIONS ∨ no_option a.

(** A command of a probe: the tool of the settings, a positive time limit, the plain
    locale, and no option but those the module writes. *)
Record probe_command (tool_binary : string) (c : ToolCommand) : Prop := {
  command_tool : c.(tool) = tool_binary;
  command_limit : 0 < c.(timeout_seconds) ≤ 21600;
  command_environment : c.(environment) = [("LC_ALL", "C")];
  command_args : Forall arg_ok c.(args)
}.

Lemma tool_command_ok binary l timeout c :
  tool_command binary l timeout = Return c → Forall arg_ok l → probe_command binary c ∧ c.(args) = l.
Proof.
  unfold tool_command, build_tool_command. cbn. destruct (nonempty binary); [|done]. cbn.
  destruct ((0 <? timeout) && (timeout <=? 21600)) eqn:Ht; [|done]. intros [= <-] Hl.
  apply andb_true_iff in Ht as [?%Z.ltb_lt ?%Z.leb_le]. split; [|done]. constructor; cbn; done.
Qed.

Lemma one_command_ok binary l timeout cs :
  one_command binary l timeout = Return cs → Forall arg_ok l → Forall (probe_command binary) cs.
Proof.
  unfold one_command. intros (c & Hc & [= <-])%outcome_bind_inv Hl.
  constructor; [|constructor]. by eapply tool_command_ok.
Qed.

(** An argument is an option of the list, by computation, or no option. *)
Ltac arg_by_list := (by left; apply str_in_spec; vm_compute) || (by right; vm_compute).
Ltac args_ok := repeat (apply Forall_cons; split; [try arg_by_list|]); try (by apply Forall_nil).

Section commands.
Context (settings : Settings) (t : ProbeTarget).
Context (Hlimit : 0 ≤ settings.(protocol_audit_timeout_seconds)) (Ht : target_ok t).

Lemma address_id : canonical_host t.(target_address) = Return t.(target_address).
Proof. apply canonical_host_id, Ht. Qed.

Lemma port_arg : arg_ok (str_int t.(target_port)).
Proof. right. apply str_int_no_option, Ht. Qed.

Lemma address_arg : arg_ok t.(target_address).
Proof. right. apply canonical_no_option, Ht. Qed.

Lemma bracket_arg h rest : bracket_host t.(target_address) = Return h → arg_ok (h +:+ rest).
Proof. intros H. right. apply bracket_no_option in H as [? ?]; [|apply Ht]. by apply no_option_app. Qed.

Lemma time_arg n : 0 ≤ n → arg_ok (str_int (command_timeout settings n)).
Proof. intros Hn. right. apply str_int_no_option. unfold command_timeout, settings_timeout. case_match; lia. Qed.

Lemma ssh_commands_ok cs : ssh_commands t settings = Return cs → Forall (probe_command settings.(ssh_audit_binary)) cs.
Proof.
  unfold ssh_commands. rewrite address_id, bind_Return. intros H. eapply one_command_ok; [exact H|].
  args_ok; [apply port_arg|apply address_arg].
Qed.

Lemma tls_commands_ok cs : tls_commands t settings = Return cs → Forall (probe_command settings.(openssl_binary)) cs.
Proof.
  unfold tls_commands, connect_endpoint. destruct (negb _); [done|].
  intros (e & (h & Hh & [= <-])%outcome_bind_inv & (server & Hs & H)%outcome_bind_inv)%outcome_bind_inv.
  eapply one_command_ok; [exact H|]. args_ok; [by apply bracket_arg|].
  destruct (safe_hostname t.(target_hostname)) as [n|] eqn:Hn.
  - injection Hs as <-. right. destruct t.(target_hostname) as [v|]; [|done]. rewrite safe_hostname_eq in Hn.
    destruct (hostname_ok _) eqn:E; [|done]. injection Hn as <-. by apply hostname_no_option.
  - unfold canonical_servername in Hs. rewrite address_id in Hs. injection Hs as <-. apply address_arg.
Qed.

Lemma http_commands_ok cs : http_commands t settings = Return cs → Forall (probe_command settings.(curl_binary)) cs.
Proof.
  unfold http_commands. cbv zeta. intros (h & Hh & H)%outcome_bind_inv. eapply one_command_ok; [exact H|].
  apply Forall_app. split; [args_ok; by apply time_arg|]. apply Forall_app. split; [destruct (http_uses_tls t); args_ok|].
  args_ok. right. destruct (http_uses_tls t); apply no_option_app; done.
Qed.

Lemma dns_common_ok : Forall arg_ok (dns_common t.(target_address) t settings).
Proof.
  unfold dns_common. apply Forall_app. split; [args_ok|destruct (String.eqb _ _); args_ok].
  all: right; by apply no_option_app.
Qed.

Lemma dns_commands_ok cs : dns_commands t settings = Return cs → Forall (probe_command settings.(dig_binary)) cs.
Proof.
  unfold dns_commands. rewrite address_id, bind_Return. cbv zeta.
  intros (a & Ha & (b & Hb & [= <-])%outcome_bind_inv)%outcome_bind_inv.
  apply tool_command_ok in Ha as [Ha _]; [|apply Forall_app; split; [apply dns_common_ok|args_ok]].
  apply tool_command_ok in Hb as [Hb _]; [|apply Forall_app; split; [apply dns_common_ok|args_ok]].
  by rewrite !Forall_cons, Forall_nil.
Qed.

Lemma smb_commands_ok cs : smb_commands t settings = Return cs → Forall (probe_command settings.(smbclient_binary)) cs.
Proof.
  unfold smb_commands. rewrite address_id, bind_Return. intros (b & _ & H)%outcome_bind_inv.
  eapply one_command_ok; [exact H|]. args_ok. apply port_arg.
Qed.

Lemma snmp_commands_ok cs : snmp_commands t settings = Return cs → Forall (probe_command settings.(snmpget_binary)) cs.
Proof.
  unfold snmp_commands. rewrite address_id, bind_Return. intros H.
  eapply one_command_ok; [exact H|]. args_ok. apply address_arg.
Qed.

Lemma ldap_commands_ok cs : ldap_commands t settings = Return cs → Forall (probe_command settings.(ldapsearch_binary)) cs.
Proof.
  unfold ldap_commands. cbv zeta. intros (h & _ & H)%outcome_bind_inv. eapply one_command_ok; [exact H|].
  apply Forall_app. split; [|destruct (ldap_uses_tls t); args_ok]. args_ok.
  right. destruct (ldap_uses_tls t); apply no_option_app; done.
Qed.
End commands.

(** *** The registry *)

(** Modules under their own names, each once; the gated ones apart. *)
Record registry_ok (r : ModuleRegistry) : Prop := {
  registry_names : NoDup (dict_keys r.(_modules) ++ dict_keys r.(_gated));
  registry_modules : ∀ n m, (n, m) ∈ r.(_modules) → m.(module_name) = n ∧ m.(safety) ≠ NEVER_DEFAULT;
  registry_gated : ∀ n m, (n, m) ∈ r.(_gated) → m.(module_name) = n ∧ m.(safety) = NEVER_DEFAULT
}.

Lemma registered_spec r n : registered r n = true ↔ n ∈ dict_keys r.(_modules) ++ dict_keys r.(_gated).
Proof. unfold registered. by rewrite orb_true_iff, !str_in_spec, elem_of_app. Qed.

Lemma dict_set_new {V} (d : list (string * V)) k v : k ∉ dict_keys d → dict_set d k v = d ++ [(k, v)].
Proof.
  induction d as [|[k' v'] d IH]; [done|]. rewrite dict_keys_cons, not_elem_of_cons. intros [Hne Hk].
  cbn. destruct (String.eqb_spec k k') as [->|_]; [done|]. by rewrite IH.
Qed.

Lemma dict_keys_snoc {V} (d : list (string * V)) k v : dict_keys (d ++ [(k, v)]) = dict_keys d ++ [k].
Proof. unfold dict_keys. by rewrite fmap_app. Qed.

Lemma registry_empty : registry_ok empty_registry.
Proof. constructor; [apply NoDup_nil_2|..]; intros n m H; by apply elem_of_nil in H. Qed.

Lemma register_module_ok r m r' :
  registry_ok r → register_module r m = Return r' → registry_ok r' ∧ m.(module_name) ∉ dict_keys r.(_modules) ++ dict_keys r.(_gated).
Proof.
  intros [Hn Hm Hg]. unfold register_module. destruct (registered r m.(module_name)) eqn:Hreg; [done|].
  assert (m.(module_name) ∉ dict_keys r.(_modules) ++ dict_keys r.(_gated)) as Hnew.
  { rewrite <- registered_spec. congruence. }
  pose proof Hnew as [Hm' Hg']%not_elem_of_app.
  case_bool_decide as Hs; intros [= <-]; (split; [|done]); constructor; cbn [_modules _gated];
    rewrite ?dict_set_new, ?dict_keys_snoc by done.
  - rewrite app_assoc. apply NoDup_app. split; [done|].
    split; [intros x Hx ->%list_elem_of_singleton; by apply Hnew|apply NoDup_singleton].
  - done.
  - intros n x [?|[= -> ->]%list_elem_of_singleton]%elem_of_app; auto.
  - rewrite <- app_assoc. apply NoDup_app.
    apply NoDup_app in Hn as (H1 & H2 & H3). split; [done|]. split.
    + intros x Hx. cbn. rewrite not_elem_of_cons. split; [intros ->; by apply Hm'|by apply H2].
    + cbn. by constructor.
  - intros n x [?|[= -> ->]%list_elem_of_singleton]%elem_of_app; auto.
  - done.
Qed.

Lemma register_all_ok r l r' : registry_ok r → register_all r l = Return r' → registry_ok r'.
Proof.
  revert r. induction l as [|m l IH]; intros r Hr; cbn; [by intros [= <-]|].
  intros (x & Hx & H)%outcome_bind_inv. apply register_module_ok in Hx as [Hx _]; [|done]. by eapply IH.
Qed.

Section registry.
Context (r : ModuleRegistry) (Hr : registry_ok r).

Lemma registry_NoDup : NoDup (dict_keys r.(_modules)).
Proof. by destruct Hr as [(? & _)%NoDup_app _ _]. Qed.

Lemma default_modules_spec m :
  m ∈ default_modules r ↔ dict_get r.(_modules) m.(module_name) = Some m.
Proof.
  unfold default_modules. rewrite list_elem_of_omap. unfold default_names. setoid_rewrite elem_of_sort_by. split.
  - intros (n & _ & Hn). pose proof (dict_get_elem _ _ _ Hn) as He.
    destruct (registry_modules r Hr n m He) as [-> _]. done.
  - intros H. exists m.(module_name). split; [|done]. apply dict_get_elem in H.
    unfold dict_keys. apply list_elem_of_fmap. by exists (m.(module_name), m).
Qed.

Lemma default_module_safe m : m ∈ default_modules r → never_default m = false.
Proof.
  intros Hm%default_modules_spec%dict_get_elem. apply (registry_modules r Hr) in Hm as [_ Hm].
  unfold never_default. by rewrite bool_decide_eq_false.
Qed.

Lemma selected_spec allowed m :
  m ∈ selected_modules r allowed ↔
  dict_get r.(_modules) m.(module_name) = Some m ∧ (∀ l, allowed = Some l → m.(module_name) ∈ l).
Proof.
  unfold selected_modules. rewrite elem_of_lfilter, default_modules_spec.
  destruct allowed as [l|]; [rewrite str_in_spec|]; naive_solver.
Qed.

Lemma get_module_default n m : dict_get r.(_modules) n = Some m → get_module r n = Return m.
Proof. unfold get_module. by intros ->. Qed.
End registry.

(** *** Matched work *)

Lemma asset_by_id_spec assets id asset :
  asset_by_id assets id = Some asset → asset ∈ assets ∧ asset.(record_asset).(asset_id) = id.
Proof.
  unfold asset_by_id. intros [Hin ->%String.eqb_eq]%find_first_Some. by apply list_elem_of_In, in_rev, list_elem_of_In in Hin.
Qed.

Lemma service_work_spec selected assets sc s work :
  service_work selected assets sc s = Return work →
  ∀ w, w ∈ work ↔ ∃ asset t m,
    is_open_service s = true ∧ asset_by_id assets s.(srv_asset_id) = Some asset ∧
    build_probe_target asset s sc = Return (Some t) ∧ m ∈ selected ∧ never_default m = false ∧
    module_matches m s = true ∧ w = mkWork m.(module_name) t.
Proof.
  unfold service_work. intros H w. destruct (is_open_service s); cbn [negb] in H.
  2: { injection H as <-. rewrite elem_of_nil. naive_solver. }
  destruct (asset_by_id assets s.(srv_asset_id)) as [asset|] eqn:Ha.
  2: { injection H as <-. rewrite elem_of_nil. naive_solver. }
  apply outcome_bind_inv in H as (o & Ho & H). destruct o as [t|]; injection H as <-.
  2: { rewrite elem_of_nil. split; [done|]. intros (a' & t & m & _ & [= <-] & Hb & _). congruence. }
  rewrite list_elem_of_fmap. setoid_rewrite elem_of_lfilter. setoid_rewrite andb_true_iff.
  setoid_rewrite negb_true_iff. split.
  - intros (m & -> & Hm & Hn & Hs). by exists asset, t, m.
  - intros (a' & t' & m & _ & [= <-] & Hb & Hm & Hn & Hs & ->). rewrite Ho in Hb. injection Hb as <-. by exists m.
Qed.

Lemma services_work_spec selected assets sc services work :
  services_work selected assets sc services = Return work →
  (∀ w, w ∈ work ↔ ∃ s l, s ∈ services ∧ service_work selected assets sc s = Return l ∧ w ∈ l) ∧
  (∀ s, s ∈ services → ∃ l, service_work selected assets sc s = Return l).
Proof.
  revert work. induction services as [|s services IH]; intros work; cbn.
  { intros [= <-]. split; [|intros s Hs; by apply elem_of_nil in Hs].
    intros w. rewrite elem_of_nil. split; [done|]. intros (s & l & Hs & _). by apply elem_of_nil in Hs. }
  intros (l & Hl & (rest & Hrest & [= <-])%outcome_bind_inv)%outcome_bind_inv.
  destruct (IH _ Hrest) as [H1 H2]. split.
  - intros w. rewrite elem_of_app, H1. setoid_rewrite elem_of_cons. split.
    + intros [Hw|(s' & l' & ? & ? & ?)]; [by exists s, l; auto|exists s', l'; auto].
    + intros (s' & l' & [->|Hs] & Hl' & Hw); [left; congruence|right; by exists s', l'].
  - intros s' [->|Hs]%elem_of_cons; [by exists l|by apply H2].
Qed.

(** Where a piece of work comes from. *)
Lemma matched_sound r assets services sc allowed work :
  registry_ok r → match_work r assets services sc allowed = Return work →
  ∀ w, w ∈ work → ∃ s asset m,
    s ∈ services ∧ asset ∈ assets ∧ asset.(record_asset).(asset_id) = s.(srv_asset_id) ∧
    target_of asset s sc w.(work_target) ∧
    get_module r w.(work_module) = Return m ∧ w.(work_module) ∈ default_names r ∧
    m.(module_name) = w.(work_module) ∧ m.(safety) ≠ NEVER_DEFAULT ∧ module_matches m s = true ∧
    (∀ l, allowed = Some l → w.(work_module) ∈ l).
Proof.
  intros Hr [Hin _]%services_work_spec w (s & l & Hs & Hl & Hw)%Hin.
  apply (service_work_spec _ _ _ _ _ Hl) in Hw as (asset & t & m & Hopen & Ha & Ht & Hm & Hn & Hmatch & ->).
  apply asset_by_id_spec in Ha as [Ha Hid]. apply build_probe_target_spec in Ht.
  apply selected_spec in Hm as [Hm Hallowed]; [|done]. exists s, asset, m.
  split_and!; try done; [by apply get_module_default| |by apply bool_decide_eq_false in Hn].
  apply elem_of_sort_by, list_elem_of_fmap. eexists (_, m). split; [done|]. by apply dict_get_elem in Hm.
Qed.

(** Every match gives work. *)
Lemma matched_complete r assets services sc allowed work :
  registry_ok r → match_work r assets services sc allowed = Return work →
  ∀ s asset row a m,
    s ∈ services → is_open_service s = true → asset_by_id assets s.(srv_asset_id) = Some asset →
    row ∈ asset.(record_addresses) → ip_address (strip row.(address)) = Return a → in_scope sc a →
    m ∈ default_modules r → (∀ l, allowed = Some l → m.(module_name) ∈ l) → module_matches m s = true →
    ∃ t, mkWork m.(module_name) t ∈ work ∧ target_of asset s sc t.
Proof.
  intros Hr [Hin Hall]%services_work_spec s asset row a m Hs Hopen Ha Hrow Haddr Hscope Hm Hallowed Hmatch.
  destruct (Hall s Hs) as (l & Hl). pose proof (service_work_spec _ _ _ _ _ Hl) as Hspec.
  assert (∃ o, build_probe_target asset s sc = Return o) as (o & Ho).
  { unfold service_work in Hl. rewrite Hopen, Ha in Hl. cbn [negb] in Hl.
    apply outcome_bind_inv in Hl as (o & Ho & _). by exists o. }
  pose proof (build_probe_target_spec _ _ _ _ Ho) as Ht.
  destruct o as [t|]; [|by destruct (Ht Hopen row a Hrow Haddr)].
  exists t. split; [|done]. apply Hin. exists s, l. split_and!; [done..|]. apply Hspec.
  exists asset, t, m. split_and!; try done; [|by apply default_module_safe with r].
  apply selected_spec; [done|]. split; [by apply default_modules_spec|done].
Qed.

(** ** What the parsers of tool output return: lemmas

    Each parser always returns one or two observations of its own kinds, unless the
    verify code in the output of [openssl] has more digits than [int] reads. *)

(** *** Numbers read off digits *)

Lemma digits_from_plain v n s :
  str_all is_digit s = true → ∃ w, digits_from v n s = Some (w, (n + String.length s)%nat).
Proof.
  revert v n. induction s as [|c s IH]; intros v n; cbn [str_all digits_from String.length].
  - intros _. exists v. f_equal. f_equal. lia.
  - intros [Hc Hs]%andb_true_iff. rewrite Hc. destruct (IH (10 * v + digit_value c) (S n) Hs) as (w & Hw).
    exists w. rewrite Hw. f_equal. f_equal. lia.
Qed.

Lemma digit_not c x : is_digit c = true → is_digit x = false → Ascii.eqb c x = false.
Proof. intros Hc Hx. destruct (Ascii.eqb_spec c x); [congruence|done]. Qed.

Lemma int_of_str_digits s :
  str_all is_digit s = true → nonempty s = true → (String.length s <= 4300)%nat → ∃ n, int_of_str s = Some n.
Proof.
  intros Hs Hne Hlen. unfold int_of_str. rewrite strip_no_space.
  2: { revert Hs. apply str_all_mono. intros c. destruct c as [[] [] [] [] [] [] [] []]; vm_compute; done. }
  destruct s as [|c s]; [done|]. cbn [str_all] in Hs. apply andb_true_iff in Hs as [Hc Hs].
  rewrite !(digit_not c) by done. cbn [unsigned_digits]. rewrite Hc.
  destruct (digits_from_plain (digit_value c) 1 s Hs) as (w & ->).
  exists w. destruct (Nat.ltb_spec MAX_STR_DIGITS (1 + String.length s)) as [H|H]; [|done].
  unfold MAX_STR_DIGITS in H. cbn in Hlen. lia.
Qed.

Lemma int_of_digits_returns s :
  str_all is_digit s = true → nonempty s = true → (String.length s <= 4300)%nat → ∃ n, int_of_digits s = Return n.
Proof. intros H1 H2 H3. unfold int_of_digits. by destruct (int_of_str_digits s H1 H2 H3) as (n & ->); exists n. Qed.

(** *** Lines *)

Lemma lines_from_nil cur s : lines_from cur s = [] → cur = "" ∧ s = "".
Proof.
  revert cur. induction s as [|c s IH]; intros cur; cbn [lines_from].
  - by destruct cur.
  - destruct (is_line_break c); [done|]. intros [H _]%IH. by destruct cur.
Qed.

Lemma first_line_returns text : nonempty (strip text) = true → ∃ l, first_line text = Return l.
Proof.
  intros Hne. unfold first_line, splitlines. destruct (lines_from "" text) as [|l ls] eqn:E; [|by eexists].
  apply lines_from_nil in E as [_ ->]. done.
Qed.

(** *** What a parser returns *)

Definition STATUS_KINDS : list string :=
  ["cancelled"; "tool_timeout"; "tool_unavailable"; "empty_output"; "tool_failed"; "malformed_output"].

(** A draft of a tool: one of its kinds, from it, with no key of its own, and within the
    limits of a draft. *)
Definition draft_of (source : string) (kinds : list string) (d : ObservationDraft) : Prop :=
  d.(draft_kind) ∈ kinds ++ STATUS_KINDS ∧ d.(draft_source) = source ∧ d.(draft_dedupe_key) = EmptyString ∧
  build_observation d = Return d.

(** One or two drafts of different kinds. *)
Definition drafts_of (source : string) (kinds : list string) (ds : list ObservationDraft) : Prop :=
  (1 <= length ds <= 2)%nat ∧ Forall (draft_of source kinds) ds ∧ NoDup (map draft_kind ds).

Definition parses (source : string) (kinds : list string) (o : PO (list ObservationDraft)) : Prop :=
  ∃ ds, o = Return ds ∧ drafts_of source kinds ds.

Lemma one_draft source kinds d : draft_of source kinds d → drafts_of source kinds [d].
Proof. intros Hd. split; [cbn; lia|]. split; [by apply Forall_singleton|apply NoDup_singleton]. Qed.

Lemma two_drafts source kinds d e :
  draft_of source kinds d → draft_of source kinds e → d.(draft_kind) ≠ e.(draft_kind) → drafts_of source kinds [d; e].
Proof.
  intros Hd He Hne. split; [cbn; lia|]. split; [by apply Forall_cons; split; [|apply Forall_singleton]|].
  cbn. apply NoDup_cons. split; [by rewrite list_elem_of_singleton|apply NoDup_singleton].
Qed.

Lemma parses_one source kinds d : draft_of source kinds d → parses source kinds (mret [d]).
Proof. intros Hd. eexists. split; [done|]. by apply one_draft. Qed.

Lemma status_draft r source b d kinds :
  field_ok 64 source = true → tool_status_observation r source b = Some d → draft_of source kinds d.
Proof.
  unfold tool_status_observation, draft_of. intros Hsource H.
  assert (d.(draft_kind) ∈ STATUS_KINDS ∧ d.(draft_source) = source ∧ d.(draft_dedupe_key) = "" ∧
          build_observation d = Return d) as (? & ? & ? & ?).
  { unfold build_observation.
    repeat match type of H with (if ?x then _ else _) = _ => destruct x end; simplify_eq;
      cbn [draft_kind draft_source draft_dedupe_key]; rewrite ?Hsource;
      (split; [apply str_in_spec; reflexivity|done]). }
  rewrite elem_of_app. auto.
Qed.

Lemma unless_status_parses r source kinds body :
  field_ok 64 source = true → parses source kinds body → parses source kinds (unless_status r source body).
Proof.
  intros Hs Hb. unfold unless_status. destruct (tool_status_observation r source true) as [d|] eqn:E; [|done].
  apply parses_one. by eapply status_draft.
Qed.

(** A draft whose kind and source are in the lists, by computation. *)
Ltac draft_by_list := split; [apply elem_of_app; first [left; apply str_in_spec; reflexivity|right; apply str_in_spec; reflexivity]|done].

Definition DNS_KINDS : list string := ["dns_unreachable"; "dns_identity"; "dns_flags"].
Lemma parse_dig_total r : parses "dig" DNS_KINDS (parse_dig r).
Proof.
  apply unless_status_parses; [done|]. cbv zeta. destruct (_ || _).
  { destruct (_ || _); apply parses_one; draft_by_list. }
  destruct (_ || _); (eexists; split; [reflexivity|]); cbn [app]; [apply two_drafts|apply one_draft];
    first [draft_by_list|done].
Qed.

Definition HTTP_KINDS : list string := ["http_response"].

Lemma accepts_three_digits :
  accepts (RTimes 3 R_digit) (fun u => str_all is_digit u = true ∧ String.length u = 3%nat).
Proof.
  eapply accepts_ext; [cbn [RTimes]; apply accepts_seq; [apply accepts_char|]; apply accepts_seq;
    [apply accepts_char|]; apply accepts_seq; [apply accepts_char|apply accepts_empty]|].
  intros u. cbn beta. split.
  - intros (v & w & -> & (c & -> & Hc) & v' & w' & -> & (d & -> & Hd) & v2 & w2 & -> & (e & -> & He) & ->).
    split; [|done]. rewrite !str_all_app. cbn [str_all]. by rewrite Hc, Hd, He.
  - intros [Hu Hl]. destruct u as [|c [|d [|e [|]]]]; try discriminate Hl. cbn [str_all] in Hu.
    rewrite !andb_true_iff in Hu. destruct Hu as (Hc & Hd & He & _).
    exists (String c ""), (String d (String e "")). split; [done|]. split; [eauto|].
    exists (String d ""), (String e ""). split; [done|]. split; [eauto|].
    exists (String e ""), "". eauto 6.
Qed.

Lemma header_line_returns h line : ∃ h', header_line h line = Return h'.
Proof.
  unfold header_line. cbv zeta. generalize (strip_by (Ascii.eqb carriage_return) line). intros text.
  destruct (re_match http_STATUS text) as [[x m]|] eqn:E.
  - apply (match_group_spec _ 1 _ _ _ (fun u => str_all is_digit u = true ∧ String.length u = 3%nat)) in E
      as [[H1 H2] _]; [|reflexivity|].
    + destruct (int_of_digits_returns (group_text 1 m)) as (n & ->); [done|by destruct (group_text 1 m)|lia|].
      by eexists.
    + intros a Ha. cbn in Ha. rewrite !elem_of_cons, elem_of_nil in Ha.
      destruct Ha as [[= ->]|[[=]|[]]]. apply accepts_three_digits.
  - destruct (re_match http_HEADER text) as [[x m]|]; [|by eexists]. destruct (_ && _); by eexists.
Qed.

Lemma header_lines_returns lines h : ∃ h', header_lines h lines = Return h'.
Proof.
  revert h. induction lines as [|l lines IH]; intros h; cbn [header_lines]; [by eexists|].
  destruct (header_line_returns h l) as (h' & ->). apply IH.
Qed.

Lemma parse_curl_total r : parses "curl" HTTP_KINDS (parse_curl_http r).
Proof.
  apply unless_status_parses; [done|]. cbv zeta. destruct (negb _); [apply parses_one; draft_by_list|].
  destruct (_split_headers r.(stdout)) as [block body].
  destruct (header_lines_returns (splitlines block) (mkHead None None [])) as (h & ->). rewrite bind_Return.
  destruct h.(status_code); apply parses_one; draft_by_list.
Qed.

Definition LDAP_KINDS : list string := ["ldap_rootdse"; "ldap_anonymous_bind"].
Lemma parse_ldapsearch_total r : parses "ldapsearch" LDAP_KINDS (parse_ldapsearch r).
Proof.
  apply unless_status_parses; [done|]. cbv zeta. destruct (not_empty _); [apply parses_one; draft_by_list|].
  destruct (raw_first _BIND_FAIL _); [apply parses_one; draft_by_list|].
  destruct (nonempty (strip (output_text r))) eqn:E; cbn [negb]; [|apply parses_one; draft_by_list].
  destruct (first_line_returns _ E) as (l & ->). apply parses_one; draft_by_list.
Qed.

Definition SMB_KINDS : list string := ["smb_null_session"; "smb_probe_result"].
Lemma parse_smbclient_total r : parses "smbclient" SMB_KINDS (parse_smbclient r).
Proof.
  apply unless_status_parses; [done|]. cbv zeta. destruct (re_search _DENIED _); [apply parses_one; draft_by_list|].
  destruct (_ || _); [apply parses_one; draft_by_list|].
  destruct (nonempty (strip (output_text r))) eqn:E; cbn [negb]; [|apply parses_one; draft_by_list].
  destruct (first_line_returns _ E) as (l & ->). apply parses_one; draft_by_list.
Qed.

Definition SNMP_KINDS : list string := ["snmp_unauthenticated"].
Lemma parse_snmpget_total r : parses "snmpget" SNMP_KINDS (parse_snmpget r).
Proof.
  apply unless_status_parses; [done|]. cbv zeta. destruct (_first _SYS_DESCR _); [apply parses_one; draft_by_list|].
  destruct (_ || _); [apply parses_one; draft_by_list|].
  destruct (raw_first _ENGINE _); apply parses_one; draft_by_list.
Qed.

Definition SSH_KINDS : list string := ["ssh_banner"; "ssh_algorithms"].

(** A banner, the algorithms, both, or else one malformed observation. *)
Lemma banner_and_algorithms (b1 b2 : bool) (d e m : ObservationDraft) source kinds :
  draft_of source kinds d → draft_of source kinds e → draft_of source kinds m → d.(draft_kind) ≠ e.(draft_kind) →
  let drafts := (if b1 then [d] else []) ++ (if b2 then [e] else []) in
  drafts_of source kinds (if not_empty drafts then drafts else [m]).
Proof. intros. destruct b1, b2; cbn; [by apply two_drafts|by apply one_draft..]. Qed.

Lemma from_json_drafts payload : drafts_of "ssh-audit" SSH_KINDS (_from_json payload).
Proof.
  unfold _from_json. cbv zeta. destruct (match payload with PList (p :: _) => p | p => p end);
    try (apply one_draft; draft_by_list).
  destruct (match get d "banner" with PDict banner => _ | PStr banner => _ | _ => _ end) as [[software raw] protocol].
  apply banner_and_algorithms; [draft_by_list..|done].
Qed.

Lemma from_text_drafts text : drafts_of "ssh-audit" SSH_KINDS (_from_text text).
Proof.
  unfold _from_text. destruct (foldl _ _ _) as [banner algorithms]. cbv zeta.
  destruct banner as [[|c b]|].
  - apply (banner_and_algorithms false _ (observed "ssh_banner" [] CONF_HIGH "ssh-audit")); [draft_by_list..|done].
  - apply (banner_and_algorithms true); [draft_by_list..|done].
  - apply (banner_and_algorithms false _ (observed "ssh_banner" [] CONF_HIGH "ssh-audit")); [draft_by_list..|done].
Qed.

Lemma parse_ssh_audit_total json_loads r : parses "ssh-audit" SSH_KINDS (parse_ssh_audit json_loads r).
Proof.
  apply unless_status_parses; [done|]. cbv zeta. destruct (_ || _); [|eexists; split; [done|apply from_text_drafts]].
  destruct (json_loads _); [eexists; split; [done|apply from_json_drafts]|apply parses_one; draft_by_list].
Qed.

Definition TLS_KINDS : list string := ["tls_session"; "tls_certificate"].

(** The digits of the verify code are part of the output. *)
Lemma verify_code_returns text m :
  re_search _VERIFY text = Some m → (String.length text <= 4300)%nat → ∃ n, int_of_digits (group_text 1 m) = Return n.
Proof.
  intros E Hlen. apply (search_group_spec _ 1 _ _ (fun u => str_all is_digit u = true ∧ nonempty u = true)) in E
    as [[H1 H2] H3]; [|reflexivity|].
  - apply int_of_digits_returns; [done..|lia].
  - intros a Ha. cbn in Ha. rewrite !elem_of_cons, elem_of_nil in Ha.
    destruct Ha as [[= ->]|[[=]|[]]]. apply accepts_class_plus.
Qed.

Lemma parse_openssl_total r :
  (String.length (output_text r) <= 4300)%nat → parses "openssl" TLS_KINDS (parse_openssl_sclient r).
Proof.
  intros Hlen. apply unless_status_parses; [done|]. cbv zeta. destruct (negb _); [apply parses_one; draft_by_list|].
  assert (∃ v, match re_search _VERIFY (output_text r) with
               | Some m => n ← int_of_digits (group_text 1 m);
                           mret (Some n, or_none (strip (default EmptyString (group 2 m))))
               | None => mret (None, None)
               end = Return v) as ([code text] & ->).
  { destruct (re_search _VERIFY (output_text r)) as [m|] eqn:E; [|by eexists].
    destruct (verify_code_returns _ _ E Hlen) as (n & ->). by eexists. }
  rewrite bind_Return. destruct (negb _); [apply parses_one; draft_by_list|].
  eexists. split; [reflexivity|]. apply banner_and_algorithms; [draft_by_list..|done].
Qed.
