(* ===== verification/ProbeStoreProofs.v ===== *)
(** * Protocol observations: the invariant of the table and one upsert

    At most one row per audit, asset, service, module, kind and dedupe key; an upsert
    replaces or adds the row of its key and leaves every other row. *)

From S2P Require Import Prelude PyBase PyText JobModels JobStore Ip FindModels Inventory InventoryQueries Regex ProbeModels ProbeStore.

(** Rows by their id, one per identity, about existing rows. *)
Record obs_ok (w : ObsWorld) : Prop := {
  obs_keyed : ∀ id r, w.(protocol_observations) !! id = Some r → observation_id r = id;
  obs_unique : ∀ i j r s, w.(protocol_observations) !! i = Some r → w.(protocol_observations) !! j = Some s →
                 observation_key r = observation_key s → r = s;
  obs_referenced : ∀ id r, w.(protocol_observations) !! id = Some r →
                     r.(row_record).(obs_audit_id) ∈ w.(obs_audits) ∧
                     r.(row_record).(obs_asset_id) ∈ w.(obs_assets) ∧
                     r.(row_record).(obs_service_id) ∈ w.(obs_services)
}.

(** The row of an identity. *)
Definition at_key (w : ObsWorld) (k : ObservationKey) : option ProtocolObservationModel :=
  find_first (fun r => bool_decide (observation_key r = k)) (map_to_list w.(protocol_observations)).*2.

Lemma row_elem (m : gmap string ProtocolObservationModel) r : r ∈ (map_to_list m).*2 ↔ ∃ id, m !! id = Some r.
Proof.
  rewrite list_elem_of_fmap. split.
  - intros ([id x] & -> & H%elem_of_map_to_list). by exists id.
  - intros (id & H). exists (id, r). by rewrite elem_of_map_to_list.
Qed.

Lemma at_key_Some w k r :
  obs_ok w → at_key w k = Some r ↔ w.(protocol_observations) !! observation_id r = Some r ∧ observation_key r = k.
Proof.
  intros Hok. unfold at_key. split.
  - intros [(id & Hid)%row_elem Hk%bool_decide_eq_true]%find_first_Some. by rewrite (obs_keyed w Hok id r Hid).
  - intros [Hr Hk]. destruct (find_first _ _) as [s|] eqn:E.
    + apply find_first_Some in E as [(id & Hid)%row_elem Hs%bool_decide_eq_true]. f_equal.
      eapply (obs_unique w Hok); [exact Hid|exact Hr|congruence].
    + pose proof (proj1 (find_first_None _ _) E r) as H. rewrite bool_decide_eq_false in H.
      exfalso. apply H; [|done]. apply row_elem. by eexists.
Qed.

Lemma at_key_None w k :
  at_key w k = None ↔ ∀ id r, w.(protocol_observations) !! id = Some r → observation_key r ≠ k.
Proof.
  unfold at_key. rewrite find_first_None. setoid_rewrite bool_decide_eq_false. setoid_rewrite row_elem. naive_solver.
Qed.

(** Two tables with the same rows of an identity. *)
Lemma at_key_ext w w' k :
  obs_ok w → obs_ok w' →
  (∀ r, observation_key r = k →
     w'.(protocol_observations) !! observation_id r = Some r ↔ w.(protocol_observations) !! observation_id r = Some r) →
  at_key w' k = at_key w k.
Proof.
  intros Hw Hw' H. apply option_eq. intros r. rewrite !at_key_Some by done.
  split; intros [Hr Hk]; (split; [|done]); by apply H.
Qed.

(** The references of the world stay as they are. *)
Definition same_references (w w' : ObsWorld) : Prop :=
  w'.(obs_audits) = w.(obs_audits) ∧ w'.(obs_assets) = w.(obs_assets) ∧ w'.(obs_services) = w.(obs_services).

Lemma same_references_trans w1 w2 w3 : same_references w1 w2 → same_references w2 w3 → same_references w1 w3.
Proof. unfold same_references. intros (-> & -> & ->) (-> & -> & ->). done. Qed.

Section upsert.
Context `{Runtime} (b : ObservedBy) (evidence : option string).

Definition references_exist (w : ObsWorld) : Prop :=
  b.(by_audit) ∈ w.(obs_audits) ∧ b.(by_asset_id) ∈ w.(obs_assets) ∧ b.(by_service_id) ∈ w.(obs_services).

(** The row says what the draft says. *)
Record holds (d : ObservationDraft) (r : ProtocolObservationModel) : Prop := {
  holds_key : observation_key r = draft_key b d;
  holds_protocol : r.(row_record).(obs_protocol) = b.(by_protocol);
  holds_data : r.(row_record).(obs_data) = bound_observation_data d.(draft_data);
  holds_confidence : r.(row_record).(obs_confidence) = d.(draft_confidence);
  holds_source : r.(row_record).(obs_source) = d.(draft_source);
  holds_evidence : r.(row_record).(obs_evidence_artifact_id) = evidence
}.

(** A row observed again keeps its id and the time it was first seen. *)
Definition same_row (old r : ProtocolObservationModel) : Prop :=
  observation_id r = observation_id old ∧ r.(row_record).(obs_first_seen) = old.(row_record).(obs_first_seen).

(** What one upsert leaves. *)
Record upserted (d : ObservationDraft) (w w' : ObsWorld) (o : ProtocolObservationRecord) : Prop := {
  upserted_ok : obs_ok w';
  upserted_references : same_references w w' ∧ references_exist w;
  upserted_row : ∃ r, r.(row_record) = o ∧ holds d r ∧ at_key w' (draft_key b d) = Some r ∧
                   ∀ old, at_key w (draft_key b d) = Some old → same_row old r;
  upserted_others : ∀ k, k ≠ draft_key b d → at_key w' k = at_key w k
}.

(** Putting a row of an identity no other row has. *)
Lemma put_row w w' d r :
  obs_ok w → references_exist w → same_references w w' → holds d r →
  w'.(protocol_observations) = <[observation_id r := r]> w.(protocol_observations) →
  (∀ s, w.(protocol_observations) !! observation_id r = Some s → observation_key s = draft_key b d) →
  (∀ old, at_key w (draft_key b d) = Some old → same_row old r) →
  upserted d w w' r.(row_record).
Proof.
  intros Hok (Ra & Rb & Rc) Href Hh Hrows Hsame Hold.
  assert (∀ id s, w.(protocol_observations) !! id = Some s → observation_key s = draft_key b d →
            id = observation_id r) as Honly.
  { intros id s Hs Hk. pose proof (obs_keyed w Hok id s Hs) as <-. symmetry. apply Hold. by apply at_key_Some. }
  assert (obs_ok w') as Hok'.
  { constructor; rewrite Hrows.
    - intros id s [[<- <-]|[_ Hs]]%lookup_insert_Some; [done|by apply (obs_keyed w Hok)].
    - intros i j x y [[<- <-]|[Hi Hx]]%lookup_insert_Some [[<- <-]|[Hj Hy]]%lookup_insert_Some Hk; [done|..].
      + exfalso. apply Hj. symmetry. eapply Honly; [exact Hy|]. rewrite <- Hk. apply Hh.
      + exfalso. apply Hi. symmetry. eapply Honly; [exact Hx|]. rewrite Hk. apply Hh.
      + by eapply (obs_unique w Hok).
    - destruct Href as (-> & -> & ->). intros id s [[<- <-]|[_ Hs]]%lookup_insert_Some; [|by apply (obs_referenced w Hok id)].
      pose proof (holds_key d r Hh) as Hk. injection Hk as E1 E2 E3 _ _ _.
      by rewrite E1, E2, E3. }
  constructor; [done|done| |].
  - exists r. split; [done|]. split; [done|]. split; [|done]. apply at_key_Some; [done|].
    split; [rewrite Hrows; apply lookup_insert_eq|apply Hh].
  - intros k Hk. apply at_key_ext; [done..|]. intros s Hs. rewrite Hrows.
    destruct (decide (observation_id s = observation_id r)) as [E|E]; [|by rewrite lookup_insert_ne by done].
    rewrite E, lookup_insert_eq. split.
    + intros [= ->]. destruct Hk. rewrite <- Hs. apply Hh.
    + intros Hin. apply Hsame in Hin. congruence.
Qed.

(** Why an upsert can fail: the audit, asset or service is gone, or the new id is taken. *)
Definition refused (w : ObsWorld) (n : nat) : Prop :=
  ¬ references_exist w ∨ is_Some (w.(protocol_observations) !! uuid4 n).

(** An upsert, as one step from the row of its key. *)
Lemma upsert_observation_eq d w :
  upsert_observation b evidence d w =
  let now := clock w.(obs_clock_reads) in
  let w1 := w <| obs_clock_reads ::= S |> in
  match at_key w (draft_key b d) with
  | Some r =>
      let r := observed_again b d evidence now r in
      (Return r.(row_record), w1 <| protocol_observations ::= insert (observation_id r) r |>)
  | None =>
      let r := new_observation b d evidence (uuid4 w.(obs_uuids_drawn)) now in
      match insert_observation_row r (w1 <| obs_uuids_drawn ::= S |>) with
      | (Return _, w') => (Return r.(row_record), w')
      | (Raise e, w') => (Raise e, w')
      end
  end.
Proof.
  change (upsert_observation b evidence d w) with ((now ← obs_now;
    match at_key w (draft_key b d) with
    | None => id ← obs_uuid; let r := new_observation b d evidence id now in
              _ ← insert_observation_row r; mret r.(row_record)
    | Some r => let r := observed_again b d evidence now r in
                _ ← modify (fun w => w <| protocol_observations ::= insert (observation_id r) r |>); mret r.(row_record)
    end) w).
  by destruct (at_key w (draft_key b d)).
Qed.

Lemma upsert_observation_spec d w :
  obs_ok w →
  match upsert_observation b evidence d w with
  | (Return o, w') => upserted d w w' o
  | (Raise e, w') => ¬ references_exist w ∨ is_Some (w.(protocol_observations) !! uuid4 w.(obs_uuids_drawn))
  end.
Proof.
  intros Hok. rewrite upsert_observation_eq. cbv zeta.
  destruct (at_key w (draft_key b d)) as [r|] eqn:Hr.
  - pose proof (proj1 (at_key_Some _ _ _ Hok) Hr) as [Hin Hk].
    pose proof (obs_referenced w Hok _ _ Hin) as Hrefs. pose proof Hk as [= E1 E2 E3 E4 E5 E6].
    apply put_row; [done| | | |done| |].
    + unfold references_exist. rewrite <- E1, <- E2, <- E3. exact Hrefs.
    + done.
    + constructor; [exact Hk|done..].
    + intros s. change (observation_id (observed_again _ _ _ _ r)) with (observation_id r).
      rewrite Hin. intros [= <-]. exact Hk.
    + intros old. rewrite Hr. intros [= <-]. done.
  - unfold insert_observation_row. set (r := new_observation _ _ _ _ _).
    case_bool_decide as Hfresh; [by right|].
    destruct (bool_decide (r.(row_record).(obs_audit_id) ∈ _) && _ && _) eqn:Href; cbn [negb].
    2: { left. intros (H1 & H2 & H3). cbn in Href. rewrite !bool_decide_true in Href by done. done. }
    rewrite !andb_true_iff, !bool_decide_eq_true in Href. destruct Href as [[H1 H2] H3].
    apply put_row; [done|done|done|by constructor|done| |].
    + intros s Hs. destruct Hfresh. by eexists.
    + intros old. congruence.
Qed.

(** ** Ids *)

(** The ids of the rows have been drawn. *)
Definition obs_drawn (w : ObsWorld) : Prop :=
  ∀ id, is_Some (w.(protocol_observations) !! id) → ∃ n, (n < w.(obs_uuids_drawn))%nat ∧ id = uuid4 n.

Lemma obs_drawn_fresh `{!RuntimeOk} w n : obs_drawn w → (w.(obs_uuids_drawn) <= n)%nat → w.(protocol_observations) !! uuid4 n = None.
Proof.
  intros Hw Hn. apply eq_None_not_Some. intros (m & Hm & E)%Hw. apply uuid4_inj in E. lia.
Qed.

(** An upsert writes one row, and draws an id for it when the row is new. *)
Lemma upsert_observation_draws d w :
  obs_ok w → obs_drawn w → obs_drawn (upsert_observation b evidence d w).2 ∧
  (w.(obs_uuids_drawn) <= (upsert_observation b evidence d w).2.(obs_uuids_drawn))%nat.
Proof.
  intros Hok Hw. rewrite upsert_observation_eq. cbv zeta.
  assert (∀ k id, is_Some (w.(protocol_observations) !! id) → ∃ n, (n < w.(obs_uuids_drawn) + k)%nat ∧ id = uuid4 n) as Hmore.
  { intros k id (n & Hn & ->)%Hw. exists n. split; [lia|done]. }
  destruct (at_key w (draft_key b d)) as [r|] eqn:Hr.
  - apply at_key_Some in Hr as [Hin _]; [|done]. split; [|done]. intros id. cbn.
    rewrite lookup_insert_is_Some'. change (observation_id (observed_again _ _ _ _ r)) with (observation_id r).
    intros [<-|Hid]; apply Hw; [by eexists|done].
  - unfold insert_observation_row. set (r := new_observation _ _ _ _ _).
    case_bool_decide; [|destruct (negb _)]; cbn; (split; [|lia]); intros id; cbn.
    1, 2: rewrite <- Nat.add_1_r; apply Hmore.
    rewrite lookup_insert_is_Some'. intros [<-|Hid]; [|rewrite <- Nat.add_1_r; by apply Hmore].
    exists w.(obs_uuids_drawn). split; [lia|done].
Qed.

(** ** A list of drafts *)

(** What storing a list of drafts leaves: every identity among them has its row, which
    says what the last draft of that identity says; the others have the row they had. *)
Record stored (drafts : list ObservationDraft) (w w' : ObsWorld) : Prop := {
  stored_ok : obs_ok w' ∧ obs_drawn w' ∧ (w.(obs_uuids_drawn) <= w'.(obs_uuids_drawn))%nat;
  stored_references : same_references w w';
  stored_rows : ∀ pre d post, drafts = pre ++ d :: post → draft_key b d ∉ map (draft_key b) post →
    ∃ r, at_key w' (draft_key b d) = Some r ∧ holds d r ∧
         ∀ old, at_key w (draft_key b d) = Some old → same_row old r;
  stored_others : ∀ k, k ∉ map (draft_key b) drafts → at_key w' k = at_key w k;
  stored_kept : ∀ k old, at_key w k = Some old → ∃ r, at_key w' k = Some r ∧ same_row old r
}.

Lemma same_row_trans r1 r2 r3 : same_row r1 r2 → same_row r2 r3 → same_row r1 r3.
Proof. unfold same_row. intros [-> ->] [-> ->]. done. Qed.

Lemma stored_nil w : obs_ok w → obs_drawn w → stored [] w w.
Proof.
  intros Hok Hd. constructor; [done..| |done|].
  - intros pre d post Hnil. by destruct pre.
  - intros k old Hold. by exists old.
Qed.

Lemma upserted_kept d w w' o k old :
  upserted d w w' o → at_key w k = Some old → ∃ r, at_key w' k = Some r ∧ same_row old r.
Proof.
  intros [_ _ (r & _ & _ & Hr & Hsame) Hothers] Hold. destruct (decide (k = draft_key b d)) as [->|Hk].
  - exists r. split; [done|]. by apply Hsame.
  - exists old. by rewrite Hothers.
Qed.

Lemma stored_cons d drafts w w1 w2 o :
  upserted d w w1 o → obs_drawn w1 → (w.(obs_uuids_drawn) <= w1.(obs_uuids_drawn))%nat →
  stored drafts w1 w2 → stored (d :: drafts) w w2.
Proof.
  intros Hup Hd1 Hn [(Hok & Hd & Hn') Href Hrows Hothers Hkept]. constructor.
  - split; [done|]. split; [done|lia].
  - by eapply same_references_trans; [apply (upserted_references _ _ _ _ Hup)|].
  - intros [|x pre] e post E Hpost; injection E as -> E.
    + subst post. destruct (upserted_row _ _ _ _ Hup) as (r & _ & Hh & Hr & Hsame).
      exists r. by rewrite Hothers.
    + destruct (Hrows pre e post E Hpost) as (r & Hr & Hh & Hsame). exists r. split; [done|]. split; [done|].
      intros old Hold. destruct (upserted_kept _ _ _ _ _ _ Hup Hold) as (r1 & Hr1 & Hs1).
      eapply same_row_trans; [exact Hs1|by apply Hsame].
  - intros k. cbn. rewrite not_elem_of_cons. intros [Hk Hks]. rewrite Hothers by done. by eapply upserted_others.
  - intros k old Hold. destruct (upserted_kept _ _ _ _ _ _ Hup Hold) as (r1 & Hr1 & Hs1).
    destruct (Hkept _ _ Hr1) as (r2 & Hr2 & Hs2). exists r2. split; [done|by eapply same_row_trans].
Qed.

Lemma observed_references w w' : same_references w w' → references_exist w ↔ references_exist w'.
Proof. unfold references_exist. by intros (-> & -> & ->). Qed.

Lemma observe_all_spec `{!RuntimeOk} drafts w :
  obs_ok w → obs_drawn w →
  match for_each (upsert_observation b evidence) drafts w with
  | (Return os, w') => stored drafts w w' ∧ length os = length drafts ∧ (drafts ≠ [] → references_exist w)
  | (Raise e, w') => ¬ references_exist w ∧ drafts ≠ [] ∧ (w.(obs_uuids_drawn) <= w'.(obs_uuids_drawn))%nat
  end.
Proof.
  revert w. induction drafts as [|d drafts IH]; intros w Hok Hd.
  { cbn. split; [by apply stored_nil|done]. }
  cbn [for_each]. unfold mbind, prog_bind.
  pose proof (upsert_observation_spec d w Hok) as Hone.
  pose proof (upsert_observation_draws d w Hok Hd) as [Hd1 Hn].
  destruct (upsert_observation b evidence d w) as [[o|e] w1]; cbn in Hd1, Hn.
  - pose proof (upserted_references _ _ _ _ Hone) as [Href Hex].
    specialize (IH w1 (upserted_ok _ _ _ _ Hone) Hd1).
    destruct (for_each _ drafts w1) as [[os|e] w2].
    + destruct IH as (Hst & Hlen & _). cbn. split; [by eapply stored_cons|]. split; [by f_equal|done].
    + destruct IH as [Hno _]. by rewrite <- (observed_references w w1) in Hno.
  - split; [|done]. destruct Hone as [?|Htaken]; [done|]. rewrite obs_drawn_fresh in Htaken by done.
    by destruct Htaken.
Qed.
End upsert.
