(* ===== verification/ProbeTheorems.v ===== *)
(** * Protocol audits: what may be probed, how, and what is recorded

    The properties of host names, matched work, commands, parsers and the store of
    observations. *)

From S2P Require Import Prelude PyBase PyText JobModels JobStore JobSystem Ip IpProofs ScopeEngine FindModels Inventory InventoryQueries InventoryTheorems Regex ProbeModels ProbeTargets ProbeParsers ProbeModules ProbeStore ProbeTargetsProofs ProbeStoreProofs.

(** ** Host names *)

(** A host name is handed to a tool exactly when, without surrounding blanks and final
    dots, it is 1 to 253 characters of labels between dots, each of 1 to 63 letters, digits
    and hyphens with no hyphen at an end; what is handed over is that name. *)
Theorem safe_hostname_exact value :
  safe_hostname (Some value) =
    (let name := rstrip_by (Ascii.eqb dot) (strip value) in
     if forallb label_ok (split_on dot name) && (String.length name <=? 253)%nat then Some name else None).
Proof. apply safe_hostname_eq. Qed.

Example a_safe_hostname : safe_hostname (Some " printer-2.lan. ") = Some "printer-2.lan".
Proof. vm_compute. reflexivity. Qed.
Example an_option_is_refused : safe_hostname (Some "-oProxyCommand=x") = None.
Proof. vm_compute. reflexivity. Qed.

(** ** Work *)

(** Matched work is exactly the pairs of a selected default module and an open service
    it matches whose asset has an address in the confirmed scope.  Each target is of its own
    service and asset, at the canonical text of an address of that asset inside a confirmed
    network, on the service's port, with a host name of the asset or none; gated modules get
    no work. *)
Theorem match_work_correct r assets services sc allowed work :
  registry_ok r → match_work r assets services sc allowed = Return work →
  (∀ w, w ∈ work → ∃ s asset m,
     s ∈ services ∧ asset ∈ assets ∧ asset.(record_asset).(asset_id) = s.(srv_asset_id) ∧
     target_of asset s sc w.(work_target) ∧
     get_module r w.(work_module) = Return m ∧ w.(work_module) ∈ default_names r ∧
     m.(module_name) = w.(work_module) ∧ m.(safety) ≠ NEVER_DEFAULT ∧ module_matches m s = true ∧
     (∀ l, allowed = Some l → w.(work_module) ∈ l)) ∧
  (∀ s asset row a m,
     s ∈ services → is_open_service s = true → asset_by_id assets s.(srv_asset_id) = Some asset →
     row ∈ asset.(record_addresses) → ip_address (strip row.(address)) = Return a → in_scope sc a →
     m ∈ default_modules r → (∀ l, allowed = Some l → m.(module_name) ∈ l) → module_matches m s = true →
     ∃ t, mkWork m.(module_name) t ∈ work ∧ target_of asset s sc t).
Proof.
  intros Hr Hwork. split.
  - intros w Hw. destruct (matched_sound _ _ _ _ _ _ Hr Hwork w Hw) as (s & asset & m & H). by exists s, asset, m.
  - by eapply matched_complete.
Qed.

(** ** Commands *)

(** The registry of the program. *)
Definition program_modules (json_loads : string → option pyval) : list ProtocolModule :=
  [SshModule json_loads; TlsModule; HttpModule; DnsModule; SmbModule; SnmpModule; LdapModule].
Definition program_registry (json_loads : string → option pyval) : ModuleRegistry :=
  mkRegistry (map (fun m => (m.(module_name), m)) (program_modules json_loads))
    [("testssl", TestsslModule); ("nikto", NiktoModule); ("nuclei", NucleiModule)].

Lemma default_registry_eq json_loads : default_registry json_loads = Return (program_registry json_loads).
Proof. reflexivity. Qed.

Lemma program_registry_ok json_loads : registry_ok (program_registry json_loads).
Proof. eapply register_all_ok; [apply registry_empty|]. apply (default_registry_eq json_loads). Qed.

Lemma module_commands_ok json_loads settings t m cs :
  0 ≤ settings.(protocol_audit_timeout_seconds) → target_ok t →
  m ∈ default_modules (program_registry json_loads) → m.(build_commands) t settings = Return cs →
  Forall (probe_command (m.(tool_name) settings)) cs.
Proof.
  intros Hs Ht Hm. assert (m ∈ program_modules json_loads) as Hin.
  { apply (default_modules_spec _ (program_registry_ok json_loads)), dict_get_elem in Hm.
    apply list_elem_of_fmap in Hm as (x & [= _ <-] & Hx). done. }
  unfold program_modules in Hin. rewrite !elem_of_cons, elem_of_nil in Hin.
  destruct Hin as [->|[->|[->|[->|[->|[->|[->|[]]]]]]]]; intros H.
  - by eapply ssh_commands_ok.
  - by eapply tls_commands_ok.
  - by eapply http_commands_ok.
  - by eapply dns_commands_ok.
  - by eapply smb_commands_ok.
  - by eapply snmp_commands_ok.
  - by eapply ldap_commands_ok.
Qed.

(** ** Parsers *)


(** A run that printed a text and exited with status 0. *)
Definition printed (tool text : string) : ToolResult :=
  mkToolResult [tool] tool (Some 0) text "" 0 0 0 false false true None.

(** A certificate subject can carry a verify code of more digits than [int] reads: the
    parser raises. *)
Definition long_code : string := "subject=CN = Verify return code: " +:+ String.concat "" (repeat "1" 4301).
Example openssl_parser_raises :
  parse_openssl_sclient (printed "openssl" long_code) =
    Raise (ProbeValueError "invalid literal for int() with base 10").
Proof. vm_compute. reflexivity. Qed.

(** ** Observations *)

Section observations.
Context `{Runtime, !RuntimeOk}.

Lemma last_occurrence {A B} `{EqDecision B} (f : A → B) k (l : list A) :
  k ∈ map f l → ∃ pre x post, l = pre ++ x :: post ∧ f x = k ∧ k ∉ map f post.
Proof.
  induction l as [|x l IH]; cbn; [by intros ?%elem_of_nil|]. intros Hk.
  destruct (decide (k ∈ map f l)) as [Hl|Hl].
  - destruct (IH Hl) as (pre & y & post & -> & Hy & Hpost). by exists (x :: pre), y, post.
  - apply elem_of_cons in Hk as [->|?]; [by exists [], x, l|done].
Qed.

(** Storing the drafts of a module run keeps the table well formed, one row per audit,
    asset, service, module, kind and dedupe key.  It succeeds when audit, asset and service
    exist, and then each identity among the drafts has one row, which says what the last
    draft of that identity says and keeps the id and first-seen time of an earlier row; every
    other row stays, and no other is added.  Otherwise it fails and the table is untouched. *)
Theorem upsert_many_correct b drafts evidence w :
  obs_ok w → obs_drawn w →
  match upsert_many b drafts evidence w with
  | (Return os, w') =>
      (drafts ≠ [] → references_exist b w) ∧ length os = length drafts ∧
      obs_ok w' ∧ obs_drawn w' ∧ same_references w w' ∧
      (∀ pre d post, drafts = pre ++ d :: post → draft_key b d ∉ map (draft_key b) post →
         ∃ r, at_key w' (draft_key b d) = Some r ∧ holds b evidence d r ∧
              ∀ old, at_key w (draft_key b d) = Some old → same_row old r) ∧
      (∀ k, k ∉ map (draft_key b) drafts → at_key w' k = at_key w k) ∧
      (∀ k, is_Some (at_key w' k) ↔ is_Some (at_key w k) ∨ k ∈ map (draft_key b) drafts)
  | (Raise e, w') =>
      ¬ references_exist b w ∧ w'.(protocol_observations) = w.(protocol_observations) ∧ same_references w w'
  end.
Proof.
  intros Hok Hd. unfold upsert_many, obs_transaction.
  pose proof (observe_all_spec b evidence drafts w Hok Hd) as Hall.
  destruct (for_each _ drafts w) as [[os|e] w']; [|by destruct Hall].
  destruct Hall as ([(Hok' & Hd' & _) Href Hrows Hothers Hkept] & Hlen & Hex). split_and!; try done.
  intros k. split.
  - destruct (decide (k ∈ map (draft_key b) drafts)) as [?|Hk]; [auto|]. rewrite Hothers by done. auto.
  - intros [(old & Hold)|Hk]; [destruct (Hkept _ _ Hold) as (r & -> & _); by eexists|].
    apply last_occurrence in Hk as (pre & d & post & E & <- & Hpost).
    destruct (Hrows _ _ _ E Hpost) as (r & -> & _). by eexists.
Qed.
End observations.

(** ** The theorems at work *)

Definition scanned_assets : list AssetRecord :=
  match (list_assets demo_vendors None "a" 10 0 no_filter false scanned).1 with Return p => p.(items) | Raise _ => [] end.
Definition scanned_services : list ServiceModel :=
  match (list_services demo_vendors None "a" 10 0 (mkServiceFilter None None None None None None) scanned).1 with
  | Return p => p.(items) | Raise _ => [] end.
Definition subnet_scope (target : string) : ConfirmedScopeModel :=
  mkScopeRow "scope" "a" 0 None STANDARD "eth0" [target] [4] 16 [] "polite" None "hash".
Definition web_work (target : string) : PO (list MatchedWork) :=
  match_work (program_registry (fun _ => None)) scanned_assets scanned_services (subnet_scope target) None.

Example web_server_matched :
  match web_work "192.0.2.0/28" with
  | Return work => map (fun w => (w.(work_module), w.(work_target).(target_address), w.(work_target).(target_hostname))) work
  | Raise _ => []
  end = [("http", "192.0.2.7", Some "web.example")].
Proof. vm_compute. reflexivity. Qed.
Example web_server_out_of_scope : web_work "192.0.2.64/28" = Return [].
Proof. vm_compute. reflexivity. Qed.

Lemma match_work_correct_witness :
  match web_work "192.0.2.0/28" with
  | Return work => work ≠ [] ∧
      ∀ w, w ∈ work → ∃ asset s, asset ∈ scanned_assets ∧ target_of asset s (subnet_scope "192.0.2.0/28") w.(work_target)
  | Raise _ => False
  end.
Proof.
  pose proof (eq_refl : match web_work "192.0.2.0/28" with Return (_ :: _) => true | _ => false end = true) as Hret.
  destruct (web_work "192.0.2.0/28") as [work|] eqn:Hwork; [|discriminate Hret].
  split; [by destruct work|]. intros w Hw.
  destruct (proj1 (match_work_correct (program_registry (fun _ => None)) scanned_assets scanned_services
    (subnet_scope "192.0.2.0/28") None work (program_registry_ok _) Hwork) w Hw) as (s & asset & m & _ & Ha & _ & Ht & _).
  exists asset, s. split; [exact Ha|exact Ht].
Defined.


Definition observed_host : ObsWorld := mkObsWorld ∅ {["a"]} {["host"]} {["service"]} 0 0.
Definition by_http : ObservedBy := mkObservedBy "a" "host" "service" "http" "http".
Definition two_answers : list ObservationDraft :=
  [mkObservationDraft "http_response" [("status_code", PInt 200)] CONF_HIGH "curl" "";
   mkObservationDraft "http_response" [("status_code", PInt 404)] CONF_HIGH "curl" ""].

Lemma observed_host_ok : obs_ok observed_host ∧ obs_drawn observed_host.
Proof.
  assert (∀ id, observed_host.(protocol_observations) !! id = None) as Hno by (intros; apply lookup_empty).
  split; [split; intros *; rewrite ?Hno; done|]. intros id [r Hr]. by rewrite Hno in Hr.
Qed.

Lemma upsert_many_correct_witness :
  match upsert_many by_http two_answers None observed_host with
  | (Return os, w') => length os = 2%nat ∧ obs_ok w' ∧ size w'.(protocol_observations) = 1%nat
  | (Raise _, _) => False
  end.
Proof.
  pose proof (upsert_many_correct by_http two_answers None observed_host (proj1 observed_host_ok) (proj2 observed_host_ok)) as H.
  pose proof (eq_refl : size (upsert_many by_http two_answers None observed_host).2.(protocol_observations) = 1%nat) as Hsize.
  destruct (upsert_many by_http two_answers None observed_host) as [[os|e] w'].
  - destruct H as (_ & Hlen & Hok & _). split; [exact Hlen|]. split; [exact Hok|exact Hsize].
  - destruct H as [Hno _]. apply Hno. repeat split; cbn; set_solver.
Defined.
