(* ===== verification/ProbeRunProofs.v ===== *)
(** * Running protocol audits: the commands that are run, and the tables that stay well formed

    Two relations between the site before and after a program: what was run in between is
    of a given kind, and every table of the site keeps its invariant. *)

From S2P Require Import Prelude PyBase PyText JobModels JobStore JobSystem Sha256 Ip ScopeEngine Nmap FindModels FindDates InventoryBase Inventory InventoryIngest InventoryQueries InventoryInvariant InventorySystem InventoryTheorems Regex ProbeModels ProbeTargets ProbeParsers ProbeModules Evidence EvidenceProofs EvidenceTheorems ProbeStore ProbeRun ProbeTargetsProofs ProbeStoreProofs ProbeTheorems.

(** ** Pure code *)

Section pure_along.
Context (R : Site → Site → Prop) `{!PreOrder R}.

Lemma along_pure {A} (o : PO A) : along R (pure o).
Proof. destruct o; [apply along_ret|apply along_raise]; apply _. Qed.

(** After a pure computation its result is known. *)
Lemma along_pure_bind {A B} (o : PO A) (k : A → SM B) : (∀ a, o = Return a → along R (k a)) → along R (pure o ≫= k).
Proof.
  intros Hk s. apply along_then; [apply _|apply along_pure|]. intros a s' E. destruct o as [b|e]; [|done].
  injection E as <- <-. by apply Hk.
Qed.
End pure_along.

#[export] Hint Resolve along_pure : along.

(** ** What is run *)

(** The runs added between two sites are of a kind. *)
Definition runs_added (P : ToolCommand → Prop) (s s' : Site) : Prop :=
  ∃ l, s'.(site_runs) = s.(site_runs) ++ l ∧ Forall P l.

#[export] Instance runs_added_preorder P : PreOrder (runs_added P).
Proof.
  split.
  - intros s. exists []. by rewrite app_nil_r.
  - intros s1 s2 s3 (l1 & E1 & H1) (l2 & E2 & H2). exists (l1 ++ l2).
    rewrite E2, E1, app_assoc. by rewrite Forall_app.
Qed.

Lemma runs_mono (P Q : ToolCommand → Prop) s s' : (∀ c, P c → Q c) → runs_added P s s' → runs_added Q s s'.
Proof. intros HPQ (l & E & Hl). exists l. split; [done|]. by eapply Forall_impl. Qed.

(** A site with the same runs. *)
Lemma runs_same P s s' : s'.(site_runs) = s.(site_runs) → runs_added P s s'.
Proof. intros E. exists []. by rewrite E, app_nil_r. Qed.

(** The module was asked for its version, or to probe the target. *)
Definition version_check (settings : Settings) (m : ProtocolModule) : ToolCommand :=
  mkCommand (m.(tool_name) settings) m.(version_args) 5 [] [].
Definition probe_of (settings : Settings) (m : ProtocolModule) (t : ProbeTarget) (c : ToolCommand) : Prop :=
  c = version_check settings m ∨ ∃ cs, m.(build_commands) t settings = Return cs ∧ c ∈ cs.

Section runs.
Context `{Runtime, FileSystem, ToolHost} (settings : Settings).

Lemma runs_part {W E A} (P : ToolCommand → Prop) (view : Site → W) put (exc : E → SiteExc) (m : prog W E A) :
  (∀ s w, (put s w).(site_runs) = s.(site_runs)) → along (runs_added P) (on_part view put exc m).
Proof. intros Hput s. apply runs_same. unfold on_part. destruct (m (view s)). apply Hput. Qed.

Lemma runs_obs P {A} (m : OM A) : along (runs_added P) (on_obs m).
Proof. by apply runs_part. Qed.
Lemma runs_evidence P {A} (m : EM A) : along (runs_added P) (on_evidence m).
Proof. by apply runs_part. Qed.
Lemma runs_inventory P {A} (m : IM A) : along (runs_added P) (on_inventory m).
Proof. by apply runs_part. Qed.

Lemma runs_token P : along (runs_added P) token_cancelled.
Proof. intros s. by apply runs_same. Qed.

Lemma runs_command (P : ToolCommand → Prop) c : P c → along (runs_added P) (run_tool_command c).
Proof. intros Hc s. exists [c]. split; [done|]. by apply Forall_singleton. Qed.

Lemma runs_progress P p stage message : along (runs_added P) (_progress p stage message).
Proof.
  unfold _progress. cbv zeta. destruct (JobProgress_valid _); [|apply along_raise; apply _].
  intros s. by apply runs_same.
Qed.
End runs.

(** ** A module, and a piece of work, along any relation its steps are along *)

Section steps_along.
Context `{Runtime, FileSystem, ToolHost} (settings : Settings).
Context (R : Site → Site → Prop) `{!PreOrder R}.
Context (Htoken : along R token_cancelled)
  (Hprogress : ∀ p stage message, along R (_progress p stage message))
  (Hupsert : ∀ b drafts evidence, along R (on_obs (upsert_many b drafts evidence)))
  (Hput : ∀ audit job ty doc ret name ver, along R (on_evidence (put_json audit job ty doc ret name ver))).

Lemma ensure_along : along R ensure_not_cancelled.
Proof. apply along_bind; [apply _|apply Htoken|]. intros []; [apply along_raise|apply along_ret]; apply _. Qed.

Lemma availability_along m t :
  (∀ c, probe_of settings m t c → along R (run_tool_command c)) → along R (availability settings m).
Proof.
  intros Hrun. unfold availability. destruct m.(fixed_availability); [apply along_ret; apply _|].
  destruct (which _); [|apply along_ret; apply _]. apply along_pure_bind; [apply _|]. intros c Hc.
  apply along_bind; [apply _| |intros; apply along_pure; apply _]. apply Hrun. left.
  unfold build_tool_command in Hc. destruct (negb _); [done|]. by injection Hc as <-.
Qed.

Lemma module_along m t audit job :
  (∀ c, probe_of settings m t c → along R (run_tool_command c)) → along R (run_module settings m t audit job).
Proof.
  intros Hrun. unfold run_module. apply along_bind; [apply _|apply ensure_along|intros _].
  apply along_bind; [apply _|by eapply availability_along|intros a]. destruct (_ || _).
  { apply along_pure_bind; [apply _|]. intros d _. apply along_bind; [apply _|apply Hupsert|].
    intros; apply along_ret; apply _. }
  apply along_pure_bind; [apply _|]. intros cs Hcs.
  apply along_bind; [apply _| |].
  { apply along_for_each; [apply _|]. intros c Hc. unfold run_command.
    apply along_bind; [apply _|apply ensure_along|intros _].
    apply along_bind; [apply _|apply Hrun; right; by exists cs|].
    intros result. destruct result.(result_cancelled); [apply along_raise|apply along_ret]; apply _. }
  intros results. apply along_pure_bind; [apply _|]. intros drafts _.
  apply along_bind; [apply _| |].
  { unfold _store_evidence. apply along_bind; [apply _|apply Hput|]. intros; apply along_ret; apply _. }
  intros artifact. apply along_bind; [apply _|apply Hupsert|]. intros; apply along_ret; apply _.
Qed.

Lemma work_along registry audit job total iw :
  (∀ m c, get_module registry iw.2.(work_module) = Return m → probe_of settings m iw.2.(work_target) c →
     along R (run_tool_command c)) →
  along R (run_work settings registry audit job total iw).
Proof.
  intros Hrun. destruct iw as [index w]. unfold run_work. cbn [snd] in *.
  apply along_bind; [apply _|apply ensure_along|intros _].
  apply along_pure_bind; [apply _|]. intros m Hm. apply along_bind; [apply _|apply Hprogress|intros _].
  apply along_bind; [apply _| |intros; apply along_ret; apply _].
  apply module_along. intros c. by apply Hrun.
Qed.
End steps_along.

(** ** The job *)

Section job.
Context `{Runtime, FileSystem, ToolHost} (settings : Settings).
Context (vendors : OuiResolver) (read_json : option (ArtifactModel → outcome InvExc pyval)).

(** The modules a request names. *)
Definition requested (parameters : dict) (l : list string) : Prop :=
  ∃ ms, get parameters "modules" = PList ms ∧ ∀ n, n ∈ l → n ∈ map py_str ms.

Lemma parameters_spec registry parameters s allowed s' :
  _parameters registry parameters s = (Return allowed, s') →
  s' = s ∧ (allowed = None → get parameters "modules" = PNone) ∧ ∀ l, allowed = Some l → requested parameters l ∧ (∀ n, n ∈ l → n ∈ default_names registry ∧ is_gated registry n = false).
Proof.
  unfold _parameters, mret, prog_ret. cbv zeta. destruct (negb _); [done|].
  destruct (get parameters "modules") as [| | | |ms|] eqn:Hm; try done.
  { intros [= <- <-]. by split. }
  destruct ms as [|v ms]; [done|].
  set (allowed' := foldl append_new [] _).
  destruct (not_empty (List.filter (is_gated registry) (sort_by str_le allowed'))) eqn:Hg; [done|].
  destruct (not_empty (sort_by str_le (List.filter _ allowed'))) eqn:Hu; [done|]. cbv beta. intros [= <- <-]. split; [done|]. split; [done|]. intros l [= <-].
  assert (∀ x (l : list string), x ∈ l → not_empty l = true) as Hne by (intros x [|? ?] Hx; [by apply elem_of_nil in Hx|done]).
  split.
  - exists (v :: ms). split; [done|]. intros n Hn. apply append_all_elem in Hn as [?%elem_of_nil|Hn]; done.
  - intros n Hn. split.
    + destruct (str_in n (default_names registry)) eqn:E; [by apply str_in_spec|].
      rewrite (Hne n) in Hu; [done|]. apply elem_of_sort_by, elem_of_lfilter. by rewrite E.
    + destruct (is_gated registry n) eqn:E; [|done]. rewrite (Hne n) in Hg; [done|].
      apply elem_of_lfilter. split; [by apply elem_of_sort_by|done].
Qed.

Lemma parameters_runs registry parameters s : (_parameters registry parameters s).2.(site_runs) = s.(site_runs).
Proof. unfold _parameters. cbv zeta. by repeat case_match. Qed.

Lemma load_scope audit s sc assets services s' :
  load_inventory vendors read_json audit s = (Return (sc, assets, services), s') →
  (latest_scope audit s.(site_inventory)).1 = Return (Some sc).
Proof.
  unfold load_inventory. intros (o & s1 & Ho & Hrun)%bind_return_inv.
  assert (o = Some sc) as ->.
  2: { unfold on_inventory, on_part, latest_scope, reads in *. cbn in *. congruence. }
  destruct o as [sc'|]; [|done]. apply bind_return_inv in Hrun as (a & s2 & _ & Hrun).
  apply bind_return_inv in Hrun as (b & s3 & _ & Hrun). destruct (items b); [done|]. by injection Hrun as ->.
Qed.

Lemma runs_load P audit : along (runs_added P) (load_inventory vendors read_json audit).
Proof.
  unfold load_inventory. apply along_bind; [apply _|apply runs_inventory|intros [sc|]]; [|apply along_raise; apply _].
  apply along_bind; [apply _|apply runs_inventory|intros assets].
  apply along_bind; [apply _|apply runs_inventory|intros services].
  destruct (items services); [apply along_raise|apply along_ret]; apply _.
Qed.

(** A command of an audit: of a default module the request allows, against a target matched
    in the scope confirmed when it began. *)
Definition audit_command (registry : ModuleRegistry) (parameters : dict) (audit : string) (s : Site) (c : ToolCommand) : Prop :=
  ∃ sc m asset srv t,
    (latest_scope audit s.(site_inventory)).1 = Return (Some sc) ∧
    m ∈ default_modules registry ∧ m.(safety) ≠ NEVER_DEFAULT ∧
    (∀ ms, get parameters "modules" = PList ms → m.(module_name) ∈ map py_str ms) ∧
    asset.(record_asset).(asset_id) = srv.(srv_asset_id) ∧ target_of asset srv sc t ∧
    module_matches m srv = true ∧ probe_of settings m t c.

Lemma ensure_inventory s s' : ensure_not_cancelled s = (Return tt, s') → s'.(site_inventory) = s.(site_inventory).
Proof. unfold ensure_not_cancelled, token_cancelled, mbind, prog_bind. case_match; [done|]. by intros [= <-]. Qed.

Lemma progress_inventory p stage message s u s' :
  _progress p stage message s = (Return u, s') → s'.(site_inventory) = s.(site_inventory).
Proof. unfold _progress. cbv zeta. case_match; [|done]. by intros [= <- <-]. Qed.

Lemma execute_runs registry audit job parameters s :
  registry_ok registry →
  runs_added (audit_command registry parameters audit s) s
    (execute_audit settings vendors read_json registry audit job parameters s).2.
Proof.
  intros Hreg. set (R := runs_added (audit_command registry parameters audit s)).
  assert (PreOrder R) as HR by apply _. change (R s (execute_audit settings vendors read_json registry audit job parameters s).2).
  unfold execute_audit.
  apply (along_then R); [apply (ensure_along R), runs_token|]. intros [] s1 E1%ensure_inventory.
  apply (along_then R); [apply runs_progress|]. intros u s2 E2%progress_inventory.
  apply (along_then R); [intros x; apply runs_same, parameters_runs|].
  intros allowed s3 (-> & Hnone & Hallowed)%parameters_spec.
  apply (along_then R); [apply runs_load|]. intros [[sc assets] services] s4 Hload%load_scope.
  rewrite E2, E1 in Hload. revert s4. apply (along_bind R); [apply (ensure_along R), runs_token|intros _].
  apply (along_bind R); [apply runs_progress|intros _].
  apply (along_pure_bind R). intros work Hwork. cbv zeta. apply (along_bind R).
  { apply (along_for_each R). intros [i w] Hw. apply (work_along settings R);
      [apply runs_token|apply runs_progress|intros; apply runs_obs|intros; apply runs_evidence|].
    intros m c Hm Hc. cbn [snd] in *. apply elem_of_zip_r in Hw. apply runs_command.
    destruct (matched_sound _ _ _ _ _ _ Hreg Hwork w Hw) as
      (srv & asset & m' & _ & _ & Hid & Ht & Hm' & Hname & Hn & Hsafe & Hmatch & Hl).
    rewrite Hm in Hm'. injection Hm' as <-. exists sc, m, asset, srv, w.(work_target). split_and!; try done.
    - apply default_modules_spec; [done|]. rewrite Hn. unfold get_module in Hm.
      destruct (dict_get registry.(_modules) w.(work_module)) eqn:E; [by injection Hm as ->|].
      apply dict_get_None in E. by apply elem_of_sort_by in Hname.
    - intros ms Hms. destruct allowed as [l|]; [|].
      + destruct (Hallowed l eq_refl) as [(ms' & Hms' & Hin) _]. rewrite Hms in Hms'. injection Hms' as <-.
        rewrite Hn. by apply Hin, Hl.
      + rewrite Hnone in Hms by done. discriminate Hms. }
  intros runs. apply (along_bind R); [apply (ensure_along R), runs_token|intros _].
  apply (along_bind R); [apply runs_progress|intros _].
  apply (along_bind R); [apply runs_obs|intros n]. cbv zeta.
  apply (along_bind R); [apply runs_evidence|]. intros; apply (along_ret R).
Qed.
End job.

(** ** Protocol audits: the tables of the site stay well formed

    The inventory, the evidence and the observations share one database.  Each keeps its
    invariant while a program of another runs, so a whole audit keeps all three. *)

Section site.
Context `{Runtime, !RuntimeOk, FileSystem, !PlainIds, ToolHost}.

Record site_ok (s : Site) : Prop := {
  site_inv : inv_ok s.(site_inventory);
  site_artifacts : artifacts_ok s.(site_inventory);
  site_evidence : evidence_ok (ev_view s);
  site_obs : obs_ok (obs_view s);
  site_drawn : obs_drawn (obs_view s)
}.

(** What a later site keeps: audits and jobs, and every row of the other tables, as the
    inventory's rows evolve, artifacts as they are and observations with their identity. *)
Record site_grows (s s' : Site) : Prop := {
  grows_audits : s'.(site_inventory).(audit_ids) = s.(site_inventory).(audit_ids);
  grows_jobs : s'.(site_inventory).(job_ids) = s.(site_inventory).(job_ids);
  grows_assets : table_evolves asset_kept s.(site_inventory).(assets) s'.(site_inventory).(assets);
  grows_services : table_evolves service_kept s.(site_inventory).(services) s'.(site_inventory).(services);
  grows_artifacts : s.(site_inventory).(audit_artifacts) ⊆ s'.(site_inventory).(audit_artifacts);
  grows_observations : ∀ k r, at_key (obs_view s) k = Some r → ∃ r', at_key (obs_view s') k = Some r' ∧ same_row r r'
}.

(** Well formed before, well formed after, and nothing lost. *)
Definition kept (s s' : Site) : Prop := site_ok s → site_ok s' ∧ site_grows s s'.

#[export] Instance service_kept_preorder : PreOrder service_kept.
Proof.
  split; [done|]. unfold service_kept, service_key. intros a b c (-> & (-> & -> & ->) & ->) (-> & (-> & -> & ->) & ->). done.
Qed.

#[export] Instance kept_preorder : PreOrder kept.
Proof.
  split.
  - intros s Hs. split; [done|]. constructor; try done; try (apply table_evolves_refl; apply _).
    intros k r Hr. by exists r.
  - intros s1 s2 s3 H12 H23 G1. destruct (H12 G1) as [G2 [A1 A2 A3 A4 A5 A6]]. destruct (H23 G2) as [G3 [B1 B2 B3 B4 B5 B6]].
    split; [done|]. constructor; [congruence|congruence|by eapply table_evolves_trans; [apply _|..]|
      by eapply table_evolves_trans; [apply _|..]|by etrans|].
    intros k r Hr. destruct (A6 k r Hr) as (r' & Hr' & E1). destruct (B6 k r' Hr') as (r'' & Hr'' & E2).
    exists r''. split; [done|by eapply same_row_trans].
Qed.

(** *** Programs of the inventory *)

Lemma evidence_later w d c :
  evidence_ok w → (w.(ev_uuids_drawn) <= d)%nat → evidence_ok (w <| ev_clock_reads := c |> <| ev_uuids_drawn := d |>).
Proof. intros Hok Hd. eapply ok_quiet; [exact Hok|]. by split. Qed.

Lemma obs_dom `{R : Type} (Q : R → R → Prop) (t t' : gmap string R) id : table_evolves Q t t' → id ∈ dom t → id ∈ dom t'.
Proof. rewrite !elem_of_dom. intros Ht [r Hr]. destruct (Ht _ _ Hr) as (r' & ? & _). by eexists. Qed.

Lemma kept_inventory_at {A} (m : IM A) s :
  (inv_ok s.(site_inventory) → artifacts_ok s.(site_inventory) →
     inv_ok (m s.(site_inventory)).2 ∧ InventoryInvariant.evolves s.(site_inventory) (m s.(site_inventory)).2) →
  kept s (on_inventory m s).2.
Proof.
  intros Hm Hs. unfold on_inventory, on_part.
  destruct (Hm (site_inv s Hs) (site_artifacts s Hs)) as [Hok Hev].
  destruct (m s.(site_inventory)) as [r i']. cbn [fst snd] in *. destruct Hev as [E1 E2 E3 E4 E5 E6 E7 E8 E9 E10].
  destruct (site_obs s Hs) as [O1 O2 O3].
  assert (obs_ok (obs_view (inv_put s i'))) as Hobs.
  { constructor; [exact O1|exact O2|]. intros id r' Hr. destruct (O3 id r' Hr) as (Ha & Hb & Hc). cbn in *.
    rewrite E2. split; [done|]. split; by eapply obs_dom. }
  split; [constructor|constructor]; try done.
  - intros id a. cbn. rewrite E4, E2. apply (site_artifacts s Hs).
  - unfold ev_view. cbn. rewrite E2, E3, E4. exact (evidence_later _ _ _ (site_evidence s Hs) E1).
  - intros id Hid. destruct (site_drawn s Hs id Hid) as (n & Hn & ->). exists n. split; [cbn in *; lia|done].
  - cbn. by rewrite E4.
  - intros k r' Hr. by exists r'.
Qed.

Lemma kept_inventory {A} (m : IM A) :
  (∀ i, inv_ok i → artifacts_ok i → inv_ok (m i).2 ∧ InventoryInvariant.evolves i (m i).2) →
  along kept (on_inventory m).
Proof. intros Hm s. apply kept_inventory_at, Hm. Qed.

Lemma steps_kept {A} E P (m : IM A) i : steps E P m i → inv_ok (m i).2 ∧ InventoryInvariant.evolves i (m i).2.
Proof. unfold steps, wp. by intros (? & ? & _). Qed.

(** *** Storing observations *)

(** What a program of the store does to its table. *)
Definition table_kept (w w' : ObsWorld) : Prop :=
  obs_ok w' ∧ obs_drawn w' ∧ (w.(obs_uuids_drawn) <= w'.(obs_uuids_drawn))%nat ∧ same_references w w' ∧
  ∀ k r, at_key w k = Some r → ∃ r', at_key w' k = Some r' ∧ same_row r r'.

Lemma obs_view_put s w : same_references (obs_view s) w → obs_view (obs_put s w) = w.
Proof. intros (E1 & E2 & E3). destruct w. cbn in *. by subst. Qed.

Lemma kept_observations {A} (m : OM A) :
  (∀ w, obs_ok w → obs_drawn w → table_kept w (m w).2) → along kept (on_obs m).
Proof.
  intros Hm s Hs. unfold on_obs, on_part.
  destruct (Hm (obs_view s) (site_obs s Hs) (site_drawn s Hs)) as (Hok & Hd & Hn & Href & Hkept).
  destruct (m (obs_view s)) as [r w']. cbn [fst snd] in *. pose proof (obs_view_put s w' Href) as Hview.
  split; [constructor|constructor].
  - apply (inv_ok_drawn (s.(site_inventory) <| inv_clock_reads := w'.(obs_clock_reads) |>)); [|exact Hn].
    apply inv_ok_clock, Hs.
  - exact (site_artifacts s Hs).
  - exact (evidence_later _ _ _ (site_evidence s Hs) Hn).
  - by rewrite Hview.
  - by rewrite Hview.
  - done.
  - done.
  - apply table_evolves_refl; apply _.
  - apply table_evolves_refl; apply _.
  - done.
  - by rewrite Hview.
Qed.

Lemma kept_upsert b drafts evidence : along kept (on_obs (upsert_many b drafts evidence)).
Proof.
  apply kept_observations. intros w Hok Hd. unfold upsert_many, obs_transaction.
  pose proof (observe_all_spec b evidence drafts w Hok Hd) as Hall.
  destruct (for_each _ drafts w) as [[os|e] w'].
  - destruct Hall as ([(G1 & G2 & G3) G4 _ _ G5] & _). done.
  - destruct Hall as (_ & _ & Hn). cbn. split_and!; [by destruct Hok| |done|done|intros k r Hr; by exists r].
    intros id Hid. destruct (Hd id Hid) as (n & Hlt & ->). exists n. split; [cbn; lia|done].
Qed.

Lemma kept_count audit : along kept (on_obs (count_observations audit)).
Proof. apply kept_observations. intros w Hok Hd. split_and!; try done. intros k r Hr. by exists r. Qed.

(** *** Storing evidence *)

Definition moves_on (w w' : EvWorld) : Prop := frames (fun _ => True) w w'.

#[export] Instance later_preorder : PreOrder moves_on.
Proof.
  split; [by split|]. intros a b c [A1 A2 A3 _] [B1 B2 B3 _]. split; [congruence|congruence|lia|by intros p []].
Qed.

Definition passes {A} (m : EM A) : Prop := ∀ w, moves_on w (m w).2.

Lemma moves_on_keeps {A} P (m : EM A) : keeps P m → passes m.
Proof. intros Hm w. destruct (Hm w). by split. Qed.
Lemma moves_on_bind {A B} (m : EM A) (k : A → EM B) : passes m → (∀ a, passes (k a)) → passes (m ≫= k).
Proof.
  intros Hm Hk w. specialize (Hm w). unfold mbind, prog_bind. destruct (m w) as [[a|e] w']; [|done].
  etrans; [exact Hm|apply Hk].
Qed.
Lemma moves_on_try {A} (m : EM A) (h : EvExc → EM A) : passes m → (∀ e, passes (h e)) → passes (try_except m h).
Proof.
  intros Hm Hh w. specialize (Hm w). unfold try_except. destruct (m w) as [[a|e] w']; [done|].
  etrans; [exact Hm|apply Hh].
Qed.

Lemma moves_on_put_file m code prefix fill : (∀ temp, passes (fill temp)) → passes (put_file m code prefix fill).
Proof.
  intros Hfill. pose proof (fun A => @moves_on_keeps A (fun _ => True)) as Hk. unfold put_file.
  apply moves_on_bind; [apply Hk, keeps_uuid|intros id].
  apply moves_on_bind; [apply moves_on_try; [apply Hk, keeps_path|intros e; apply Hk, keeps_undo; done]|intros path].
  apply moves_on_bind; [apply Hk, keeps_uuid|intros u].
  apply moves_on_try; [|intros e; apply Hk, keeps_undo; done]. unfold write_artifact, _register, add_artifact.
  apply moves_on_bind; [apply Hfill|intros wr].
  apply moves_on_bind; [by apply Hk, keeps_replace|intros _].
  do 3 (apply moves_on_bind; [apply Hk, keeps_nothing|intros _]).
  apply moves_on_bind; [apply Hk, keeps_now|intros now]. apply moves_on_bind; [|intros; by apply Hk, keeps_ret].
  apply moves_on_bind; [apply Hk, keeps_nothing|intros _]. apply moves_on_bind; [apply Hk, keeps_reads|intros w].
  repeat (case_match; try by apply Hk, keeps_raise). all: intros x; by split.
Qed.

Lemma kept_put_file m code prefix fill payload :
  fills fill payload → (∀ temp, passes (fill temp)) → contains ".tmp-" m.(meta_extension) = false →
  along kept (on_evidence (put_file m code prefix fill)).
Proof.
  intros Hfill Hpass Hext s Hs. unfold on_evidence, on_part.
  pose proof (put_file_spec m code prefix _ _ (ev_view s) (site_evidence s Hs) Hfill Hext) as Hput.
  pose proof (moves_on_put_file m code prefix fill Hpass (ev_view s)) as Hlater.
  destruct (put_file m code prefix fill (ev_view s)) as [r w']. cbn [fst snd] in *. destruct Hlater as [E1 E2 Hn _].
  destruct Hput as (Hok & _ & _ & Hr).
  assert (s.(site_inventory).(audit_artifacts) ⊆ w'.(artifacts) ∧
          ∀ id a, w'.(artifacts) !! id = Some a → a.(artifact_audit_id) ∈ s.(site_inventory).(audit_ids)) as [Hsub Hart].
  { assert (w'.(artifacts) = s.(site_inventory).(audit_artifacts) ∨
            ∃ id a, s.(site_inventory).(audit_artifacts) !! id = None ∧
              w'.(artifacts) = <[id := a]> s.(site_inventory).(audit_artifacts) ∧
              a.(artifact_audit_id) ∈ s.(site_inventory).(audit_ids)) as [->|(id & a & Hnew & -> & Ha)].
    - destruct r as [a|[]]; try done; [|by left; apply Hr..].
      destruct Hr as ((_ & _ & Haud & _ & _ & _ & _ & _ & _ & Hnew & Hrows & _) & Hin & _). right.
      eexists _, a. split; [exact Hnew|]. split; [exact Hrows|]. rewrite Haud. exact Hin.
    - split; [done|]. apply (site_artifacts s Hs).
    - split; [by apply insert_subseteq|]. intros id' a' [[<- <-]|[_ Ha']]%lookup_insert_Some; [done|].
      by eapply (site_artifacts s Hs). }
  split; [constructor|constructor]; try done.
  - apply (inv_ok_drawn (s.(site_inventory) <| audit_artifacts := w'.(artifacts) |> <| inv_clock_reads := w'.(ev_clock_reads) |>));
      [|exact Hn]. apply inv_ok_clock. by destruct (site_inv s Hs).
  - by destruct w'; cbn in *; subst.
  - by destruct (site_obs s Hs).
  - intros id Hid. destruct (site_drawn s Hs id Hid) as (n & Hlt & ->). exists n. split; [cbn in *; lia|done].
  - apply table_evolves_refl; apply _.
  - apply table_evolves_refl; apply _.
  - intros k x Hx. by exists x.
Qed.

Lemma kept_put audit job ty doc ret name ver : along kept (on_evidence (put_json audit job ty doc ret name ver)).
Proof.
  unfold put_json, put_bytes. eapply kept_put_file; [apply fill_bytes_fills| |done].
  intros temp. by eapply moves_on_keeps, (keeps_fill_bytes (fun _ => True)).
Qed.

Lemma kept_import audit job ty source content extension ret :
  contains ".tmp-" extension = false → along kept (on_evidence (import_file audit job ty source content extension ret)).
Proof.
  intros Hext. eapply kept_put_file; [apply import_fills| |done].
  intros temp. by eapply moves_on_keeps, (keeps_fill_from (fun _ => True)).
Qed.

(** Calls that store nothing: ids, the clock, the operating system. *)
Lemma kept_quiet_evidence {A} (m : EM A) : keeps (fun _ => False) m → along kept (on_evidence m).
Proof.
  intros Hm s Hs. unfold on_evidence, on_part. pose proof (Hm (ev_view s)) as He.
  pose proof (ok_quiet _ _ (site_evidence s Hs) He) as Hok. destruct (m (ev_view s)) as [r w'].
  cbn [fst snd] in *. destruct He as [E1 E2 E3 Hn _].
  split; [constructor|constructor]; try done.
  - apply (inv_ok_drawn (s.(site_inventory) <| audit_artifacts := w'.(artifacts) |> <| inv_clock_reads := w'.(ev_clock_reads) |>));
      [|exact Hn]. apply inv_ok_clock. by destruct (site_inv s Hs).
  - intros id a. cbn. rewrite E3. apply (site_artifacts s Hs).
  - by destruct w'; cbn in *; subst.
  - by destruct (site_obs s Hs).
  - intros id Hid. destruct (site_drawn s Hs id Hid) as (n & Hlt & ->). exists n. split; [cbn in *; lia|done].
  - apply table_evolves_refl; apply _.
  - apply table_evolves_refl; apply _.
  - cbn. by rewrite E3.
  - intros k x Hx. by exists x.
Qed.

(** *** The audit *)

(** Nothing of the database is touched. *)
Lemma kept_same s s' :
  s'.(site_inventory) = s.(site_inventory) → s'.(site_observations) = s.(site_observations) →
  s'.(site_files) = s.(site_files) → s'.(site_io_calls) = s.(site_io_calls) → kept s s'.
Proof.
  intros E1 E2 E3 E4 Hs. assert (obs_view s' = obs_view s) as Eo by (unfold obs_view; by rewrite E1, E2).
  assert (ev_view s' = ev_view s) as Ee by (unfold ev_view; by rewrite E1, E3, E4).
  split; [destruct Hs; constructor; by rewrite ?E1, ?Eo, ?Ee|].
  constructor; rewrite ?E1, ?Eo; try done; try (apply table_evolves_refl; apply _). intros k r Hr. by exists r.
Qed.

Lemma kept_token : along kept token_cancelled.
Proof. intros s. by apply kept_same. Qed.
Lemma kept_command c : along kept (run_tool_command c).
Proof. intros s. by apply kept_same. Qed.
Lemma kept_progress p stage message : along kept (_progress p stage message).
Proof.
  unfold _progress. cbv zeta. destruct (JobProgress_valid _); [|apply along_raise; apply _].
  intros s. by apply kept_same.
Qed.

Context (settings : Settings) (vendors : OuiResolver) (read_json : option (ArtifactModel → outcome InvExc pyval)).

Lemma kept_load audit : along kept (load_inventory vendors read_json audit).
Proof.
  unfold load_inventory. apply along_bind; [apply _| |intros [sc|]]; [| |apply along_raise; apply _].
  { apply kept_inventory. by intros i Hi _. }
  apply along_bind; [apply _| |intros assets].
  { apply kept_inventory. intros i Hi Ha. by eapply steps_kept, steps_list_assets. }
  apply along_bind; [apply _| |intros services].
  { apply kept_inventory. intros i Hi Ha. by eapply steps_kept, steps_list_services. }
  destruct (items services); [apply along_raise|apply along_ret]; apply _.
Qed.

Lemma execute_kept registry audit job parameters :
  along kept (execute_audit settings vendors read_json registry audit job parameters).
Proof.
  unfold execute_audit. apply along_bind; [apply _|apply (ensure_along kept), kept_token|intros _].
  apply along_bind; [apply _|apply kept_progress|intros _].
  apply along_bind; [apply _| |intros allowed].
  { intros s. unfold _parameters. cbv zeta. repeat case_match; reflexivity. }
  apply along_bind; [apply _|apply kept_load|intros [[sc assets] services]].
  apply along_bind; [apply _|apply (ensure_along kept), kept_token|intros _].
  apply along_bind; [apply _|apply kept_progress|intros _].
  apply along_pure_bind; [apply _|]. intros work _. cbv zeta. apply along_bind; [apply _| |intros runs].
  { apply along_for_each; [apply _|]. intros iw _. apply (work_along settings kept);
      [apply kept_token|apply kept_progress|intros; apply kept_upsert|intros; apply kept_put|intros; apply kept_command]. }
  apply along_bind; [apply _|apply (ensure_along kept), kept_token|intros _].
  apply along_bind; [apply _|apply kept_progress|intros _].
  apply along_bind; [apply _|apply kept_count|intros n]. cbv zeta.
  apply along_bind; [apply _|apply kept_put|]. intros; apply along_ret; apply _.
Qed.
End site.

(** ** Protocol audits: what a whole audit runs, and what it leaves

    The end-to-end properties: every command an audit runs is asked for by a default module
    for a target in the confirmed scope, and the tables it shares with the inventory and the
    evidence store stay well formed. *)

Section theorems.
Context `{Runtime, FileSystem, ToolHost}.
Context (settings : Settings) (vendors : OuiResolver) (read_json : option (ArtifactModel → outcome InvExc pyval)).
Context (json_loads : string → option pyval).

(** C24: However an audit ends and whatever the tools print, every command it ran is one of
    two kinds.  Either it asks the tool of a default module for its version, or that module
    built it for a target: an open service it matches, at an address of the service's asset
    inside the scope that was confirmed when the audit began.  The module is never a gated
    one, and is among the requested ones if the request names any.  The arguments hold no
    option but those the module writes, so neither an address nor a host name can act as
    one. *)
Theorem audit_commands_in_scope audit job parameters s :
  0 ≤ settings.(protocol_audit_timeout_seconds) →
  ∃ l,
    (execute_audit settings vendors read_json (program_registry json_loads) audit job parameters s).2.(site_runs) =
      s.(site_runs) ++ l ∧
    Forall (fun c => ∃ sc m asset srv t,
      (latest_scope audit s.(site_inventory)).1 = Return (Some sc) ∧
      m ∈ default_modules (program_registry json_loads) ∧ m.(safety) ≠ NEVER_DEFAULT ∧
      (∀ ms, get parameters "modules" = PList ms → m.(module_name) ∈ map py_str ms) ∧
      asset.(record_asset).(asset_id) = srv.(srv_asset_id) ∧ target_of asset srv sc t ∧
      module_matches m srv = true ∧
      (c = version_check settings m ∨
       ∃ cs, m.(build_commands) t settings = Return cs ∧ c ∈ cs ∧ probe_command (m.(tool_name) settings) c)) l.
Proof.
  intros Hset.
  destruct (execute_runs settings vendors read_json (program_registry json_loads) audit job parameters s
    (program_registry_ok json_loads)) as (l & El & Hl).
  exists l. split; [done|]. eapply Forall_impl; [exact Hl|].
  intros c (sc & m & asset & srv & t & Hsc & Hm & Hsafe & Hreq & Hid & Ht & Hmatch & Hc).
  exists sc, m, asset, srv, t. split_and!; try done. destruct Hc as [->|(cs & Hcs & Hin)]; [by left|right].
  exists cs. split; [done|]. split; [done|]. eapply Forall_forall; [|exact Hin].
  eapply module_commands_ok; [done|by eapply target_of_ok|done|done].
Qed.

(** C25: An audit keeps the whole database well formed, however it ends: the inventory with
    its constraints, the artifacts with their files, sizes and digests, and one observation
    per identity about assets and services that exist.  No audit, asset, service, artifact or
    observation is lost. *)
Theorem audit_keeps_database `{!RuntimeOk, !PlainIds} audit job parameters s :
  site_ok s →
  let s' := (execute_audit settings vendors read_json (program_registry json_loads) audit job parameters s).2 in
  site_ok s' ∧ site_grows s s'.
Proof. intros Hs. by apply execute_kept. Qed.
End theorems.

(** *** An audit at work *)

#[local] Existing Instance sample_runtime | 0.
#[local] Existing Instance sample_runtime_ok | 0.
#[local] Existing Instance sample_plain_ids | 0.
#[local] Existing Instance reliable | 0.

(** An audit whose confirmed scope holds the scanned web server. *)
Definition audit_job : string := "00000000-0000-4000-8000-0000000000b0".
Definition started : InvWorld := mkInvWorld {[sample_audit]} {[audit_job]} ∅ ∅ ∅ ∅ ∅ ∅ ∅ 0 0.
Definition web_scope : ValidatedScope := mkValidatedScope STANDARD [] ["192.0.2.0/28"] [4] 14 (mkPerFamily 1024 256).
Definition confirmed : InvWorld := (confirm_scope sample_audit web_scope "eth0" [] None "polite" started).2.
Definition surveyed : InvWorld :=
  (ingest_nmap_document demo_vendors sample_audit None web_scan "nmap" None false confirmed).2.
Definition web_site : Site := mkSite surveyed ∅ ∅ 0 [] 0 [].

(** A host with curl alone, and a server that answers. *)
Definition web_answer : string :=
  "HTTP/1.1 200 OK" +:+ String (chr 10) ("Server: nginx" +:+ String (chr 10) (String (chr 10) "<title>Web</title>")).
#[local] Instance web_host_tools : ToolHost :=
  {| tool_answer n c := mkToolResult (argv c) c.(tool) (Some 0) (match n with O => "curl 8.5.0" | _ => web_answer end)
                          "" 0 1000 1000 false false true None;
     which tool := if String.eqb tool "curl" then Some "/usr/bin/curl" else None;
     token_set _ := false |}.
Definition web_settings : Settings := mkSettings 20 "ssh-audit" "openssl" "curl" "dig" "smbclient" "snmpget" "ldapsearch".
Definition no_json : string → option pyval := fun _ => None.
Definition web_audit : outcome SiteExc (string * dict) * Site :=
  execute_audit web_settings demo_vendors None (program_registry no_json) sample_audit audit_job [] web_site.

Example web_audit_runs :
  map argv web_audit.2.(site_runs) =
    [["curl"; "--version"];
     ["curl"; "--silent"; "--show-error"; "--include"; "--max-time"; "15"; "--max-redirs"; "0";
      "--max-filesize"; "65536"; "--path-as-is"; "--user-agent"; "WireScope/0.1"; "http://192.0.2.7:80/"]].
Proof. vm_compute. reflexivity. Qed.

Example web_audit_observes :
  map (fun r => (r.(row_record).(obs_module), r.(row_record).(obs_kind), get r.(row_record).(obs_data) "title"))
    (map_to_list web_audit.2.(site_observations)).*2 = [("http", "http_response", PStr "Web")].
Proof. vm_compute. reflexivity. Qed.

Lemma audit_commands_in_scope_witness :
  0 ≤ web_settings.(protocol_audit_timeout_seconds) ∧ web_audit.2.(site_runs) ≠ [] ∧
  Forall (fun c => ∃ sc m, (latest_scope sample_audit surveyed).1 = Return (Some sc) ∧
                           m ∈ default_modules (program_registry no_json) ∧ m.(safety) ≠ NEVER_DEFAULT)
    web_audit.2.(site_runs).
Proof.
  split; [done|]. split; [by vm_compute|].
  destruct (audit_commands_in_scope web_settings demo_vendors None no_json sample_audit audit_job [] web_site ltac:(done))
    as (l & El & Hl).
  change (execute_audit _ _ _ _ _ _ _ _) with web_audit in El. change (site_runs web_site ++ l) with l in El.
  rewrite El. eapply Forall_impl; [exact Hl|].
  intros c (sc & m & asset & srv & t & Hsc & Hm & Hsafe & _). exists sc, m. split; [exact Hsc|]. by split.
Defined.

Lemma surveyed_ok : inv_ok surveyed ∧ artifacts_ok surveyed.
Proof.
  assert (inv_ok started) as Hs by (split; apply table_empty).
  assert (artifacts_ok started) as Ha by (intros id a Hid; cbn in Hid; by rewrite lookup_empty in Hid).
  pose proof (steps_kept _ _ _ _ (steps_confirm_scope sample_audit web_scope "eth0" [] None "polite" started Hs
    ltac:(set_solver))) as [Hc Ec].
  assert (sample_audit ∈ confirmed.(audit_ids)) as Hin.
  { unfold confirmed. rewrite (InventoryInvariant.same_audits _ _ Ec). cbn. set_solver. }
  pose proof (steps_kept _ _ _ _ (steps_ingest_document demo_vendors sample_audit None web_scan "nmap" None false confirmed Hc
    Hin ltac:(done))) as [Hi Ei].
  split; [exact Hi|]. exact (artifacts_ok_mono _ _ Ei (artifacts_ok_mono _ _ Ec Ha)).
Qed.

Lemma web_site_ok : site_ok web_site.
Proof.
  split; [apply surveyed_ok..| | |].
  - assert (ev_view web_site = (empty_evidence {[sample_audit]} {[audit_job]}) <| ev_clock_reads := surveyed.(inv_clock_reads) |>
              <| ev_uuids_drawn := surveyed.(inv_uuids_drawn) |>) as -> by (vm_compute; reflexivity).
    apply evidence_later; [apply empty_ok|cbn; lia].
  - split; intros *; cbn; rewrite lookup_empty; done.
  - intros id [r Hr]. cbn in Hr. by rewrite lookup_empty in Hr.
Qed.

Lemma audit_keeps_database_witness : site_ok web_site ∧ site_ok web_audit.2 ∧ dom surveyed.(assets) ⊆ dom web_audit.2.(site_inventory).(assets).
Proof.
  destruct (audit_keeps_database web_settings demo_vendors None no_json sample_audit audit_job [] web_site web_site_ok) as [H1 H2].
  split; [exact web_site_ok|]. split; [exact H1|]. intros id Hid. eapply obs_dom; [|exact Hid]. exact (grows_assets _ _ H2).
Defined.
