(* ===== verification/PassiveModels.v ===== *)
(** * Passive packets, observations and sensor results ([engine/passive_models.py], [sensors/base.py])

    The records a decoded capture becomes, how their fields are read, and the helpers the
    sensors share.  A dictionary of a sensor is the list of its items in insertion order. *)

From S2P Require Import Prelude PyBase PyText JobModels FindModels FindDates Ip Evidence ProbeModels.

(** ** Integers with a prefix *)

Fixpoint str_filter (p : ascii → bool) (s : string) : string :=
  match s with
  | EmptyString => EmptyString
  | String c s' => if p c then String c (str_filter p s') else str_filter p s'
  end.

Fixpoint endswith (s suffix : string) : bool :=
  String.eqb s suffix || match s with EmptyString => false | String _ s' => endswith s' suffix end.

(** A digit below the base. *)
Definition base_digit (base : Z) (c : ascii) : option Z :=
  d ← hex_nibble c; if d <? base then Some d else None.

(** Digits after the first, single underscores allowed between them. *)
Fixpoint base_digits (base acc : Z) (s : string) : option Z :=
  match s with
  | EmptyString => Some acc
  | String c s' =>
      match base_digit base c with
      | Some d => base_digits base (base * acc + d) s'
      | None =>
          if Ascii.eqb c (chr 95) then
            match s' with
            | String c' s'' => match base_digit base c' with
                               | Some d => base_digits base (base * acc + d) s''
                               | None => None
                               end
            | EmptyString => None
            end
          else None
      end
  end.

(** The digits after a prefix, which one underscore may follow. *)
Definition prefixed_digits (base : Z) (s : string) : option Z :=
  let digits := match s with String c s' => if Ascii.eqb c (chr 95) then s' else s | EmptyString => s end in
  match digits with
  | String c s' => d ← base_digit base c; base_digits base d s'
  | EmptyString => None
  end.

(** Without a prefix a leading zero stands before zeros only. *)
Definition unsigned_auto (s : string) : option Z :=
  match s with
  | String z (String x rest) =>
      if negb (Ascii.eqb z (chr 48)) then unsigned_digits s
      else match lower_char x with
           | "x"%char => prefixed_digits 16 rest
           | "o"%char => prefixed_digits 8 rest
           | "b"%char => prefixed_digits 2 rest
           | _ => n ← unsigned_digits s; if n =? 0 then Some 0 else None
           end
  | _ => unsigned_digits s
  end.

(** [int(s, 0)]; [None] is [ValueError]. *)
Definition int_auto (s : string) : option Z :=
  match strip s with
  | String c s' =>
      if Ascii.eqb c (chr 43) then unsigned_auto s'
      else if Ascii.eqb c (chr 45) then Z.opp <$> unsigned_auto s'
      else unsigned_auto (String c s')
  | EmptyString => None
  end.

(** [int(s)] of digits, which fails only when there are too many. *)
Definition int_of_kept_digits (s : string) : outcome PyExc Z :=
  match int_of_str s with
  | Some n => Return n
  | None => Raise (PyValueError ("Exceeds the limit (4300 digits) for integer string conversion: value has " +:+
                                 str_int (byte_len s) +:+ " digits; use sys.set_int_max_str_digits() to increase the limit"))
  end.

(** [str(exc)] *)
Definition py_exc_text (e : PyExc) : string :=
  match e with
  | PyValueError m | PyTypeError m | PyAttributeError m | PyOverflowError m | PyLookupError m => m
  | ValidationError field => field
  end.

(** ** Records *)

Inductive PipelineErrorCode : Type :=
  | INVALID_INTERFACE | CAPTURE_FAILED | DECODE_FAILED | PIPELINE_CANCELLED | MALFORMED_INPUT | SENSOR_FAILED | CLEANUP_FAILED.
#[export] Instance PipelineErrorCode_eq_dec : EqDecision PipelineErrorCode.
Proof. solve_decision. Defined.

Definition PipelineErrorCode_value (c : PipelineErrorCode) : string :=
  match c with
  | INVALID_INTERFACE => "invalid_interface"
  | CAPTURE_FAILED => "capture_failed"
  | DECODE_FAILED => "decode_failed"
  | PIPELINE_CANCELLED => "cancelled"
  | MALFORMED_INPUT => "malformed_input"
  | SENSOR_FAILED => "sensor_failed"
  | CLEANUP_FAILED => "cleanup_failed"
  end.

Record PipelineError : Type := mkPipelineError {
  pipeline_code : PipelineErrorCode;
  pipeline_component : string;
  pipeline_message : string;
  pipeline_retryable : bool;
  pipeline_details : dict
}.

Record EvidenceReference : Type := mkReference { evidence_text : string; evidence_frame : option Z }.

Record ObservationMetadata : Type := mkMetadata {
  meta_sensor : string;
  meta_timestamp : option datetime;
  meta_source_mac : option string;
  meta_destination_mac : option string;
  meta_source_ip : option string;
  meta_destination_ip : option string;
  meta_protocol : option string;
  meta_evidence : EvidenceReference
}.

Record Observation : Type := mkObservation {
  seen_kind : string;
  seen_metadata : ObservationMetadata;
  seen_data : dict
}.

Inductive SensorStatus : Type := SENSOR_ABSENT | SENSOR_DETECTED | SENSOR_PARTIAL | SENSOR_ERROR.
#[export] Instance SensorStatus_eq_dec : EqDecision SensorStatus.
Proof. solve_decision. Defined.

Definition SensorStatus_value (s : SensorStatus) : string :=
  match s with
  | SENSOR_ABSENT => "absent"
  | SENSOR_DETECTED => "detected"
  | SENSOR_PARTIAL => "partial"
  | SENSOR_ERROR => "error"
  end.

Record SensorResult : Type := mkSensorResult {
  sensor_name : string;
  sensor_status : SensorStatus;
  hits : Z;
  sensor_observations : list Observation;
  sensor_summary : dict;
  sensor_warnings : list string;
  sensor_errors : list PipelineError
}.

(** [detected] *)
Definition detected (r : SensorResult) : bool :=
  bool_decide (r.(sensor_status) = SENSOR_DETECTED ∨ r.(sensor_status) = SENSOR_PARTIAL).

Definition no_items {A} (l : list A) : bool := match l with [] => true | _ => false end.

(** [validate_state], and [hits] at least zero. *)
Definition validate_state (r : SensorResult) : bool :=
  (0 <=? r.(hits)) &&
  match r.(sensor_status) with
  | SENSOR_ABSENT => no_items r.(sensor_observations) && no_items r.(sensor_errors)
  | SENSOR_DETECTED => no_items r.(sensor_errors)
  | SENSOR_PARTIAL => true
  | SENSOR_ERROR => negb (no_items r.(sensor_errors))
  end.

(** [SensorResult(...)] *)
Definition new_sensor_result (r : SensorResult) : outcome PyExc SensorResult :=
  if validate_state r then Return r else Raise (ValidationError "SensorResult").

(** ** Packets *)

(** [_field_token]: lower-case letters and digits. *)
Definition _field_token (value : string) : string := str_filter (fun c => is_lower c || is_digit c) (lower value).

Record PacketRecord : Type := mkPacket {
  frame_number : Z;
  timestamp : option datetime;
  protocols : list string;
  source_mac : option string;
  destination_mac : option string;
  source_ip : option string;
  destination_ip : option string;
  fields : list (string * list string)
}.

(** The values of the fields whose token is or ends with that of an alias, each once. *)
Definition values (p : PacketRecord) (aliases : list string) : list string :=
  let tokens := List.map _field_token aliases in
  foldl (fun acc '(name, field_values) =>
    if existsb (endswith (_field_token name)) tokens then foldl append_new acc field_values else acc) [] p.(fields).

Definition first (p : PacketRecord) (aliases : list string) : option string := head (values p aliases).

Definition has_protocol (p : PacketRecord) (names : list string) : bool :=
  existsb (fun name => str_in (lower name) (List.map lower p.(protocols))) names.

Record PacketDataset : Type := mkDataset {
  packets : list PacketRecord;
  dataset_errors : list PipelineError;
  decode_result : ToolResult;
  decode_reference : option string
}.

(** ** The helpers of the sensors *)

Definition observation (sensor kind : string) (p : PacketRecord) (data : dict) (protocol : string) : Observation :=
  mkObservation kind
    (mkMetadata sensor p.(timestamp) p.(source_mac) p.(destination_mac) p.(source_ip) p.(destination_ip)
       (match protocol with EmptyString => last p.(protocols) | _ => Some protocol end)
       (mkReference ("packet:" +:+ str_int p.(frame_number)) (Some p.(frame_number))))
    data.

(** [sensor_result]; [hits] counts the observations unless it is given. *)
Definition sensor_result (name : string) (observations : list Observation) (hits : option Z) (summary : dict)
    (errors : list PipelineError) : outcome PyExc SensorResult :=
  let status := match errors, observations with
                | _ :: _, _ :: _ => SENSOR_PARTIAL
                | _ :: _, [] => SENSOR_ERROR
                | [], _ :: _ => SENSOR_DETECTED
                | [], [] => SENSOR_ABSENT
                end in
  new_sensor_result
    (mkSensorResult name status (default (Z.of_nat (length observations)) hits) observations summary [] errors).

Definition comma : ascii := chr 44.

(** The parts between commas that are not blank, stripped, each once. *)
Definition split_values (values : list string) : list string :=
  foldl (fun items value =>
    foldl (fun items item => let item := strip item in if nonempty item then append_new items item else items)
      items (split_on comma value)) [] values.

Definition first_value (p : PacketRecord) (aliases : list string) : option string :=
  match first p aliases with
  | Some value => let value := strip value in if nonempty value then Some value else None
  | None => None
  end.

(** A number, or the digits of a text that is none. *)
Definition number_of (value : string) : outcome PyExc (option Z) :=
  match int_auto value with
  | Some n => Return (Some n)
  | None => match str_filter is_digit value with
            | EmptyString => Return None
            | digits => n ← int_of_kept_digits digits; Return (Some n)
            end
  end.

Definition integer_value (p : PacketRecord) (aliases : list string) : outcome PyExc (option Z) :=
  match first_value p aliases with None => Return None | Some value => number_of value end.

Definition truth_of (value : string) : option bool :=
  let normalized := lower value in
  if str_in normalized ["1"; "true"; "yes"; "set"] then Some true
  else if str_in normalized ["0"; "false"; "no"; "not set"] then Some false
  else None.

Definition boolean_value (p : PacketRecord) (aliases : list string) : option bool :=
  first_value p aliases ≫= truth_of.

(** [unique_dicts]: each item once, in order. *)
Definition unique {A} `{EqDecision A} (l : list A) : list A :=
  foldl (fun acc x => if bool_decide (x ∈ acc) then acc else acc ++ [x]) [] l.

(** [Counter]: how often each item occurs, in the order first seen. *)
Definition counter {A} `{EqDecision A} (l : list A) : list (A * Z) :=
  List.map (fun x => (x, Z.of_nat (length (List.filter (fun y => bool_decide (y = x)) l)))) (unique l).

(** [most_common()] *)
Definition most_common {A} (counts : list (A * Z)) : list (A * Z) := sort_by (fun a b => b.2 <=? a.2) counts.

(** The packets a sensor looks at, one after the other. *)
Fixpoint for_packets {X} (f : PacketRecord → outcome PyExc (option X)) (l : list PacketRecord) : outcome PyExc (list X) :=
  match l with
  | [] => Return []
  | p :: l => found ← f p; rest ← for_packets f l;
              Return (match found with Some x => x :: rest | None => rest end)
  end.

(** ** JSON *)

Definition py_opt_bool (o : option bool) : pyval := match o with Some b => PBool b | None => PNone end.
Definition py_texts (l : list string) : pyval := PList (List.map PStr l).

(** A datetime in UTC, as pydantic writes it. *)
Definition json_datetime (t : datetime) : string :=
  let s := isoformat t in String.substring 0 (String.length s - 6) s +:+ "Z".

Definition pipeline_error_dump (e : PipelineError) : pyval :=
  PDict [("code", PStr (PipelineErrorCode_value e.(pipeline_code))); ("component", PStr e.(pipeline_component));
         ("message", PStr e.(pipeline_message)); ("retryable", PBool e.(pipeline_retryable));
         ("details", PDict e.(pipeline_details))].

Definition metadata_dump (m : ObservationMetadata) : pyval :=
  PDict [("sensor", PStr m.(meta_sensor)); ("timestamp", py_opt_str (json_datetime <$> m.(meta_timestamp)));
         ("source_mac", py_opt_str m.(meta_source_mac)); ("destination_mac", py_opt_str m.(meta_destination_mac));
         ("source_ip", py_opt_str m.(meta_source_ip)); ("destination_ip", py_opt_str m.(meta_destination_ip));
         ("protocol", py_opt_str m.(meta_protocol));
         ("evidence", PDict [("reference", PStr m.(meta_evidence).(evidence_text));
                             ("frame_number", py_opt_int m.(meta_evidence).(evidence_frame))])].

Definition observation_dump (o : Observation) : pyval :=
  PDict [("kind", PStr o.(seen_kind)); ("metadata", metadata_dump o.(seen_metadata)); ("data", PDict o.(seen_data))].

(** [result.model_dump(mode="json")], computed fields last. *)
Definition sensor_dump (r : SensorResult) : dict :=
  [("name", PStr r.(sensor_name)); ("status", PStr (SensorStatus_value r.(sensor_status))); ("hits", PInt r.(hits));
   ("observations", PList (List.map observation_dump r.(sensor_observations))); ("summary", PDict r.(sensor_summary));
   ("warnings", py_texts r.(sensor_warnings)); ("errors", PList (List.map pipeline_error_dump r.(sensor_errors)));
   ("detected", PBool (detected r))].
