(* ===== verification/Sensors.v ===== *)
(** * The passive sensors ([sensors/ethernet.py], [layer2.py], [network.py], [discovery.py], [passive.py])

    One definition per sensor: which packets it looks at, the data of its observations and
    its summary; and the registry that runs them all. *)

From S2P Require Import Prelude PyBase PyText JobModels FindModels Evidence ProbeModels ProbeStore ProbeRun PassiveModels.

Abbreviation Sensor := (PacketDataset → outcome PyExc SensorResult).

(** The observations of the packets that are of interest to a sensor. *)
Definition when_seen {X} (b : bool) (m : outcome PyExc X) : outcome PyExc (option X) :=
  if b then x ← m; Return (Some x) else Return None.

Definition any_values (p : PacketRecord) (aliases : list string) : bool := not_empty (values p aliases).

Definition text_field (p : PacketRecord) (aliases : list string) : pyval := py_opt_str (first_value p aliases).
Definition texts_field (p : PacketRecord) (aliases : list string) : pyval := py_texts (split_values (values p aliases)).
Definition integer_field (p : PacketRecord) (aliases : list string) : outcome PyExc pyval :=
  n ← integer_value p aliases; Return (py_opt_int n).
Definition truth_field (p : PacketRecord) (aliases : list string) : pyval := py_opt_bool (boolean_value p aliases).

(** ** Ethernet *)

Definition _is_multicast (mac : string) : bool :=
  match int_of_hex (split_once Ip.colon mac).1 with Some n => Z.odd n | None => false end.

(** [(mac or "").lower()] *)
Definition lower_mac (mac : option string) : string := lower (default EmptyString mac).

Definition source_macs (packets : list PacketRecord) : list string :=
  List.filter nonempty (List.map (fun p => lower_mac p.(source_mac)) packets).

Definition ethernet_observation (packets : list PacketRecord) (counted : string * Z) : list Observation :=
  let '(mac, count) := counted in
  match find_first (fun p => String.eqb (lower_mac p.(source_mac)) mac) packets with
  | Some p => [observation "ethernet" "source_mac" p
                 [("mac", PStr mac); ("frames", PInt count); ("multicast_source", PBool (_is_multicast mac))] "ethernet"]
  | None => []
  end.

Definition count_packets (p : PacketRecord → bool) (packets : list PacketRecord) : Z :=
  Z.of_nat (length (List.filter p packets)).

Definition is_broadcast (p : PacketRecord) : bool := String.eqb (lower_mac p.(destination_mac)) "ff:ff:ff:ff:ff:ff".
Definition is_multicast_frame (p : PacketRecord) : bool :=
  let destination := lower_mac p.(destination_mac) in
  negb (is_broadcast p) && nonempty destination && _is_multicast destination.

Definition ethernet_sensor : Sensor := fun dataset =>
  let counts := counter (source_macs dataset.(packets)) in
  sensor_result "ethernet" (flat_map (ethernet_observation dataset.(packets)) (most_common counts))
    (Some (Z.of_nat (length (source_macs dataset.(packets)))))
    [("unique_source_macs", PInt (Z.of_nat (length counts)));
     ("broadcast_frames", PInt (count_packets is_broadcast dataset.(packets)));
     ("multicast_frames", PInt (count_packets is_multicast_frame dataset.(packets)))]
    dataset.(dataset_errors).

(** ** VLAN *)

(** The names of tags, as [re.sub] leaves them: never those of neighbour protocols. *)
Definition is_tag_field (name : string) : bool :=
  let token := _field_token name in
  negb (existsb (fun part => contains part token) ["lldp"; "cdp"; "stp"; "voice"; "native"; "pvid"]) &&
  (str_in token ["vlanid"; "vlanvlanid"; "ieee8021adid"] || (startswith token "vlan" && endswith token "id") ||
   (startswith token "ieee8021ad" && endswith token "id")).

Definition tag_of (value : string) : list Z :=
  match int_auto value with
  | Some n => if (0 <=? n) && (n <=? 4095) then [n] else []
  | None => []
  end.

Definition _dot1q_ids (p : PacketRecord) : list Z :=
  flat_map (fun '(name, field_values) => if is_tag_field name then flat_map tag_of (split_values field_values) else [])
    p.(fields).

Definition vlan_observation (p : PacketRecord) : option Observation :=
  match _dot1q_ids p with
  | [] => None
  | tags => Some (observation "vlan" "tagged_frame" p
                    [("vlan_ids", PList (List.map PInt tags)); ("tag_count", PInt (Z.of_nat (length tags)));
                     ("qinq", PBool (1 <? length tags)%nat)] "802.1Q")
  end.

Definition vlan_counts (packets : list PacketRecord) : list (Z * Z) :=
  sort_by (fun a b => a.1 <=? b.1) (counter (flat_map _dot1q_ids packets)).

Definition vlan_sensor : Sensor := fun dataset =>
  observations ← for_packets (fun p => Return (vlan_observation p)) dataset.(packets);
  let tagged := Z.of_nat (length observations) in
  sensor_result "vlan" observations (Some tagged)
    [("tagged_frames", PInt tagged);
     ("vlan_frame_counts", PList (List.map (fun '(vlan, count) => PDict [("vlan_id", PInt vlan); ("frames", PInt count)])
                                    (vlan_counts dataset.(packets))))]
    dataset.(dataset_errors).

(** ** Neighbours *)

Definition lldp_data (p : PacketRecord) : outcome PyExc dict :=
  pvid ← integer_field p ["lldp.ieee.802_1.port_vlan.id"; "lldp.ieee.802_1.pvid"];
  voice ← integer_field p ["lldp.ieee.802_1.vlan.voice"; "lldp.med.network_policy.vid"; "lldp.med.network_policy.vlan"];
  ttl ← integer_field p ["lldp.time_to_live"; "lldp.tlv.ttl"];
  Return [("chassis_id", text_field p ["lldp.chassis.id"; "lldp.chassis.id.mac"; "lldp.tlv.chassis.id"]);
          ("system_name", text_field p ["lldp.tlv.system.name"]);
          ("system_description", text_field p ["lldp.tlv.system.desc"; "lldp.tlv.system.description"]);
          ("port_id", text_field p ["lldp.port.id"; "lldp.tlv.port.id"]);
          ("port_description", text_field p ["lldp.tlv.port.desc"; "lldp.tlv.port.description"]);
          ("management_addresses", texts_field p ["lldp.mgn.addr.ip4"; "lldp.mgn.addr.ip6"; "lldp.tlv.management.addr"]);
          ("capabilities_supported", texts_field p ["lldp.tlv.system_cap"]);
          ("capabilities_enabled", texts_field p ["lldp.tlv.enable_system_cap"]);
          ("pvid", pvid); ("voice_vlan", voice); ("vlan_names", texts_field p ["lldp.ieee.802_1.vlan.name"]);
          ("ttl_seconds", ttl)].

Definition cdp_data (p : PacketRecord) : outcome PyExc dict :=
  native ← integer_field p ["cdp.native_vlan"];
  voice ← integer_field p ["cdp.voice_vlan"; "cdp.voip.vlan"; "cdp.spare.vlan"];
  ttl ← integer_field p ["cdp.ttl"];
  Return [("device_id", text_field p ["cdp.deviceid"]); ("platform", text_field p ["cdp.platform"]);
          ("software_version", text_field p ["cdp.software_version"; "cdp.version"]); ("port_id", text_field p ["cdp.portid"]);
          ("management_addresses", texts_field p ["cdp.nrgyz.ip_address"; "cdp.management_addr"; "cdp.address"]);
          ("capabilities", texts_field p ["cdp.capabilities"]); ("native_vlan", native); ("voice_vlan", voice);
          ("duplex", text_field p ["cdp.duplex"]); ("ttl_seconds", ttl)].

Definition is_lldp (p : PacketRecord) : bool := has_protocol p ["lldp"] || any_values p ["lldp.chassis.id"; "lldp.tlv.type"].
Definition is_cdp (p : PacketRecord) : bool := has_protocol p ["cdp"] || any_values p ["cdp.deviceid"; "cdp.portid"].

(** A sensor of neighbour advertisements. *)
Definition neighbor_sensor (name protocol : string) (seen : PacketRecord → bool) (data : PacketRecord → outcome PyExc dict)
    : Sensor := fun dataset =>
  observations ← for_packets (fun p => when_seen (seen p)
    (d ← data p; Return (observation name "neighbor_advertisement" p d protocol))) dataset.(packets);
  sensor_result name observations None [("neighbors_observed", PInt (Z.of_nat (length observations)))]
    dataset.(dataset_errors).

Definition lldp_sensor : Sensor := neighbor_sensor "lldp" "LLDP" is_lldp lldp_data.
Definition cdp_sensor : Sensor := neighbor_sensor "cdp" "CDP" is_cdp cdp_data.

(** ** Spanning tree *)

Definition is_stp (p : PacketRecord) : bool :=
  has_protocol p ["stp"; "rstp"; "mstp"] || any_values p ["stp.root.hw"; "stp.bridge.hw"].

Definition stp_data (p : PacketRecord) : outcome PyExc dict :=
  version ← integer_field p ["stp.protocol.version"; "stp.version"];
  root_prio ← integer_field p ["stp.root.prio"];
  root_ext ← integer_field p ["stp.root.ext"];
  bridge_prio ← integer_field p ["stp.bridge.prio"];
  bridge_ext ← integer_field p ["stp.bridge.ext"];
  cost ← integer_field p ["stp.root.cost"];
  Return [("protocol_version", version); ("bpdu_type", text_field p ["stp.type"]);
          ("root_bridge_id", text_field p ["stp.root.id"; "stp.root.hw"]); ("root_bridge_priority", root_prio);
          ("root_bridge_extension", root_ext); ("bridge_id", text_field p ["stp.bridge.id"; "stp.bridge.hw"]);
          ("bridge_priority", bridge_prio); ("bridge_extension", bridge_ext); ("root_path_cost", cost);
          ("port_id", text_field p ["stp.port"]); ("message_age_seconds", text_field p ["stp.msg_age"]);
          ("max_age_seconds", text_field p ["stp.max_age"]); ("hello_time_seconds", text_field p ["stp.hello"]);
          ("forward_delay_seconds", text_field p ["stp.forward"])].

(** The texts under a key of the observations, each once. *)
Definition texts_under (key : string) (observations : list Observation) : list string :=
  foldl append_new [] (flat_map (fun o => match get o.(seen_data) key with PStr (String c s) => [String c s] | _ => [] end)
                         observations).

Definition stp_sensor : Sensor := fun dataset =>
  observations ← for_packets (fun p => when_seen (is_stp p)
    (d ← stp_data p; Return (observation "stp" "bridge_protocol_data_unit" p d "STP"))) dataset.(packets);
  sensor_result "stp" observations None
    [("bpdus_observed", PInt (Z.of_nat (length observations)));
     ("root_bridge_ids", py_texts (texts_under "root_bridge_id" observations));
     ("bridge_ids", py_texts (texts_under "bridge_id" observations))]
    dataset.(dataset_errors).

(** ** ARP *)

Definition arp_operation (opcode : option Z) : string :=
  match opcode with Some 1 => "request" | Some 2 => "reply" | _ => "other" end.

(** [a or b] of texts that may be missing. *)
Definition opt_or (a b : option string) : option string := if truthy_str a then a else b.

Definition is_arp (p : PacketRecord) : bool := has_protocol p ["arp"] || any_values p ["arp.opcode"; "arp.src.proto_ipv4"].

(** An ARP message, and the address and hardware address it binds. *)
Definition arp_message (p : PacketRecord) : outcome PyExc (Observation * list (string * string)) :=
  opcode ← integer_value p ["arp.opcode"];
  let sender_ip := first_value p ["arp.src.proto_ipv4"] in
  let sender_mac := opt_or (first_value p ["arp.src.hw_mac"]) p.(source_mac) in
  Return (observation "arp" "arp_message" p
            [("opcode", py_opt_int opcode); ("operation", PStr (arp_operation opcode)); ("sender_ipv4", py_opt_str sender_ip);
             ("sender_mac", py_opt_str sender_mac); ("target_ipv4", text_field p ["arp.dst.proto_ipv4"]);
             ("target_mac", text_field p ["arp.dst.hw_mac"])] "ARP",
          match sender_ip, sender_mac with
          | Some (String a ip), Some (String b mac) => [(String a ip, lower (String b mac))]
          | _, _ => []
          end).

Definition relation_dump (address : string) (r : string * string) : pyval := PDict [(address, PStr r.1); ("mac", PStr r.2)].

Definition arp_sensor : Sensor := fun dataset =>
  messages ← for_packets (fun p => when_seen (is_arp p) (arp_message p)) dataset.(packets);
  let relationships := flat_map snd messages in
  sensor_result "arp" (List.map fst messages) None
    [("observed_ipv4_mac", PList (List.map (relation_dump "ipv4") (unique relationships)));
     ("unique_ipv4_hosts", PInt (Z.of_nat (length (unique (List.map fst relationships)))))]
    dataset.(dataset_errors).

(** ** DHCP *)

Definition DHCP_MESSAGE_TYPES : list (Z * string) :=
  [(1, "discover"); (2, "offer"); (3, "request"); (4, "decline"); (5, "ack"); (6, "nak"); (7, "release"); (8, "inform")].
Definition DHCPV6_MESSAGE_TYPES : list (Z * string) :=
  [(1, "solicit"); (2, "advertise"); (3, "request"); (4, "confirm"); (5, "renew"); (6, "rebind"); (7, "reply");
   (8, "release"); (9, "decline"); (10, "reconfigure"); (11, "information-request"); (12, "relay-forward");
   (13, "relay-reply")].

(** [types.get(id, f"unknown-{id}" if id else "unknown")] *)
Definition message_type (types : list (Z * string)) (id : option Z) : string :=
  match id with
  | None => "unknown"
  | Some n => match find_first (fun kv => kv.1 =? n) types with
              | Some kv => kv.2
              | None => if n =? 0 then "unknown" else "unknown-" +:+ str_int n
              end
  end.

Definition is_dhcp (p : PacketRecord) : bool :=
  has_protocol p ["dhcp"; "bootp"] || any_values p ["dhcp.option.dhcp"; "bootp.option.dhcp"].

(** What the summary keeps of a server. *)
Record DhcpServer : Type := mkDhcpServer {
  dhcp_server_id : string;
  dhcp_message_types : list string;
  dhcp_subnet_masks : list string;
  dhcp_routers : list string;
  dhcp_dns_servers : list string;
  dhcp_domains : list string
}.

(** What a message says of its server. *)
Record DhcpOffer : Type := mkDhcpOffer {
  offer_server : option string;
  offer_type : string;
  offer_mask : option string;
  offer_routers : list string;
  offer_dns : list string;
  offer_domain : option string
}.

(** [if value and value not in known: known.append(value)] *)
Definition note (known : list string) (value : option string) : list string :=
  match value with Some (String c s) => append_new known (String c s) | _ => known end.
Definition note_all (known values : list string) : list string := foldl (fun known v => note known (Some v)) known values.

Definition noted (s : DhcpServer) (o : DhcpOffer) : DhcpServer :=
  mkDhcpServer s.(dhcp_server_id) (note s.(dhcp_message_types) (Some o.(offer_type)))
    (note s.(dhcp_subnet_masks) o.(offer_mask)) (note_all s.(dhcp_routers) o.(offer_routers))
    (note_all s.(dhcp_dns_servers) o.(offer_dns)) (note s.(dhcp_domains) o.(offer_domain)).

Fixpoint note_server (servers : list DhcpServer) (id : string) (o : DhcpOffer) : list DhcpServer :=
  match servers with
  | [] => [noted (mkDhcpServer id [] [] [] [] []) o]
  | s :: servers => if String.eqb s.(dhcp_server_id) id then noted s o :: servers else s :: note_server servers id o
  end.

Definition server_after (servers : list DhcpServer) (o : DhcpOffer) : list DhcpServer :=
  match o.(offer_server) with Some (String c s) => note_server servers (String c s) o | _ => servers end.

Definition server_dump (s : DhcpServer) : pyval :=
  PDict [("server_id", PStr s.(dhcp_server_id)); ("message_types", py_texts s.(dhcp_message_types));
         ("subnet_masks", py_texts s.(dhcp_subnet_masks)); ("routers", py_texts s.(dhcp_routers));
         ("dns_servers", py_texts s.(dhcp_dns_servers)); ("domains", py_texts s.(dhcp_domains))].

(** A field under its names for DHCP and BOOTP. *)
Definition dhcp_names (field : string) : list string := ["dhcp." +:+ field; "bootp." +:+ field].

Definition dhcp_message (p : PacketRecord) : outcome PyExc (Observation * DhcpOffer) :=
  id ← integer_value p (dhcp_names "option.dhcp");
  let server := first_value p (dhcp_names "option.dhcp_server_id") in
  let type := message_type DHCP_MESSAGE_TYPES id in
  let mask := first_value p (dhcp_names "option.subnet_mask") in
  let routers := split_values (values p (dhcp_names "option.router")) in
  let dns := split_values (values p (dhcp_names "option.domain_name_server")) in
  let domain := first_value p (dhcp_names "option.domain_name") in
  lease ← integer_field p (dhcp_names "option.ip_address_lease_time");
  Return (observation "dhcpv4" "dhcp_message" p
            [("message_type_id", py_opt_int id); ("message_type", PStr type); ("transaction_id", text_field p (dhcp_names "id"));
             ("client_mac", text_field p (dhcp_names "hw.mac_addr")); ("hostname", text_field p (dhcp_names "option.hostname"));
             ("requested_ip", text_field p (dhcp_names "option.requested_ip_address"));
             ("offered_ip", text_field p (dhcp_names "ip.your")); ("server_id", py_opt_str server);
             ("subnet_mask", py_opt_str mask); ("routers", py_texts routers); ("dns_servers", py_texts dns);
             ("domain_name", py_opt_str domain); ("lease_time_seconds", lease)] "DHCPv4",
          mkDhcpOffer server type mask routers dns domain).

Definition dhcpv4_sensor : Sensor := fun dataset =>
  messages ← for_packets (fun p => when_seen (is_dhcp p) (dhcp_message p)) dataset.(packets);
  let servers := foldl server_after [] (List.map snd messages) in
  sensor_result "dhcpv4" (List.map fst messages) None
    [("servers", PList (List.map server_dump servers)); ("server_count", PInt (Z.of_nat (length servers)))]
    dataset.(dataset_errors).

Definition is_dhcpv6 (p : PacketRecord) : bool := has_protocol p ["dhcpv6"] || any_values p ["dhcpv6.msgtype"].

Definition dhcpv6_message (p : PacketRecord) : outcome PyExc (Observation * option string) :=
  id ← integer_value p ["dhcpv6.msgtype"];
  let duids := split_values (values p ["dhcpv6.duid.bytes"]) in
  let server := if (1 <? length duids)%nat then last duids else None in
  Return (observation "dhcpv6" "dhcpv6_message" p
            [("message_type_id", py_opt_int id); ("message_type", PStr (message_type DHCPV6_MESSAGE_TYPES id));
             ("transaction_id", text_field p ["dhcpv6.xid"; "dhcpv6.transaction_id"]); ("server_id", py_opt_str server);
             ("client_id", py_opt_str (head duids)); ("duids", py_texts duids);
             ("addresses", texts_field p ["dhcpv6.iaaddr.ip"; "dhcpv6.iaaddr.ipv6"; "dhcpv6.iaprefix.prefix"]);
             ("dns_servers", texts_field p ["dhcpv6.dns_server"; "dhcpv6.dns_servers"; "dhcpv6.option.dns_servers"]);
             ("domain_search", texts_field p ["dhcpv6.client_domain"; "dhcpv6.domain_search_list"; "dhcpv6.option.domain_list"])]
            "DHCPv6",
          server).

Definition dhcpv6_sensor : Sensor := fun dataset =>
  messages ← for_packets (fun p => when_seen (is_dhcpv6 p) (dhcpv6_message p)) dataset.(packets);
  let server_ids := foldl note [] (List.map snd messages) in
  sensor_result "dhcpv6" (List.map fst messages) None
    [("server_ids", py_texts server_ids); ("server_count", PInt (Z.of_nat (length server_ids)))]
    dataset.(dataset_errors).

(** ** IPv6 routers and neighbours *)

Fixpoint numbers_of (values : list string) : outcome PyExc (list (option Z)) :=
  match values with
  | [] => Return []
  | v :: values => n ← number_of v; rest ← numbers_of values; Return (n :: rest)
  end.
Definition _integer_values (values : list string) : outcome PyExc (list (option Z)) := numbers_of (split_values values).
Definition _boolean_values (values : list string) : list (option bool) := List.map truth_of (split_values values).

(** [_at]: the value at an index, [None] past the end. *)
Definition _at {A} (l : list (option A)) (i : nat) : option A := default None (l !! i).

Record RaPrefix : Type := mkRaPrefix {
  ra_prefix : string;
  ra_length : option Z;
  on_link : option bool;
  autonomous : option bool;
  valid_lifetime : option Z;
  preferred_lifetime : option Z
}.
#[export] Instance RaPrefix_eq_dec : EqDecision RaPrefix.
Proof. solve_decision. Defined.

Definition prefix_dump (x : RaPrefix) : pyval :=
  PDict [("prefix", PStr x.(ra_prefix)); ("length", py_opt_int x.(ra_length));
         ("network", PStr (match x.(ra_length) with Some n => x.(ra_prefix) +:+ "/" +:+ str_int n | None => x.(ra_prefix) end));
         ("on_link", py_opt_bool x.(on_link)); ("autonomous", py_opt_bool x.(autonomous));
         ("valid_lifetime_seconds", py_opt_int x.(valid_lifetime));
         ("preferred_lifetime_seconds", py_opt_int x.(preferred_lifetime))].

Definition ra_prefixes (p : PacketRecord) : outcome PyExc (list RaPrefix) :=
  let prefixes := split_values (values p ["icmpv6.opt.prefix"]) in
  lengths ← _integer_values (values p ["icmpv6.opt.prefix.length"]);
  let on_link := _boolean_values (values p ["icmpv6.opt.prefix.flag.l"]) in
  let autonomous := _boolean_values (values p ["icmpv6.opt.prefix.flag.a"]) in
  valid ← _integer_values (values p ["icmpv6.opt.prefix.valid_lifetime"]);
  preferred ← _integer_values (values p ["icmpv6.opt.prefix.preferred_lifetime"]);
  Return (imap (fun i prefix => mkRaPrefix prefix (_at lengths i) (_at on_link i) (_at autonomous i) (_at valid i) (_at preferred i))
            prefixes).

Record RaRouter : Type := mkRaRouter {
  router_ipv6 : string;
  router_mac : option string;
  advertisements : Z;
  router_prefixes : list RaPrefix;
  router_rdnss : list string;
  router_dnssl : list string
}.

Record Advertisement : Type := mkAdvertisement {
  adv_router : option string;
  adv_mac : option string;
  adv_prefixes : list RaPrefix;
  adv_rdnss : list string;
  adv_dnssl : list string
}.

Definition advertised (r : RaRouter) (a : Advertisement) : RaRouter :=
  mkRaRouter r.(router_ipv6) r.(router_mac) (r.(advertisements) + 1) (unique (r.(router_prefixes) ++ a.(adv_prefixes)))
    (foldl append_new r.(router_rdnss) a.(adv_rdnss)) (foldl append_new r.(router_dnssl) a.(adv_dnssl)).

Fixpoint note_router (routers : list RaRouter) (ip : string) (a : Advertisement) : list RaRouter :=
  match routers with
  | [] => [advertised (mkRaRouter ip a.(adv_mac) 0 [] [] []) a]
  | r :: routers => if String.eqb r.(router_ipv6) ip then advertised r a :: routers else r :: note_router routers ip a
  end.

Definition router_after (routers : list RaRouter) (a : Advertisement) : list RaRouter :=
  match a.(adv_router) with Some (String c s) => note_router routers (String c s) a | _ => routers end.

Definition router_dump (r : RaRouter) : pyval :=
  PDict [("ipv6", PStr r.(router_ipv6)); ("mac", py_opt_str r.(router_mac)); ("advertisements", PInt r.(advertisements));
         ("prefixes", PList (List.map prefix_dump r.(router_prefixes))); ("rdnss", py_texts r.(router_rdnss));
         ("dnssl", py_texts r.(router_dnssl))].

(** The packets of a sensor that reads the type of every packet first. *)
Definition router_advertisement (p : PacketRecord) : outcome PyExc (option (Observation * Advertisement)) :=
  type ← integer_value p ["icmpv6.type"];
  when_seen (bool_decide (type = Some 134) || any_values p ["icmpv6.nd.ra.router_lifetime"])
    (prefixes ← ra_prefixes p;
     let router := opt_or p.(source_ip) (first_value p ["ipv6.src"]) in
     lifetime ← integer_field p ["icmpv6.nd.ra.router_lifetime"];
     hop_limit ← integer_field p ["icmpv6.nd.ra.cur_hop_limit"];
     let rdnss := split_values (values p ["icmpv6.opt.rdnss"]) in
     rdnss_lifetime ← integer_field p ["icmpv6.opt.rdnss.lifetime"];
     let dnssl := split_values (values p ["icmpv6.opt.dnssl"]) in
     dnssl_lifetime ← integer_field p ["icmpv6.opt.dnssl.lifetime"];
     mtu ← integer_field p ["icmpv6.opt.mtu"];
     Return (observation "ipv6_ra" "router_advertisement" p
               [("router_ipv6", py_opt_str router); ("router_mac", py_opt_str p.(source_mac));
                ("router_lifetime_seconds", lifetime);
                ("managed_address_configuration", truth_field p ["icmpv6.nd.ra.flag.m"]);
                ("other_configuration", truth_field p ["icmpv6.nd.ra.flag.o"]);
                ("router_preference", text_field p ["icmpv6.nd.ra.flag.prf"]); ("current_hop_limit", hop_limit);
                ("prefixes", PList (List.map prefix_dump prefixes)); ("rdnss", py_texts rdnss);
                ("rdnss_lifetime_seconds", rdnss_lifetime); ("dnssl", py_texts dnssl);
                ("dnssl_lifetime_seconds", dnssl_lifetime); ("mtu", mtu)] "ICMPv6 RA",
             mkAdvertisement router p.(source_mac) prefixes rdnss dnssl)).

Definition ipv6_ra_sensor : Sensor := fun dataset =>
  messages ← for_packets router_advertisement dataset.(packets);
  let routers := foldl router_after [] (List.map snd messages) in
  sensor_result "ipv6_ra" (List.map fst messages) None
    [("routers", PList (List.map router_dump routers)); ("router_count", PInt (Z.of_nat (length routers)))]
    dataset.(dataset_errors).

Definition neighbor_message (p : PacketRecord) : outcome PyExc (option (Observation * list (string * string))) :=
  type ← integer_value p ["icmpv6.type"];
  when_seen (bool_decide (type = Some 135 ∨ type = Some 136))
    (let solicitation := bool_decide (type = Some 135) in
     let target := first_value p ["icmpv6.nd.ns.target_address"; "icmpv6.nd.na.target_address"; "icmpv6.nd.target_address"] in
     let option_mac := first_value p ["icmpv6.opt.linkaddr"; "icmpv6.opt.src_linkaddr"; "icmpv6.opt.target_linkaddr";
                                      "icmpv6.nd.opt.src_linkaddr"; "icmpv6.nd.opt.tgt_linkaddr"] in
     let kind := if solicitation then "neighbor_solicitation" else "neighbor_advertisement" in
     let address := if solicitation then p.(source_ip) else target in
     Return (observation "ipv6_nd" kind p
               [("message_type", PStr kind); ("target_ipv6", py_opt_str target); ("link_layer_address", py_opt_str option_mac);
                ("router_flag", truth_field p ["icmpv6.nd.na.flag.r"]);
                ("solicited_flag", truth_field p ["icmpv6.nd.na.flag.s"]);
                ("override_flag", truth_field p ["icmpv6.nd.na.flag.o"])] "ICMPv6 ND",
             match address, opt_or option_mac p.(source_mac) with
             | Some (String a ip), Some (String b mac) => [(String a ip, lower (String b mac))]
             | _, _ => []
             end)).

Definition count_kind (kind : string) (observations : list Observation) : Z :=
  Z.of_nat (length (List.filter (fun o => String.eqb o.(seen_kind) kind) observations)).

Definition ipv6_nd_sensor : Sensor := fun dataset =>
  messages ← for_packets neighbor_message dataset.(packets);
  let observations := List.map fst messages in
  sensor_result "ipv6_nd" observations None
    [("observed_ipv6_mac", PList (List.map (relation_dump "ipv6") (unique (flat_map snd messages))));
     ("solicitations", PInt (count_kind "neighbor_solicitation" observations));
     ("advertisements", PInt (count_kind "neighbor_advertisement" observations))]
    dataset.(dataset_errors).

(** ** Names and services *)

(** [int(value) in ports] for one of the values. *)
Definition _uses_udp_port (p : PacketRecord) (ports : list Z) : bool :=
  existsb (fun v => match int_of_str v with Some n => existsb (Z.eqb n) ports | None => false end)
    (values p ["udp.srcport"; "udp.dstport"]).

Definition _is_response (p : PacketRecord) (alias : string) : bool :=
  match first_value p [alias] with Some v => str_in (lower v) ["1"; "true"; "yes"; "set"] | None => false end.

(** The texts of a list of the data. *)
Definition data_texts (o : Observation) (key : string) : list string :=
  match get o.(seen_data) key with
  | PList l => flat_map (fun v => match v with PStr s => [s] | _ => [] end) l
  | _ => []
  end.

Definition _name_summary (observations : list Observation) : dict :=
  let all keys := py_texts (sorted_set (flat_map (fun o => flat_map (data_texts o) keys) observations)) in
  [("names", all ["query_names"; "response_names"; "names"]); ("addresses", all ["addresses"]);
   ("services", all ["advertised_services"])].

Definition srv_target_dump (ports : list string) (i : nat) (target : string) : pyval :=
  PDict [("target", PStr target); ("port", py_opt_str (ports !! i))].

Definition dns_observation (name protocol : string) (p : PacketRecord) : Observation :=
  let response := _is_response p "dns.flags.response" in
  let ports := split_values (values p ["dns.srv.port"]) in
  observation name (if response then "name_response" else "name_query") p
    [("query_names", texts_field p ["dns.qry.name"]); ("response_names", texts_field p ["dns.resp.name"]);
     ("record_types", texts_field p ["dns.qry.type"; "dns.resp.type"]); ("addresses", texts_field p ["dns.a"; "dns.aaaa"]);
     ("advertised_services", texts_field p ["dns.ptr.domain_name"]);
     ("srv_targets", PList (imap (srv_target_dump ports) (split_values (values p ["dns.srv.target"]))));
     ("txt", texts_field p ["dns.txt"]); ("is_response", PBool response)] protocol.

Definition _dns_like_sensor (name protocol : string) (names : list string) (ports : list Z) : Sensor := fun dataset =>
  observations ← for_packets (fun p => when_seen (has_protocol p names || _uses_udp_port p ports)
    (Return (dns_observation name protocol p))) dataset.(packets);
  sensor_result name observations None (_name_summary observations) dataset.(dataset_errors).

Definition mdns_sensor : Sensor := _dns_like_sensor "mdns" "mDNS" ["mdns"] [5353].
Definition llmnr_sensor : Sensor := _dns_like_sensor "llmnr" "LLMNR" ["llmnr"] [5355].

Definition is_nbns (p : PacketRecord) : bool :=
  has_protocol p ["nbns"; "nbns"] || _uses_udp_port p [137] || any_values p ["nbns.name"].

Definition nbns_observation (p : PacketRecord) : Observation :=
  let response := _is_response p "nbns.flags.response" in
  observation "nbns" (if response then "name_response" else "name_query") p
    [("names", texts_field p ["nbns.name"; "nbns.queries.name"]); ("is_response", PBool response);
     ("addresses", texts_field p ["nbns.addr"; "nbns.response.addr"])] "NBNS".

Definition nbns_sensor : Sensor := fun dataset =>
  observations ← for_packets (fun p => when_seen (is_nbns p) (Return (nbns_observation p))) dataset.(packets);
  sensor_result "nbns" observations None (_name_summary observations) dataset.(dataset_errors).

(** [line.split(":", 1)] of the lines with a colon; a later header replaces an earlier one. *)
Definition _headers (lines : list string) : list (string * string) :=
  foldl (fun headers line => match split_once Ip.colon line with
                             | (key, Some value) => dict_set headers (lower (strip key)) (strip value)
                             | (_, None) => headers
                             end) [] lines.

Fixpoint _first_line_token (lines : list string) : option string :=
  match lines with
  | [] => None
  | line :: lines => if negb (has_char Ip.colon line) && nonempty (strip line) then head (split_ws line)
                     else _first_line_token lines
  end.

Definition is_ssdp (p : PacketRecord) : bool := has_protocol p ["ssdp"] || _uses_udp_port p [1900].

Definition ssdp_observation (p : PacketRecord) : outcome PyExc Observation :=
  let lines := split_values (values p ["http.request.line"; "http.response.line"; "ssdp"]) in
  let headers := _headers lines in
  let method := first_value p ["http.request.method"] in
  status ← integer_value p ["http.response.code"];
  let type := opt_or (opt_or method (match status with Some _ => Some "response" | None => None end)) (_first_line_token lines) in
  Return (observation "ssdp" "service_advertisement" p
            [("message_type", py_opt_str type); ("status_code", py_opt_int status); ("usn", py_opt_str (dict_get headers "usn"));
             ("search_target", py_opt_str (dict_get headers "st")); ("notification_type", py_opt_str (dict_get headers "nt"));
             ("location", py_opt_str (opt_or (dict_get headers "location") (first_value p ["http.location"])));
             ("server", py_opt_str (opt_or (dict_get headers "server") (first_value p ["http.server"])));
             ("cache_control", py_opt_str (dict_get headers "cache-control"))] "SSDP").

Definition ssdp_sensor : Sensor := fun dataset =>
  observations ← for_packets (fun p => when_seen (is_ssdp p) (ssdp_observation p)) dataset.(packets);
  sensor_result "ssdp" observations None
    [("locations", py_texts (sorted_set (texts_under "location" observations)));
     ("servers", py_texts (sorted_set (texts_under "server" observations)))]
    dataset.(dataset_errors).

(** ** The registry *)

Definition PASSIVE_SENSORS : list (string * Sensor) :=
  [("ethernet", ethernet_sensor); ("vlan", vlan_sensor); ("arp", arp_sensor); ("dhcpv4", dhcpv4_sensor);
   ("lldp", lldp_sensor); ("cdp", cdp_sensor); ("stp", stp_sensor); ("ipv6_ra", ipv6_ra_sensor);
   ("ipv6_nd", ipv6_nd_sensor); ("dhcpv6", dhcpv6_sensor); ("mdns", mdns_sensor); ("llmnr", llmnr_sensor);
   ("nbns", nbns_sensor); ("ssdp", ssdp_sensor)].

(** A sensor that raises gives an error in place of its result. *)
Definition failed_sensor (name : string) (e : PyExc) : SensorResult :=
  mkSensorResult name SENSOR_ERROR 0 [] [] []
    [mkPipelineError SENSOR_FAILED ("sensor." +:+ name) ("Sensor failed: " +:+ py_exc_text e) false []].

Definition run_sensor (dataset : PacketDataset) (entry : string * Sensor) : string * SensorResult :=
  (entry.1, match entry.2 dataset with Return r => r | Raise e => failed_sensor entry.1 e end).

Definition run_passive_sensors (dataset : PacketDataset) : list (string * SensorResult) :=
  List.map (run_sensor dataset) PASSIVE_SENSORS.

(** The sensors of a [passive_result] document. *)
Definition sensors_dump (results : list (string * SensorResult)) : dict :=
  List.map (fun kv => (kv.1, PDict (sensor_dump kv.2))) results.
