(* ===== verification/SensorTheorems.v ===== *)
(** * What the passive sensors promise

    Every sensor answers for every dataset; what it reports cites a packet it was given; and
    the findings read from a document of sensor results what the packets say. *)

From S2P Require Import Prelude PyBase PyText JobModels FindModels FindCopy FindDates FindRules FindInventoryRules FindInventoryProofs ProbeModels Evidence ProbeStore ProbeRun ProbeTargetsProofs PassiveModels Sensors.

(** ** Reading numbers *)

(** A text of more bytes than [int] reads digits. *)
Definition too_long (v : string) : Prop := (MAX_STR_DIGITS < String.length v)%nat.

(** A field of the packet holds such a text. *)
Definition long_value (p : PacketRecord) : Prop := ∃ name vs v, (name, vs) ∈ p.(fields) ∧ v ∈ vs ∧ too_long v.

Lemma str_filter_length p s : (String.length (str_filter p s) <= String.length s)%nat.
Proof. induction s as [|c s IH]; cbn; [lia|]. destruct (p c); cbn; lia. Qed.
Lemma str_filter_all p s : str_all p (str_filter p s) = true.
Proof. induction s as [|c s IH]; cbn; [done|]. destruct (p c) eqn:Hc; cbn; by rewrite ?Hc. Qed.

Lemma lstrip_by_length p s : (String.length (lstrip_by p s) <= String.length s)%nat.
Proof. induction s as [|c s IH]; cbn; [lia|]. destruct (p c); cbn; lia. Qed.
Lemma rstrip_by_length p s : (String.length (rstrip_by p s) <= String.length s)%nat.
Proof. induction s as [|c s IH]; cbn; [lia|]. destruct (rstrip_by p s), (p c); cbn in *; lia. Qed.
Lemma strip_length s : (String.length (strip s) <= String.length s)%nat.
Proof. unfold strip. etrans; [apply rstrip_by_length|apply lstrip_by_length]. Qed.
Lemma split_on_length x s w : w ∈ split_on x s → (String.length w <= String.length s)%nat.
Proof.
  revert w. induction s as [|c s IH]; intros w; cbn; [intros ->%list_elem_of_singleton; cbn; lia|].
  destruct (Ascii.eqb c x).
  - intros [->|Hw%IH]%elem_of_cons; cbn; lia.
  - destruct (split_on x s) as [|v vs]; [intros ->%list_elem_of_singleton; cbn; lia|].
    intros [->|Hw]%elem_of_cons; [cbn; specialize (IH v ltac:(constructor)); lia|].
    specialize (IH w ltac:(by constructor)). lia.
Qed.

(** Reading a number fails for texts that are too long only. *)
Lemma number_of_raise v e : number_of v = Raise e → too_long v.
Proof.
  unfold number_of, too_long. destruct (int_auto v); [done|].
  pose proof (str_filter_length is_digit v) as Hl. pose proof (str_filter_all is_digit v) as Ha.
  destruct (str_filter is_digit v) as [|c s] eqn:E; [done|].
  destruct (le_lt_dec (String.length (String c s)) 4300) as [Hs|Hs]; [|unfold MAX_STR_DIGITS; lia].
  destruct (int_of_str_digits _ Ha eq_refl Hs) as [n Hn]. unfold int_of_kept_digits. by rewrite Hn.
Qed.

Lemma numbers_of_raise vs e : numbers_of vs = Raise e → ∃ v, v ∈ vs ∧ too_long v.
Proof.
  induction vs as [|v vs IH]; cbn; [done|]. destruct (number_of v) eqn:Hv; cbn.
  - destruct (numbers_of vs); [done|]. intros [= <-]. destruct (IH eq_refl) as (w & ? & ?). exists w. split; [by constructor|done].
  - intros _. exists v. split; [constructor|by eapply number_of_raise].
Qed.

(** ** Values of a packet *)

Lemma foldl_append_new vs acc x : x ∈ foldl append_new acc vs ↔ x ∈ acc ∨ x ∈ vs.
Proof.
  revert acc. induction vs as [|v vs IH]; intros acc; cbn; [set_solver|]. rewrite IH, append_new_elem. set_solver.
Qed.
Lemma foldl_append_new_NoDup vs acc : NoDup acc → NoDup (foldl append_new acc vs).
Proof. revert acc. induction vs as [|v vs IH]; intros acc Hacc; cbn; [done|]. by apply IH, append_new_NoDup. Qed.

(** The value of a field is one of a field whose token ends with that of an alias. *)
Lemma values_spec p aliases v :
  v ∈ values p aliases ↔
  ∃ name vs, (name, vs) ∈ p.(fields) ∧ v ∈ vs ∧ ∃ alias, alias ∈ aliases ∧ endswith (_field_token name) (_field_token alias) = true.
Proof.
  unfold values. cbv zeta.
  assert (∀ l acc, v ∈ foldl (fun acc '(name, vs) =>
      if existsb (endswith (_field_token name)) (List.map _field_token aliases) then foldl append_new acc vs else acc) acc l ↔
    v ∈ acc ∨ ∃ name vs, (name, vs) ∈ l ∧ v ∈ vs ∧ ∃ alias, alias ∈ aliases ∧ endswith (_field_token name) (_field_token alias) = true)
    as Hgo; [|rewrite Hgo; set_solver].
  induction l as [|[name vs] l IH]; intros acc; cbn [foldl]; [set_solver|]. rewrite IH.
  assert (existsb (endswith (_field_token name)) (List.map _field_token aliases) = true ↔
    ∃ alias, alias ∈ aliases ∧ endswith (_field_token name) (_field_token alias) = true) as Hex.
  { rewrite existsb_exists. setoid_rewrite in_map_iff. setoid_rewrite <- list_elem_of_In.
    split; [intros (t & (a & <- & Ha) & Ht); by exists a|intros (a & Ha & Ht); exists (_field_token a); split; [by exists a|done]]. }
  destruct (existsb _ _).
  - rewrite foldl_append_new. destruct Hex as [Hex _]. specialize (Hex eq_refl). split.
    + intros [[?|Hv]|(?&?&?&?&?)]; [by left| |]; right; [exists name, vs; set_solver|do 2 eexists; split; [by right|done]].
    + intros [?|(n&ws&[[= -> ->]|?]%elem_of_cons&?&?)]; [by left; left|by left; right|]. right. by exists n, ws.
  - split; [intros [?|(n&ws&?&?&?)]; [by left|right; exists n, ws; by split; [right|]]|].
    intros [?|(n&ws&[[= -> ->]|?]%elem_of_cons&?&Ha)]; [by left| |right; by exists n, ws].
    destruct Hex as [_ Hex]. by specialize (Hex Ha).
Qed.

Lemma values_long p aliases v : v ∈ values p aliases → too_long v → long_value p.
Proof. intros (name & vs & ? & ? & _)%values_spec ?. by exists name, vs, v. Qed.

Lemma first_value_elem p aliases v : first_value p aliases = Some v → ∃ w, w ∈ values p aliases ∧ v = strip w ∧ nonempty v = true.
Proof.
  unfold first_value, first. destruct (values p aliases) as [|w ws]; cbn; [done|].
  destruct (nonempty (strip w)) eqn:Hw; [|done]. intros [= <-]. exists w. by split; [constructor|].
Qed.

Lemma too_long_le v w : (String.length v <= String.length w)%nat → too_long v → too_long w.
Proof. unfold too_long. lia. Qed.

Lemma integer_value_raise p aliases e : integer_value p aliases = Raise e → long_value p.
Proof.
  unfold integer_value. destruct (first_value p aliases) as [v|] eqn:Hv; [|done].
  destruct (first_value_elem _ _ _ Hv) as (w & Hw & -> & _). intros H%number_of_raise.
  eapply values_long; [done|]. eapply too_long_le, H. apply strip_length.
Qed.

(** *** Splitting *)

Lemma split_values_fold values acc x :
  x ∈ foldl (fun items value =>
    foldl (fun items item => let item := strip item in if nonempty item then append_new items item else items)
      items (split_on comma value)) acc values ↔
  x ∈ acc ∨ ∃ v item, v ∈ values ∧ item ∈ split_on comma v ∧ x = strip item ∧ nonempty x = true.
Proof.
  assert (∀ l acc, x ∈ foldl (fun items item => let item := strip item in if nonempty item then append_new items item else items) acc l ↔
    x ∈ acc ∨ ∃ item, item ∈ l ∧ x = strip item ∧ nonempty x = true) as Hin.
  { clear acc. induction l as [|i l IH]; intros acc; cbn [foldl]; [set_solver|]. cbv zeta. rewrite IH.
    destruct (nonempty (strip i)) eqn:Hi; rewrite ?append_new_elem.
    - split; [intros [[?| ->]|(j&?&?&?)]; [by left|right; exists i; set_solver|right; exists j; set_solver]|].
      intros [?|(j&[->|?]%elem_of_cons&->&?)]; [by left; left|by left; right|right; by exists j].
    - split; [intros [?|(j&?&?&?)]; [by left|right; exists j; set_solver]|].
      intros [?|(j&[->|?]%elem_of_cons&->&?)]; [by left|congruence|right; by exists j]. }
  revert acc. induction values as [|v vs IH]; intros acc; cbn [foldl].
  { split; [by left|]. by intros [?|(w&i&?%elem_of_nil&_)]. }
  rewrite IH, Hin. clear IH Hin. split.
  - intros [[?|(i&?&?&?)]|(w&i&?&?&?&?)]; [by left|right; exists v, i; set_solver|right; exists w, i; set_solver].
  - intros [?|(w&i&[->|?]%elem_of_cons&?&?&?)]; [by left; left|left; right; by exists i|right; by exists w, i].
Qed.

Lemma split_values_spec values x :
  x ∈ split_values values ↔ ∃ v item, v ∈ values ∧ item ∈ split_on comma v ∧ x = strip item ∧ nonempty x = true.
Proof. unfold split_values. rewrite split_values_fold. set_solver. Qed.

Lemma split_values_long values x : x ∈ split_values values → too_long x → ∃ v, v ∈ values ∧ too_long v.
Proof.
  intros (v & item & Hv & Hi & -> & _)%split_values_spec H. exists v. split; [done|]. eapply too_long_le, H.
  etrans; [apply strip_length|by eapply split_on_length].
Qed.

Lemma integer_values_raise p aliases e : _integer_values (values p aliases) = Raise e → long_value p.
Proof.
  unfold _integer_values. intros (x & Hx & Hl)%numbers_of_raise.
  destruct (split_values_long _ _ Hx Hl) as (v & Hv & Hl'). by eapply values_long.
Qed.

(** ** What every sensor does *)

(** The observation cites a packet of the dataset under the name of its sensor. *)
Definition cites (name : string) (dataset : PacketDataset) (o : Observation) : Prop :=
  ∃ p kind data protocol, p ∈ dataset.(packets) ∧ o = observation name kind p data protocol.

(** A sensor answers with a valid result under its name that cites the dataset and hands on
    its errors; it fails only when a packet holds a text that is too long. *)
Definition answers (name : string) (dataset : PacketDataset) (m : outcome PyExc SensorResult) : Prop :=
  match m with
  | Return r => r.(sensor_name) = name ∧ validate_state r = true ∧ r.(sensor_errors) = dataset.(dataset_errors) ∧
                detected r = negb (no_items r.(sensor_observations)) ∧
                ∀ o, o ∈ r.(sensor_observations) → cites name dataset o
  | Raise _ => ∃ p, p ∈ dataset.(packets) ∧ long_value p
  end.

Lemma sensor_result_returns name observations hits summary errors :
  (∀ n, hits = Some n → 0 <= n) →
  ∃ r, sensor_result name observations hits summary errors = Return r ∧ r.(sensor_observations) = observations ∧
       r.(PassiveModels.hits) = default (Z.of_nat (length observations)) hits ∧ r.(sensor_summary) = summary.
Proof.
  intros Hh. unfold sensor_result, new_sensor_result.
  assert ((0 <=? default (Z.of_nat (length observations)) hits) = true) as Hp.
  { apply Z.leb_le. destruct hits as [n|]; [by apply Hh|]. cbn [default]. apply Nat2Z.is_nonneg. }
  set (r := mkSensorResult _ _ _ _ _ _ _). assert (validate_state r = true) as ->; [|by exists r].
  unfold validate_state. subst r. cbn [PassiveModels.hits]. rewrite Hp. by destruct errors, observations.
Qed.

Lemma sensor_result_answers name dataset observations hits summary :
  (∀ o, o ∈ observations → cites name dataset o) → (∀ n, hits = Some n → 0 <= n) →
  answers name dataset (sensor_result name observations hits summary dataset.(dataset_errors)).
Proof.
  intros Hc Hh. unfold sensor_result, new_sensor_result.
  assert ((0 <=? default (Z.of_nat (length observations)) hits) = true) as Hp.
  { apply Z.leb_le. destruct hits as [n|]; [by apply Hh|]. cbn [default]. apply Nat2Z.is_nonneg. }
  set (r := mkSensorResult _ _ _ _ _ _ _). assert (validate_state r = true) as Hv.
  { unfold validate_state. subst r. cbn [PassiveModels.hits]. rewrite Hp. by destruct dataset.(dataset_errors), observations. }
  assert (detected r = negb (no_items r.(sensor_observations))) as Hd by (subst r; by destruct dataset.(dataset_errors), observations).
  rewrite Hv. by split_and!.
Qed.

(** A reading of packets is [sound] when it fails for long values only, and what it gives satisfies [Q]. *)
Definition sound {X} (Q : PacketRecord → X → Prop) (p : PacketRecord) (m : outcome PyExc X) : Prop :=
  match m with Return x => Q p x | Raise _ => long_value p end.

Lemma sound_bind {X Y} p (m : outcome PyExc X) (k : X → outcome PyExc Y) (R : PacketRecord → X → Prop) (Q : PacketRecord → Y → Prop) :
  sound R p m → (∀ x, R p x → sound Q p (k x)) → sound Q p (m ≫= k).
Proof. destruct m; cbn; auto. Qed.
Lemma sound_integer {Y} p aliases (k : option Z → outcome PyExc Y) Q :
  (∀ n, sound Q p (k n)) → sound Q p (integer_value p aliases ≫= k).
Proof. intros H. apply (sound_bind _ _ _ (λ _ _, True)); [|auto]. destruct (integer_value p aliases) eqn:E; [done|by eapply integer_value_raise]. Qed.
Lemma sound_integer_field {Y} p aliases (k : pyval → outcome PyExc Y) Q :
  (∀ n, sound Q p (k n)) → sound Q p (integer_field p aliases ≫= k).
Proof.
  intros H. apply (sound_bind _ _ _ (λ _ _, True)); [|auto]. unfold integer_field.
  destruct (integer_value p aliases) eqn:E; [done|by eapply integer_value_raise].
Qed.
Lemma sound_integers {Y} p aliases (k : list (option Z) → outcome PyExc Y) Q :
  (∀ n, sound Q p (k n)) → sound Q p (_integer_values (values p aliases) ≫= k).
Proof.
  intros H. apply (sound_bind _ _ _ (λ _ _, True)); [|auto].
  destruct (_integer_values (values p aliases)) eqn:E; [done|by eapply integer_values_raise].
Qed.
Lemma sound_when {X} (Q : PacketRecord → X → Prop) p b m : sound Q p m → sound (λ p o, ∀ x, o = Some x → Q p x) p (when_seen b m).
Proof. destruct b; cbn; [|done]. destruct m; cbn; [|done]. by intros ? ? [= <-]. Qed.

Create HintDb sensors.
#[export] Hint Resolve sound_integer sound_integer_field sound_integers sound_when : sensors.

(** A loop over the packets: each result comes from one of them. *)
Lemma for_packets_sound {X} (Q : PacketRecord → X → Prop) f l :
  (∀ p, p ∈ l → sound (λ p o, ∀ x, o = Some x → Q p x) p (f p)) →
  match for_packets f l with
  | Return xs => ∀ x, x ∈ xs → ∃ p, p ∈ l ∧ Q p x
  | Raise _ => ∃ p, p ∈ l ∧ long_value p
  end.
Proof.
  induction l as [|p l IH]; intros H; cbn; [by intros ? ?%elem_of_nil|].
  pose proof (H p ltac:(constructor)) as Hp. destruct (f p) as [o|e]; cbn in *; [|exists p; split; [constructor|done]].
  specialize (IH ltac:(intros; apply H; by constructor)). destruct (for_packets f l) as [xs|e]; cbn in *.
  - intros x Hx. assert (x ∈ xs ∨ o = Some x) as [?%IH| ->] by (destruct o; set_solver).
    + destruct H0 as (q & ? & ?). exists q. split; [by constructor|done].
    + exists p. split; [constructor|by apply Hp].
  - destruct IH as (q & ? & ?). exists q. split; [by constructor|done].
Qed.

(** The observation is one of the packet's, made by the sensor. *)
Definition about (name : string) (p : PacketRecord) (o : Observation) : Prop :=
  ∃ kind data protocol, o = observation name kind p data protocol.

Lemma about_observation name kind p data protocol : about name p (observation name kind p data protocol).
Proof. by exists kind, data, protocol. Qed.
#[export] Hint Resolve about_observation : sensors.

(** A sensor that goes through the packets, one observation for each that is of interest. *)
Lemma loop_answers {X} name dataset f (shown : X → Observation) (hits : list X → option Z) (summary : list X → dict) :
  (∀ p, sound (λ p o, ∀ x, o = Some x → about name p (shown x)) p (f p)) → (∀ xs n, hits xs = Some n → 0 <= n) →
  answers name dataset (xs ← for_packets f dataset.(packets);
    sensor_result name (List.map shown xs) (hits xs) (summary xs) dataset.(dataset_errors)).
Proof.
  intros Hf Hh. pose proof (for_packets_sound (λ p x, about name p (shown x)) f dataset.(packets) (λ p _, Hf p)) as H.
  destruct (for_packets f _) as [xs|e]; cbn; [|done]. apply sensor_result_answers; [|apply Hh].
  intros o (x & <- & Hx)%list_elem_of_In%in_map_iff. apply list_elem_of_In in Hx.
  destruct (H x Hx) as (p & Hp & kind & data & protocol & ->). by exists p, kind, data, protocol.
Qed.

Lemma plain_loop_answers name dataset f hits summary :
  (∀ p, sound (λ p o, ∀ x, o = Some x → about name p x) p (f p)) → (∀ xs n, hits xs = Some n → 0 <= n) →
  answers name dataset (xs ← for_packets f dataset.(packets); sensor_result name xs (hits xs) (summary xs) dataset.(dataset_errors)).
Proof.
  intros Hf Hh. pose proof (loop_answers name dataset f id hits summary Hf Hh) as H.
  destruct (for_packets f _) as [xs|e]; cbn in *; [|done]. by rewrite map_id in H.
Qed.

(** A message read from a packet of interest. *)
Ltac reads_packet :=
  intros; cbv zeta;
  lazymatch goal with
  | |- sound _ _ (when_seen _ _) => apply sound_when; reads_packet
  | |- sound _ _ (Return _) => cbn [sound fst]; first [done | apply about_observation]
  | |- sound _ _ (integer_value _ _ ≫= _) => apply sound_integer; reads_packet
  | |- sound _ _ (integer_field _ _ ≫= _) => apply sound_integer_field; reads_packet
  | |- sound _ _ (_integer_values _ ≫= _) => apply sound_integers; reads_packet
  | |- sound _ _ (_ ≫= _) => apply (sound_bind _ _ _ (λ _ _, True)); reads_packet
  | _ => idtac
  end.
Ltac sensor_answers :=
  first [apply plain_loop_answers with (hits := λ _, None) | apply loop_answers with (hits := λ _, None)]; [reads_packet|done].

Lemma vlan_answers dataset : answers "vlan" dataset (vlan_sensor dataset).
Proof.
  apply plain_loop_answers with (hits := λ xs, Some (Z.of_nat (length xs))); [|intros ? ? [= <-]; lia].
  intros p. unfold vlan_observation. cbn. destruct (_dot1q_ids p); [done|]. intros ? [= <-]. apply about_observation.
Qed.

Lemma lldp_answers dataset : answers "lldp" dataset (lldp_sensor dataset).
Proof. unfold lldp_sensor, neighbor_sensor, lldp_data. sensor_answers. Qed.

Lemma cdp_answers dataset : answers "cdp" dataset (cdp_sensor dataset).
Proof. unfold cdp_sensor, neighbor_sensor, cdp_data. sensor_answers. Qed.
Lemma stp_answers dataset : answers "stp" dataset (stp_sensor dataset).
Proof. unfold stp_sensor, stp_data. sensor_answers. Qed.
Lemma arp_answers dataset : answers "arp" dataset (arp_sensor dataset).
Proof. unfold arp_sensor, arp_message. cbv zeta. apply (loop_answers "arp" dataset _ fst (λ _, None)); [reads_packet|done]. Qed.
Lemma dhcpv4_answers dataset : answers "dhcpv4" dataset (dhcpv4_sensor dataset).
Proof. unfold dhcpv4_sensor, dhcp_message. cbv zeta. apply (loop_answers "dhcpv4" dataset _ fst (λ _, None)); [reads_packet|done]. Qed.
Lemma dhcpv6_answers dataset : answers "dhcpv6" dataset (dhcpv6_sensor dataset).
Proof. unfold dhcpv6_sensor, dhcpv6_message. cbv zeta. apply (loop_answers "dhcpv6" dataset _ fst (λ _, None)); [reads_packet|done]. Qed.

Lemma ra_prefixes_sound p : sound (λ _ _, True) p (ra_prefixes p).
Proof. unfold ra_prefixes. reads_packet. Qed.
#[export] Hint Resolve ra_prefixes_sound : sensors.

Lemma ipv6_ra_answers dataset : answers "ipv6_ra" dataset (ipv6_ra_sensor dataset).
Proof.
  unfold ipv6_ra_sensor, router_advertisement. cbv zeta. apply (loop_answers "ipv6_ra" dataset _ fst (λ _, None)); [|done].
  reads_packet. apply ra_prefixes_sound.
Qed.
Lemma ipv6_nd_answers dataset : answers "ipv6_nd" dataset (ipv6_nd_sensor dataset).
Proof.
  unfold ipv6_nd_sensor, neighbor_message. cbv zeta. apply (loop_answers "ipv6_nd" dataset _ fst (λ _, None)); [reads_packet|done].
Qed.

Lemma dns_like_answers name protocol names ports dataset :
  answers name dataset (_dns_like_sensor name protocol names ports dataset).
Proof. unfold _dns_like_sensor, dns_observation. sensor_answers. Qed.
Lemma nbns_answers dataset : answers "nbns" dataset (nbns_sensor dataset).
Proof. unfold nbns_sensor, nbns_observation. sensor_answers. Qed.
Lemma ssdp_answers dataset : answers "ssdp" dataset (ssdp_sensor dataset).
Proof. unfold ssdp_sensor, ssdp_observation. sensor_answers. Qed.

Lemma ethernet_answers dataset : answers "ethernet" dataset (ethernet_sensor dataset).
Proof.
  unfold ethernet_sensor. cbv zeta. apply sensor_result_answers; [|intros n [= <-]; apply Nat2Z.is_nonneg].
  intros o Ho. apply list_elem_of_In, in_flat_map in Ho as ([mac count] & _ & Ho). cbn in Ho.
  destruct (find_first _ _) as [p|] eqn:Hp; [|done]. apply find_first_Some in Hp as [Hp _].
  destruct Ho as [<-|[]]. unfold cites. eauto 6.
Qed.

Lemma registry_answers dataset : Forall (λ entry, answers entry.1 dataset (entry.2 dataset)) PASSIVE_SENSORS.
Proof.
  repeat constructor; cbn [fst snd]; [apply ethernet_answers|apply vlan_answers|apply arp_answers|apply dhcpv4_answers|apply lldp_answers
    |apply cdp_answers|apply stp_answers|apply ipv6_ra_answers|apply ipv6_nd_answers|apply dhcpv6_answers|apply dns_like_answers
    |apply dns_like_answers|apply nbns_answers|apply ssdp_answers].
Qed.


(** ** From packets to findings *)

(** The loop gives exactly what it reads from the packets. *)
Lemma for_packets_elem {X} (f : PacketRecord → outcome PyExc (option X)) l xs :
  for_packets f l = Return xs → ∀ x, x ∈ xs ↔ ∃ p, p ∈ l ∧ f p = Return (Some x).
Proof.
  revert xs. induction l as [|p l IH]; intros xs; cbn.
  { intros [= <-] x. split; [by intros ?%elem_of_nil|by intros (? & ?%elem_of_nil & _)]. }
  destruct (f p) as [o|e] eqn:Hf; cbn; [|done]. destruct (for_packets f l) as [ys|e]; cbn; [|done].
  intros [= <-] x. specialize (IH ys eq_refl x).
  assert (x ∈ match o with Some y => y :: ys | None => ys end ↔ o = Some x ∨ x ∈ ys) as -> by (destruct o; set_solver).
  rewrite IH. setoid_rewrite elem_of_cons. split.
  - intros [->|(q & Hq & Hx)]; [by exists p; auto|by exists q; auto].
  - intros (q & [->|Hq] & Hx); [left; congruence|right; by exists q].
Qed.

Lemma for_packets_returns {X} (f : PacketRecord → outcome PyExc (option X)) l xs p :
  for_packets f l = Return xs → p ∈ l → ∃ o, f p = Return o.
Proof.
  revert xs. induction l as [|q l IH]; intros xs; cbn; [by intros _ ?%elem_of_nil|].
  destruct (f q) as [o|] eqn:Hq; cbn; [|done]. destruct (for_packets f l) as [ys|]; cbn; [|done].
  intros _ [->|Hp]%elem_of_cons; [by exists o|by apply (IH ys)].
Qed.

Lemma when_seen_Some {X} b (m : outcome PyExc X) x : when_seen b m = Return (Some x) ↔ b = true ∧ m = Return x.
Proof. destruct b, m; cbn; naive_solver. Qed.

(** The servers of the summary are those the messages name. *)
Lemma note_server_ids servers id o :
  ∀ x, x ∈ List.map dhcp_server_id (note_server servers id o) ↔ x ∈ List.map dhcp_server_id servers ∨ x = id.
Proof.
  induction servers as [|s servers IH]; intros x; cbn; [set_solver|].
  destruct (String.eqb_spec s.(dhcp_server_id) id) as [<-|]; cbn; rewrite ?elem_of_cons, ?IH; naive_solver.
Qed.

Lemma servers_after_ids offers servers x :
  x ∈ List.map dhcp_server_id (foldl server_after servers offers) ↔
  x ∈ List.map dhcp_server_id servers ∨ ∃ o, o ∈ offers ∧ o.(offer_server) = Some x ∧ x ≠ EmptyString.
Proof.
  revert servers. induction offers as [|o offers IH]; intros servers; cbn [foldl].
  { split; [by left|]. by intros [?|(? & ?%elem_of_nil & _)]. }
  rewrite IH. setoid_rewrite elem_of_cons. unfold server_after.
  destruct o.(offer_server) as [[|c s]|] eqn:Ho; [naive_solver| |naive_solver].
  rewrite note_server_ids. split.
  - intros [[?| ->]|(q&?&?)]; [by left|right; exists o; auto|right; exists q; tauto].
  - intros [?|(q&[->|?]&Hq&?)]; [by left; left| |right; by exists q]. left. right. congruence.
Qed.

(** The name of the server in a message. *)
Definition server_id_of (p : PacketRecord) : option string := first_value p (dhcp_names "option.dhcp_server_id").

Lemma dhcp_message_server p o : dhcp_message p = Return o → o.2.(offer_server) = server_id_of p.
Proof.
  unfold dhcp_message. destruct (integer_value p (dhcp_names "option.dhcp")); cbn; [|done].
  destruct (integer_field p _); cbn; [|done]. by intros [= <-].
Qed.

(** A sensor that does not fail returns the result it has in the document. *)
Definition short_values (dataset : PacketDataset) : Prop := ∀ p field vs v,
  p ∈ dataset.(packets) → (field, vs) ∈ p.(fields) → v ∈ vs → (String.length v <= 4300)%nat.

Lemma sensor_returns name sensor dataset :
  (name, sensor) ∈ PASSIVE_SENSORS → short_values dataset →
  ∃ r, sensor dataset = Return r ∧ run_sensor dataset (name, sensor) = (name, r) ∧
       r.(sensor_name) = name ∧ detected r = negb (no_items r.(sensor_observations)).
Proof.
  intros Hin Hs. pose proof (registry_answers dataset) as H. rewrite Forall_forall in H. specialize (H _ Hin).
  unfold run_sensor. cbn [fst snd] in *. destruct (sensor dataset) as [r|e].
  - exists r. by destruct H as (? & _ & _ & ? & _).
  - destruct H as (p & Hp & field & vs & v & Hf & Hv & Hl). specialize (Hs _ _ _ _ Hp Hf Hv). unfold too_long, MAX_STR_DIGITS in Hl. lia.
Qed.

(** A stored document with the dump of the results. *)
Definition documents (document : dict) (results : list (string * SensorResult)) : Prop :=
  ∃ result, dict_get document "result" = Some (PDict result) ∧ get result "sensors" = PDict (sensors_dump results).

Lemma documented_sensor document dataset name r :
  documents document (run_passive_sensors dataset) →
  get (sensors_dump (run_passive_sensors dataset)) name = PDict (sensor_dump r) →
  _sensor document name = Return (Some (sensor_dump r)).
Proof.
  intros (result & Hr & Hs) Hn. unfold _sensor. rewrite Hr. cbn [default get_attr id]. rewrite Hs, bind_mret. 
  change (por (PDict (sensors_dump (run_passive_sensors dataset))) (get document "sensors")) with (PDict (sensors_dump (run_passive_sensors dataset))).
  cbn iota. by rewrite Hn.
Qed.

(** What a result holds when its hits are its observations. *)
Lemma sensor_result_counts name observations summary errors r :
  sensor_result name observations None summary errors = Return r →
  r.(hits) = Z.of_nat (length observations) ∧ r.(sensor_observations) = observations ∧ r.(sensor_summary) = summary.
Proof. unfold sensor_result, new_sensor_result. case_match; [|done]. by intros [= <-]. Qed.

(** The record of a result is seen when it has observations. *)
Lemma seen_by_dump r :
  r.(hits) = Z.of_nat (length r.(sensor_observations)) → detected r = negb (no_items r.(sensor_observations)) →
  (∃ status n, seen_by (sensor_dump r) status n) ↔ r.(sensor_observations) ≠ [].
Proof.
  intros Hh Hd. unfold seen_by, sensor_dump. cbn [get dict_get]. split.
  - intros (status & n & _ & _ & Hn & Hpos) E. rewrite Hh, E in Hn. cbn in Hn. injection Hn as <-. lia.
  - intros Hne. exists (SensorStatus_value r.(sensor_status)), r.(hits).
    unfold detected in Hd. destruct r.(sensor_observations) as [|o os]; [done|]. apply bool_decide_eq_true in Hd.
    split_and!; [by destruct r.(sensor_status)|by destruct Hd as [-> | ->]; set_solver| |rewrite Hh; cbn; lia].
    rewrite Hh. cbn. done.
Qed.

(** The presence rule over a sensor that shows every packet it looks at. *)
Lemma presence_iff context document dataset name sensor seen shown summary self copy sev ds :
  (name, sensor) ∈ PASSIVE_SENSORS → short_values dataset →
  sensor dataset = (xs ← for_packets (fun p => when_seen (seen p) (Return (shown p))) dataset.(packets);
                    sensor_result name xs None (summary xs) dataset.(dataset_errors)) →
  get (sensors_dump (run_passive_sensors dataset)) name = PDict (sensor_dump (run_sensor dataset (name, sensor)).2) →
  context.(passive_result) = Some document → documents document (run_passive_sensors dataset) →
  _sensor_presence context self name copy sev = Return ds →
  ds ≠ [] ↔ ∃ p, p ∈ dataset.(packets) ∧ seen p = true.
Proof.
  intros Hin Hs Hsensor Hget Hc Hdoc Heval. destruct (sensor_returns _ _ _ Hin Hs) as (r & Hr & Hrun & _ & Hd).
  rewrite Hrun in Hget. pose proof (documented_sensor _ _ _ _ Hdoc Hget) as Hfound.
  rewrite Hsensor in Hr. apply outcome_bind_inv in Hr as (xs & Hxs & Hr).
  destruct (sensor_result_counts _ _ _ _ _ Hr) as (Hh & Ho & _). rewrite <- Ho in Hh.
  destruct (sensor_presence_iff _ _ _ _ _ _ Heval) as (_ & _ & ->).
  pose proof (seen_by_dump r Hh Hd) as Hseen. pose proof (for_packets_elem _ _ _ Hxs) as Helem.
  transitivity (xs ≠ []).
  - rewrite <- Ho, <- Hseen. rewrite Hc. unfold sensor_of. split.
    + intros (? & [= <-] & record & status & n & Hrec & Hst). rewrite Hfound in Hrec. injection Hrec as <-. by exists status, n.
    + intros (status & n & Hst). exists document. split; [done|]. exists (sensor_dump r), status, n. by rewrite Hfound.
  - split.
    + destruct xs as [|x xs]; [done|]. intros _. destruct (proj1 (Helem x) ltac:(constructor)) as (p & Hp & Hx).
      apply when_seen_Some in Hx as [Hx _]. by exists p.
    + intros (p & Hp & Hx) ->. apply (not_elem_of_nil (shown p)), Helem. exists p. split; [done|]. by rewrite Hx.
Qed.

(** What the rule over the DHCP servers sees in the dump of the servers. *)
Lemma server_identifier_dump s x : server_identifier (server_dump s) = Some x ↔ s.(dhcp_server_id) = x ∧ x ≠ EmptyString.
Proof. unfold server_identifier, server_dump. cbn. destruct s.(dhcp_server_id); cbn; naive_solver. Qed.

Lemma dhcp_entries_dump document r servers rest :
  _sensor document "dhcpv4" = Return (Some (sensor_dump r)) →
  r.(sensor_summary) = ("servers", PList (List.map server_dump servers)) :: rest →
  dhcp_entries document = List.map server_dump servers.
Proof.
  intros Hf Hsum. unfold dhcp_entries, sensor_of. rewrite Hf. cbn [default id].
  change (get (sensor_dump r) "summary") with (PDict r.(sensor_summary)). cbn iota. rewrite Hsum.
  change (get (("servers", PList (List.map server_dump servers)) :: rest) "servers") with (PList (List.map server_dump servers)).
  by destruct servers.
Qed.

(** The servers of the summary come from the packets of the protocol. *)
Lemma dhcp_servers_of_packets dataset xs :
  for_packets (fun p => when_seen (is_dhcp p) (dhcp_message p)) dataset.(packets) = Return xs →
  ∀ s, (∃ item, item ∈ List.map server_dump (foldl server_after [] (List.map snd xs)) ∧ server_identifier item = Some s) ↔
       ∃ p, p ∈ dataset.(packets) ∧ is_dhcp p = true ∧ server_id_of p = Some s.
Proof.
  intros Hxs s. pose proof (for_packets_elem _ _ _ Hxs) as Helem.
  transitivity (s ≠ EmptyString ∧ s ∈ List.map dhcp_server_id (foldl server_after [] (List.map snd xs))).
  { setoid_rewrite list_elem_of_In. setoid_rewrite in_map_iff. split.
    - intros (item & (server & <- & Hin) & [<- Hne]%server_identifier_dump). split; [done|]. by exists server.
    - intros (Hne & server & <- & Hin). exists (server_dump server). split; [by exists server|]. by apply server_identifier_dump. }
  rewrite servers_after_ids. cbn [List.map]. split.
  - intros (Hne & [?%elem_of_nil|(o & Ho & Hs & _)]); [done|].
    apply list_elem_of_In, in_map_iff in Ho as (m & <- & Hm%list_elem_of_In).
    apply Helem in Hm as (p & Hp & [Hd Hm]%when_seen_Some). exists p. rewrite <- (dhcp_message_server _ _ Hm). auto.
  - intros (p & Hp & Hd & Hs). destruct (first_value_elem _ _ _ Hs) as (_ & _ & _ & Hne).
    assert (s ≠ EmptyString) as Hs' by (by intros ->). split; [done|]. right.
    destruct (for_packets_returns _ _ _ _ Hxs Hp) as (o & Ho). cbn beta in Ho. rewrite Hd in Ho. cbn in Ho.
    destruct (dhcp_message p) as [m|] eqn:Hm; cbn in Ho; [|done].
    exists m.2. split_and!; [|by rewrite (dhcp_message_server _ _ Hm)|done].
    apply list_elem_of_In, in_map, list_elem_of_In, Helem. exists p. split; [done|]. rewrite Hd, Hm. done.
Qed.

Lemma dhcp_finding_iff context document dataset ds :
  short_values dataset → context.(passive_result) = Some document → documents document (run_passive_sensors dataset) →
  Rule_evaluate MultipleDhcpServersRule context = Return ds →
  ds ≠ [] ↔ ∃ a b, a ≠ b ∧ ∀ s, s ∈ [a; b] → ∃ p, p ∈ dataset.(packets) ∧ is_dhcp p = true ∧ server_id_of p = Some s.
Proof.
  intros Hs Hc Hdoc Heval. assert (("dhcpv4", dhcpv4_sensor) ∈ PASSIVE_SENSORS) as Hin by (by do 3 right; left).
  destruct (sensor_returns _ _ _ Hin Hs) as (r & Hr & Hrun & _).
  assert (get (sensors_dump (run_passive_sensors dataset)) "dhcpv4" = PDict (sensor_dump r)) as Hget
    by (transitivity (PDict (sensor_dump (run_sensor dataset ("dhcpv4", dhcpv4_sensor)).2)); [done|by rewrite Hrun]).
  pose proof (documented_sensor _ _ _ _ Hdoc Hget) as Hfound.
  unfold dhcpv4_sensor in Hr. apply outcome_bind_inv in Hr as (xs & Hxs & Hr). cbv zeta in Hr.
  destruct (sensor_result_counts _ _ _ _ _ Hr) as (_ & _ & Hsum). clear Hr.
  pose proof (dhcp_entries_dump _ _ _ _ Hfound Hsum) as Hentries. pose proof (dhcp_servers_of_packets _ _ Hxs) as Hids.
  rewrite <- Hentries in Hids. clear Hxs Hsum Hget Hentries.
  destruct (multiple_dhcp_iff _ _ Heval) as (_ & _ & ->). rewrite Hc. split.
  - intros (? & [= <-] & a & b & Hab & H). exists a, b. split; [done|]. intros s Hin'. by apply Hids, H.
  - intros (a & b & Hab & H). exists document. split; [done|]. exists a, b. split; [done|]. intros s Hin'. by apply Hids, H.
Qed.


(** ** Counting tags *)

Lemma unique_fold {A} `{EqDecision A} (l acc : list A) :
  NoDup acc → let r := foldl (fun acc x => if bool_decide (x ∈ acc) then acc else acc ++ [x]) acc l in
  NoDup r ∧ ∀ x, x ∈ r ↔ x ∈ acc ∨ x ∈ l.
Proof.
  revert acc. induction l as [|y l IH]; intros acc Hacc; cbn [foldl]; [split; [done|set_solver]|].
  destruct (bool_decide_reflect (y ∈ acc)) as [Hy|Hy].
  - destruct (IH acc Hacc) as [H1 H2]. split; [done|]. intros x. rewrite H2. set_solver.
  - destruct (IH (acc ++ [y])) as [H1 H2]; [apply NoDup_app; split_and!; [done|set_solver|apply NoDup_singleton]|].
    split; [done|]. intros x. rewrite H2. set_solver.
Qed.
Lemma unique_NoDup {A} `{EqDecision A} (l : list A) : NoDup (unique l).
Proof. apply (unique_fold l []), NoDup_nil_2. Qed.
Lemma unique_elem {A} `{EqDecision A} (l : list A) x : x ∈ unique l ↔ x ∈ l.
Proof. destruct (unique_fold l [] NoDup_nil_2) as [_ H]. unfold unique. rewrite H. set_solver. Qed.

(** How often an element occurs. *)
Definition occurrences {A} `{EqDecision A} (x : A) (l : list A) : Z := Z.of_nat (length (List.filter (fun y => bool_decide (y = x)) l)).

Lemma counter_elem {A} `{EqDecision A} (l : list A) x n : (x, n) ∈ counter l ↔ x ∈ l ∧ n = occurrences x l.
Proof.
  unfold counter. rewrite list_elem_of_In, in_map_iff. setoid_rewrite <- list_elem_of_In. setoid_rewrite unique_elem.
  split; [intros (y & [= -> <-] & ?); done|intros [? ->]; by exists x].
Qed.

Lemma counter_keys {A} `{EqDecision A} (l : list A) : List.map fst (counter l) = unique l.
Proof. unfold counter. rewrite map_map. apply map_id. Qed.

(** The tags of a packet are the numbers from 0 to 4095 in its tag fields. *)
Lemma dot1q_ids_spec p v :
  v ∈ _dot1q_ids p ↔ 0 <= v <= 4095 ∧ ∃ name vs item, (name, vs) ∈ p.(fields) ∧ is_tag_field name = true ∧
    item ∈ split_values vs ∧ int_auto item = Some v.
Proof.
  unfold _dot1q_ids. rewrite list_elem_of_In, in_flat_map. setoid_rewrite <- list_elem_of_In. split.
  - intros ([name vs] & Hf & Hv). destruct (is_tag_field name) eqn:Ht; [|by apply elem_of_nil in Hv].
    apply list_elem_of_In, in_flat_map in Hv as (item & Hi%list_elem_of_In & Hv). unfold tag_of in Hv.
    destruct (int_auto item) as [n|] eqn:Hn; [|done]. destruct ((0 <=? n) && (n <=? 4095)) eqn:Hb; [|done].
    destruct Hv as [->|[]]. split; [lia|]. by exists name, vs, item.
  - intros (Hb & name & vs & item & Hf & Ht & Hi & Hn). exists (name, vs). split; [done|]. rewrite Ht.
    apply list_elem_of_In, in_flat_map. exists item. split; [by apply list_elem_of_In|]. unfold tag_of. rewrite Hn.
    assert ((0 <=? v) && (v <=? 4095) = true) as -> by lia. by left.
Qed.

Lemma sorted_keys_strict (l : list (Z * Z)) :
  StronglySorted (fun a b => (a.1 <=? b.1) = true) l → NoDup (List.map fst l) → StronglySorted (fun a b => a.1 < b.1) l.
Proof.
  induction 1 as [|[v n] l Hs IH Hall]; [constructor|]. cbn. intros [Hno Hnd]%NoDup_cons. constructor; [by apply IH|].
  rewrite Forall_forall in Hall |- *. intros [w m] Hw. specialize (Hall _ Hw). cbn in *.
  assert (v ≠ w) as Hne; [|lia]. intros <-. apply Hno, list_elem_of_In, in_map_iff. exists (v, m). by rewrite <- list_elem_of_In.
Qed.

Lemma vlan_counts_spec packets v n :
  (v, n) ∈ vlan_counts packets ↔
  (∃ p, p ∈ packets ∧ v ∈ _dot1q_ids p) ∧ n = occurrences v (flat_map _dot1q_ids packets).
Proof.
  unfold vlan_counts. rewrite elem_of_sort_by, counter_elem, list_elem_of_In, in_flat_map. by setoid_rewrite <- list_elem_of_In.
Qed.

Lemma vlan_counts_sorted packets : StronglySorted (fun a b => a.1 < b.1) (vlan_counts packets).
Proof.
  apply sorted_keys_strict.
  - apply sort_by_sorted; intros; lia.
  - unfold vlan_counts. rewrite (Permutation_map fst (sort_by_perm _ _)), counter_keys. apply unique_NoDup.
Qed.

(** What the sensor of tags returns, for every capture. *)
Definition tagged_frame (p : PacketRecord) : bool := negb (no_items (_dot1q_ids p)).

Lemma vlan_result dataset : ∃ xs r, for_packets (fun p => Return (vlan_observation p)) dataset.(packets) = Return xs ∧
  vlan_sensor dataset = Return r ∧ r.(sensor_observations) = xs ∧ r.(hits) = count_packets tagged_frame dataset.(packets) ∧
  r.(sensor_summary) =
    [("tagged_frames", PInt (count_packets tagged_frame dataset.(packets)));
     ("vlan_frame_counts", PList (List.map (fun '(v, n) => PDict [("vlan_id", PInt v); ("frames", PInt n)])
                                    (vlan_counts dataset.(packets))))].
Proof.
  assert (∀ l, ∃ xs, for_packets (fun p => Return (vlan_observation p)) l = Return xs ∧
    Z.of_nat (length xs) = count_packets tagged_frame l) as Hloop.
  { induction l as [|p l (xs & IH & Hn)]; [by exists []|]. cbn. rewrite IH. cbn. unfold count_packets, vlan_observation, tagged_frame in *. cbn.
    destruct (_dot1q_ids p); cbn; eexists; split; try done; cbn; lia. }
  destruct (Hloop dataset.(packets)) as (xs & Hxs & Hn). exists xs. unfold vlan_sensor. rewrite Hxs. cbv zeta. rewrite bind_Return, Hn.
  match goal with |- context [sensor_result ?n ?o ?h ?s ?e] => destruct (sensor_result_returns n o h s e) as (r & ? & ? & ? & ?) end;
    [|by exists r]. intros n [= <-]. apply Nat2Z.is_nonneg.
Qed.

(** C37: the VLANs of a capture.  The sensor never fails.  It counts the frames with a tag and
    lists each VLAN once, in increasing order, with how often it was seen; a listed VLAN is a
    number between 0 and 4095 that stands in a tag field of a packet, and each such number is
    listed: the VLANs neighbours advertise over LLDP, CDP and STP are not taken for tags. *)
Theorem vlan_sensor_correct dataset :
  ∃ r, vlan_sensor dataset = Return r ∧
  r.(hits) = count_packets tagged_frame dataset.(packets) ∧
  (∀ o, o ∈ r.(sensor_observations) ↔ ∃ p, p ∈ dataset.(packets) ∧ vlan_observation p = Some o) ∧
  get r.(sensor_summary) "vlan_frame_counts" =
    PList (List.map (fun '(v, n) => PDict [("vlan_id", PInt v); ("frames", PInt n)]) (vlan_counts dataset.(packets))) ∧
  StronglySorted (fun a b => a.1 < b.1) (vlan_counts dataset.(packets)) ∧
  (∀ v, (∃ n, (v, n) ∈ vlan_counts dataset.(packets)) ↔
     0 <= v <= 4095 ∧ ∃ p name vs item, p ∈ dataset.(packets) ∧ (name, vs) ∈ p.(fields) ∧ is_tag_field name = true ∧
       item ∈ split_values vs ∧ int_auto item = Some v) ∧
  (∀ v n, (v, n) ∈ vlan_counts dataset.(packets) → n = occurrences v (flat_map _dot1q_ids dataset.(packets)) ∧ 0 < n) ∧
  (∀ name, (∃ word, word ∈ ["lldp"; "cdp"; "stp"; "voice"; "native"; "pvid"] ∧ contains word (_field_token name) = true) →
     is_tag_field name = false).
Proof.
  destruct (vlan_result dataset) as (xs & r & Hxs & Hr & Eo & Eh & Es). pose proof (for_packets_elem _ _ _ Hxs) as Helem.
  exists r. rewrite Eo, Es. split_and!; [done|done| |done|apply vlan_counts_sorted| | |].
  - intros o. rewrite Helem. split; intros (p & ? & Ho); exists p; split; congruence.
  - intros v. setoid_rewrite vlan_counts_spec. setoid_rewrite dot1q_ids_spec. split.
    + intros (n & (p & Hp & Hb & name & vs & item & ?) & _). split; [done|]. exists p, name, vs, item. tauto.
    + intros (Hb & p & name & vs & item & ? & ?). eexists. split; [|done]. exists p. split; [done|]. split; [done|]. by exists name, vs, item.
  - intros v n [(p & Hp & Hv) ->]%vlan_counts_spec. split; [done|]. unfold occurrences.
    assert (v ∈ List.filter (fun y => bool_decide (y = v)) (flat_map _dot1q_ids dataset.(packets))) as Hin.
    { apply list_elem_of_In, filter_In. split; [|by apply bool_decide_eq_true]. apply in_flat_map. exists p. by rewrite <- !list_elem_of_In. }
    destruct (List.filter _ _); [by apply elem_of_nil in Hin|cbn; lia].
  - intros name (word & Hw & Hc). unfold is_tag_field. apply andb_false_iff. left. apply negb_false_iff, existsb_exists.
    exists word. by rewrite <- list_elem_of_In.
Qed.

(** ** A capture *)

(** A tagged ARP request, two DHCP offers, an mDNS name, and an LLMNR query by its port. *)
Definition sample_packet (n : Z) (layers : list string) (found : list (string * list string)) : PacketRecord :=
  mkPacket n None layers (Some "02:00:00:00:00:01") (Some "FF:FF:FF:FF:FF:FF") (Some "192.168.1.10") None found.
Definition sample_dataset : PacketDataset := mkDataset
  [sample_packet 1 ["eth"; "vlan"; "arp"] [("vlan_id", ["0x0a"]); ("arp_opcode", ["1"]); ("arp_src_proto_ipv4", ["192.168.1.10"]);
                                           ("lldp_ieee_802_1_port_vlan_id", ["77"])];
   sample_packet 2 ["eth"; "ip"; "udp"; "dhcp"] [("dhcp_option_dhcp", ["2"]); ("dhcp_option_dhcp_server_id", ["192.168.1.1"]);
                                                 ("dhcp_option_router", ["192.168.1.1, 192.168.1.2"])];
   sample_packet 3 ["eth"; "ip"; "udp"; "dhcp"] [("dhcp_option_dhcp", ["2"]); ("dhcp_option_dhcp_server_id", ["192.168.1.66"])];
   sample_packet 4 ["eth"; "ip"; "udp"; "mdns"] [("dns_qry_name", ["printer.local"])];
   sample_packet 5 ["eth"; "ip"; "udp"] [("udp_srcport", ["49152"]); ("udp_dstport", ["5355"])]]
  [] (mkToolResult ["tshark"] "tshark" (Some 0) "" "" 0 0 0 false false true None) None.

Definition sample_document : dict := [("result", PDict [("sensors", PDict (sensors_dump (run_passive_sensors sample_dataset)))])].
Definition sample_evaluation : EvaluationContext := mkEvaluation "audit" [] [] (Some sample_document) (Some "artifact") 0.

Example sample_statuses :
  List.map (fun kv => (kv.1, SensorStatus_value kv.2.(sensor_status), kv.2.(hits))) (run_passive_sensors sample_dataset) =
  [("ethernet", "detected", 5); ("vlan", "detected", 1); ("arp", "detected", 1); ("dhcpv4", "detected", 2); ("lldp", "absent", 0);
   ("cdp", "absent", 0); ("stp", "absent", 0); ("ipv6_ra", "absent", 0); ("ipv6_nd", "absent", 0); ("dhcpv6", "absent", 0);
   ("mdns", "detected", 1); ("llmnr", "detected", 1); ("nbns", "absent", 0); ("ssdp", "absent", 0)].
Proof. by vm_compute. Qed.

Example sample_vlans : vlan_counts sample_dataset.(packets) = [(10, 1)].
Proof. by vm_compute. Qed.

(** A text of digits beyond the limit fails its sensor, and only this one. *)
Definition long_dataset : PacketDataset :=
  mkDataset [sample_packet 1 ["arp"] [("arp_opcode", [foldr String EmptyString (replicate (Z.to_nat 4301) "9"%char)])]] []
    sample_dataset.(decode_result) None.
Example long_text_fails_sensor :
  List.map fst (List.filter (fun kv => bool_decide (kv.2.(sensor_status) = SENSOR_ERROR)) (run_passive_sensors long_dataset)) = ["arp"].
Proof. by vm_compute. Qed.

Definition reported (r : Rule) : bool := match Rule_evaluate r sample_evaluation with Return (_ :: _) => true | _ => false end.
Example sample_findings :
  List.map reported [LlmnrPresentRule; NbnsPresentRule; MultipleDhcpServersRule] = [true; false; true].
Proof. by vm_compute. Qed.

(** The hypotheses hold of the sample. *)
Lemma sample_short p field vs v :
  p ∈ sample_dataset.(packets) → (field, vs) ∈ p.(fields) → v ∈ vs → (String.length v <= 4300)%nat.
Proof.
  assert (Forall (λ p, Forall (λ f : string * list string, Forall (λ v, (String.length v <= 4300)%nat) f.2) p.(fields)) sample_dataset.(packets)) as H
    by by_decide.
  intros Hp Hf Hv. rewrite Forall_forall in H. specialize (H _ Hp). rewrite Forall_forall in H.
  specialize (H _ Hf). rewrite Forall_forall in H. by apply H.
Qed.
Lemma sample_documents : ∃ result, dict_get sample_document "result" = Some (PDict result) ∧
  get result "sensors" = PDict (sensors_dump (run_passive_sensors sample_dataset)).
Proof. eexists. split; reflexivity. Qed.
Lemma sample_servers s : s ∈ ["192.168.1.1"; "192.168.1.66"] → ∃ p, p ∈ sample_dataset.(packets) ∧ is_dhcp p = true ∧
  first_value p ["dhcp.option.dhcp_server_id"; "bootp.option.dhcp_server_id"] = Some s.
Proof.
  assert (Forall (λ s, Exists (λ p, is_dhcp p = true ∧
    first_value p ["dhcp.option.dhcp_server_id"; "bootp.option.dhcp_server_id"] = Some s) sample_dataset.(packets))
    ["192.168.1.1"; "192.168.1.66"]) as H by by_decide.
  intros Hs. rewrite Forall_forall in H. apply H, Exists_exists in Hs as (p & ?). by exists p.
Qed.
Lemma sample_evaluates : is_Some (match Rule_evaluate MultipleDhcpServersRule sample_evaluation with Return ds => Some ds | Raise _ => None end).
Proof. vm_compute. by eexists. Qed.


(** ** What modelling showed *)

(** The values of a packet are kept once each, so fields that stand side by side in it do not
    line up any more: of two advertised prefixes of the same length the second has none. *)
Example second_prefix_loses_length :
  ra_prefixes (sample_packet 1 ["icmpv6"]
    [("icmpv6_opt_prefix", ["2001:db8:1::"; "2001:db8:2::"]); ("icmpv6_opt_prefix_length", ["64"; "64"]);
     ("icmpv6_opt_prefix_flag_a", ["1"; "1"])]) =
  Return [mkRaPrefix "2001:db8:1::" (Some 64) None (Some true) None None; mkRaPrefix "2001:db8:2::" None None None None None].
Proof. by vm_compute. Qed.

(** In the same way a second service on the same port loses it. *)
Example second_target_loses_port :
  get (seen_data (dns_observation "mdns" "mDNS" (sample_packet 1 ["mdns"]
    [("dns_srv_target", ["a.local"; "b.local"]); ("dns_srv_port", ["445"; "445"])]))) "srv_targets" =
  PList [PDict [("target", PStr "a.local"); ("port", PStr "445")]; PDict [("target", PStr "b.local"); ("port", PNone)]].
Proof. by vm_compute. Qed.

(** The digits of a text that is no number are read as one number. *)
Example digits_run_together : number_of "1 day, 2 hours" = Return (Some 12).
Proof. by vm_compute. Qed.
