(* ===== verification/ActiveProofs.v ===== *)
(** * Active discovery: lemmas

    What the search for a representative address finds, which scans a job runs, on which
    targets, and that the database stays well formed. *)

From S2P Require Import Prelude PyBase PyText JobModels JobStore Sha256 Ip IpProofs ScopeEngine Nmap FindModels FindDates InventoryBase Inventory InventoryIngest InventoryQueries InventoryInvariant InventoryProofs InventorySystem Regex ProbeModels ProbeTargets ProbeParsers Evidence EvidenceProofs ProbeStore NmapProgress ProbeRun Routes RouteTrace NmapPlans ActiveRun ProbeTargetsProofs ProbeRunProofs.

(** ** The search for a representative address *)

(** What the search finds is the first address that is not assigned. *)
Lemma first_unassigned_Some assigned ver fuel x last y :
  first_unassigned assigned ver fuel x last = Some y →
  x ≤ y ≤ last ∧ mkIp ver y None ∉ assigned ∧ ∀ z, x ≤ z < y → mkIp ver z None ∈ assigned.
Proof.
  revert x. induction fuel as [|fuel IH]; intros x; cbn; [done|]. destruct (Z.ltb_spec last x); [done|].
  case_bool_decide as Hx.
  - intros (Hr & Hn & Ha)%IH. split; [lia|]. split; [done|]. intros z Hz. destruct (decide (z = x)) as [->|]; [done|]. apply Ha. lia.
  - intros [= <-]. split; [lia|]. split; [done|lia].
Qed.

(** It gives up at the end, or after as many assigned addresses as it has turns. *)
Lemma first_unassigned_None assigned ver fuel x last :
  first_unassigned assigned ver fuel x last = None →
  (∀ z, x ≤ z ≤ last → mkIp ver z None ∈ assigned) ∨
  (∀ k, (k < fuel)%nat → mkIp ver (x + Z.of_nat k) None ∈ assigned).
Proof.
  revert x. induction fuel as [|fuel IH]; intros x; cbn; [intros _; right; lia|].
  destruct (Z.ltb_spec last x); [left; lia|]. case_bool_decide as Hx; [|done]. intros [Hall|Hall]%IH.
  - left. intros z Hz. destruct (decide (z = x)) as [->|]; [done|]. apply Hall. lia.
  - right. intros [|k] Hk; [by rewrite Z.add_0_r|]. replace (x + Z.of_nat (S k)) with (x + 1 + Z.of_nat k) by lia. apply Hall. lia.
Qed.

Lemma assigned_run assigned ver fuel x :
  (∀ k, (k < fuel)%nat → mkIp ver (x + Z.of_nat k) None ∈ assigned) → (fuel <= length assigned)%nat.
Proof.
  intros Hall. set (run := (fun k => mkIp ver (x + Z.of_nat k) None) <$> seq 0 fuel).
  assert (NoDup run) as Hnd.
  { apply NoDup_fmap_2_strong; [|apply NoDup_seq]. intros a b _ _ [= E]. lia. }
  transitivity (length run); [unfold run; by rewrite length_fmap, length_seq|].
  apply submseteq_length, NoDup_submseteq; [done|]. intros a (k & -> & Hk%elem_of_seq)%list_elem_of_fmap. apply Hall. lia.
Qed.

(** So one more turn than there are assigned addresses is enough. *)
Lemma first_unassigned_enough assigned ver fuel x last :
  (length assigned < fuel)%nat →
  first_unassigned assigned ver fuel x last = None → ∀ z, x ≤ z ≤ last → mkIp ver z None ∈ assigned.
Proof. intros Hf [H|H%assigned_run]%first_unassigned_None; [done|lia]. Qed.

Lemma hosts_range_in n :
  net_ok n → let '(first, last) := hosts_range n in
  n.(network_address).(ip_int) ≤ first ≤ last ∧ last ≤ (broadcast_address n).(ip_int).
Proof.
  intros Hn. unfold hosts_range. rewrite broadcast_block by done. pose proof (block_size_pos n Hn) as Hb.
  pose proof (net_prefix_ok _ Hn) as Hp.
  destruct (Z.eqb_spec n.(prefixlen) (net_max n)) as [E|E]; [lia|].
  destruct (Z.eqb_spec n.(prefixlen) (net_max n - 1)) as [E1|E1]; [lia|].
  assert (4 ≤ block_size n) as H4.
  { unfold block_size. change 4 with (2 ^ 2). apply Z.pow_le_mono_r; lia. }
  destruct (net_version n =? 4); lia.
Qed.

Lemma in_block_ok n x :
  net_ok n → n.(network_address).(ip_int) ≤ x ≤ (broadcast_address n).(ip_int) →
  ip_ok (mkIp (net_version n) x None) ∧ address_in (mkIp (net_version n) x None) n = true.
Proof.
  intros Hn Hx. assert (ip_ok (mkIp (net_version n) x None)) as Hok.
  { pose proof (broadcast_block n Hn) as Hb. pose proof (net_prefix_ok _ Hn) as Hp. pose proof (net_aligned _ Hn) as Hal.
    pose proof (ip_ok_range _ (net_addr_ok _ Hn)) as Hr. pose proof (block_size_pos n Hn) as Hpos.
    assert (x < 2 ^ net_max n) as Hlt.
    { assert (2 ^ net_max n = block_size n * 2 ^ n.(prefixlen)) as Hpow.
      { unfold block_size. rewrite <- Z.pow_add_r by lia. f_equal. lia. }
      apply Z.div_exact in Hal; [|lia]. change (max_prefixlen _) with (net_max n) in Hr. rewrite Hpow in Hr |- *.
      set (a := n.(network_address).(ip_int)) in *. set (q := a / block_size n) in *.
      assert (q < 2 ^ n.(prefixlen)) as Hq by (apply Z.div_lt_upper_bound; lia).
      assert (block_size n * (q + 1) ≤ block_size n * 2 ^ n.(prefixlen)) by (apply Z.mul_le_mono_nonneg_l; lia). lia. }
    unfold net_max, max_prefixlen in Hlt. unfold net_version in *.
    destruct (net_addr_ok _ Hn) as [(E & ? & _)|(E & ? & _)]; rewrite E in *; [left|right];
      cbn [version ip_int scope_id Z.eqb Pos.eqb] in *; split_and!; try done; lia. }
  split; [done|]. apply in_block_network; [done..|]. split; [done|]. cbn. done.
Qed.

(** ** Programs of active discovery *)

(** The scans and the runtime directory are as they were. *)
Definition quiet (w w' : ActiveWorld) : Prop := w'.(scans) = w.(scans) ∧ w'.(runtime_files) = w.(runtime_files).
(** No scan was run. *)
Definition unscanned (w w' : ActiveWorld) : Prop := w'.(scans) = w.(scans).

#[export] Instance quiet_preorder : PreOrder quiet.
Proof. split; [done|]. intros a b c [E1 E2] [E3 E4]. split; congruence. Qed.
#[export] Instance unscanned_preorder : PreOrder unscanned.
Proof. split; [done|]. unfold unscanned. intros a b c. congruence. Qed.

Lemma quiet_unscanned {A} (m : AM A) : along quiet m → along unscanned m.
Proof. intros Hm w. apply Hm. Qed.

(** A program of the site, and pure code, along a relation that only looks at the site. *)
Section site_part.
Context (R : ActiveWorld → ActiveWorld → Prop) `{!PreOrder R}.

Lemma along_py {A} (o : outcome PyExc A) : along R (py_pure o).
Proof. destruct o; [apply along_ret|apply along_raise]; apply _. Qed.
Lemma along_ip {A} (o : IO A) : along R (ip_pure o).
Proof. destruct o; [apply along_ret|apply along_raise]; apply _. Qed.
End site_part.
#[export] Hint Resolve along_py along_ip : along.

Lemma along_on_site {A} (R : ActiveWorld → ActiveWorld → Prop) (m : SM A) :
  (∀ w, R w (w <| act_site := (m w.(act_site)).2 |>)) → along R (on_site m).
Proof. intros Hm w. specialize (Hm w). unfold on_site. by destruct (m w.(act_site)) as [r s]. Qed.

Lemma quiet_site {A} (m : SM A) : along quiet (on_site m).
Proof. by apply along_on_site. Qed.
Lemma quiet_modify (f : ActiveWorld → ActiveWorld) : (∀ w, quiet w (f w)) → along quiet (modify f : AM unit).
Proof. intros Hf w. apply Hf. Qed.
#[export] Hint Resolve quiet_site : along.

(** Walks through a program; what it calls is left to the lemmas of the database. *)
Ltac along_step :=
  match goal with
  | |- along _ (mbind _ _) => apply along_bind; [apply _| |intros]
  | |- along _ (try_except _ _) => apply along_try; [apply _| |intros]
  | |- along _ (for_each _ _) => apply along_for_each; [apply _|intros]
  | |- along _ (let '(_, _) := ?p in _) => destruct p
  | |- along _ (if ?b then _ else _) => destruct b
  | |- along _ (match ?x with _ => _ end) => destruct x
  | |- along _ (mret _) => apply along_ret; apply _
  | |- along _ (raise _) => apply along_raise; apply _
  | |- along _ (reads _) => apply along_reads; apply _
  end.
Ltac along_prog := repeat (cbv zeta; first [along_step | solve [eauto with along typeclass_instances]]).

Section quiet_programs.
Context `{Runtime, FileSystem, ToolHost, ScanHost}.
Context (settings : DiscoverySettings) (vendors : OuiResolver).
Context (read_json : option (ArtifactModel → outcome InvExc pyval)).
Context (json_loads : string → string + pyval) (parse_xml : string → string + element) (json_float : string → pyval).
Context (profile_file : option (option pyval)) (set_order : list ip_net → list ip_net).
Context (audit_id job_id : string).

Lemma quiet_capabilities s : along quiet (capabilities s).
Proof. unfold capabilities, _version. along_prog. by apply quiet_modify. Qed.
Lemma quiet_plan_of {A} (plan : bool → A) : along quiet (plan_of settings plan).
Proof. unfold plan_of, with_capabilities. apply along_bind; [apply _|apply quiet_capabilities|]. along_prog. Qed.
Lemma quiet_ensure : along quiet ensure_active.
Proof. unfold ensure_active. along_prog. Qed.
Lemma quiet_progress p stage message : along quiet (progress p stage message).
Proof. apply quiet_site. Qed.
Lemma quiet_ingest run persist : along quiet (ingest_run vendors audit_id job_id run persist).
Proof. unfold ingest_run. along_prog. Qed.
Lemma quiet_metadata run : along quiet (_run_metadata settings run).
Proof. unfold _run_metadata. apply along_bind; [apply _|apply quiet_capabilities|]. along_prog. Qed.
Lemma quiet_parser {A} (m : PM A) : along quiet (on_parser m).
Proof. intros w. unfold on_parser. by destruct (m _). Qed.
Lemma quiet_report c s : along quiet (report c s).
Proof.
  unfold report. along_prog; [by intros w|]. by apply quiet_modify.
Qed.
#[local] Hint Resolve quiet_capabilities quiet_ensure quiet_progress quiet_ingest quiet_metadata quiet_parser quiet_report : along.
Lemma quiet_chunk c piece : along quiet (stream_chunk c piece).
Proof. unfold stream_chunk. along_prog. Qed.
#[local] Hint Resolve quiet_chunk : along.

Lemma unscanned_unlink path : along unscanned (unlink_runtime_file path).
Proof. unfold unlink_runtime_file. apply along_bind; [apply _|apply quiet_unscanned, quiet_site|]. by intros _ w. Qed.

Lemma unscanned_trace plan document : along unscanned (_persist_route_trace_if_needed json_float audit_id job_id plan document).
Proof.
  apply quiet_unscanned. unfold _persist_route_trace_if_needed. along_prog.
  unfold trace_many. along_prog. generalize (take _MAX_TARGETS (r :: l0)). intros targets.
  induction targets as [|t targets IH]; cbn [trace_all]; along_prog. unfold trace_one. along_prog.
Qed.

(** ** Which scans are run *)

(** A scan by the arguments of a plan, whose target file holds these targets, and which
    leaves the files the host says. *)
Definition scan_of (plan : NmapCommandPlan) (timeout : Z) (targets : list string) (sc : Scan) : Prop :=
  sc.(scan_command) = mkCommand settings.(nmap_settings).(nmap_binary) plan.(plan_args) timeout nmap_environment [] ∧
  sc.(files_before) !! plan.(target_file) = Some (target_text targets) ∧
  ∃ k, sc.(files_after) = scan_files k sc.(scan_command) sc.(files_before).

(** What the scan left at the plan's path is a report, and this is its document. *)
Definition reports (plan : NmapCommandPlan) (sc : Scan) (d : NmapScanDocument) : Prop :=
  ∃ text root, sc.(files_after) !! plan.(xml_path) = Some text ∧ parse_xml text = inr root ∧
               parse_nmap_xml (Some root) = Return d.

Lemma wp_write_target_file targets dir w :
  wp (write_target_file targets dir) (fun r w' => w'.(scans) = w.(scans) ∧
    match r with Return file => w'.(runtime_files) !! file = Some (target_text targets) | Raise _ => True end) w.
Proof.
  unfold write_target_file, put_runtime_file, io_step.
  apply wp_bind, (wp_along quiet); [apply quiet_site|]. intros [u|e] w1 [E1 _]; [|done].
  apply wp_bind, (wp_along quiet); [apply quiet_site|]. intros [id|e] w2 [E2 _]; [|split; [congruence|done]]. cbv zeta.
  apply wp_bind, (wp_along quiet); [apply quiet_site|]. intros [u3|e] w3 [E3 _]; [|split; [congruence|done]].
  apply wp_bind, wp_modify, wp_bind, (wp_along quiet); [apply quiet_site|].
  intros [u4|e] w4 [E4 _]; [|split; [cbn in *; congruence|done]].
  apply wp_bind, wp_modify, wp_bind, (wp_along quiet); [apply quiet_site|].
  intros [u5|e] w5 [E5 F5]; [|split; [cbn in *; congruence|done]].
  apply wp_ret. split; [cbn in *; congruence|]. rewrite F5. apply lookup_insert_eq.
Qed.

Lemma wp_plan_of {A} (plan : bool → A) w :
  wp (plan_of settings plan) (fun r w' => quiet w w' ∧ match r with Return a => ∃ b, a = plan b | Raise _ => True end) w.
Proof.
  unfold plan_of, with_capabilities. apply wp_bind, (wp_along quiet); [apply quiet_capabilities|].
  intros [c|e] w1 E; [|done]. apply wp_ret. split; [done|by eexists].
Qed.

Lemma wp_run_streaming callback c w :
  wp (run_streaming callback c) (fun _ w' => ∃ k, let after := scan_files k c w.(runtime_files) in
    w'.(scans) = w.(scans) ++ [mkScan c w.(runtime_files) after] ∧ w'.(runtime_files) = after) w.
Proof.
  unfold run_streaming. apply wp_bind, wp_modify, wp_bind, wp_reads, wp_bind.
  set (w1 := w <| parser_state := _ |> <| live_state := _ |>). unfold wp at 1, run_scan.
  pose proof (quiet_site (run_tool_command c) w1) as [E1 F1].
  destruct (on_site _ w1) as [r w2]. cbn [fst snd] in *.
  set (k := length w1.(scans)). set (after := scan_files _ _ _). set (w3 := w2 <| runtime_files := after |> <| scans ::= _ |>).
  assert (∀ w', quiet w3 w' → ∃ k, let after := scan_files k c w.(runtime_files) in
    w'.(scans) = w.(scans) ++ [mkScan c w.(runtime_files) after] ∧ w'.(runtime_files) = after) as Hdone.
  { intros w' [E F]. exists k. split; [|exact F]. rewrite E. cbn. by rewrite E1. }
  destruct r as [result|e]; [|by apply Hdone].
  apply (wp_along quiet); [|by intros; apply Hdone]. along_prog; eauto using quiet_chunk, quiet_parser, quiet_report.
Qed.

Lemma wp_report_fails {A} path e w (Q : outcome ActiveExc A → ActiveWorld → Prop) :
  (∀ e' w', w'.(scans) = w.(scans) → Q (Raise e') w') →
  wp (_ ← unlink_runtime_file path; raise e) Q w.
Proof. intros HQ. apply wp_bind, (wp_along unscanned); [apply unscanned_unlink|]. intros [u|e'] w' E; by apply HQ. Qed.

Lemma wp_read_report path text w :
  wp (read_report parse_xml path text) (fun r w' => w'.(scans) = w.(scans) ∧
    match r with
    | Return d => ∃ root, parse_xml text = inr root ∧ parse_nmap_xml (Some root) = Return d
    | Raise _ => True
    end) w.
Proof.
  unfold read_report. apply wp_bind, (wp_along quiet); [unfold io_step; along_prog|].
  intros [[message|]|e] w1 [E1 _]; [by apply wp_report_fails; intros; split; [congruence|]| |done].
  destruct (parse_xml text) as [message|root] eqn:Hx; [by apply wp_report_fails; intros; split; [congruence|]|].
  destruct (parse_nmap_xml (Some root)) as [d|[[]| | |]] eqn:Hd;
    try (by apply wp_report_fails; intros; split; [congruence|]); apply wp_ret || apply wp_raise; eauto.
Qed.

(** A report is the scan's: it is read before its file goes. *)
Lemma wp_take_report plan result w :
  wp (take_report parse_xml json_float audit_id job_id plan result) (fun r w' => w'.(scans) = w.(scans) ∧
    match r with
    | Return run => run.(nmap_plan) = plan ∧ ∀ d, run.(nmap_document) = Some d →
        ∃ text root, w.(runtime_files) !! plan.(xml_path) = Some text ∧ parse_xml text = inr root ∧ parse_nmap_xml (Some root) = Return d
    | Raise _ => True
    end) w.
Proof.
  unfold take_report. apply wp_bind, wp_reads. destruct (w.(runtime_files) !! _) as [text|] eqn:Ht.
  2: { apply wp_ret. split; [done|]. by split. }
  apply wp_bind. eapply wp_mono; [apply wp_read_report|]. intros [d|e] w1 [E1 Hd]; [|done].
  apply wp_bind, (wp_along quiet); [apply quiet_site|]. intros [artifact|e] w2 [E2 _]; [|split; [congruence|done]].
  apply wp_bind, (wp_along unscanned); [apply unscanned_trace|]. intros [u|e] w3 E3; [|split; [congruence|done]].
  apply wp_bind, (wp_along unscanned); [apply unscanned_unlink|]. intros [u'|e] w4 E4; [|split; [congruence|done]].
  apply wp_ret. split; [congruence|]. split; [done|]. intros d' [= <-]. destruct Hd as (root & ? & ?). eauto.
Qed.

Lemma wp_site_pure {A} (o : PO A) w (Q : outcome ActiveExc A → ActiveWorld → Prop) :
  (∀ r w', quiet w w' → (∀ a, r = Return a → o = Return a) → Q r w') → wp (on_site (pure o)) Q w.
Proof. intros HQ. unfold wp. apply HQ; destruct o; cbn; try by split. all: congruence. Qed.

(** A quiet step, its result known to what follows. *)
Lemma wp_quiet_bind {A B} (m : AM A) (k : A → AM B) (Q : outcome ActiveExc B → ActiveWorld → Prop) w :
  along quiet m →
  (∀ e w', w'.(scans) = w.(scans) → Q (Raise e) w') →
  (∀ a w', m w = (Return a, w') → w'.(scans) = w.(scans) → wp (k a) Q w') →
  wp (m ≫= k) Q w.
Proof.
  intros Hm He Hk. apply wp_bind. destruct (Hm w) as [E _]. unfold wp at 1. destruct (m w) as [[a|e] w'] eqn:Hw; cbn in *; auto.
Qed.

(** What running a plan does: nothing is scanned and there is no report, or one scan is, in
    the runtime directory as it was, and the report is that scan's. *)
Definition ran (plan : NmapCommandPlan) (timeout : Z) (w : ActiveWorld) (r : outcome ActiveExc NmapRun) (w' : ActiveWorld) : Prop :=
  (w'.(scans) = w.(scans) ∧ ∀ run, r = Return run → run.(nmap_plan) = plan ∧ run.(nmap_document) = None) ∨
  ∃ sc, w'.(scans) = w.(scans) ++ [sc] ∧
        sc.(scan_command) = mkCommand settings.(nmap_settings).(nmap_binary) plan.(plan_args) timeout nmap_environment [] ∧
        sc.(files_before) = w.(runtime_files) ∧
        (∃ k, sc.(files_after) = scan_files k sc.(scan_command) sc.(files_before)) ∧
        ∀ run, r = Return run → run.(nmap_plan) = plan ∧ ∀ d, run.(nmap_document) = Some d → reports plan sc d.

Lemma wp_execute_plan plan timeout callback w :
  wp (_execute_plan settings parse_xml json_float audit_id job_id plan timeout callback) (ran plan timeout w) w.
Proof.
  unfold _execute_plan. apply wp_bind, (wp_along quiet); [apply quiet_ensure|].
  intros [u|e] w1 [E1 F1]; [|by left]. unfold run_plan. cbv zeta.
  destruct plan.(plan_args) as [|a l] eqn:Hargs.
  { apply wp_bind, (wp_along quiet); [apply quiet_site|]. intros [now|e] w2 [E2 _]; [|left; split; [congruence|done]].
    apply wp_ret. left. split; [congruence|]. by intros run [= <-]. }
  rewrite <- Hargs. apply wp_bind, (wp_along quiet); [apply quiet_site|].
  intros [u2|e] w2 [E2 F2]; [|left; split; [congruence|done]].
  apply wp_bind, wp_site_pure. intros [c|e] w3 [E3 F3] Hc; [|left; split; [congruence|done]].
  specialize (Hc c eq_refl).
  assert (c = mkCommand settings.(nmap_settings).(nmap_binary) plan.(plan_args) timeout nmap_environment []) as ->.
  { unfold build_tool_command in Hc. destruct (negb _); [done|]. destruct (negb _); [done|]. by injection Hc. }
  apply wp_bind. eapply wp_mono; [apply wp_run_streaming|]. intros r w4 (k & E4 & F4). set (after := scan_files _ _ _) in *.
  assert (∀ r' w', w'.(scans) = w4.(scans) → (∀ run, r' = Return run → run.(nmap_plan) = plan ∧ ∀ d, run.(nmap_document) = Some d →
     ∃ text root, after !! plan.(xml_path) = Some text ∧ parse_xml text = inr root ∧ parse_nmap_xml (Some root) = Return d) →
     ran plan timeout w r' w') as Hran.
  { intros r' w' E Hr. right. eexists. split; [rewrite E, E4; f_equal; congruence|]. split; [done|].
    split; [cbn; congruence|]. split; [by exists k|]. exact Hr. }
  destruct r as [result|e]; [|by apply Hran].
  destruct result.(result_cancelled); [by apply wp_report_fails; intros; apply Hran|].
  destruct (negb result.(success)); [by apply wp_report_fails; intros; apply Hran|].
  eapply wp_mono; [apply wp_take_report|]. intros r w5 [E5 Hr]. apply Hran; [done|]. intros run ->.
  by rewrite F4 in Hr.
Qed.

(** The scans of a step: none and no report, or one on the given targets. *)
Definition step_scans (plan : NmapCommandPlan) (timeout : Z) (targets : list string)
    (document : option NmapScanDocument) (ls : list Scan) : Prop :=
  (ls = [] ∧ document = None) ∨
  ∃ sc, ls = [sc] ∧ scan_of plan timeout targets sc ∧ ∀ d, document = Some d → reports plan sc d.

Lemma step_scans_raised plan timeout targets document ls :
  step_scans plan timeout targets document ls → step_scans plan timeout targets None ls.
Proof. intros [[-> _]|(sc & -> & Hsc & _)]; [by left|right]. by exists sc. Qed.

Lemma ran_step plan timeout targets w r w' :
  ran plan timeout w r w' → w.(runtime_files) !! plan.(target_file) = Some (target_text targets) →
  ∃ ls, w'.(scans) = w.(scans) ++ ls ∧ step_scans plan timeout targets None ls ∧
        ∀ run, r = Return run → run.(nmap_plan) = plan ∧ step_scans plan timeout targets run.(nmap_document) ls.
Proof.
  intros [[E Hr]|(sc & E & Hc & Hf & Hk & Hr)] Hfile.
  - exists []. rewrite app_nil_r. split; [done|]. split; [by left|]. intros run Hrun. destruct (Hr run Hrun). split; [done|by left].
  - exists [sc]. split; [done|]. assert (scan_of plan timeout targets sc) by (split; [done|split; [by rewrite Hf|done]]).
    split; [right; exists sc; by split_and!|]. intros run Hrun. destruct (Hr run Hrun). split; [done|]. right. by exists sc.
Qed.

(** Writing the targets, planning and scanning, and what follows. *)
Lemma wp_scan_and_ingest plan timeout callback l targets w :
  w.(runtime_files) !! plan.(target_file) = Some (target_text targets) →
  wp (scan_and_ingest settings vendors parse_xml json_float audit_id job_id plan timeout callback l) (fun r w' =>
    ∃ ls, w'.(scans) = w.(scans) ++ ls ∧ step_scans plan timeout targets None ls ∧
          ∀ run l', r = Return (run, l') → step_scans plan timeout targets run.(nmap_document) ls) w.
Proof.
  intros Hfile. unfold scan_and_ingest. apply wp_bind. eapply wp_mono; [apply wp_execute_plan|].
  intros r w1 (ls & E1 & Hnone & Hr)%(ran_step _ _ targets); [|done]. destruct r as [run|e]; [|by exists ls].
  destruct (Hr run eq_refl) as [_ Hrun].
  apply wp_bind, (wp_along quiet); [apply quiet_metadata|]. intros [m|e] w2 [E2 _]; [|exists ls; split; [congruence|done]].
  apply wp_bind, (wp_along quiet); [apply quiet_ingest|]. intros [n|e] w3 [E3 _]; [|exists ls; split; [congruence|done]].
  apply wp_ret. exists ls. split; [congruence|]. split; [done|]. by intros run' l' [= <- <-].
Qed.

Lemma wp_targets_planned {P A} targets dir (mk : string → bool → P) (k : P → AM A) (Q : outcome ActiveExc A → ActiveWorld → Prop) w :
  (∀ e w', w'.(scans) = w.(scans) → Q (Raise e) w') →
  (∀ file b w', w'.(scans) = w.(scans) → w'.(runtime_files) !! file = Some (target_text targets) → wp (k (mk file b)) Q w') →
  wp (file ← write_target_file targets dir; plan ← plan_of settings (mk file); k plan) Q w.
Proof.
  intros Hraise Hk. apply wp_bind. eapply wp_mono; [apply wp_write_target_file|].
  intros [file|e] w1 [E1 Hfile]; [|by apply Hraise].
  apply wp_bind. eapply wp_mono; [apply wp_plan_of|]. intros [plan|e] w2 [[E2 F2] Hplan]; [|apply Hraise; congruence].
  destruct Hplan as [b ->]. apply (Hk file); congruence.
Qed.

(** ** The scans that follow host discovery *)

Section follow_up.
Context (scope : ValidatedScope) (resolved : ResolvedScope) (profile : ActiveScanProfile) (dir : string).
Context (d : NmapScanDocument).

#[local] Abbreviation timeout := profile.(profile_timeout).

(** A scan of the live targets of the discovery report [d]; or, after a sweep among the
    scans [l] that left a report, of its open ports on its hosts that have one. *)
Inductive follow_up (l : list Scan) : Scan → Prop :=
  | follow_tcp file b sc :
      profile.(profile_name) ≠ DEEP →
      scan_of (tcp_scan_plan scope resolved profile (xml_file dir "tcp-scan.xml") file b) timeout (live_targets d) sc →
      follow_up l sc
  | follow_sweep file b sc :
      profile.(profile_name) = DEEP →
      scan_of (tcp_sweep_plan scope resolved profile (xml_file dir "tcp-sweep.xml") file b) timeout (live_targets d) sc →
      follow_up l sc
  | follow_fingerprint file b sweep_file b' sweep found plan sc :
      profile.(profile_name) = DEEP → sweep ∈ l →
      let sweep_plan := tcp_sweep_plan scope resolved profile (xml_file dir "tcp-sweep.xml") sweep_file b' in
      scan_of sweep_plan timeout (live_targets d) sweep → reports sweep_plan sweep found →
      tcp_fingerprint_plan scope resolved profile (xml_file dir "tcp-fingerprint.xml") file b
        (open_tcp_ports (Some found)) = Some plan →
      scan_of plan timeout (targets_with_open_tcp (Some found)) sc →
      follow_up l sc
  | follow_udp file b plan sc :
      udp_scan_plan scope resolved profile (xml_file dir "udp-scan.xml") file b = Some plan → plan.(plan_args) ≠ [] →
      scan_of plan timeout (live_targets d) sc →
      follow_up l sc.

Lemma follow_up_mono l l' sc : (∀ x, x ∈ l → x ∈ l') → follow_up l sc → follow_up l' sc.
Proof. intros Hl [| | |]; [eapply follow_tcp|eapply follow_sweep|eapply follow_fingerprint|eapply follow_udp]; eauto. Qed.

(** From [n] scans on, everything that is scanned follows the discovery. *)
Definition follows (n : nat) (w w' : ActiveWorld) : Prop :=
  (n <= length w.(scans))%nat → ∃ ls, w'.(scans) = w.(scans) ++ ls ∧ Forall (follow_up (drop n w'.(scans))) ls.

#[export] Instance follows_preorder n : PreOrder (follows n).
Proof.
  split.
  - intros w _. exists []. by rewrite app_nil_r.
  - intros w1 w2 w3 H12 H23 Hn. destruct (H12 Hn) as (l1 & E1 & F1).
    destruct H23 as (l2 & E2 & F2); [rewrite E1, length_app; lia|].
    exists (l1 ++ l2). split; [by rewrite E2, E1, app_assoc|]. apply Forall_app. split; [|done].
    eapply Forall_impl; [exact F1|]. intros sc. apply follow_up_mono. intros x Hx.
    rewrite E2, drop_app. apply elem_of_app. by left.
Qed.

Lemma quiet_follows {A} n (m : AM A) : along quiet m → along (follows n) m.
Proof. intros Hm w _. exists []. rewrite app_nil_r. split; [apply Hm|constructor]. Qed.

(** One step whose scan, if any, follows. *)
Lemma follows_step n plan targets document ls w w' :
  w'.(scans) = w.(scans) ++ ls → step_scans plan timeout targets document ls →
  (∀ l sc, (∀ x, x ∈ drop n w.(scans) → x ∈ l) → scan_of plan timeout targets sc → follow_up l sc) → follows n w w'.
Proof.
  intros E [[-> _]|(sc & -> & Hsc & _)] Hf _; eexists; (split; [exact E|]); [constructor|].
  apply Forall_singleton, Hf; [|done]. intros x Hx. rewrite E, drop_app. apply elem_of_app. by left.
Qed.

Lemma tcp_scan_file xml file b : (tcp_scan_plan scope resolved profile xml file b).(target_file) = file.
Proof. unfold tcp_scan_plan. by repeat case_match. Qed.

(** A scan that follows, whatever comes of it. *)
Lemma follows_scan {A} n plan callback l targets (k : NmapRun * Ledger → AM A) w :
  w.(runtime_files) !! plan.(target_file) = Some (target_text targets) →
  (∀ l sc, (∀ x, x ∈ drop n w.(scans) → x ∈ l) → scan_of plan timeout targets sc → follow_up l sc) →
  (∀ run l' ls w', w'.(scans) = w.(scans) ++ ls → step_scans plan timeout targets run.(nmap_document) ls → follows n w' (k (run, l') w').2) →
  follows n w ((scan_and_ingest settings vendors parse_xml json_float audit_id job_id plan timeout callback l ≫= k) w).2.
Proof.
  intros Hfile Hf Hk. apply (wp_bind _ _ (fun _ w' => follows n w w')). eapply wp_mono; [by apply (wp_scan_and_ingest _ _ _ _ targets)|].
  intros r w1 (ls & E & Hnone & Hr). assert (follows n w w1) as Hw by (eapply follows_step; eauto).
  destruct r as [[run l']|e]; [|done]. unfold wp. etrans; [exact Hw|]. eauto.
Qed.

Lemma follows_quiet {A B} n (m : AM A) (k : A → AM B) w :
  along quiet m → (∀ a w', w'.(scans) = w.(scans) → follows n w' (k a w').2) → follows n w ((m ≫= k) w).2.
Proof.
  intros Hm Hk. apply (along_then (follows n)); [by apply quiet_follows|]. intros a w' E. apply Hk.
  destruct (Hm w) as [Es _]. by rewrite E in Es.
Qed.

(** Targets written and a plan made before it. *)
Lemma follows_planned {P A} n targets (mk : string → bool → P) (k : P → AM A) w :
  (∀ file b w', w'.(scans) = w.(scans) → w'.(runtime_files) !! file = Some (target_text targets) → follows n w' (k (mk file b) w').2) →
  follows n w ((file ← write_target_file targets dir; plan ← plan_of settings (mk file); k plan) w).2.
Proof.
  intros Hk. assert (∀ w', w'.(scans) = w.(scans) → follows n w w') as Hsame.
  { intros w' E _. exists []. by rewrite app_nil_r. }
  apply (wp_targets_planned targets dir mk k (fun _ w' => follows n w w')).
  - intros e w' E. by apply Hsame.
  - intros file b w' E Hfile. unfold wp. etrans; [by apply Hsame|]. by apply (Hk file).
Qed.

Lemma single_tcp_follows n l :
  profile.(profile_name) ≠ DEEP →
  along (follows n) (_run_single_tcp settings vendors parse_xml json_float audit_id job_id scope resolved profile dir
                       (live_targets d) l).
Proof.
  intros Hdeep. unfold _run_single_tcp. apply along_bind; [apply _|apply quiet_follows, quiet_progress|intros _].
  intros w. apply follows_planned. intros file b w1 _ Hfile.
  apply (follows_scan _ _ _ _ (live_targets d)); [by rewrite tcp_scan_file| |].
  { intros l' sc _. by apply follow_tcp. }
  intros run l' ls w2 _ _. cbv beta iota. revert w2. change (along (follows n) (progress 70 "fingerprinting_services" "Fingerprinting services";;
    mret (tcp_scan_plan scope resolved profile (xml_file dir "tcp-scan.xml") file b, l'))).
  apply along_bind; [apply _|apply quiet_follows, quiet_progress|]. intros; apply along_ret; apply _.
Qed.

Lemma fingerprint_plan_some xml file b ports :
  ports ≠ [] → ∃ plan, tcp_fingerprint_plan scope resolved profile xml file b ports = Some plan ∧ plan.(target_file) = file.
Proof. intros Hp. destruct ports; [done|]. by eexists. Qed.

Lemma deep_tcp_follows n l w :
  profile.(profile_name) = DEEP → (n <= length w.(scans))%nat →
  follows n w (_run_deep_tcp settings vendors parse_xml json_float audit_id job_id scope resolved profile dir (live_targets d) l w).2.
Proof.
  intros Hdeep Hn. unfold _run_deep_tcp. apply follows_quiet; [apply quiet_progress|]. intros _ w0 E0.
  apply follows_planned. intros file b w1 E1 Hfile. apply (follows_scan _ _ _ _ (live_targets d)); [done| |].
  { intros l' sc _. by apply follow_sweep. }
  intros run l' ls w2 E2 Hls. cbv beta iota zeta. apply follows_quiet; [apply quiet_progress|]. intros _ w3 E3.
  destruct (negb _ || negb _) eqn:Hopen.
  { apply (along_bind (follows n)); [apply quiet_follows, quiet_progress|]. intros; apply along_ret; apply _. }
  apply orb_false_iff in Hopen as [Hports%negb_false_iff _].
  destruct Hls as [[_ Hnone]|(sweep & -> & Hsweep & Hrep)]; [by rewrite Hnone in Hports|].
  destruct run.(nmap_document) as [found|]; [|done]. specialize (Hrep found eq_refl).
  apply follows_quiet; [apply quiet_ensure|]. intros _ w4 E4. apply follows_quiet; [apply quiet_progress|]. intros _ w5 E5.
  apply follows_planned. intros file' b' w6 E6 Hfile'.
  destruct (fingerprint_plan_some (xml_file dir "tcp-fingerprint.xml") file' b' (open_tcp_ports (Some found))) as (plan & Hplan & Hpf).
  { intros Hnil. by rewrite Hnil in Hports. }
  rewrite Hplan. assert (sweep ∈ drop n w6.(scans)) as Hin.
  { rewrite E6, E5, E4, E3, E2, drop_app. apply elem_of_app. right.
    replace (n - length (scans w1))%nat with 0%nat by (rewrite E1, E0; lia). by apply list_elem_of_singleton. }
  apply (follows_scan _ _ _ _ (targets_with_open_tcp (Some found))); [by rewrite Hpf| |].
  { intros l'' sc Hl Hsc. eapply follow_fingerprint; eauto. }
  intros run' l'' ls' w7 _ _. apply along_ret; apply _.
Qed.

Lemma udp_plan_file xml file b plan : udp_scan_plan scope resolved profile xml file b = Some plan → plan.(target_file) = file.
Proof. unfold udp_scan_plan. intros Hp. repeat case_match; by simplify_eq. Qed.

Lemma udp_follows n l :
  along (follows n) (_run_udp settings vendors parse_xml json_float audit_id job_id scope resolved profile dir (live_targets d) l).
Proof.
  unfold _run_udp. apply along_bind; [apply _|apply quiet_follows, quiet_ensure|intros _].
  apply along_bind; [apply _|apply quiet_follows, quiet_progress|intros _]. intros w.
  apply follows_planned. intros file b w1 _ Hfile. destruct (udp_scan_plan _ _ _ _ _ _) as [plan|] eqn:Hplan; [|apply along_ret; apply _].
  destruct plan.(plan_args) as [|a args] eqn:Hargs; [apply along_ret; apply _|].
  apply (follows_scan _ _ _ _ (live_targets d)); [by rewrite (udp_plan_file _ _ _ _ Hplan)| |].
  { intros l' sc _. eapply follow_udp; [exact Hplan|]. by rewrite Hargs. }
  intros run l' ls w2 _ _. apply along_ret; apply _.
Qed.

Lemma tcp_follows n l w :
  (n <= length w.(scans))%nat →
  follows n w (run_tcp settings vendors parse_xml json_float audit_id job_id scope resolved profile dir (live_targets d) l w).2.
Proof.
  intros Hn. unfold run_tcp. destruct (_ || _); [apply along_ret; apply _|].
  apply follows_quiet; [apply quiet_ensure|]. intros _ w1 E1.
  destruct profile.(profile_name) eqn:Hname; unfold mbind, prog_bind.
  3: { assert (n <= length w1.(scans))%nat as Hn1 by by rewrite E1. pose proof (deep_tcp_follows n l w1 Hname Hn1) as Hd.
       destruct (_run_deep_tcp _ _ _ _ _ _ _ _ _ _ _ _ w1) as [[[[[? ?] ?] ?]|] ?]; exact Hd. }
  all: assert (profile.(profile_name) ≠ DEEP) as Hnd by by rewrite Hname.
  all: pose proof (single_tcp_follows n l Hnd w1) as Hs.
  all: destruct (_run_single_tcp _ _ _ _ _ _ _ _ _ _ _ _ w1) as [[[? ?]|] ?]; exact Hs.
Qed.
End follow_up.

(** ** The whole job *)

Lemma host_plan_file scope resolved profile xml file b : (host_discovery_plan scope resolved profile xml file b).(target_file) = file.
Proof. unfold host_discovery_plan. by destruct (host_probes _ _ _). Qed.

Lemma wp_discover_hosts scope resolved profile dir w :
  wp (discover_hosts settings vendors parse_xml json_float audit_id job_id scope resolved profile dir) (fun r w' =>
    ∃ file b ls, let plan := host_discovery_plan scope resolved profile (xml_file dir "host-discovery.xml") file b in
      w'.(scans) = w.(scans) ++ ls ∧
      step_scans plan profile.(profile_timeout) scope.(canonical_targets) None ls ∧
      ∀ run m n, r = Return (run, m, n) →
        step_scans plan profile.(profile_timeout) scope.(canonical_targets) run.(nmap_document) ls) w.
Proof.
  assert (∀ (r : outcome ActiveExc (NmapRun * dict * Z)) w', w'.(scans) = w.(scans) → (∀ x, r ≠ Return x) →
    ∃ file b ls, let plan := host_discovery_plan scope resolved profile (xml_file dir "host-discovery.xml") file b in
      w'.(scans) = w.(scans) ++ ls ∧ step_scans plan profile.(profile_timeout) scope.(canonical_targets) None ls ∧
      ∀ run m n, r = Return (run, m, n) →
        step_scans plan profile.(profile_timeout) scope.(canonical_targets) run.(nmap_document) ls) as Hnone.
  { intros r w' E Hr. exists "", true, []. rewrite app_nil_r. split; [done|]. split; [by left|]. intros run m n ->. by destruct (Hr (run, m, n)). }
  unfold discover_hosts. apply wp_bind, (wp_along quiet); [apply quiet_ensure|]. intros [u|e] w1 [E1 _]; [|by apply Hnone].
  apply wp_bind, (wp_along quiet); [apply quiet_progress|]. intros [u'|e] w2 [E2 _]; [|apply Hnone; congruence].
  apply (wp_targets_planned scope.(canonical_targets) dir
    (fun file => host_discovery_plan scope resolved profile (xml_file dir "host-discovery.xml") file)).
  { intros e w' E. apply Hnone; congruence. }
  intros file b w3 E3 Hfile. apply wp_bind. eapply wp_mono; [apply wp_execute_plan|].
  intros r w4 (ls & E4 & Hn & Hr)%(ran_step _ _ scope.(canonical_targets)); [|by rewrite host_plan_file].
  destruct r as [run|e]; [|exists file, b, ls; split_and!; [congruence|done|done]].
  destruct (Hr run eq_refl) as [_ Hrun].
  apply wp_bind, (wp_along quiet); [apply quiet_metadata|]. intros [m|e] w5 [E5 _]; [|exists file, b, ls; split_and!; [congruence|done|done]].
  apply wp_bind, (wp_along quiet); [apply quiet_ingest|]. intros [n|e] w6 [E6 _]; [|exists file, b, ls; split_and!; [congruence|done|done]].
  apply wp_ret. exists file, b, ls. split_and!; [congruence|done|]. by intros run' m' n' [= <- <- <-].
Qed.

(** What [_load_scope] lets through: a scope that validates and is the confirmed one. *)
Definition authorised (parameters : dict) (i : InvWorld) (name : ActiveProfile) (scope : ValidatedScope)
    (confirmed : ConfirmedScopeModel) : Prop :=
  profile_of (py_str (default (PStr "standard") (dict_get parameters "profile"))) = Some name ∧
  (∃ targets, get parameters "scope" = PList targets ∧
     validate settings.(scope_settings) set_order (List.map py_str targets) name = Return scope) ∧
  i.(Inventory.scopes) !! py_str (get parameters "confirmed_scope_id") = Some confirmed ∧
  confirmed.(cs_targets) = scope.(canonical_targets) ∧ confirmed.(cs_profile) = name ∧
  confirmed.(cs_interface) = py_str (por (get parameters "interface") (PStr "")).

Lemma load_scope_spec parameters w name scope confirmed w' :
  _load_scope settings set_order parameters w = (Return (name, scope, confirmed), w') →
  authorised parameters w.(act_site).(site_inventory) name scope confirmed.
Proof.
  unfold _load_scope. cbv zeta. destruct (profile_of _) as [name'|] eqn:Hname; [|done].
  destruct (get parameters "scope") as [| | | |[|t targets]|] eqn:Hscope; try done.
  destruct (validate _ _ _ _) as [scope'|e] eqn:Hval; [|done].
  intros (found & w1 & Hfound & Hm)%bind_return_inv. destruct found as [c|]; [|done].
  destruct (bool_decide _ && bool_decide _ && _) eqn:Hg; [|done].
  apply andb_true_iff in Hg as [[Ht%bool_decide_eq_true Hp%bool_decide_eq_true]%andb_true_iff Hi%String.eqb_eq].
  injection Hm as <- <- <- <-. destruct (truthy (get parameters "confirmed_scope_id")); [|done].
  unfold on_site, on_inventory, on_part, get_scope, reads in Hfound. cbn in Hfound. injection Hfound as Hc _.
  unfold authorised. rewrite Hname, Hscope. split_and!; try done. by eexists.
Qed.

Lemma resolve_interface name scope w r w' :
  resolve_route settings json_loads name scope w = (Return r, w') → r.(resolved_interface) = name.
Proof.
  unfold resolve_route, try_except. destruct (resolve _ _ _ _ _) as [[r'|[]] w1] eqn:Hr; try done. intros [= <- <-].
  unfold resolve in Hr. apply bind_return_inv in Hr as (i & w2 & Hi & Hr).
  assert (i.(iface_name) = name) as Hn.
  { unfold validate_interface in Hi. apply bind_return_inv in Hi as (l & w3 & _ & Hi).
    destruct (find_first _ l) as [i'|] eqn:Hf; [|done]. destruct i'.(denial_reason); [done|]. injection Hi as <- <-.
    by apply find_first_Some in Hf as [_ Hf%String.eqb_eq]. }
  cbv zeta in Hr. destruct (List.filter _ _) in Hr; [done|].
  apply bind_return_inv in Hr as ([found errors] & w3 & _ & Hr). destruct found; [destruct errors; [|done]|].
  - by repeat case_match.
  - by injection Hr as <- <-.
Qed.

(** The scans of a job: none; or host discovery over the confirmed targets and, if it left a
    report, the scans that follow it. *)
Definition job_scans (parameters : dict) (i : InvWorld) (dir : string) (l : list Scan) : Prop :=
  l = [] ∨
  ∃ name scope confirmed profile resolved file b host rest,
    let plan := host_discovery_plan scope resolved profile (xml_file dir "host-discovery.xml") file b in
    authorised parameters i name scope confirmed ∧
    profile_for profile_file settings.(nmap_settings) name = Return profile ∧
    resolved.(resolved_interface) = confirmed.(cs_interface) ∧
    l = host :: rest ∧ scan_of plan profile.(profile_timeout) scope.(canonical_targets) host ∧
    (rest = [] ∨ ∃ d, reports plan host d ∧ Forall (follow_up scope resolved profile dir d rest) rest).

Lemma quiet_load parameters : along quiet (_load_scope settings set_order parameters).
Proof. unfold _load_scope. along_prog. Qed.

Lemma quiet_resolve name scope : along quiet (resolve_route settings json_loads name scope).
Proof.
  assert (∀ args, along quiet (run_ip args)) as Hip by (intros; apply quiet_site).
  assert (along quiet (validate_interface settings.(interface_settings) json_loads name)) as Hi.
  { unfold validate_interface, discover, _default_route_info. along_prog. }
  assert (∀ i usable targets, along quiet (resolve_targets json_loads i usable targets)) as Ht.
  { intros i usable targets. induction targets as [|t targets IH]; cbn [resolve_targets]; [along_prog|].
    unfold _resolve_target, accept_route. along_prog. }
  unfold resolve_route, resolve. along_prog.
Qed.

Lemma quiet_finish profile scope confirmed version methods runs :
  along quiet (finish_discovery vendors read_json audit_id job_id profile scope confirmed version methods runs).
Proof. unfold finish_discovery. along_prog; eauto using quiet_ensure, quiet_progress. Qed.

(** A step that leaves the inventory alone. *)
Lemma ensure_active_inventory w w' : ensure_active w = (Return tt, w') →
  w'.(act_site).(site_inventory) = w.(act_site).(site_inventory).
Proof. unfold ensure_active, on_site, token_cancelled, mbind, prog_bind. cbn. case_match; [done|]. by intros [= <-]. Qed.
Lemma active_progress_inventory p stage message u w w' : progress p stage message w = (Return u, w') →
  w'.(act_site).(site_inventory) = w.(act_site).(site_inventory).
Proof. unfold progress, on_site, _progress, modify. cbv zeta. destruct (JobProgress_valid _); [|done]. by intros [= <- <-]. Qed.

(** After the discovery: without a report nothing is scanned. *)
Lemma after_discovery_quiet scope resolved profile dir l :
  along quiet (run_tcp settings vendors parse_xml json_float audit_id job_id scope resolved profile dir [] l) ∧
  along quiet (run_udp settings vendors parse_xml json_float audit_id job_id scope resolved profile dir [] l).
Proof. unfold run_tcp, run_udp. split; rewrite orb_true_r; along_prog. Qed.

Lemma run_scans parameters dir w :
  ∃ l, (_run settings vendors read_json json_loads parse_xml json_float profile_file set_order audit_id job_id parameters dir w).2.(scans) =
         w.(scans) ++ l ∧ job_scans parameters w.(act_site).(site_inventory) dir l.
Proof.
  set (Q := fun (_ : outcome ActiveExc (string * dict)) w' => ∃ l, w'.(scans) = w.(scans) ++ l ∧ job_scans parameters w.(act_site).(site_inventory) dir l).
  change (wp (_run settings vendors read_json json_loads parse_xml json_float profile_file set_order audit_id job_id parameters dir) Q w).
  assert (∀ r w', w'.(scans) = w.(scans) → Q r w') as Hnone.
  { intros r w' E. exists []. rewrite app_nil_r. split; [done|by left]. }
  unfold _run. apply wp_quiet_bind; [apply quiet_ensure|by intros; apply Hnone|]. intros [] w1 I1%ensure_active_inventory E1.
  apply wp_quiet_bind; [apply quiet_progress|intros; apply Hnone; congruence|].
  intros u w2 I2%active_progress_inventory E2.
  apply wp_quiet_bind; [apply quiet_load|intros; apply Hnone; congruence|].
  intros [[name scope] confirmed] w3 Hload%load_scope_spec E3. rewrite I2, I1 in Hload.
  destruct (profile_for profile_file settings.(nmap_settings) name) as [profile|e] eqn:Hprofile; [|change (Q (Raise e) w3); apply Hnone; congruence].
  apply wp_quiet_bind; [apply along_ret; apply _|intros; apply Hnone; congruence|]. intros p w4 [= <- <-] _.
  apply wp_quiet_bind; [apply quiet_progress|intros; apply Hnone; congruence|]. intros u5 w5 _ E5.
  apply wp_quiet_bind; [apply quiet_resolve|intros; apply Hnone; congruence|]. intros resolved w6 Hres%resolve_interface E6.
  apply wp_quiet_bind; [apply quiet_site|intros; apply Hnone; congruence|]. intros u7 w7 _ E7.
  apply wp_bind. eapply wp_mono; [apply wp_discover_hosts|]. intros r w8 (file & b & ls & E8 & Hls & Hr).
  assert (w8.(scans) = w.(scans) ++ ls) as Ew8 by congruence. clear E1 E2 E3 E5 E6 E7 E8.
  assert (∀ r w', w'.(scans) = w.(scans) ++ ls → Q r w') as Hhost.
  { intros r' w' E. exists ls. split; [done|]. destruct Hls as [[-> _]|(host & -> & Hhost & _)]; [by left|right].
    exists name, scope, confirmed, profile, resolved, file, b, host, []. split_and!; try done. by left. }
  destruct r as [[[run m] found]|e]; [|by apply Hhost]. specialize (Hr run m found eq_refl).
  apply wp_quiet_bind; [apply quiet_progress|intros; apply Hhost; congruence|]. intros u9 w9 _ E9. cbv zeta.
  apply wp_quiet_bind; [apply quiet_capabilities|intros; apply Hhost; congruence|]. intros c w10 _ E10.
  assert (w10.(scans) = w.(scans) ++ ls) as Ew by congruence. clear E9 E10.
  destruct run.(nmap_document) as [d|].
  - destruct Hr as [[_ Hd]|(host & -> & Hhs & Hrep)]; [done|]. set (n := length (w.(scans) ++ [host])).
    assert (n <= length w10.(scans))%nat as Hn by by rewrite Ew.
    assert (∀ r w', follows scope resolved profile dir d n w10 w' → Q r w') as Hfollow.
    { intros r w' Hw. destruct (Hw Hn) as (rest & E & Hrest). exists (host :: rest).
      rewrite Ew, <- app_assoc in E. split; [exact E|]. right. exists name, scope, confirmed, profile, resolved, file, b, host, rest.
      split_and!; try done. right. exists d. split; [by apply Hrep|].
      assert (drop n w'.(scans) = rest) as Hd; [|by rewrite Hd in Hrest].
      rewrite E, app_assoc. apply drop_app_length. }
    unfold wp. apply Hfollow. apply (wp_bind _ _ (fun _ w' => follows scope resolved profile dir d n w10 w')).
    pose proof (tcp_follows scope resolved profile dir d n (mkLedger [m] run.(nmap_plan).(fallbacks)) w10 Hn) as Ht.
    unfold wp. destruct (run_tcp _ _ _ _ _ _ _ _ _ _ _ _ w10) as [[[[[tcp fp] open] l]|e] w11]; [|exact Ht]. cbn [fst snd] in *.
    etrans; [exact Ht|]. apply (along_bind (follows scope resolved profile dir d n)); [|intros [udp l']; apply quiet_follows, quiet_finish].
    unfold run_udp. destruct (_ || _); [apply along_ret; apply _|apply udp_follows].
  - destruct (after_discovery_quiet scope resolved profile dir (mkLedger [m] run.(nmap_plan).(fallbacks))) as [Htcp _].
    apply wp_quiet_bind; [exact Htcp|intros; apply Hhost; congruence|]. intros [[[tcp fp] open] l] w11 _ E11.
    destruct (after_discovery_quiet scope resolved profile dir l) as [_ Hudp].
    apply wp_quiet_bind; [exact Hudp|intros; apply Hhost; congruence|]. intros [udp l'] w12 _ E12.
    apply (wp_along quiet); [apply quiet_finish|]. intros r w13 [E13 _]. apply Hhost. congruence.
Qed.

Lemma unscanned_remove dir : along unscanned (remove_runtime_dir dir).
Proof.
  intros w. unfold remove_runtime_dir. cbv zeta. apply (along_bind unscanned); [|by intros].
  apply along_for_each; [apply _|]. intros p _. apply along_try; [apply _|apply unscanned_unlink|by intros].
Qed.

Lemma discovery_scans parameters w :
  ∃ l, (execute_discovery settings vendors read_json json_loads parse_xml json_float profile_file set_order audit_id job_id parameters w).2.(scans) =
         w.(scans) ++ l ∧
       job_scans parameters w.(act_site).(site_inventory) (settings.(nmap_runtime_dir) +:+ "/" +:+ job_id) l.
Proof.
  unfold execute_discovery, mbind, prog_bind. cbv zeta.
  pose proof (quiet_site (on_evidence io_nothing) w) as [E1 _].
  assert ((io_step w).2.(act_site).(site_inventory) = w.(act_site).(site_inventory)) as I1.
  { destruct w as [[[] ? ? ? ? ? ?] ? ? ? ? ? ?]. unfold io_step, on_site, on_evidence, on_part, io_nothing, io_plain, io_call. cbn. destruct (io_fault _) as [[? ?]|]; reflexivity. }
  unfold io_step in *. destruct (on_site _ w) as [[u|e] w1]; cbn [snd] in *.
  2: { exists []. rewrite app_nil_r. split; [done|by left]. }
  destruct (run_scans parameters (settings.(nmap_runtime_dir) +:+ "/" +:+ job_id) (w1 <| version_cache := None |>)) as (l & El & Hl).
  destruct (_run _ _ _ _ _ _ _ _ _ _ _ _ _) as [r w2]. cbn [snd] in El.
  pose proof (unscanned_remove (settings.(nmap_runtime_dir) +:+ "/" +:+ job_id) w2) as E3.
  destruct (remove_runtime_dir _ w2) as [r' w3]. cbn [snd] in *. exists l. cbn in El. unfold unscanned in E3.
  split; [congruence|]. cbn in Hl. by rewrite I1 in Hl.
Qed.
End quiet_programs.

(** ** The database *)

Section database.
Context `{Runtime, !RuntimeOk, FileSystem, !PlainIds, ToolHost, ScanHost}.
Context (settings : DiscoverySettings) (vendors : OuiResolver).
Context (read_json : option (ArtifactModel → outcome InvExc pyval)).
Context (json_loads : string → string + pyval) (parse_xml : string → string + element) (json_float : string → pyval).
Context (profile_file : option (option pyval)) (set_order : list ip_net → list ip_net).
Context (audit_id job_id : string).

(** With the audit and its job in the database, it stays well formed and nothing is lost. *)
Definition keeps_site (w w' : ActiveWorld) : Prop :=
  site_ok w.(act_site) → audit_id ∈ w.(act_site).(site_inventory).(audit_ids) →
  job_id ∈ w.(act_site).(site_inventory).(job_ids) →
  site_ok w'.(act_site) ∧ site_grows w.(act_site) w'.(act_site).

#[export] Instance keeps_site_preorder : PreOrder keeps_site.
Proof.
  split.
  - intros w Hs _ _. exact (reflexivity (R := kept) w.(act_site) Hs).
  - intros a b c Hab Hbc Hs Ha Hj. destruct (Hab Hs Ha Hj) as [Hb Gb].
    destruct Hbc as [Hc Gc]; [done|by rewrite (grows_audits _ _ Gb)|by rewrite (grows_jobs _ _ Gb)|].
    assert (kept a.(act_site) b.(act_site)) as Hk1 by by intros _.
    assert (kept b.(act_site) c.(act_site)) as Hk2 by by intros _.
    exact (transitivity Hk1 Hk2 Hs).
Qed.

Lemma site_kept {A} (m : SM A) : along kept m → along keeps_site (on_site m).
Proof. intros Hm. apply along_on_site. intros w Hs _ _. by apply Hm. Qed.

Lemma site_inventory_kept {A} (m : IM A) :
  (∀ i, inv_ok i → artifacts_ok i → audit_id ∈ i.(audit_ids) → job_ok i (Some job_id) →
     inv_ok (m i).2 ∧ InventoryInvariant.evolves i (m i).2) →
  along keeps_site (on_site (on_inventory m)).
Proof.
  intros Hm. apply along_on_site. intros w Hs Ha Hj.
  assert (kept w.(act_site) (on_inventory m w.(act_site)).2) as Hk; [|by apply Hk].
  apply (kept_inventory_at m). intros Hi Hart. apply Hm; [done..|]. by intros j [= <-].
Qed.

Lemma elsewhere_kept (f : ActiveWorld → ActiveWorld) : (∀ w, (f w).(act_site) = w.(act_site)) → along keeps_site (modify f : AM unit).
Proof. intros Hf w Hs _ _. cbn. rewrite Hf. exact (reflexivity (R := kept) _ Hs). Qed.

Lemma kept_call {A} (m : EM A) : keeps (fun _ => False) m → along keeps_site (on_site (on_evidence m)).
Proof. intros Hm. by apply site_kept, kept_quiet_evidence. Qed.
Lemma kept_io : along keeps_site io_step.
Proof. apply kept_call, keeps_nothing. Qed.
Lemma kept_new_id : along keeps_site (on_site (on_evidence ev_uuid)).
Proof. apply kept_call, keeps_uuid. Qed.
Lemma kept_clock : along keeps_site (on_site (on_evidence ev_now)).
Proof. apply kept_call, keeps_now. Qed.
Lemma kept_run c : along keeps_site (on_site (run_tool_command c)).
Proof. apply site_kept, kept_command. Qed.
Lemma kept_pure {A} (o : PO A) : along keeps_site (on_site (pure o)).
Proof. apply site_kept, along_pure; apply _. Qed.
Lemma kept_reading : along keeps_site (on_site token_cancelled).
Proof. apply site_kept, kept_token. Qed.
Lemma kept_report_progress p stage message : along keeps_site (progress p stage message).
Proof. apply site_kept, kept_progress. Qed.
Lemma kept_json ty doc ret name ver : along keeps_site (on_site (on_evidence (put_json audit_id (Some job_id) ty doc ret name ver))).
Proof. apply site_kept, kept_put. Qed.
Lemma kept_xml source : along keeps_site (on_site (on_evidence
  (import_file audit_id (Some job_id) "nmap_xml" source "application/xml" ".xml" RETENTION_AUDIT))).
Proof. by apply site_kept, kept_import. Qed.
#[local] Hint Resolve kept_io kept_new_id kept_clock kept_run kept_pure kept_reading kept_report_progress kept_json kept_xml : along.

Lemma kept_scope_row id : along keeps_site (on_site (on_inventory (get_scope id))).
Proof. apply site_inventory_kept. by intros i Hi _ _ _. Qed.
Lemma kept_activation id : along keeps_site (on_site (on_inventory (activate_scope id))).
Proof. apply site_inventory_kept. intros i Hi _ _ _. by eapply steps_kept, steps_activate_scope. Qed.
Lemma kept_document d evidence persist :
  along keeps_site (on_site (on_inventory (ingest_nmap_document vendors audit_id (Some job_id) d "nmap" evidence persist))).
Proof. apply site_inventory_kept. intros i Hi _ Ha Hj. by eapply steps_kept, steps_ingest_document. Qed.
Lemma kept_passive : along keeps_site (on_site (on_inventory (ingest_passive_from_audit vendors read_json audit_id (Some job_id)))).
Proof. apply site_inventory_kept. intros i Hi Hart _ Hj. by eapply steps_kept, steps_passive_from_audit. Qed.
Lemma kept_classes : along keeps_site (on_site (on_inventory (refresh_classifications audit_id))).
Proof.
  apply site_inventory_kept. intros i Hi _ _ _. unfold refresh_classifications.
  eapply steps_kept. apply steps_transaction; [done|]. by apply steps_refresh.
Qed.
Lemma kept_summary : along keeps_site (on_site (on_inventory (summary vendors read_json audit_id))).
Proof. apply site_inventory_kept. intros i Hi Hart _ _. by eapply steps_kept, steps_summary. Qed.
#[local] Hint Resolve kept_scope_row kept_activation kept_document kept_passive kept_classes kept_summary : along.

Lemma kept_capabilities s : along keeps_site (capabilities s).
Proof. unfold capabilities, _version. along_prog. by apply elsewhere_kept. Qed.
Lemma kept_unlink path : along keeps_site (unlink_runtime_file path).
Proof. unfold unlink_runtime_file. along_prog. by apply elsewhere_kept. Qed.
Lemma kept_targets targets dir : along keeps_site (write_target_file targets dir).
Proof. unfold write_target_file, put_runtime_file. along_prog; by apply elsewhere_kept. Qed.
Lemma kept_parser {A} (m : PM A) : along keeps_site (on_parser m).
Proof. intros w. unfold on_parser. destruct (m _). intros Hs _ _. exact (reflexivity (R := kept) w.(act_site) Hs). Qed.
#[local] Hint Resolve kept_capabilities kept_unlink kept_targets kept_parser : along.

Lemma kept_report callback s : along keeps_site (report callback s).
Proof.
  unfold report. along_prog; [intros w Hs _ _; exact (reflexivity (R := kept) w.(act_site) Hs)|by apply elsewhere_kept].
Qed.
#[local] Hint Resolve kept_report : along.

Lemma kept_scan c : along keeps_site (run_scan c).
Proof.
  intros w. unfold run_scan. pose proof (kept_run c w) as Hk. destruct (on_site _ w) as [r w']. exact Hk.
Qed.
#[local] Hint Resolve kept_scan : along.

Lemma kept_streaming callback c : along keeps_site (run_streaming callback c).
Proof. unfold run_streaming, stream_chunk. along_prog. by apply elsewhere_kept. Qed.
#[local] Hint Resolve kept_streaming : along.

Lemma kept_trace plan document : along keeps_site (_persist_route_trace_if_needed json_float audit_id job_id plan document).
Proof.
  unfold _persist_route_trace_if_needed, trace_many. along_prog. generalize (take _MAX_TARGETS (r :: l0)). intros targets.
  induction targets as [|t targets IH]; cbn [trace_all]; along_prog. unfold trace_one. along_prog.
Qed.
#[local] Hint Resolve kept_trace : along.

Lemma kept_plan plan timeout callback : along keeps_site (_execute_plan settings parse_xml json_float audit_id job_id plan timeout callback).
Proof.
  unfold _execute_plan, ensure_active, run_plan, take_report, read_report. along_prog.
Qed.
#[local] Hint Resolve kept_plan : along.

Lemma kept_scan_and_ingest plan timeout callback l :
  along keeps_site (scan_and_ingest settings vendors parse_xml json_float audit_id job_id plan timeout callback l).
Proof. unfold scan_and_ingest, _run_metadata, ingest_run. along_prog. Qed.
#[local] Hint Resolve kept_scan_and_ingest : along.

Lemma kept_discovery scope resolved profile dir :
  along keeps_site (discover_hosts settings vendors parse_xml json_float audit_id job_id scope resolved profile dir).
Proof. unfold discover_hosts, ensure_active, plan_of, with_capabilities, _run_metadata, ingest_run. along_prog. Qed.

Lemma kept_tcp scope resolved profile dir targets l :
  along keeps_site (run_tcp settings vendors parse_xml json_float audit_id job_id scope resolved profile dir targets l).
Proof.
  unfold run_tcp, _run_single_tcp, _run_deep_tcp, ensure_active, plan_of, with_capabilities. along_prog.
Qed.
Lemma kept_udp scope resolved profile dir targets l :
  along keeps_site (run_udp settings vendors parse_xml json_float audit_id job_id scope resolved profile dir targets l).
Proof. unfold run_udp, _run_udp, ensure_active, plan_of, with_capabilities. along_prog. Qed.
#[local] Hint Resolve kept_discovery kept_tcp kept_udp : along.

Lemma kept_loading parameters : along keeps_site (_load_scope settings set_order parameters).
Proof. unfold _load_scope. along_prog. Qed.

Lemma kept_resolve name scope : along keeps_site (resolve_route settings json_loads name scope).
Proof.
  assert (∀ args, along keeps_site (run_ip args)) as Hip by (intros; apply kept_run).
  assert (along keeps_site (validate_interface settings.(interface_settings) json_loads name)) as Hi.
  { unfold validate_interface, discover, _default_route_info. along_prog. }
  assert (∀ i usable targets, along keeps_site (resolve_targets json_loads i usable targets)) as Ht.
  { intros i usable targets. induction targets as [|t targets IH]; cbn [resolve_targets]; [along_prog|].
    unfold _resolve_target, accept_route. along_prog. }
  unfold resolve_route, resolve. along_prog.
Qed.
#[local] Hint Resolve kept_loading kept_resolve : along.

Lemma kept_job parameters dir :
  along keeps_site (_run settings vendors read_json json_loads parse_xml json_float profile_file set_order audit_id job_id parameters dir).
Proof. unfold _run, ensure_active, finish_discovery. along_prog. unfold ensure_active. along_prog. Qed.

Lemma execute_keeps_site parameters :
  along keeps_site (execute_discovery settings vendors read_json json_loads parse_xml json_float profile_file set_order audit_id job_id parameters).
Proof.
  unfold execute_discovery. cbv zeta. apply along_bind; [apply _|apply kept_io|intros _]. intros w.
  pose proof (kept_job parameters (settings.(nmap_runtime_dir) +:+ "/" +:+ job_id) (w <| version_cache := None |>)) as Hrun.
  destruct (_run _ _ _ _ _ _ _ _ _ _ _ _ _) as [r w2].
  assert (along keeps_site (remove_runtime_dir (settings.(nmap_runtime_dir) +:+ "/" +:+ job_id))) as Hrm.
  { intros w'. unfold remove_runtime_dir. cbv zeta. apply (along_bind keeps_site); [|by intros; apply along_ret; apply _]. along_prog. }
  specialize (Hrm w2). destruct (remove_runtime_dir _ w2) as [r' w3]. cbn [snd] in *.
  change (keeps_site (w <| version_cache := None |>) w3). by etrans.
Qed.
End database.
