(* ===== verification/ActiveTheorems.v ===== *)
(** * Active discovery: what a job scans, reports and leaves

    The scans of a job stay with the confirmed scope, its progress only rises, the database
    stays well formed, and the search for an address to look a route up for ends. *)

From S2P Require Import Prelude PyBase PyText JobModels JobStore JobSystem Sha256 Ip IpProofs ScopeEngine Nmap FindModels FindDates InventoryBase Inventory InventoryIngest InventoryQueries InventoryInvariant InventoryProofs InventorySystem InventoryTheorems Regex ProbeModels ProbeTargets ProbeParsers Evidence EvidenceProofs EvidenceTheorems ProbeStore NmapProgress NmapTheorems ProbeRun Routes RouteTrace NmapPlans ActiveRun ProbeTargetsProofs ProbeStoreProofs ProbeRunProofs ActiveProofs.

(** ** Progress *)

(** The reports between two worlds lie between two percentages and do not fall. *)
Definition rises (a b : Z) (w w' : ActiveWorld) : Prop :=
  ∃ l, w'.(act_site).(site_progress) = w.(act_site).(site_progress) ++ l ∧
       Forall (fun p => a ≤ p.(percentage) ≤ b) l ∧ StronglySorted Z.le (percentage <$> l).

Definition within {A} (a b : Z) (m : AM A) : Prop := ∀ w, rises a b w (m w).2.

(** Nothing is reported. *)
Definition silent (w w' : ActiveWorld) : Prop := w'.(act_site).(site_progress) = w.(act_site).(site_progress).
#[export] Instance silent_preorder : PreOrder silent.
Proof. split; [done|]. unfold silent. intros a b c. congruence. Qed.

Lemma rises_silent a b w w' : silent w w' → rises a b w w'.
Proof. intros E. exists []. rewrite app_nil_r. split; [done|]. by split; constructor. Qed.

Lemma sorted_app (l1 l2 : list Z) m :
  StronglySorted Z.le l1 → StronglySorted Z.le l2 → Forall (fun x => x ≤ m) l1 → Forall (fun y => m ≤ y) l2 →
  StronglySorted Z.le (l1 ++ l2).
Proof.
  intros H1 H2 Hl Hr. induction H1 as [|x l1 H1 IH Hx]; [done|]. apply Forall_cons in Hl as [Hxm Hl].
  cbn. constructor; [by apply IH|]. apply Forall_app. split; [done|]. eapply Forall_impl; [exact Hr|]. cbn. lia.
Qed.

Lemma rises_trans a b b' c w1 w2 w3 : a ≤ b' → b ≤ b' → b' ≤ c → rises a b w1 w2 → rises b' c w2 w3 → rises a c w1 w3.
Proof.
  intros Hab Hb Hc (l1 & E1 & F1 & S1) (l2 & E2 & F2 & S2). exists (l1 ++ l2).
  split; [by rewrite E2, E1, app_assoc|]. split.
  - apply Forall_app. split; [eapply Forall_impl; [exact F1|]|eapply Forall_impl; [exact F2|]]; cbn; lia.
  - rewrite fmap_app. apply (sorted_app _ _ b'); [done..| |]; apply Forall_fmap;
      [eapply Forall_impl; [exact F1|]|eapply Forall_impl; [exact F2|]]; cbn; lia.
Qed.

Lemma rises_mono a b a' b' w w' : a' ≤ a → b ≤ b' → rises a b w w' → rises a' b' w w'.
Proof.
  intros Ha Hb (l & E & F & S). exists l. split; [done|]. split; [|done]. eapply Forall_impl; [exact F|]. cbn. lia.
Qed.

Lemma within_silent {A} a b (m : AM A) : along silent m → within a b m.
Proof. intros Hm w. apply rises_silent, Hm. Qed.
Lemma within_mono {A} a b a' b' (m : AM A) : a' ≤ a → b ≤ b' → within a b m → within a' b' m.
Proof. intros Ha Hb Hm w. eapply rises_mono; [..|apply Hm]; done. Qed.

Lemma within_bind {A B} a b b' c (m : AM A) (k : A → AM B) :
  a ≤ b' → b ≤ b' → b' ≤ c → within a b m → (∀ x, within b' c (k x)) → within a c (m ≫= k).
Proof.
  intros Hab Hb Hc Hm Hk w. specialize (Hm w). unfold mbind, prog_bind. destruct (m w) as [[x|e] w1]; cbn in Hm.
  - eapply rises_trans; [..|exact Hm|apply Hk]; done.
  - eapply rises_mono; [..|exact Hm]; lia.
Qed.
(** Before a silent step, and a step that reports one percentage. *)
Lemma within_after {A B} a c (m : AM A) (k : A → AM B) :
  along silent m → (∀ x, within a c (k x)) → within a c (m ≫= k).
Proof.
  intros Hm Hk w. specialize (Hm w). unfold mbind, prog_bind. destruct (m w) as [[x|e] w1]; cbn in Hm; [|by apply rises_silent].
  destruct (Hk x w1) as (l & E & H). exists l. by rewrite <- Hm.
Qed.
Lemma within_progress p stage message : within p p (progress p stage message).
Proof.
  intros w. unfold progress, on_site, _progress. cbv zeta. destruct (JobProgress_valid _); [|by apply rises_silent].
  exists [mkJobProgress p stage message]. split; [done|]. split; [repeat constructor; cbn; lia|repeat constructor].
Qed.
Lemma within_report {A} a p c stage message (k : unit → AM A) :
  a ≤ p → p ≤ c → (∀ x, within p c (k x)) → within a c (progress p stage message ≫= k).
Proof. intros Ha Hc Hk. apply (within_bind a p p); try done. eapply within_mono; [..|apply within_progress]; done. Qed.

(** *** The callback of a scan *)

Lemma live_overall_bounds c st s :
  c.(start_percentage) ≤ st.(last_overall) ≤ c.(end_percentage) →
  st.(last_overall) ≤ live_overall c st s ≤ c.(end_percentage).
Proof. unfold live_overall. destruct s.(snap_percent); lia. Qed.

(** The state of the callback stays within its limits, and its reports follow it up. *)
Definition live_rises (c : LiveCallback) (w w' : ActiveWorld) : Prop :=
  c.(start_percentage) ≤ w.(live_state).(last_overall) ≤ c.(end_percentage) →
  w.(live_state).(last_overall) ≤ w'.(live_state).(last_overall) ≤ c.(end_percentage) ∧
  rises w.(live_state).(last_overall) w'.(live_state).(last_overall) w w'.

#[export] Instance live_rises_preorder c : PreOrder (live_rises c).
Proof.
  split.
  - intros w Hw. split; [lia|]. by apply rises_silent.
  - intros w1 w2 w3 H12 H23 Hw1. destruct (H12 Hw1) as [B1 R1]. destruct H23 as [B2 R2]; [lia|].
    split; [lia|]. eapply rises_trans; [..|exact R1|exact R2]; lia.
Qed.

(** A step that neither reports nor touches the callback. *)
Definition apart (w w' : ActiveWorld) : Prop := silent w w' ∧ w'.(live_state) = w.(live_state).
#[export] Instance apart_preorder : PreOrder apart.
Proof. split; [done|]. intros a b c [E1 E2] [E3 E4]. unfold silent in *. split; unfold silent; congruence. Qed.
Lemma apart_live {A} c (m : AM A) : along apart m → along (live_rises c) m.
Proof. intros Hm w Hw. destruct (Hm w) as [E1 E2]. rewrite E2. split; [lia|]. by apply rises_silent. Qed.

Section programs.
Context `{Runtime, FileSystem, ToolHost, ScanHost}.

Lemma live_report c s : along (live_rises c) (report c s).
Proof.
  unfold report. apply along_bind; [apply _|apply apart_live; by apply along_on_site|].
  intros [|]; [apply along_ret; apply _|]. apply along_bind; [apply _|apply apart_live; by intros w|]. intros now.
  intros w. lazymatch goal with |- live_rises _ _ ((_ ≫= ?k) w).2 => change (live_rises c w (k w.(live_state) w).2) end.
  cbv beta. destruct (live_step c now s w.(live_state)) as [[st p]|] eqn:Hstep; [|reflexivity]. intros Hw.
  assert (st.(last_overall) = live_overall c w.(live_state) s ∧ p.(percentage) = st.(last_overall)) as [Est Ep].
  { unfold live_step in Hstep. cbv zeta in Hstep. destruct (_ && _ && _); [done|]. destruct (_ && _ && _); [done|]. by injection Hstep as <- <-. }
  pose proof (live_overall_bounds c w.(live_state) s Hw) as Hb. rewrite <- Est in Hb.
  unfold modify, mbind, prog_bind. cbv beta iota.
  pose proof (within_progress p.(percentage) p.(prog_stage) p.(prog_message) (w <| live_state := st |>)) as Hr.
  unfold progress in Hr. unfold on_site in *. destruct (_progress _ _ _ _) as [r s']. cbn [fst snd] in *.
  split; [cbn; lia|]. rewrite Ep in Hr. eapply rises_mono; [..|exact Hr]; [|cbn]; lia.
Qed.

Lemma live_chunk c piece : along (live_rises c) (stream_chunk c piece).
Proof.
  unfold stream_chunk. apply along_try; [apply _| |intros; apply along_ret; apply _].
  apply along_bind; [apply _|apply apart_live; intros w; unfold on_parser; by destruct (feed _ _ _)|].
  intros snaps. apply along_bind; [apply _| |intros; apply along_ret; apply _].
  apply along_for_each; [apply _|]. intros; apply live_report.
Qed.

Lemma within_streaming c command :
  c.(start_percentage) ≤ c.(end_percentage) → within c.(start_percentage) c.(end_percentage) (run_streaming c command).
Proof.
  intros Hc w. unfold run_streaming. unfold modify at 1, mbind at 1, prog_bind at 1. cbv beta iota.
  set (w1 := w <| parser_state := _ |> <| live_state := _ |>). set (m := (_ ← reads _; _)).
  assert (along (live_rises c) m) as Hm.
  { subst m. apply along_bind; [apply _|apply along_reads; apply _|intros n].
    apply along_bind; [apply _| |intros result].
    { apply apart_live. intros w'. unfold run_scan, on_site, run_tool_command. by split. }
    apply along_bind; [apply _|apply along_for_each; [apply _|]; intros; apply live_chunk|intros _].
    apply along_bind; [apply _|apply apart_live; intros w'; unfold on_parser; by destruct (flush _)|intros snaps].
    apply along_bind; [apply _|apply along_for_each; [apply _|]; intros; apply live_report|]. intros; apply along_ret; apply _. }
  destruct (Hm w1) as [Hb Hr]; [cbn; lia|]. change (rises c.(start_percentage) c.(end_percentage) w1 (m w1).2).
  eapply rises_mono; [..|exact Hr]; [cbn; lia|lia].
Qed.
End programs.

(** *** The job *)

Section job.
Context `{Runtime, FileSystem, ToolHost, ScanHost}.
Context (settings : DiscoverySettings) (vendors : OuiResolver).
Context (read_json : option (ArtifactModel → outcome InvExc pyval)).
Context (json_loads : string → string + pyval) (parse_xml : string → string + element) (json_float : string → pyval).
Context (profile_file : option (option pyval)) (set_order : list ip_net → list ip_net).
Context (audit_id job_id : string).

Lemma silent_part {W E A} (view : Site → W) put (exc : E → SiteExc) (m : prog W E A) :
  (∀ s x, (put s x).(site_progress) = s.(site_progress)) → along silent (on_site (on_part view put exc m)).
Proof. intros Hput. apply along_on_site. intros w. unfold on_part. destruct (m _). apply Hput. Qed.
Lemma silent_inventory {A} (m : IM A) : along silent (on_site (on_inventory m)).
Proof. by apply silent_part. Qed.
Lemma silent_evidence {A} (m : EM A) : along silent (on_site (on_evidence m)).
Proof. by apply silent_part. Qed.
Lemma silent_command c : along silent (on_site (run_tool_command c)).
Proof. by apply along_on_site. Qed.
Lemma silent_token : along silent (on_site token_cancelled).
Proof. by apply along_on_site. Qed.
Lemma silent_pure {A} (o : PO A) : along silent (on_site (pure o)).
Proof. apply along_on_site. by destruct o. Qed.
Lemma silent_modify (f : ActiveWorld → ActiveWorld) :
  (∀ w, (f w).(act_site) = w.(act_site)) → along silent (modify f : AM unit).
Proof. intros Hf w. unfold silent. cbn. by rewrite Hf. Qed.
#[local] Hint Resolve silent_inventory silent_evidence silent_command silent_token silent_pure : along.

Lemma silent_io : along silent io_step.
Proof. apply silent_evidence. Qed.
Lemma silent_capabilities s : along silent (capabilities s).
Proof. unfold capabilities, _version. along_prog; by apply silent_modify. Qed.
Lemma silent_unlink path : along silent (unlink_runtime_file path).
Proof. unfold unlink_runtime_file, io_step. along_prog; by apply silent_modify. Qed.
Lemma silent_targets targets dir : along silent (write_target_file targets dir).
Proof. unfold write_target_file, put_runtime_file, io_step. along_prog; by apply silent_modify. Qed.
Lemma silent_ensure : along silent ensure_active.
Proof. unfold ensure_active. along_prog. Qed.
#[local] Hint Resolve silent_io silent_capabilities silent_unlink silent_targets silent_ensure : along.
Lemma silent_plan_of {A} (plan : bool → A) : along silent (plan_of settings plan).
Proof. unfold plan_of, with_capabilities. along_prog. Qed.
Lemma silent_metadata run : along silent (_run_metadata settings run).
Proof. unfold _run_metadata. along_prog. Qed.
Lemma silent_ingest run persist : along silent (ingest_run vendors audit_id job_id run persist).
Proof. unfold ingest_run. along_prog. Qed.
Lemma silent_report plan result : along silent (take_report parse_xml json_float audit_id job_id plan result).
Proof.
  unfold take_report, read_report, _persist_route_trace_if_needed, trace_many, io_step. along_prog.
  generalize (take _MAX_TARGETS (r :: l0)). intros targets.
  induction targets as [|t targets IH]; cbn [trace_all]; along_prog. unfold trace_one. along_prog.
Qed.
#[local] Hint Resolve silent_plan_of silent_metadata silent_ingest silent_report : along.

Lemma silent_load parameters : along silent (_load_scope settings set_order parameters).
Proof. unfold _load_scope. along_prog. Qed.
Lemma silent_resolve name scope : along silent (resolve_route settings json_loads name scope).
Proof.
  assert (∀ args, along silent (run_ip args)) as Hip by (intros; apply silent_command).
  assert (along silent (validate_interface settings.(interface_settings) json_loads name)) as Hi.
  { unfold validate_interface, discover, _default_route_info. along_prog. }
  assert (∀ i usable targets, along silent (resolve_targets json_loads i usable targets)) as Ht.
  { intros i usable targets. induction targets as [|t targets IH]; cbn [resolve_targets]; [along_prog|].
    unfold _resolve_target, accept_route. along_prog. }
  unfold resolve_route, resolve. along_prog.
Qed.

(** A scan, and everything up to it. *)
Lemma within_execute plan timeout c :
  c.(start_percentage) ≤ c.(end_percentage) →
  within c.(start_percentage) c.(end_percentage) (_execute_plan settings parse_xml json_float audit_id job_id plan timeout c).
Proof.
  intros Hc. unfold _execute_plan. apply within_after; [apply silent_ensure|intros _]. unfold run_plan. cbv zeta.
  destruct plan.(plan_args) as [|a l]; [apply within_silent; along_prog|].
  apply within_after; [apply silent_io|intros _]. apply within_after; [apply silent_pure|intros command].
  apply (within_bind _ c.(end_percentage) c.(end_percentage)); [done..|by apply within_streaming|]. intros result. apply within_silent.
  destruct result.(result_cancelled); [along_prog|]. destruct (negb _); along_prog.
Qed.

Lemma within_scan_and_ingest plan timeout c l :
  c.(start_percentage) ≤ c.(end_percentage) →
  within c.(start_percentage) c.(end_percentage)
    (scan_and_ingest settings vendors parse_xml json_float audit_id job_id plan timeout c l).
Proof.
  intros Hc. unfold scan_and_ingest. apply (within_bind _ c.(end_percentage) c.(end_percentage)); [done..|by apply within_execute|].
  intros run. apply within_silent. along_prog.
Qed.

(** A scan between two percentages, and what comes after it. *)
Lemma within_scan {A} a c plan timeout stage s e total label l (k : NmapRun * Ledger → AM A) :
  a ≤ s → s ≤ e → e ≤ c → (∀ x, within e c (k x)) →
  within a c (scan_and_ingest settings vendors parse_xml json_float audit_id job_id plan timeout (mkLive stage s e total label) l ≫= k).
Proof.
  intros Ha He Hc Hk. apply (within_bind a e e); [lia..| |exact Hk].
  eapply within_mono; [..|apply within_scan_and_ingest]; cbn; lia.
Qed.

Context (scope : ValidatedScope) (resolved : ResolvedScope) (profile : ActiveScanProfile) (dir : string).

Lemma within_tcp targets l : within 30 82 (run_tcp settings vendors parse_xml json_float audit_id job_id scope resolved profile dir targets l).
Proof.
  assert (∀ l, within 30 82 (_run_single_tcp settings vendors parse_xml json_float audit_id job_id scope resolved profile dir targets l)) as Hs.
  { intros l'. unfold _run_single_tcp. apply within_report; [lia..|intros _].
    apply within_after; [apply silent_targets|intros file]. apply within_after; [apply silent_plan_of|intros plan].
    apply within_scan; [lia..|intros [run l'']]. apply within_report; [lia..|intros _]. apply within_silent. along_prog. }
  assert (∀ l, within 30 82 (_run_deep_tcp settings vendors parse_xml json_float audit_id job_id scope resolved profile dir targets l)) as Hd.
  { intros l'. unfold _run_deep_tcp. apply within_report; [lia..|intros _].
    apply within_after; [apply silent_targets|intros file]. apply within_after; [apply silent_plan_of|intros plan].
    apply within_scan; [lia..|intros [run l'']]. cbv zeta. apply within_report; [lia..|intros _]. destruct (_ || _).
    { apply within_report; [lia..|intros _]. apply within_silent. along_prog. }
    apply within_after; [apply silent_ensure|intros _]. apply within_report; [lia..|intros _].
    apply within_after; [apply silent_targets|intros file']. apply within_after; [apply silent_plan_of|intros [plan'|]];
      [|apply within_silent; along_prog].
    apply within_scan; [lia..|intros [run' l3]]. apply within_silent. along_prog. }
  unfold run_tcp. destruct (_ || _); [apply within_silent; along_prog|].
  apply within_after; [apply silent_ensure|intros _].
  destruct profile.(profile_name); (apply (within_bind 30 82 82); [lia..|apply Hs || apply Hd|]);
    intros x; apply within_silent; along_prog.
Qed.

Lemma within_udp targets l : within 82 89 (run_udp settings vendors parse_xml json_float audit_id job_id scope resolved profile dir targets l).
Proof.
  unfold run_udp, _run_udp. destruct (_ || _); [apply within_silent; along_prog|].
  apply within_after; [apply silent_ensure|intros _]. apply within_report; [lia..|intros _].
  apply within_after; [apply silent_targets|intros file]. apply within_after; [apply silent_plan_of|intros [plan|]];
    [|apply within_silent; along_prog].
  destruct plan.(plan_args); [apply within_silent; along_prog|].
  apply within_scan; [lia..|intros [run l']]. apply within_silent. along_prog.
Qed.

Lemma within_hosts : within 15 29 (discover_hosts settings vendors parse_xml json_float audit_id job_id scope resolved profile dir).
Proof.
  unfold discover_hosts. apply within_after; [apply silent_ensure|intros _]. apply within_report; [lia..|intros _].
  apply within_after; [apply silent_targets|intros file]. apply within_after; [apply silent_plan_of|intros plan].
  apply (within_bind 15 29 29); [lia..|by apply (within_execute _ _ (mkLive "discovering_hosts" 15 29 scope.(address_count) None))|].
  intros run. apply within_silent. along_prog.
Qed.

Lemma within_finish confirmed version methods runs :
  within 89 96 (finish_discovery vendors read_json audit_id job_id profile scope confirmed version methods runs).
Proof.
  unfold finish_discovery. apply within_after; [apply silent_ensure|intros _]. apply within_report; [lia..|intros _].
  do 2 (apply within_after; [apply silent_inventory|intros ?]). apply within_report; [lia..|intros _].
  apply within_silent. along_prog.
Qed.

Lemma silent_remove directory : along silent (remove_runtime_dir directory).
Proof. intros w. unfold remove_runtime_dir. cbv zeta. apply (along_bind silent); [along_prog|intros; apply along_ret; apply _]. Qed.
End job.

Section discovery.
Context `{Runtime, FileSystem, ToolHost, ScanHost}.
Context (settings : DiscoverySettings) (vendors : OuiResolver).
Context (read_json : option (ArtifactModel → outcome InvExc pyval)).
Context (json_loads : string → string + pyval) (parse_xml : string → string + element) (json_float : string → pyval).
Context (profile_file : option (option pyval)) (set_order : list ip_net → list ip_net).
Context (audit_id job_id : string).

#[local] Abbreviation job :=
  (execute_discovery settings vendors read_json json_loads parse_xml json_float profile_file set_order audit_id job_id).

Lemma within_run parameters dir :
  within 5 96 (_run settings vendors read_json json_loads parse_xml json_float profile_file set_order audit_id job_id parameters dir).
Proof.
  unfold _run. apply within_after; [apply silent_ensure|intros _]. apply within_report; [lia..|intros _].
  apply within_after; [apply silent_load|intros [[name scope] confirmed]].
  apply within_after; [destruct (profile_for _ _ _); [apply along_ret|apply along_raise]; apply _|intros profile].
  apply within_report; [lia..|intros _]. apply within_after; [apply silent_resolve|intros resolved].
  apply within_after; [apply silent_inventory|intros _].
  apply (within_bind 10 29 29); [lia..|eapply within_mono; [..|apply within_hosts]; lia|]. intros [[run metadata] discovered].
  apply within_report; [lia..|intros _]. cbv zeta. apply within_after; [apply silent_capabilities|intros c].
  apply (within_bind 30 82 82); [lia..|apply within_tcp|]. intros [[[tcp fingerprint] open] l].
  apply (within_bind 82 89 89); [lia..|apply within_udp|]. intros [udp l']. eapply within_mono; [..|apply within_finish]; lia.
Qed.

(** C29: However a discovery ends, the percentages it reports, those of its scans' own
    progress included, never fall, and lie between 5 and 96. *)
Theorem discovery_progress_rises parameters w :
  let w' := (execute_discovery settings vendors read_json json_loads parse_xml json_float profile_file set_order audit_id job_id parameters w).2 in
  ∃ l, w'.(act_site).(site_progress) = w.(act_site).(site_progress) ++ l ∧
       Forall (fun p => 5 ≤ p.(percentage) ≤ 96) l ∧ StronglySorted Z.le (percentage <$> l).
Proof.
  cbv zeta. change (rises 5 96 w (job parameters w).2). revert w. change (within 5 96 (job parameters)). unfold execute_discovery. cbv zeta.
  apply within_after; [apply silent_io|intros _]. intros w. set (directory := (settings.(nmap_runtime_dir) +:+ "/" +:+ job_id)%string).
  pose proof (within_run parameters directory (w <| version_cache := None |>)) as Hrun. destruct (_run _ _ _ _ _ _ _ _ _ _ _ _ _) as [r w2].
  pose proof (silent_remove directory w2) as Hrm. destruct (remove_runtime_dir _ w2) as [r' w3]. cbn [fst snd] in *.
  change (rises 5 96 w w2) in Hrun. destruct Hrun as (l & E & Hl). exists l. unfold silent in Hrm. by rewrite Hrm.
Qed.
End discovery.

(** *** The address a route is looked up for *)

Lemma first_unassigned_fuel assigned ver fuel fuel' x last :
  (length assigned < fuel)%nat → (length assigned < fuel')%nat →
  first_unassigned assigned ver fuel x last = first_unassigned assigned ver fuel' x last.
Proof.
  intros Hf Hf'. destruct (first_unassigned assigned ver fuel x last) as [y|] eqn:H1, (first_unassigned assigned ver fuel' x last) as [y'|] eqn:H2; [| | |done].
  - apply first_unassigned_Some in H1 as (R1 & N1 & A1), H2 as (R2 & N2 & A2). f_equal.
    destruct (Z.lt_trichotomy y y') as [Hlt|[->|Hlt]]; [|done|]; [destruct N1; apply A2|destruct N2; apply A1]; lia.
  - apply first_unassigned_Some in H1 as (R1 & N1 & _). destruct N1. eapply first_unassigned_enough; [exact Hf'|exact H2|lia].
  - apply first_unassigned_Some in H2 as (R2 & N2 & _). destruct N2. eapply first_unassigned_enough; [exact Hf|exact H1|lia].
Qed.

Lemma network_address_in n : net_ok n → address_in n.(network_address) n = true.
Proof.
  intros Hn. pose proof (broadcast_block n Hn) as Hb. pose proof (block_size_pos n Hn) as Hp.
  destruct (in_block_ok n n.(network_address).(ip_int) Hn ltac:(lia)) as [_ H]. done.
Qed.

Lemma search_holds n assigned fuel :
  net_ok n → (length assigned < fuel)%nat → ∃ a, ip_ok a ∧ address_in a n = true ∧
    (let '(first, last) := hosts_range n in
     match first_unassigned assigned (net_version n) fuel first last with
     | Some candidate => ip_str (mkIp (net_version n) candidate None)
     | None => if first <=? last then ip_str (mkIp (net_version n) first None) else ip_str n.(network_address)
     end) = ip_str a.
Proof.
  intros Hn Hf. pose proof (hosts_range_in n Hn) as Hr. destruct (hosts_range n) as [first last].
  destruct (first_unassigned _ _ _ _ _) as [y|] eqn:Hy.
  - apply first_unassigned_Some in Hy as [Hy _]. destruct (in_block_ok n y Hn ltac:(lia)). by eexists.
  - destruct (Z.leb_spec first last); [|lia]. destruct (in_block_ok n first Hn ltac:(lia)). by eexists.
Qed.

Lemma representative_in n i : net_ok n → ∃ a, ip_address (_representative_address n i) = Return a ∧ address_in a n = true.
Proof.
  intros Hn. unfold _representative_address. destruct (prefixlen n =? net_max n); [eexists; split; [apply parse_ip_str, Hn|by apply network_address_in]|].
  cbv zeta. destruct (search_holds n (assigned_to (if net_version n =? 4 then i.(iface_ipv4) else i.(iface_ipv6))) _ Hn
    (Nat.lt_succ_diag_r _)) as (a & Ha & Hin & E). destruct (hosts_range n). rewrite E. eauto using parse_ip_str.
Qed.

(** C27: The search for an address of a network that is not the interface's own ends: one more
    turn than the interface has addresses is enough, and further turns change nothing.  It
    finds the least such address, or every host address is the interface's; and what it
    answers is the text of an address of the network. *)
Theorem representative_address_found n i (Hn : net_ok n) :
  let assigned := assigned_to (if net_version n =? 4 then i.(iface_ipv4) else i.(iface_ipv6)) in
  let '(first, last) := hosts_range n in
  let search fuel := first_unassigned assigned (net_version n) fuel first last in
  (∀ fuel, (length assigned < fuel)%nat →
     search fuel = search (S (length assigned)) ∧
     match search fuel with
     | Some y => first ≤ y ≤ last ∧ mkIp (net_version n) y None ∉ assigned ∧
                 ∀ z, first ≤ z < y → mkIp (net_version n) z None ∈ assigned
     | None => ∀ z, first ≤ z ≤ last → mkIp (net_version n) z None ∈ assigned
     end) ∧
  ∃ a, ip_address (_representative_address n i) = Return a ∧ address_in a n = true.
Proof.
  cbv zeta. pose proof (representative_in n i Hn) as Hin. destruct (hosts_range n) as [first last]. split; [|exact Hin].
  intros fuel Hf. split; [by apply first_unassigned_fuel; [|lia]|].
  destruct (first_unassigned _ _ fuel _ _) as [y|] eqn:Hy; [by eapply first_unassigned_Some|by eapply first_unassigned_enough].
Qed.

Definition small_net : ip_net := mkNet (mkIp 4 (192 * 2 ^ 24 + 2 * 2 ^ 8 + 8) None) 30.
Definition wired : InterfaceInfo :=
  mkInterface "eth0" (Some "UP") None (Some 1500) None ["192.0.2.9/30"; "not an address"; "10.0.0.1/8"] [] false true true None None "static" true.

Lemma representative_address_found_witness :
  _representative_address small_net wired = "192.0.2.10" ∧
  ∃ a, ip_address (_representative_address small_net wired) = Return a ∧ address_in a small_net = true.
Proof.
  split; [vm_compute; reflexivity|]. refine (proj2 (representative_address_found small_net wired _)).
  split; [left; by vm_compute|by vm_compute|reflexivity].
Defined.

(** *** The routes of a scope *)

Lemma ip_pure_inv {A} (o : IO A) w a w' : ip_pure o w = (Return a, w') → o = Return a ∧ w' = w.
Proof. destruct o; [by intros [= <- <-]|done]. Qed.
Lemma py_pure_inv {A} (o : outcome PyExc A) w a w' : py_pure o w = (Return a, w') → o = Return a ∧ w' = w.
Proof. destruct o; [by intros [= <- <-]|done]. Qed.

Lemma try_return_inv {A} (m : AM A) h w a w' : try_except m h w = (Return a, w') →
  m w = (Return a, w') ∨ ∃ e w1, m w = (Raise e, w1) ∧ h e w1 = (Return a, w').
Proof. unfold try_except. destruct (m w) as [[b|e] w1]; naive_solver. Qed.

Section resolving.
Context `{Runtime, FileSystem, ToolHost, ScanHost}.
Context (settings : InterfaceSettings) (json_loads : string → string + pyval).

(** The host answers that an address of this family is reached by this row. *)
Definition host_routes (family : Z) (address : string) (row : dict) : Prop :=
  ∃ n payload, json_loads (tool_answer n (mkCommand "ip" ["-j"; "-" +:+ str_int family; "route"; "get"; address] 5 [] [])).(stdout) = inr payload ∧
               first_row payload = Some (PDict row).

(** A route of a target: the host reaches an address of the target by the interface, or has
    that address itself in a network of the interface; from a source address of the target's
    family; and it is direct only without a gateway and inside a network of the interface. *)
Definition route_of (i : InterfaceInfo) (t : ScopeTarget) (r : TargetRoute) : Prop :=
  r.(route_target) = t.(target_value) ∧ r.(route_family) = t.(target_family) ∧ r.(route_interface) = i.(iface_name) ∧
  (∃ row, host_routes t.(target_family) r.(representative_address) row ∧
     (get row "dev" = PStr i.(iface_name) ∨
      _is_local_route row = true ∧ _belongs_to_interface_network r.(representative_address) i = Return true)) ∧
  (∃ a, ip_address r.(source_address) = Return a ∧ a.(version) = t.(target_family)) ∧
  (∃ n a, target_network t = Return n ∧ ip_address r.(representative_address) = Return a ∧ address_in a n = true) ∧
  (r.(directly_connected) = true → r.(gateway) = None ∧ _belongs_to_interface_network r.(representative_address) i = Return true).

Lemma accepted_route i t n route w r w' :
  target_network t = Return n → host_routes t.(target_family) (_representative_address n i) route →
  accept_route i t (_representative_address n i) route w = (Return r, w') → route_of i t r.
Proof.
  intros Hn Hhost. unfold accept_route. cbv zeta. intros ([dev source] & w1 & Hdev & Hm)%bind_return_inv. cbv beta iota in Hm.
  destruct (negb (match dev with PStr d => String.eqb d i.(iface_name) | _ => false end)) eqn:Hmine; [done|].
  assert (dev = PStr i.(iface_name)) as ->.
  { apply negb_false_iff in Hmine. destruct dev; try done. by apply String.eqb_eq in Hmine as ->. }
  destruct (negb (truthy source)) in Hm; [done|].
  destruct (source_version source) as [family|] eqn:Hv; [|done]. destruct (Z.eqb_spec family t.(target_family)) as [->|]; [|done].
  cbn [negb] in Hm. apply bind_return_inv in Hm as (connected & w2 & Hconn & Hm).
  apply bind_return_inv in Hm as (src & w3 & [Hsrc _]%py_pure_inv & Hm). destruct source as [| | |s| |]; try done. injection Hsrc as <-.
  apply bind_return_inv in Hm as (gw & w4 & [Hgw _]%py_pure_inv & Hm). injection Hm as <- <-.
  split_and!; try done.
  - exists route. split; [done|]. destruct (_is_local_route route); [|left; by injection Hdev].
    apply bind_return_inv in Hdev as (belongs & w5 & [Hb _]%ip_pure_inv & Hdev). destruct belongs; [by right|left; by injection Hdev].
  - cbn in Hv |- *. destruct (ip_address s) as [a|]; [|done]. injection Hv as Hv. by exists a.
  - destruct (representative_in n i) as (a & Ha & Hin); [by eapply ip_network_ok|]. by exists n, a.
  - cbn [directly_connected gateway representative_address]. intros ->. destruct (get route "gateway"); try done.
    injection Hgw as <-. apply ip_pure_inv in Hconn as [Hc _]. by split.
Qed.

Lemma resolved_target i t w r w' : _resolve_target json_loads i t w = (Return r, w') → route_of i t r.
Proof.
  unfold _resolve_target. intros (n & w1 & [Hn _]%ip_pure_inv & Hm)%bind_return_inv. cbv zeta in Hm.
  apply bind_return_inv in Hm as (result & w2 & Hrun & Hm). destruct (negb _); [done|].
  destruct (json_loads _) as [|payload] eqn:Hjson; [done|]. destruct (first_row payload) as [row|] eqn:Hrow; [|done].
  destruct row; try done. eapply accepted_route; [done| |exact Hm]. unfold run_ip, on_site, run_tool_command in Hrun.
  injection Hrun as <- <-. by eexists _, payload.
Qed.

(** The routes found are those of some of the targets that could be looked up, in their order. *)
Lemma resolved_targets i usable targets w found errors w' :
  resolve_targets json_loads i usable targets w = (Return (found, errors), w') →
  ∃ routed, Forall2 (route_of i) routed found ∧ sublist routed (List.filter (fun t => existsb (Z.eqb t.(target_family)) usable) targets) ∧
            (length routed + length errors = length (List.filter (fun t => existsb (Z.eqb t.(target_family)) usable) targets))%nat.
Proof.
  revert w found errors w'. induction targets as [|t targets IH]; intros w found errors w'; cbn [resolve_targets List.filter].
  { intros [= <- <- _]. by exists []. }
  destruct (existsb _ usable); cbn [negb]; [|apply IH].
  intros (one & w1 & Hone & Hm)%bind_return_inv. apply bind_return_inv in Hm as ([found' errors'] & w2 & Hrest & Hm).
  apply IH in Hrest as (routed & Hr & Hs & Hl). injection Hm as Hm _. destruct one as [r|e]; injection Hm as <- <-.
  - exists (t :: routed). split_and!; [|by constructor|cbn; lia]. constructor; [|done].
    apply try_return_inv in Hone as [Hroute|(e & w3 & _ & He)]; [|by destruct e].
    apply bind_return_inv in Hroute as (r' & w4 & Hr' & [= -> _]). by eapply resolved_target.
  - exists routed. split_and!; [done|by constructor|cbn; lia].
Qed.

(** C28: The scope a lookup resolves is on the interface asked for, which may be used, and has
    at least one route.  Its routes belong to targets of the families the interface has
    addresses of, in their order.  For each the host answered that an address of the target
    is reached by that interface (or is its own, in a network of the interface), from a
    source address of the target's family; a route is direct only without a gateway and when
    that address lies in a network of the interface. *)
Theorem resolved_routes_sound name scope w r w' :
  resolve settings json_loads name scope w = (Return r, w') →
  r.(resolved_interface) = name ∧ r.(routes) ≠ [] ∧
  ∃ i routed, i.(iface_name) = name ∧ i.(denial_reason) = None ∧
    Forall2 (route_of i) routed r.(routes) ∧
    sublist routed (List.filter (fun t => existsb (Z.eqb t.(target_family))
      (List.filter (fun family => not_empty (if family =? 4 then i.(iface_ipv4) else i.(iface_ipv6))) scope.(address_families)))
      scope.(scope_targets)).
Proof.
  unfold resolve. intros (i & w1 & Hi & Hm)%bind_return_inv.
  assert (i.(iface_name) = name ∧ i.(denial_reason) = None) as [<- Hdenial].
  { unfold validate_interface in Hi. apply bind_return_inv in Hi as (l & w3 & _ & Hi).
    destruct (find_first _ l) as [i'|] eqn:Hf; [|done]. destruct i'.(denial_reason) eqn:Hd; [done|]. injection Hi as <- <-.
    by apply find_first_Some in Hf as [_ Hf%String.eqb_eq]. }
  cbv zeta in Hm. set (usable := List.filter _ scope.(address_families)) in *. destruct usable as [|u usable'] eqn:Hu; [done|]. rewrite <- Hu in *.
  apply bind_return_inv in Hm as ([found errors] & w2 & Hfound & Hm). apply resolved_targets in Hfound as (routed & Hr & Hs & _).
  assert (r.(resolved_interface) = i.(iface_name) ∧ r.(routes) = found ∧ found ≠ []) as (-> & -> & Hne).
  { destruct found, errors; try done; [by repeat case_match|by injection Hm as <- _..]. }
  split; [done|]. split; [done|]. exists i, routed. by split_and!.
Qed.
End resolving.

(** *** The targets of the scans *)

(** The address [a] is one of those the target [t] stands for. *)
Definition covers (t a : string) : Prop :=
  ∃ n addr, ip_network t true = Return n ∧ ip_address a = Return addr ∧ address_in addr n = true.

(** The network of an address without a mask is that address. *)
Lemma network_of_address ver s :
  ver = 4 ∨ ver = 6 → without Ip.slash s = true →
  network_of_version ver s true = (a ← address_of_version ver s; mret (mkNet a (max_prefixlen ver))).
Proof.
  intros Hver Hs. unfold network_of_version, _split_addr_prefix. rewrite split_on_last, bind_Return by done. cbv beta iota.
  unfold network_of_parts. destruct (address_of_version ver s) as [a|e] eqn:Ha; [|done]. rewrite !bind_Return. unfold _make_netmask.
  rewrite bind_Return. cbv zeta. destruct (address_of_version_ok ver s a Hver Ha) as [Hok Hv].
  pose proof (ip_ok_range _ Hok) as Hr. rewrite Hv in Hr. pose proof (max_prefixlen_pos ver).
  rewrite land_netmask, Z.sub_diag by lia. change (2 ^ 0) with 1. by rewrite Z.mod_1_r, Z.sub_0_r, Z.eqb_refl.
Qed.

Lemma address_without_mask s a : ip_address s = Return a → without Ip.slash s = true.
Proof.
  intros Ha. rewrite <- negb_false_iff, <- has_char_without. destruct (has_char Ip.slash s) eqn:Hs; [|done].
  unfold ip_address, IPv4Address, IPv6Address in Ha. by rewrite Hs in Ha.
Qed.

Lemma address_network s a n : ip_address s = Return a → ip_network s true = Return n → n = mkNet a (max_prefixlen a.(version)).
Proof.
  intros Ha. pose proof (address_without_mask _ _ Ha) as Hs. unfold ip_network. rewrite !network_of_address by auto.
  change (address_of_version 4 s) with (IPv4Address s). change (address_of_version 6 s) with (IPv6Address s).
  unfold ip_address in Ha. destruct (IPv4Address s) as [b|e] eqn:H4.
  - injection Ha as ->. intros [= <-]. by rewrite (proj2 (ipv4_address_ok _ _ H4)).
  - destruct (IPv6Address s) as [b|] eqn:H6; [|by destruct e]. assert (b = a) as -> by (destruct e; cbn in Ha; congruence).
    intros Hn. destruct e; cbn in Hn; try done; injection Hn as <-; by rewrite (proj2 (ipv6_address_ok _ _ H6)).
Qed.

Lemma address_in_range a n : net_ok n → ip_ok a →
  address_in a n = true ↔ net_version n = a.(version) ∧ n.(network_address).(ip_int) ≤ a.(ip_int) ≤ (broadcast_address n).(ip_int).
Proof.
  intros Hn Ha. destruct (decide (a.(version) = net_version n)) as [Hv|Hv].
  - unfold address_in. rewrite in_block_network by done. unfold in_network. naive_solver congruence.
  - split; [|by intros [? _]]. unfold address_in, in_block. by rewrite (proj2 (Z.eqb_neq _ _) Hv).
Qed.

Lemma covers_trans t a b : covers t a → covers a b → covers t b.
Proof.
  intros (n & x & Hn & Hx & Hin) (m & y & Hm & Hy & Hin'). exists n, y. split_and!; [done..|].
  pose proof (ip_network_ok _ _ _ Hn) as Hnok. pose proof (ip_network_ok _ _ _ Hm) as Hmok.
  pose proof (address_network _ _ _ Hx Hm) as ->.
  pose proof (ip_address_ok _ _ Hx) as Hxok. pose proof (ip_address_ok _ _ Hy) as Hyok.
  apply address_in_range in Hin as [V1 R1]; [|done..]. apply address_in_range in Hin' as [V2 R2]; [|done..].
  rewrite (broadcast_block _ Hmok) in R2. unfold block_size, net_max, net_version in R2, V2. cbn [network_address prefixlen] in R2, V2.
  rewrite Z.sub_diag in R2. change (2 ^ 0) with 1 in R2. apply address_in_range; [done..|]. split; [congruence|lia].
Qed.

(** The scan reads its targets from a file that lists these, one to a line, and leaves by
    this interface. *)
Definition reads_targets (sc : Scan) (interface : string) (targets : list string) : Prop :=
  ∃ front xml file, sc.(scan_command).(args) = front ++ io_args interface xml file ∧
                    sc.(files_before) !! file = Some (target_text targets).

(** Nmap reports what it was told to scan: a live address of the report it leaves is plain
    text that a line of its target file stands for. *)
Definition reports_its_targets `{ScanHost} (parse_xml : string → string + element) : Prop :=
  ∀ k c before front interface xml file text report root d a,
    c.(args) = front ++ io_args interface xml file → before !! file = Some text →
    scan_files k c before !! xml = Some report → parse_xml report = inr root → parse_nmap_xml (Some root) = Return d →
    a ∈ live_targets d → without newline a = true ∧ ∃ t, t ∈ split_on newline text ∧ covers t a.

Lemma io_args_end (front more : list string) interface xml file :
  ∃ front', more ++ front ++ io_args interface xml file = front' ++ io_args interface xml file.
Proof. exists (more ++ front). by rewrite <- app_assoc. Qed.

Lemma host_plan_args scope resolved profile xml file b :
  ∃ front, (host_discovery_plan scope resolved profile xml file b).(plan_args) = front ++ io_args resolved.(resolved_interface) xml file.
Proof. unfold host_discovery_plan. destruct (host_probes _ _ _). cbn [plan_args]. rewrite !app_assoc. by eexists. Qed.
Lemma tcp_plan_args scope resolved profile xml file b :
  ∃ front, (tcp_scan_plan scope resolved profile xml file b).(plan_args) = front ++ io_args resolved.(resolved_interface) xml file.
Proof. unfold tcp_scan_plan. cbv zeta. case_match. cbn [plan_args]. rewrite !app_assoc. by eexists. Qed.
Lemma sweep_plan_args scope resolved profile xml file b :
  ∃ front, (tcp_sweep_plan scope resolved profile xml file b).(plan_args) = front ++ io_args resolved.(resolved_interface) xml file.
Proof. unfold tcp_sweep_plan. cbv zeta. cbn [plan_args]. rewrite !app_assoc. by eexists. Qed.
Lemma fingerprint_plan_args scope resolved profile xml file b ports plan :
  tcp_fingerprint_plan scope resolved profile xml file b ports = Some plan →
  plan.(target_file) = file ∧ plan.(xml_path) = xml ∧ ∃ front, plan.(plan_args) = front ++ io_args resolved.(resolved_interface) xml file.
Proof. destruct ports; [done|]. intros <-%(inj Some). split_and!; [done..|]. cbn [plan_args]. rewrite !app_assoc. by eexists. Qed.
Lemma udp_plan_args scope resolved profile xml file b plan :
  udp_scan_plan scope resolved profile xml file b = Some plan → plan.(plan_args) ≠ [] →
  plan.(target_file) = file ∧ ∃ front, plan.(plan_args) = front ++ io_args resolved.(resolved_interface) xml file.
Proof.
  unfold udp_scan_plan. cbv zeta. destruct (_ || _); [done|]. destruct (negb b); intros <-%(inj Some); [done|]. intros _.
  split; [done|]. cbn [plan_args]. rewrite !app_assoc. by eexists.
Qed.
Lemma host_plan_xml scope resolved profile xml file b : (host_discovery_plan scope resolved profile xml file b).(xml_path) = xml.
Proof. unfold host_discovery_plan. by destruct (host_probes _ _ _). Qed.

(** The lines of a target file are the targets and the empty text after the last. *)
Lemma target_lines targets t : forallb (without newline) targets = true → t ∈ split_on newline (target_text targets) → t ∈ targets ∨ t = "".
Proof.
  intros Hp. unfold target_text. destruct targets as [|x targets].
  { change (split_on _ _) with [""; ""]. intros [->|[->|[]%elem_of_nil]%elem_of_cons]%elem_of_cons; by right. }
  assert (join (String newline EmptyString) (x :: targets) +:+ String newline EmptyString =
          join (String newline EmptyString) ((x :: targets) ++ [""])) as ->.
  { clear Hp. revert x. induction targets as [|y targets IH]; intros x; [done|].
    cbn [app] in *. change (join ?s (x :: y :: ?l)) with (x +:+ s +:+ join s (y :: l)). by rewrite !app_assoc_string, IH. }
  cbn [app]. cbn [forallb] in Hp. apply andb_true_iff in Hp as [Hx Hp]. rewrite split_on_join by (try done; rewrite forallb_app; by rewrite Hp).
  rewrite elem_of_cons, elem_of_app, list_elem_of_singleton, elem_of_cons. tauto.
Qed.

Lemma not_covers_empty a : ¬ covers "" a.
Proof. intros (n & addr & Hn & _). by vm_compute in Hn. Qed.

Lemma open_targets_live d a : a ∈ targets_with_open_tcp (Some d) → a ∈ live_targets d.
Proof.
  unfold targets_with_open_tcp. intros Ha. apply (proj2 (live_targets_correct d)).
  assert (∀ l acc, a ∈ foldl append_new acc l → a ∈ acc ∨ a ∈ l) as Hfold.
  { induction l as [|x l IH]; intros acc; cbn; [by left|]. intros [[?| ->]%append_new_elem|?]%IH; set_solver. }
  apply Hfold in Ha as [[]%elem_of_nil|Ha]. apply list_elem_of_In, in_flat_map in Ha as (h & Hh%list_elem_of_In & Ha).
  destruct (is_up h) eqn:Hup; [|by destruct Ha]. apply String.eqb_eq in Hup. destruct (existsb _ _); [|by destruct Ha].
  unfold host_targets in Ha. cbn in Ha. split.
  - intros ->. destruct (host_ipv4 h) as [[|? ?]|], (host_ipv6 h) as [[|? ?]|]; cbn in Ha; intuition done.
  - exists h. split_and!; [done..|]. destruct (host_ipv4 h) as [[|? ?]|], (host_ipv6 h) as [[|? ?]|]; cbn in Ha; intuition congruence.
Qed.

Section in_scope.
Context `{Runtime, FileSystem, ToolHost, ScanHost}.
Context (settings : DiscoverySettings) (vendors : OuiResolver).
Context (read_json : option (ArtifactModel → outcome InvExc pyval)).
Context (json_loads : string → string + pyval) (parse_xml : string → string + element) (json_float : string → pyval).
Context (profile_file : option (option pyval)) (set_order : list ip_net → list ip_net).
Context (audit_id job_id : string).

(** The targets are plain lines, each one of the confirmed ones or covered by one. *)
Definition within_targets (confirmed targets : list string) : Prop :=
  forallb (without newline) targets = true ∧ ∀ a, a ∈ targets → a ∈ confirmed ∨ ∃ t, t ∈ confirmed ∧ covers t a.

Lemma scan_reads plan timeout targets sc interface xml :
  scan_of settings plan timeout targets sc → (∃ front, plan.(plan_args) = front ++ io_args interface xml plan.(target_file)) →
  reads_targets sc interface targets.
Proof. intros (Hc & Hf & _) [front Hargs]. exists front, xml, plan.(target_file). by rewrite Hc. Qed.

(** What such a scan reports live is covered too. *)
Lemma reported_within plan timeout confirmed targets sc interface d :
  reports_its_targets parse_xml → within_targets confirmed targets →
  scan_of settings plan timeout targets sc → (∃ front, plan.(plan_args) = front ++ io_args interface plan.(xml_path) plan.(target_file)) →
  reports parse_xml plan sc d →
  ∀ a, a ∈ live_targets d → without newline a = true ∧ ∃ t, t ∈ confirmed ∧ covers t a.
Proof.
  intros Hhonest [Hplain Hin] (Hc & Hf & k & Hk) [front Hargs] (report & root & Hr & Hx & Hd) a Ha.
  destruct (Hhonest k sc.(scan_command) sc.(files_before) front interface plan.(xml_path) plan.(target_file)
    (target_text targets) report root d a) as [Hplain' (t & Ht & Hcov)]; try done; [by rewrite Hc|by rewrite <- Hk|].
  split; [done|]. apply target_lines in Ht as [Ht| ->]; [|by destruct (not_covers_empty a)|done].
  destruct (Hin t Ht) as [?|(u & Hu & Hcov')]; [by exists t|]. exists u. split; [done|]. by eapply covers_trans.
Qed.

Lemma within_live confirmed targets d :
  (∀ a, a ∈ live_targets d → without newline a = true ∧ ∃ t, t ∈ confirmed ∧ covers t a) →
  (∀ a, a ∈ targets → a ∈ live_targets d) → within_targets confirmed targets.
Proof.
  intros Hlive Hsub. split.
  - apply forallb_forall. intros a Ha%list_elem_of_In. by apply Hlive, Hsub.
  - intros a Ha. right. by apply Hlive, Hsub.
Qed.

Lemma follow_up_within confirmed scope resolved profile dir d l sc :
  reports_its_targets parse_xml → (∀ a, a ∈ live_targets d → without newline a = true ∧ ∃ t, t ∈ confirmed ∧ covers t a) →
  follow_up settings parse_xml scope resolved profile dir d l sc →
  ∃ targets, within_targets confirmed targets ∧ reads_targets sc resolved.(resolved_interface) targets.
Proof.
  intros Hhonest Hlive. assert (within_targets confirmed (live_targets d)) as Hd by by eapply within_live.
  intros [file b sc' Hp Hsc|file b sc' Hp Hsc|file b sweep_file b' sweep found plan sc' Hp Hin sweep_plan Hsweep Hrep Hplan Hsc
         |file b plan sc' Hplan Hne Hsc].
  - exists (live_targets d). split; [done|]. eapply scan_reads; [exact Hsc|]. rewrite tcp_scan_file. apply tcp_plan_args.
  - exists (live_targets d). split; [done|]. eapply scan_reads; [exact Hsc|]. apply sweep_plan_args.
  - exists (targets_with_open_tcp (Some found)). split.
    + eapply within_live; [|apply open_targets_live]. eapply reported_within; [done|exact Hd|exact Hsweep| |exact Hrep]. apply sweep_plan_args.
    + destruct (fingerprint_plan_args _ _ _ _ _ _ _ _ Hplan) as (Hf & _ & Hargs). eapply scan_reads; [exact Hsc|]. rewrite Hf. exact Hargs.
  - exists (live_targets d). split; [done|]. destruct (udp_plan_args _ _ _ _ _ _ _ Hplan Hne) as [Hf Hargs].
    eapply scan_reads; [exact Hsc|]. rewrite Hf. exact Hargs.
Qed.

(** C4: Every scan of a discovery job leaves by the interface of the scope the request names
    and reads from its file targets that are confirmed ones or addresses they stand for,
    also when an earlier scan reported them: no host outside the confirmed scope is scanned.
    This holds of a scanner whose report is about the targets of its file, and of a scope
    whose targets hold no line feed. *)
Theorem scans_stay_in_scope parameters w :
  reports_its_targets parse_xml →
  (∀ id c, w.(act_site).(site_inventory).(Inventory.scopes) !! id = Some c → forallb (without newline) c.(cs_targets) = true) →
  let w' := (execute_discovery settings vendors read_json json_loads parse_xml json_float profile_file set_order audit_id job_id parameters w).2 in
  ∃ l, w'.(scans) = w.(scans) ++ l ∧
    Forall (fun sc => ∃ c targets,
      w.(act_site).(site_inventory).(Inventory.scopes) !! py_str (get parameters "confirmed_scope_id") = Some c ∧
      reads_targets sc c.(cs_interface) targets ∧
      ∀ a, a ∈ targets → a ∈ c.(cs_targets) ∨ ∃ t, t ∈ c.(cs_targets) ∧ covers t a) l.
Proof.
  intros Hhonest Hplain w'. destruct (discovery_scans settings vendors read_json json_loads parse_xml json_float profile_file set_order
    audit_id job_id parameters w) as (l & El & Hl).
  exists l. split; [exact El|]. destruct Hl as [->|(name & scope & c & profile & resolved & file & b & host & rest & Hauth & _ & Hif & -> & Hhost & Hrest)]; [done|].
  destruct Hauth as (_ & _ & Hc & Ht & _ & _). specialize (Hplain _ _ Hc). rewrite <- Ht in Hhost.
  assert (within_targets c.(cs_targets) c.(cs_targets)) as Hw by (split; [done|by left]).
  set (plan := host_discovery_plan _ _ _ _ _ _) in *.
  assert (∃ front, plan.(plan_args) = front ++ io_args c.(cs_interface) plan.(xml_path) plan.(target_file)) as Hargs.
  { unfold plan. rewrite host_plan_file, host_plan_xml, <- Hif. apply host_plan_args. }
  apply Forall_cons. split; [exists c, c.(cs_targets); split_and!; [done|by eapply scan_reads|by left]|].
  destruct Hrest as [->|(d & Hrep & Hall)]; [done|]. eapply Forall_impl; [exact Hall|]. intros sc Hsc.
  destruct (follow_up_within c.(cs_targets) _ _ _ _ _ _ _ Hhonest (reported_within _ _ _ _ _ _ _ Hhonest Hw Hhost Hargs Hrep) Hsc)
    as (targets & [_ Hin] & Hreads).
  exists c, targets. rewrite Hif in Hreads. by split_and!.
Qed.
End in_scope.

(** ** The whole job *)

Section whole.
Context `{Runtime, FileSystem, ToolHost, ScanHost}.
Context (settings : DiscoverySettings) (vendors : OuiResolver).
Context (read_json : option (ArtifactModel → outcome InvExc pyval)).
Context (json_loads : string → string + pyval) (parse_xml : string → string + element) (json_float : string → pyval).
Context (profile_file : option (option pyval)) (set_order : list ip_net → list ip_net).
Context (audit_id job_id : string).


End whole.

(** ** A discovery at work *)

#[local] Existing Instance sample_runtime | 0.
#[local] Existing Instance sample_runtime_ok | 0.
#[local] Existing Instance sample_plain_ids | 0.
#[local] Existing Instance reliable | 0.

(** The job of an audit with a confirmed deep scope, on the interface eth0 that is up. *)
Definition deep_scope : ValidatedScope := mkValidatedScope DEEP [] ["192.0.2.0/28"] [4] 14 (mkPerFamily 1024 256).
Definition agreed : InvWorld := (confirm_scope sample_audit deep_scope "eth0" [] None "polite" started).2.
Definition agreed_id : string := default "" (head (map_to_list agreed.(Inventory.scopes)).*1).
Definition deep_request : dict :=
  [("profile", PStr "deep"); ("scope", PList [PStr "192.0.2.0/28"]); ("interface", PStr "eth0"); ("confirmed_scope_id", PStr agreed_id)].
Definition agreed_world : ActiveWorld := mkActiveWorld (mkSite agreed ∅ ∅ 0 [] 0 []) ∅ [] 0 None new_parser (mkLiveState 0 0 None 0).

Definition host_settings : DiscoverySettings :=
  mkDiscoverySettings (mkActiveSettings 1024 1024 1024 256 false) (mkInterfaceSettings [] false true) (mkNmapSettings "nmap" 60 600 3600) "/run/nmap".

(** The tool [ip] answers by the name of its question. *)
Definition ip_json (s : string) : string + pyval :=
  if String.eqb s "addr" then
    inr (PList [PDict [("ifname", PStr "eth0"); ("flags", PList [PStr "UP"]); ("operstate", PStr "UP"); ("mtu", PInt 1500);
                       ("addr_info", PList [PDict [("family", PStr "inet"); ("local", PStr "192.0.2.5"); ("prefixlen", PInt 28)]])]])
  else if String.eqb s "route" then inr (PList [PDict [("dst", PStr "default"); ("dev", PStr "eth0")]])
  else if String.eqb s "get" then inr (PList [PDict [("dev", PStr "eth0"); ("prefsrc", PStr "192.0.2.5")]])
  else inl "Expecting value".

#[local] Instance lan_tools : ToolHost :=
  {| tool_answer n c :=
       mkToolResult (argv c) c.(tool) (Some 0)
         (match c.(args) with [_; a] => a | [_; _; _; a; _] => a | ["--version"] => "Nmap version 7.94" | _ => "" end)
         "" 0 1000 1000 false false true None;
     which tool := Some ("/usr/bin/" +:+ tool);
     token_set _ := false |}.

(** One host of the network is up, with a web server: a scanner that reports it when a line of
    its target file covers it. *)
Definition coversb (t a : string) : bool :=
  match ip_network t true, ip_address a with Return n, Return addr => address_in addr n | _, _ => false end.
Lemma coversb_spec t a : coversb t a = true → covers t a.
Proof.
  unfold coversb, covers. destruct (ip_network t true) as [n|] eqn:Hn; [|done]. destruct (ip_address a) as [addr|] eqn:Ha; [|done]. by exists n, addr.
Qed.

Definition lan_report (c : ToolCommand) (before : gmap string string) : gmap string string :=
  match rev c.(args) with
  | file :: _ :: xml :: _ =>
      <[xml := if existsb (fun t => coversb t "192.0.2.7") (split_on newline (default EmptyString (before !! file))) then "one up" else "none up"]> before
  | _ => before
  end.
#[local] Instance lan_scans : ScanHost :=
  {| scan_files _ := lan_report; scan_output _ _ := [("stdout", "About 50.00% done; ETC: 10:00 (0:01:00 remaining)" +:+ String newline EmptyString)];
     monotonic n := 10000000000 * Z.of_nat (S n); speed_file _ := None; effective_uid := 0; proc_status := None |}.

Definition xml_root (hosts : list element) : element :=
  Element "nmaprun" [] None (hosts ++ [Element "runstats" [] None [Element "finished" [] None []]]).
Definition lan_host : element :=
  Element "host" [] None
    [Element "status" [("state", "up")] None []; Element "address" [("addr", "192.0.2.7"); ("addrtype", "ipv4")] None [];
     Element "ports" [] None [Element "port" [("protocol", "tcp"); ("portid", "80")] None [Element "state" [("state", "open")] None []]]].
Definition read_xml (s : string) : string + element :=
  if String.eqb s "one up" then inr (xml_root [lan_host]) else if String.eqb s "none up" then inr (xml_root []) else inl "no element found".

Definition discovery : outcome ActiveExc (string * dict) * ActiveWorld :=
  execute_discovery host_settings demo_vendors None ip_json read_xml PStr None id sample_audit audit_job deep_request agreed_world.

(** Four scans: hosts, the sweep, the open port on its host, and UDP. *)
Example discovery_runs :
  List.map (fun sc => (last (sc.(scan_command).(args)) ≫= (fun file => sc.(files_before) !! file))) discovery.2.(scans) =
    Some <$> [target_text ["192.0.2.0/28"]; target_text ["192.0.2.7"]; target_text ["192.0.2.7"]; target_text ["192.0.2.7"]] ∧
  (percentage <$> discovery.2.(act_site).(site_progress)) = [5; 10; 15; 22; 30; 35; 47; 61; 62; 70; 82; 85; 90; 96] ∧
  is_return discovery.1 = true ∧ discovery.2.(runtime_files) = ∅.
Proof. vm_compute. split_and!; reflexivity. Qed.

Lemma lan_reports_its_targets : reports_its_targets read_xml.
Proof.
  intros k c before front interface xml file text report root d a Hargs Hfile Hreport Hx Hd Ha.
  cbn [scan_files lan_scans] in Hreport. unfold lan_report in Hreport. rewrite Hargs, rev_app_distr in Hreport.
  change (rev (io_args interface xml file)) with [file; "-iL"; xml; "-oX"; interface; "-e"] in Hreport. cbn [app] in Hreport.
  rewrite lookup_insert_eq in Hreport. injection Hreport as <-. rewrite Hfile in Hx. change (default "" (Some text)) with text in Hx. destruct (existsb _ _) eqn:He.
  - apply existsb_exists in He as (t & Ht%list_elem_of_In & Hc%coversb_spec).
    injection Hx as <-. vm_compute in Hd. injection Hd as <-. vm_compute in Ha.
    apply list_elem_of_singleton in Ha as ->. split; [done|]. by exists t.
  - injection Hx as <-. vm_compute in Hd. injection Hd as <-. vm_compute in Ha. by apply elem_of_nil in Ha.
Qed.

Lemma agreed_scopes_plain id c : agreed.(Inventory.scopes) !! id = Some c → forallb (without newline) c.(cs_targets) = true.
Proof.
  revert id c. apply (proj2 (map_Forall_to_list (fun _ c => forallb (without newline) c.(cs_targets) = true) _)).
  vm_compute. repeat constructor.
Qed.

Lemma scans_stay_in_scope_witness :
  reports_its_targets read_xml ∧ length discovery.2.(scans) = 4%nat ∧
  Forall (fun sc => ∃ c targets, agreed.(Inventory.scopes) !! agreed_id = Some c ∧ reads_targets sc c.(cs_interface) targets ∧
                      ∀ a, a ∈ targets → a ∈ c.(cs_targets) ∨ ∃ t, t ∈ c.(cs_targets) ∧ covers t a) discovery.2.(scans).
Proof.
  split; [exact lan_reports_its_targets|]. split; [vm_compute; reflexivity|].
  destruct (scans_stay_in_scope host_settings demo_vendors None ip_json read_xml PStr None id sample_audit audit_job deep_request agreed_world
    lan_reports_its_targets agreed_scopes_plain) as (l & El & Hl).
  change (execute_discovery _ _ _ _ _ _ _ _ _ _ _ _) with discovery in El. change (scans agreed_world ++ l) with l in El. rewrite El. exact Hl.
Defined.

Lemma agreed_ok : inv_ok agreed ∧ artifacts_ok agreed ∧ sample_audit ∈ agreed.(audit_ids) ∧ audit_job ∈ agreed.(job_ids).
Proof.
  assert (inv_ok started) as Hs by (split; apply table_empty).
  assert (artifacts_ok started) as Ha by (intros id a Hid; cbn in Hid; by rewrite lookup_empty in Hid).
  pose proof (steps_kept _ _ _ _ (steps_confirm_scope sample_audit deep_scope "eth0" [] None "polite" started Hs
    ltac:(set_solver))) as [Hc Ec].
  split_and!; [exact Hc|exact (artifacts_ok_mono _ _ Ec Ha)| |].
  - unfold agreed. rewrite (InventoryInvariant.same_audits _ _ Ec). cbn. set_solver.
  - unfold agreed. rewrite (InventoryInvariant.same_jobs _ _ Ec). cbn. set_solver.
Qed.

Lemma agreed_site_ok : site_ok agreed_world.(act_site).
Proof.
  split; [apply agreed_ok..| | |].
  - assert (ev_view agreed_world.(act_site) = (empty_evidence {[sample_audit]} {[audit_job]}) <| ev_clock_reads := agreed.(inv_clock_reads) |>
              <| ev_uuids_drawn := agreed.(inv_uuids_drawn) |>) as -> by (vm_compute; reflexivity).
    apply evidence_later; [apply empty_ok|cbn; lia].
  - split; intros *; cbn; rewrite lookup_empty; done.
  - intros id [r Hr]. cbn in Hr. by rewrite lookup_empty in Hr.
Qed.


Definition lan_scope : ValidatedScope :=
  match validate host_settings.(scope_settings) id ["192.0.2.0/28"] DEEP with Return s => s | Raise _ => deep_scope end.

Lemma resolved_routes_sound_witness :
  ∃ r w', resolve host_settings.(interface_settings) ip_json "eth0" lan_scope agreed_world = (Return r, w') ∧
          r.(routes) ≠ [] ∧ List.map representative_address r.(routes) = ["192.0.2.1"] ∧ r.(resolved_interface) = "eth0".
Proof.
  destruct (resolve host_settings.(interface_settings) ip_json "eth0" lan_scope agreed_world) as [[r|e] w'] eqn:Hr; [|by vm_compute in Hr].
  exists r, w'. split; [done|]. destruct (resolved_routes_sound _ _ _ _ _ _ _ Hr) as (Hname & Hne & _).
  split; [done|]. split; [|done]. vm_compute in Hr. injection Hr as <- _. reflexivity.
Defined.

(** ** What the program does that its messages do not say *)

(** An IPv6 zone may hold a line feed, so that a target is two lines of the target file. *)
Example zone_with_line_feed :
  match validate host_settings.(scope_settings) id ["fe80::1%x" +:+ String newline "203.0.113.9"] STANDARD with
  | Return s => List.map (split_on newline) s.(canonical_targets)
  | Raise _ => []
  end = [["fe80::1%x"; "203.0.113.9"]].
Proof. vm_compute. reflexivity. Qed.

(** An interface that may not be used is no validation error of the job: only the refusals of
    the route lookup are turned into one. *)
Example denied_interface_escapes :
  (execute_discovery (mkDiscoverySettings host_settings.(scope_settings) (mkInterfaceSettings ["eth1"] false true) host_settings.(nmap_settings) "/run/nmap") demo_vendors None ip_json read_xml PStr
     None id sample_audit audit_job deep_request agreed_world).1 =
  Raise (InterfaceValidationError NOT_ALLOWED "Interface is not in the configured allowlist").
Proof. vm_compute. reflexivity. Qed.

(** A target the interface has no route to is passed over as long as another has one; host
    discovery still scans all of them. *)
Example unrouted_target_passed_over :
  (resolve_targets ip_json wired [4] [mkScopeTarget "192.0.2.0/28" 4 "network" 14; mkScopeTarget "2001:db8::1" 6 "address" 1] agreed_world).1 =
  (resolve_targets ip_json wired [4] [mkScopeTarget "192.0.2.0/28" 4 "network" 14] agreed_world).1.
Proof. vm_compute. reflexivity. Qed.
