(* ===== verification/PassiveDecode.v ===== *)
(** * Decoding a capture and what to make of it ([parsers/passive.py], [engine/assessment.py], [engine/segment.py])

    The packets of tshark's EK output; the cautious conclusions about the segment that are
    drawn from the results of the sensors; and the short status shown for a capture. *)

From Stdlib Require Import SpecFloat.
From S2P Require Import Prelude PyBase PyText JobModels FindModels FindDates Ip InventoryBase Regex ProbeModels NmapProgress Evidence ProbeStore ProbeRun Routes ScopeEngine PassiveModels Sensors.

(** ** EK output *)

(** The texts of a document with the path they stand at, in the order they are visited. *)
Fixpoint visit (value : pyval) (path : string) : list (string * string) :=
  match value with
  | PDict d =>
      (fix children d := match d with
                         | [] => []
                         | (key, child) :: d => visit child (if nonempty path then path +:+ "." +:+ key else key) ++ children d
                         end) d
  | PList l => (fix items l := match l with [] => [] | child :: l => visit child path ++ items l end) l
  | PNone => []
  | v => [(path, py_str v)]
  end.

(** [flattened[path].append(text)] unless it is there *)
Fixpoint put_field (fields : list (string * list string)) (path text : string) : list (string * list string) :=
  match fields with
  | [] => [(path, [text])]
  | (name, vs) :: fields => if String.eqb name path then (name, append_new vs text) :: fields
                            else (name, vs) :: put_field fields path text
  end.

Definition _flatten_fields (layers : dict) : list (string * list string) :=
  foldl (fun fields '(path, text) => put_field fields path text) [] (visit (PDict layers) EmptyString).

(** [value.replace(",", ":").split(":")], each part stripped and in lower case *)
Definition _protocols (value : option string) : list string :=
  match value with
  | Some (String c s) =>
      List.map (fun part => lower (strip part))
        (List.filter (fun part => nonempty (strip part))
           (split_on colon (str_map (fun c => if Ascii.eqb c comma then colon else c) (String c s))))
  | _ => []
  end.

(** What the [except] of [_timestamp] catches; an [OSError] counts as a [ValueError]. *)
Definition type_or_value_error (e : PyExc) : bool :=
  match e with PyTypeError _ | PyValueError _ => true | _ => false end.

(** [s.replace("Z", "+00:00")] *)
Fixpoint zulu_offset (s : string) : string :=
  match s with
  | EmptyString => EmptyString
  | String c s => if Ascii.eqb c (chr 90) then "+00:00" +:+ zulu_offset s else String c (zulu_offset s)
  end.

Section decode.
(** [json.loads], with the message of the [JSONDecodeError]; [datetime.fromisoformat], [None]
    for a [ValueError]; [float(value)]; [datetime.fromtimestamp(value, tz=utc)]. *)
Context (json_loads : string → string + pyval) (fromisoformat : string → option datetime).
Context (float_of : pyval → outcome PyExc float) (fromtimestamp : float → outcome PyExc datetime).

(** Seconds, also when they are given in nanoseconds or milliseconds. *)
Definition epoch_seconds (timestamp : float) : float :=
  if SFltb (float_of_int 1000000000000000) timestamp then float_div timestamp (float_of_int 1000000000)
  else if SFltb (float_of_int 1000000000000) timestamp then float_div timestamp (float_of_int 1000)
  else timestamp.

Definition epoch_timestamp (value : pyval) : outcome PyExc (option datetime) :=
  match (timestamp ← float_of value; fromtimestamp (epoch_seconds timestamp)) with
  | Return t => Return (Some t)
  | Raise e => if type_or_value_error e then Return None else Raise e
  end.

Definition _timestamp (value : pyval) : outcome PyExc (option datetime) :=
  match value with
  | PNone | PStr EmptyString => Return None
  | PStr s =>
      match (if contains "T" s || endswith s "Z" then fromisoformat (zulu_offset s) else None) with
      | Some t => Return (Some t)
      | None => epoch_timestamp value
      end
  | _ => epoch_timestamp value
  end.

Definition _integer (value : option string) : outcome PyExc (option Z) :=
  match value with None => Return None | Some v => number_of v end.

(** The packet of a document's layers; [position] is its number when it has none. *)
Definition packet_of (document : dict) (layers : dict) (position : Z) : outcome PyExc PacketRecord :=
  let fields := _flatten_fields layers in
  let draft := mkPacket position None [] None None None None fields in
  number ← _integer (first draft ["frame.number"; "frame_number"]);
  timestamp ← _timestamp (por (py_opt_str (first draft ["frame.time_epoch"; "timestamp"])) (get document "timestamp"));
  Return (mkPacket (match number with Some n => if n =? 0 then position else n | None => position end) timestamp
            (_protocols (first draft ["frame.protocols"; "protocols"]))
            (first draft ["eth.src"; "wlan.sa"]) (first draft ["eth.dst"; "wlan.da"])
            (first draft ["ip.src"; "ipv6.src"]) (first draft ["ip.dst"; "ipv6.dst"]) fields).

Definition malformed_line (number : Z) (message : string) : PipelineError :=
  mkPipelineError MALFORMED_INPUT "passive_parser" ("Malformed EK JSON at line " +:+ str_int number) false
    [("error", PStr message)].

(** What a line gives: nothing, an error, or a packet at this position. *)
Definition read_line (number position : Z) (raw_line : string) : outcome PyExc (option (PipelineError + PacketRecord)) :=
  let line := strip raw_line in
  if negb (nonempty line) then Return None
  else match json_loads line with
       | inl message => Return (Some (inl (malformed_line number message)))
       | inr document =>
           indexed ← py_in "index" document;
           layered ← (if (indexed : bool) then py_in "layers" document else Return true);
           if (indexed : bool) && negb layered then Return None
           else
             layers ← py_get document "layers";
             match document, layers with
             | PDict d, PDict l => packet ← packet_of d l position; Return (Some (inr packet))
             | _, _ => Return None
             end
       end.

Fixpoint parse_lines (number position : Z) (lines : list string) : outcome PyExc (list PacketRecord * list PipelineError) :=
  match lines with
  | [] => Return ([], [])
  | line :: lines =>
      found ← read_line number position line;
      match found with
      | None => parse_lines (number + 1) position lines
      | Some (inl e) => '(packets, errors) ← parse_lines (number + 1) position lines; Return (packets, e :: errors)
      | Some (inr p) => '(packets, errors) ← parse_lines (number + 1) (position + 1) lines; Return (p :: packets, errors)
      end
  end.

Definition parse_ek_stream (lines : list string) : outcome PyExc (list PacketRecord * list PipelineError) :=
  parse_lines 1 1 lines.
End decode.

(** The lines of a text file, whichever way they end. *)
Fixpoint universal_newlines (s : string) : string :=
  match s with
  | EmptyString => EmptyString
  | String c s' =>
      if Ascii.eqb c (chr 13) then
        String newline (match s' with String d s'' => if Ascii.eqb d newline then universal_newlines s'' else universal_newlines s'
                                    | EmptyString => EmptyString end)
      else String c (universal_newlines s')
  end.
Definition file_lines (s : string) : list string :=
  let parts := split_on newline (universal_newlines s) in
  match List.last parts EmptyString with EmptyString => removelast parts | _ => parts end.

(** ** Values of any type *)

(** [a == b]: numbers and truth values by their value, dictionaries without order. *)
Definition as_number (v : pyval) : option Z :=
  match v with PInt n => Some n | PBool b => Some (if b then 1 else 0) | _ => None end.
Fixpoint py_eqb (a b : pyval) : bool :=
  match a, b with
  | PNone, PNone => true
  | PStr s, PStr t => String.eqb s t
  | PList l, PList m =>
      (fix items l m := match l, m with
                        | [], [] => true
                        | x :: l, y :: m => py_eqb x y && items l m
                        | _, _ => false
                        end) l m
  | PDict d, PDict e =>
      (length d =? length e)%nat &&
      (fix children d := match d with
                         | [] => true
                         | (k, x) :: d => match dict_get e k with Some y => py_eqb x y | None => false end && children d
                         end) d
  | _, _ => match as_number a, as_number b with Some n, Some m => n =? m | _, _ => false end
  end.
Definition py_member (v : pyval) (l : list pyval) : bool := existsb (py_eqb v) l.
Definition py_append_new (l : list pyval) (v : pyval) : list pyval := if py_member v l then l else l ++ [v].

(** The elements of a set, each once; a list or a dictionary has no hash. *)
Definition hashable (v : pyval) : bool := match v with PList _ | PDict _ => false | _ => true end.
Definition py_set (l : list pyval) : outcome PyExc (list pyval) :=
  if forallb hashable l then Return (foldl py_append_new [] l) else Raise (PyTypeError "unhashable type").

(** [sorted(...)] of different values *)
Definition py_sorted (l : list pyval) : outcome PyExc (list pyval) :=
  match l with
  | [] | [_] => Return l
  | _ =>
      if forallb (fun v => match v with PStr _ => true | _ => false end) l then
        Return (sort_by (fun a b => str_le (py_str a) (py_str b)) l)
      else if forallb (fun v => bool_decide (is_Some (as_number v))) l then
        Return (sort_by (fun a b => default 0 (as_number a) <=? default 0 (as_number b)) l)
      else Raise (PyTypeError "'<' not supported")
  end.

(** A comprehension whose body may raise. *)
Fixpoint gather {A B} (f : A → outcome PyExc B) (l : list A) : outcome PyExc (list B) :=
  match l with
  | [] => Return []
  | x :: l => y ← f x; ys ← gather f l; Return (y :: ys)
  end.

(** [v.get(key, [])], gone through *)
Definition entries_of (v : pyval) (key : string) : outcome PyExc (list pyval) :=
  match v with
  | PDict d => py_list (default (PList []) (dict_get d key))
  | _ => Raise (PyAttributeError "object has no attribute 'get'")
  end.

(** ** Captures and conclusions *)

Inductive CaptureStatus : Type := CAPTURE_COMPLETED | CAPTURE_FAILED_STATUS | CAPTURE_CANCELLED.
#[export] Instance CaptureStatus_eq_dec : EqDecision CaptureStatus.
Proof. solve_decision. Defined.
Definition CaptureStatus_value (s : CaptureStatus) : string :=
  match s with CAPTURE_COMPLETED => "completed" | CAPTURE_FAILED_STATUS => "failed" | CAPTURE_CANCELLED => "cancelled" end.

Record CaptureResult : Type := mkCapture {
  capture_interface : string;
  capture_status : CaptureStatus;
  capture_started_at : datetime;
  capture_finished_at : datetime;
  capture_duration : Z;
  frame_count : option Z;
  dropped_packets : option Z;
  pcap_path : option string;
  pcap_reference : option string;
  retained : bool;
  capture_warnings : list string;
  capture_errors : list PipelineError;
  capture_tool_result : ToolResult
}.
#[export] Instance eta_CaptureResult : Eta CaptureResult := fun c =>
  mkCapture c.(capture_interface) c.(capture_status) c.(capture_started_at) c.(capture_finished_at) c.(capture_duration)
    c.(frame_count) c.(dropped_packets) c.(pcap_path) c.(pcap_reference) c.(retained) c.(capture_warnings)
    c.(capture_errors) c.(capture_tool_result).

Record AssessmentConclusion : Type := mkConclusion {
  concluded : pyval;
  conclusion_confidence : ConfidenceLevel;
  conclusion_rationale : string;
  conclusion_sources : list string;
  limitations : list string
}.

Record PassiveAssessment : Type := mkAssessment {
  visibility : AssessmentConclusion;
  layer2 : dict;
  assessed_ipv4 : dict;
  assessed_ipv6 : dict;
  infrastructure : list AssessmentConclusion
}.

Definition conclusion_dump (c : AssessmentConclusion) : pyval :=
  PDict [("value", c.(concluded)); ("confidence", PStr (ConfidenceLevel_value c.(conclusion_confidence)));
         ("rationale", PStr c.(conclusion_rationale)); ("sources", py_texts c.(conclusion_sources));
         ("limitations", py_texts c.(limitations))].
Definition assessment_dump (a : PassiveAssessment) : pyval :=
  PDict [("visibility", conclusion_dump a.(visibility)); ("layer2", PDict a.(layer2)); ("ipv4", PDict a.(assessed_ipv4));
         ("ipv6", PDict a.(assessed_ipv6)); ("infrastructure", PList (List.map conclusion_dump a.(infrastructure)))].

(** ** Assessment *)

(** The first 24 bits an address shares with others; [None] when it is no IPv4 address. *)
Definition group_of (value : pyval) : option (string * string) :=
  match value with
  | PStr (String c s) =>
      match ip_address (String c s) with
      | Return a => if a.(version) =? 4 then
                      match ip_network (String c s +:+ "/24") false with
                      | Return n => Some (net_str n, String c s)
                      | Raise _ => None
                      end
                    else None
      | Raise _ => None
      end
  | _ => None
  end.

Definition group_conclusion (found : list (string * string)) (counted : string * Z) : AssessmentConclusion :=
  mkConclusion (PDict [("candidate_group", PStr counted.1); ("hosts_observed", PInt counted.2)]) CONF_HINT
    "Observed ARP addresses share the same first 24 bits"
    (List.map snd (List.filter (fun g => String.eqb g.1 counted.1) found))
    ["The actual subnet mask was not observed"; "/24 is grouping only and is not a discovered network"].

Definition infer_ipv4_groups (relationships : list pyval) : outcome PyExc (list AssessmentConclusion) :=
  addresses ← gather (fun r => py_get r "ipv4") relationships;
  let found := omap group_of addresses in
  Return (List.map (group_conclusion found) (most_common (counter (List.map fst found)))).

Definition _summary_list (result : option SensorResult) (key : string) : list pyval :=
  match result with
  | Some r => match dict_get r.(sensor_summary) key with Some (PList l) => l | _ => [] end
  | None => []
  end.
Definition _summary_int (result : option SensorResult) (key : string) : pyval :=
  match result with
  | Some r => match default (PInt 0) (dict_get r.(sensor_summary) key) with
              | PInt n => PInt n
              | PBool b => PBool b
              | _ => PInt 0
              end
  | None => PInt 0
  end.

Definition visibility_of (capture : CaptureResult) : AssessmentConclusion :=
  if negb (bool_decide (capture.(capture_status) = CAPTURE_COMPLETED)) then
    mkConclusion (PStr "unknown") CONF_UNKNOWN "Packet capture did not complete successfully" []
      ["Visibility cannot be assessed from a failed capture"]
  else match capture.(frame_count) with
       | Some 0 => mkConclusion (PStr "silent") CONF_HIGH "Capture completed and contained no frames" ["capture.frame_count"]
                     ["No traffic during the capture window does not prove the segment is unused"]
       | Some n =>
           if n <? 10 then mkConclusion (PStr "very-low") CONF_HIGH ("Only " +:+ str_int n +:+ " frames were observed")
                             ["capture.frame_count"] ["A longer capture may reveal additional protocols"]
           else mkConclusion (PStr "active") CONF_HIGH "Network traffic was observed during capture" ["capture.frame_count"] []
       | None => mkConclusion (PStr "active") CONF_HIGH "Network traffic was observed during capture" ["capture.frame_count"] []
       end.

Definition _port_type_hint (different_tags : nat) (tagged untagged : bool) (ethernet_frames : Z) : AssessmentConclusion :=
  if (1 <? different_tags)%nat then
    mkConclusion (PStr "trunk-like") CONF_MEDIUM "Frames from multiple tagged VLAN IDs were observed" ["sensor.vlan"]
      ["Observed tags do not reveal switch-port configuration"; "Untagged traffic may represent a native VLAN"]
  else if tagged && untagged then
    mkConclusion (PStr "tagged-with-possible-native") CONF_MEDIUM "Both tagged and untagged Ethernet frames were observed"
      ["sensor.vlan"; "sensor.ethernet"] ["The VLAN identity of untagged traffic is unknown"]
  else if tagged then
    mkConclusion (PStr "tagged-segment") CONF_LOW "Tagged Ethernet frames were observed" ["sensor.vlan"]
      ["One observed VLAN is insufficient to confirm a trunk"]
  else if negb (ethernet_frames =? 0) then
    mkConclusion (PStr "access-or-native-like") CONF_HINT "Traffic was observed without visible 802.1Q tags" ["sensor.ethernet"]
      ["Absence of observed tags does not prove that VLANs do not exist"; "The VLAN ID of untagged traffic cannot be inferred"]
  else mkConclusion (PStr "unknown") CONF_UNKNOWN "No Ethernet traffic was available for port-type inference" [] [].

(** The network of an address and a mask, as [ipaddress] writes it. *)
Definition advertised_network (address mask : pyval) : option string :=
  match ip_network (py_str address +:+ "/" +:+ py_str mask) false with Return n => Some (net_str n) | Raise _ => None end.

Fixpoint dhcp_networks (observations : list Observation) (seen : list string) : list AssessmentConclusion :=
  match observations with
  | [] => []
  | item :: observations =>
      let address := por (get item.(seen_data) "offered_ip") (get item.(seen_data) "requested_ip") in
      let mask := get item.(seen_data) "subnet_mask" in
      if negb (truthy address) || negb (truthy mask) then dhcp_networks observations seen
      else match advertised_network address mask with
           | None => dhcp_networks observations seen
           | Some network =>
               if str_in network seen then dhcp_networks observations seen
               else mkConclusion (PDict [("candidate_group", PStr network); ("advertised_mask", mask)]) CONF_HIGH
                      "DHCP advertised a subnet mask for an address" [item.(seen_metadata).(meta_evidence).(evidence_text)]
                      ["DHCP configuration is advertised evidence, not proof of switch topology"]
                    :: dhcp_networks observations (network :: seen)
           end
  end.
Definition _dhcp_network_conclusions (dhcp : option SensorResult) : list AssessmentConclusion :=
  match dhcp with Some r => dhcp_networks r.(sensor_observations) [] | None => [] end.

Definition gateway_hint (router : pyval) : AssessmentConclusion :=
  mkConclusion (PDict [("type", PStr "gateway_candidate"); ("address", router)]) CONF_HIGH
    "DHCP router option advertised this address" ["sensor.dhcpv4"]
    ["The address was advertised and was not actively verified"].
Definition server_hints (server : pyval) : outcome PyExc (list AssessmentConclusion) :=
  id ← py_get server "server_id";
  routers ← entries_of server "routers";
  Return (mkConclusion (PDict [("type", PStr "dhcp_server"); ("address", id)]) CONF_HIGH
            "DHCP server identifier option was observed" ["sensor.dhcpv4"] [] :: List.map gateway_hint routers).

Definition _infrastructure_hints (dhcpv4 : option SensorResult) (neighbors : list pyval) : outcome PyExc (list AssessmentConclusion) :=
  servers ← match dhcpv4 with Some r => entries_of (PDict r.(sensor_summary)) "servers" | None => Return [] end;
  hints ← gather server_hints servers;
  Return (List.concat hints ++
          match neighbors with
          | [] => []
          | _ => [mkConclusion (PDict [("type", PStr "network_device_neighbors");
                                       ("count", PInt (Z.of_nat (length neighbors)))]) CONF_HIGH
                    "LLDP/CDP neighbor advertisements were observed" ["sensor.lldp"; "sensor.cdp"] []]
          end).

(** [{"protocol": protocol, **item.data, "evidence": ...}] *)
Definition neighbor_of (protocol : string) (item : Observation) : pyval :=
  PDict (dict_set (dict_update [("protocol", PStr protocol)] item.(seen_data)) "evidence"
           (PStr item.(seen_metadata).(meta_evidence).(evidence_text))).
Definition neighbors_of (protocol : string) (result : option SensorResult) : list pyval :=
  match result with Some r => List.map (neighbor_of protocol) r.(sensor_observations) | None => [] end.

Definition is_detected (result : option SensorResult) : bool := match result with Some r => detected r | None => false end.
Definition hits_of (result : option SensorResult) : Z := match result with Some r => r.(hits) | None => 0 end.

(** [item["vlan_id"]] where it is given *)
Definition tagged_vlans_of (counts : list pyval) : outcome PyExc (list pyval) :=
  ids ← gather (fun item => py_get item "vlan_id") counts;
  Return (List.filter (fun v => negb (is_none v)) ids).

Definition build_layer2 (ethernet vlan stp : option SensorResult) (neighbors : list pyval) : outcome PyExc dict :=
  tagged_vlans ← tagged_vlans_of (_summary_list vlan "vlan_frame_counts");
  let tagged_frames := _summary_int vlan "tagged_frames" in
  let ethernet_frames := hits_of ethernet in
  let untagged := default 0 (as_number tagged_frames) <? ethernet_frames in
  different ← py_set tagged_vlans;
  Return [("tagged_vlans_observed", PList tagged_vlans); ("tagged_frame_count", tagged_frames);
          ("untagged_traffic_observed", PBool untagged);
          ("port_type_hint", conclusion_dump (_port_type_hint (length different) (truthy tagged_frames) untagged ethernet_frames));
          ("neighbors", PList neighbors);
          ("stp", PDict [("bpdus_observed", PInt (hits_of stp)); ("root_bridge_ids", PList (_summary_list stp "root_bridge_ids"));
                         ("bridge_ids", PList (_summary_list stp "bridge_ids"))])].

Definition build_ipv4 (arp dhcpv4 : option SensorResult) : outcome PyExc dict :=
  groups ← infer_ipv4_groups (_summary_list arp "observed_ipv4_mac");
  Return [("activity_observed", PBool (is_detected arp || is_detected dhcpv4));
          ("observed_hosts", PList (_summary_list arp "observed_ipv4_mac"));
          ("candidate_address_groups", PList (List.map conclusion_dump (_dhcp_network_conclusions dhcpv4 ++ groups)))].

(** [any(prefix.get("autonomous") is True for prefix in prefixes)] *)
Fixpoint any_autonomous (prefixes : list pyval) : outcome PyExc bool :=
  match prefixes with
  | [] => Return false
  | prefix :: prefixes => v ← py_get prefix "autonomous"; if is_true v then Return true else any_autonomous prefixes
  end.

Definition build_ipv6 (ipv6_ra ipv6_nd dhcpv6 : option SensorResult) : outcome PyExc dict :=
  let routers := _summary_list ipv6_ra "routers" in
  advertised ← gather (fun router => prefixes ← entries_of router "prefixes"; rdnss ← entries_of router "rdnss";
                                      Return (prefixes, rdnss)) routers;
  let prefixes := foldl py_append_new [] (flat_map fst advertised) in
  let rdnss := foldl py_append_new [] (flat_map snd advertised) in
  servers ← match dhcpv6 with
            | Some r => gather (fun item => entries_of (PDict item.(seen_data)) "dns_servers") r.(sensor_observations)
            | None => Return []
            end;
  slaac ← any_autonomous prefixes;
  names ← py_set (rdnss ++ foldl py_append_new [] (List.concat servers));
  sorted ← py_sorted names;
  Return [("activity_observed", PBool (is_detected ipv6_ra || is_detected ipv6_nd || is_detected dhcpv6));
          ("routers", PList routers); ("prefixes", PList prefixes); ("slaac_hint", PBool slaac);
          ("dhcpv6_observed", PBool (is_detected dhcpv6)); ("dns_servers", PList sorted)].

Definition build_assessment (capture : CaptureResult) (sensors : list (string * SensorResult)) : outcome PyExc PassiveAssessment :=
  let neighbors := neighbors_of "LLDP" (dict_get sensors "lldp") ++ neighbors_of "CDP" (dict_get sensors "cdp") in
  layer2 ← build_layer2 (dict_get sensors "ethernet") (dict_get sensors "vlan") (dict_get sensors "stp") neighbors;
  ipv4 ← build_ipv4 (dict_get sensors "arp") (dict_get sensors "dhcpv4");
  ipv6 ← build_ipv6 (dict_get sensors "ipv6_ra") (dict_get sensors "ipv6_nd") (dict_get sensors "dhcpv6");
  hints ← _infrastructure_hints (dict_get sensors "dhcpv4") neighbors;
  Return (mkAssessment (visibility_of capture) layer2 ipv4 ipv6 hints).

(** ** Segment status *)

(** An address, without its prefix length, that is not unspecified, of the host or of the link. *)
Definition usable_address (raw : string) : bool :=
  let text := strip (split_once slash raw).1 in
  nonempty text &&
  match ip_address text with
  | Return a => let n := mkNet a (max_prefixlen a.(version)) in
                negb (is_unspecified n || is_loopback n || is_link_local n)
  | Raise _ => false
  end.
Definition had_l3_address (ipv4 ipv6 : list string) : bool := existsb usable_address ipv4 || existsb usable_address ipv6.

Definition segment_status (frames : option Z) (tagged_vlan_ids : list Z) (untagged_traffic_observed : bool) : string :=
  if bool_decide (frames = Some 0) then "quiet"
  else if not_empty tagged_vlan_ids then "tagged_vlans"
  else if untagged_traffic_observed then "untagged_traffic"
  else match frames with
       | None => "unknown"
       | Some n => if (0 <? n) && (n <? 10) then "very_low" else if 0 <? n then "active" else "unknown"
       end.

Definition _format_vlan_ids (ids : list Z) : string := join ", " (List.map str_int ids).

Definition segment_note (status : string) (tagged_vlan_ids : list Z) (frames : option Z) : string :=
  if String.eqb status "quiet" then "The segment looked quiet: no frames were captured"
  else if String.eqb status "tagged_vlans" then "Saw tagged VLANs " +:+ _format_vlan_ids tagged_vlan_ids
  else if String.eqb status "untagged_traffic" then "Untagged traffic was observed; VLAN ID is unknown"
  else if String.eqb status "very_low" then "Very little traffic was observed (" +:+ str_int (default 0 frames) +:+ " frames)"
  else if String.eqb status "active" then "Network traffic was observed"
  else "No passive capture is stored for this audit".

Definition _HEADLINE_VLAN_LIMIT : nat := 8.
Definition tagged_vlan_headline (ids : list Z) : string :=
  let text := _format_vlan_ids (take _HEADLINE_VLAN_LIMIT ids) in
  "Saw tagged VLANs " +:+ (if (_HEADLINE_VLAN_LIMIT <? length ids)%nat
                           then text +:+ ", " +:+ String (chr 226) (String (chr 128) (String (chr 166) EmptyString)) else text).

Definition _optional_str (value : pyval) : option string :=
  match value with
  | PNone => None
  | v => let text := strip (py_str v) in if nonempty text then Some text else None
  end.
Definition _optional_int (value : pyval) : option Z :=
  match value with
  | PNone | PBool _ => None
  | PInt n => Some n
  | v => int_auto (py_str v)
  end.

(** What is kept of a neighbour, and what tells it from others. *)
Definition compact_neighbor (item : dict) : dict :=
  let name := opt_or (opt_or (_optional_str (get item "system_name")) (_optional_str (get item "device_id")))
                (_optional_str (get item "chassis_id")) in
  [("protocol", PStr (strip (py_str (por (get item "protocol") (PStr EmptyString))))); ("name", py_opt_str name);
   ("port_id", py_opt_str (_optional_str (get item "port_id"))); ("native_vlan", py_opt_int (_optional_int (get item "native_vlan")));
   ("voice_vlan", py_opt_int (_optional_int (get item "voice_vlan"))); ("pvid", py_opt_int (_optional_int (get item "pvid")))].
Definition neighbor_key (item : dict) : list pyval :=
  let c := compact_neighbor item in
  [get c "protocol"; get c "name"; get c "port_id"; get item "native_vlan"; get item "voice_vlan"; get item "pvid"].

Definition MAX_NEIGHBORS : nat := 32.
Fixpoint compact_from (neighbors : list pyval) (seen : list (list pyval)) (count : nat) : outcome PyExc (list pyval) :=
  match neighbors with
  | [] => Return []
  | PDict item :: neighbors =>
      let key := neighbor_key item in
      if negb (forallb hashable key) then Raise (PyTypeError "unhashable type")
      else if existsb (fun k => py_eqb (PList key) (PList k)) seen then compact_from neighbors seen count
      else
        let kept := PDict (compact_neighbor item) in
        if (MAX_NEIGHBORS <=? S count)%nat then Return [kept]
        else rest ← compact_from neighbors (key :: seen) (S count); Return (kept :: rest)
  | _ :: _ => Raise (PyAttributeError "object has no attribute 'get'")
  end.
Definition compact_neighbors (neighbors : list pyval) : outcome PyExc (list pyval) := compact_from neighbors [] 0.
