(* ===== verification/PassiveRun.v ===== *)
(** * Passive discovery ([providers/capture.py], [engine/passive.py], [jobs/handlers/passive.py])

    Capturing packets with dumpcap, decoding the capture with tshark, the pipeline from an
    interface to an assessment, and the job that keeps its result. *)

From S2P Require Import Prelude PyBase PyText JobModels JobStore Sha256 Ip ScopeEngine FindModels FindDates InventoryBase Inventory InventoryIngest InventoryQueries Regex ProbeModels ProbeTargets Evidence ProbeStore NmapProgress ProbeRun Routes ActiveRun PassiveModels Sensors PassiveDecode.

Record PassiveSettings : Type := mkPassiveSettings {
  passive_interfaces : InterfaceSettings;
  capture_dir : string;
  passive_duration_min : Z;
  passive_duration_max : Z;
  passive_duration_default : Z;
  capture_max_packets : Z;
  capture_max_filesize_kb : Z;
  capture_snaplen : Z;
  capture_promiscuous : bool;
  passive_retain_capture : bool;
  dumpcap_binary : string;
  tshark_binary : string
}.

(** The random part of the names [tempfile] makes; each is followed by one run of a tool. *)
Class TempNames : Type := { temp_name : nat → string }.

(** [PassiveResult] *)
Record PassiveResult : Type := mkPassiveResult {
  passive_interface : string;
  passive_ipv4 : list string;
  passive_ipv6 : list string;
  requested_duration : Z;
  passive_capture : CaptureResult;
  passive_sensor_results : list (string * SensorResult);
  passive_assessment : PassiveAssessment;
  passive_errors : list PipelineError;
  capture_subprocesses : Z;
  decode_subprocesses : Z
}.

Definition tool_error_dump (e : ToolError) : pyval :=
  PDict [("code", PStr (ToolErrorCode_value e.(tool_error_code))); ("message", PStr e.(tool_error_message));
         ("retryable", PBool e.(tool_error_retryable))].
Definition tool_result_dump (r : ToolResult) : pyval :=
  PDict [("command", py_texts r.(result_command)); ("tool", PStr r.(result_tool)); ("exit_code", py_opt_int r.(exit_code));
         ("stdout", PStr r.(stdout)); ("stderr", PStr r.(stderr)); ("stdout_reference", PNone);
         ("started_at", PStr (json_datetime r.(started_at))); ("finished_at", PStr (json_datetime r.(finished_at)));
         ("duration_seconds", PInt r.(duration)); ("timed_out", PBool r.(timed_out)); ("cancelled", PBool r.(result_cancelled));
         ("success", PBool r.(success));
         ("error", match r.(result_error) with Some e => tool_error_dump e | None => PNone end)].
Definition capture_dump (c : CaptureResult) : pyval :=
  PDict [("interface", PStr c.(capture_interface)); ("status", PStr (CaptureStatus_value c.(capture_status)));
         ("started_at", PStr (json_datetime c.(capture_started_at))); ("finished_at", PStr (json_datetime c.(capture_finished_at)));
         ("duration_seconds", PInt c.(capture_duration)); ("frame_count", py_opt_int c.(frame_count));
         ("dropped_packets", py_opt_int c.(dropped_packets)); ("pcap_path", py_opt_str c.(pcap_path));
         ("pcap_reference", py_opt_str c.(pcap_reference)); ("retained", PBool c.(retained));
         ("warnings", py_texts c.(capture_warnings)); ("errors", PList (List.map pipeline_error_dump c.(capture_errors)));
         ("tool_result", tool_result_dump c.(capture_tool_result))].

(** [result.model_dump(mode="json")] *)
Definition passive_result_dump (r : PassiveResult) : dict :=
  [("schema_version", PStr "1.0"); ("interface", PStr r.(passive_interface)); ("interface_ipv4", py_texts r.(passive_ipv4));
   ("interface_ipv6", py_texts r.(passive_ipv6)); ("requested_duration_seconds", PInt r.(requested_duration));
   ("capture", capture_dump r.(passive_capture)); ("sensors", PDict (sensors_dump r.(passive_sensor_results)));
   ("assessment", assessment_dump r.(passive_assessment)); ("errors", PList (List.map pipeline_error_dump r.(passive_errors)));
   ("metrics", PDict [("capture_subprocesses", PInt r.(capture_subprocesses)); ("decode_subprocesses", PInt r.(decode_subprocesses));
                      ("total_subprocesses", PInt (r.(capture_subprocesses) + r.(decode_subprocesses)))])].

(** [str(exc)]; the texts of the operating system and of pydantic aside. *)
Definition active_exc_text (e : ActiveExc) : string :=
  match e with
  | FromSite (FromEvidence e) => exc_text e
  | FromSite (FromProbe (ProbeValueError m)) | FromSite (FromProbe (ProbeValidation m)) | FromSite (FromProbe (JobCancelled m)) => m
  | ActivePyExc e => py_exc_text e
  | InterfaceValidationError _ m | RouteValidationError _ m _ | ProfileConfigError m => m
  | _ => EmptyString
  end.

(** The last match of a pattern none of whose matches begins inside another. *)
Fixpoint last_match (r : regex) (s : string) : option captures :=
  match s with
  | EmptyString => snd <$> re_match r EmptyString
  | String _ s' => match last_match r s' with Some m => Some m | None => snd <$> re_match r s end
  end.

Definition PACKET_COUNT_PATTERN : regex := RSeqs [lit_i "Packets captured:"; spaces; RGroup 1 (RPlus R_digit)].
Definition DROPPED_COUNT_PATTERN : regex :=
  RSeqs [lit_i "Packets dropped"; RMaybe (lit_i " by kernel"); lit ":"; spaces; RGroup 1 (RPlus R_digit)].

(** [int] of the group of a match *)
Definition matched_count (m : option captures) : outcome PyExc (option Z) :=
  match m with None => Return None | Some c => n ← int_of_kept_digits (group_text 1 c); Return (Some n) end.
Definition _packet_count (stderr : string) : outcome PyExc (option Z) :=
  matched_count (last_match PACKET_COUNT_PATTERN (str_map (fun c => if Ascii.eqb c (chr 13) then newline else c) stderr)).
Definition _dropped_count (stderr : string) : outcome PyExc (option Z) := matched_count (re_search DROPPED_COUNT_PATTERN stderr).

Definition _dumpcap_error_message (r : ToolResult) : string :=
  match r.(result_error) with
  | None => "dumpcap capture failed"
  | Some e => match e.(tool_error_code) with
              | PERMISSION_DENIED => "Packet capture denied: dumpcap needs the wireshark group in this service session"
              | MISSING_BINARY => "Packet capture denied: dumpcap is not available"
              | _ => e.(tool_error_message)
              end
  end.

(** The code of the tool's error, and its standard error, as details. *)
Definition tool_details (r : ToolResult) : dict :=
  [("tool_error", py_opt_str ((fun e => ToolErrorCode_value e.(tool_error_code)) <$> r.(result_error)));
   ("exit_code", py_opt_int r.(exit_code)); ("stderr", PStr r.(stderr))].
Definition tool_retryable (r : ToolResult) : bool :=
  match r.(result_error) with Some e => e.(tool_error_retryable) | None => false end.

(** How a run of dumpcap ended. *)
Definition capture_outcome (r : ToolResult) (exists_pcap : bool) : CaptureStatus * list PipelineError :=
  if r.(result_cancelled) then
    (CAPTURE_CANCELLED, [mkPipelineError PIPELINE_CANCELLED "capture" "Packet capture was cancelled" false []])
  else if negb r.(success) then
    (CAPTURE_FAILED_STATUS,
     [mkPipelineError CAPTURE_FAILED "capture" (_dumpcap_error_message r) (tool_retryable r) (tool_details r)])
  else if negb exists_pcap then
    (CAPTURE_FAILED_STATUS,
     [mkPipelineError CAPTURE_FAILED "capture" "dumpcap completed without producing a pcap" false []])
  else (CAPTURE_COMPLETED, []).

(** [path.parent] of an absolute path *)
Definition parent_path (path : string) : string := join "/" (removelast (split_on Ip.slash path)).
Definition base_name (path : string) : string := List.last (split_on Ip.slash path) EmptyString.

Definition EK_PROTOCOL_SELECTION : string :=
  "frame eth vlan ieee8021ad llc arp dhcp lldp cdp stp ip ipv6 icmpv6 udp dhcpv6 dns mdns llmnr nbns ssdp http".

Definition parser_failure (e : ActiveExc) : PipelineError :=
  mkPipelineError DECODE_FAILED "passive_parser" ("Unexpected passive decode failure: " +:+ active_exc_text e) false [].

(** The registered sensors when there is nothing to look at. *)
Definition _unavailable_sensors (errors : list PipelineError) : list (string * SensorResult) :=
  let fallback := match errors with
                  | [] => [mkPipelineError CAPTURE_FAILED "capture" "Packet capture is unavailable" false []]
                  | _ => errors
                  end in
  List.map (fun entry => (entry.1, mkSensorResult entry.1 SENSOR_ERROR 0 [] [] [] fallback)) PASSIVE_SENSORS.

Section passive.
Context `{Runtime, FileSystem, ToolHost, ScanHost, TempNames}.
Context (settings : PassiveSettings) (vendors : OuiResolver).
(** [json.loads] of a text and of a file; what the timestamps need of [datetime] and [float]. *)
Context (json_loads : string → string + pyval) (json_loads_file : bytes → string + pyval).
Context (fromisoformat : string → option datetime) (float_of : pyval → outcome PyExc float).
Context (fromtimestamp : float → outcome PyExc datetime).
(** The directory of the evidence store, and the job. *)
Context (evidence_root : list string) (audit_id job_id : string).

(** ** Capturing ([providers/capture.py]) *)

(** The next name of [tempfile]. *)
Definition next_temp_name : AM string := reads (fun w => temp_name (length w.(scans))).
Definition host_command (c : ToolCommand) : AM ToolCommand := on_site (pure (build_tool_command c)).

Definition _create_capture_directory : AM string :=
  _ ← io_step;
  name ← next_temp_name;
  _ ← io_step; _ ← io_step;
  mret (settings.(capture_dir) +:+ "/wirescope_" +:+ name).

Definition _validate_duration (seconds : Z) : AM unit :=
  if (settings.(passive_duration_min) <=? seconds) && (seconds <=? settings.(passive_duration_max)) then mret tt
  else raise (ActivePyExc (PyValueError ("Passive duration must be between " +:+ str_int settings.(passive_duration_min) +:+
                " and " +:+ str_int settings.(passive_duration_max) +:+ " seconds"))).

Definition dumpcap_args (interface : string) (seconds : Z) (pcap : string) : list string :=
  ["-i"; interface] ++ (if settings.(capture_promiscuous) then [] else ["-p"]) ++
  ["-s"; str_int settings.(capture_snaplen); "-a"; "duration:" +:+ str_int seconds; "-c"; str_int settings.(capture_max_packets);
   "-a"; "filesize:" +:+ str_int settings.(capture_max_filesize_kb); "-w"; pcap; "-q"].

(** [shutil.rmtree(directory)]: a call for each file; the first that fails ends it. *)
Definition remove_directory (directory : string) : AM unit :=
  paths ← reads (fun w => List.filter (fun p => startswith p (directory +:+ "/")) (map_to_list w.(runtime_files)).*1);
  _ ← for_each unlink_runtime_file paths;
  io_step.

Definition cleanup_failed (message : string) : PipelineError :=
  mkPipelineError CLEANUP_FAILED "capture" ("Could not remove temporary capture: " +:+ message) false [].

(** What is left of the capture, and the errors of removing it. *)
Definition cleanup (c : CaptureResult) (force : bool) : AM (CaptureResult * list PipelineError) :=
  match c.(pcap_path) with
  | Some (String x s) =>
      if c.(retained) && negb force then mret (c, [])
      else
        let parent := parent_path (String x s) in
        try_except
          (if String.eqb (parent_path parent) settings.(capture_dir) then
             _ ← remove_directory parent; mret (c <| pcap_path := None |> <| retained := false |>, [])
           else raise (ActivePyExc (PyValueError "capture path is outside the managed root")))
          (fun e => mret (c, [cleanup_failed (active_exc_text e)]))
  | _ => mret (c, [])
  end.

Definition capture_result (interface pcap directory : string) (retain : bool) (r : ToolResult)
    (ended : CaptureStatus * list PipelineError) (frames dropped : option Z) : CaptureResult :=
  mkCapture interface ended.1 r.(started_at) r.(finished_at) r.(duration) frames dropped (Some pcap)
    (Some ("capture:" +:+ base_name directory +:+ "/capture.pcap")) retain
    (match dropped with
     | Some n => if n =? 0 then [] else ["dumpcap reported " +:+ str_int n +:+ " dropped packets"]
     | None => []
     end) ended.2 r.

Definition capture (interface : string) (seconds : Z) (retain : bool) : AM CaptureResult :=
  _ ← _validate_duration seconds;
  directory ← _create_capture_directory;
  let pcap := directory +:+ "/capture.pcap" in
  command ← host_command (mkCommand settings.(dumpcap_binary) (dumpcap_args interface seconds pcap) (seconds + 15)
                            [("LC_ALL", "C")] []);
  result ← run_scan command;
  written ← reads (fun w => bool_decide (is_Some (w.(runtime_files) !! pcap)));
  let ended := capture_outcome result written in
  frames ← py_pure (_packet_count result.(stderr));
  dropped ← py_pure (_dropped_count result.(stderr));
  let c := capture_result interface pcap directory retain result ended frames dropped in
  if bool_decide (c.(capture_status) = CAPTURE_COMPLETED) then mret c
  else '(c, _) ← cleanup c true; mret c.

(** ** Decoding ([parsers/passive.py]) *)

Definition tshark_args (pcap : string) : list string := ["-r"; pcap; "-n"; "-l"; "-T"; "ek"; "-J"; EK_PROTOCOL_SELECTION].

Definition decode_error (r : ToolResult) : PipelineError :=
  mkPipelineError (if r.(result_cancelled) then PIPELINE_CANCELLED else DECODE_FAILED) "passive_parser"
    (match r.(result_error) with Some e => e.(tool_error_message) | None => "tshark decode failed" end)
    (tool_retryable r) (tool_details r).

(** [try: m finally: cleanup], the clean-up keeping its failures to itself. *)
Definition and_then {A} (m : AM A) (after : AM unit) : AM A := fun w =>
  let '(r, w1) := m w in let '(_, w2) := after w1 in (r, w2).

Definition decode (pcap : string) : AM PacketDataset :=
  _ ← io_step;
  name ← next_temp_name;
  let output := parent_path pcap +:+ "/decode_" +:+ name +:+ ".ek.jsonl" in
  _ ← put_runtime_file output EmptyString;
  _ ← io_step;
  and_then
    (_ ← io_step;
     command ← host_command (mkCommand settings.(tshark_binary) (tshark_args pcap) (Z.max 30 settings.(passive_duration_max))
                               [("LC_ALL", "C")] []);
     result ← run_scan command;
     if negb result.(success) then
       mret (mkDataset [] [decode_error result] result (Some ("decode:" +:+ base_name pcap)))
     else
       _ ← io_step;
       text ← reads (fun w => default EmptyString (w.(runtime_files) !! output));
       '(packets, errors) ← py_pure (parse_ek_stream json_loads fromisoformat float_of fromtimestamp (file_lines text));
       mret (mkDataset packets errors result (Some ("decode:" +:+ base_name pcap))))
    (unlink_runtime_file output).

(** ** The pipeline ([engine/passive.py]) *)

(** How often a tool was run. *)
Definition invocations (tool_name : string) (w : ActiveWorld) : Z :=
  Z.of_nat (length (List.filter (fun c => String.eqb c.(tool) tool_name) w.(act_site).(site_runs))).

Definition passive_progress (p : Z) (stage message : string) : AM unit := on_site (_progress p stage message).

Definition passive_result (i : InterfaceInfo) (seconds : Z) (c : CaptureResult) (sensors : list (string * SensorResult))
    (a : PassiveAssessment) (errors : list PipelineError) (before : Z * Z) : AM PassiveResult :=
  captures ← reads (invocations settings.(dumpcap_binary));
  decodes ← reads (invocations settings.(tshark_binary));
  mret (mkPassiveResult i.(iface_name) i.(iface_ipv4) i.(iface_ipv6) seconds c sensors a errors
          (Z.max 0 (captures - before.1)) (Z.max 0 (decodes - before.2))).

Definition decode_packets (pcap : string) : AM PacketDataset :=
  _ ← passive_progress 60 "parsing_packets" "Parsing captured packets"; decode pcap.

(** Decoding and the sensors; whatever fails here is an error of the parser. *)
Definition observe (pcap : string) (c : CaptureResult) (errors : list PipelineError)
    : AM (CaptureResult * list PipelineError * list (string * SensorResult)) := fun w =>
  let '(r, w1) := decode_packets pcap w in
  match r with
  | Return dataset =>
      let c' := c <| frame_count := Some (Z.of_nat (length dataset.(packets))) |> in
      let errors' := errors ++ dataset.(dataset_errors) in
      match passive_progress 85 "running_sensors" "Running passive sensors" w1 with
      | (Return _, w2) => (Return (c', errors', run_passive_sensors dataset), w2)
      | (Raise e, w2) => (Return (c', errors' ++ [parser_failure e], _unavailable_sensors [parser_failure e]), w2)
      end
  | Raise e => (Return (c, errors ++ [parser_failure e], _unavailable_sensors [parser_failure e]), w1)
  end.

(** What is in the capture, and what to make of it. *)
Definition examine (pcap : string) (c : CaptureResult)
    : AM (CaptureResult * list PipelineError * list (string * SensorResult) * PassiveAssessment) :=
  '(c, errors, sensors) ← observe pcap c c.(capture_errors);
  _ ← passive_progress 95 "building_assessment" "Building assessment";
  a ← py_pure (build_assessment c sensors);
  mret (c, errors, sensors, a).

(** Removing the capture, unless it is to be kept. *)
Definition tidy (c : CaptureResult) (retain : bool) : AM (option CaptureResult * list PipelineError) :=
  if retain then mret (None, []) else '(removed, errors) ← cleanup c false; mret (Some removed, errors).

(** The capture after it was removed. *)
Definition as_removed (c : CaptureResult) (removed : option CaptureResult) : CaptureResult :=
  match removed with
  | Some d => c <| pcap_path := d.(pcap_path) |> <| retained := d.(retained) |>
  | None => c
  end.

(** [run]: the capture is removed, however the assessment ends, unless it is to be kept. *)
Definition run_pipeline (name : string) (seconds : Z) (retain : bool) : AM PassiveResult :=
  _ ← passive_progress 5 "preparing_interface" "Preparing interface";
  interface ← validate_interface settings.(passive_interfaces) json_loads name;
  before ← reads (fun w => (invocations settings.(dumpcap_binary) w, invocations settings.(tshark_binary) w));
  _ ← passive_progress 10 "capturing" "Starting packet capture";
  c ← capture interface.(iface_name) seconds retain;
  _ ← passive_progress 50 "capture_complete" "Packet capture complete";
  match c.(capture_status), c.(pcap_path) with
  | CAPTURE_COMPLETED, Some (String x s) =>
      (fun w =>
         let '(r, w1) := examine (String x s) c w in
         match tidy c retain w1 with
         | (Return (removed, cleanup_errors), w2) =>
             match r with
             | Return (c, errors, sensors, a) =>
                 passive_result interface seconds (as_removed c removed) sensors a (errors ++ cleanup_errors) before w2
             | Raise e => (Raise e, w2)
             end
         | (Raise e, w2) => (Raise e, w2)
         end) : AM PassiveResult
  | _, _ =>
      let sensors := _unavailable_sensors c.(capture_errors) in
      _ ← passive_progress 95 "building_assessment" "Building partial assessment";
      a ← py_pure (build_assessment c sensors);
      passive_result interface seconds c sensors a c.(capture_errors) before
  end.

(** ** The job ([jobs/handlers/passive.py]) *)

Definition passive_cancelled : ActiveExc := FromSite (FromProbe (JobCancelled "Passive discovery cancelled")).

Definition passive_category (tool_error : option ToolErrorCode) : ErrorCategory :=
  match tool_error with
  | Some MISSING_BINARY => TOOL_MISSING
  | Some PERMISSION_DENIED => PERMISSION
  | Some TOOL_TIMEOUT => TIMEOUT
  | _ => INTERNAL
  end.

Definition _pipeline_error (r : PassiveResult) : ActiveExc :=
  let code := tool_error_code <$> r.(passive_capture).(capture_tool_result).(result_error) in
  let details := [("tool_error", py_opt_str (ToolErrorCode_value <$> code))] in
  match r.(passive_errors) with
  | e :: _ => job_error (mkJobError (PipelineErrorCode_value e.(pipeline_code)) (passive_category code) e.(pipeline_message)
                           e.(pipeline_component) e.(pipeline_retryable) details)
  | [] => job_error (mkJobError "passive_discovery_failed" (passive_category code) "Passive discovery failed" "passive_handler"
                       false details)
  end.

Definition _cleanup_retained_capture (r : PassiveResult) : AM PassiveResult :=
  '(c, _) ← cleanup r.(passive_capture) true;
  mret (mkPassiveResult r.(passive_interface) r.(passive_ipv4) r.(passive_ipv6) r.(requested_duration) c
          r.(passive_sensor_results) r.(passive_assessment) r.(passive_errors) r.(capture_subprocesses) r.(decode_subprocesses)).

Definition undecoded (e : PipelineError) : bool :=
  bool_decide (e.(pipeline_code) = DECODE_FAILED ∨ e.(pipeline_code) = MALFORMED_INPUT).

(** [int(item) for item in ... if str(item).lstrip("-").isdigit()] *)
Fixpoint vlan_numbers (items : list pyval) : outcome PyExc (list Z) :=
  match items with
  | [] => Return []
  | item :: items =>
      if decimal (lstrip_by (fun c => Ascii.eqb c (chr 45)) (py_str item)) then
        n ← py_int item; ns ← vlan_numbers items; Return (n :: ns)
      else vlan_numbers items
  end.

(** [int((sensor.summary or {}).get(key) or 0) if sensor else 0] *)
Definition summary_count (result : option SensorResult) (key : string) : outcome PyExc Z :=
  match result with
  | Some r => py_int (por (get r.(sensor_summary) key) (PInt 0))
  | None => Return 0
  end.

Definition _summary (r : PassiveResult) (reference : string) (hosts_persisted : Z) : outcome PyExc dict :=
  let layer2 := r.(passive_assessment).(layer2) in
  tagged ← (items ← py_list (por (get layer2 "tagged_vlans_observed") (PList [])); vlan_numbers items);
  let untagged := truthy (get layer2 "untagged_traffic_observed") in
  neighbors ← (items ← py_list (por (get layer2 "neighbors") (PList [])); compact_neighbors items);
  let frames := r.(passive_capture).(frame_count) in
  let status := segment_status frames tagged untagged in
  arp_hosts ← summary_count (dict_get r.(passive_sensor_results) "arp") "unique_ipv4_hosts";
  servers ← summary_count (dict_get r.(passive_sensor_results) "dhcpv4") "server_count";
  Return [("schema", PStr "passive-summary"); ("schema_version", PInt 1); ("result_reference", PStr reference);
          ("interface", PStr r.(passive_interface)); ("interface_ipv4", py_texts r.(passive_ipv4));
          ("interface_ipv6", py_texts r.(passive_ipv6));
          ("had_l3_address", PBool (had_l3_address r.(passive_ipv4) r.(passive_ipv6))); ("frame_count", py_opt_int frames);
          ("duration_seconds", PInt r.(passive_capture).(capture_duration)); ("hosts_persisted", PInt hosts_persisted);
          ("visibility", r.(passive_assessment).(visibility).(concluded)); ("tagged_vlan_ids", PList (List.map PInt tagged));
          ("untagged_traffic_observed", PBool untagged); ("segment_status", PStr status);
          ("segment_note", PStr (segment_note status tagged frames)); ("neighbors", PList neighbors);
          ("arp_hosts", PInt arp_hosts); ("dhcp_server_count", PInt servers);
          ("detected_sensors", py_texts (sort_by str_le (List.map fst (List.filter (fun kv => detected kv.2) r.(passive_sensor_results)))));
          ("warning_count", PInt (Z.of_nat (length r.(passive_capture).(capture_warnings))));
          ("error_count", PInt (Z.of_nat (length r.(passive_errors))))].

(** [ingest_passive_from_audit]: the newest passive result is read and taken in. *)
Definition newest_passive (i : InvWorld) : option ArtifactModel :=
  head (sort_by (fun a b => b.(artifact_created_at) <=? a.(artifact_created_at))
    (rows_of i.(audit_artifacts) (fun a => String.eqb a.(artifact_audit_id) audit_id &&
                                           String.eqb a.(artifact_type) "passive_result"))).
Definition read_passive (a : ArtifactModel) : SM (outcome InvExc pyval) := fun s =>
  match on_evidence (read_json json_loads_file evidence_root a) s with
  | (Return d, s') => (Return (Return (PDict d)), s')
  | (Raise (FromEvidence (StorageError e)), s') => (Return (Raise (Inventory.JobExecutionError e.(err_code))), s')
  | (Raise e, s') => (Raise e, s')
  end.
Definition ingest_passive_result : AM Z :=
  found ← on_site (reads (fun s => newest_passive s.(site_inventory)));
  document ← match found with
             | Some a => on_site (read_passive a)
             | None => mret (Raise (InvLookupError EmptyString))
             end;
  on_site (on_inventory (ingest_passive_from_audit vendors (Some (fun _ => document)) audit_id (Some job_id))).

Definition passive_document (r : PassiveResult) (references : list string) : dict :=
  [("schema", PStr "passive-result"); ("schema_version", PInt 1); ("audit_id", PStr audit_id); ("job_id", PStr job_id);
   ("artifacts", py_texts references); ("result", PDict (passive_result_dump r))].

(** A capture that is to be kept becomes evidence, and is then removed. *)
Definition keep_capture (r : PassiveResult) : AM (PassiveResult * list string) :=
  match r.(passive_capture).(pcap_path) with
  | Some (String x s) =>
      if settings.(passive_retain_capture) then
        content ← reads (fun w => w.(runtime_files) !! String x s);
        artifact ← on_site (on_evidence (import_file audit_id (Some job_id) "packet_capture" (encode <$> content)
                     "application/vnd.tcpdump.pcap" ".pcap" RETENTION_AUDIT));
        r ← _cleanup_retained_capture r;
        mret (r, [artifact.(artifact_id)])
      else mret (r, [])
  | _ => mret (r, [])
  end.

Definition execute_passive (parameters : dict) (target : option string) : AM (string * dict) :=
  let interface := py_str (por (por (get parameters "interface") (py_opt_str target)) (PStr EmptyString)) in
  seconds ← py_pure (py_int (default (PInt settings.(passive_duration_default)) (dict_get parameters "duration_seconds")));
  r ← run_pipeline interface seconds settings.(passive_retain_capture);
  stopped ← on_site token_cancelled;
  if (stopped : bool) || bool_decide (r.(passive_capture).(capture_status) = CAPTURE_CANCELLED) then
    _ ← _cleanup_retained_capture r; raise passive_cancelled
  else if bool_decide (r.(passive_capture).(capture_status) = CAPTURE_FAILED_STATUS) || existsb undecoded r.(passive_errors) then
    _ ← _cleanup_retained_capture r; raise (_pipeline_error r)
  else
    '(r, references) ← keep_capture r;
    artifact ← on_site (on_evidence (put_json audit_id (Some job_id) "passive_result" (passive_document r references)
                          RETENTION_AUDIT "passive-result" 1));
    hosts ← ingest_passive_result;
    summary ← py_pure (_summary r artifact.(artifact_id) hosts);
    mret (artifact.(artifact_id), summary).
End passive.
