(* ===== verification/PassiveTheorems.v ===== *)
(** * What passive discovery promises

    The database is kept, no capture is left behind, the assessment follows from what the
    sensors saw, and the result of a job says what its packets said. *)

From S2P Require Import Prelude PyBase PyText JobModels JobStore FindModels FindDates Sha256 Ip ScopeEngine InventoryBase Inventory InventoryIngest InventoryQueries InventoryInvariant InventoryProofs InventorySystem InventoryTheorems Regex RegexProofs ProbeModels ProbeTargets ProbeParsers Evidence EvidenceProofs EvidenceTheorems ProbeStore NmapProgress NmapTheorems ProbeRun Routes ActiveRun ProbeTargetsProofs ProbeRunProofs PassiveModels Sensors ActiveProofs ActiveTheorems SensorTheorems PassiveDecode PassiveRun.

(** ** The database *)

Section database.
Context `{Runtime, FileSystem, ToolHost, ScanHost, TempNames} `{!RuntimeOk, !PlainIds}.
Context (settings : PassiveSettings) (vendors : OuiResolver).
Context (json_loads : string → string + pyval) (json_loads_file : bytes → string + pyval).
Context (fromisoformat : string → option datetime) (float_of : pyval → outcome PyExc float).
Context (fromtimestamp : float → outcome PyExc datetime).
Context (evidence_root : list string) (audit_id job_id : string).

#[local] Abbreviation keeps_db := (keeps_site audit_id job_id).
#[local] Hint Resolve kept_io kept_run kept_pure kept_reading kept_report_progress kept_json kept_unlink kept_scan : along.

Lemma kept_capture_file path text : along keeps_db (put_runtime_file path text).
Proof. by apply elsewhere_kept. Qed.
Lemma kept_passive_progress p stage message : along keeps_db (passive_progress p stage message).
Proof. apply kept_report_progress. Qed.
Lemma kept_tool c : along keeps_db (host_command c).
Proof. apply kept_pure. Qed.
#[local] Hint Resolve kept_capture_file kept_passive_progress kept_tool : along.

Lemma kept_interface name : along keeps_db (validate_interface settings.(passive_interfaces) json_loads name).
Proof.
  assert (∀ arguments, along keeps_db (run_ip arguments)) as Hip by (intros; apply kept_run).
  unfold validate_interface, discover, _default_route_info. along_prog.
Qed.
Lemma kept_cleanup c force : along keeps_db (cleanup settings c force).
Proof. unfold cleanup, remove_directory. along_prog. Qed.
#[local] Hint Resolve kept_interface kept_cleanup : along.

Lemma kept_capture interface seconds retain : along keeps_db (capture settings interface seconds retain).
Proof. unfold capture, _validate_duration, _create_capture_directory, next_temp_name. along_prog. Qed.

Lemma along_and_then {A} (m : AM A) after : along keeps_db m → along keeps_db after → along keeps_db (and_then m after).
Proof.
  intros Hm Ha w. unfold and_then. specialize (Hm w). destruct (m w) as [r w1]. specialize (Ha w1).
  destruct (after w1) as [r' w2]. cbn in *. by etrans.
Qed.
Lemma kept_decode pcap : along keeps_db (decode settings json_loads fromisoformat float_of fromtimestamp pcap).
Proof.
  unfold decode, next_temp_name. along_prog. apply along_and_then; along_prog.
Qed.
#[local] Hint Resolve kept_capture kept_decode : along.

Lemma kept_decode_packets pcap : along keeps_db (decode_packets settings json_loads fromisoformat float_of fromtimestamp pcap).
Proof. unfold decode_packets. along_prog. Qed.
Lemma kept_observe pcap c errors :
  along keeps_db (observe settings json_loads fromisoformat float_of fromtimestamp pcap c errors).
Proof.
  intros w. unfold observe. pose proof (kept_decode_packets pcap w) as Hm.
  destruct (decode_packets _ _ _ _ _ pcap w) as [[d|e] w1]; [|exact Hm].
  pose proof (kept_passive_progress 85 "running_sensors" "Running passive sensors" w1) as Hp.
  destruct (passive_progress _ _ _ w1) as [[u|e] w2]; cbn in *; by etrans.
Qed.
#[local] Hint Resolve kept_observe : along.

Lemma kept_result i seconds c sensors a errors before :
  along keeps_db (passive_result settings i seconds c sensors a errors before).
Proof. unfold passive_result. along_prog. Qed.
Lemma kept_examine pcap c : along keeps_db (examine settings json_loads fromisoformat float_of fromtimestamp pcap c).
Proof. unfold examine. along_prog. Qed.
Lemma kept_tidy c retain : along keeps_db (tidy settings c retain).
Proof. unfold tidy. along_prog. Qed.
#[local] Hint Resolve kept_result : along.

Lemma kept_pipeline name seconds retain :
  along keeps_db (run_pipeline settings json_loads fromisoformat float_of fromtimestamp name seconds retain).
Proof.
  unfold run_pipeline. apply along_bind; [apply _|along_prog|intros _]. apply along_bind; [apply _|along_prog|intros i].
  do 2 (apply along_bind; [apply _|along_prog|intros ?]). apply along_bind; [apply _|along_prog|intros c].
  apply along_bind; [apply _|along_prog|intros _].
  destruct c.(capture_status); [|along_prog..]. destruct c.(pcap_path) as [[|x s]|]; [along_prog| |along_prog].
  intros w. pose proof (kept_examine (String x s) c w) as He. destruct (examine _ _ _ _ _ _ c w) as [r w1].
  pose proof (kept_tidy c retain w1) as Ht. destruct (tidy _ c retain w1) as [[[removed cleanup_errors]|e] w2]; cbn in *; [|by etrans].
  destruct r as [[[[c' errors] sensors] a']|e]; cbn; [|by etrans]. etrans; [by etrans|apply kept_result].
Qed.
#[local] Hint Resolve kept_pipeline : along.

Lemma kept_read_passive a : along keeps_db (on_site (read_passive json_loads_file evidence_root a)).
Proof.
  apply site_kept. intros s. unfold read_passive.
  assert (along kept (on_evidence (read_json json_loads_file evidence_root a))) as Hr.
  { apply kept_quiet_evidence. unfold read_json, read_bytes, path_for. keeps_prog. apply keeps_read. }
  specialize (Hr s). by destruct (on_evidence _ s) as [[d|[e|[]|e]] s'].
Qed.
Lemma kept_take_in document :
  along keeps_db (on_site (on_inventory (ingest_passive_from_audit vendors (Some (fun _ => document)) audit_id (Some job_id)))).
Proof. apply kept_passive. Qed.
Lemma kept_pcap_import source : along keeps_db (on_site (on_evidence
  (import_file audit_id (Some job_id) "packet_capture" source "application/vnd.tcpdump.pcap" ".pcap" RETENTION_AUDIT))).
Proof. by apply site_kept, kept_import. Qed.
Lemma kept_site_reads {A} (f : Site → A) : along keeps_db (on_site (reads f)).
Proof. apply site_kept, along_reads, _. Qed.
#[local] Hint Resolve kept_read_passive kept_take_in kept_pcap_import kept_site_reads : along.

Lemma kept_ingest_result : along keeps_db (ingest_passive_result vendors json_loads_file evidence_root audit_id job_id).
Proof.
  unfold ingest_passive_result. along_prog.
Qed.
Lemma kept_retained r : along keeps_db (_cleanup_retained_capture settings r).
Proof. unfold _cleanup_retained_capture. along_prog. Qed.
#[local] Hint Resolve kept_ingest_result kept_retained : along.
Lemma kept_capture_evidence r : along keeps_db (keep_capture settings audit_id job_id r).
Proof. unfold keep_capture. along_prog. Qed.
#[local] Hint Resolve kept_capture_evidence : along.

End database.

(** ** No capture is left behind *)

Lemma join_split x s : join (String x EmptyString) (split_on x s) = s.
Proof.
  induction s as [|c s IH]; [done|]. cbn [split_on]. pose proof (split_on_nonempty x s) as Hne.
  destruct (Ascii.eqb_spec c x) as [->|]; destruct (split_on x s) as [|v [|v' vs]] eqn:E; try done;
    first [exact (f_equal (String x) IH) | exact (f_equal (String c) IH)].
Qed.

Lemma split_on_end x a b : without x b = true → split_on x (a +:+ String x b) = split_on x a ++ [b].
Proof.
  intros Hb. induction a as [|c a IH].
  - change (EmptyString +:+ String x b) with (String x b). cbn [split_on app]. by rewrite Ascii.eqb_refl, split_on_last.
  - rewrite app_cons_string. cbn [split_on]. destruct (Ascii.eqb c x); [by rewrite IH|]. rewrite IH. pose proof (split_on_nonempty x a).
    by destruct (split_on x a).
Qed.

Lemma parent_path_of a b : without Ip.slash b = true → parent_path (a +:+ "/" +:+ b) = a.
Proof.
  intros Hb. unfold parent_path. change (a +:+ "/" +:+ b) with (a +:+ String Ip.slash b).
  rewrite split_on_end by done. rewrite removelast_last. apply (join_split Ip.slash).
Qed.

(** *** The counts dumpcap prints *)

Lemma str_map_length f s : String.length (str_map f s) = String.length s.
Proof. induction s as [|c s IH]; cbn; [done|]. by rewrite IH. Qed.

Lemma last_match_match r s m : last_match r s = Some m →
  ∃ t q, (String.length t <= String.length s)%nat ∧ match_with r done (mkPos None t) [] = Some (q, m).
Proof.
  induction s as [|c s IH]; cbn [last_match].
  - unfold re_match. destruct (match_with _ _ _ _) as [[q d]|] eqn:E; [|done]. intros [= <-]. by exists EmptyString, q.
  - destruct (last_match r s) as [d|]; [intros [= <-]; destruct (IH eq_refl) as (t & q & ? & ?); exists t, q; cbn; split; [lia|done]|].
    unfold re_match. destruct (match_with _ _ _ _) as [[q d]|] eqn:E; [|done]. intros [= <-]. by exists (String c s), q.
Qed.

Lemma kept_digits_return s : str_all is_digit s = true ∧ nonempty s = true → (String.length s <= 4300)%nat →
  ∃ n, int_of_kept_digits s = Return n.
Proof. intros [H1 H2] H3. unfold int_of_kept_digits. destruct (int_of_str_digits s H1 H2 H3) as (n & ->). by exists n. Qed.

Lemma counts_return text : (String.length text <= 4300)%nat → ∃ n m, _packet_count text = Return n ∧ _dropped_count text = Return m.
Proof.
  intros Hlen. unfold _packet_count, _dropped_count.
  assert (∀ a, (1%nat, a) ∈ [(1%nat, RPlus R_digit)] → accepts a (fun u => str_all is_digit u = true ∧ nonempty u = true)) as Ha
    by (intros a [= ->]%list_elem_of_singleton; apply accepts_class_plus).
  assert (∃ n, matched_count (last_match PACKET_COUNT_PATTERN
    (str_map (fun c => if Ascii.eqb c (chr 13) then newline else c) text)) = Return n) as [n Hn].
  { destruct (last_match _ _) as [m|] eqn:E; [|by exists None]. apply last_match_match in E as (t & q & Ht & E).
    rewrite str_map_length in Ht.
    apply (match_group_spec _ 1 _ _ _ (fun u => str_all is_digit u = true ∧ nonempty u = true)) in E as [Hd Hl]; [|done|exact Ha].
    cbn in Hl. destruct (kept_digits_return _ Hd) as [n Hn]; [lia|]. exists (Some n). cbn. by rewrite Hn. }
  assert (∃ m, matched_count (re_search DROPPED_COUNT_PATTERN text) = Return m) as [m Hm].
  { destruct (re_search _ _) as [m|] eqn:E; [|by exists None].
    apply (search_group_spec _ 1 _ _ (fun u => str_all is_digit u = true ∧ nonempty u = true)) in E as [Hd Hl]; [|done|exact Ha].
    destruct (kept_digits_return _ Hd) as [n' Hn']; [lia|]. exists (Some n'). cbn. by rewrite Hn'. }
  by exists n, m.
Qed.

(** A program whose first part returns. *)
Lemma then_run {S E A B} (m : prog S E A) (k : A → prog S E B) s a s1 : m s = (Return a, s1) → (m ≫= k) s = k a s1.
Proof. unfold mbind, prog_bind. by intros ->. Qed.

Section captures.
Context `{Runtime, FileSystem, ToolHost, ScanHost, TempNames}.
Context (settings : PassiveSettings) (vendors : OuiResolver).
Context (json_loads : string → string + pyval) (json_loads_file : bytes → string + pyval).
Context (fromisoformat : string → option datetime) (float_of : pyval → outcome PyExc float).
Context (fromtimestamp : float → outcome PyExc datetime).
Context (evidence_root : list string) (audit_id job_id : string).
(** The file system works, and names of [tempfile] are names. *)
Context (faultless : ∀ n, io_fault n = None) (plain_names : ∀ n, without Ip.slash (temp_name n) = true).

(** The directory of a capture that is made after so many scans; no file is in it. *)
Definition directory (n : nat) : string := settings.(capture_dir) +:+ "/wirescope_" +:+ temp_name n.
Definition empty_dir (d : string) (w : ActiveWorld) : Prop :=
  ∀ p, startswith p (d +:+ "/") = true → w.(runtime_files) !! p = None.

Lemma quiet_empty d w w' : quiet w w' → empty_dir d w → empty_dir d w'.
Proof. intros [_ E] Hd p. rewrite E. apply Hd. Qed.

Lemma io_step_ok w : ∃ w', io_step w = (Return tt, w') ∧ quiet w w'.
Proof. eexists. unfold io_step, on_site, on_evidence, on_part, io_nothing, io_plain, io_call. cbn. by rewrite faultless. Qed.

Lemma unlink_ok path w : ∃ w', unlink_runtime_file path w = (Return tt, w') ∧ w'.(runtime_files) = delete path w.(runtime_files) ∧
  w'.(scans) = w.(scans).
Proof.
  unfold unlink_runtime_file. destruct (io_step_ok w) as (w1 & E & Hs & Hf). rewrite (then_run _ _ _ _ _ E).
  eexists. split; [reflexivity|]. cbn. by rewrite Hs, Hf.
Qed.

Lemma unlink_all paths w : ∃ us w', for_each unlink_runtime_file paths w = (Return us, w') ∧ w'.(scans) = w.(scans) ∧
  ∀ p, w'.(runtime_files) !! p = if bool_decide (p ∈ paths) then None else w.(runtime_files) !! p.
Proof.
  revert w. induction paths as [|q paths IH]; intros w; [by exists [], w|]. cbn [for_each].
  destruct (unlink_ok q w) as (w1 & E & Hf & Hs). rewrite (then_run _ _ _ _ _ E).
  destruct (IH w1) as (us & w2 & E2 & Hs2 & Hf2). rewrite (then_run _ _ _ _ _ E2).
  eexists _, w2. split; [reflexivity|]. split; [congruence|]. intros p. rewrite Hf2, Hf.
  destruct (decide (p = q)) as [->|Hne]; [rewrite lookup_delete_eq; by repeat case_bool_decide; set_solver|].
  rewrite lookup_delete_ne by done. repeat case_bool_decide; set_solver.
Qed.

Lemma remove_directory_ok d w : ∃ w', remove_directory d w = (Return tt, w') ∧ empty_dir d w' ∧ w'.(scans) = w.(scans).
Proof.
  unfold remove_directory. cbn [mbind prog_bind reads].
  destruct (unlink_all (List.filter (fun p => startswith p (d +:+ "/")) (map_to_list w.(runtime_files)).*1) w)
    as (us & w1 & E & Hs & Hf).
  unfold mbind, prog_bind, reads. rewrite E. destruct (io_step_ok w1) as (w2 & E2 & Hq). rewrite E2.
  exists w2. split; [done|]. split; [|destruct Hq; congruence]. eapply quiet_empty; [exact Hq|]. intros p Hp. rewrite Hf.
  case_bool_decide as Hin; [done|]. apply eq_None_not_Some. intros [t Ht]. apply Hin.
  apply list_elem_of_In, filter_In. split; [|done]. apply list_elem_of_In, list_elem_of_fmap. exists (p, t).
  split; [done|]. by apply elem_of_map_to_list.
Qed.

Lemma capture_path_parts n : ∃ x s, directory n +:+ "/capture.pcap" = String x s ∧
  parent_path (String x s) = directory n ∧ parent_path (directory n) = settings.(capture_dir).
Proof.
  assert (parent_path (directory n +:+ "/capture.pcap") = directory n) as Hp.
  { change "/capture.pcap" with ("/" +:+ "capture.pcap"). by apply parent_path_of. }
  assert (parent_path (directory n) = settings.(capture_dir)) as Hd.
  { unfold directory. change ("/wirescope_" +:+ temp_name n) with ("/" +:+ ("wirescope_" +:+ temp_name n)).
    apply parent_path_of. rewrite without_app. by rewrite plain_names. }
  destruct (directory n +:+ "/capture.pcap") as [|x s] eqn:E; [|by exists x, s].
  unfold directory in E. by destruct settings.(capture_dir).
Qed.

Lemma cleanup_ok c force n w :
  c.(pcap_path) = Some (directory n +:+ "/capture.pcap") → c.(retained) && negb force = false →
  ∃ w', cleanup settings c force w = (Return (c <| pcap_path := None |> <| retained := false |>, []), w') ∧
        empty_dir (directory n) w' ∧ w'.(scans) = w.(scans).
Proof.
  intros Hp Hr. destruct (capture_path_parts n) as (x & s & E & Hd & Hroot). rewrite E in Hp. unfold cleanup.
  rewrite Hp, Hr, Hd, Hroot. cbv zeta. rewrite String.eqb_refl. unfold try_except.
  destruct (remove_directory_ok (directory n) w) as (w1 & E1 & Hc & Hs). rewrite (then_run _ _ _ _ _ E1). exists w1. done.
Qed.

Lemma create_ok w : ∃ w', _create_capture_directory settings w = (Return (directory (length w.(scans))), w') ∧ quiet w w'.
Proof.
  unfold _create_capture_directory, next_temp_name. destruct (io_step_ok w) as (w1 & E1 & Hq1). rewrite (then_run _ _ _ _ _ E1).
  rewrite (then_run (reads _) _ _ _ _ eq_refl).
  destruct (io_step_ok w1) as (w2 & E2 & Hq2). rewrite (then_run _ _ _ _ _ E2).
  destruct (io_step_ok w2) as (w3 & E3 & Hq3). rewrite (then_run _ _ _ _ _ E3).
  exists w3. unfold directory. destruct Hq1 as [Hs Hf]. rewrite <- Hs. split; [done|]. etrans; [|exact Hq3]. etrans; [|exact Hq2]. by split.
Qed.

Context (short_errors : ∀ n c, (String.length (tool_answer n c).(stderr) <= 4300)%nat).

Lemma scan_answers c w : ∃ r w', run_scan c w = (Return r, w') ∧ (String.length r.(stderr) <= 4300)%nat.
Proof. eexists _, _. split; [reflexivity|]. apply short_errors. Qed.

(** A capture that completes has its file in its directory; any other leaves nothing there. *)
Lemma capture_clear interface seconds retain w :
  empty_dir (directory (length w.(scans))) w →
  match capture settings interface seconds retain w with
  | (Return c, w') =>
      (c.(capture_status) = CAPTURE_COMPLETED ∧ c.(pcap_path) = Some (directory (length w.(scans)) +:+ "/capture.pcap") ∧
       c.(retained) = retain) ∨
      (c.(capture_status) ≠ CAPTURE_COMPLETED ∧ c.(pcap_path) = None ∧ empty_dir (directory (length w.(scans))) w')
  | (Raise _, w') => empty_dir (directory (length w.(scans))) w'
  end.
Proof.
  intros Hd. set (n := length w.(scans)) in *. unfold capture, _validate_duration. destruct (_ && _); [|exact Hd].
  rewrite bind_ret_l. destruct (create_ok w) as (w1 & E1 & Hq1). rewrite (then_run _ _ _ _ _ E1). cbv zeta. fold n.
  pose proof (quiet_site (pure (build_tool_command (mkCommand settings.(dumpcap_binary)
    (dumpcap_args settings interface seconds (directory n +:+ "/capture.pcap")) (seconds + 15) [("LC_ALL", "C")] []))) w1) as Hq2.
  fold (host_command (mkCommand settings.(dumpcap_binary)
    (dumpcap_args settings interface seconds (directory n +:+ "/capture.pcap")) (seconds + 15) [("LC_ALL", "C")] [])) in Hq2.
  unfold mbind at 1, prog_bind at 1. destruct (host_command _ w1) as [[command|e] w2]; cbn [snd] in Hq2.
  2: { eapply quiet_empty; [exact Hq2|]. by eapply quiet_empty. }
  destruct (scan_answers command w2) as (result & w3 & E3 & Hl). rewrite (then_run _ _ _ _ _ E3).
  rewrite (then_run (reads _) _ _ _ _ eq_refl).
  destruct (counts_return _ Hl) as (frames & dropped & -> & ->). cbn [py_pure]. rewrite !bind_ret_l.
  set (c := capture_result _ _ _ _ _ _ _ _). case_bool_decide as Hst; [by left|].
  destruct (cleanup_ok c true n w3) as (w4 & E4 & Hc & _); [done|apply andb_false_r|]. rewrite (then_run _ _ _ _ _ E4). by right.
Qed.

(** The progress of a passive job is within the limits of a progress message. *)
Lemma progress_returns p stage message w :
  JobProgress_valid (mkJobProgress p stage message) = true →
  ∃ w', passive_progress p stage message w = (Return tt, w') ∧ quiet w w'.
Proof. intros Hp. unfold passive_progress, _progress. cbv zeta. rewrite Hp. eexists. split; [reflexivity|]. by split. Qed.

(** What a program may do while the directory is empty, or until it is. *)
Lemma tidy_clear c n w :
  c.(pcap_path) = Some (directory n +:+ "/capture.pcap") → c.(retained) = false →
  ∃ d w', tidy settings c false w = (Return (Some d, []), w') ∧ d.(pcap_path) = None ∧ empty_dir (directory n) w'.
Proof.
  intros Hp Hr. unfold tidy. destruct (cleanup_ok c false n w) as (w' & E & Hc & _); [done|by rewrite Hr|].
  rewrite (then_run _ _ _ _ _ E). eexists _, w'. split; [reflexivity|]. by split.
Qed.

Lemma quiet_result i seconds c sensors a errors before : along quiet (passive_result settings i seconds c sensors a errors before).
Proof. unfold passive_result. along_prog. Qed.

Lemma quiet_interface name : along quiet (validate_interface settings.(passive_interfaces) json_loads name).
Proof.
  assert (∀ arguments, along quiet (run_ip arguments)) as Hip by (intros; apply quiet_site).
  unfold validate_interface, discover, _default_route_info. along_prog.
Qed.

Lemma passive_result_capture i seconds c sensors a errors before w : ∃ r w',
  passive_result settings i seconds c sensors a errors before w = (Return r, w') ∧ r.(passive_capture) = c ∧
  r.(passive_sensor_results) = sensors ∧ r.(passive_errors) = errors ∧ w' = w.
Proof. eexists _, _. split; [reflexivity|]. done. Qed.

(** What the pipeline reads from a capture: the dataset and its sensors, or why there is none. *)
Lemma observe_spec pcap c errors w :
  ∃ c' errors' sensors w', observe settings json_loads fromisoformat float_of fromtimestamp pcap c errors w =
    (Return (c', errors', sensors), w') ∧
  ((∃ dataset, (decode_packets settings json_loads fromisoformat float_of fromtimestamp pcap w).1 = Return dataset ∧
      c' = c <| frame_count := Some (Z.of_nat (length dataset.(packets))) |> ∧ errors' = errors ++ dataset.(dataset_errors) ∧
      sensors = run_passive_sensors dataset) ∨
   (∃ e, (decode_packets settings json_loads fromisoformat float_of fromtimestamp pcap w).1 = Raise e ∧ c' = c ∧
      errors' = errors ++ [parser_failure e] ∧ sensors = _unavailable_sensors [parser_failure e])).
Proof.
  unfold observe. destruct (decode_packets _ _ _ _ _ pcap w) as [[dataset|e] w1].
  - destruct (progress_returns 85 "running_sensors" "Running passive sensors" w1 eq_refl) as (w2 & E & _). rewrite E.
    do 4 eexists. split; [reflexivity|]. left. by exists dataset.
  - do 4 eexists. split; [reflexivity|]. right. by exists e.
Qed.

Lemma examine_spec pcap c w r w' :
  examine settings json_loads fromisoformat float_of fromtimestamp pcap c w = (r, w') →
  ∃ c' errors sensors,
    (r = match build_assessment c' sensors with Return a => Return (c', errors, sensors, a) | Raise e => Raise (ActivePyExc e) end) ∧
    c'.(pcap_path) = c.(pcap_path) ∧ c'.(retained) = c.(retained) ∧ c'.(capture_status) = c.(capture_status) ∧
    ((∃ dataset, (decode_packets settings json_loads fromisoformat float_of fromtimestamp pcap w).1 = Return dataset ∧
        c'.(frame_count) = Some (Z.of_nat (length dataset.(packets))) ∧ errors = c.(capture_errors) ++ dataset.(dataset_errors) ∧
        sensors = run_passive_sensors dataset) ∨
     (∃ e, errors = c.(capture_errors) ++ [parser_failure e] ∧ sensors = _unavailable_sensors [parser_failure e])).
Proof.
  unfold examine. destruct (observe_spec pcap c c.(capture_errors) w) as (c' & errors & sensors & w1 & E & Hcases).
  rewrite (then_run _ _ _ _ _ E).
  destruct (progress_returns 95 "building_assessment" "Building assessment" w1 eq_refl) as (w2 & E2 & _). rewrite (then_run _ _ _ _ _ E2).
  intros Hr. exists c', errors, sensors. split.
  { destruct (build_assessment c' sensors); cbn in Hr; by injection Hr as <- <-. }
  destruct Hcases as [(dataset & Hd & -> & -> & ->)|(e & Hd & -> & -> & ->)]; split_and!; try done; [left; by exists dataset|right; by exists e].
Qed.

Lemma pipeline_clear name seconds retain w :
  empty_dir (directory (length w.(scans))) w →
  match run_pipeline settings json_loads fromisoformat float_of fromtimestamp name seconds retain w with
  | (Return r, w') =>
      (r.(passive_capture).(pcap_path) = None ∧ empty_dir (directory (length w.(scans))) w') ∨
      (retain = true ∧ r.(passive_capture).(pcap_path) = Some (directory (length w.(scans)) +:+ "/capture.pcap"))
  | (Raise _, w') => empty_dir (directory (length w.(scans))) w' ∨ retain = true
  end.
Proof.
  intros Hd. unfold run_pipeline.
  destruct (progress_returns 5 "preparing_interface" "Preparing interface" w eq_refl) as (w1 & E1 & Hq1). rewrite (then_run _ _ _ _ _ E1).
  pose proof (quiet_interface name w1) as Hq2. unfold mbind at 1, prog_bind at 1.
  destruct (validate_interface _ _ name w1) as [[i|e] w2]; cbn [snd] in Hq2;
    [|left; eapply quiet_empty; [etrans; [exact Hq1|exact Hq2]|exact Hd]].
  rewrite (then_run (reads _) _ _ _ _ eq_refl).
  destruct (progress_returns 10 "capturing" "Starting packet capture" w2 eq_refl) as (w3 & E3 & Hq3). rewrite (then_run _ _ _ _ _ E3).
  assert (quiet w w3) as Hq by (by etrans; [|etrans]).
  assert (empty_dir (directory (length w3.(scans))) w3) as Hd3 by (destruct Hq as [E Hf]; rewrite E; eapply quiet_empty; [split; [exact E|exact Hf]|exact Hd]).
  pose proof (capture_clear i.(iface_name) seconds retain w3 Hd3) as Hc. destruct Hq as [Es _]. rewrite Es in Hc.
  unfold mbind at 1, prog_bind at 1. destruct (capture settings _ seconds retain w3) as [[c|e] w4]; [|by left].
  destruct (progress_returns 50 "capture_complete" "Packet capture complete" w4 eq_refl) as (w5 & E5 & Hq5). rewrite (then_run _ _ _ _ _ E5).
  destruct Hc as [(Hst & Hp & Hr)|(Hst & Hp & Hc)].
  - rewrite Hst, Hp. destruct (capture_path_parts (length w.(scans))) as (x & s & E & _ & _). rewrite E.
    destruct (examine _ _ _ _ _ _ c w5) as [r w6] eqn:E6. destruct (examine_spec _ _ _ _ _ E6) as (c' & errors & sensors & Hres & Hp' & Hr' & _).
    destruct retain.
    { cbn [tidy]. rewrite Hres. cbn [mret prog_ret]. destruct (build_assessment c' sensors); [|by right]. right.
      split; [done|]. cbn. by rewrite Hp', Hp, E. }
    destruct (tidy_clear c _ w6 Hp Hr) as (d & w7 & E7 & Hdp & Hc). rewrite E7.
    rewrite Hres. destruct (build_assessment c' sensors) as [a|e]; [|by left].
    destruct (passive_result_capture i seconds (as_removed c' (Some d)) sensors a (errors ++ []) (invocations settings.(dumpcap_binary) w2, invocations settings.(tshark_binary) w2) w7) as (r8 & w8 & E8 & Hcap & _ & _ & ->).
    rewrite E8. left. split; [by rewrite Hcap|done].
  - rewrite Hp. assert (empty_dir (directory (length w.(scans))) w5) as Hc5 by (by eapply quiet_empty).
    destruct (progress_returns 95 "building_assessment" "Building partial assessment" w5 eq_refl) as (w6 & E6 & Hq6).
    destruct c.(capture_status); [done| |]; rewrite (then_run _ _ _ _ _ E6); (destruct (build_assessment _ _); cbn [py_pure];
      [rewrite bind_ret_l; left; split; [done|]|left]; by eapply quiet_empty).
Qed.

(** Nothing is left, or the capture is still known. *)
Definition accounted (n : nat) (r : PassiveResult) (w : ActiveWorld) : Prop :=
  (r.(passive_capture).(pcap_path) = None ∧ empty_dir (directory n) w) ∨
  r.(passive_capture).(pcap_path) = Some (directory n +:+ "/capture.pcap").

Lemma quiet_accounted n r w w' : quiet w w' → accounted n r w → accounted n r w'.
Proof. intros Hq [[Hp He]|Hp]; [left; split; [done|by eapply quiet_empty]|by right]. Qed.

Lemma cleanup_accounted n r w : accounted n r w →
  ∃ r' w', _cleanup_retained_capture settings r w = (Return r', w') ∧ r'.(passive_capture).(pcap_path) = None ∧ empty_dir (directory n) w'.
Proof.
  unfold _cleanup_retained_capture. intros [[Hp He]|Hp].
  - unfold cleanup. rewrite Hp, bind_ret_l. eexists _, w. split; [reflexivity|]. done.
  - destruct (cleanup_ok r.(passive_capture) true n w Hp (andb_false_r _)) as (w' & E & Hc & _). rewrite (then_run _ _ _ _ _ E).
    eexists _, w'. split; [reflexivity|]. done.
Qed.

(** A kept capture becomes evidence; its file stays only when that fails. *)
Lemma keep_capture_clear n r w : accounted n r w → settings.(passive_retain_capture) = true ∨ r.(passive_capture).(pcap_path) = None →
  match keep_capture settings audit_id job_id r w with
  | (Return _, w') => empty_dir (directory n) w'
  | (Raise _, _) => settings.(passive_retain_capture) = true
  end.
Proof.
  intros Ha Hr. unfold keep_capture. destruct (capture_path_parts n) as (x & s & E & _ & _).
  destruct Ha as [[Hp He]|Hp]; rewrite Hp; [exact He|]. destruct Hr as [Hr|Hr]; [|congruence]. rewrite E, Hr.
  rewrite (then_run (reads _) _ _ _ _ eq_refl). unfold mbind at 1, prog_bind at 1.
  destruct (on_site _ w) as [[artifact|e] w1] eqn:E1; [|done].
  destruct (cleanup_accounted n r w1) as (r' & w2 & E2 & _ & He); [by right|]. by rewrite (then_run _ _ _ _ _ E2).
Qed.

Lemma quiet_ingest_result : along quiet (ingest_passive_result vendors json_loads_file evidence_root audit_id job_id).
Proof. unfold ingest_passive_result. along_prog. Qed.

End captures.

(** ** The assessment *)

Lemma gather_returns {A B} (f : A → outcome PyExc B) l : (∀ x, x ∈ l → ∃ y, f x = Return y) → ∃ ys, gather f l = Return ys.
Proof.
  induction l as [|x l IH]; intros Hf; cbn; [by exists []|]. destruct (Hf x ltac:(constructor)) as [y ->]. cbn.
  destruct IH as [ys ->]; [intros; apply Hf; by constructor|]. by exists (y :: ys).
Qed.
Lemma gather_map {A B} (f : A → outcome PyExc B) g l : (∀ x, f x = Return (g x)) → gather f l = Return (List.map g l).
Proof. intros Hf. induction l as [|x l IH]; cbn; [done|]. by rewrite Hf, IH. Qed.

Lemma py_append_new_elem l v x : x ∈ py_append_new l v → x ∈ l ∨ x = v.
Proof. unfold py_append_new. destruct (py_member v l); [by left|]. set_solver. Qed.
Lemma py_fold_elem vs acc x : x ∈ foldl py_append_new acc vs → x ∈ acc ∨ x ∈ vs.
Proof.
  revert acc. induction vs as [|v vs IH]; intros acc; cbn; [by left|]. intros [[?| ->]%py_append_new_elem|?]%IH; set_solver.
Qed.
Lemma py_fold_from_nil vs x : x ∈ foldl py_append_new [] vs → x ∈ vs.
Proof. intros [?%elem_of_nil|?]%py_fold_elem; done. Qed.

(** Different numbers stay as they are in a set. *)
Lemma py_set_numbers (l : list Z) : NoDup l → py_set (List.map PInt l) = Return (List.map PInt l).
Proof.
  intros Hnd. unfold py_set. assert (forallb hashable (List.map PInt l) = true) as -> by (apply forallb_forall; by intros v (z & <- & _)%in_map_iff).
  f_equal. assert (∀ acc, NoDup (acc ++ l) → foldl py_append_new (List.map PInt acc) (List.map PInt l) = List.map PInt (acc ++ l)) as H;
    [|by apply (H [])].
  clear Hnd. induction l as [|x l IH]; intros acc Hnd; cbn; [by rewrite app_nil_r|].
  assert (py_append_new (List.map PInt acc) (PInt x) = List.map PInt (acc ++ [x])) as ->.
  { unfold py_append_new. assert (py_member (PInt x) (List.map PInt acc) = false) as ->; [|by rewrite map_app].
    apply not_true_iff_false. intros (y & (z & <- & Hz)%in_map_iff & Hx)%existsb_exists. cbn in Hx. apply Z.eqb_eq in Hx as ->.
    apply NoDup_app in Hnd as (_ & Hd & _). apply (Hd z); [by apply list_elem_of_In|constructor]. }
  rewrite IH by (by rewrite <- app_assoc). by rewrite <- app_assoc.
Qed.

Definition is_text (v : pyval) : Prop := ∃ s, v = PStr s.

Lemma texts_sorted l : (∀ v, v ∈ l → is_text v) → ∃ l1 l2, py_set l = Return l1 ∧ py_sorted l1 = Return l2.
Proof.
  intros Hl. unfold py_set. assert (forallb hashable l = true) as ->.
  { apply forallb_forall. intros v Hv%list_elem_of_In. by destruct (Hl v Hv) as [s ->]. }
  unfold py_sorted. set (names := foldl py_append_new [] l). exists names.
  assert (∀ v, v ∈ names → is_text v) as Hn by (intros v Hv%py_fold_from_nil; auto).
  assert (forallb (fun v => match v with PStr _ => true | _ => false end) names = true) as Hall.
  { apply forallb_forall. intros v Hv%list_elem_of_In. by destruct (Hn v Hv) as [s ->]. }
  destruct names as [|a [|b names]]; eexists; (split; [reflexivity|]); [done|done|]. rewrite Hall. done.
Qed.

(** ** What the assessment reads of the sensors *)

Lemma run_sensor_cases name sensor dataset :
  (∃ r, sensor dataset = Return r ∧ run_sensor dataset (name, sensor) = (name, r)) ∨
  (∃ e, run_sensor dataset (name, sensor) = (name, failed_sensor name e)).
Proof. unfold run_sensor. cbn. destruct (sensor dataset) as [r|e]; [left; by exists r|right; by exists e]. Qed.

(** A list in the summary of a sensor. *)
Definition lists (key : string) (shape : pyval → Prop) (r : SensorResult) : Prop :=
  ∃ l, default (PList []) (dict_get r.(sensor_summary) key) = PList l ∧ ∀ v, v ∈ l → shape v.

Lemma lists_summary key shape r : lists key shape r → ∀ v, v ∈ _summary_list (Some r) key → shape v.
Proof.
  intros (l & Hl & Hs) v. unfold _summary_list. destruct (dict_get _ key) as [w|]; [|by intros ?%elem_of_nil].
  cbn in Hl. subst w. apply Hs.
Qed.
Lemma failed_lists key shape name e : lists key shape (failed_sensor name e).
Proof. exists []. split; [done|]. by intros v ?%elem_of_nil. Qed.

Lemma loop_lists {X} f (shown : list X → list Observation) name summary (items : list X → list pyval) key (shape : pyval → Prop) dataset r :
  (∀ xs, dict_get (summary xs) key = Some (PList (items xs))) → (∀ xs v, v ∈ items xs → shape v) →
  (xs ← for_packets f dataset.(packets); sensor_result name (shown xs) None (summary xs) dataset.(dataset_errors)) = Return r →
  lists key shape r.
Proof.
  intros Hk Hs (xs & _ & Hr)%outcome_bind_inv. destruct (sensor_result_counts _ _ _ _ _ Hr) as (_ & _ & E).
  exists (items xs). split; [by rewrite E, Hk|apply Hs].
Qed.

Definition relation_like (v : pyval) : Prop := ∃ l, v = relation_dump "ipv4" l.
Definition router_like (v : pyval) : Prop := ∃ r, v = router_dump r.
Definition server_like (v : pyval) : Prop := ∃ s, v = server_dump s.

Lemma mapped_elem {A} (f : A → pyval) l v : v ∈ List.map f l → ∃ x, v = f x.
Proof. intros (x & <- & _)%list_elem_of_In%in_map_iff. by exists x. Qed.

Lemma arp_lists dataset : lists "observed_ipv4_mac" relation_like (run_sensor dataset ("arp", arp_sensor)).2.
Proof.
  destruct (run_sensor_cases "arp" arp_sensor dataset) as [(r & Hr & ->)|(e & ->)]; [|apply failed_lists].
  unfold arp_sensor in Hr. cbv zeta in Hr. revert Hr.
  apply (loop_lists _ (List.map fst) "arp" _ (fun xs => List.map (relation_dump "ipv4") (unique (flat_map snd xs)))); [done|].
  intros xs v (x & ->)%mapped_elem. by exists x.
Qed.
Lemma ra_lists dataset : lists "routers" router_like (run_sensor dataset ("ipv6_ra", ipv6_ra_sensor)).2.
Proof.
  destruct (run_sensor_cases "ipv6_ra" ipv6_ra_sensor dataset) as [(r & Hr & ->)|(e & ->)]; [|apply failed_lists].
  unfold ipv6_ra_sensor in Hr. cbv zeta in Hr. revert Hr.
  apply (loop_lists _ (List.map fst) "ipv6_ra" _ (fun xs => List.map router_dump (foldl router_after [] (List.map snd xs)))); [done|].
  intros xs v (x & ->)%mapped_elem. by exists x.
Qed.
Lemma dhcp_lists dataset : lists "servers" server_like (run_sensor dataset ("dhcpv4", dhcpv4_sensor)).2.
Proof.
  destruct (run_sensor_cases "dhcpv4" dhcpv4_sensor dataset) as [(r & Hr & ->)|(e & ->)]; [|apply failed_lists].
  unfold dhcpv4_sensor in Hr. cbv zeta in Hr. revert Hr.
  apply (loop_lists _ (List.map fst) "dhcpv4" _ (fun xs => List.map server_dump (foldl server_after [] (List.map snd xs)))); [done|].
  intros xs v (x & ->)%mapped_elem. by exists x.
Qed.

Definition dns_texts (o : Observation) : Prop := ∃ texts, dict_get o.(seen_data) "dns_servers" = Some (py_texts texts).
Lemma dhcpv6_texts dataset o : o ∈ (run_sensor dataset ("dhcpv6", dhcpv6_sensor)).2.(sensor_observations) → dns_texts o.
Proof.
  destruct (run_sensor_cases "dhcpv6" dhcpv6_sensor dataset) as [(r & Hr & ->)|(e & ->)]; [|by intros ?%elem_of_nil].
  unfold dhcpv6_sensor in Hr. apply outcome_bind_inv in Hr as (xs & Hxs & Hr). cbv zeta in Hr.
  destruct (sensor_result_counts _ _ _ _ _ Hr) as (_ & E & _). cbn [snd]. rewrite E.
  intros (x & <- & Hx)%list_elem_of_In%in_map_iff. apply list_elem_of_In, (for_packets_elem _ _ _ Hxs) in Hx as (p & _ & Hx).
  apply when_seen_Some in Hx as [_ Hx]. unfold dhcpv6_message in Hx. apply outcome_bind_inv in Hx as (id & _ & Hx). cbv zeta in Hx.
  injection Hx as <-. by eexists.
Qed.

(** The parts of the assessment over any record of these shapes. *)
Lemma build_ipv4_returns arp dhcpv4 : lists "observed_ipv4_mac" relation_like arp →
  ∃ d, build_ipv4 (Some arp) dhcpv4 = Return d.
Proof.
  intros Hl. unfold build_ipv4, infer_ipv4_groups.
  destruct (gather_returns (fun r => py_get r "ipv4") (_summary_list (Some arp) "observed_ipv4_mac")) as [ys Hys].
  { intros v (l & ->)%(lists_summary _ _ _ Hl). by eexists. }
  rewrite Hys. by eexists.
Qed.

(** What [gather] returns was returned for an element. *)
Lemma gather_elem {A B} (f : A → outcome PyExc B) l ys y : gather f l = Return ys → y ∈ ys → ∃ x, x ∈ l ∧ f x = Return y.
Proof.
  revert ys. induction l as [|x l IH]; intros ys; cbn; [by intros [= <-] ?%elem_of_nil|].
  intros (z & Hz & (zs & Hzs & [= <-])%outcome_bind_inv)%outcome_bind_inv [<-|Hy]%elem_of_cons; [exists x; split; [constructor|done]|].
  destruct (IH zs Hzs Hy) as (x' & ? & ?). exists x'. split; [by constructor|done].
Qed.

Definition prefix_like (v : pyval) : Prop := ∃ x, v = prefix_dump x.

Lemma any_autonomous_returns l : (∀ v, v ∈ l → prefix_like v) → ∃ b, any_autonomous l = Return b.
Proof.
  induction l as [|v l IH]; intros Hl; cbn; [by eexists|]. destruct (Hl v ltac:(constructor)) as [x ->]. cbn.
  destruct (is_true _); [by eexists|]. apply IH. intros v Hv. apply Hl. by constructor.
Qed.

Lemma router_items router : router_like router → ∃ prefixes rdnss,
  (prefixes ← entries_of router "prefixes"; rdnss ← entries_of router "rdnss"; Return (prefixes, rdnss)) = Return (prefixes, rdnss) ∧
  (∀ v, v ∈ prefixes → prefix_like v) ∧ (∀ v, v ∈ rdnss → is_text v).
Proof.
  intros (r & ->). unfold entries_of. cbn. do 2 eexists. split; [reflexivity|].
  split; intros v (x & ->)%mapped_elem; by eexists.
Qed.

Lemma build_ipv6_returns ra nd dhcpv6 : lists "routers" router_like ra → (∀ o, o ∈ dhcpv6.(sensor_observations) → dns_texts o) →
  ∃ d, build_ipv6 (Some ra) nd (Some dhcpv6) = Return d.
Proof.
  intros Hl Ho. unfold build_ipv6. cbv zeta. pose proof (lists_summary _ _ _ Hl) as Hrouters.
  destruct (gather_returns (fun router => prefixes ← entries_of router "prefixes"; rdnss ← entries_of router "rdnss";
    Return (prefixes, rdnss)) (_summary_list (Some ra) "routers")) as [advertised Ea].
  { intros v (p & d & E & _)%Hrouters%router_items. by exists (p, d). }
  assert (∀ x, x ∈ advertised → (∀ v, v ∈ x.1 → prefix_like v) ∧ (∀ v, v ∈ x.2 → is_text v)) as Hadv.
  { intros x (v & (p & d & E & Hp & Hd)%Hrouters%router_items & Ex)%(gather_elem _ _ _ _ Ea). rewrite E in Ex. by injection Ex as <-. }
  rewrite Ea, bind_Return.
  destruct (gather_returns (fun item => entries_of (PDict item.(seen_data)) "dns_servers") dhcpv6.(sensor_observations)) as [servers Es].
  { intros o (texts & E)%Ho. unfold entries_of. rewrite E. by eexists. }
  rewrite Es, bind_Return.
  destruct (any_autonomous_returns (foldl py_append_new [] (flat_map fst advertised))) as [b ->].
  { intros v (x & Hx%list_elem_of_In%Hadv & Hv%list_elem_of_In)%py_fold_from_nil%list_elem_of_In%in_flat_map. by apply Hx. }
  rewrite bind_Return.
  destruct (texts_sorted (foldl py_append_new [] (flat_map snd advertised) ++ foldl py_append_new [] (List.concat servers)))
    as (l1 & l2 & -> & E2); [|rewrite bind_Return, E2; by eexists].
  intros v [(x & Hx%list_elem_of_In%Hadv & Hv%list_elem_of_In)%py_fold_from_nil%list_elem_of_In%in_flat_map
           |(ys & Hys%list_elem_of_In & Hv%list_elem_of_In)%py_fold_from_nil%list_elem_of_In%in_concat]%elem_of_app; [by apply Hx|].
  destruct (gather_elem _ _ _ _ Es Hys) as (o & (texts & E)%Ho & Ey). unfold entries_of in Ey. rewrite E in Ey. injection Ey as <-.
  apply mapped_elem in Hv as (s & ->). by exists s.
Qed.

Lemma hints_return dhcpv4 neighbors : lists "servers" server_like dhcpv4 → ∃ hints, _infrastructure_hints (Some dhcpv4) neighbors = Return hints.
Proof.
  intros (l & Hl & Hs). unfold _infrastructure_hints, entries_of. rewrite Hl. cbn [py_list]. rewrite bind_Return.
  destruct (gather_returns server_hints l) as [ys ->]; [|by eexists].
  intros v (s & ->)%Hs. unfold server_hints, entries_of. cbn. by eexists.
Qed.

(** ** VLANs and the type of the port *)

Lemma ethernet_result dataset : ∃ r, ethernet_sensor dataset = Return r ∧
  r.(hits) = Z.of_nat (length (source_macs dataset.(packets))).
Proof.
  unfold ethernet_sensor. cbv zeta.
  match goal with |- context [sensor_result ?n ?o ?h ?s ?e] => destruct (sensor_result_returns n o h s e) as (r & ? & _ & ? & _) end;
    [|by exists r]. intros n [= <-]. apply Nat2Z.is_nonneg.
Qed.

(** A VLAN that a packet is tagged with. *)
Definition seen_vlan (dataset : PacketDataset) (v : Z) : Prop := ∃ p, p ∈ dataset.(packets) ∧ v ∈ _dot1q_ids p.

Lemma vlans_of_counts dataset v : v ∈ List.map fst (vlan_counts dataset.(packets)) ↔ seen_vlan dataset v.
Proof.
  rewrite list_elem_of_In, in_map_iff. setoid_rewrite <- list_elem_of_In. split.
  - by intros ([w n] & <- & [(p & Hp) _]%vlan_counts_spec); exists p.
  - intros (p & Hp & Hv). eexists (v, _). split; [done|]. apply vlan_counts_spec. split; [by exists p|done].
Qed.

Lemma vlans_different dataset : NoDup (List.map fst (vlan_counts dataset.(packets))).
Proof.
  pose proof (vlan_counts_sorted dataset.(packets)) as Hs. induction Hs as [|[v n] l Hs IH Hall]; [constructor|]. cbn. constructor; [|done].
  intros ([w m] & E & Hw%list_elem_of_In)%list_elem_of_In%in_map_iff. rewrite Forall_forall in Hall. specialize (Hall _ Hw). cbn in *. lia.
Qed.

Lemma two_elements {A} (l : list A) : NoDup l → (1 < length l)%nat ↔ ∃ x y, x ≠ y ∧ x ∈ l ∧ y ∈ l.
Proof.
  intros Hnd. split.
  - destruct l as [|x [|y l]]; cbn; [lia|lia|]. intros _. exists x, y. apply NoDup_cons in Hnd as [Hno _]. split; [|set_solver].
    intros ->. apply Hno. constructor.
  - intros (x & y & Hne & Hx & Hy). destruct l as [|a [|b l]]; cbn; [by apply elem_of_nil in Hx| |lia].
    apply list_elem_of_singleton in Hx, Hy. congruence.
Qed.

Lemma tagged_ids counts : tagged_vlans_of (List.map (fun '(v, n) => PDict [("vlan_id", PInt v); ("frames", PInt n)]) counts) =
  Return (List.map PInt (List.map fst counts)).
Proof.
  unfold tagged_vlans_of. assert (∀ l, gather (fun item => py_get item "vlan_id")
    (List.map (fun '(v, n) => PDict [("vlan_id", PInt v); ("frames", PInt n)]) l) = Return (List.map PInt (List.map fst l))) as ->.
  { induction l as [|[v n] l IH]; [done|]. cbn in *. by rewrite IH. }
  rewrite bind_Return. f_equal. induction (List.map fst counts) as [|v l IH]; [done|]. cbn. by rewrite IH.
Qed.

(** Frames with a tag; frames with the address of their sender. *)
Definition tagged_count (dataset : PacketDataset) : Z := count_packets tagged_frame dataset.(packets).
Definition sender_count (dataset : PacketDataset) : Z := Z.of_nat (length (source_macs dataset.(packets))).

Lemma untagged_capture dataset : tagged_count dataset = 0 → ∀ v, ¬ seen_vlan dataset v.
Proof.
  unfold tagged_count, count_packets. intros H0 v (p & Hp & Hv).
  assert (p ∈ List.filter tagged_frame dataset.(packets)) as Hin.
  { apply list_elem_of_In, filter_In. split; [by apply list_elem_of_In|]. unfold tagged_frame. by destruct (_dot1q_ids p); [apply elem_of_nil in Hv|]. }
  by destruct (List.filter _ _); [apply elem_of_nil in Hin|].
Qed.

(** The hint about the port, by what it says. *)
Lemma port_hint_cases ids tagged senders : 0 <= tagged → 0 <= senders →
  let hint := (_port_type_hint ids (truthy (PInt tagged)) (tagged <? senders) senders).(concluded) in
  (hint = PStr "trunk-like" ↔ (1 < ids)%nat) ∧
  (hint = PStr "tagged-with-possible-native" ↔ (ids <= 1)%nat ∧ 0 < tagged ∧ tagged < senders) ∧
  (hint = PStr "tagged-segment" ↔ (ids <= 1)%nat ∧ 0 < tagged ∧ senders <= tagged) ∧
  (hint = PStr "access-or-native-like" ↔ (ids <= 1)%nat ∧ tagged = 0 ∧ 0 < senders) ∧
  (hint = PStr "unknown" ↔ (ids <= 1)%nat ∧ tagged = 0 ∧ senders = 0).
Proof.
  intros Ht Hs. unfold _port_type_hint. destruct (1 <? ids)%nat eqn:E1; cbn [concluded truthy]; [apply Nat.ltb_lt in E1|apply Nat.ltb_ge in E1].
  { split_and!; (split; [intros ?; first [lia|done]|intros ?; first [done|exfalso; lia]]). }
  destruct (tagged =? 0) eqn:E2; [apply Z.eqb_eq in E2|apply Z.eqb_neq in E2]; cbn [negb andb].
  - destruct (senders =? 0) eqn:E3; [apply Z.eqb_eq in E3|apply Z.eqb_neq in E3]; cbn [negb concluded];
      split_and!; (split; [intros ?; first [lia|done]|intros ?; first [done|exfalso; lia]]).
  - destruct (tagged <? senders) eqn:E3; [apply Z.ltb_lt in E3|apply Z.ltb_ge in E3]; cbn [concluded];
      split_and!; (split; [intros ?; first [lia|done]|intros ?; first [done|exfalso; lia]]).
Qed.

(** What the second layer says of a capture. *)
Lemma layer2_of dataset stp neighbors :
  ∃ d, build_layer2 (Some (run_sensor dataset ("ethernet", ethernet_sensor)).2) (Some (run_sensor dataset ("vlan", vlan_sensor)).2)
         stp neighbors = Return d ∧
  get d "tagged_vlans_observed" = PList (List.map PInt (List.map fst (vlan_counts dataset.(packets)))) ∧
  get d "untagged_traffic_observed" = PBool (tagged_count dataset <? sender_count dataset) ∧
  get d "port_type_hint" = conclusion_dump (_port_type_hint (length (vlan_counts dataset.(packets)))
    (truthy (PInt (tagged_count dataset))) (tagged_count dataset <? sender_count dataset) (sender_count dataset)).
Proof.
  destruct (ethernet_result dataset) as (e & Ee & Eh). destruct (vlan_result dataset) as (xs & r & _ & Er & _ & _ & Es).
  unfold run_sensor. cbn [fst snd]. rewrite Ee, Er. unfold build_layer2, _summary_list, _summary_int. rewrite Es.
  cbn [dict_get String.eqb Ascii.eqb Bool.eqb default]. cbn. rewrite tagged_ids, bind_Return, py_set_numbers, bind_Return by apply vlans_different.
  rewrite Eh, !length_map. by eexists.
Qed.

Lemma result_of dataset name sensor : dict_get PASSIVE_SENSORS name = Some sensor →
  dict_get (run_passive_sensors dataset) name = Some (run_sensor dataset (name, sensor)).2.
Proof.
  unfold run_passive_sensors. generalize PASSIVE_SENSORS. intros l. induction l as [|[k s] l IH]; [done|]. cbn.
  destruct (String.eqb name k) eqn:E; [|exact IH]. apply String.eqb_eq in E as ->. by intros [= ->].
Qed.

(** C39: what a capture is assessed as.  Whatever the packets are, the assessment is made: no sensor,
    however it failed, keeps it from being made, and neither do the sensors of a capture that could
    not be read, for which it claims no VLAN and no type of port.  It lists the VLANs of the tags,
    each once; it says that there is untagged traffic when fewer frames have a tag than have a
    sender; and it hints at a trunk exactly when two different VLANs were seen, at a port of one
    segment when frames without a tag alone were seen, and at nothing for a capture without either. *)
Theorem assessment_correct capture dataset :
  (∃ a hint, build_assessment capture (run_passive_sensors dataset) = Return a ∧
    a.(visibility) = visibility_of capture ∧
    get a.(layer2) "tagged_vlans_observed" = PList (List.map PInt (List.map fst (vlan_counts dataset.(packets)))) ∧
    (∀ v, v ∈ List.map fst (vlan_counts dataset.(packets)) ↔ seen_vlan dataset v) ∧
    NoDup (List.map fst (vlan_counts dataset.(packets))) ∧
    get a.(layer2) "untagged_traffic_observed" = PBool (tagged_count dataset <? sender_count dataset) ∧
    get a.(layer2) "port_type_hint" = conclusion_dump hint ∧
    (hint.(concluded) = PStr "trunk-like" ↔ ∃ v w, v ≠ w ∧ seen_vlan dataset v ∧ seen_vlan dataset w) ∧
    (hint.(concluded) = PStr "access-or-native-like" ↔ tagged_count dataset = 0 ∧ 0 < sender_count dataset) ∧
    (hint.(concluded) = PStr "unknown" ↔ tagged_count dataset = 0 ∧ sender_count dataset = 0)) ∧
  (∀ errors, ∃ a hint, build_assessment capture (_unavailable_sensors errors) = Return a ∧
    get a.(layer2) "tagged_vlans_observed" = PList [] ∧
    get a.(layer2) "port_type_hint" = conclusion_dump hint ∧ hint.(concluded) = PStr "unknown").
Proof.
  split.
  - unfold build_assessment. rewrite (result_of dataset "ethernet" _ eq_refl), (result_of dataset "vlan" _ eq_refl),
      (result_of dataset "arp" _ eq_refl), (result_of dataset "dhcpv4" _ eq_refl), (result_of dataset "ipv6_ra" _ eq_refl),
      (result_of dataset "dhcpv6" _ eq_refl). cbv zeta.
    match goal with |- context [build_layer2 _ _ ?stp ?n] => destruct (layer2_of dataset stp n) as (d & -> & Hv & Hu & Hp) end.
    destruct (build_ipv4_returns _ (Some (run_sensor dataset ("dhcpv4", dhcpv4_sensor)).2) (arp_lists dataset)) as [d4 ->].
    match goal with |- context [build_ipv6 _ ?nd _] => destruct (build_ipv6_returns _ nd _ (ra_lists dataset) (dhcpv6_texts dataset)) as [d6 ->] end.
    match goal with |- context [_infrastructure_hints _ ?n] => destruct (hints_return _ n (dhcp_lists dataset)) as [hints ->] end.
    rewrite !bind_Return. do 2 eexists. split; [reflexivity|]. cbn [visibility layer2].
    destruct (port_hint_cases (length (vlan_counts dataset.(packets))) (tagged_count dataset) (sender_count dataset))
      as (Htrunk & _ & _ & Haccess & Hunknown); [unfold tagged_count, count_packets; lia|unfold sender_count; lia|].
    assert (tagged_count dataset = 0 → (length (vlan_counts dataset.(packets)) <= 1)%nat) as H01.
    { intros H0. destruct (vlan_counts dataset.(packets)) as [|[v n] l] eqn:E; [cbn; lia|]. exfalso.
      apply (untagged_capture dataset H0 v), vlans_of_counts. rewrite E. constructor. }
    split_and!; [done|exact Hv|apply vlans_of_counts|apply vlans_different|exact Hu|exact Hp| | |].
    + rewrite Htrunk, <- (length_map fst), two_elements by apply vlans_different. by setoid_rewrite vlans_of_counts.
    + rewrite Haccess. naive_solver.
    + rewrite Hunknown. naive_solver.
  - intros errors. by do 2 eexists.
Qed.

(** ** A passive discovery at work *)

#[local] Existing Instance sample_runtime | 0.
#[local] Existing Instance sample_runtime_ok | 0.
#[local] Existing Instance sample_plain_ids | 0.
#[local] Existing Instance reliable | 0.

(** dumpcap captures three frames, of which two carry the tags 10 and 20, and tshark decodes
    them. *)
#[local] Instance tap_tools : ToolHost :=
  {| tool_answer n c :=
       mkToolResult (argv c) c.(tool) (Some 0) (match c.(args) with [_; a] => a | [_; _; _; a; _] => a | _ => "" end)
         (if String.eqb c.(tool) "dumpcap" then "Packets captured: 3" else "") 0 1000 1000 false false true None;
     which tool := Some ("/usr/bin/" +:+ tool);
     token_set _ := false |}.
Definition tap_files (c : ToolCommand) (before : gmap string string) : gmap string string :=
  if String.eqb c.(tool) "dumpcap" then
    match rev c.(args) with _ :: pcap :: _ => <[pcap := "frames"]> before | _ => before end
  else
    map_imap (fun path text => Some (if endswith path ".ek.jsonl" then
      join (String newline EmptyString) ["ten"; "twenty"; "none"] else text)) before.
#[local] Instance tap_scans : ScanHost :=
  {| scan_files _ := tap_files; scan_output _ _ := []; monotonic n := Z.of_nat n; speed_file _ := None; effective_uid := 0;
     proc_status := None |}.
#[local] Instance tap_names : TempNames := {| temp_name _ := "a1b2" |}.

Definition tap_layers (vlan : list (string * pyval)) : pyval :=
  PDict [("layers", PDict (("eth", PDict [("eth_eth_src", PStr "02:00:00:00:00:01")]) :: vlan))].
Definition tap_json (s : string) : string + pyval :=
  if String.eqb s "ten" then inr (tap_layers [("vlan", PDict [("vlan_vlan_id", PStr "10")])])
  else if String.eqb s "twenty" then inr (tap_layers [("vlan", PDict [("vlan_vlan_id", PStr "20")])])
  else if String.eqb s "none" then inr (tap_layers [])
  else ip_json s.

Definition tap_settings (retain : bool) : PassiveSettings :=
  mkPassiveSettings (mkInterfaceSettings [] false true) "/run/captures" 5 600 30 1000 1024 262144 true retain "dumpcap" "tshark".
Definition tap_request : dict := [("interface", PStr "eth0"); ("duration_seconds", PInt 10)].
Definition no_clock (_ : float) : outcome PyExc datetime := Raise (PyValueError "year is out of range").
Definition no_float (_ : pyval) : outcome PyExc float := Raise (PyTypeError "float() argument").

Definition passive_job (retain : bool) : outcome ActiveExc (string * dict) * ActiveWorld :=
  execute_passive (tap_settings retain) demo_vendors tap_json (fun _ => inr (PDict [])) (fun _ => None) no_float no_clock
    ["evidence"] sample_audit audit_job tap_request None agreed_world.

Definition passive_run (retain : bool) : outcome ActiveExc PassiveResult * ActiveWorld :=
  run_pipeline (tap_settings retain) tap_json (fun _ => None) no_float no_clock "eth0" 10 retain agreed_world.

(** A trunk is seen; the packets stay only where they are to be kept, what tshark wrote does not. *)
Example passive_runs :
  (percentage <$> (passive_run false).2.(act_site).(site_progress)) = [5; 10; 50; 60; 85; 95] ∧
  option_map (fun r => (get r.(passive_assessment).(layer2) "tagged_vlans_observed", r.(passive_errors)))
    (match (passive_run false).1 with Return r => Some r | Raise _ => None end) = Some (PList [PInt 10; PInt 20], []) ∧
  (map_to_list (passive_run false).2.(runtime_files)).*1 = [] ∧
  (map_to_list (passive_run true).2.(runtime_files)).*1 = ["/run/captures/wirescope_a1b2/capture.pcap"].
Proof. vm_compute. split_and!; reflexivity. Qed.


Lemma tap_errors_short n c : (String.length (tool_answer n c).(stderr) <= 4300)%nat.
Proof. cbn. destruct (String.eqb _ _); cbn; lia. Qed.


(** ** What the program does that its reports do not say *)

(** A DHCP answer that assigns no address, as the answer to a request for the options alone,
    advertises the network 0.0.0.0/24, with high confidence. *)
Definition inform_answer : PacketRecord :=
  mkPacket 1 None ["eth"; "dhcp"] (Some "02:00:00:00:00:01") None (Some "192.168.1.1") None
    [("dhcp_option_dhcp", ["5"]); ("dhcp_ip_your", ["0.0.0.0"]); ("dhcp_option_subnet_mask", ["255.255.255.0"])].
Example unassigned_network :
  match dhcpv4_sensor (mkDataset [inform_answer] [] (tool_answer 0 (mkCommand "tshark" [] 30 [] [])) None) with
  | Return r => List.map (fun c => (c.(concluded), c.(conclusion_confidence))) (_dhcp_network_conclusions (Some r))
  | Raise _ => []
  end = [(PDict [("candidate_group", PStr "0.0.0.0/24"); ("advertised_mask", PStr "255.255.255.0")], CONF_HIGH)].
Proof. vm_compute. reflexivity. Qed.

(** When the packets cannot become evidence, the job ends without removing them; only the later
    removal of stale directories does. *)
Definition full_disk (n : nat) : option (string * nat) := if Nat.eqb n 8 then Some ("No space left on device", 0%nat) else None.
Example capture_left_on_failure :
  let job := @execute_passive sample_runtime {| io_fault := full_disk |} tap_tools tap_scans tap_names (tap_settings true) demo_vendors
    tap_json (fun _ => inr (PDict [])) (fun _ => None) no_float no_clock ["evidence"] sample_audit audit_job tap_request None agreed_world in
  is_return job.1 = false ∧ (map_to_list job.2.(runtime_files)).*1 = ["/run/captures/wirescope_a1b2/capture.pcap"].
Proof. vm_compute. split; reflexivity. Qed.

(** A time too large for the clock loses all the packets, not the one it stands in: the error
    is no [ValueError]. *)
Example overflowing_time :
  parse_ek_stream (fun s => if String.eqb s "timed" then inr (PDict [("layers", PDict []); ("timestamp", PStr "1e30")]) else tap_json s)
    (fun _ => None) (fun _ => Return (float_of_int 1)) (fun _ => Raise (PyOverflowError "timestamp out of range"))
    ["ten"; "timed"] = Raise (PyOverflowError "timestamp out of range").
Proof. vm_compute. reflexivity. Qed.
